(* ===== verification/_CoqProject ===== *)
-Q . S2P
Prelude.v
Numbers.v
Values.v
WireEnvelope.v
WsClient.v
Transport.v
Reconnect.v
OffererDriver.v
OffererInvariant.v
OffererProperties.v
IceConfig.v
DcHost.v
FileUpload.v
LastPointer.v
CursorEnvelope.v
CursorEmitter.v
InputEnvelope.v
InputWidget.v
InputMouse.v
InputKeyboard.v
InputTouch.v
InputDrag.v
InputComposite.v
ControlChannel.v
Prompts.v
BeginFrame.v
AudioLifecycle.v
SessionSupervisor.v
ClipboardRelay.v
ClockRebase.v
FrameCapture.v
VideoEncoder.v
H264Encoder.v
Vp9Encoder.v
ShellEncoder.v
SvtAv1Encoder.v
NvencEncoder.v
SimulcastEncoder.v
BweAdapter.v
VaapiEncoder.v
EncoderFactory.v
Viewport.v
ActivePage.v
EnvConfig.v
StatsRelay.v
DevtoolsAgent.v
Tabs.v
Downloads.v
AuraClients.v
ProcessSetup.v
