(* ===== verification/Prelude.v ===== *)
(** * Chromeless: a verification of the capture process

    Chromeless runs a browser in the cloud and streams it to a viewer over
    WebRTC.  The C++ under capture/ is the process in the guest: it embeds
    chromium, captures the frames of one page, negotiates a peer connection
    through a signaling broker, and carries the viewer's input, clipboard,
    files and answers back to the page.  This library models the parts of that
    process that have logic of their own, as executable definitions that follow
    the source function by function, and proves what makes them correct.

    ** How the model is built

    A member function is a computation [eff S E A] ([Prelude]): it reads and
    updates the object's state [S] and emits the calls it makes on other
    objects, in order, as events [E].  A class is a record of its members, an
    input type for its entry points (API calls, callbacks, timer fires) and a
    function [handle] from inputs to computations; an execution is a list of
    inputs, or, where only some inputs can happen, [reachable].  What runs on
    another thread or later (a posted task, an asynchronous send, a PeerConnection
    operation, a write on the thread pool) is part of the state as a queue or a
    set, and its completion is an input of its own, so that theorems over all
    executions cover every interleaving.  Machine integers are [Z] with their
    wrap-around written out, floating point is [SpecFloat]; code that is not of
    this repository (libwebrtc, chromium's base, JSON text, base64, hashes) is a
    class of functions with named laws, or the environment's inputs.

    ** The parts and where they are modelled

    Signaling (capture/signaling/):
    - [Values], [WireEnvelope]: JSON values, the typed envelopes and both wire
      dialects (cb_wire_envelope).  Round trip, invariant of what is decoded,
      equivalence of the dialects, exact refusal.
    - [WsClient]: the one-shot WebSocket client (cb_signaling_ws_client): dial
      URL, framing, the drain of the data pipe.  The drain reassembles the
      messages, terminates, and the end of the connection is announced once.
    - [Transport]: the seam (cb_signaling_transport.h) as a class with its
      contract, which the client and the supervisor discharge.
    - [Reconnect]: the reconnect supervisor (cb_signaling_reconnect) over any
      [InnerClient]: coherence, the backoff schedule, giving up, send contract.
    - [OffererDriver], [OffererInvariant], [OffererProperties]: the SDP dance
      (cb_offerer_driver) with the operations in flight on the signaling
      thread.  The state says which operation is in flight; offers precede
      candidates; ends are reported once; re-arming isolates sessions; early
      answers, renegotiations, and the executions that go wrong.
    - [IceConfig], [DcHost]: the ICE configuration (cb_ice_config) and the host
      of the six data channels (cb_dc_host).

    Session (capture/build-integration/, capture/audio/):
    - [AudioLifecycle] (cb_audio_lifecycle): what is owned is released once.
    - [SessionSupervisor] (cloud_browser_browser_main_parts, cb_audio_track):
      start, re-arm and end of a session over the two models above, the queue
      of the main sequence, and who points at what while parts are freed: a
      pointer to a freed consumer is there only during a re-arm, or after one
      that failed.
    - [BeginFrame] (cb_begin_frame_driver): frame pacing, the watchdog, the
      detection of a dead renderer.
    - [Viewport] (cb_viewport_controller, cb_headless_screen) and [ActivePage]
      (cb_active_webcontents_resolver, the re-arming of the capture in
      cloud_browser_browser_main_parts): which page is captured and how large
      everything is.  Display, host, page and frames agree; the page that gets
      input is the page that is seen; what happens when a page swaps its view,
      dies or is closed.
    - [EnvConfig] (cb_env_config) and [StatsRelay] (cb_stats_relay): the
      settings of the environment, the beacons of a session and their
      delivery.  Every request is answered once or in flight; created and closed
      alternate, under one id, but for a session that is forgotten while open.
    - [DevtoolsAgent] (cb_devtools_agent): the Cb commands, over [ActivePage],
      [IceConfig] and [WsClient].  Every command is answered once; a session is
      started as asked or not at all; pages never outlive their context.
    - [Tabs] (cb_web_contents_delegate), over [ActivePage] and [FileUpload]: the
      tabs pages open and close, their choosers and full screen.  A tab is held
      once and is a page that is there; when the captured popup closes, capture
      and input return to the initial page.
    - [AuraClients] (cb_cursor_client, cb_focus_client, cb_window_parenting_client,
      cb_fill_layout): the cursor its consumer was told is the one there is;
      focus follows the life of windows.
    - [ProcessSetup] (profiles, codec preferences, the audio device, the
      allocator of x264): profiles never share a directory, H.264 is offered
      first, allocations keep to the alignment that is supported.

    Frames and encoders (capture/framesink-capturer/, capture/encoder/):
    - [ClockRebase], [FrameCapture] (capturer, cb_framesink_video_track_source,
      video_frame_conversion): frames are counted once, buffers are given back
      once, an idle page is refreshed; timestamps under threads that interleave.
    - [VideoEncoder]: the interface of libwebrtc's encoders and their contract;
      [H264Encoder], [Vp9Encoder], [ShellEncoder] with its backends
      [SvtAv1Encoder], [NvencEncoder], [VaapiEncoder], and [SimulcastEncoder]
      over any encoder of the contract: handles are opened, fed and closed in
      order, sizes and rates reach the codec, what is leaked and when.
    - [BweAdapter], [EncoderFactory]: the registry through which the bandwidth
      estimate reaches the encoders, and the choice of an encoder for a format.

    Input (cb_input_dispatch and its parts): [InputEnvelope] decodes, [InputWidget] is what
    the dispatchers talk to, [LastPointer], [InputMouse], [InputKeyboard] (with
    clipboard and IME), [InputTouch] and [InputDrag] are the dispatchers, and
    [InputComposite] their composition.  Held buttons and modifiers are exactly
    what was pressed and not released; a typed text reaches the page; touch
    frames are well formed, and so are the drags a page is shown as long as it
    stays the active one; every envelope goes to the component its
    type names.

    Cursor (capture/cursor/, cb_cursor_xy_join): [CursorEnvelope] and
    [CursorEmitter]: the wire form, the emission policy and the emitter with
    its asynchronous sends.

    Viewer services: [FileUpload] (cb_file_upload_receiver): uploads through a
    pool of workers into files and choosers; [ControlChannel] and [Prompts]
    (cb_control_channel, cb_javascript_dialog_manager, cb_permission_manager,
    cb_login_delegate, and the certificate and file-chooser hooks of
    content_browser_client and cb_web_contents_delegate): requests to the
    viewer are answered exactly once and nothing is granted without consent.
    [ClipboardRelay] (cb_clipboard_relay): copies leave only after a gesture
    and pastes arrive as they were sent.  [Downloads]
    (cb_download_manager_delegate): every download is given a target, is
    observed once and has an identifier of its own until the counter wraps.

    [Prelude] holds the computations, their reasoning rules ([ends] for
    postconditions, [respects] for relations between state, events and state)
    and the machines; [Numbers] the machine numbers.

    ** Fuel and bounds

    [WsClient.consume_loop] recurses on a count of frames and chunks and answers
    whether it came to its own end; [ws_drain_terminates] shows that it does
    with the count used.  The drain of the
    main sequence in [SessionSupervisor] takes the number of tasks as fuel and
    [viewer_change_rearms_once] gives the number that empties the queue.
    [DevtoolsAgent.fields] reads a map of a CBOR command with the number of its
    tokens as fuel, of which every step takes at least one.  All other recursion
    is structural.

    ** Not modelled

    The construction of chromium and libwebrtc objects (cloud_browser_main, the
    larger part of the set-up in cloud_browser_browser_main_parts and of the
    factories in cloud_browser_pcf), members that return a constant to satisfy
    an interface, the test recorder of the audio device, and the inside of
    third-party codecs, of pixel conversion and of the CBOR and JSON text have
    no logic of this program.  The Go services, the TypeScript client, the
    infrastructure, the harness and the tests are other programs. *)

From stdpp Require Import base tactics list strings gmap countable.
From Stdlib Require Import ZArith Lia String Ascii.


(** ** Record update

    [r <| f := v |>] is the record [r] with field [f] replaced.  A record
    opts in by giving its eta expansion as an [Eta] instance; the setter of
    each projection is then computed from it. *)

Class Eta (R : Type) := eta_expand : R → R.
Class Setter {R T : Type} (proj : R → T) := set_field : (T → T) → R → R.

Ltac solve_setter :=
  lazymatch goal with
  | |- @Setter ?R ?T ?proj =>
      let g := fresh "g" in let r := fresh "r" in
      red; intros g r;
      let b := eval hnf in (eta_expand r) in
      let p := eval pattern (proj r) in b in
      lazymatch p with
      | ?F _ => let z := eval cbv beta in (F (g (proj r))) in exact z
      end
  end.

#[export] Hint Extern 1 (Setter _) => solve_setter : typeclass_instances.

Declare Scope record_scope.
Delimit Scope record_scope with record.
Notation "r <| f := v |>" := (set_field (proj := f) (fun _ => v) r)
  (at level 1, f at level 0, v at level 200, left associativity,
   format "r  <| f  :=  v |>") : record_scope.
Open Scope record_scope.


(** ** Handlers as effectful functions

    A member function of a modelled class is a computation over the object's
    state that emits events (calls on observers, frames handed to a transport,
    tasks posted to another thread) in the order the code performs them. *)

Definition eff (S E A : Type) : Type := S → A * S * list E.

#[export] Instance eff_ret {S E} : MRet (eff S E) := λ A a s, (a, s, []).
#[export] Instance eff_bind {S E} : MBind (eff S E) := λ A B f m s,
  let '(a, s1, es1) := m s in
  let '(b, s2, es2) := f a s1 in
  (b, s2, es1 ++ es2).

Section eff_ops.
Context {S E : Type}.

Definition eget : eff S E S := λ s, (s, s, []).
Definition egets {A} (f : S → A) : eff S E A := λ s, (f s, s, []).
Definition emod (f : S → S) : eff S E unit := λ s, (tt, f s, []).
Definition emit (e : E) : eff S E unit := λ s, (tt, s, [e]).
Definition ewhen (b : bool) (m : eff S E unit) : eff S E unit :=
  if b then m else mret tt.

Definition result {A} (m : eff S E A) (s : S) : A := (m s).1.1.
Definition exec {A} (m : eff S E A) (s : S) : S := (m s).1.2.
Definition events {A} (m : eff S E A) (s : S) : list E := (m s).2.

(** Run a list of computations one after the other. *)
Fixpoint eseq (ms : list (eff S E unit)) : eff S E unit :=
  match ms with
  | [] => mret tt
  | m :: ms' => m ;; eseq ms'
  end.

Lemma exec_bind {A B} (m : eff S E A) (f : A → eff S E B) s :
  exec (m ≫= f) s = exec (f (result m s)) (exec m s).
Proof.
  unfold exec, result, mbind, eff_bind.
  destruct (m s) as [[a s1] es1]; simpl. by destruct (f a s1) as [[b s2] es2].
Qed.

Lemma events_bind {A B} (m : eff S E A) (f : A → eff S E B) s :
  events (m ≫= f) s = events m s ++ events (f (result m s)) (exec m s).
Proof.
  unfold events, exec, result, mbind, eff_bind.
  destruct (m s) as [[a s1] es1]; simpl. by destruct (f a s1) as [[b s2] es2].
Qed.

Lemma result_bind {A B} (m : eff S E A) (f : A → eff S E B) s :
  result (m ≫= f) s = result (f (result m s)) (exec m s).
Proof.
  unfold result, exec, mbind, eff_bind.
  destruct (m s) as [[a s1] es1]; simpl. by destruct (f a s1) as [[b s2] es2].
Qed.

(** Reading and updating the state before the rest of a handler. *)
Lemma get_run {A} (f : S → eff S E A) s : (eget ≫= f) s = f s s.
Proof. unfold mbind, eff_bind, eget. by destruct (f s s) as [[? ?] ?]. Qed.
Lemma mod_run {A} g (f : unit → eff S E A) s : (emod g ≫= f) s = f tt (g s).
Proof. unfold mbind, eff_bind, emod. by destruct (f tt (g s)) as [[? ?] ?]. Qed.

Lemma exec_get {A} (f : S → eff S E A) s : exec (eget ≫= f) s = exec (f s) s.
Proof. by rewrite exec_bind. Qed.
Lemma events_get {A} (f : S → eff S E A) s : events (eget ≫= f) s = events (f s) s.
Proof. by rewrite events_bind. Qed.
Lemma exec_mod {A} g (f : unit → eff S E A) s : exec (emod g ≫= f) s = exec (f tt) (g s).
Proof. by rewrite exec_bind. Qed.
Lemma events_mod {A} g (f : unit → eff S E A) s :
  events (emod g ≫= f) s = events (f tt) (g s).
Proof. by rewrite events_bind. Qed.

(** A postcondition of the result and of the state after. *)
Definition ends {A} (m : eff S E A) (s : S) (Q : A → S → Prop) : Prop := Q (result m s) (exec m s).

Lemma ends_bind {A B} (m : eff S E A) (f : A → eff S E B) s Q :
  ends m s (λ r s', ends (f r) s' Q) → ends (m ≫= f) s Q.
Proof. unfold ends. by rewrite exec_bind, result_bind. Qed.
Lemma ends_get {A} (f : S → eff S E A) s Q : ends (f s) s Q → ends (eget ≫= f) s Q.
Proof. apply (ends_bind eget). Qed.
Lemma ends_mono {A} (m : eff S E A) s (P Q : A → S → Prop) :
  ends m s P → (∀ r s', P r s' → Q r s') → ends m s Q.
Proof. intros Hm HQ. apply HQ, Hm. Qed.
Lemma ends_cut {A B} (m : eff S E A) (f : A → eff S E B) s (P : A → S → Prop) Q :
  ends m s P → (∀ r s', P r s' → ends (f r) s' Q) → ends (m ≫= f) s Q.
Proof. intros Hm Hf. apply ends_bind. by eapply ends_mono. Qed.

(** A property of states that a computation keeps. *)
Definition preserves {A} (I : S → Prop) (m : eff S E A) : Prop :=
  ∀ s, I s → I (exec m s).

Lemma preserves_ret {A} I (a : A) : preserves I (mret a).
Proof. by intros s. Qed.

Lemma preserves_bind {A B} I (m : eff S E A) (f : A → eff S E B) :
  preserves I m → (∀ a, preserves I (f a)) → preserves I (m ≫= f).
Proof. intros Hm Hf s Hs. rewrite exec_bind. apply Hf, Hm, Hs. Qed.

Lemma preserves_emit I e : preserves I (emit e).
Proof. by intros s. Qed.

Lemma preserves_get I : preserves I eget.
Proof. by intros s. Qed.

Lemma preserves_when I b m : preserves I m → preserves I (ewhen b m).
Proof. intros Hm. destruct b; [exact Hm | by intros s]. Qed.

(** Events that all satisfy a predicate, whatever the state. *)
Definition emits_only {A} (P : E → Prop) (m : eff S E A) : Prop :=
  ∀ s, Forall P (events m s).

Lemma emits_only_bind {A B} P (m : eff S E A) (f : A → eff S E B) :
  emits_only P m → (∀ a, emits_only P (f a)) → emits_only P (m ≫= f).
Proof.
  intros Hm Hf s. rewrite events_bind. apply Forall_app. split; [apply Hm | apply Hf].
Qed.

(** A relation between the state before, the events and the state after that
    holds of doing nothing and composes: what a computation respects, each of
    its parts respects. *)
Class TraceRel (R : S → list E → S → Prop) := {
  trace_rel_nil s : R s [] s;
  trace_rel_app s1 s2 s3 es1 es2 : R s1 es1 s2 → R s2 es2 s3 → R s1 (es1 ++ es2) s3;
}.
Definition respects {A} (R : S → list E → S → Prop) (m : eff S E A) : Prop :=
  ∀ s, R s (events m s) (exec m s).

Section respects.
Context (R : S → list E → S → Prop) {HR : TraceRel R}.

Lemma respects_ret {A} (a : A) : respects R (mret a).
Proof. intros s. apply trace_rel_nil. Qed.

Lemma respects_bind {A B} (m : eff S E A) (f : A → eff S E B) :
  respects R m → (∀ a, respects R (f a)) → respects R (m ≫= f).
Proof.
  intros Hm Hf s. rewrite exec_bind, events_bind. eapply trace_rel_app; [apply Hm|apply Hf].
Qed.

Lemma respects_get {B} (f : S → eff S E B) :
  (∀ s, respects R (f s)) → respects R (eget ≫= f).
Proof. intros Hf s. rewrite exec_get, events_get. apply Hf. Qed.

Lemma respects_when b m : respects R m → respects R (ewhen b m).
Proof. intros Hm. destruct b; [exact Hm|]. intros s. apply trace_rel_nil. Qed.

Lemma respects_mod (g : S → S) : (∀ s, R s [] (g s)) → respects R (emod g).
Proof. intros H s. apply H. Qed.

Lemma respects_emit e : (∀ s, R s [e] s) → respects R (emit e).
Proof. intros H s. apply H. Qed.

Lemma respects_seq ms : Forall (respects R) ms → respects R (eseq ms).
Proof.
  induction 1 as [|m ms Hm _ IH]; [apply respects_ret|].
  apply respects_bind; [exact Hm|by intros _].
Qed.
End respects.

(** The relation of keeping an invariant with every event satisfying [P]. *)
Definition keeping (I : S → Prop) (P : E → Prop) (s : S) (es : list E) (s' : S) : Prop :=
  I s → I s' ∧ Forall P es.

#[export] Instance keeping_rel I P : TraceRel (keeping I P).
Proof.
  split; [by intros s Hs; split|].
  intros s1 s2 s3 es1 es2 H1 H2 Hs. destruct (H1 Hs) as [Hs2 He1], (H2 Hs2) as [Hs3 He2].
  split; [done|]. by apply Forall_app.
Qed.

(** A snapshot of the state satisfies the invariant. *)
Lemma keeping_get {B} I P (f : S → eff S E B) :
  (∀ s, I s → respects (keeping I P) (f s)) → respects (keeping I P) (eget ≫= f).
Proof. intros Hf s Hs. rewrite exec_get, events_get. by apply Hf. Qed.

Lemma keeping_mod (I : S → Prop) P (g : S → S) :
  (∀ s, I s → I (g s)) → respects (keeping I P) (emod g).
Proof. intros H s Hs. split; [by apply H|constructor]. Qed.

Lemma keeping_emit (I : S → Prop) (P : E → Prop) e : P e → respects (keeping I P) (emit e).
Proof. intros H s Hs. split; [done|by repeat constructor]. Qed.
End eff_ops.

Create HintDb eff.
Create Rewrite HintDb eff.
#[export] Hint Resolve preserves_ret preserves_bind preserves_emit preserves_get
  preserves_when emits_only_bind
  respects_ret respects_bind respects_when keeping_mod keeping_emit : eff.
#[export] Hint Extern 1 (TraceRel _) => apply _ : eff.
#[export] Hint Rewrite @exec_bind @events_bind @result_bind : eff.

(** Reduce a handler applied to a state whose tests are known. *)
Ltac run_eff :=
  unfold exec, events, result, mbind, eff_bind, mret, eff_ret,
    eget, egets, emod, emit, ewhen in *; simpl in *.

(** ** Event-driven machines

    The modelled classes live on one sequence: an execution is a sequence of
    inputs (API calls, callbacks, timer fires), each handled to completion. *)

Section machine.
Context {I S E : Type}.
Variable enabled : I → S → bool.
Variable handle : I → eff S E unit.
Variable init : S.

Inductive reachable : S → list E → Prop :=
| reach_init : reachable init []
| reach_step i s tr :
    reachable s tr → enabled i s = true →
    reachable (exec (handle i) s) (tr ++ events (handle i) s).

Lemma reachable_inv (Inv : S → Prop) :
  Inv init →
  (∀ i s, Inv s → enabled i s = true → Inv (exec (handle i) s)) →
  ∀ s tr, reachable s tr → Inv s.
Proof. intros H0 Hstep s tr. induction 1; eauto. Qed.

Lemma reachable_trace_inv (Inv : S → list E → Prop) :
  Inv init [] →
  (∀ i s tr, reachable s tr → Inv s tr → enabled i s = true →
    Inv (exec (handle i) s) (tr ++ events (handle i) s)) →
  ∀ s tr, reachable s tr → Inv s tr.
Proof. intros H0 Hstep s tr. induction 1; eauto. Qed.

(** Run a list of inputs from a state. *)
Definition run (ins : list I) : eff S E unit := eseq (handle <$> ins).
End machine.

(** Running inputs that are all enabled is an execution. *)
Fixpoint all_enabled {I S E} (en : I → S → bool) (h : I → eff S E unit) (ins : list I)
    (s : S) : bool :=
  match ins with
  | [] => true
  | i :: ins' => en i s && all_enabled en h ins' (exec (h i) s)
  end.

Lemma run_reachable {I S E} (en : I → S → bool) (h : I → eff S E unit) init ins :
  all_enabled en h ins init = true →
  reachable en h init (exec (run h ins) init) (events (run h ins) init).
Proof.
  enough (∀ s tr, all_enabled en h ins s = true → reachable en h init s tr →
    reachable en h init (exec (run h ins) s) (tr ++ events (run h ins) s)) as H
    by (intros Hok; exact (H init [] Hok (reach_init _ _ _))).
  unfold run. induction ins as [|i ins IH]; intros s tr Hok Hr.
  - unfold events, exec. simpl. by rewrite app_nil_r.
  - simpl in Hok. apply andb_true_iff in Hok as [He Hok].
    rewrite fmap_cons. cbn [eseq]. rewrite exec_bind, events_bind, app_assoc.
    apply IH; [done|]. by constructor.
Qed.

Lemma run_app {I S E} (h : I → eff S E unit) a b s :
  exec (run h (a ++ b)) s = exec (run h b) (exec (run h a) s) ∧
  events (run h (a ++ b)) s = (events (run h a) s ++ events (run h b) (exec (run h a) s)).
Proof.
  revert s. unfold run. induction a as [|i a IH]; intros s; [done|].
  rewrite <-app_comm_cons, !fmap_cons. cbn [eseq]. rewrite !exec_bind, !events_bind.
  destruct (IH (exec (h i) s)) as [-> ->]. by rewrite app_assoc.
Qed.

Lemma all_enabled_app {I S E} en (h : I → eff S E unit) a b s :
  all_enabled en h (a ++ b) s = all_enabled en h a s && all_enabled en h b (exec (run h a) s).
Proof.
  revert s. induction a as [|i a IH]; intros s; [done|]. simpl. rewrite IH, andb_assoc.
  unfold run. rewrite fmap_cons. cbn [eseq]. by rewrite exec_bind.
Qed.

(** The first input, then the others. *)
Lemma run_first {I S E} (h : I → eff S E unit) i ins s :
  exec (run h (i :: ins)) s = exec (run h ins) (exec (h i) s) ∧
  events (run h (i :: ins)) s = (events (h i) s ++ events (run h ins) (exec (h i) s))%list.
Proof. unfold run. rewrite fmap_cons. cbn [eseq]. by rewrite exec_bind, events_bind. Qed.

(** A single input is one handler. *)
Lemma run_one {I S E} (h : I → eff S E unit) i s : run h [i] s = h i s.
Proof.
  unfold run. rewrite fmap_cons, fmap_nil. cbn [eseq]. unfold mbind, eff_bind.
  destruct (h i s) as [[[] s1] es]. unfold mret, eff_ret. by rewrite app_nil_r.
Qed.

Lemma run_two {I S E} (h : I → eff S E unit) i1 i2 s : run h [i1; i2] s = (h i1;; h i2) s.
Proof.
  unfold run. rewrite !fmap_cons, fmap_nil. cbn [eseq]. unfold mbind, eff_bind.
  destruct (h i1 s) as [[u s1] es1]. destruct (h i2 s1) as [[[] s2] es2].
  unfold mret, eff_ret. by rewrite app_nil_r.
Qed.

Lemma run_chain {I S E} (h : I → eff S E unit) a b s s1 s2 es1 es2 :
  run h a s = (tt, s1, es1) → run h b s1 = (tt, s2, es2) →
  run h (a ++ b) s = (tt, s2, es1 ++ es2).
Proof.
  intros H1 H2. destruct (run_app h a b s) as [He Hv].
  unfold exec, events in He, Hv. rewrite H1 in He, Hv. simpl in He, Hv. rewrite H2 in He, Hv.
  destruct (run h (a ++ b) s) as [[[] ?] ?]. simpl in *. by subst.
Qed.

(** A component's computation run inside a larger state. *)
Definition zoom {S T E A} (get : S → T) (put : T → S → S) (m : eff T E A) : eff S E A :=
  λ s, let '(a, t', es) := m (get s) in (a, put t' s, es).

Lemma zoom_exec {S T E A} (get : S → T) put (m : eff T E A) s :
  exec (zoom get put m) s = put (exec m (get s)) s.
Proof. unfold zoom, exec. by destruct (m (get s)) as [[? ?] ?]. Qed.
Lemma zoom_events {S T E A} (get : S → T) put (m : eff T E A) s :
  events (zoom get put m) s = events m (get s).
Proof. unfold zoom, events. by destruct (m (get s)) as [[? ?] ?]. Qed.

(** ** Lists *)

Lemma filter_none {A} (P : A → Prop) `{!∀ x, Decision (P x)} l :
  Forall (λ x, ¬ P x) l → filter P l = [].
Proof. induction 1; [done|]. by rewrite filter_cons_False. Qed.

Lemma filter_all {A} (P : A → Prop) `{!∀ x, Decision (P x)} l :
  Forall P l → filter P l = l.
Proof. induction 1; [done|]. rewrite filter_cons_True by done. by f_equal. Qed.
Lemma filter_every {A} (P : A → Prop) `{!∀ x, Decision (P x)} (l : list A) :
  (∀ x, x ∈ l → P x) → filter P l = l.
Proof. intros Hl. apply filter_all, list.Forall_forall. exact Hl. Qed.

(** ** Case analysis

    [split_ifs] decides every boolean test and every match of the goal,
    keeping the equations. *)

Ltac split_ifs :=
  repeat first
    [ case_match; simplify_eq/=
    | progress simplify_eq/= ].

(** [run_cases] evaluates a handler on a symbolic state: it decides the
    innermost undecided test of the goal and reduces, until no test is left. *)
Ltac case_inner :=
  match goal with
  | |- context [match ?x with _ => _ end] =>
      lazymatch x with
      | context [match _ with _ => _ end] => fail
      | _ => destruct x eqn:?
      end
  end.
Ltac run_cases :=
  run_eff; repeat (case_inner; simplify_eq/=); try done.

(** Decide the string comparisons of a hypothesis, left to right. *)
Ltac string_cases H :=
  repeat match type of H with
  | (if String.eqb ?a ?b then _ else _) = _ =>
      let Hb := fresh "Hb" in
      destruct (String.eqb a b) eqn:Hb;
      [apply String.eqb_eq in Hb; simplify_eq/= |]
  end.

(** ** Strings

    Byte strings are [string]s; [str_take] and [str_drop] split one at an
    offset. *)

Open Scope string_scope.

Fixpoint str_drop (n : nat) (s : string) : string :=
  match n, s with
  | O, _ => s
  | S n', String _ s' => str_drop n' s'
  | S _, EmptyString => EmptyString
  end.
Fixpoint str_take (n : nat) (s : string) : string :=
  match n, s with
  | O, _ => EmptyString
  | S n', String c s' => String c (str_take n' s')
  | S _, EmptyString => EmptyString
  end.

Lemma str_app_cons c a b : String c a ++ b = String c (a ++ b).
Proof. done. Qed.

Lemma str_take_app n a b :
  (n ≤ String.length a)%nat → str_take n (a ++ b) = str_take n a.
Proof.
  revert a. induction n as [|n IH]; intros [|c a] Hl; simpl in *; try done; [lia|].
  f_equal. apply IH. lia.
Qed.

Lemma str_drop_app n a b :
  (n ≤ String.length a)%nat → str_drop n (a ++ b) = str_drop n a ++ b.
Proof.
  revert a. induction n as [|n IH]; intros [|c a] Hl; simpl in *; try done; [lia|].
  apply IH. lia.
Qed.

Lemma str_take_app_ge n a b :
  (String.length a ≤ n)%nat → str_take n (a ++ b) = a ++ str_take (n - String.length a) b.
Proof.
  revert n. induction a as [|c a IH]; intros n Hl; simpl in *; [by rewrite Nat.sub_0_r|].
  destruct n as [|n]; [lia|]. rewrite !str_app_cons. simpl. f_equal. apply IH. lia.
Qed.

Lemma str_drop_app_ge n a b :
  (String.length a ≤ n)%nat → str_drop n (a ++ b) = str_drop (n - String.length a) b.
Proof.
  revert n. induction a as [|c a IH]; intros n Hl; simpl in *; [by rewrite Nat.sub_0_r|].
  destruct n as [|n]; [lia|]. rewrite str_app_cons. simpl. apply IH. lia.
Qed.

Lemma str_drop_all n s : (String.length s ≤ n)%nat → str_drop n s = "".
Proof.
  revert n. induction s as [|c s IH]; intros [|n] Hl; simpl in *; try done; [lia|].
  apply IH. lia.
Qed.

Lemma str_app_nil s : s ++ "" = s.
Proof. induction s as [|c s IH]; [done|]. by rewrite str_app_cons, IH. Qed.

Lemma str_app_assoc a b c : (a ++ b) ++ c = a ++ (b ++ c).
Proof. induction a as [|x a IH]; [done|]. by rewrite !str_app_cons, IH. Qed.

Lemma str_length_app a b : String.length (a ++ b) = (String.length a + String.length b)%nat.
Proof. induction a as [|x a IH]; [done|]. rewrite str_app_cons. simpl. by rewrite IH. Qed.

Lemma concat_cons c cs : String.concat "" (c :: cs) = c ++ String.concat "" cs.
Proof. destruct cs; simpl; by rewrite ?str_app_nil. Qed.

(** ASCII characters and strings mapped character by character. *)
Definition in_range (lo hi c : ascii) : bool :=
  (N_of_ascii lo <=? N_of_ascii c)%N && (N_of_ascii c <=? N_of_ascii hi)%N.
Definition ascii_lower (c : ascii) : ascii :=
  if in_range "A" "Z" c then ascii_of_N (N_of_ascii c + 32) else c.
Fixpoint str_map (f : ascii → ascii) (s : string) : string :=
  match s with
  | EmptyString => EmptyString
  | String c s' => String (f c) (str_map f s')
  end.

Close Scope string_scope.
