(* ===== verification/Numbers.v ===== *)
(** * Machine numbers

    Doubles and floats are [spec_float]s.  Conversions to an integer whose
    result the language leaves undefined or unspecified go through the class
    [Unspecified]; the theorems hold for every instance. *)

From Stdlib Require Import ZArith Lia SpecFloat.
From stdpp Require Import base tactics decidable numbers.
Open Scope Z_scope.

Definition wrap32 (z : Z) : Z := (z + 2 ^ 31) mod 2 ^ 32 - 2 ^ 31.
Definition in_int32 (z : Z) : bool := (- 2 ^ 31 <=? z) && (z <? 2 ^ 31).
Definition in_int64 (z : Z) : bool := (- 2 ^ 63 <=? z) && (z <? 2 ^ 63).

Class Unspecified := {
  bad_int : spec_float → Z;
  bad_lround : spec_float → Z;
  (** the value of an [int] operation whose exact result [z] is out of range *)
  bad_arith : Z → Z;
}.

(** The integer part, toward zero; [None] for an infinity or a NaN. *)
Definition sf_trunc (x : spec_float) : option Z :=
  match x with
  | S754_zero _ => Some 0
  | S754_finite neg m e =>
      let z := Z.shiftl (Zpos m) e in Some (if neg then - z else z)
  | _ => None
  end.

(** The nearest integer, halves away from zero. *)
Definition sf_nearest (x : spec_float) : option Z :=
  match x with
  | S754_zero _ => Some 0
  | S754_finite neg m e =>
      let z := if 0 <=? e then Z.shiftl (Zpos m) e
               else (2 * Zpos m + 2 ^ (- e)) / 2 ^ (1 - e) in
      Some (if neg then - z else z)
  | _ => None
  end.

Section casts.
Context {U : Unspecified}.

(** [static_cast<int>] of a floating value. *)
Definition cast_int (x : spec_float) : Z :=
  match sf_trunc x with
  | Some z => if in_int32 z then z else bad_int x
  | None => bad_int x
  end.

(** [std::lround], whose result is a 64-bit [long]. *)
Definition lround (x : spec_float) : Z :=
  match sf_nearest x with
  | Some z => if in_int64 z then z else bad_lround x
  | None => bad_lround x
  end.

(** An [int] operation, from its exact result. *)
Definition int_result (z : Z) : Z := if in_int32 z then z else bad_arith z.
Definition int_abs (z : Z) : Z := int_result (Z.abs z).

Lemma int_result_exact z : - 2 ^ 31 ≤ z < 2 ^ 31 → int_result z = z.
Proof.
  intros H. unfold int_result, in_int32.
  destruct (Z.leb_spec (- 2 ^ 31) z), (Z.ltb_spec z (2 ^ 31)); simpl; lia.
Qed.
End casts.

(** Arithmetic on [float]. *)
Definition float_zero : spec_float := S754_zero false.
Definition float_one : spec_float := S754_finite false 8388608 (-23).
Definition fmul : spec_float → spec_float → spec_float := SFmul 24 128.
Definition fdiv : spec_float → spec_float → spec_float := SFdiv 24 128.

(** Conversions of an integer to binary32 and binary64. *)
Definition float_of_Z (z : Z) : spec_float := binary_normalize 24 128 z 0 false.
Definition double_of_Z (z : Z) : spec_float := binary_normalize 53 1024 z 0 false.

(** [static_cast<float>] of a double. *)
Definition float_of_double (d : spec_float) : spec_float :=
  match d with
  | S754_finite neg m e => binary_normalize 24 128 (if neg then Zneg m else Zpos m) e neg
  | other => other
  end.

Lemma wrap32_range z : - 2 ^ 31 ≤ wrap32 z < 2 ^ 31.
Proof. unfold wrap32. pose proof (Z.mod_pos_bound (z + 2 ^ 31) (2 ^ 32)). lia. Qed.

Lemma wrap32_id z : - 2 ^ 31 ≤ z < 2 ^ 31 → wrap32 z = z.
Proof. intros H. unfold wrap32. rewrite Z.mod_small by lia. lia. Qed.

Definition defaults : Unspecified := {| bad_int _ := 0; bad_lround _ := 0; bad_arith _ := 0 |}.

Example lround_half : lround (U := defaults) (S754_finite false 5 (-1)) = 3.
Proof. reflexivity. Qed.
Example lround_neg_half : lround (U := defaults) (S754_finite true 5 (-1)) = -3.
Proof. reflexivity. Qed.
