(* ===== verification/Values.v ===== *)
(** * JSON values and the JSON reader/writer interface

    The wire components exchange [base::Value] trees (Chromium's tagged JSON
    value) that [base::JSONWriter] prints and [base::JSONReader] parses.  The
    tree is a data type here: a dictionary is what [base::flat_map] keeps, an
    association list sorted by key.  The reader and the writer are not code of
    this repository, so they are the two operations of the class [JsonCodec];
    what the code relies on, that reading a written document gives the document
    back, is the class [JsonCodecLaws].  [bits_codec] is a codec that satisfies
    the laws, which the witnesses use. *)

From stdpp Require Import base tactics list strings countable.
From Stdlib Require Import ZArith Lia String Ascii SpecFloat.
From S2P Require Import Prelude Numbers.

#[local] Set Warnings "-register-all".

(** Doubles are IEEE binary64 values; [spec_float] is the standard library's
    executable description of them. *)
Inductive Value : Type :=
| VNone
| VBool (b : bool)
| VInt (n : Z)
| VDouble (d : spec_float)
| VString (s : string)
| VList (l : list Value)
| VDict (d : list (string * Value)).

Abbreviation DictValue := (list (string * Value)) (only parsing).

Section value_ind.
Variable P : Value → Prop.
Hypothesis HNone : P VNone.
Hypothesis HBool : ∀ b, P (VBool b).
Hypothesis HInt : ∀ n, P (VInt n).
Hypothesis HDouble : ∀ d, P (VDouble d).
Hypothesis HString : ∀ s, P (VString s).
Hypothesis HList : ∀ l, Forall P l → P (VList l).
Hypothesis HDict : ∀ d, Forall (λ kv, P kv.2) d → P (VDict d).

(** Induction that reaches into the lists and dictionaries of a value. *)
Fixpoint Value_rec_ind (v : Value) : P v :=
  match v with
  | VNone => HNone
  | VBool b => HBool b
  | VInt n => HInt n
  | VDouble d => HDouble d
  | VString s => HString s
  | VList l =>
      HList l ((fix go l := match l return Forall P l with
                | [] => Forall_nil_2 _
                | v :: l' => Forall_cons_2 _ _ _ (Value_rec_ind v) (go l')
                end) l)
  | VDict d =>
      HDict d ((fix go d := match d return Forall (λ kv, P kv.2) d with
                | [] => Forall_nil_2 _
                | kv :: d' => Forall_cons_2 _ _ _ (Value_rec_ind kv.2) (go d')
                end) d)
  end.
End value_ind.

(** ** Dictionaries *)

(** [DictValue::Find]. *)
Fixpoint Find (k : string) (d : DictValue) : option Value :=
  match d with
  | [] => None
  | (k', v) :: d' => if String.eqb k k' then Some v else Find k d'
  end.

(** [DictValue::Set]: insert in key order, replacing an existing entry. *)
Fixpoint Set_ (k : string) (v : Value) (d : DictValue) : DictValue :=
  match d with
  | [] => [(k, v)]
  | (k', v') :: d' =>
      match String.compare k k' with
      | Eq => (k, v) :: d'
      | Lt => (k, v) :: (k', v') :: d'
      | Gt => (k', v') :: Set_ k v d'
      end
  end.

Definition FindString (k : string) (d : DictValue) : option string :=
  match Find k d with Some (VString s) => Some s | _ => None end.

(** [FindInt] finds integers only; a number the reader could not hold in an
    [int] is a double. *)
Definition FindInt (k : string) (d : DictValue) : option Z :=
  match Find k d with Some (VInt n) => Some n | _ => None end.

Definition FindBool (k : string) (d : DictValue) : option bool :=
  match Find k d with Some (VBool b) => Some b | _ => None end.

(** [DictValue::FindDouble] also finds integers. *)
Definition FindDouble (k : string) (d : DictValue) : option spec_float :=
  match Find k d with
  | Some (VInt n) => Some (double_of_Z n)
  | Some (VDouble f) => Some f
  | _ => None
  end.

Definition FindDict (k : string) (d : DictValue) : option DictValue :=
  match Find k d with Some (VDict d') => Some d' | _ => None end.

Definition FindList (k : string) (d : DictValue) : option (list Value) :=
  match Find k d with Some (VList l) => Some l | _ => None end.

Definition is_dict (v : Value) : bool :=
  match v with VDict _ => true | _ => false end.
Definition is_none (v : Value) : bool :=
  match v with VNone => true | _ => false end.

Lemma string_compare_refl s : String.compare s s = Eq.
Proof.
  pose proof (String.compare_antisym s s) as H.
  destruct (String.compare s s); done.
Qed.

Lemma Find_Set_eq k v d : Find k (Set_ k v d) = Some v.
Proof.
  induction d as [|[k' v'] d IH]; simpl; [by rewrite String.eqb_refl|].
  destruct (String.compare k k') eqn:Hc; simpl; rewrite ?String.eqb_refl; auto.
  destruct (String.eqb k k') eqn:He; [|done].
  apply String.eqb_eq in He as ->. by rewrite string_compare_refl in Hc.
Qed.

Lemma Find_Set_ne k k' v d : k ≠ k' → Find k (Set_ k' v d) = Find k d.
Proof.
  intros Hne. induction d as [|[k2 v2] d IH]; simpl.
  - by apply String.eqb_neq in Hne as ->.
  - destruct (String.compare k' k2) eqn:Hc; simpl.
    + apply String.compare_eq_iff in Hc as ->.
      by apply String.eqb_neq in Hne as ->.
    + by apply String.eqb_neq in Hne as ->.
    + by rewrite IH.
Qed.

(** Lookups in a dictionary built by [Set_] are decided by computing the key
    comparisons. *)
Ltac find_set :=
  rewrite ?Find_Set_eq; repeat rewrite Find_Set_ne by discriminate;
  rewrite ?Find_Set_eq.

Create Rewrite HintDb dict.
#[export] Hint Rewrite Find_Set_eq : dict.
#[export] Hint Rewrite Find_Set_ne using discriminate : dict.

(** ** The reader and the writer *)

Class JsonCodec := {
  (** [base::JSONWriter::Write]; [None] is a [false] return. *)
  JSONWriter_Write : Value → option string;
  (** [base::JSONReader::Read] with [JSON_PARSE_RFC]. *)
  JSONReader_Read : string → option Value;
}.

(** [json_ok v]: the document [v] is one the writer prints (valid UTF-8 text,
    finite numbers, bounded depth, keys in order); such a document is read back
    as it was. *)
Class JsonCodecLaws (J : JsonCodec) := {
  json_ok : Value → Prop;
  json_roundtrip v :
    json_ok v → ∃ s, JSONWriter_Write v = Some s ∧ JSONReader_Read s = Some v;
}.

(** ** A codec that satisfies the laws *)

Module BitsCodec.

#[export] Instance spec_float_eq_dec : EqDecision spec_float.
Proof. solve_decision. Defined.

Definition sf_to (d : spec_float) : bool + bool + unit + (bool * positive * Z) :=
  match d with
  | S754_zero s => inl (inl (inl s))
  | S754_infinity s => inl (inl (inr s))
  | S754_nan => inl (inr tt)
  | S754_finite s m e => inr (s, m, e)
  end.
Definition sf_of (x : bool + bool + unit + (bool * positive * Z)) : spec_float :=
  match x with
  | inl (inl (inl s)) => S754_zero s
  | inl (inl (inr s)) => S754_infinity s
  | inl (inr tt) => S754_nan
  | inr (s, m, e) => S754_finite s m e
  end.
#[export] Instance spec_float_countable : Countable spec_float.
Proof. apply (inj_countable' sf_to sf_of). by intros []. Defined.

Abbreviation leaf := (bool + Z + spec_float + string)%type (only parsing).

Fixpoint to_tree (v : Value) : gen_tree leaf :=
  match v with
  | VNone => GenNode 0 []
  | VBool b => GenLeaf (inl (inl (inl b)))
  | VInt n => GenLeaf (inl (inl (inr n)))
  | VDouble d => GenLeaf (inl (inr d))
  | VString s => GenLeaf (inr s)
  | VList l => GenNode 1 (to_tree <$> l)
  | VDict d => GenNode 2 ((λ kv, GenNode 3 [GenLeaf (inr kv.1); to_tree kv.2]) <$> d)
  end.

Fixpoint of_tree (t : gen_tree leaf) : Value :=
  match t with
  | GenLeaf (inl (inl (inl b))) => VBool b
  | GenLeaf (inl (inl (inr n))) => VInt n
  | GenLeaf (inl (inr d)) => VDouble d
  | GenLeaf (inr s) => VString s
  | GenNode 1 l => VList (of_tree <$> l)
  | GenNode 2 l =>
      VDict ((λ t, match t with
                   | GenNode 3 [GenLeaf (inr k); t'] => (k, of_tree t')
                   | _ => (EmptyString, VNone)
                   end) <$> l)
  | GenNode _ _ => VNone
  end.

Lemma of_to_tree v : of_tree (to_tree v) = v.
Proof.
  induction v as [| | | | |l IH|d IH] using Value_rec_ind; simpl; try done.
  - f_equal. induction IH as [|v l Hv _ IHl]; [done|].
    cbn [fmap list_fmap]. by rewrite Hv, IHl.
  - f_equal. induction IH as [|[k v] d Hv _ IHd]; [done|].
    cbn in Hv. cbn [fmap list_fmap fst snd]. by rewrite Hv, IHd.
Qed.

Definition to_pos (v : Value) : positive := encode (to_tree v).
Definition of_pos (p : positive) : option Value := of_tree <$> decode p.

Lemma of_to_pos v : of_pos (to_pos v) = Some v.
Proof. unfold of_pos, to_pos. rewrite decode_encode. simpl. by rewrite of_to_tree. Qed.

Fixpoint bits (p : positive) : string :=
  match p with
  | xH => EmptyString
  | xO p' => String "0" (bits p')
  | xI p' => String "1" (bits p')
  end.
Fixpoint unbits (s : string) : positive :=
  match s with
  | EmptyString => xH
  | String c s' => if Ascii.eqb c "1" then xI (unbits s') else xO (unbits s')
  end.

Lemma unbits_bits p : unbits (bits p) = p.
Proof. induction p; simpl; congruence. Qed.

#[export] Instance bits_codec : JsonCodec := {|
  JSONWriter_Write v := Some (bits (to_pos v));
  JSONReader_Read s := of_pos (unbits s);
|}.

#[export] Instance bits_codec_laws : JsonCodecLaws bits_codec.
Proof.
  refine {| json_ok _ := True |}.
  intros v _. exists (bits (to_pos v)). split; [done|].
  simpl. by rewrite unbits_bits, of_to_pos.
Defined.
End BitsCodec.

(** ** Text

    Conversions of //base; UTF-16 text is a list of code units. *)
Class TextLib := {
  UTF16ToUTF8 : list Z → string;
  to_utf16 : string → list Z;
}.
