(* ===== verification/WireEnvelope.v ===== *)
(** * The signaling wire codec (capture/signaling/cb_wire_envelope.{h,cc})

    Typed envelopes, their encoding to a JSON document and the decoding of the
    two accepted dialects (canonical [{type, from, data}] and the portal's flat
    form).  The theorems are the round trip, the invariant of decoded envelopes,
    the closed accept-list, the equivalence of the two dialects, and the exact
    condition under which encoding is refused. *)

From stdpp Require Import base tactics list strings sets.
From Stdlib Require Import ZArith Lia String.
From S2P Require Import Prelude Values.
Import BitsCodec.
Open Scope string_scope.

(** ** Data *)

Inductive EnvelopeType :=
| kOffer | kAnswer | kIce | kBye | kRequestRenegotiate | kProbeResult
| kSessionUnhealthy | kPeerAbsent.

Inductive PeerRole := kBrowser | kClient.

#[export] Instance EnvelopeType_eq_dec : EqDecision EnvelopeType.
Proof. solve_decision. Defined.
#[export] Instance PeerRole_eq_dec : EqDecision PeerRole.
Proof. solve_decision. Defined.

Record SdpPayload := mkSdpPayload { sdp_type : string; sdp : string }.

Record IceCandidatePayload := mkIceCandidatePayload {
  is_end_of_candidates : bool;
  candidate : string;
  sdp_mid : option string;
  sdp_m_line_index : option Z;
  username_fragment : option string;
}.

#[export] Instance eta_IceCandidatePayload : Eta IceCandidatePayload := λ p,
  mkIceCandidatePayload (is_end_of_candidates p) (candidate p) (sdp_mid p)
    (sdp_m_line_index p) (username_fragment p).

(** The default-constructed payload. *)
Definition ice_default : IceCandidatePayload :=
  mkIceCandidatePayload false "" None None None.

(** [std::variant<monostate, SdpPayload, IceCandidatePayload, ProbeResultPayload>]. *)
Inductive EnvelopeData :=
| Monostate
| Sdp (p : SdpPayload)
| Ice (p : IceCandidatePayload)
| ProbeResult (raw : DictValue).

Record Envelope := mkEnvelope {
  env_type : EnvelopeType;
  env_from : PeerRole;
  env_data : EnvelopeData;
}.

#[export] Instance eta_Envelope : Eta Envelope := λ e,
  mkEnvelope (env_type e) (env_from e) (env_data e).

(** ** Tags and roles *)

Definition TagFromString (tag : string) : option EnvelopeType :=
  if String.eqb tag "offer" then Some kOffer
  else if String.eqb tag "answer" then Some kAnswer
  else if String.eqb tag "ice" then Some kIce
  else if String.eqb tag "bye" then Some kBye
  else if String.eqb tag "request_renegotiate" then Some kRequestRenegotiate
  else if String.eqb tag "probe_result" then Some kProbeResult
  else if String.eqb tag "session_unhealthy" then Some kSessionUnhealthy
  else if String.eqb tag "peer_absent" then Some kPeerAbsent
  else None.

Definition PortalTagFromString (tag : string) : option EnvelopeType :=
  if String.eqb tag "sdp_offer" then Some kOffer
  else if String.eqb tag "sdp_answer" then Some kAnswer
  else if String.eqb tag "ice_candidate" then Some kIce
  else None.

Definition TagToString (t : EnvelopeType) : string :=
  match t with
  | kOffer => "offer"
  | kAnswer => "answer"
  | kIce => "ice"
  | kBye => "bye"
  | kRequestRenegotiate => "request_renegotiate"
  | kProbeResult => "probe_result"
  | kSessionUnhealthy => "session_unhealthy"
  | kPeerAbsent => "peer_absent"
  end.

Definition RoleFromString (role : string) : option PeerRole :=
  if String.eqb role "browser" then Some kBrowser
  else if String.eqb role "client" then Some kClient
  else None.

Definition RoleToString (r : PeerRole) : string :=
  match r with kBrowser => "browser" | kClient => "client" end.

(** ** Encoding *)

Record EncodedData := mkEncodedData { ok : bool; omit_field : bool; value : Value }.

Definition EncodedData_default : EncodedData := mkEncodedData false false VNone.

Definition set_opt (k : string) (v : option Value) (d : DictValue) : DictValue :=
  match v with Some v => Set_ k v d | None => d end.

Definition EncodeData (t : EnvelopeType) (data : EnvelopeData) : EncodedData :=
  match t with
  | kOffer | kAnswer =>
      match data with
      | Sdp p =>
          mkEncodedData true false
            (VDict (Set_ "sdp" (VString (sdp p))
                     (Set_ "type" (VString (sdp_type p)) [])))
      | _ => EncodedData_default
      end
  | kIce =>
      match data with
      | Ice p =>
          if is_end_of_candidates p then mkEncodedData true false VNone
          else
            mkEncodedData true false
              (VDict
                (set_opt "usernameFragment" (VString <$> username_fragment p)
                (set_opt "sdpMLineIndex" (VInt <$> sdp_m_line_index p)
                (set_opt "sdpMid" (VString <$> sdp_mid p)
                (Set_ "candidate" (VString (candidate p)) [])))))
      | _ => EncodedData_default
      end
  | kBye | kSessionUnhealthy | kPeerAbsent =>
      match data with
      | Monostate => mkEncodedData true true VNone
      | _ => EncodedData_default
      end
  | kRequestRenegotiate =>
      match data with
      | Monostate => mkEncodedData true false VNone
      | _ => EncodedData_default
      end
  | kProbeResult =>
      match data with
      | ProbeResult raw => mkEncodedData true false (VDict raw)
      | _ => EncodedData_default
      end
  end.

(** The document [Encode] hands to the writer. *)
Definition EncodeDoc (env : Envelope) : option DictValue :=
  let ed := EncodeData (env_type env) (env_data env) in
  if negb (ok ed) then None
  else
    let envelope :=
      Set_ "from" (VString (RoleToString (env_from env)))
        (Set_ "type" (VString (TagToString (env_type env))) []) in
    Some (if negb (omit_field ed) then Set_ "data" (value ed) envelope else envelope).

(** ** Decoding *)

(** The candidate fields both dialects read. *)
Definition ice_of_dict (d : DictValue) (cand : string) : IceCandidatePayload :=
  mkIceCandidatePayload (String.eqb cand "") cand
    (FindString "sdpMid" d) (FindInt "sdpMLineIndex" d)
    (FindString "usernameFragment" d).

(** [data] is [None] when the field is absent on the wire. *)
Definition DecodeData (t : EnvelopeType) (data : option Value) : option EnvelopeData :=
  match t with
  | kOffer | kAnswer =>
      match data with
      | Some (VDict d) =>
          match FindString "type" d, FindString "sdp" d with
          | Some ty, Some s =>
              if negb (String.eqb ty (TagToString t)) then None
              else Some (Sdp (mkSdpPayload ty s))
          | _, _ => None
          end
      | _ => None
      end
  | kIce =>
      match data with
      | None => None
      | Some VNone => Some (Ice (ice_default <| is_end_of_candidates := true |>))
      | Some (VDict d) =>
          match FindString "candidate" d with
          | None => None
          | Some c => Some (Ice (ice_of_dict d c))
          end
      | Some _ => None
      end
  | kBye | kSessionUnhealthy | kPeerAbsent =>
      match data with Some _ => None | None => Some Monostate end
  | kRequestRenegotiate =>
      match data with
      | None | Some VNone => Some Monostate
      | Some _ => None
      end
  | kProbeResult =>
      match data with Some (VDict d) => Some (ProbeResult d) | _ => None end
  end.

(** [Decode] on the dictionary the reader produced. *)
Definition DecodeDoc (dict : DictValue) : option Envelope :=
  match FindString "type" dict with
  | None => None
  | Some type_str =>
      match TagFromString type_str with
      | Some t =>
          match FindString "from" dict with
          | None => None
          | Some from_str =>
              match RoleFromString from_str with
              | None => None
              | Some from =>
                  match DecodeData t (Find "data" dict) with
                  | None => None
                  | Some payload => Some (mkEnvelope t from payload)
                  end
              end
          end
      | None =>
          match PortalTagFromString type_str with
          | None => None
          | Some portal_type =>
              let from := kClient in
              match portal_type with
              | kOffer | kAnswer =>
                  match FindString "sdp" dict with
                  | None => None
                  | Some s =>
                      Some (mkEnvelope portal_type from
                        (Sdp (mkSdpPayload (TagToString portal_type) s)))
                  end
              | kIce =>
                  match FindString "candidate" dict with
                  | None =>
                      Some (mkEnvelope portal_type from
                        (Ice (ice_default <| is_end_of_candidates := true |>)))
                  | Some c =>
                      Some (mkEnvelope portal_type from (Ice (ice_of_dict dict c)))
                  end
              | _ => None
              end
          end
      end
  end.

Section codec.
Context {J : JsonCodec}.

Definition Encode (env : Envelope) : option string :=
  match EncodeDoc env with
  | None => None
  | Some d => JSONWriter_Write (VDict d)
  end.

Definition Decode (json : string) : option Envelope :=
  match JSONReader_Read json with
  | Some (VDict dict) => DecodeDoc dict
  | _ => None
  end.
End codec.

Definition MakeIceEndOfCandidates (from : PeerRole) : Envelope :=
  mkEnvelope kIce from (Ice (ice_default <| is_end_of_candidates := true |>)).

(** ** Specification *)

(** The active alternative is the one of the tag. *)
Definition variant_matches (t : EnvelopeType) (data : EnvelopeData) : bool :=
  match t, data with
  | (kOffer | kAnswer), Sdp _ => true
  | kIce, Ice _ => true
  | (kBye | kSessionUnhealthy | kPeerAbsent | kRequestRenegotiate), Monostate => true
  | kProbeResult, ProbeResult _ => true
  | _, _ => false
  end.

(** A well-formed envelope: the variant matches the tag and a description
    repeats it. *)
Definition env_wf (e : Envelope) : bool :=
  variant_matches (env_type e) (env_data e) &&
  match env_data e with
  | Sdp p => String.eqb (sdp_type p) (TagToString (env_type e))
  | _ => true
  end.

(** What the wire can express of an envelope: an end-of-candidates marker
    carries nothing else, and an empty candidate is that marker. *)
Definition normalize (e : Envelope) : Envelope :=
  match env_data e with
  | Ice p =>
      if is_end_of_candidates p
      then e <| env_data := Ice (ice_default <| is_end_of_candidates := true |>) |>
      else e <| env_data := Ice (p <| is_end_of_candidates := String.eqb (candidate p) "" |>) |>
  | _ => e
  end.

(** A flat portal frame rewritten as the canonical frame it stands for. *)
Definition portal_to_canonical (t : EnvelopeType) (d : DictValue) : DictValue :=
  let data :=
    match t with
    | kIce =>
        match FindString "candidate" d with None => VNone | Some _ => VDict d end
    | _ => VDict (Set_ "type" (VString (TagToString t)) d)
    end in
  Set_ "data" data
    (Set_ "from" (VString (RoleToString kClient))
      (Set_ "type" (VString (TagToString t)) [])).

Definition wire_tags : list string :=
  [ "offer"; "answer"; "ice"; "bye"; "request_renegotiate"; "probe_result";
    "session_unhealthy"; "peer_absent"; "sdp_offer"; "sdp_answer"; "ice_candidate" ].

(** ** Lemmas *)

Lemma TagFromToString t : TagFromString (TagToString t) = Some t.
Proof. by destruct t. Qed.

Lemma RoleFromToString r : RoleFromString (RoleToString r) = Some r.
Proof. by destruct r. Qed.

Lemma TagFromString_Some tag t : TagFromString tag = Some t → tag = TagToString t.
Proof.
  unfold TagFromString. intros H. string_cases H; done.
Qed.

Lemma PortalTagFromString_Some tag t :
  PortalTagFromString tag = Some t →
  (tag = "sdp_offer" ∧ t = kOffer) ∨ (tag = "sdp_answer" ∧ t = kAnswer) ∨
  (tag = "ice_candidate" ∧ t = kIce).
Proof.
  unfold PortalTagFromString. intros H. string_cases H; by auto.
Qed.

Lemma FindString_Set_eq k s d : FindString k (Set_ k (VString s) d) = Some s.
Proof. unfold FindString. by rewrite Find_Set_eq. Qed.

Lemma FindString_Set_ne k k' v d :
  k ≠ k' → FindString k (Set_ k' v d) = FindString k d.
Proof. intros. unfold FindString. by rewrite Find_Set_ne. Qed.

#[export] Hint Rewrite FindString_Set_eq TagFromToString RoleFromToString : dict.
#[export] Hint Rewrite FindString_Set_ne using discriminate : dict.

(** Reading back the candidate dictionary. *)
Lemma ice_dict_roundtrip p :
  is_end_of_candidates p = false →
  DecodeData kIce (Some (value (EncodeData kIce (Ice p)))) =
    Some (Ice (p <| is_end_of_candidates := String.eqb (candidate p) "" |>)).
Proof.
  destruct p as [eoc c mid idx uf]; simpl; intros ->.
  destruct mid, idx, uf; reflexivity.
Qed.

Lemma DecodeData_EncodeData e :
  env_wf e = true →
  let ed := EncodeData (env_type e) (env_data e) in
  DecodeData (env_type e) (if omit_field ed then None else Some (value ed)) =
    Some (env_data (normalize e)).
Proof.
  unfold env_wf, normalize. destruct e as [t r d]; simpl.
  rewrite andb_true_iff. intros [Hv Hs].
  destruct t, d as [|[ty s]|p|raw]; try discriminate Hv; simpl in *; try done.
  - by apply String.eqb_eq in Hs as ->.
  - by apply String.eqb_eq in Hs as ->.
  - destruct (is_end_of_candidates p) eqn:Heoc; [done|].
    pose proof (ice_dict_roundtrip p Heoc) as H. simpl in H. by rewrite Heoc in H.
Qed.

Lemma EncodeData_ok t d : ok (EncodeData t d) = variant_matches t d.
Proof. destruct t, d as [| |p|]; simpl; try done. by destruct (is_end_of_candidates p). Qed.

Lemma EncodeDoc_decode e d :
  env_wf e = true → EncodeDoc e = Some d → DecodeDoc d = Some (normalize e).
Proof.
  intros Hwf. pose proof (DecodeData_EncodeData e Hwf) as Hd. simpl in Hd.
  unfold EncodeDoc. destruct (ok _); [|done]. simpl.
  destruct (omit_field _); simpl in *; intros [= <-]; unfold DecodeDoc;
    autorewrite with dict; simpl;
    rewrite TagFromToString, RoleFromToString, Hd;
    unfold normalize; destruct e as [t r []]; simpl; try done;
    by destruct (is_end_of_candidates _).
Qed.

Lemma EncodeDoc_Some e :
  is_Some (EncodeDoc e) ↔ variant_matches (env_type e) (env_data e) = true.
Proof.
  unfold EncodeDoc. rewrite EncodeData_ok.
  destruct (variant_matches _ _); simpl; split; done || by intros [].
Qed.

Lemma DecodeData_wf t o d :
  DecodeData t o = Some d →
  variant_matches t d = true ∧
  match d with
  | Sdp p => sdp_type p = TagToString t
  | Ice p => is_end_of_candidates p = String.eqb (candidate p) ""
  | _ => True
  end.
Proof.
  destruct t; simpl; intros H; split_ifs; try done;
    rewrite negb_false_iff in *; by split; [|apply String.eqb_eq].
Qed.

(** ** Properties *)

Section properties.
Context {J : JsonCodec} {L : JsonCodecLaws J}.

(** C1. Round trip: a well-formed envelope whose document the JSON writer can
    print is encoded to a string that decodes to the envelope itself, up to
    [normalize] (an end-of-candidates marker carries no candidate fields, and an
    empty candidate is that marker). *)
Theorem wire_roundtrip (env : Envelope) :
  env_wf env = true →
  (∀ d, EncodeDoc env = Some d → json_ok (VDict d)) →
  ∃ s, Encode env = Some s ∧ Decode s = Some (normalize env).
Proof.
  intros Hwf Hok.
  assert (is_Some (EncodeDoc env)) as [d Hd].
  { apply EncodeDoc_Some. unfold env_wf in Hwf. by apply andb_true_iff in Hwf as [? _]. }
  destruct (json_roundtrip _ (Hok _ Hd)) as (s & Hw & Hr).
  exists s. unfold Encode, Decode. rewrite Hd, Hr. eauto using EncodeDoc_decode.
Qed.

(** C39. Every decoded envelope is well formed: its variant is the one of its
    tag, a description repeats the tag, and an ICE payload is the
    end-of-candidates marker exactly when its candidate string is empty. *)
Theorem decode_well_formed (s : string) (e : Envelope) :
  Decode s = Some e →
  env_wf e = true ∧
  ∀ p, env_data e = Ice p → (is_end_of_candidates p = true ↔ candidate p = "").
Proof.
  unfold Decode. destruct (JSONReader_Read s) as [[]|]; try done.
  intros H.
  assert (variant_matches (env_type e) (env_data e) = true ∧
    match env_data e with
    | Sdp p => sdp_type p = TagToString (env_type e)
    | Ice p => is_end_of_candidates p = String.eqb (candidate p) ""
    | _ => True
    end) as [Hv Hd].
  { unfold DecodeDoc in H. split_ifs; try done;
      match goal with Hd : DecodeData _ _ = Some _ |- _ => exact (DecodeData_wf _ _ _ Hd) end. }
  split.
  - unfold env_wf. rewrite Hv. simpl.
    destruct (env_data e); try done. by rewrite Hd, String.eqb_refl.
  - intros p Hp. rewrite Hp in Hd. rewrite Hd. apply String.eqb_eq.
Qed.

(** The accept-list is closed: a document whose [type] is not one of the
    eight canonical or three portal tags is rejected, and an accepted one has
    the tag of the decoded envelope. *)
Theorem decode_accept_list (s : string) (d : DictValue) :
  JSONReader_Read s = Some (VDict d) →
  match FindString "type" d with
  | None => Decode s = None
  | Some tag =>
      (tag ∉ wire_tags → Decode s = None) ∧
      ∀ e, Decode s = Some e →
        tag = TagToString (env_type e) ∨
        PortalTagFromString tag = Some (env_type e) ∧ env_from e = kClient
  end.
Proof.
  intros Hr. unfold Decode. rewrite Hr. unfold DecodeDoc.
  destruct (FindString "type" d) as [tag|]; [|done].
  destruct (TagFromString tag) as [t|] eqn:Ht.
  - apply TagFromString_Some in Ht as ->. split.
    + intros Hn. destruct Hn. destruct t; set_solver.
    + intros e He. split_ifs; auto.
  - destruct (PortalTagFromString tag) as [t|] eqn:Hp; [|done].
    split.
    + intros Hn. destruct Hn.
      apply PortalTagFromString_Some in Hp as [[-> _]|[[-> _]|[-> _]]]; set_solver.
    + intros e He. right. split_ifs; auto.
Qed.

(** The portal dialect means what its canonical translation means: a flat
    frame decodes to exactly the envelope of the canonical frame it stands
    for (and is rejected exactly when that one is). *)
Theorem portal_dialect_equiv (d : DictValue) (tag : string) (t : EnvelopeType) :
  FindString "type" d = Some tag →
  PortalTagFromString tag = Some t →
  DecodeDoc d = DecodeDoc (portal_to_canonical t d).
Proof.
  intros Htag Ht.
  assert (TagFromString tag = None) as Hn.
  { by apply PortalTagFromString_Some in Ht as [[-> _]|[[-> _]|[-> _]]]. }
  unfold DecodeDoc at 1. rewrite Htag, Hn, Ht.
  unfold DecodeDoc, portal_to_canonical. autorewrite with dict. simpl.
  apply PortalTagFromString_Some in Ht as [[_ ->]|[[_ ->]|[_ ->]]]; simpl.
  - autorewrite with dict. by destruct (FindString "sdp" d).
  - autorewrite with dict. by destruct (FindString "sdp" d).
  - destruct (FindString "candidate" d) eqn:Hc; simpl; by rewrite ?Hc.
Qed.

(** Encoding is refused exactly for a payload of the wrong alternative. *)
Theorem encode_refused_iff (env : Envelope) :
  (∀ d, EncodeDoc env = Some d → json_ok (VDict d)) →
  Encode env = None ↔ variant_matches (env_type env) (env_data env) = false.
Proof.
  intros Hok. rewrite <-not_true_iff_false, <-EncodeDoc_Some. unfold Encode.
  destruct (EncodeDoc env) as [d|] eqn:Hd.
  - destruct (json_roundtrip _ (Hok _ eq_refl)) as (s & -> & _).
    split; [done|]. intros []. eauto.
  - split; [|done]. intros _ []. done.
Qed.
End properties.

(** ** Witnesses *)

Definition sample_ice : Envelope :=
  mkEnvelope kIce kBrowser
    (Ice (mkIceCandidatePayload false "candidate:1 1 udp" (Some "0") (Some 0%Z) None)).
Definition sample_portal_offer : DictValue :=
  [("sdp", VString "v=0"); ("type", VString "sdp_offer")].

Lemma wire_roundtrip_witness :
  ∃ s, Encode (J := bits_codec) sample_ice = Some s ∧
    Decode (J := bits_codec) s = Some (normalize sample_ice).
Proof. apply (wire_roundtrip sample_ice); [reflexivity | intros; exact I]. Defined.

Lemma decode_well_formed_witness :
  env_wf (mkEnvelope kOffer kClient (Sdp (mkSdpPayload "offer" "v=0"))) = true.
Proof.
  refine (proj1 (decode_well_formed (J := bits_codec)
    (bits (to_pos (VDict sample_portal_offer))) _ _)).
  vm_compute. reflexivity.
Defined.

Lemma decode_accept_list_witness :
  Decode (J := bits_codec)
    (bits (to_pos (VDict [("type", VString "hello")]))) = None.
Proof.
  refine (proj1 (decode_accept_list (J := bits_codec)
    (bits (to_pos (VDict [("type", VString "hello")])))
    [("type", VString "hello")] _) _).
  - vm_compute. reflexivity.
  - apply (bool_decide_unpack _). vm_compute. exact I.
Defined.

Lemma portal_dialect_equiv_witness :
  DecodeDoc sample_portal_offer = DecodeDoc (portal_to_canonical kOffer sample_portal_offer).
Proof. apply (portal_dialect_equiv sample_portal_offer "sdp_offer" kOffer); reflexivity. Defined.

Lemma encode_refused_iff_witness :
  Encode (J := bits_codec) (mkEnvelope kBye kBrowser (ProbeResult [])) = None.
Proof.
  apply (encode_refused_iff (mkEnvelope kBye kBrowser (ProbeResult []))); [done | reflexivity].
Defined.
