(* ===== verification/WsClient.v ===== *)
(** * The signaling WebSocket client (capture/signaling/cb_signaling_ws_client.{h,cc})

    The dial URL and its configuration, and [SignalingWsClient]: a one-shot
    connection whose inbound frames are announced by [OnDataFrame] and whose
    bytes are read from a data pipe.  The network service is the environment:
    its callbacks are inputs of the machine, the data pipe is a list of the
    chunks [BeginReadData] exposes one after the other, and validity of a URL is
    the parameter [url_valid].  An observer may call back into the client from
    [OnEnvelope]; [observer_calls] gives the calls it makes. *)

From stdpp Require Import base tactics list strings pretty.
From Stdlib Require Import ZArith Lia String Ascii.
From S2P Require Import Prelude Values WireEnvelope.
Open Scope string_scope.

(** ** Percent encoding *)

Definition kHex : string := "0123456789ABCDEF".

Definition hex_digit (n : N) : ascii :=
  match String.get (N.to_nat n) kHex with Some c => c | None => "0"%char end.

Definition is_alnum (c : ascii) : bool :=
  in_range "a" "z" c || in_range "A" "Z" c || in_range "0" "9" c.

Definition path_safe (c : ascii) : bool :=
  is_alnum c || Ascii.eqb c ":" || Ascii.eqb c "-" || Ascii.eqb c "_" ||
  Ascii.eqb c "." || Ascii.eqb c "~".

Definition query_safe (c : ascii) : bool :=
  is_alnum c || Ascii.eqb c "-" || Ascii.eqb c "_" || Ascii.eqb c "." ||
  Ascii.eqb c "~".

(** The loop both encoders share. *)
Fixpoint percent_encode (safe : ascii → bool) (s : string) : string :=
  match s with
  | EmptyString => EmptyString
  | String c s' =>
      if safe c then String c (percent_encode safe s')
      else
        let n := N_of_ascii c in
        String "%" (String (hex_digit (N.shiftr n 4))
          (String (hex_digit (N.land n 15)) (percent_encode safe s')))
  end.

Definition PercentEncodePathSegment (s : string) : string := percent_encode path_safe s.
Definition PercentEncodeQueryValue (s : string) : string := percent_encode query_safe s.

(** ** Configuration *)

Record WsClientConfig := mkWsClientConfig {
  host : string;
  session_id : string;
  token : string;
  use_tls : bool;
}.

Definition BuildUrl (c : WsClientConfig) : string :=
  if String.eqb (host c) "" || String.eqb (session_id c) "" then ""
  else
    (if use_tls c then "wss://" else "ws://") ++ host c ++ "/api/webrtc/signaling/" ++
    PercentEncodePathSegment (session_id c) ++ "?role=browser" ++
    (if String.eqb (token c) "" then ""
     else "&token=" ++ PercentEncodeQueryValue (token c)).

(** [base::EqualsCaseInsensitiveASCII]. *)
Definition EqualsCaseInsensitiveASCII (a b : string) : bool :=
  String.eqb (str_map ascii_lower a) (str_map ascii_lower b).

(** The environment block: an unset variable is [None]. *)
Abbreviation environ := (string → option string) (only parsing).

Definition ReadEnv (env : environ) (name : string) : string :=
  default "" (env name).

Definition LoadConfigFromEnv (env : environ) : option WsClientConfig :=
  let tls := ReadEnv env "WEBRTC_SIGNALING_TLS" in
  let cfg := mkWsClientConfig
    (ReadEnv env "WEBRTC_SIGNALING_HOST")
    (ReadEnv env "WEBRTC_SIGNALING_SESSION_ID")
    (ReadEnv env "WEBRTC_SIGNALING_TOKEN")
    (negb (String.eqb tls "0" || EqualsCaseInsensitiveASCII tls "false" ||
           EqualsCaseInsensitiveASCII tls "no")) in
  if String.eqb (host cfg) "" || String.eqb (session_id cfg) "" then None
  else Some cfg.

(** ** Client state *)

Inductive State := kIdle | kConnecting | kOpen | kClosing | kClosed.
#[export] Instance State_eq_dec : EqDecision State.
Proof. solve_decision. Defined.

Inductive WebSocketMessageType := TEXT | BINARY | CONTINUATION.

Record InboundFrame := mkInboundFrame {
  fin : bool;
  frame_type : WebSocketMessageType;
  data_length : nat;
}.

(** The consumer end of the data pipe: the chunks [BeginReadData] will expose,
    and what it answers when there is none. *)
Inductive pipe_status := PipeOpen | PipePeerClosed | PipeBroken.
Record pipe := mkPipe { chunks : list string; status : pipe_status }.

Inductive MojoResult :=
| MOJO_RESULT_OK (buffer : string)
| MOJO_RESULT_SHOULD_WAIT
| MOJO_RESULT_FAILED_PRECONDITION
| MOJO_RESULT_OTHER.

Definition BeginReadData (p : pipe) : MojoResult :=
  match status p, chunks p with
  | PipeBroken, _ => MOJO_RESULT_OTHER
  | _, c :: _ => MOJO_RESULT_OK c
  | PipeOpen, [] => MOJO_RESULT_SHOULD_WAIT
  | PipePeerClosed, [] => MOJO_RESULT_FAILED_PRECONDITION
  end.

(** [EndReadData n] on the chunk just exposed. *)
Definition EndReadData (n : nat) (p : pipe) : pipe :=
  match chunks p with
  | [] => p
  | c :: cs =>
      if Nat.leb (String.length c) n then mkPipe cs (status p)
      else mkPipe (str_drop n c :: cs) (status p)
  end.

Record ws := mkWs {
  config_ : WsClientConfig;
  state_ : State;
  handshake_bound : bool;
  client_bound : bool;
  remote_bound : bool;
  readable_ : option pipe;
  (** free bytes of the outbound pipe; [None] when the handle is invalid *)
  writable_ : option nat;
  pending_frames_ : list InboundFrame;
  inbound_message_ : string;
  receiving_message_ : bool;
}.
#[export] Instance eta_ws : Eta ws := λ s,
  mkWs (config_ s) (state_ s) (handshake_bound s) (client_bound s) (remote_bound s)
    (readable_ s) (writable_ s) (pending_frames_ s) (inbound_message_ s)
    (receiving_message_ s).

Definition SignalingWsClient (c : WsClientConfig) : ws :=
  mkWs c kIdle false false false None None [] "" false.

(** Calls on the observer, and on the network service. *)
Inductive ws_event :=
| OnConnected
| OnEnvelope (e : Envelope)
| OnClosed (code : Z) (reason : string)
| OnError (reason : string)
| CreateWebSocket (url : string)
| StartReceiving
| SendMessage (length : nat)
| WriteData (payload : string)
| StartClosingHandshake (code : Z) (reason : string).

Abbreviation wsM := (eff ws ws_event).

(** ** Operations *)

(** The resets [OnDropChannel] and [FailWithError] share. *)
Definition reset_channel (s : ws) : ws :=
  s <| state_ := kClosed |> <| remote_bound := false |> <| client_bound := false |>
    <| handshake_bound := false |> <| readable_ := None |> <| writable_ := None |>
    <| pending_frames_ := [] |> <| inbound_message_ := "" |>
    <| receiving_message_ := false |>.

Definition FailWithError (reason : string) : wsM unit :=
  s ← eget;
  if bool_decide (state_ s = kClosed) then mret tt
  else emod reset_channel ;; emit (OnError reason).

Section client.
Context {J : JsonCodec}.
Variable url_valid : string → bool.

Definition Connect : wsM unit :=
  s ← eget;
  if negb (bool_decide (state_ s = kIdle)) then mret tt
  else
    let url := BuildUrl (config_ s) in
    if String.eqb url "" then FailWithError "config produced empty URL"
    else if negb (url_valid url) then FailWithError "config produced invalid URL"
    else
      emod (λ s, s <| state_ := kConnecting |> <| handshake_bound := true |>) ;;
      emit (CreateWebSocket url).

Definition WriteTextFrame (payload : string) : wsM bool :=
  s ← eget;
  match remote_bound s, writable_ s with
  | true, Some free =>
      emit (SendMessage (String.length payload)) ;;
      if Nat.leb (String.length payload) free then
        emit (WriteData payload) ;;
        emod (λ s, s <| writable_ := Some (free - String.length payload) |>) ;;
        mret true
      else FailWithError "writable pipe error during WriteData" ;; mret false
  | _, _ => mret false
  end.

Definition Send (envelope : Envelope) : wsM bool :=
  s ← eget;
  if negb (bool_decide (state_ s = kOpen)) then mret false
  else
    match Encode (envelope <| env_from := kBrowser |>) with
    | None =>
        FailWithError "R1 Encode() rejected envelope (variant/tag mismatch)" ;;
        mret false
    | Some encoded => WriteTextFrame encoded
    end.

Definition SendText (json : string) : wsM bool :=
  s ← eget;
  if negb (bool_decide (state_ s = kOpen)) then mret false else WriteTextFrame json.

Definition Disconnect : wsM unit :=
  s ← eget;
  match state_ s with
  | kClosing | kClosed | kIdle => mret tt
  | _ =>
      emod (λ s, s <| state_ := kClosing |>) ;;
      ewhen (remote_bound s) (emit (StartClosingHandshake 1000 ""))
  end.

Definition is_connected (s : ws) : bool := bool_decide (state_ s = kOpen).
Definition is_closing (s : ws) : bool := bool_decide (state_ s = kClosing).

Definition OnFailure (message : string) (net_error response_code : Z) : wsM unit :=
  FailWithError ("handshake failed: " ++ message ++ " net_error=" ++ pretty net_error ++
                 " response=" ++ pretty response_code).

(** [readable] and [free] are the fresh pipe ends of the new connection. *)
Definition OnConnectionEstablished (readable : pipe) (free : nat) : wsM unit :=
  s ← eget;
  if negb (bool_decide (state_ s = kConnecting)) then mret tt
  else
    emod (λ s, s <| state_ := kOpen |> <| remote_bound := true |>
                 <| client_bound := true |> <| readable_ := Some readable |>
                 <| writable_ := Some free |>) ;;
    emit StartReceiving ;;
    emit OnConnected.

(** What an observer does to the client while it handles an envelope. *)
Inductive ws_api := ApiSend (e : Envelope) | ApiSendText (json : string) | ApiDisconnect.

Definition do_api (a : ws_api) : wsM unit :=
  match a with
  | ApiSend e => Send e ;; mret tt
  | ApiSendText t => SendText t ;; mret tt
  | ApiDisconnect => Disconnect
  end.

Variable observer_calls : Envelope → list ws_api.

Definition FinishFrame (frame_fin : bool) : wsM unit :=
  if negb frame_fin then mret tt
  else
    s ← eget;
    let env := Decode (inbound_message_ s) in
    emod (λ s, s <| inbound_message_ := "" |>) ;;
    match env with
    | None => FailWithError "R1 Decode() rejected inbound frame"
    | Some e => emit (OnEnvelope e) ;; eseq (do_api <$> observer_calls e)
    end.

(** The drain loop.  It answers whether it came to its end: [false] is a loop
    that would go on when the iterations allowed were used up, which
    [ws_drain_terminates] excludes for [consume_fuel] of them. *)
Fixpoint consume_loop (fuel : nat) : wsM bool :=
  match fuel with
  | O => mret false
  | S fuel' =>
      s ← eget;
      match pending_frames_ s with
      | [] => mret true
      | frame :: rest =>
          if negb (bool_decide (state_ s = kOpen)) then mret true
          else if Nat.eqb (data_length frame) 0 then
            emod (λ s, s <| pending_frames_ := rest |>) ;;
            FinishFrame (fin frame) ;;
            consume_loop fuel'
          else
            match readable_ s with
            | None => mret true
            | Some p =>
                match BeginReadData p with
                | MOJO_RESULT_SHOULD_WAIT | MOJO_RESULT_FAILED_PRECONDITION => mret true
                | MOJO_RESULT_OTHER =>
                    FailWithError "readable pipe error during BeginReadData" ;;
                    mret true
                | MOJO_RESULT_OK buffer =>
                    if Nat.leb (data_length frame) (String.length buffer) then
                      let take := data_length frame in
                      emod (λ s, s <| inbound_message_ := inbound_message_ s ++ str_take take buffer |>
                                   <| readable_ := Some (EndReadData take p) |>
                                   <| pending_frames_ := rest |>) ;;
                      FinishFrame (fin frame) ;;
                      consume_loop fuel'
                    else
                      let take := String.length buffer in
                      emod (λ s, s <| inbound_message_ := inbound_message_ s ++ buffer |>
                                   <| readable_ := Some (EndReadData take p) |>
                                   <| pending_frames_ :=
                                        mkInboundFrame (fin frame) (frame_type frame)
                                          (data_length frame - take) :: rest |>) ;;
                      consume_loop fuel'
                end
            end
      end
  end.

Definition consume_fuel (s : ws) : nat :=
  S (List.length (pending_frames_ s) +
     match readable_ s with Some p => List.length (chunks p) | None => 0 end).

Definition ConsumePendingFrames : wsM unit :=
  s ← eget;
  match state_ s, readable_ s with
  | kOpen, Some _ => consume_loop (consume_fuel s) ;; mret tt
  | _, _ => mret tt
  end.

Definition OnDataFrame (frame_fin : bool) (t : WebSocketMessageType) (data_len : nat) :
    wsM unit :=
  s ← eget;
  if negb (bool_decide (state_ s = kOpen)) then mret tt
  else
    match t with
    | BINARY => FailWithError "unexpected non-text frame on signaling channel"
    | _ =>
        let is_text := match t with TEXT => true | _ => false end in
        if Bool.eqb is_text (receiving_message_ s) then
          FailWithError (if is_text then "TEXT frame while a message is still open"
                         else "CONTINUATION frame with no message open")
        else
          emod (λ s, s <| receiving_message_ := negb frame_fin |>
                       <| pending_frames_ := (pending_frames_ s ++
                            [mkInboundFrame frame_fin t data_len])%list |>) ;;
          ConsumePendingFrames
    end.

Definition OnDropChannel (was_clean : bool) (code : Z) (reason : string) : wsM unit :=
  prev ← egets state_;
  emod reset_channel ;;
  match prev with
  | kIdle | kClosed => mret tt
  | _ =>
      if was_clean || bool_decide (prev = kClosing) then emit (OnClosed code reason)
      else emit (OnError ("channel dropped unexpectedly: code=" ++ pretty code ++
                          " reason=" ++ reason))
  end.

Definition OnClosingHandshake : wsM unit :=
  s ← eget;
  ewhen (bool_decide (state_ s = kOpen)) (emod (λ s, s <| state_ := kClosing |>)).

Definition OnReadable (result_ok : bool) : wsM unit :=
  s ← eget;
  match state_ s, readable_ s with
  | kOpen, Some _ =>
      if negb result_ok then FailWithError "readable pipe watcher signalled error"
      else ConsumePendingFrames
  | _, _ => mret tt
  end.

(** ** The client in its environment

    [PipeBytes] is the arrival of a chunk in the data pipe.  The client never
    creates a watcher on [readable_], so no handler runs then. *)
Inductive ws_input :=
| InConnect | InApi (a : ws_api)
| InFailure (message : string) (net_error response_code : Z)
| InEstablished (p : pipe) (free : nat)
| InDataFrame (f : bool) (t : WebSocketMessageType) (len : nat)
| InDropChannel (was_clean : bool) (code : Z) (reason : string)
| InClosingHandshake
| PipeBytes (chunk : string)
| PipeStatus (st : pipe_status)
| PipeDrained (free : nat).

Definition ws_handle (i : ws_input) : wsM unit :=
  match i with
  | InConnect => Connect
  | InApi a => do_api a
  | InFailure m e r => OnFailure m e r
  | InEstablished p free => OnConnectionEstablished p free
  | InDataFrame f t len => OnDataFrame f t len
  | InDropChannel c code r => OnDropChannel c code r
  | InClosingHandshake => OnClosingHandshake
  | PipeBytes chunk =>
      emod (λ s, s <| readable_ :=
        (λ p, mkPipe (chunks p ++ [chunk])%list (status p)) <$> readable_ s |>)
  | PipeStatus st =>
      emod (λ s, s <| readable_ := (λ p, mkPipe (chunks p) st) <$> readable_ s |>)
  | PipeDrained free =>
      emod (λ s, s <| writable_ := (λ _, free) <$> writable_ s |>)
  end.

End client.

(** ** Specification of reassembly

    Given the queued frames, the partial message and all the bytes of the pipe:
    the messages completed, and what is left of the three. *)
Fixpoint reassemble (fs : list InboundFrame) (msg bytes : string) :
    list string * (list InboundFrame * string * string) :=
  match fs with
  | [] => ([], ([], msg, bytes))
  | f :: fs' =>
      if Nat.leb (data_length f) (String.length bytes) then
        let msg' := msg ++ str_take (data_length f) bytes in
        let rest := str_drop (data_length f) bytes in
        if fin f then
          let '(ms, st) := reassemble fs' "" rest in (msg' :: ms, st)
        else reassemble fs' msg' rest
      else
        ([], (mkInboundFrame (fin f) (frame_type f)
                (data_length f - String.length bytes) :: fs', msg ++ bytes, ""))
  end.

Definition pipe_bytes (s : ws) : string :=
  match readable_ s with Some p => String.concat "" (chunks p) | None => "" end.

Section spec.
Context {J : JsonCodec}.

(** The envelopes of a list of messages, up to the first that is rejected. *)
Fixpoint envelopes_of (msgs : list string) : list Envelope :=
  match msgs with
  | [] => []
  | m :: ms => match Decode m with None => [] | Some e => e :: envelopes_of ms end
  end.

(** The envelopes an event list hands to the observer. *)
Definition envs (evs : list ws_event) : list Envelope :=
  omap (λ ev, match ev with OnEnvelope e => Some e | _ => None end) evs.

(** A drain that started from the view [r] of the specification and ended in
    [s'] with events [evs] delivered a prefix of the envelopes, and all of them
    with the specified remainder if the channel is still open; it is still open
    when every message decodes and the observer is [quiet]. *)
Definition drained (quiet : Prop) (r : list string * (list InboundFrame * string * string))
    (s' : ws) (evs : list ws_event) : Prop :=
  let '(msgs, (fs, m, b)) := r in
  envs evs `prefix_of` envelopes_of msgs ∧
  (state_ s' = kOpen →
    mapM Decode msgs = Some (envs evs) ∧ pending_frames_ s' = fs ∧
    inbound_message_ s' = m ∧ pipe_bytes s' = b) ∧
  (quiet → Forall (λ m, is_Some (Decode m)) msgs → state_ s' = kOpen).

End spec.

(** ** Pipes *)

Lemma EndReadData_bytes n c cs st :
  (n ≤ String.length c)%nat →
  String.concat "" (chunks (EndReadData n (mkPipe (c :: cs) st))) =
    str_drop n (String.concat "" (c :: cs)).
Proof.
  intros Hn. rewrite concat_cons, str_drop_app by done. unfold EndReadData. simpl.
  destruct (Nat.leb_spec (String.length c) n).
  - by rewrite str_drop_all by done.
  - simpl chunks. by rewrite concat_cons.
Qed.

Lemma EndReadData_shape n p :
  status (EndReadData n p) = status p ∧
  (List.length (chunks (EndReadData n p)) ≤ List.length (chunks p))%nat.
Proof.
  destruct p as [[|c cs] st]; unfold EndReadData; simpl; [done|].
  destruct (Nat.leb _ _); simpl; split; done || lia.
Qed.

(** ** Reassembly lemmas *)

(** Consuming a chunk that ends inside the front frame does not change the
    outcome. *)
Lemma reassemble_partial f fs msg a b :
  (String.length a < data_length f)%nat →
  reassemble (f :: fs) msg (a ++ b) =
    reassemble (mkInboundFrame (fin f) (frame_type f) (data_length f - String.length a) :: fs)
      (msg ++ a) b.
Proof.
  intros Hlt. simpl. rewrite str_length_app.
  destruct (Nat.leb_spec (data_length f) (String.length a + String.length b)%nat) as [Hle|Hgt];
  destruct (Nat.leb_spec (data_length f - String.length a) (String.length b)); try lia.
  - rewrite str_take_app_ge, str_drop_app_ge by lia. by rewrite str_app_assoc.
  - by rewrite str_app_assoc, Nat.sub_add_distr.
Qed.

(** ** What the observer's calls may change *)

Section drain.
Context {J : JsonCodec}.
Variable observer_calls : Envelope → list ws_api.

Definition inbound (s : ws) := (pending_frames_ s, inbound_message_ s, readable_ s).

Definition measure (s : ws) : nat :=
  (List.length (pending_frames_ s) +
   match readable_ s with Some p => List.length (chunks p) | None => 0 end)%nat.

Ltac unfold_api :=
  unfold do_api, Send, SendText, WriteTextFrame, Disconnect, FailWithError; run_eff.

(** A call either leaves the inbound side alone or leaves the channel closed or
    closing for good. *)
Lemma do_api_spec a s :
  let s' := exec (do_api a) s in
  (inbound s' = inbound s ∧ (state_ s' = state_ s ∨ state_ s' = kClosing) ∨
   s' = reset_channel s' ∧ state_ s ≠ kClosed) ∧
  envs (events (do_api a) s) = [].
Proof.
  destruct s as [c st hb cb rb rd wr fs m rm], a; destruct st; unfold_api;
    run_cases; naive_solver.
Qed.

Abbreviation react e := (eseq (do_api <$> observer_calls e)).

Lemma react_spec calls s :
  let s' := exec (eseq (do_api <$> calls)) s in
  (state_ s = kOpen → state_ s' = kOpen → inbound s' = inbound s) ∧
  (state_ s ≠ kOpen → state_ s' ≠ kOpen) ∧
  (measure s' ≤ measure s)%nat ∧
  envs (events (eseq (do_api <$> calls)) s) = [].
Proof.
  revert s. induction calls as [|a calls IH]; intros s; [done|]. cbv zeta.
  rewrite fmap_cons. cbn [eseq]. rewrite exec_bind, events_bind. unfold envs. rewrite omap_app. fold (envs).
  destruct (do_api_spec a s) as [Hs He].
  set (s1 := exec (do_api a) s) in *. destruct (IH s1) as (IH1 & IH2 & IH3 & IH4).
  assert (measure s1 ≤ measure s)%nat as Hm.
  { destruct Hs as [[Hi _]|[-> _]]; [|unfold measure; simpl; lia].
    unfold measure. by injection Hi as -> _ ->. }
  repeat split.
  - intros Ho Ho'. destruct (decide (state_ s1 = kOpen)) as [Ho1|Hn]; [|by destruct (IH2 Hn)].
    rewrite IH1 by done. destruct Hs as [[Hi _]|[Hr _]]; [done|].
    rewrite Hr in Ho1. done.
  - intros Hn. apply IH2. destruct Hs as [[_ [->| ->]]|[-> _]]; done.
  - lia.
  - unfold envs in *. by rewrite He, IH4.
Qed.

Lemma envs_app a b : envs (a ++ b) = (envs a ++ envs b)%list.
Proof. apply omap_app. Qed.

Lemma consume_loop_not_open n s :
  state_ s ≠ kOpen → ∃ b, consume_loop observer_calls n s = (b, s, []).
Proof.
  intros Hn. destruct n; [by eexists|]. simpl. run_eff.
  destruct (pending_frames_ s); [by eexists|]. rewrite bool_decide_false by done. by eexists.
Qed.

(** The pipe is readable as long as the channel is open. *)
Definition pipe_ok (s : ws) : Prop :=
  ∃ p, readable_ s = Some p ∧ status p ≠ PipeBroken.

(** An observer that does not call back into the client. *)
Definition quiet : Prop := ∀ e, observer_calls e = [].

Definition loop_ok (n : nat) : Prop := ∀ s,
  state_ s = kOpen → pipe_ok s → (measure s < n)%nat →
  drained quiet (reassemble (pending_frames_ s) (inbound_message_ s) (pipe_bytes s))
    (exec (consume_loop observer_calls n) s)
    (events (consume_loop observer_calls n) s).

(** A finished message that decodes is handed to the observer, which then makes
    its calls; one that does not closes the channel. *)
Lemma FinishFrame_run s :
  FinishFrame observer_calls true s =
    let s0 := s <| inbound_message_ := "" |> in
    match Decode (inbound_message_ s) with
    | Some e => (tt, exec (react e) s0, OnEnvelope e :: events (react e) s0)
    | None => FailWithError "R1 Decode() rejected inbound frame" s0
    end.
Proof.
  unfold FinishFrame. run_eff. destruct (Decode _) as [e|].
  - by destruct (react e _) as [[[] ?] ?].
  - by destruct (FailWithError _ _) as [[[] ?] ?].
Qed.

(** One finished frame followed by the rest of the loop. *)
Lemma finish_frame_ok n (b : bool) s :
  loop_ok n → state_ s = kOpen → pipe_ok s → (measure s < n)%nat →
  drained quiet
    (if b then
       let '(ms, st) := reassemble (pending_frames_ s) "" (pipe_bytes s) in
       (inbound_message_ s :: ms, st)
     else reassemble (pending_frames_ s) (inbound_message_ s) (pipe_bytes s))
    (exec (FinishFrame observer_calls b ;; consume_loop observer_calls n) s)
    (events (FinishFrame observer_calls b ;; consume_loop observer_calls n) s).
Proof.
  intros IH Ho Hp Hm. rewrite exec_bind, events_bind.
  destruct b; [|exact (IH s Ho Hp Hm)].
  unfold exec at 2, events at 1. unfold exec at 2. rewrite FinishFrame_run. cbv zeta.
  set (s0 := s <| inbound_message_ := "" |>).
  destruct (reassemble (pending_frames_ s) "" (pipe_bytes s)) as [ms [[fs m] bs]] eqn:Hr.
  destruct (Decode (inbound_message_ s)) as [e|] eqn:Hd; simpl.
  - destruct (react_spec (observer_calls e) s0) as (R1 & R2 & R3 & R4).
    set (s1 := exec (react e) s0) in *. rewrite Hd.
    change (envs (OnEnvelope e :: ?l)) with (e :: envs l). rewrite envs_app, R4. simpl.
    destruct (decide (state_ s1 = kOpen)) as [Ho1|Hn].
    + specialize (R1 Ho Ho1). injection R1 as Rf Rm Rp. simpl in R3.
      assert (pipe_ok s1) as Hp1 by (unfold pipe_ok; by rewrite Rp).
      assert (measure s1 < n)%nat as Hm1 by (unfold measure in *; simpl in R3; lia).
      pose proof (IH s1 Ho1 Hp1 Hm1) as HI. unfold pipe_bytes in HI, Hr.
      rewrite Rf, Rm, Rp, Hr in HI. destruct HI as (H1 & H2 & H3).
      split; [by apply prefix_cons|]. split.
      * intros Hop. by destruct (H2 Hop) as (-> & ?).
      * intros Hq [_ Hall]%Forall_cons. auto.
    + destruct (consume_loop_not_open n s1 Hn) as [b Hl].
      unfold exec, events. rewrite Hl. simpl.
      split; [apply prefix_cons, prefix_nil|]. split; [done|].
      intros Hq. destruct Hn. unfold s1. by rewrite Hq.
  - unfold FailWithError. run_eff. rewrite bool_decide_false by (rewrite Ho; done). simpl.
    match goal with |- context [consume_loop _ _ ?x] =>
      destruct (consume_loop_not_open n x) as [b ->]; [done|] end. simpl. rewrite Hd.
    split; [apply prefix_nil|]. split; [done|].
    intros _ [[? ?] _]%Forall_cons. congruence.
Qed.

(** The three ways an iteration on a non-empty frame goes. *)
Lemma consume_wait n s f rest p :
  state_ s = kOpen → pending_frames_ s = f :: rest → data_length f ≠ 0%nat →
  readable_ s = Some p → status p ≠ PipeBroken → chunks p = [] →
  consume_loop observer_calls (S n) s = (true, s, []).
Proof.
  intros Ho Hf H0 Hp Hst Hc. cbn [consume_loop]. run_eff. rewrite Hf, Hp, Ho. simpl.
  apply Nat.eqb_neq in H0 as ->. unfold BeginReadData. rewrite Hc.
  by destruct (status p).
Qed.

Definition after_whole (s : ws) (f : InboundFrame) rest c p : ws :=
  s <| inbound_message_ := inbound_message_ s ++ str_take (data_length f) c |>
    <| readable_ := Some (EndReadData (data_length f) p) |>
    <| pending_frames_ := rest |>.

Lemma consume_whole n s f rest p c cs :
  state_ s = kOpen → pending_frames_ s = f :: rest → data_length f ≠ 0%nat →
  readable_ s = Some p → status p ≠ PipeBroken → chunks p = c :: cs →
  (data_length f ≤ String.length c)%nat →
  consume_loop observer_calls (S n) s =
    (FinishFrame observer_calls (fin f) ;; consume_loop observer_calls n)
      (after_whole s f rest c p).
Proof.
  intros Ho Hf H0 Hp Hst Hc Hle. cbn [consume_loop]. run_eff. rewrite Hf, Hp, Ho. simpl.
  apply Nat.eqb_neq in H0 as ->. unfold BeginReadData. rewrite Hc.
  apply Nat.leb_le in Hle. destruct (status p); [| |done]; simpl; rewrite Hle; simpl;
    fold (after_whole s f rest c p); destruct (FinishFrame _ _ _) as [[[] ?] ?];
    by destruct (consume_loop _ _ _) as [[? ?] ?].
Qed.

Definition after_partial (s : ws) (f : InboundFrame) rest c p : ws :=
  s <| inbound_message_ := inbound_message_ s ++ c |>
    <| readable_ := Some (EndReadData (String.length c) p) |>
    <| pending_frames_ :=
         mkInboundFrame (fin f) (frame_type f) (data_length f - String.length c) :: rest |>.

Lemma consume_partial n s f rest p c cs :
  state_ s = kOpen → pending_frames_ s = f :: rest →
  readable_ s = Some p → status p ≠ PipeBroken → chunks p = c :: cs →
  (String.length c < data_length f)%nat →
  consume_loop observer_calls (S n) s =
    consume_loop observer_calls n (after_partial s f rest c p).
Proof.
  intros Ho Hf Hp Hst Hc Hlt. cbn [consume_loop]. run_eff. rewrite Hf, Hp, Ho. simpl.
  destruct (Nat.eqb_spec (data_length f) 0) as [?|_]; [lia|].
  unfold BeginReadData. rewrite Hc. apply Nat.leb_gt in Hlt.
  destruct (status p); [| |done]; simpl; rewrite Hlt; simpl;
    fold (after_partial s f rest c p); by destruct (consume_loop _ _ _) as [[? ?] ?].
Qed.

Lemma reassemble_empty f rest m :
  data_length f ≠ 0%nat → reassemble (f :: rest) m "" = ([], (f :: rest, m, "")).
Proof.
  destruct f as [ff ft [|fl]]; simpl; [done|]. intros _. by rewrite str_app_nil.
Qed.

Lemma consume_loop_ok n : loop_ok n.
Proof.
  induction n as [|n IH]; intros s Ho Hp Hm; [lia|].
  destruct (pending_frames_ s) as [|f rest] eqn:Hf.
  { unfold exec, events. cbn [consume_loop]. run_eff. rewrite Hf. simpl.
    unfold drained. by rewrite Hf. }
  unfold measure in Hm. rewrite Hf in Hm. cbn [List.length] in Hm.
  destruct (Nat.eq_dec (data_length f) 0) as [H0|H0].
  { set (s0 := s <| pending_frames_ := rest |>).
    assert (consume_loop observer_calls (S n) s =
      (FinishFrame observer_calls (fin f) ;; consume_loop observer_calls n) s0) as Hs.
    { cbn [consume_loop]. run_eff. rewrite Hf, Ho, H0. simpl. fold s0.
      destruct (FinishFrame _ _ _) as [[[] ?] ?]; by destruct (consume_loop _ _ _) as [[? ?] ?]. }
    unfold exec, events. rewrite Hs. cbn [reassemble]. rewrite H0. simpl. rewrite str_app_nil.
    apply (finish_frame_ok n (fin f) s0 IH Ho Hp). unfold measure. simpl in *. lia. }
  destruct Hp as (p & Hrd & Hst). rewrite Hrd in Hm.
  destruct (chunks p) as [|c cs] eqn:Hc.
  { assert (pipe_bytes s = "") as Hb by (unfold pipe_bytes; by rewrite Hrd, Hc).
    unfold exec, events. rewrite (consume_wait n s f rest p) by done.
    rewrite Hb, reassemble_empty by done. unfold drained. simpl. by rewrite Hf, Hb. }
  assert (pipe_bytes s = c ++ String.concat "" cs) as Hb
    by (unfold pipe_bytes; by rewrite Hrd, Hc, concat_cons).
  destruct (Nat.le_gt_cases (data_length f) (String.length c)) as [Hle|Hgt].
  - unfold exec, events. rewrite (consume_whole n s f rest p c cs) by done.
    set (s0 := after_whole s f rest c p).
    destruct p as [pcs st]. simpl in Hc. subst pcs.
    assert (pipe_bytes s0 = str_drop (data_length f) (pipe_bytes s)) as Hb0.
    { rewrite Hb, <-concat_cons. by apply EndReadData_bytes. }
    pose proof (finish_frame_ok n (fin f) s0 IH Ho) as HF. rewrite Hb0 in HF.
    cbn [reassemble].
    replace (Nat.leb (data_length f) (String.length (pipe_bytes s))) with true
      by (symmetry; apply Nat.leb_le; rewrite Hb, str_length_app; lia).
    replace (str_take (data_length f) (pipe_bytes s)) with (str_take (data_length f) c)
      by (by rewrite Hb, str_take_app).
    destruct (EndReadData_shape (data_length f) (mkPipe (c :: cs) st)) as [He1 He2].
    apply HF; unfold s0, pipe_ok, measure, after_whole; cbn [readable_ pending_frames_ set_field].
    + eexists. split; [done|]. by rewrite He1.
    + cbn [chunks List.length] in *. lia.
  - unfold exec, events. rewrite (consume_partial n s f rest p c cs) by done.
    set (s0 := after_partial s f rest c p).
    rewrite Hb, reassemble_partial by done.
    assert (readable_ s0 = Some (mkPipe cs (status p))) as Hr0.
    { unfold s0, after_partial, EndReadData. simpl. by rewrite Hc, Nat.leb_refl. }
    replace (String.concat "" cs) with (pipe_bytes s0) by (unfold pipe_bytes; by rewrite Hr0).
    apply (IH s0 Ho); unfold pipe_ok, measure; rewrite Hr0; simpl; [eauto | simpl in *; lia].
Qed.

Lemma consume_ok s :
  state_ s = kOpen → pipe_ok s →
  drained quiet (reassemble (pending_frames_ s) (inbound_message_ s) (pipe_bytes s))
    (exec (ConsumePendingFrames observer_calls) s)
    (events (ConsumePendingFrames observer_calls) s).
Proof.
  intros Ho Hp. pose proof Hp as (p & Hr & _).
  unfold ConsumePendingFrames. rewrite exec_get, events_get, Ho, Hr.
  rewrite exec_bind, events_bind, app_nil_r.
  apply consume_loop_ok; [done | done |]. unfold measure, consume_fuel. lia.
Qed.

(** A watcher callback on an open channel drains it. *)
Lemma OnReadable_open s :
  state_ s = kOpen → is_Some (readable_ s) →
  events (OnReadable observer_calls true) s = events (ConsumePendingFrames observer_calls) s.
Proof. intros Ho [p Hp]. unfold OnReadable. by rewrite events_get, Ho, Hp. Qed.

(** The bytes of exactly one queued message. *)
Lemma reassemble_one t m :
  reassemble [mkInboundFrame true t (String.length m)] "" m = ([m], ([], "", "")).
Proof.
  simpl. rewrite Nat.leb_refl, str_drop_all by done. do 2 f_equal.
  rewrite <-(str_app_nil m) at 2. rewrite str_take_app_ge, Nat.sub_diag by done.
  simpl. by rewrite str_app_nil.
Qed.

(** Bytes that arrive only lengthen the pipe. *)
Lemma run_pipe_bytes url_valid s cs st parts :
  readable_ s = Some (mkPipe cs st) →
  run (ws_handle url_valid observer_calls) (PipeBytes <$> parts) s =
    (tt, s <| readable_ := Some (mkPipe (cs ++ parts)%list st) |>, []).
Proof.
  revert s cs. unfold run. induction parts as [|c parts IH]; intros s cs Hr.
  - rewrite app_nil_r, <-Hr. by destruct s.
  - rewrite !fmap_cons. cbn [eseq ws_handle].
    unfold emod, mbind, eff_bind. rewrite (IH _ (cs ++ [c])%list).
    + by rewrite <-app_assoc.
    + simpl. by rewrite Hr.
Qed.

(** ** Termination of the drain loop *)

Lemma FinishFrame_measure b s :
  (measure (exec (FinishFrame observer_calls b) s) ≤ measure s)%nat.
Proof.
  destruct b; [|done]. unfold exec. rewrite FinishFrame_run. cbv zeta.
  destruct (Decode _) as [e|]; simpl.
  - destruct (react_spec (observer_calls e) (s <| inbound_message_ := "" |>)) as (_ & _ & H & _).
    exact H.
  - unfold FailWithError. run_eff. destruct (bool_decide _); unfold measure; simpl; lia.
Qed.

Lemma bind_cong {A C} (m : wsM A) (f g : A → wsM C) s :
  f (result m s) (exec m s) = g (result m s) (exec m s) → (m ≫= f) s = (m ≫= g) s.
Proof.
  unfold result, exec, mbind, eff_bind. destruct (m s) as [[a s1] es]; simpl. intros H. rewrite H. reflexivity.
Qed.

(** A read takes a chunk, or what is left of the front frame. *)
Lemma read_measure p c n : BeginReadData p = MOJO_RESULT_OK c → (String.length c ≤ n)%nat →
  (List.length (chunks (EndReadData n p)) < List.length (chunks p))%nat.
Proof.
  unfold BeginReadData, EndReadData. intros Hr Hn. destruct p as [[|c' cs] []]; simplify_eq/=;
    apply Nat.leb_le in Hn; rewrite Hn; simpl; lia.
Qed.

(** Past the measure the loop comes to its end. *)
Lemma consume_loop_ends n s : (measure s < n)%nat → result (consume_loop observer_calls n) s = true.
Proof.
  revert s. induction n as [|n IH]; intros s Hn; [lia|]. cbn [consume_loop].
  rewrite result_bind. change (result eget s) with s. change (exec eget s) with s.
  destruct (pending_frames_ s) as [|f rest] eqn:Hf; [done|].
  unfold measure in Hn. rewrite Hf in Hn. cbn [List.length] in Hn.
  assert (Hnext : ∀ s0, (measure s0 < n)%nat →
    result (FinishFrame observer_calls (fin f) ;; consume_loop observer_calls n) s0 = true).
  { intros s0 H0. rewrite result_bind. apply IH. pose proof (FinishFrame_measure (fin f) s0). lia. }
  destruct (negb _); [done|]. destruct (Nat.eqb (data_length f) 0).
  { rewrite result_bind. apply Hnext. unfold measure. simpl. lia. }
  destruct (readable_ s) as [p|] eqn:Hp; [|done].
  destruct (BeginReadData p) as [c| | |] eqn:Hr; try done; [|by rewrite result_bind].
  destruct (Nat.leb (data_length f) (String.length c)); rewrite result_bind.
  - apply Hnext. destruct (EndReadData_shape (data_length f) p) as [_ He]. unfold measure. simpl. lia.
  - apply IH. pose proof (read_measure p c _ Hr (Nat.le_refl _)). unfold measure. simpl. lia.
Qed.

(** More iterations than that change nothing. *)
Lemma consume_loop_enough n k s :
  (measure s < n)%nat → (measure s < k)%nat →
  consume_loop observer_calls n s = consume_loop observer_calls k s.
Proof.
  revert k s. induction n as [|n IH]; intros k s Hn Hk; [lia|].
  destruct k as [|k]; [lia|]. cbn [consume_loop]. apply bind_cong.
  unfold exec, result. simpl. destruct (pending_frames_ s) as [|f rest] eqn:Hf; [done|].
  unfold measure in Hn, Hk. rewrite Hf in Hn, Hk. cbn [List.length] in Hn, Hk.
  destruct (negb _); [done|]. destruct (Nat.eqb (data_length f) 0).
  { rewrite !mod_run. apply bind_cong.
    match goal with |- context [exec (FinishFrame _ _) ?s0] =>
      pose proof (FinishFrame_measure (fin f) s0) as HF end.
    unfold measure in HF at 2. simpl in HF. apply IH; lia. }
  destruct (readable_ s) as [p|] eqn:Hp; [|done].
  destruct (BeginReadData p) as [c| | |] eqn:Hr; try done.
  destruct (Nat.leb (data_length f) (String.length c)).
  - rewrite !mod_run. apply bind_cong.
    destruct (EndReadData_shape (data_length f) p) as [_ He].
    match goal with |- context [exec (FinishFrame _ _) ?s0] =>
      pose proof (FinishFrame_measure (fin f) s0) as HF end.
    unfold measure in HF at 2. simpl in HF. apply IH; lia.
  - rewrite !mod_run.
    pose proof (read_measure p c _ Hr (Nat.le_refl _)) as He.
    apply IH; unfold measure; simpl; lia.
Qed.
End drain.

(** ** Terminal notifications *)

Definition is_terminal (ev : ws_event) : bool :=
  match ev with OnClosed _ _ | OnError _ => true | _ => false end.
Definition to_observer (ev : ws_event) : bool :=
  match ev with OnConnected | OnEnvelope _ | OnClosed _ _ | OnError _ => true | _ => false end.

(** The observer hears nothing after it was told the channel ended. *)
Fixpoint silent_after_end (evs : list ws_event) : bool :=
  match evs with
  | [] => true
  | ev :: evs' =>
      if is_terminal ev then forallb (λ e, negb (to_observer e)) evs'
      else silent_after_end evs'
  end.

(** What every handler guarantees: once it says the channel ended it says
    nothing more and leaves it closed; on a closed channel it says nothing. *)
Definition announces_at {A} (m : wsM A) (s : ws) : Prop :=
  silent_after_end (events m s) = true ∧
  (existsb is_terminal (events m s) = true → state_ (exec m s) = kClosed) ∧
  (state_ s = kClosed →
     state_ (exec m s) = kClosed ∧ forallb (λ e, negb (to_observer e)) (events m s) = true).
Definition announces {A} (m : wsM A) : Prop := ∀ s, announces_at m s.

Lemma silent_app a b :
  silent_after_end a = true → silent_after_end b = true →
  (existsb is_terminal a = true → forallb (λ e, negb (to_observer e)) b = true) →
  silent_after_end (a ++ b) = true.
Proof.
  intros Ha Hb Hab. induction a as [|ev a IH]; [done|]. simpl in *.
  destruct (is_terminal ev); simpl in *; [|auto].
  by rewrite forallb_app, Ha, Hab.
Qed.

Lemma mute_no_end evs :
  forallb (λ e, negb (to_observer e)) evs = true → existsb is_terminal evs = false.
Proof. induction evs as [|[] evs IH]; simpl; intros H; try done; auto. Qed.

Lemma announces_at_bind {A B} (m : wsM A) (f : A → wsM B) s :
  announces_at m s → announces_at (f (result m s)) (exec m s) → announces_at (m ≫= f) s.
Proof.
  intros (M1 & M2 & M3) (F1 & F2 & F3). unfold announces_at.
  rewrite exec_bind, events_bind, existsb_app, forallb_app.
  split_and!.
  - apply silent_app; auto. intros Ht. by apply F3, M2.
  - intros [Ht|Ht]%orb_true_iff; [|auto]. by apply F3, M2.
  - intros Hc. destruct (M3 Hc) as [Hc1 ->]. by destruct (F3 Hc1) as [-> ->].
Qed.

Lemma announces_bind {A B} (m : wsM A) (f : A → wsM B) :
  announces m → (∀ a, announces (f a)) → announces (m ≫= f).
Proof. intros Hm Hf s. apply announces_at_bind; [apply Hm | apply Hf]. Qed.

Lemma announces_ret {A} (a : A) : announces (mret a).
Proof. intros s. unfold announces_at. run_eff. by split_and!. Qed.

Lemma announces_fail reason : announces (FailWithError reason).
Proof.
  intros s. unfold announces_at, FailWithError. run_eff.
  destruct (bool_decide_reflect (state_ s = kClosed)); simpl; by split_and!.
Qed.

Lemma announces_get : announces eget.
Proof. intros s. unfold announces_at. run_eff. by split_and!. Qed.

Lemma announces_mod g : (∀ s, state_ (g s) = state_ s) → announces (emod g).
Proof.
  intros Hg s. unfold announces_at. run_eff. split_and!; [done | done |].
  intros Hs. by rewrite Hg.
Qed.

Create HintDb ws.
#[export] Hint Resolve announces_bind announces_ret announces_fail announces_get : ws.
#[export] Hint Extern 1 (announces (emod _)) => (apply announces_mod; done) : ws.


Section announce.
Context {J : JsonCodec}.
Variable url_valid : string → bool.
Variable observer_calls : Envelope → list ws_api.

(** Evaluate a straight-line handler on every state. *)
Ltac announce_run :=
  intros [c st hb cb rb rd wr fs m rm]; unfold announces_at; destruct st;
  run_cases; by split_and!.

Lemma announces_write payload : announces (WriteTextFrame payload).
Proof. unfold WriteTextFrame, FailWithError. announce_run. Qed.
Lemma announces_send e : announces (Send e).
Proof. unfold Send, WriteTextFrame, FailWithError. announce_run. Qed.
Lemma announces_api a : announces (do_api a).
Proof.
  destruct a; unfold do_api, Send, SendText, Disconnect, WriteTextFrame, FailWithError;
    announce_run.
Qed.

Lemma announces_seq calls : announces (eseq (do_api <$> calls)).
Proof.
  induction calls as [|a calls IH]; [apply announces_ret|].
  rewrite fmap_cons. cbn [eseq]. auto using announces_bind, announces_api.
Qed.

Lemma announces_finish b s :
  state_ s = kOpen → announces_at (FinishFrame observer_calls b) s.
Proof.
  intros Ho. destruct b; [|apply announces_ret]. unfold announces_at, exec, events.
  rewrite FinishFrame_run. cbv zeta. set (s0 := s <| inbound_message_ := "" |>).
  destruct (Decode _) as [e|]; [|exact (announces_fail _ s0)]. simpl.
  destruct (announces_seq (observer_calls e) s0) as (H1 & H2 & H3).
  split_and!; [exact H1 | exact H2 | congruence].
Qed.

Lemma announces_at_mod {A} g (k : unit → wsM A) s :
  state_ (g s) = state_ s → announces_at (k tt) (g s) → announces_at (emod g ≫= k) s.
Proof.
  intros Hg Hk. apply announces_at_bind; [|exact Hk].
  unfold announces_at. run_eff. split_and!; [done | done |]. by rewrite Hg.
Qed.

Lemma announces_loop n : announces (consume_loop observer_calls n).
Proof.
  induction n as [|n IH]; intros s; [apply announces_ret|].
  destruct (decide (state_ s = kOpen)) as [Ho|Hn].
  2:{ destruct (consume_loop_not_open observer_calls (S n) s Hn) as [b Hl].
      unfold announces_at, exec, events. rewrite Hl. apply (announces_ret b s). }
  assert (∀ b s0, state_ s0 = kOpen →
    announces_at (FinishFrame observer_calls b ;; consume_loop observer_calls n) s0) as Hstep.
  { intros b s0 Ho0. apply announces_at_bind; [by apply announces_finish | apply IH]. }
  cbn [consume_loop]. apply announces_at_bind; [apply announces_get|].
  unfold exec, result. simpl. rewrite bool_decide_true by done. simpl.
  repeat case_match; try apply announces_ret;
    try (apply announces_bind; [apply announces_fail|intros _; apply announces_ret]);
    apply announces_at_mod; simpl; auto.
Qed.

Lemma announces_consume : announces (ConsumePendingFrames observer_calls).
Proof.
  intros s. apply announces_at_bind; [apply announces_get|].
  change (result eget s) with s. change (exec eget s) with s.
  destruct (state_ s), (readable_ s); try apply announces_ret.
  apply announces_bind; [apply announces_loop|intros _; apply announces_ret].
Qed.

Lemma announces_handle i : announces (ws_handle url_valid observer_calls i).
Proof.
  destruct i as [|a|? ? ?|? ?|f t len| | | | |]; cbn [ws_handle];
    try (unfold Connect, OnFailure, OnConnectionEstablished, OnDropChannel,
      OnClosingHandshake, FailWithError, reset_channel; announce_run).
  - apply announces_api.
  - intros s. unfold OnDataFrame. apply announces_at_bind; [apply announces_get|].
    unfold exec, result. simpl. destruct (negb _); [apply announces_ret|].
    destruct t; try apply announces_fail; simpl; case_match; try apply announces_fail;
      apply announces_at_mod; try done; apply announces_consume.
  - by apply announces_mod.
Qed.
End announce.

(** ** Percent decoding (specification) *)

Definition hex_value (c : ascii) : option N :=
  if in_range "0" "9" c then Some (N_of_ascii c - 48)%N
  else if in_range "A" "F" c then Some (N_of_ascii c - 55)%N
  else None.

Fixpoint percent_decode (s : string) : option string :=
  match s with
  | EmptyString => Some EmptyString
  | String "%" (String h (String l s')) =>
      match hex_value h, hex_value l, percent_decode s' with
      | Some a, Some b, Some r => Some (String (ascii_of_N (16 * a + b)) r)
      | _, _, _ => None
      end
  | String "%" _ => None
  | String c s' => String c <$> percent_decode s'
  end.

Fixpoint str_forallb (P : ascii → bool) (s : string) : bool :=
  match s with EmptyString => true | String c s' => P c && str_forallb P s' end.

Definition all_ascii : list ascii := ascii_of_nat <$> seq 0 256.

(** A fact about every byte is decided by evaluation. *)
Lemma forall_ascii (P : ascii → bool) : forallb P all_ascii = true → ∀ c, P c = true.
Proof.
  intros H c. rewrite forallb_forall in H. apply H. unfold all_ascii.
  rewrite <-(ascii_nat_embedding c). apply list_elem_of_In, list_elem_of_fmap.
  eexists. split; [done|]. apply elem_of_seq. pose proof (nat_ascii_bounded c). lia.
Qed.

Lemma hex_byte c :
  hex_value (hex_digit (N.shiftr (N_of_ascii c) 4)) = Some (N.shiftr (N_of_ascii c) 4) ∧
  hex_value (hex_digit (N.land (N_of_ascii c) 15)) = Some (N.land (N_of_ascii c) 15) ∧
  ascii_of_N (16 * N.shiftr (N_of_ascii c) 4 + N.land (N_of_ascii c) 15) = c.
Proof.
  pose proof (forall_ascii (λ c,
    bool_decide (hex_value (hex_digit (N.shiftr (N_of_ascii c) 4)) =
                 Some (N.shiftr (N_of_ascii c) 4)) &&
    bool_decide (hex_value (hex_digit (N.land (N_of_ascii c) 15)) =
                 Some (N.land (N_of_ascii c) 15)) &&
    Ascii.eqb (ascii_of_N (16 * N.shiftr (N_of_ascii c) 4 + N.land (N_of_ascii c) 15)) c)
    ltac:(by vm_compute) c) as H.
  apply andb_true_iff in H as [H H3]. apply andb_true_iff in H as [H1 H2].
  apply bool_decide_eq_true in H1, H2. apply Ascii.eqb_eq in H3. auto.
Qed.

Lemma percent_decode_plain c s :
  c ≠ "%"%char → percent_decode (String c s) = String c <$> percent_decode s.
Proof.
  intros Hc. destruct c as [[] [] [] [] [] [] [] []]; try done.
Qed.

Lemma percent_decode_encode safe s :
  safe "%"%char = false → percent_decode (percent_encode safe s) = Some s.
Proof.
  intros Hp. induction s as [|c s IH]; [done|]. simpl percent_encode.
  destruct (safe c) eqn:Hs.
  - rewrite percent_decode_plain by congruence. by rewrite IH.
  - destruct (hex_byte c) as (H1 & H2 & H3). cbn [percent_decode].
    by rewrite H1, H2, IH, H3.
Qed.

Definition url_byte (c : ascii) : bool := path_safe c || Ascii.eqb c "%".

Lemma percent_encode_bytes safe s :
  (∀ c, safe c = true → url_byte c = true) →
  str_forallb url_byte (percent_encode safe s) = true.
Proof.
  intros Hs. induction s as [|c s IH]; [done|]. simpl.
  destruct (safe c) eqn:Hc; simpl; rewrite IH; [by rewrite Hs|].
  destruct (hex_byte c) as (H1 & H2 & _).
  assert (∀ d n, hex_value d = Some n → url_byte d = true) as Hh.
  { intros d n. unfold hex_value. intros Hd.
    pose proof (forall_ascii (λ d,
      negb (in_range "0" "9" d || in_range "A" "F" d) || url_byte d)
      ltac:(by vm_compute) d) as Hf.
    simpl in Hf. destruct (in_range "0" "9" d), (in_range "A" "F" d); done. }
  by rewrite (Hh _ _ H1), (Hh _ _ H2).
Qed.

(** A string of safe bytes ends at the first byte that is not safe. *)
Lemma safe_split P q a b x y :
  P q = false → str_forallb P a = true → str_forallb P b = true →
  a ++ String q x = b ++ String q y → a = b ∧ x = y.
Proof.
  intros Hq. revert b. induction a as [|c a IH]; intros [|d b] Ha Hb H;
    rewrite ?str_app_cons in H; try change ("" ++ ?t) with t in H;
    simplify_eq/=; try done.
  - by rewrite Hq in Hb.
  - by rewrite Hq in Ha.
  - apply andb_true_iff in Ha as [_ Ha], Hb as [_ Hb].
    by destruct (IH b Ha Hb ltac:(done)) as [-> ->].
Qed.

Lemma path_segment_inj a b :
  PercentEncodePathSegment a = PercentEncodePathSegment b → a = b.
Proof.
  intros H. apply (f_equal percent_decode) in H. unfold PercentEncodePathSegment in H.
  rewrite !percent_decode_encode in H by done. congruence.
Qed.

Lemma query_value_inj a b :
  PercentEncodeQueryValue a = PercentEncodeQueryValue b → a = b.
Proof.
  intros H. apply (f_equal percent_decode) in H. unfold PercentEncodeQueryValue in H.
  rewrite !percent_decode_encode in H by done. congruence.
Qed.

Lemma str_app_inv_head a b c : a ++ b = a ++ c → b = c.
Proof. induction a as [|x a IH]; [done|]. rewrite !str_app_cons. intros [= H]. auto. Qed.

(** ** Properties *)

Section ws_properties.
Context {J : JsonCodec}.
Variable url_valid : string → bool.
Variable observer_calls : Envelope → list ws_api.

(** C3. Draining is reassembly: whatever chunks the pipe exposes the bytes in
    and however messages are fragmented, the envelopes handed over are, in
    order, those of the messages the byte stream contains; while the channel
    stays open none is missing, the rest of the stream is kept for the next
    drain, and only an undecodable message or the observer itself closes it. *)
Theorem ws_drain_reassembles (s : ws) :
  state_ s = kOpen → pipe_ok s →
  drained (quiet observer_calls)
    (reassemble (pending_frames_ s) (inbound_message_ s) (pipe_bytes s))
    (exec (ConsumePendingFrames observer_calls) s)
    (events (ConsumePendingFrames observer_calls) s).
Proof. apply consume_ok. Qed.

(** C40. The drain loop terminates: with one iteration for each frame that is
    queued, one for each chunk of the pipe and a last one it comes to its end,
    whatever the observer does in between, and allowing more changes nothing. *)
Theorem ws_drain_terminates (s : ws) (n : nat) :
  (consume_fuel s ≤ n)%nat →
  result (consume_loop observer_calls n) s = true ∧
  consume_loop observer_calls n s = consume_loop observer_calls (consume_fuel s) s.
Proof.
  intros Hn. unfold consume_fuel in *.
  split; [apply consume_loop_ends|apply consume_loop_enough]; unfold measure; lia.
Qed.

(** The end of a connection is announced once: along every execution of a
    new client the observer hears nothing after [OnClosed] or [OnError], and
    the client is then closed. *)
Theorem ws_end_announced_once (c : WsClientConfig) (s : ws) (tr : list ws_event) :
  reachable (λ _ _, true) (ws_handle url_valid observer_calls) (SignalingWsClient c) s tr →
  silent_after_end tr = true ∧ (existsb is_terminal tr = true → state_ s = kClosed).
Proof.
  revert s tr. apply (reachable_trace_inv _ _ _ (λ s tr,
    silent_after_end tr = true ∧ (existsb is_terminal tr = true → state_ s = kClosed))); [done|].
  intros i s tr _ [Hs Ht] _.
  destruct (announces_handle url_valid observer_calls i s) as (H1 & H2 & H3).
  rewrite existsb_app. split.
  - apply silent_app; auto. intros Hx. by apply H3, Ht.
  - intros [Hx|Hx]%orb_true_iff; [|auto]. by apply H3, Ht.
Qed.

(** Bytes that reach the data pipe after their frame was announced wait: no
    handler runs on their arrival, although draining at that moment would
    deliver the message. *)
Theorem ws_late_bytes_wait (s : ws) (parts : list string) (t : WebSocketMessageType)
    (e : Envelope) :
  state_ s = kOpen → readable_ s = Some (mkPipe [] PipeOpen) → inbound_message_ s = "" →
  pending_frames_ s = [mkInboundFrame true t (String.length (String.concat "" parts))] →
  Decode (String.concat "" parts) = Some e → quiet observer_calls →
  let arrivals := run (ws_handle url_valid observer_calls) (PipeBytes <$> parts) in
  events arrivals s = [] ∧
  envs (events (OnReadable observer_calls true) (exec arrivals s)) = [e].
Proof.
  intros Ho Hr Hm Hf Hd Hq. cbv zeta. unfold exec at 1, events at 1.
  rewrite (run_pipe_bytes _ _ _ [] PipeOpen) by done. simpl app. split; [done|].
  set (s1 := s <| readable_ := Some (mkPipe parts PipeOpen) |>).
  rewrite (OnReadable_open observer_calls s1) by eauto.
  pose proof (consume_ok observer_calls s1 Ho ltac:(by eexists)) as H.
  change (pending_frames_ s1) with (pending_frames_ s) in H.
  change (inbound_message_ s1) with (inbound_message_ s) in H.
  change (pipe_bytes s1) with (String.concat "" parts) in H.
  rewrite Hf, Hm, reassemble_one in H. destruct H as (_ & H2 & H3).
  destruct H2 as (Hmap & _); [apply H3; [done|]; by rewrite Forall_singleton, Hd|].
  simpl in Hmap. rewrite Hd in Hmap. by injection Hmap.
Qed.
End ws_properties.

(** The dial URL cannot be confused: two configurations of one host and
    scheme that produce the same URL carry the same session id and the same
    token, whatever bytes those contain. *)
Theorem build_url_injective (c1 c2 : WsClientConfig) :
  host c1 = host c2 → use_tls c1 = use_tls c2 →
  BuildUrl c1 = BuildUrl c2 → BuildUrl c1 ≠ "" →
  session_id c1 = session_id c2 ∧ token c1 = token c2.
Proof.
  destruct c1 as [h i1 t1 tls], c2 as [h2 i2 t2 tls2]. unfold BuildUrl. simpl.
  intros -> ->. destruct (String.eqb h2 ""); [done|]. simpl.
  destruct (String.eqb i1 ""), (String.eqb i2 ""); try done.
  intros H _. apply str_app_inv_head, str_app_inv_head, str_app_inv_head in H.
  assert (∀ i, str_forallb url_byte (PercentEncodePathSegment i) = true) as Hsafe.
  { intros i. apply percent_encode_bytes. intros c Hc. unfold url_byte. by rewrite Hc. }
  apply (safe_split url_byte) in H as [Hi Ht]; [|done..].
  split; [by apply path_segment_inj|].
  change (String "r" "ole=browser") with "role=browser" in Ht.
  apply (str_app_inv_head "role=browser") in Ht.
  destruct (String.eqb_spec t1 ""), (String.eqb_spec t2 ""); try congruence; try done.
  apply query_value_inj. by apply (str_app_inv_head "&token=").
Qed.

(** ** Witnesses *)

Import BitsCodec.

Definition cfg0 : WsClientConfig := mkWsClientConfig "broker:8080" "s/1" "t&k" false.

(** An open client in the middle of a message. *)
Definition open_ws (frames : list InboundFrame) (msg : string) (cs : list string) : ws :=
  (SignalingWsClient cfg0) <| state_ := kOpen |> <| remote_bound := true |>
    <| client_bound := true |> <| readable_ := Some (mkPipe cs PipeOpen) |>
    <| writable_ := Some 4096%nat |> <| pending_frames_ := frames |>
    <| inbound_message_ := msg |>.

Definition bye_text : string := bits (to_pos (VDict [("from", VString "client"); ("type", VString "bye")])).

(** The message split over two frames and three chunks. *)
Definition bye_ws : ws :=
  open_ws [mkInboundFrame false TEXT 5; mkInboundFrame true CONTINUATION (String.length bye_text - 5)]
    "" [str_take 2 bye_text; str_take 9 (str_drop 2 bye_text); str_drop 11 bye_text].

Lemma ws_drain_reassembles_witness :
  envs (events (ConsumePendingFrames (J := bits_codec) (λ _, [])) bye_ws) =
    [mkEnvelope kBye kClient Monostate] ∧
  drained (J := bits_codec) (quiet (λ _, []))
    (reassemble (pending_frames_ bye_ws) "" (pipe_bytes bye_ws))
    (exec (ConsumePendingFrames (λ _, [])) bye_ws)
    (events (ConsumePendingFrames (λ _, [])) bye_ws).
Proof.
  split; [vm_compute; reflexivity|].
  apply (ws_drain_reassembles (J := bits_codec) (λ _, []) bye_ws); [reflexivity|].
  eexists. split; [reflexivity | discriminate].
Defined.

Lemma ws_drain_terminates_witness :
  consume_fuel bye_ws = 6%nat ∧
  result (consume_loop (J := bits_codec) (λ _, [ApiDisconnect]) 6) bye_ws = true.
Proof.
  split; [reflexivity|]. refine (proj1 (ws_drain_terminates (J := bits_codec) (λ _, [ApiDisconnect]) bye_ws 6 _)). vm_compute. lia.
Defined.

Definition session_inputs : list ws_input :=
  [InConnect; InEstablished (mkPipe [] PipeOpen) 100; InDataFrame true BINARY 3;
   InDropChannel true 1000 ""].

Lemma ws_end_announced_once_witness :
  let m := run (ws_handle (J := bits_codec) (λ _, true) (λ _, [])) session_inputs in
  existsb is_terminal (events m (SignalingWsClient cfg0)) = true ∧
  silent_after_end (events m (SignalingWsClient cfg0)) = true.
Proof.
  cbv zeta. split; [vm_compute; reflexivity|].
  apply (ws_end_announced_once (J := bits_codec) (λ _, true) (λ _, []) cfg0
    (exec (run (ws_handle (J := bits_codec) (λ _, true) (λ _, [])) session_inputs)
      (SignalingWsClient cfg0)) _).
  apply run_reachable. reflexivity.
Defined.

Lemma ws_late_bytes_wait_witness :
  let s := open_ws [mkInboundFrame true TEXT (String.length bye_text)] "" [] in
  events (run (ws_handle (J := bits_codec) (λ _, true) (λ _, [])) (PipeBytes <$> [bye_text])) s
    = [].
Proof.
  refine (proj1 (ws_late_bytes_wait (J := bits_codec) (λ _, true) (λ _, [])
    (open_ws [mkInboundFrame true TEXT (String.length bye_text)] "" []) [bye_text] TEXT
    (mkEnvelope kBye kClient Monostate) _ _ _ _ _ _)); try reflexivity.
  intros e. reflexivity.
Defined.

Lemma build_url_injective_witness :
  BuildUrl cfg0 = "ws://broker:8080/api/webrtc/signaling/s%2F1?role=browser&token=t%26k" ∧
  session_id cfg0 = "s/1" ∧ token cfg0 = "t&k".
Proof.
  split; [reflexivity|].
  refine (build_url_injective cfg0 (mkWsClientConfig "broker:8080" "s/1" "t&k" false) _ _ _ _);
    [reflexivity | reflexivity | reflexivity | discriminate].
Defined.
