(* ===== verification/Transport.v ===== *)
(** * The signaling seam (capture/signaling/cb_signaling_transport.h)

    [SignalingTransport] is what a consumer of the signaling channel relies on:
    one operation, [Send].  Its header states the contract in prose; here it
    is the class [TransportContract]: a successful send puts exactly one frame
    on the wire, the encoding of the envelope stamped with the browser's role,
    and a failed one puts none.  The WebSocket client implements it. *)

From stdpp Require Import base tactics list strings.
From Stdlib Require Import ZArith Lia String.
From S2P Require Import Prelude Values WireEnvelope WsClient.

Class SignalingTransport (T E : Type) := {
  transport_Send : Envelope → eff T E bool;
  (** the text frame an event puts on the wire *)
  frame_of : E → option string;
}.

Definition frames_of `{SignalingTransport T E} (evs : list E) : list string :=
  omap frame_of evs.

Class TransportContract {J : JsonCodec} (T E : Type) `{!SignalingTransport T E} : Prop := {
  send_frames env t :
    if result (transport_Send env) t
    then ∃ p, Encode (env <| env_from := kBrowser |>) = Some p ∧
              frames_of (events (transport_Send env) t) = [p]
    else frames_of (events (transport_Send env) t) = [];
}.

(** ** The WebSocket client as a transport *)

Definition ws_frame (ev : ws_event) : option string :=
  match ev with WriteData p => Some p | _ => None end.

#[export] Instance ws_transport {J : JsonCodec} : SignalingTransport ws ws_event := {|
  transport_Send := WsClient.Send;
  frame_of := ws_frame;
|}.

#[export] Instance ws_contract {J : JsonCodec} : TransportContract ws ws_event.
Proof.
  constructor. intros env s. unfold frames_of. cbn [transport_Send frame_of ws_transport].
  unfold Send, WriteTextFrame, FailWithError. destruct s as [c st hb cb rb rd wr fs m rm].
  destruct st; run_cases; eauto.
Qed.
