(* ===== verification/Reconnect.v ===== *)
(** * The reconnect supervisor (capture/signaling/cb_signaling_reconnect.{h,cc})

    [CbSignalingReconnect] owns one single-shot signaling client at a time and
    replaces it when its channel dies: exponential backoff, a bound on the
    attempts, an idle timeout.  It is modelled against the interface
    [InnerClient] of the client it owns; the WebSocket client is an instance.

    [base::TimeDelta] is a count of microseconds in [Z] and its product with a
    [double] (code of //base) is the parameter [td_mul]. *)

From stdpp Require Import base tactics list strings.
From Stdlib Require Import ZArith Lia String SpecFloat.
From S2P Require Import Prelude Values WireEnvelope WsClient Transport.
Open Scope string_scope.
Open Scope Z_scope.

(** ** The client the supervisor owns *)

(** Its calls on its observer ([SignalingClientObserver]). *)
Inductive notif :=
| NConnected
| NEnvelope (e : Envelope)
| NClosed (code : Z) (reason : string)
| NError (reason : string).

Definition is_end (n : notif) : bool :=
  match n with NClosed _ _ | NError _ => true | _ => false end.

Class InnerClient := {
  inner : Type;
  inner_event : Type;
  net_input : Type;
  inner_new : WsClientConfig → inner;
  inner_Connect : eff inner inner_event unit;
  inner_Send : Envelope → eff inner inner_event bool;
  inner_Disconnect : eff inner inner_event unit;
  (** callbacks of the network service *)
  inner_net : net_input → eff inner inner_event unit;
  inner_is_connected : inner → bool;
  inner_is_closing : inner → bool;
  notif_of : inner_event → option notif;
}.

Section notifs.
Context {IC : InnerClient}.

Definition notifs (evs : list inner_event) : list notif := omap notif_of evs.

(** The end of the channel is the last thing a call says. *)
Fixpoint ends_last (ns : list notif) : bool :=
  match ns with
  | [] => true
  | n :: ns' => if is_end n then (match ns' with [] => true | _ => false end) else ends_last ns'
  end.
End notifs.

(** What the supervisor relies on: no call of the client says anything after
    saying that the channel ended, and a new client is neither connected nor
    closing. *)
Class InnerLaws (IC : InnerClient) : Prop := {
  connect_ends_last s : ends_last (notifs (events inner_Connect s)) = true;
  send_ends_last e s : ends_last (notifs (events (inner_Send e) s)) = true;
  disconnect_ends_last s : ends_last (notifs (events inner_Disconnect s)) = true;
  net_ends_last i s : ends_last (notifs (events (inner_net i) s)) = true;
}.

(** ** Configuration *)

Definition Seconds (n : Z) : Z := n * 1000000.
Definition two_point_zero : spec_float := S754_finite false 4503599627370496 (-51).

Record ReconnectConfig := mkReconnectConfig {
  initial_backoff : Z;
  multiplier : spec_float;
  max_backoff : Z;
  max_attempts : Z;
  idle_timeout : Z;
}.

Definition default_config : ReconnectConfig :=
  mkReconnectConfig (Seconds 1) two_point_zero (Seconds 32) 10 (Seconds 90).

Definition kCloseCodeNormal : Z := 1000.

(** ** State *)

Inductive RState :=
| rIdle | rConnecting | rOpen | rBackingOff | rReconnecting | rGaveUp | rClosed.
#[export] Instance RState_eq_dec : EqDecision RState.
Proof. solve_decision. Defined.

Section supervisor.
Context {IC : InnerClient}.
Variable td_mul : Z → spec_float → Z.

Record rec := mkRec {
  ws_config : WsClientConfig;
  reconnect_config : ReconnectConfig;
  observer_set : bool;
  rstate : RState;
  disconnect_requested : bool;
  attempts_made : Z;
  current_backoff : Z;
  (** a running timer and its delay *)
  backoff_timer : option Z;
  idle_timer : option Z;
  inner_ : option inner;
}.
#[export] Instance eta_rec : Eta rec := λ s,
  mkRec (ws_config s) (reconnect_config s) (observer_set s) (rstate s)
    (disconnect_requested s) (attempts_made s) (current_backoff s) (backoff_timer s)
    (idle_timer s) (inner_ s).

Inductive rec_event :=
| ROnConnected
| ROnEnvelope (e : Envelope)
| ROnClosed (code : Z) (reason : string)
| ROnGaveUp (attempts : Z)
| StartBackoff (delay : Z)
| InnerEvent (ev : inner_event).

Abbreviation recM := (eff rec rec_event).

Definition CbSignalingReconnect (c : WsClientConfig) (rc : ReconnectConfig) : rec :=
  mkRec c rc true rIdle false 0 (initial_backoff rc) None None None.

Definition notify (ev : rec_event) : recM unit :=
  s ← eget; ewhen (observer_set s) (emit ev).

(** ** Operations *)

Definition NextBackoff (s : rec) : Z :=
  if max_backoff (reconnect_config s) <? current_backoff s
  then max_backoff (reconnect_config s) else current_backoff s.

Definition HandleChannelDead (why : string) : recM unit :=
  emod (λ s, s <| inner_ := None |>) ;;
  s ← eget;
  let rc := reconnect_config s in
  if (max_attempts rc =? 0) || (max_attempts rc <=? attempts_made s) then
    emod (λ s, s <| rstate := rGaveUp |>) ;;
    notify (ROnGaveUp (attempts_made s))
  else
    let delay := NextBackoff s in
    emod (λ s, s <| rstate := rBackingOff |>
                 <| current_backoff :=
                      Z.min (td_mul (current_backoff s) (multiplier rc)) (max_backoff rc) |>
                 <| backoff_timer := Some delay |>) ;;
    emit (StartBackoff delay).

Definition ArmIdleTimer : recM unit :=
  s ← eget;
  if idle_timeout (reconnect_config s) =? 0 then mret tt
  else emod (λ s, s <| idle_timer := Some (idle_timeout (reconnect_config s)) |>).

Definition OnConnected : recM unit :=
  emod (λ s, s <| rstate := rOpen |> <| attempts_made := 0 |>
               <| current_backoff := initial_backoff (reconnect_config s) |>) ;;
  ArmIdleTimer ;;
  notify ROnConnected.

Definition OnEnvelope (envelope : Envelope) : recM unit :=
  ArmIdleTimer ;; notify (ROnEnvelope envelope).

Definition OnClosed (code : Z) (reason : string) : recM unit :=
  emod (λ s, s <| idle_timer := None |>) ;;
  s ← eget;
  if bool_decide (rstate s = rClosed) || disconnect_requested s then
    emod (λ s, s <| rstate := rClosed |>) ;;
    notify (ROnClosed code reason)
  else HandleChannelDead reason.

Definition OnError (reason : string) : recM unit :=
  emod (λ s, s <| idle_timer := None |>) ;;
  HandleChannelDead reason.

Definition on_notif (n : notif) : recM unit :=
  match n with
  | NConnected => OnConnected
  | NEnvelope e => OnEnvelope e
  | NClosed code reason => OnClosed code reason
  | NError reason => OnError reason
  end.

Definition on_inner_event (ev : inner_event) : recM unit :=
  match notif_of ev with
  | Some n => on_notif n
  | None => emit (InnerEvent ev)
  end.

(** A call into the owned client: it runs, and its calls on its observer are
    handled in order. *)
Definition call_inner {A} (dflt : A) (m : eff inner inner_event A) : recM A :=
  s ← eget;
  match inner_ s with
  | None => mret dflt
  | Some i =>
      emod (λ s, s <| inner_ := Some (exec m i) |>) ;;
      eseq (on_inner_event <$> events m i) ;;
      mret (result m i)
  end.

Definition StartInnerDial : recM unit :=
  emod (λ s, s <| inner_ := Some (inner_new (ws_config s)) |>) ;;
  call_inner tt inner_Connect.

Definition Connect : recM unit :=
  s ← eget;
  if negb (bool_decide (rstate s = rIdle)) then mret tt
  else
    emod (λ s, s <| rstate := rConnecting |> <| attempts_made := 0 |>
                 <| current_backoff := initial_backoff (reconnect_config s) |>) ;;
    StartInnerDial.

Definition Send (envelope : Envelope) : recM bool :=
  s ← eget;
  if negb (bool_decide (rstate s = rOpen)) then mret false
  else call_inner false (inner_Send envelope).

Definition Disconnect : recM unit :=
  s ← eget;
  match rstate s with
  | rClosed | rGaveUp => mret tt
  | _ =>
      emod (λ s, s <| disconnect_requested := true |> <| backoff_timer := None |>
                   <| idle_timer := None |>) ;;
      if match inner_ s with
         | Some i => inner_is_connected i || inner_is_closing i
         | None => false
         end
      then call_inner tt inner_Disconnect
      else
        emod (λ s, s <| rstate := rClosed |>) ;;
        notify (ROnClosed kCloseCodeNormal "wrapper-disconnect-noop")
  end.

Definition is_connected (s : rec) : bool := bool_decide (rstate s = rOpen).
Definition is_reconnecting (s : rec) : bool :=
  bool_decide (rstate s = rBackingOff) || bool_decide (rstate s = rReconnecting).

(** [++attempts_made_] on a [uint32_t]. *)
Definition OnBackoffFired : recM unit :=
  s ← eget;
  if negb (bool_decide (rstate s = rBackingOff)) then mret tt
  else
    emod (λ s, s <| attempts_made := (attempts_made s + 1) mod 2 ^ 32 |>
                 <| rstate := rReconnecting |>) ;;
    StartInnerDial.

Definition OnIdleFired : recM unit :=
  s ← eget;
  if negb (bool_decide (rstate s = rOpen)) then mret tt
  else HandleChannelDead "idle-timeout".

Definition TearDown : recM unit :=
  emod (λ s, s <| backoff_timer := None |> <| idle_timer := None |> <| inner_ := None |>
               <| rstate := rClosed |>).

Definition destroy : recM unit :=
  emod (λ s, s <| observer_set := false |>) ;; TearDown.

(** ** The supervisor in its environment

    A one-shot timer that fires is no longer running when its task runs. *)
Inductive rec_input :=
| InConnect
| InSend (e : Envelope)
| InDisconnect
| InNet (i : net_input)
| InBackoff
| InIdle.

Definition rec_enabled (i : rec_input) (s : rec) : bool :=
  match i with
  | InNet _ => bool_decide (is_Some (inner_ s))
  | InBackoff => bool_decide (is_Some (backoff_timer s))
  | InIdle => bool_decide (is_Some (idle_timer s))
  | _ => true
  end.

Definition rec_handle (i : rec_input) : recM unit :=
  match i with
  | InConnect => Connect
  | InSend e => Send e ;; mret tt
  | InDisconnect => Disconnect
  | InNet i => call_inner tt (inner_net i)
  | InBackoff => emod (λ s, s <| backoff_timer := None |>) ;; OnBackoffFired
  | InIdle => emod (λ s, s <| idle_timer := None |>) ;; OnIdleFired
  end.
End supervisor.

Arguments CbSignalingReconnect {IC} _ _.

(** ** The backoff schedule (specification) *)

Section schedule.
Variable td_mul : Z → spec_float → Z.
Variable rc : ReconnectConfig.

(** The uncapped backoff before redial [k]: multiplied and capped each time. *)
Fixpoint backoff_seq (k : nat) : Z :=
  match k with
  | O => initial_backoff rc
  | S k' => Z.min (td_mul (backoff_seq k') (multiplier rc)) (max_backoff rc)
  end.

Definition redial_delay (k : Z) : Z := Z.min (backoff_seq (Z.to_nat k)) (max_backoff rc).

Lemma backoff_seq_succ k :
  0 ≤ k →
  backoff_seq (Z.to_nat (k + 1)) =
    Z.min (td_mul (backoff_seq (Z.to_nat k)) (multiplier rc)) (max_backoff rc).
Proof. intros Hk. by replace (Z.to_nat (k + 1)) with (S (Z.to_nat k)) by lia. Qed.
End schedule.

Lemma capped_min a m : (if m <? a then m else a) = Z.min a m.
Proof. destruct (Z.ltb_spec m a); lia. Qed.

(** ** Invariant *)

Section invariant.
Context {IC : InnerClient} {IL : InnerLaws IC}.
Variable td_mul : Z → spec_float → Z.
Variable rc : ReconnectConfig.
Hypothesis max_u32 : 0 ≤ max_attempts rc < 2 ^ 32.

Abbreviation seq k := (backoff_seq td_mul rc (Z.to_nat k)).

(** The states in which the supervisor works with a live client. *)
Definition dialing (st : RState) : bool :=
  match st with rConnecting | rOpen | rReconnecting => true | _ => false end.

(** Which parts of the state may coexist, and where in the schedule it is. *)
Record rec_inv (s : rec) : Prop := {
  inv_rc : reconnect_config s = rc;
  inv_observer : observer_set s = true;
  inv_attempts : 0 ≤ attempts_made s ≤ max_attempts rc;
  inv_open : rstate s = rOpen → attempts_made s = 0;
  inv_closed : rstate s = rClosed → disconnect_requested s = true;
  inv_live : inner_ s ≠ None →
    (dialing (rstate s) = true ∨ rstate s = rClosed) ∧
    current_backoff s = seq (attempts_made s);
  inv_dialing : dialing (rstate s) = true → inner_ s ≠ None;
  inv_backoff : rstate s = rBackingOff →
    attempts_made s < max_attempts rc ∧
    current_backoff s = seq (attempts_made s + 1) ∧
    backoff_timer s = Some (redial_delay td_mul rc (attempts_made s));
  inv_timer : backoff_timer s ≠ None → rstate s = rBackingOff;
}.

Ltac inv_split H :=
  destruct H as [Hrc Hob Hat Hop Hcl Hli Hdi Hbo Hti]; simpl in *.
Ltac inv_done := constructor; simpl; try done; try lia; try (intuition congruence).

Lemma NextBackoff_delay s :
  rec_inv s → inner_ s ≠ None →
  NextBackoff s = redial_delay td_mul rc (attempts_made s).
Proof.
  intros Hi Hs. inv_split Hi. destruct (Hli Hs) as [_ Hc].
  unfold NextBackoff, redial_delay. by rewrite Hrc, Hc, capped_min.
Qed.

Lemma live_no_timer s : rec_inv s → inner_ s ≠ None → backoff_timer s = None.
Proof.
  intros Hi Hs. inv_split Hi. destruct (backoff_timer s) eqn:E; [|done].
  rewrite Hti in Hli by done. by destruct (Hli Hs) as [[|] _].
Qed.

(** The two outcomes of a dead channel. *)
Lemma HandleChannelDead_inv why s :
  rec_inv s → inner_ s ≠ None → rec_inv (exec (HandleChannelDead td_mul why) s).
Proof.
  intros Hi Hs. pose proof (NextBackoff_delay s Hi Hs) as Hn.
  pose proof (live_no_timer s Hi Hs) as Ht. inv_split Hi. destruct (Hli Hs) as [_ Hc].
  unfold HandleChannelDead, notify. run_eff. unfold NextBackoff in *. simpl.
  rewrite Hrc in Hn |- *. destruct (_ || _) eqn:Hmax; simpl; [rewrite Hob; simpl; inv_done|].
  apply orb_false_iff in Hmax as [H0 Hlt].
  inv_done. intros _. rewrite Hn, backoff_seq_succ, Hc by lia. split_and!; [lia | done..].
Qed.

Lemma OnConnected_inv s :
  rec_inv s → inner_ s ≠ None → rec_inv (exec OnConnected s) ∧ inner_ (exec OnConnected s) ≠ None.
Proof.
  intros Hi Hs. pose proof (live_no_timer s Hi Hs) as Ht. inv_split Hi.
  unfold OnConnected, ArmIdleTimer, notify. run_eff.
  destruct (_ =? 0); simpl; rewrite ?Hob; simpl; (split; [|done]); inv_done;
    rewrite Hrc; auto.
Qed.

Lemma OnEnvelope_inv e s :
  rec_inv s → inner_ s ≠ None →
  rec_inv (exec (OnEnvelope e) s) ∧ inner_ (exec (OnEnvelope e) s) ≠ None.
Proof.
  intros Hi Hs. inv_split Hi. unfold OnEnvelope, ArmIdleTimer, notify. run_eff.
  destruct (_ =? 0); simpl; rewrite ?Hob; simpl; (split; [|done]); inv_done.
Qed.

Lemma end_inv n s :
  is_end n = true → rec_inv s → inner_ s ≠ None → rec_inv (exec (on_notif td_mul n) s).
Proof.
  intros Hn Hi Hs. set (s0 := s <| idle_timer := None |>).
  assert (rec_inv s0 ∧ inner_ s0 ≠ None) as [Hi0 Hs0] by (inv_split Hi; split; [inv_done | done]).
  destruct n as [| |code r|r]; try done; cbn [on_notif].
  - unfold OnClosed. rewrite exec_bind, exec_bind. change (exec _ s) with s0 at 2.
    change (result eget ?x) with x. change (exec eget ?x) with x.
    destruct (_ || _) eqn:Hc; [|by apply HandleChannelDead_inv].
    rewrite exec_bind. pose proof (live_no_timer s0 Hi0 Hs0) as Ht. inv_split Hi0.
    unfold notify. run_eff. rewrite Hob. simpl.
    apply orb_true_iff in Hc as [Hc%bool_decide_eq_true|Hc]; simpl in Hc; inv_done.
  - unfold OnError. rewrite exec_bind. by apply HandleChannelDead_inv.
Qed.

Lemma notifs_cons ev evs :
  notifs (ev :: evs) =
    match notif_of ev with Some n => n :: notifs evs | None => notifs evs end.
Proof. done. Qed.

(** Events of the client that are not for the supervisor change nothing. *)
Lemma on_outputs evs s :
  notifs evs = [] → exec (eseq (on_inner_event td_mul <$> evs)) s = s.
Proof.
  induction evs as [|ev evs IH]; [done|]. unfold notifs. simpl.
  destruct (notif_of ev) as [n|] eqn:Hn; [done|]. intros He.
  rewrite exec_bind. assert (exec (on_inner_event td_mul ev) s = s) as ->; [|by apply IH].
  unfold on_inner_event. by rewrite Hn.
Qed.

Lemma on_events_inv evs s :
  ends_last (notifs evs) = true → rec_inv s → inner_ s ≠ None →
  rec_inv (exec (eseq (on_inner_event td_mul <$> evs)) s).
Proof.
  revert s. induction evs as [|ev evs IH]; intros s He Hi Hs; [done|].
  rewrite fmap_cons. cbn [eseq]. rewrite exec_bind.
  rewrite notifs_cons in He. unfold on_inner_event at 2.
  destruct (notif_of ev) as [n|]; [|by apply IH].
  destruct (is_end n) eqn:Hn; simpl in He; rewrite Hn in He.
  - rewrite on_outputs; [by apply end_inv|]. by destruct (notifs evs).
  - destruct n as [|e| |]; try done; cbn [on_notif].
    + destruct (OnConnected_inv s Hi Hs). by apply IH.
    + destruct (OnEnvelope_inv e s Hi Hs). by apply IH.
Qed.

Lemma call_inner_inv {A} (d : A) m s :
  (∀ i, ends_last (notifs (events m i)) = true) →
  rec_inv s → rec_inv (exec (call_inner td_mul d m) s).
Proof.
  intros Hm Hi. unfold call_inner. rewrite exec_bind. change (result eget s) with s.
  change (exec eget s) with s. destruct (inner_ s) as [i|] eqn:Hin; [|done].
  rewrite exec_bind, exec_bind. apply on_events_inv; [apply Hm | | done].
  inv_split Hi. rewrite Hin in *. unfold exec, emod. inv_done.
Qed.

Lemma StartInnerDial_inv s :
  rec_inv (s <| inner_ := Some (inner_new (ws_config s)) |>) →
  rec_inv (exec (StartInnerDial td_mul) s).
Proof.
  intros Hi. unfold StartInnerDial. rewrite exec_bind.
  apply call_inner_inv; [apply connect_ends_last | exact Hi].
Qed.

Lemma Connect_inv s : rec_inv s → rec_inv (exec (Connect td_mul) s).
Proof.
  intros Hi. unfold Connect. rewrite exec_bind. change (result eget s) with s.
  change (exec eget s) with s. destruct (bool_decide _) eqn:Hb; [|done]. simpl.
  apply bool_decide_eq_true in Hb. rewrite exec_bind. apply StartInnerDial_inv.
  inv_split Hi. inv_done.
Qed.

Lemma Disconnect_inv s : rec_inv s → rec_inv (exec (Disconnect td_mul) s).
Proof.
  intros Hi. unfold Disconnect. rewrite exec_bind. change (result eget s) with s.
  change (exec eget s) with s.
  destruct (rstate s) eqn:Hst; try done; rewrite exec_bind.
  all: case_match; [apply call_inner_inv; [apply disconnect_ends_last|] |].
  all: inv_split Hi; rewrite Hst in *; unfold notify; run_eff; rewrite ?Hob;
    destruct (inner_ s) as [i|] eqn:Hin; [destruct (Hli ltac:(done)) as [[?|?] ?]|]; try done;
    inv_done; rewrite ?Hst, ?Hin; auto.
Qed.

Lemma OnBackoffFired_inv s :
  rec_inv s → backoff_timer s ≠ None →
  rec_inv (exec (OnBackoffFired td_mul) (s <| backoff_timer := None |>)).
Proof.
  intros Hi Ht. unfold OnBackoffFired. rewrite exec_bind. 
  change (result eget ?x) with x. change (exec eget ?x) with x. simpl rstate.
  inv_split Hi. pose proof (Hti Ht) as Hst. destruct (Hbo Hst) as (Hlt & Hcur & _).
  rewrite bool_decide_true by done. simpl. rewrite exec_bind. apply StartInnerDial_inv.
  assert ((attempts_made s + 1) mod 2 ^ 32 = attempts_made s + 1) as Hm
    by (apply Z.mod_small; lia).
  inv_done; rewrite ?Hm; auto; lia.
Qed.

Lemma OnIdleFired_inv s :
  rec_inv s → rec_inv (exec (OnIdleFired td_mul) (s <| idle_timer := None |>)).
Proof.
  intros Hi. assert (rec_inv (s <| idle_timer := None |>)) as Hi0 by (inv_split Hi; inv_done).
  unfold OnIdleFired. rewrite exec_bind.
  change (result eget ?x) with x. change (exec eget ?x) with x.
  destruct (bool_decide _) eqn:Hb; [|done]. apply bool_decide_eq_true in Hb.
  apply HandleChannelDead_inv; [done|]. apply (inv_dialing _ Hi0). by rewrite Hb.
Qed.

Lemma rec_handle_inv i s :
  rec_inv s → rec_enabled i s = true → rec_inv (exec (rec_handle td_mul i) s).
Proof.
  intros Hi He. destruct i; cbn [rec_handle rec_enabled] in *.
  - by apply Connect_inv.
  - rewrite exec_bind. unfold Send. rewrite exec_bind.
    change (result eget s) with s. change (exec eget s) with s.
    case_match; [done|]. apply call_inner_inv; [apply send_ends_last | done].
  - by apply Disconnect_inv.
  - apply call_inner_inv; [apply net_ends_last | done].
  - rewrite exec_bind. apply OnBackoffFired_inv; [done|].
    apply bool_decide_eq_true in He as [d Hd]. by rewrite Hd.
  - rewrite exec_bind. by apply OnIdleFired_inv.
Qed.

Lemma rec_init_inv c : rec_inv (CbSignalingReconnect c rc).
Proof. inv_done. Qed.

Lemma rec_reachable_inv c s tr :
  reachable rec_enabled (rec_handle td_mul) (CbSignalingReconnect c rc) s tr → rec_inv s.
Proof. apply reachable_inv; [apply rec_init_inv | intros; by apply rec_handle_inv]. Qed.
End invariant.

(** ** What the consumer hears *)

Section traces.
Context {IC : InnerClient}.
Variable td_mul : Z → spec_float → Z.

(** The supervisor's own events, without the client's outputs. *)
Definition sup_events (evs : list rec_event) : list rec_event :=
  omap (λ ev, match ev with InnerEvent _ => None | _ => Some ev end) evs.

Lemma sup_events_app a b : sup_events (a ++ b) = (sup_events a ++ sup_events b)%list.
Proof. apply omap_app. Qed.

(** Only the notifications of the client matter to the supervisor. *)
Lemma on_events_notifs evs s :
  exec (eseq (on_inner_event td_mul <$> evs)) s = exec (eseq (on_notif td_mul <$> notifs evs)) s ∧
  sup_events (events (eseq (on_inner_event td_mul <$> evs)) s) =
    sup_events (events (eseq (on_notif td_mul <$> notifs evs)) s).
Proof.
  revert s. induction evs as [|ev evs IH]; intros s; [done|].
  rewrite notifs_cons. destruct (notif_of ev) as [n|] eqn:Hn;
    rewrite ?fmap_cons; cbn [eseq]; rewrite ?exec_bind, ?events_bind, ?sup_events_app.
  - replace (on_inner_event td_mul ev) with (on_notif td_mul n)
      by (unfold on_inner_event; by rewrite Hn).
    by destruct (IH (exec (on_notif td_mul n) s)) as [-> ->].
  - replace (on_inner_event td_mul ev) with (emit (S := rec) (InnerEvent ev))
      by (unfold on_inner_event; by rewrite Hn).
    apply IH.
Qed.

Lemma call_inner_notifs {A} (d : A) m i s :
  inner_ s = Some i →
  exec (call_inner td_mul d m) s =
    exec (eseq (on_notif td_mul <$> notifs (events m i))) (s <| inner_ := Some (exec m i) |>) ∧
  sup_events (events (call_inner td_mul d m) s) =
    sup_events (events (eseq (on_notif td_mul <$> notifs (events m i)))
      (s <| inner_ := Some (exec m i) |>)).
Proof.
  intros Hi. unfold call_inner. rewrite exec_bind, events_bind.
  change (result eget s) with s. change (exec eget s) with s. change (events eget s) with (@nil rec_event).
  rewrite Hi. rewrite exec_bind, events_bind, exec_bind, events_bind.
  change (events (emod ?g) s) with (@nil rec_event). simpl app.
  change (exec (emod ?g) s) with (g s). cbv beta.
  destruct (on_events_notifs (events m i) (s <| inner_ := Some (exec m i) |>)) as [-> <-].
  split; [done|]. by rewrite sup_events_app, app_nil_r.
Qed.

(** A close is reported only once the consumer asked for it. *)
Definition is_closed_event (ev : rec_event) : bool :=
  match ev with ROnClosed _ _ => true | _ => false end.

Definition close_honest {A} (m : eff rec rec_event A) : Prop := ∀ s,
  (rstate s = rClosed → disconnect_requested s = true) →
  (rstate (exec m s) = rClosed → disconnect_requested (exec m s) = true) ∧
  (disconnect_requested (exec m s) = false →
     disconnect_requested s = false ∧ existsb is_closed_event (events m s) = false).

Lemma close_honest_bind {A B} (m : eff rec rec_event A) (f : A → eff rec rec_event B) :
  close_honest m → (∀ a, close_honest (f a)) → close_honest (m ≫= f).
Proof.
  intros Hm Hf s Hs. rewrite exec_bind, events_bind, existsb_app.
  destruct (Hm s Hs) as [H1 H2]. destruct (Hf (result m s) _ H1) as [H3 H4].
  split; [done|]. intros Hd. destruct (H4 Hd) as [Hd1 ->]. by destruct (H2 Hd1) as [? ->].
Qed.

Ltac honest_run :=
  let s := fresh "s" in let Hs := fresh "Hs" in
  intros s Hs; run_eff; repeat (case_inner; simplify_eq/=; run_eff);
  repeat match goal with H : bool_decide _ = true |- _ => apply bool_decide_eq_true in H end;
  try (intuition congruence).

Lemma close_honest_notif n : close_honest (on_notif td_mul n).
Proof.
  destruct n; cbn [on_notif];
    unfold OnConnected, OnEnvelope, OnClosed, OnError, HandleChannelDead, ArmIdleTimer, notify;
    honest_run.
  all: rewrite ?orb_false_iff, ?orb_true_iff, ?bool_decide_eq_true in *; intuition congruence.
Qed.

Lemma close_honest_inner_event ev : close_honest (on_inner_event td_mul ev).
Proof. unfold on_inner_event. case_match; [apply close_honest_notif | honest_run]. Qed.

Lemma close_honest_seq evs : close_honest (eseq (on_inner_event td_mul <$> evs)).
Proof.
  induction evs as [|ev evs IH]; [honest_run|].
  rewrite fmap_cons. cbn [eseq]. auto using close_honest_bind, close_honest_inner_event.
Qed.

Lemma close_honest_call {A} (d : A) m : close_honest (call_inner td_mul d m).
Proof.
  apply close_honest_bind; [honest_run|]. intros s. case_match; [|honest_run].
  apply close_honest_bind; [honest_run|]. intros _.
  apply close_honest_bind; [apply close_honest_seq|]. intros _. honest_run.
Qed.

Lemma close_honest_dial : close_honest (StartInnerDial td_mul).
Proof. apply close_honest_bind; [honest_run|]. intros _. apply close_honest_call. Qed.

Lemma close_honest_disconnect : close_honest (Disconnect td_mul).
Proof.
  apply close_honest_bind; [honest_run|]. intros s.
  destruct (rstate s); try solve [honest_run]; case_match.
  all: try (apply close_honest_bind; [honest_run|]; intros _; apply close_honest_call).
  all: unfold notify; honest_run.
Qed.

Lemma close_honest_handle i : close_honest (rec_handle td_mul i).
Proof.
  destruct i; cbn [rec_handle].
  - apply close_honest_bind; [honest_run|]. intros s. case_match; [honest_run|].
    apply close_honest_bind; [honest_run|]. intros _. apply close_honest_dial.
  - apply close_honest_bind; [|intros _; honest_run].
    apply close_honest_bind; [honest_run|]. intros s. case_match; [honest_run|].
    apply close_honest_call.
  - apply close_honest_disconnect.
  - apply close_honest_call.
  - apply close_honest_bind; [honest_run|]. intros _.
    apply close_honest_bind; [honest_run|]. intros s. case_match; [honest_run|].
    apply close_honest_bind; [honest_run|]. intros _. apply close_honest_dial.
  - apply close_honest_bind; [honest_run|]. intros _.
    unfold OnIdleFired, HandleChannelDead, notify. honest_run.
Qed.
End traces.

(** ** An outage *)

Section outage.
Context {IC : InnerClient}.
Variable td_mul : Z → spec_float → Z.
Variable rc : ReconnectConfig.
Variable c : WsClientConfig.
Variable refused : net_input.
Variable why : string.
Hypothesis max_u32 : 0 < max_attempts rc < 2 ^ 32.

(** A dial of the client, and the network refusing it. *)
Abbreviation dialed := (exec inner_Connect (inner_new c)).
Hypothesis dial_silent : notifs (events inner_Connect (inner_new c)) = [].
Hypothesis dial_refused : notifs (events (inner_net refused) dialed) = [NError why].

(** [n] refused dials, each followed by the backoff, and a last refused one. *)
Definition outage (n : nat) : list rec_input :=
  (mjoin (replicate n [InNet refused; InBackoff]) ++ [InNet refused])%list.

(** Dialing for the [k]-th time. *)
Record dial_state (k : Z) (s : rec) : Prop := {
  ds_rc : reconnect_config s = rc;
  ds_c : ws_config s = c;
  ds_obs : observer_set s = true;
  ds_attempts : attempts_made s = k;
  ds_cur : current_backoff s = backoff_seq td_mul rc (Z.to_nat k);
  ds_inner : inner_ s = Some dialed;
}.

Lemma dial_run s :
  observer_set s = true → reconnect_config s = rc → ws_config s = c →
  current_backoff s = backoff_seq td_mul rc (Z.to_nat (attempts_made s)) →
  dial_state (attempts_made s) (exec (StartInnerDial td_mul) s) ∧
  sup_events (events (StartInnerDial td_mul) s) = [].
Proof.
  intros Ho Hrc Hc Hcur. unfold StartInnerDial. rewrite exec_bind, events_bind.
  rewrite sup_events_app. change (exec (emod ?g) s) with (g s). cbv beta.
  edestruct (call_inner_notifs td_mul tt inner_Connect) as [-> ->]; [done|].
  rewrite Hc, dial_silent. split; [by constructor | done].
Qed.

Lemma connect_run :
  dial_state 0 (exec (run (rec_handle td_mul) [InConnect]) (CbSignalingReconnect c rc)) ∧
  sup_events (events (run (rec_handle td_mul) [InConnect]) (CbSignalingReconnect c rc)) = [].
Proof.
  set (s0 := CbSignalingReconnect c rc).
  assert (run (rec_handle td_mul) [InConnect] s0 =
    StartInnerDial td_mul (s0 <| rstate := rConnecting |>)) as Hr.
  { rewrite run_one. cbn [rec_handle]. unfold Connect. rewrite get_run.
    exact (mod_run _ (λ _, StartInnerDial td_mul) s0). }
  unfold exec, events. rewrite Hr.
  exact (dial_run (s0 <| rstate := rConnecting |>) eq_refl eq_refl eq_refl eq_refl).
Qed.

(** A refused dial with attempts left arms the backoff timer; its fire redials. *)
Lemma redial_step k s :
  0 ≤ k < max_attempts rc → dial_state k s →
  let m := run (rec_handle td_mul) [InNet refused; InBackoff] in
  dial_state (k + 1) (exec m s) ∧
  sup_events (events m s) = [StartBackoff (redial_delay td_mul rc k)].
Proof.
  intros Hk [Hrc Hc Hob Ha Hcur Hin]. cbv zeta. unfold run.
  rewrite !fmap_cons, fmap_nil. cbn [eseq rec_handle].
  rewrite exec_bind, events_bind, sup_events_app.
  destruct (call_inner_notifs td_mul tt (inner_net refused) dialed s Hin) as [-> ->].
  rewrite dial_refused, fmap_cons, fmap_nil. cbn [eseq on_notif].
  set (s0 := s <| inner_ := _ |>).
  assert (exec (OnError td_mul why ;; mret tt) s0 =
      s <| inner_ := None |> <| idle_timer := None |> <| rstate := rBackingOff |>
        <| current_backoff := backoff_seq td_mul rc (Z.to_nat (k + 1)) |>
        <| backoff_timer := Some (redial_delay td_mul rc k) |> ∧
    events (OnError td_mul why ;; mret tt) s0 = [StartBackoff (redial_delay td_mul rc k)])
    as [-> ->].
  { unfold OnError, HandleChannelDead, NextBackoff, s0. run_eff. rewrite Hrc, Ha, Hcur.
    destruct (Z.eqb_spec (max_attempts rc) 0), (Z.leb_spec (max_attempts rc) k); try lia. simpl.
    by rewrite backoff_seq_succ, capped_min, Hcur by lia. }
  rewrite !exec_bind, !events_bind.
  change (exec (emod ?g) ?x) with (g x). cbv beta. unfold OnBackoffFired.
  rewrite exec_bind, events_bind. change (result eget ?x) with x. change (exec eget ?x) with x.
  simpl rstate. rewrite bool_decide_true by done. cbn [negb].
  rewrite exec_bind, events_bind. change (exec (emod ?g) ?x) with (g x). cbv beta.
  set (s1 := _ <| rstate := rReconnecting |>).
  assert (attempts_made s1 = k + 1) as Ha1 by (simpl; rewrite Ha; apply Z.mod_small; lia).
  destruct (dial_run s1) as [Hd He]; [done | done | done | by rewrite Ha1 |].
  rewrite Ha1 in Hd. split; [exact Hd|].
  rewrite !sup_events_app. by rewrite He.
Qed.

(** The last refusal gives up. *)
Lemma give_up_step s :
  dial_state (max_attempts rc) s →
  rstate (exec (run (rec_handle td_mul) [InNet refused]) s) = rGaveUp ∧
  sup_events (events (run (rec_handle td_mul) [InNet refused]) s) =
    [ROnGaveUp (max_attempts rc)].
Proof.
  intros [Hrc Hc Hob Ha Hcur Hin]. unfold run. rewrite fmap_cons, fmap_nil. cbn [eseq rec_handle].
  rewrite exec_bind, events_bind, sup_events_app.
  destruct (call_inner_notifs td_mul tt (inner_net refused) dialed s Hin) as [-> ->].
  rewrite dial_refused, fmap_cons, fmap_nil. cbn [eseq on_notif].
  unfold OnError, HandleChannelDead, notify. run_eff. rewrite Hrc, Ha, Z.leb_refl, orb_true_r.
  simpl. by rewrite Hob.
Qed.

Lemma outage_run n k s :
  0 ≤ k → k + Z.of_nat n = max_attempts rc → dial_state k s →
  rstate (exec (run (rec_handle td_mul) (outage n)) s) = rGaveUp ∧
  sup_events (events (run (rec_handle td_mul) (outage n)) s) =
    (((λ j, StartBackoff (redial_delay td_mul rc (k + Z.of_nat j))) <$> seq 0 n) ++
     [ROnGaveUp (max_attempts rc)])%list.
Proof.
  revert k s. induction n as [|n IH]; intros k s Hk Hn Hd.
  { apply give_up_step. by replace (max_attempts rc) with k by lia. }
  change (outage (S n)) with ([InNet refused; InBackoff] ++ outage n)%list.
  destruct (run_app (rec_handle td_mul) [InNet refused; InBackoff] (outage n) s)
    as [-> ->].
  destruct (redial_step k s) as [Hd' He]; [lia | done |].
  destruct (IH (k + 1) _ ltac:(lia) ltac:(lia) Hd') as [-> HE].
  split; [done|]. rewrite sup_events_app, He, HE. cbn [seq fmap list_fmap app].
  rewrite Z.add_0_r, <-fmap_S_seq, <-list_fmap_compose. f_equal. f_equal.
  apply list_fmap_ext. intros _ j _. simpl. do 2 f_equal. lia.
Qed.
End outage.

(** ** The WebSocket client as the owned client *)

Definition ws_notif (ev : ws_event) : option notif :=
  match ev with
  | WsClient.OnConnected => Some NConnected
  | WsClient.OnEnvelope e => Some (NEnvelope e)
  | WsClient.OnClosed code r => Some (NClosed code r)
  | WsClient.OnError r => Some (NError r)
  | _ => None
  end.

Section ws_instance.
Context {J : JsonCodec}.
Variable url_valid : string → bool.
Variable consumer_calls : Envelope → list ws_api.

(** A callback of the network service, as opposed to a call by the owner. *)
Definition ws_net (i : ws_input) : eff ws ws_event unit :=
  match i with
  | WsClient.InConnect | InApi _ => mret tt
  | _ => ws_handle url_valid consumer_calls i
  end.

Definition ws_inner : InnerClient := {|
  inner := ws; inner_event := ws_event; net_input := ws_input;
  inner_new := SignalingWsClient;
  inner_Connect := WsClient.Connect url_valid;
  inner_Send := WsClient.Send;
  inner_Disconnect := WsClient.Disconnect;
  inner_net := ws_net;
  inner_is_connected := WsClient.is_connected;
  inner_is_closing := WsClient.is_closing;
  notif_of := ws_notif;
|}.

Lemma mute_no_notifs evs :
  forallb (λ e, negb (to_observer e)) evs = true → omap ws_notif evs = [].
Proof.
  induction evs as [|ev evs IH]; [done|]. simpl. intros [Hn He]%andb_true_iff.
  destruct ev; simpl in *; auto; done.
Qed.

Lemma silent_ends_last evs :
  silent_after_end evs = true → ends_last (omap ws_notif evs) = true.
Proof.
  induction evs as [|ev evs IH]; [done|]. simpl. intros H.
  destruct ev; simpl in *; auto; by rewrite mute_no_notifs.
Qed.

#[local] Hint Resolve announces_ret announces_send announces_handle announces_api : ws.

#[export] Instance ws_inner_laws : InnerLaws ws_inner.
Proof.
  constructor; intros; apply silent_ends_last.
  - apply (announces_handle url_valid consumer_calls WsClient.InConnect).
  - apply announces_send.
  - apply (announces_api ApiDisconnect).
  - destruct i; try apply (announces_handle url_valid consumer_calls); apply announces_ret.
Qed.
End ws_instance.

(** ** The supervisor as a transport *)

Section as_transport.
Context {J : JsonCodec} {IC : InnerClient} `{!SignalingTransport inner inner_event}.
Variable td_mul : Z → spec_float → Z.

Definition rec_transport : SignalingTransport rec rec_event := {|
  transport_Send := Send td_mul;
  frame_of ev := match ev with InnerEvent ie => frame_of ie | _ => None end;
|}.
#[local] Existing Instance rec_transport.

Hypothesis send_is : ∀ e, inner_Send e = transport_Send e.
Hypothesis frames_not_notifs : ∀ ev p, frame_of ev = Some p → notif_of ev = None.

(** The supervisor's own handlers write no frame. *)
Lemma on_notif_frames n s : frames_of (events (on_notif td_mul n) s) = [].
Proof.
  unfold frames_of. destruct n; cbn [on_notif];
    unfold OnConnected, OnEnvelope, OnClosed, OnError, HandleChannelDead, ArmIdleTimer, notify;
    run_cases.
Qed.

Lemma on_events_frames evs s :
  frames_of (events (eseq (on_inner_event td_mul <$> evs)) s) = frames_of evs.
Proof.
  revert s. induction evs as [|ev evs IH]; intros s; [done|].
  rewrite fmap_cons. cbn [eseq]. rewrite events_bind. unfold frames_of in *.
  rewrite omap_app, IH. unfold on_inner_event. destruct (notif_of ev) as [n|] eqn:Hn.
  - pose proof (on_notif_frames n s) as Hf. unfold frames_of in Hf. rewrite Hf.
    simpl. destruct (frame_of ev) eqn:He; [|done].
    by rewrite (frames_not_notifs _ _ He) in Hn.
  - simpl. by destruct (frame_of ev).
Qed.

Lemma rec_contract : TransportContract inner inner_event → TransportContract rec rec_event.
Proof.
  intros [HC]. constructor. intros env s. cbn [transport_Send rec_transport].
  unfold Send. rewrite result_bind, events_bind.
  change (result eget s) with s. change (exec eget s) with s. change (events eget s) with (@nil rec_event).
  destruct (negb _); [done|]. unfold call_inner. rewrite result_bind, events_bind.
  change (result eget s) with s. change (exec eget s) with s. change (events eget s) with (@nil rec_event).
  destruct (inner_ s) as [i|]; [|done].
  rewrite result_bind, result_bind, events_bind, events_bind. rewrite send_is.
  specialize (HC env i). simpl app. rewrite app_nil_r, on_events_frames. exact HC.
Qed.
End as_transport.

(** [Disconnect] with a connected client waits for it. *)
Lemma disconnect_live_run {IC : InnerClient} td_mul s i :
  rstate s ≠ rClosed → rstate s ≠ rGaveUp → inner_ s = Some i →
  inner_is_connected i || inner_is_closing i = true →
  notifs (events inner_Disconnect i) = [] →
  exec (Disconnect td_mul) s =
    s <| disconnect_requested := true |> <| backoff_timer := None |> <| idle_timer := None |>
      <| inner_ := Some (exec inner_Disconnect i) |> ∧
  sup_events (events (Disconnect td_mul) s) = [].
Proof.
  intros H1 H2 Hi Hl Hn. set (s0 := s <| disconnect_requested := true |>
    <| backoff_timer := None |> <| idle_timer := None |>).
  assert (Disconnect td_mul s = call_inner td_mul tt inner_Disconnect s0) as Hr.
  { unfold Disconnect. rewrite get_run, Hi, Hl.
    destruct (rstate s); try done;
      exact (mod_run _ (λ _, call_inner td_mul tt inner_Disconnect) s). }
  destruct (call_inner_notifs td_mul tt inner_Disconnect i s0 Hi) as [H3 H4].
  rewrite Hn in H3, H4. unfold exec, events in *. by rewrite Hr, H3, H4.
Qed.

(** ** Properties *)

Section rec_properties.
Context {IC : InnerClient} {IL : InnerLaws IC}.
Variable td_mul : Z → spec_float → Z.

(** Along every execution the supervisor's parts stay coherent: at most
    the configured attempts are counted, a pending backoff timer means it is
    backing off and it then has no client, a client exists whenever it is
    dialing or open, and an open channel has its whole budget of attempts. *)
Theorem reconnect_coherent (rc : ReconnectConfig) (c : WsClientConfig) (s : rec)
    (tr : list rec_event) :
  0 ≤ max_attempts rc < 2 ^ 32 →
  reachable rec_enabled (rec_handle td_mul) (CbSignalingReconnect c rc) s tr →
  0 ≤ attempts_made s ≤ max_attempts rc ∧
  (is_Some (backoff_timer s) ↔ rstate s = rBackingOff) ∧
  (rstate s = rBackingOff → inner_ s = None) ∧
  (rstate s ∈ [rConnecting; rOpen; rReconnecting] → is_Some (inner_ s)) ∧
  (rstate s = rOpen → attempts_made s = 0).
Proof.
  intros Hm Hr. pose proof (rec_reachable_inv td_mul rc Hm c s tr Hr) as
    [Hrc Hob Hat Hop Hcl Hli Hdi Hbo Hti]. split_and!; try done; try lia.
  - split; [intros [d Hd]; apply Hti; by rewrite Hd|].
    intros Hb. destruct (Hbo Hb) as (_ & _ & ->). eauto.
  - intros Hb. destruct (inner_ s) eqn:Hi; [|done]. rewrite Hb in Hli.
    by destruct (Hli ltac:(done)) as [[] _].
  - intros Hd. apply not_eq_None_Some, Hdi.
    by repeat (apply elem_of_cons in Hd as [->|Hd]; [done|]); apply not_elem_of_nil in Hd.
Qed.

(** The delay of every scheduled redial is the one of the schedule: the
    initial backoff multiplied once per attempt already made since the last
    connection, capped at the maximum. *)
Theorem reconnect_follows_schedule (rc : ReconnectConfig) (c : WsClientConfig) (s : rec)
    (tr : list rec_event) :
  0 ≤ max_attempts rc < 2 ^ 32 →
  reachable rec_enabled (rec_handle td_mul) (CbSignalingReconnect c rc) s tr →
  rstate s = rBackingOff →
  attempts_made s < max_attempts rc ∧
  backoff_timer s = Some (redial_delay td_mul rc (attempts_made s)).
Proof.
  intros Hm Hr Hb. destruct (inv_backoff td_mul rc s) as (H1 & _ & H3); auto.
  exact (rec_reachable_inv td_mul rc Hm c s tr Hr).
Qed.

(** C4. A broker that stays away is given up after exactly the configured
    number of redials: when every dial is refused the supervisor schedules the
    redials of the schedule, one per attempt, tells the consumer once that it
    gave up, and nothing else. *)
Theorem reconnect_gives_up (rc : ReconnectConfig) (c : WsClientConfig)
    (refused : net_input) (why : string) :
  0 < max_attempts rc < 2 ^ 32 →
  notifs (events inner_Connect (inner_new c)) = [] →
  notifs (events (inner_net refused) (exec inner_Connect (inner_new c))) = [NError why] →
  let n := Z.to_nat (max_attempts rc) in
  let m := run (rec_handle td_mul) (InConnect :: outage refused n) in
  rstate (exec m (CbSignalingReconnect c rc)) = rGaveUp ∧
  sup_events (events m (CbSignalingReconnect c rc)) =
    (((λ j, StartBackoff (redial_delay td_mul rc (Z.of_nat j))) <$> seq 0 n) ++
     [ROnGaveUp (max_attempts rc)])%list.
Proof.
  intros Hm Hsil Href. cbv zeta. set (n := Z.to_nat (max_attempts rc)).
  destruct (run_app (rec_handle td_mul) [InConnect] (outage refused n)
    (CbSignalingReconnect c rc)) as [He Hv]. simpl app in He, Hv. rewrite He, Hv.
  destruct (connect_run td_mul rc c Hsil) as [Hd Hs].
  destruct (outage_run td_mul rc c refused why Hm Hsil Href n 0 _
    ltac:(lia) ltac:(lia) Hd) as [-> H2].
  split; [done|]. by rewrite sup_events_app, Hs, H2.
Qed.

(** A close the consumer did not ask for is never reported to it, whatever
    its code: until [Disconnect] is called, no execution tells the consumer
    that the channel closed and the supervisor is never in its closed state. *)
Theorem reconnect_hides_remote_close (rc : ReconnectConfig) (c : WsClientConfig) (s : rec)
    (tr : list rec_event) :
  reachable rec_enabled (rec_handle td_mul) (CbSignalingReconnect c rc) s tr →
  disconnect_requested s = false →
  existsb is_closed_event tr = false ∧ rstate s ≠ rClosed.
Proof.
  intros Hr. 
  assert ((rstate s = rClosed → disconnect_requested s = true) ∧
    (disconnect_requested s = false → existsb is_closed_event tr = false)) as [H1 H2];
    [|intros Hd; split; [auto | intros Hc; rewrite H1 in Hd; done]].
  revert s tr Hr. apply reachable_trace_inv; [done|].
  intros i s tr _ [H1 H2] _. destruct (close_honest_handle td_mul i s H1) as [H3 H4].
  split; [done|]. intros Hd. rewrite existsb_app. by destruct (H4 Hd) as [Hd' ->]; rewrite H2.
Qed.

(** A requested close of an open channel ends in one report: the client's
    closing handshake is awaited, its close is passed on, and nothing is
    scheduled any more. *)
Theorem disconnect_closes_open_channel (s : rec) (i : inner) (closed : net_input)
    (code : Z) (reason : string) :
  rstate s = rOpen → observer_set s = true → inner_ s = Some i →
  inner_is_connected i = true →
  notifs (events inner_Disconnect i) = [] →
  notifs (events (inner_net closed) (exec inner_Disconnect i)) = [NClosed code reason] →
  let m := run (rec_handle td_mul) [InDisconnect; InNet closed] in
  rstate (exec m s) = rClosed ∧ backoff_timer (exec m s) = None ∧
  idle_timer (exec m s) = None ∧ sup_events (events m s) = [ROnClosed code reason].
Proof.
  intros Hst Hob Hi Hc Hd Hn. cbv zeta.
  destruct (run_app (rec_handle td_mul) [InDisconnect] [InNet closed] s) as [He Hv].
  simpl app in He, Hv. rewrite He, Hv, sup_events_app.
  unfold exec, events. rewrite !run_one. cbn [rec_handle].
  destruct (disconnect_live_run td_mul s i) as [D1 D2];
    [by rewrite Hst | by rewrite Hst | done | by rewrite Hc | done |].
  unfold exec in D1 at 1. unfold events in D2. rewrite D1, D2.
  match goal with |- context [call_inner td_mul tt _ ?s1] =>
    destruct (call_inner_notifs td_mul tt (inner_net closed) (exec inner_Disconnect i) s1 eq_refl)
      as [H1 H2] end.
  unfold exec at 1 in H1. unfold events at 1 in H2. rewrite H1, H2, Hn.
  rewrite fmap_cons, fmap_nil. cbn [eseq on_notif]. unfold OnClosed, notify. run_eff.
  rewrite orb_true_r. simpl. by rewrite Hob.
Qed.

(** A requested close does not cancel a dial in progress: the consumer is
    told the channel closed, and when the handshake then completes it is told
    that it is connected and the supervisor is open again. *)
Theorem disconnect_leaves_dial_running (s : rec) (i : inner) (established : net_input) :
  dialing (rstate s) = true → observer_set s = true → inner_ s = Some i →
  inner_is_connected i = false → inner_is_closing i = false →
  notifs (events (inner_net established) i) = [NConnected] →
  let m := run (rec_handle td_mul) [InDisconnect; InNet established] in
  sup_events (events m s) =
    [ROnClosed kCloseCodeNormal "wrapper-disconnect-noop"; ROnConnected] ∧
  rstate (exec m s) = rOpen.
Proof.
  intros Hst Hob Hi Hc Hcl Hn. cbv zeta.
  destruct (run_app (rec_handle td_mul) [InDisconnect] [InNet established] s) as [He Hv].
  simpl app in He, Hv. rewrite He, Hv, sup_events_app.
  unfold exec, events. rewrite !run_one. cbn [rec_handle].
  assert (Disconnect td_mul s = (tt, s <| disconnect_requested := true |>
    <| backoff_timer := None |> <| idle_timer := None |> <| rstate := rClosed |>,
    [ROnClosed kCloseCodeNormal "wrapper-disconnect-noop"])) as ->.
  { unfold Disconnect, notify. run_eff. rewrite Hi.
    destruct (rstate s); try done; rewrite Hc, Hcl; simpl; by rewrite Hob. }
  match goal with |- context [call_inner td_mul tt _ ?s1] =>
    destruct (call_inner_notifs td_mul tt (inner_net established) i s1 Hi) as [H1 H2] end.
  unfold exec at 1 in H1. unfold events at 1 in H2. rewrite H1, H2, Hn.
  rewrite fmap_cons, fmap_nil. cbn [eseq on_notif].
  unfold OnConnected, ArmIdleTimer, notify. run_eff.
  destruct (_ =? 0); simpl; by rewrite Hob.
Qed.
End rec_properties.

(** The default configuration redials after 1, 2, 4, 8 and 16 seconds and
    then five times after 32: it gives up 191 seconds after the first failure. *)
Theorem default_backoff_schedule (td_mul : Z → spec_float → Z) :
  (∀ d, 0 ≤ d ≤ Seconds 32 → td_mul d two_point_zero = 2 * d) →
  let delays := (λ j, redial_delay td_mul default_config (Z.of_nat j)) <$>
    seq 0 (Z.to_nat (max_attempts default_config)) in
  delays = Seconds <$> [1; 2; 4; 8; 16; 32; 32; 32; 32; 32] ∧
  foldr Z.add 0 delays = Seconds 191.
Proof.
  intros Hd. cbv zeta.
  assert ((λ j, redial_delay td_mul default_config (Z.of_nat j)) <$>
    seq 0 (Z.to_nat (max_attempts default_config)) =
    Seconds <$> [1; 2; 4; 8; 16; 32; 32; 32; 32; 32]) as ->; [|done].
  simpl. unfold redial_delay. simpl.
  repeat (rewrite Hd; [|vm_compute; by split]).
  vm_compute. reflexivity.
Qed.

(** The frame an event of the supervisor over the WebSocket client writes. *)
Definition rec_ws_frame {J : JsonCodec} url_valid calls
    (ev : rec_event (IC := ws_inner url_valid calls)) : option string :=
  match ev with InnerEvent ie => ws_frame (ie : ws_event) | _ => None end.

Lemma ws_rec_contract {J : JsonCodec} td_mul url_valid calls :
  @TransportContract J _ _ (rec_transport (IC := ws_inner url_valid calls) td_mul).
Proof. apply rec_contract; [done | by intros [] | apply ws_contract]. Qed.

(** The supervisor over the WebSocket client keeps the transport contract:
    a send that returns true put exactly one frame on the wire, the encoding of
    the envelope stamped as coming from the browser; a send that returns false
    put none. *)
Theorem reconnect_send_contract {J : JsonCodec} (td_mul : Z → spec_float → Z)
    (url_valid : string → bool) (calls : Envelope → list ws_api) (env : Envelope)
    (s : rec (IC := ws_inner url_valid calls)) :
  let evs := events (Send (IC := ws_inner url_valid calls) td_mul env) s in
  let frames := omap (rec_ws_frame url_valid calls) evs in
  if result (Send (IC := ws_inner url_valid calls) td_mul env) s
  then ∃ p, Encode (env <| env_from := kBrowser |>) = Some p ∧ frames = [p]
  else frames = [].
Proof.
  destruct (ws_rec_contract td_mul url_valid calls) as [H]. exact (H env s).
Qed.

(** ** Witnesses *)

Import BitsCodec.

(** The supervisor over a WebSocket client whose observer only listens. *)
Definition demo_inner : InnerClient := ws_inner (J := bits_codec) (λ _, true) (λ _, []).
#[local] Existing Instance demo_inner.
Lemma demo_laws : InnerLaws demo_inner.
Proof. exact (ws_inner_laws (J := bits_codec) (λ _, true) (λ _, [])). Qed.
#[local] Existing Instance demo_laws.

Definition times_two (d : Z) (_ : spec_float) : Z := 2 * d.

Definition ws_refused : ws_input := InFailure "refused" (-102) 0.

Definition two_refusals : list (rec_input (IC := demo_inner)) :=
  [InConnect; InNet ws_refused; InBackoff; InNet ws_refused].
Abbreviation demo0 := (CbSignalingReconnect cfg0 default_config).
Abbreviation demo_run ins := (run (rec_handle times_two) ins).

Lemma reconnect_coherent_witness :
  let s := exec (demo_run two_refusals) demo0 in
  attempts_made s = 1 ∧ rstate s = rBackingOff ∧ (rstate s = rBackingOff → inner_ s = None).
Proof.
  cbv zeta. split; [vm_compute; reflexivity|]. split; [vm_compute; reflexivity|].
  refine (proj1 (proj2 (proj2 (reconnect_coherent (IC := demo_inner) times_two default_config cfg0 _
    (events (demo_run two_refusals) demo0) _ _)))).
  - split; [discriminate | reflexivity].
  - apply run_reachable. vm_compute. reflexivity.
Defined.

Lemma reconnect_follows_schedule_witness :
  backoff_timer (exec (demo_run two_refusals) demo0) = Some (Seconds 2).
Proof.
  refine (proj2 (reconnect_follows_schedule (IC := demo_inner) times_two default_config cfg0
    (exec (demo_run two_refusals) demo0) (events (demo_run two_refusals) demo0) _ _ _)).
  - split; [discriminate | reflexivity].
  - apply run_reachable. vm_compute. reflexivity.
  - vm_compute. reflexivity.
Defined.

Lemma reconnect_gives_up_witness :
  rstate (exec (demo_run (InConnect :: outage (IC := demo_inner) ws_refused 10)) demo0) = rGaveUp.
Proof.
  refine (proj1 (reconnect_gives_up (IC := demo_inner) times_two default_config cfg0 ws_refused
    "handshake failed: refused net_error=-102 response=0" _ _ _)).
  - split; reflexivity.
  - vm_compute. reflexivity.
  - vm_compute. reflexivity.
Defined.

(** The broker closes cleanly, code 1000; the supervisor redials. *)
Definition clean_close : list (rec_input (IC := demo_inner)) :=
  [InConnect; InNet (InEstablished (mkPipe [] PipeOpen) 100 : net_input (InnerClient := demo_inner));
   InNet (InDropChannel true 1000 "" : net_input (InnerClient := demo_inner))].

Lemma reconnect_hides_remote_close_witness :
  rstate (exec (demo_run clean_close) demo0) = rBackingOff ∧
  existsb is_closed_event (events (demo_run clean_close) demo0) = false.
Proof.
  split; [vm_compute; reflexivity|].
  refine (proj1 (reconnect_hides_remote_close (IC := demo_inner) times_two default_config cfg0
    (exec (demo_run clean_close) demo0) (events (demo_run clean_close) demo0) _ _)).
  - apply run_reachable. vm_compute. reflexivity.
  - vm_compute. reflexivity.
Defined.

(** An open supervisor and its open client; a supervisor that is dialing. *)
Definition open_rec : rec (IC := demo_inner) :=
  demo0 <| rstate := rOpen |> <| idle_timer := Some (Seconds 90) |>
    <| inner_ := Some (open_ws [] "" []) |>.
Definition dialing_rec : rec (IC := demo_inner) :=
  demo0 <| rstate := rConnecting |>
    <| inner_ := Some ((SignalingWsClient cfg0) <| state_ := kConnecting |>) |>.

Lemma disconnect_closes_open_channel_witness :
  sup_events (events (demo_run [InDisconnect; InNet (InDropChannel true 1000 "bye"
    : net_input (InnerClient := demo_inner))]) open_rec) = [ROnClosed 1000 "bye"].
Proof.
  refine (proj2 (proj2 (proj2 (disconnect_closes_open_channel (IC := demo_inner) times_two open_rec
    (open_ws [] "" []) (InDropChannel true 1000 "bye") 1000 "bye" _ _ _ _ _ _))));
    vm_compute; reflexivity.
Defined.

Lemma disconnect_leaves_dial_running_witness :
  rstate (exec (demo_run [InDisconnect; InNet (InEstablished (mkPipe [] PipeOpen) 100
    : net_input (InnerClient := demo_inner))]) dialing_rec) = rOpen.
Proof.
  refine (proj2 (disconnect_leaves_dial_running (IC := demo_inner) times_two dialing_rec
    ((SignalingWsClient cfg0) <| state_ := kConnecting |>)
    (InEstablished (mkPipe [] PipeOpen) 100) _ _ _ _ _ _)); vm_compute; reflexivity.
Defined.

Lemma default_backoff_schedule_witness :
  foldr Z.add 0 ((λ j, redial_delay times_two default_config (Z.of_nat j)) <$> seq 0 10) =
    Seconds 191.
Proof. exact (proj2 (default_backoff_schedule times_two (λ d _, eq_refl))). Defined.
