(* ===== verification/OffererDriver.v ===== *)
(** * The offerer driver (capture/signaling/cb_offerer_driver.{h,cc})

    [CbOffererDriver] runs the SDP offer/answer dance of one session after the
    other over a [SignalingTransport] and a libwebrtc PeerConnection.  The
    driver lives on the UI thread; PeerConnection operations are tasks posted
    to the signaling thread and their completions come back as tasks bound to a
    weak pointer, which [Rearm] invalidates.  The model has the driver's state,
    one computation per member function, and around it the system of the driver
    with the operations that are in flight, which complete in any order.

    SDP and candidate parsing are libwebrtc's: the class [WebRtc] names the
    functions the driver calls.  The transport is any [SignalingTransport]. *)

From stdpp Require Import base tactics list strings pretty.
From Stdlib Require Import ZArith Lia String.
From S2P Require Import Prelude Values WireEnvelope Transport.
Open Scope string_scope.

(** ** States *)

Inductive OffererState :=
| kIdle | kCreatingPc | kCreatingOffer | kSettingLocal | kAwaitingAnswer
| kSettingRemote | kIceInFlight | kClosed | kFailed.
#[export] Instance OffererState_eq_dec : EqDecision OffererState.
Proof. solve_decision. Defined.

(** The underlying integers of the enumeration, which the code compares. *)
Definition rank (st : OffererState) : nat :=
  match st with
  | kIdle => 0 | kCreatingPc => 1 | kCreatingOffer => 2 | kSettingLocal => 3
  | kAwaitingAnswer => 4 | kSettingRemote => 5 | kIceInFlight => 6
  | kClosed => 7 | kFailed => 8
  end.
Definition st_eq (a b : OffererState) : bool := Nat.eqb (rank a) (rank b).
Definition st_le (a b : OffererState) : bool := Nat.leb (rank a) (rank b).
Definition st_lt (a b : OffererState) : bool := Nat.ltb (rank a) (rank b).

(** ** libwebrtc *)

Class WebRtc := {
  SessionDescription : Type;
  RemoteCandidate : Type;
  SdpType : Type;
  SdpType_kAnswer : SdpType;
  SdpTypeFromString : string → option SdpType;
  CreateSessionDescription : SdpType → string → option SessionDescription;
  DescriptionToString : SessionDescription → string;
  CreateIceCandidate : string → Z → string → option RemoteCandidate;
}.

(** A local candidate: [ToString] may fail. *)
Record LocalCandidate := mkLocalCandidate {
  cand_ToString : option string;
  cand_sdp_mid : string;
  cand_sdp_mline_index : Z;
}.

(** What [CreatePeerConnectionOrError] answers. *)
Inductive pc_result := PcError (message : string) | PcNull | PcOk.

(** A PeerConnection, and the generation of the weak pointers. *)
Abbreviation pc_id := nat (only parsing).
Abbreviation weak := nat (only parsing).

Section driver.
Context {W : WebRtc} {T E : Type} {ST : SignalingTransport T E}.

Record off := mkOff {
  ws_client_ : T;
  observer_ : bool;
  pc_ : option pc_id;
  pending_remote_ice_ : list IceCandidatePayload;
  pending_early_answer_sdp_ : option string;
  state_ : OffererState;
  initial_renegotiation_consumed_ : bool;
  pending_renegotiation_ : bool;
  teardown_emitted_ : bool;
  was_in_ice_flight_once_ : bool;
  current_offer_answered_ : bool;
  ws_connected_ : bool;
  pending_local_offer_ : option SessionDescription;
  weak_factory_ : weak;
  (** PeerConnections made so far *)
  pcs_made : nat;
}.
#[export] Instance eta_off : Eta off := λ s,
  mkOff (ws_client_ s) (observer_ s) (pc_ s) (pending_remote_ice_ s)
    (pending_early_answer_sdp_ s) (state_ s) (initial_renegotiation_consumed_ s)
    (pending_renegotiation_ s) (teardown_emitted_ s) (was_in_ice_flight_once_ s)
    (current_offer_answered_ s) (ws_connected_ s) (pending_local_offer_ s)
    (weak_factory_ s) (pcs_made s).

Definition CbOffererDriver (t : T) (has_observer : bool) : off :=
  mkOff t has_observer None [] None kIdle false false false false false false None 0 0.

(** Tasks posted to the signaling thread capture [pc_] as it is; those with a
    completion capture a weak pointer to the driver. *)
Inductive off_event :=
| Wire (e : E)
| Sent (env : Envelope) (ok : bool)
| PostCreateOffer (pc : option pc_id) (w : weak)
| PostSetLocalDescription (pc : option pc_id) (d : SessionDescription) (w : weak)
| PostSetRemoteDescription (pc : option pc_id) (d : SessionDescription) (w : weak)
| PostAddIceCandidate (pc : option pc_id) (c : option RemoteCandidate)
| PostClose (pc : option pc_id)
| PostRelease (pc : option pc_id)
| PostGetStats (pc : option pc_id)
| ObsOnIceConnectionStateChanged (st : Z)
| ObsOnRenegotiationStarted (trigger : string)
| ObsOnRenegotiationCompleted
| ObsOnNewViewerNeedsOffer
| ObsOnClosed (reason : string)
| ObsOnFailed (reason : string).

Abbreviation offM := (eff off off_event).

(** ** Helpers *)

Definition observe (ev : off_event) : offM unit :=
  s ← eget; ewhen (observer_ s) (emit ev).

(** [ws_client_->Send(env)]. *)
Definition ws_Send (env : Envelope) : offM bool := λ s,
  let m := transport_Send env in
  let ok := result m (ws_client_ s) in
  (ok, s <| ws_client_ := exec m (ws_client_ s) |>,
   ((Wire <$> events m (ws_client_ s)) ++ [Sent env ok])%list).

Definition ClosePcOnSignalingThread : offM unit :=
  s ← eget;
  match pc_ s with None => mret tt | Some _ => emit (PostClose (pc_ s)) end.

Definition FailWithReason (reason : string) : offM unit :=
  emod (λ s, s <| state_ := kFailed |> <| pending_remote_ice_ := [] |>) ;;
  ClosePcOnSignalingThread ;;
  observe (ObsOnFailed reason).

(** ** Outbound envelopes *)

Definition SendOfferEnvelope (desc : SessionDescription) : offM unit :=
  let env := mkEnvelope kOffer kBrowser
    (Sdp (mkSdpPayload "offer" (DescriptionToString desc))) in
  ok ← ws_Send env;
  if ok : bool then mret tt else FailWithReason "ws Send(offer) failed".

Definition SendIceCandidateEnvelope (c : LocalCandidate) : offM unit :=
  match cand_ToString c with
  | None => mret tt
  | Some text =>
      let env := mkEnvelope kIce kBrowser
        (Ice (mkIceCandidatePayload false text (Some (cand_sdp_mid c))
          (Some (cand_sdp_mline_index c)) None)) in
      ws_Send env ;; mret tt
  end.

Definition SendIceEndOfCandidates : offM unit :=
  ws_Send (MakeIceEndOfCandidates kBrowser) ;; mret tt.

Definition SendByeEnvelope : offM bool := ws_Send (mkEnvelope kBye kBrowser Monostate).

Definition SendSessionUnhealthyEnvelope : offM bool :=
  ws_Send (mkEnvelope kSessionUnhealthy kBrowser Monostate).

(** ** Teardown *)

Definition CloseInternal (reason source : string) : offM unit :=
  s ← eget;
  if teardown_emitted_ s then mret tt
  else if st_eq (state_ s) kFailed then emod (λ s, s <| teardown_emitted_ := true |>)
  else
    let emit_bye := negb (String.eqb source "ws") && negb (String.eqb source "remote") &&
      st_le kCreatingOffer (state_ s) && st_le (state_ s) kIceInFlight in
    ewhen emit_bye (SendByeEnvelope ;; mret tt) ;;
    emod (λ s, s <| state_ := kClosed |> <| teardown_emitted_ := true |>
                 <| pending_remote_ice_ := [] |>) ;;
    ClosePcOnSignalingThread ;;
    observe (ObsOnClosed reason).

(** ** Public API *)

Definition Rearm (announce_bye : bool) : offM bool :=
  s ← eget;
  if st_eq (state_ s) kIdle then mret false
  else if st_eq (state_ s) kFailed then mret false
  else
    ewhen (negb (st_eq (state_ s) kClosed))
      (CloseInternal "rearm" (if announce_bye then "rearm" else "remote")) ;;
    s ← eget;
    ewhen (match pc_ s with Some _ => true | None => false end) (emit (PostRelease (pc_ s))) ;;
    emod (λ s, s <| pc_ := None |> <| weak_factory_ := S (weak_factory_ s) |>
                 <| state_ := kIdle |> <| teardown_emitted_ := false |>
                 <| initial_renegotiation_consumed_ := false |>
                 <| pending_renegotiation_ := false |> <| pending_remote_ice_ := [] |>
                 <| pending_local_offer_ := None |> <| pending_early_answer_sdp_ := None |>
                 <| current_offer_answered_ := false |>) ;;
    mret true.

(** [r] is what the factory answers. *)
Definition Start (r : pc_result) : offM unit :=
  s ← eget;
  if negb (st_eq (state_ s) kIdle) then mret tt
  else
    emod (λ s, s <| state_ := kCreatingPc |>) ;;
    match r with
    | PcError message => FailWithReason ("CreatePeerConnectionOrError failed: " ++ message)
    | PcNull =>
        emod (λ s, s <| pc_ := None |>) ;;
        FailWithReason "CreatePeerConnectionOrError returned ok() but a null PC"
    | PcOk => emod (λ s, s <| pc_ := Some (pcs_made s) |> <| pcs_made := S (pcs_made s) |>)
    end.

Definition BeginRenegotiation (trigger : string) : offM unit :=
  s ← eget;
  match state_ s with
  | kClosed | kFailed | kIdle | kCreatingPc => mret tt
  | kIceInFlight =>
      emod (λ s, s <| state_ := kCreatingOffer |> <| current_offer_answered_ := false |>) ;;
      observe (ObsOnRenegotiationStarted trigger) ;;
      emit (PostCreateOffer (pc_ s) (weak_factory_ s))
  | _ => emod (λ s, s <| pending_renegotiation_ := true |>)
  end.

Definition RequestRenegotiation : offM unit :=
  s ← eget;
  match state_ s with
  | kClosed | kFailed => mret tt
  | _ => BeginRenegotiation "embedder"
  end.

Definition Close (reason : string) : offM unit := CloseInternal reason "embedder".

Definition CloseUnhealthy (reason : string) : offM unit :=
  SendSessionUnhealthyEnvelope ;; CloseInternal reason "gpu-permanent-death".

Definition PollOutboundStats (has_callback : bool) : offM unit :=
  s ← eget;
  match pc_ s with
  | Some _ => ewhen has_callback (emit (PostGetStats (pc_ s)))
  | None => mret tt
  end.

(** ** Remote candidates *)

Definition QueueRemoteIceCandidate (env : Envelope) : offM unit :=
  match env_data env with
  | Ice payload =>
      emod (λ s, s <| pending_remote_ice_ := (pending_remote_ice_ s ++ [payload])%list |>)
  | _ => FailWithReason "`ice` envelope missing candidate payload"
  end.

Definition AddRemoteIcePayload (payload : IceCandidatePayload) : offM unit :=
  s ← eget;
  if is_end_of_candidates payload then emit (PostAddIceCandidate (pc_ s) None)
  else
    match CreateIceCandidate (default "" (sdp_mid payload))
            (default 0%Z (sdp_m_line_index payload)) (candidate payload) with
    | None => mret tt
    | Some c => emit (PostAddIceCandidate (pc_ s) (Some c))
    end.

Fixpoint flush_loop (pending : list IceCandidatePayload) : offM unit :=
  match pending with
  | [] => mret tt
  | payload :: rest =>
      AddRemoteIcePayload payload ;;
      s ← eget;
      if st_eq (state_ s) kFailed || st_eq (state_ s) kClosed then mret tt
      else flush_loop rest
  end.

Definition FlushPendingRemoteIce : offM unit :=
  s ← eget;
  match pending_remote_ice_ s with
  | [] => mret tt
  | pending => emod (λ s, s <| pending_remote_ice_ := [] |>) ;; flush_loop pending
  end.

(** ** Inbound envelopes *)

Definition HandleOfferEnvelope (env : Envelope) : offM unit :=
  FailWithReason
    "unexpected inbound `offer` envelope (v1 contract: browser is sole offerer)".

(** The SDP of an answer, if it has a non-empty one. *)
Definition answer_sdp (env : Envelope) : option string :=
  match env_data env with
  | Sdp p => if String.eqb (sdp p) "" then None else Some (sdp p)
  | _ => None
  end.

Definition HandleAnswerEnvelope (env : Envelope) : offM unit :=
  s ← eget;
  match state_ s with
  | kSettingRemote | kIceInFlight => mret tt
  | kCreatingOffer | kSettingLocal =>
      match answer_sdp env with
      | None => FailWithReason "`answer` envelope missing SDP payload"
      | Some early => emod (λ s, s <| pending_early_answer_sdp_ := Some early |>)
      end
  | kAwaitingAnswer =>
      match answer_sdp env with
      | None => FailWithReason "`answer` envelope missing SDP payload"
      | Some text =>
          match CreateSessionDescription SdpType_kAnswer text with
          | None =>
              FailWithReason
                "CreateSessionDescription failed for remote answer (SDP parse error)"
          | Some remote =>
              emod (λ s, s <| state_ := kSettingRemote |>) ;;
              emit (PostSetRemoteDescription (pc_ s) remote (weak_factory_ s))
          end
      end
  | _ => FailWithReason "`answer` envelope in unexpected state"
  end.

Definition HandleIceEnvelope (env : Envelope) : offM unit :=
  s ← eget;
  if negb (st_eq (state_ s) kIceInFlight) then
    let can_queue_mid_dance :=
      (st_le kAwaitingAnswer (state_ s) && st_le (state_ s) kSettingRemote) ||
      (was_in_ice_flight_once_ s && st_le kCreatingOffer (state_ s) &&
       st_le (state_ s) kSettingRemote) in
    if can_queue_mid_dance then QueueRemoteIceCandidate env else mret tt
  else
    match env_data env with
    | Ice payload => AddRemoteIcePayload payload
    | _ => FailWithReason "`ice` envelope missing candidate payload"
    end.

Definition HandleByeEnvelope : offM unit :=
  s ← eget;
  match state_ s with
  | kIdle | kCreatingPc => mret tt
  | _ => CloseInternal "remote bye" "remote"
  end.

Definition HandleRequestRenegotiateEnvelope : offM unit :=
  s ← eget;
  match state_ s with
  | kAwaitingAnswer => observe ObsOnNewViewerNeedsOffer
  | kIceInFlight =>
      if negb (current_offer_answered_ s) then observe ObsOnNewViewerNeedsOffer
      else BeginRenegotiation "remote"
  | kClosed | kFailed | kIdle => mret tt
  | _ => emod (λ s, s <| pending_renegotiation_ := true |>)
  end.

Definition OnEnvelope (env : Envelope) : offM unit :=
  s ← eget;
  if st_eq (state_ s) kFailed || st_eq (state_ s) kClosed then mret tt
  else
    match env_type env with
    | kOffer => HandleOfferEnvelope env
    | kAnswer => HandleAnswerEnvelope env
    | kIce => HandleIceEnvelope env
    | kBye => HandleByeEnvelope
    | kRequestRenegotiate => HandleRequestRenegotiateEnvelope
    | kProbeResult | kPeerAbsent | kSessionUnhealthy => mret tt
    end.

Definition OnClosed (code : Z) (reason : string) : offM unit :=
  CloseInternal ("ws closed code=" ++ pretty code ++ " reason=" ++ reason) "ws".

Definition OnError (reason : string) : offM unit := FailWithReason ("ws error: " ++ reason).

(** ** Completions and PeerConnection callbacks, on the UI thread *)

Definition EmitOfferAndSetLocal (local : SessionDescription) : offM unit :=
  SendOfferEnvelope local ;;
  s ← eget;
  if negb (st_eq (state_ s) kCreatingOffer) then mret tt
  else
    emod (λ s, s <| state_ := kSettingLocal |>) ;;
    emit (PostSetLocalDescription (pc_ s) local (weak_factory_ s)).

Definition OnConnected : offM unit :=
  emod (λ s, s <| ws_connected_ := true |>) ;;
  s ← eget;
  match pending_local_offer_ s with
  | None => mret tt
  | Some local =>
      emod (λ s, s <| pending_local_offer_ := None |>) ;;
      ewhen (st_eq (state_ s) kCreatingOffer) (EmitOfferAndSetLocal local)
  end.

Definition HopHandleIceCandidate (c : LocalCandidate) : offM unit :=
  s ← eget;
  let pre_initial := negb (was_in_ice_flight_once_ s) && st_lt (state_ s) kSettingLocal in
  let terminal := st_eq (state_ s) kClosed || st_eq (state_ s) kFailed in
  if pre_initial || terminal then mret tt else SendIceCandidateEnvelope c.

Definition kIceGatheringComplete : Z := 2.

Definition HopHandleIceGatheringChange (new_state : Z) : offM unit :=
  ewhen (Z.eqb new_state kIceGatheringComplete) SendIceEndOfCandidates.

Definition HopHandleIceConnectionChange (new_state : Z) : offM unit :=
  observe (ObsOnIceConnectionStateChanged new_state).

Definition HopHandleRenegotiationNeeded : offM unit :=
  s ← eget;
  if negb (initial_renegotiation_consumed_ s) then
    emod (λ s, s <| initial_renegotiation_consumed_ := true |>) ;;
    if negb (st_eq (state_ s) kCreatingPc) then
      FailWithReason "OnRenegotiationNeeded in unexpected state"
    else
      emod (λ s, s <| state_ := kCreatingOffer |> <| current_offer_answered_ := false |>) ;;
      emit (PostCreateOffer (pc_ s) (weak_factory_ s))
  else BeginRenegotiation "libwebrtc".

Definition HopHandleCreateOfferSuccess (type text : string) : offM unit :=
  s ← eget;
  if negb (st_eq (state_ s) kCreatingOffer) then
    FailWithReason "CreateOffer success in unexpected state"
  else
    match SdpTypeFromString type with
    | None =>
        FailWithReason ("CreateSessionDescription: unparseable sdp_type '" ++ type ++
                        "' for local offer")
    | Some parsed_type =>
        match CreateSessionDescription parsed_type text with
        | None =>
            FailWithReason
              "CreateSessionDescription failed for local offer (SDP parse error or unsupported type)"
        | Some local =>
            if negb (ws_connected_ s) then
              emod (λ s, s <| pending_local_offer_ := Some local |>)
            else EmitOfferAndSetLocal local
        end
    end.

Definition HopHandleCreateOfferFailure (reason : string) : offM unit :=
  FailWithReason ("CreateOffer failed: " ++ reason).

Definition HopHandleSetLocalDescriptionComplete (ok : bool) (reason : string) : offM unit :=
  s ← eget;
  if negb ok then FailWithReason ("SetLocalDescription failed: " ++ reason)
  else if negb (st_eq (state_ s) kSettingLocal) then
    FailWithReason "SetLocalDescription complete in unexpected state"
  else
    emod (λ s, s <| state_ := kAwaitingAnswer |>) ;;
    match pending_early_answer_sdp_ s with
    | None => mret tt
    | Some text =>
        emod (λ s, s <| pending_early_answer_sdp_ := None |>) ;;
        HandleAnswerEnvelope (mkEnvelope kAnswer kClient (Sdp (mkSdpPayload "answer" text)))
    end.

Definition HopHandleSetRemoteDescriptionComplete (ok : bool) (reason : string) : offM unit :=
  s ← eget;
  if negb ok then FailWithReason ("SetRemoteDescription failed: " ++ reason)
  else if negb (st_eq (state_ s) kSettingRemote) then
    FailWithReason "SetRemoteDescription complete in unexpected state"
  else
    let was_renegotiation := was_in_ice_flight_once_ s in
    emod (λ s, s <| state_ := kIceInFlight |> <| was_in_ice_flight_once_ := true |>
                 <| current_offer_answered_ := true |>) ;;
    FlushPendingRemoteIce ;;
    ewhen was_renegotiation (observe ObsOnRenegotiationCompleted) ;;
    s ← eget;
    ewhen (pending_renegotiation_ s)
      (emod (λ s, s <| pending_renegotiation_ := false |>) ;;
       BeginRenegotiation "coalesced-pending").
End driver.

(** ** The driver and the operations in flight *)

Inductive op_kind := OpCreateOffer | OpSetLocal | OpSetRemote.
Record op := mkOp { kind : op_kind; op_weak : weak }.

(** How the signaling thread completes an operation. *)
Inductive completion :=
| CompOffer (type text : string)
| CompOk
| CompError (reason : string).

Section system.
Context {W : WebRtc} {T E : Type} {ST : SignalingTransport T E}.
Abbreviation driver := (off (W := W) (T := T)).
Abbreviation event := (off_event (W := W) (E := E)).

Definition op_of (ev : event) : option op :=
  match ev with
  | PostCreateOffer _ w => Some (mkOp OpCreateOffer w)
  | PostSetLocalDescription _ _ w => Some (mkOp OpSetLocal w)
  | PostSetRemoteDescription _ _ w => Some (mkOp OpSetRemote w)
  | _ => None
  end.
Definition posted (evs : list event) : list op := omap op_of evs.

(** A completion calls the driver back through the weak pointer. *)
Definition complete (o : op) (c : completion) : eff driver event unit :=
  s ← eget;
  if negb (Nat.eqb (op_weak o) (weak_factory_ s)) then mret tt
  else
    match kind o, c with
    | OpCreateOffer, CompOffer type text => HopHandleCreateOfferSuccess type text
    | OpCreateOffer, CompError r => HopHandleCreateOfferFailure r
    | OpCreateOffer, CompOk => mret tt
    | OpSetLocal, CompError r => HopHandleSetLocalDescriptionComplete false r
    | OpSetLocal, _ => HopHandleSetLocalDescriptionComplete true ""
    | OpSetRemote, CompError r => HopHandleSetRemoteDescriptionComplete false r
    | OpSetRemote, _ => HopHandleSetRemoteDescriptionComplete true ""
    end.

Inductive off_input :=
| InStart (r : pc_result)
| InRearm (announce_bye : bool)
| InRequestRenegotiation
| InClose (reason : string)
| InCloseUnhealthy (reason : string)
| InPollStats (has_callback : bool)
| InConnected
| InEnvelope (env : Envelope)
| InClosed (code : Z) (reason : string)
| InError (reason : string)
| InIceCandidate (c : LocalCandidate)
| InGathering (st : Z)
| InIceConnection (st : Z)
| InRenegotiationNeeded
| InTransport (t : T).

Definition off_handle (i : off_input) : eff driver event unit :=
  match i with
  | InStart r => Start r
  | InRearm b => Rearm b ;; mret tt
  | InRequestRenegotiation => RequestRenegotiation
  | InClose r => Close r
  | InCloseUnhealthy r => CloseUnhealthy r
  | InPollStats b => PollOutboundStats b
  | InConnected => OnConnected
  | InEnvelope env => OnEnvelope env
  | InClosed code r => OnClosed code r
  | InError r => OnError r
  | InIceCandidate c => HopHandleIceCandidate c
  | InGathering st => HopHandleIceGatheringChange st
  | InIceConnection st => HopHandleIceConnectionChange st
  | InRenegotiationNeeded => HopHandleRenegotiationNeeded
  | InTransport t => emod (λ s, s <| ws_client_ := t |>)
  end.

Record sys := mkSys { drv : driver; ops : list op }.

Inductive sys_input := SysInput (i : off_input) | SysComplete (k : nat) (c : completion).

(** [CompOk] is not an answer to [CreateOffer]. *)
Definition comp_fits (o : op) (c : completion) : bool :=
  match kind o, c with
  | OpCreateOffer, CompOk => false
  | OpCreateOffer, _ => true
  | _, CompOffer _ _ => false
  | _, _ => true
  end.

Definition sys_enabled (i : sys_input) (s : sys) : bool :=
  match i with
  | SysInput _ => true
  | SysComplete k c =>
      match ops s !! k with Some o => comp_fits o c | None => false end
  end.

(** Run a computation of the driver with the given operations in flight. *)
Definition sys_run (m : eff driver event unit) (rest : list op) (s : sys) :
    unit * sys * list event :=
  (tt, mkSys (exec m (drv s)) (rest ++ posted (events m (drv s))), events m (drv s)).

Definition sys_handle (i : sys_input) : eff sys event unit := λ s,
  match i with
  | SysInput i => sys_run (off_handle i) (ops s) s
  | SysComplete k c =>
      match ops s !! k with
      | Some o => sys_run (complete o c) (delete k (ops s)) s
      | None => (tt, s, [])
      end
  end.

Definition sys_init (t : T) (has_observer : bool) : sys :=
  mkSys (CbOffererDriver t has_observer) [].
End system.
