(* ===== verification/OffererInvariant.v ===== *)
(** * The invariant of the offerer system

    State by state, what the driver's members hold ([base]) and which operation
    is in flight ([expected]); every input and every completion preserves both
    ([sys_handle_inv]) and does to the trace what [tfacts] says
    ([sys_handle_facts]). *)

From stdpp Require Import base tactics list strings pretty.
From Stdlib Require Import ZArith Lia String.
From S2P Require Import Prelude Values WireEnvelope Transport OffererDriver.
Open Scope string_scope.

(** Evaluate a handler in every state and read off its effect. *)
Ltac eval_driver :=
  cbv beta iota zeta delta [
    off_handle complete Start Rearm RequestRenegotiation Close CloseUnhealthy
    PollOutboundStats OnConnected OnEnvelope OnClosed OnError HopHandleIceCandidate
    HopHandleIceGatheringChange HopHandleIceConnectionChange HopHandleRenegotiationNeeded
    HopHandleCreateOfferSuccess HopHandleCreateOfferFailure
    HopHandleSetLocalDescriptionComplete HandleOfferEnvelope HandleAnswerEnvelope
    HandleIceEnvelope HandleByeEnvelope HandleRequestRenegotiateEnvelope
    QueueRemoteIceCandidate AddRemoteIcePayload BeginRenegotiation EmitOfferAndSetLocal
    SendOfferEnvelope SendIceCandidateEnvelope SendIceEndOfCandidates SendByeEnvelope
    SendSessionUnhealthyEnvelope CloseInternal FailWithReason ClosePcOnSignalingThread
    observe ws_Send
    mbind eff_bind mret eff_ret eget egets emod emit ewhen set_field
    st_eq st_le st_lt rank Nat.eqb Nat.leb Nat.ltb negb andb orb
    ws_client_ observer_ pc_ pending_remote_ice_ pending_early_answer_sdp_ state_
    initial_renegotiation_consumed_ pending_renegotiation_ teardown_emitted_
    was_in_ice_flight_once_ current_offer_answered_ ws_connected_ pending_local_offer_
    weak_factory_ pcs_made].

Ltac eval_cases := eval_driver; repeat (case_inner; eval_driver).

Section base.
Context {W : WebRtc} {T E : Type} {ST : SignalingTransport T E}.
Abbreviation driver := (off (W := W) (T := T)).
Abbreviation event := (off_event (W := W) (E := E)).
Abbreviation sys := (sys (W := W) (T := T)).

(** ** The invariant of the driver, state by state *)

Definition terminal (st : OffererState) : bool := st_eq st kClosed || st_eq st kFailed.

Definition base (s : driver) : Prop :=
  match state_ s with
  | kIdle =>
      pc_ s = None ∧ initial_renegotiation_consumed_ s = false ∧
      pending_renegotiation_ s = false ∧
      pending_local_offer_ s = None ∧ pending_early_answer_sdp_ s = None ∧
      pending_remote_ice_ s = [] ∧ current_offer_answered_ s = false ∧
      teardown_emitted_ s = false
  | kCreatingPc =>
      is_Some (pc_ s) ∧ initial_renegotiation_consumed_ s = false ∧
      pending_local_offer_ s = None ∧ pending_early_answer_sdp_ s = None ∧
      pending_remote_ice_ s = [] ∧ current_offer_answered_ s = false ∧
      teardown_emitted_ s = false
  | kCreatingOffer =>
      is_Some (pc_ s) ∧ initial_renegotiation_consumed_ s = true ∧
      current_offer_answered_ s = false ∧ teardown_emitted_ s = false
  | kSettingLocal =>
      is_Some (pc_ s) ∧ initial_renegotiation_consumed_ s = true ∧
      pending_local_offer_ s = None ∧
      current_offer_answered_ s = false ∧ teardown_emitted_ s = false
  | kAwaitingAnswer | kSettingRemote =>
      is_Some (pc_ s) ∧ initial_renegotiation_consumed_ s = true ∧
      pending_local_offer_ s = None ∧ pending_early_answer_sdp_ s = None ∧
      current_offer_answered_ s = false ∧ teardown_emitted_ s = false
  | kIceInFlight =>
      is_Some (pc_ s) ∧ initial_renegotiation_consumed_ s = true ∧
      pending_renegotiation_ s = false ∧
      pending_local_offer_ s = None ∧ pending_early_answer_sdp_ s = None ∧
      pending_remote_ice_ s = [] ∧ current_offer_answered_ s = true ∧
      was_in_ice_flight_once_ s = true ∧ teardown_emitted_ s = false
  | kClosed => pending_remote_ice_ s = [] ∧ teardown_emitted_ s = true
  | kFailed => pending_remote_ice_ s = []
  end.

End base.

(** The driver's state, its enumeration, and what the invariant says of it. *)
Ltac open_driver Hb :=
  match type of Hb with
  | base ?s =>
      let st := fresh "st" in
      destruct s as [ws ob pc ice early st ini ren td once ans con pl w made];
      unfold base in Hb; simpl in Hb; destruct st; destruct_and? Hb;
      try match goal with H : is_Some pc |- _ => destruct H as [? H] end; simplify_eq/=
  end.

Section invariant.
Context {W : WebRtc} {T E : Type} {ST : SignalingTransport T E}.
Abbreviation driver := (off (W := W) (T := T)).
Abbreviation event := (off_event (W := W) (E := E)).
Abbreviation sys := (sys (W := W) (T := T)).

(** The operations a live session has in flight. *)
Definition expected (s : driver) : list op_kind :=
  match state_ s with
  | kCreatingOffer =>
      match pending_local_offer_ s with None => [OpCreateOffer] | Some _ => [] end
  | kSettingLocal => [OpSetLocal]
  | kSettingRemote => [OpSetRemote]
  | _ => []
  end.

(** ** Facts about the events of a handler *)

(** The handler's own events, without those of the transport. *)
Definition strip (evs : list event) : list event :=
  omap (λ ev, match ev with Wire _ => None | _ => Some ev end) evs.

(** A task posted to the signaling thread has a PeerConnection to work on. *)
Definition has_pc (ev : event) : bool :=
  match ev with
  | PostCreateOffer pc _ | PostSetLocalDescription pc _ _ | PostSetRemoteDescription pc _ _
  | PostAddIceCandidate pc _ | PostClose pc | PostRelease pc | PostGetStats pc =>
      match pc with Some _ => true | None => false end
  | _ => true
  end.

Definition is_offer (env : Envelope) : bool :=
  match env_type env with kOffer => true | _ => false end.
Definition offer_ok (ev : event) : bool :=
  match ev with Sent env ok => ok && is_offer env | _ => false end.
Definition is_candidate (ev : event) : bool :=
  match ev with
  | Sent env _ => match env_data env with Ice p => negb (is_end_of_candidates p) | _ => false end
  | _ => false
  end.
Definition is_closed (ev : event) : bool :=
  match ev with ObsOnClosed _ => true | _ => false end.
Definition closes (evs : list event) : nat := List.length (List.filter is_closed evs).

(** An offer of this or an earlier session was accepted by the transport. *)
Definition offered (s : driver) : bool :=
  was_in_ice_flight_once_ s || (st_le kSettingLocal (state_ s) && st_le (state_ s) kIceInFlight).

Definition tfacts (s s' : driver) (evs : list event) : Prop :=
  forallb has_pc evs = true ∧
  (offered s' = true → offered s = true ∨ existsb offer_ok evs = true) ∧
  (existsb is_candidate evs = true → offered s = true) ∧
  (weak_factory_ s' = weak_factory_ s →
     (closes evs + Nat.b2n (teardown_emitted_ s) ≤ Nat.b2n (teardown_emitted_ s'))%nat) ∧
  (weak_factory_ s ≤ weak_factory_ s')%nat.

Lemma strip_app a b : strip (a ++ b)%list = (strip a ++ strip b)%list.
Proof. apply omap_app. Qed.

Lemma strip_wire (es : list E) : strip (Wire <$> es) = [].
Proof. induction es; [done|]. by rewrite fmap_cons. Qed.

(** Facts about events do not depend on the transport's. *)
Lemma strip_facts evs :
  posted (strip evs) = posted evs ∧ forallb has_pc (strip evs) = forallb has_pc evs ∧
  existsb offer_ok (strip evs) = existsb offer_ok evs ∧
  existsb is_candidate (strip evs) = existsb is_candidate evs ∧
  closes (strip evs) = closes evs.
Proof.
  unfold posted, closes. induction evs as [|ev evs (H1 & H2 & H3 & H4 & H5)]; [done|].
  destruct ev; simpl in *; rewrite ?H2, ?H3, ?H4; split_and!; auto; by f_equal.
Qed.

(** What a handler that goes from [s] to [s'] with events [evs] does, [before]
    being in flight when it starts. *)
Definition good (before : list op_kind) (s s' : driver) (evs : list event) : Prop :=
  let ps := posted (strip evs) in
  base s' ∧ Forall (λ o, op_weak o = weak_factory_ s) ps ∧
  (terminal (state_ s') = false →
     (weak_factory_ s' = weak_factory_ s ∧ terminal (state_ s) = false ∧
      expected s' = (before ++ (kind <$> ps))%list) ∨
     ((weak_factory_ s < weak_factory_ s')%nat ∧ expected s' = [])) ∧
  tfacts s s' (strip evs).
Definition steps_from (before : list op_kind) (s : driver) (m : eff driver event unit) : Prop :=
  good before s (exec m s) (events m s).

Lemma steps_from_run before s (m : eff driver event unit) :
  (let '(_, s', evs) := m s in good before s s' evs) → steps_from before s m.
Proof. unfold steps_from, exec, events. by destruct (m s) as [[[] s'] evs]. Qed.

Lemma posted_app (a b : list event) : posted (a ++ b)%list = (posted a ++ posted b)%list.
Proof. apply omap_app. Qed.

Lemma posted_wire (es : list E) : posted (Wire <$> es) = [].
Proof. induction es; [done|]. by rewrite fmap_cons. Qed.

(** Queued candidates are all added, in order. *)
Definition ice_task (pc : option pc_id) (p : IceCandidatePayload) :
    option event :=
  if is_end_of_candidates p then Some (PostAddIceCandidate pc None)
  else (λ c, PostAddIceCandidate pc (Some c)) <$>
    CreateIceCandidate (default "" (sdp_mid p)) (default 0%Z (sdp_m_line_index p)) (candidate p).

Lemma AddRemoteIce_run p (s : driver) :
  AddRemoteIcePayload p s = (tt, s, option_list (ice_task (pc_ s) p)).
Proof.
  unfold AddRemoteIcePayload, ice_task. run_eff.
  destruct (is_end_of_candidates p); [done|]. by destruct (CreateIceCandidate _ _ _).
Qed.

Lemma flush_run l (s : driver) :
  terminal (state_ s) = false → flush_loop l s = (tt, s, omap (ice_task (pc_ s)) l).
Proof.
  intros Hs. induction l as [|p l IH]; [done|]. cbn [flush_loop].
  unfold mbind, eff_bind, eget. rewrite AddRemoteIce_run.
  unfold terminal in Hs. rewrite orb_comm in Hs. rewrite Hs, IH. simpl.
  by destruct (ice_task (pc_ s) p).
Qed.

Lemma FlushPending_run (s : driver) :
  terminal (state_ s) = false →
  FlushPendingRemoteIce s =
    (tt, s <| pending_remote_ice_ := [] |>, omap (ice_task (pc_ s)) (pending_remote_ice_ s)).
Proof.
  intros Hs. unfold FlushPendingRemoteIce. rewrite get_run.
  destruct (pending_remote_ice_ s) as [|p l] eqn:Hp; [by destruct s; simpl in *; subst|].
  rewrite mod_run. by rewrite flush_run.
Qed.

(** Adding candidates posts nothing else. *)
Lemma ice_facts pc l :
  strip (omap (ice_task (Some pc)) l) = omap (ice_task (Some pc)) l ∧
  posted (omap (ice_task (Some pc)) l) = [] ∧
  forallb has_pc (omap (ice_task (Some pc)) l) = true ∧
  existsb is_candidate (omap (ice_task (Some pc)) l) = false ∧
  List.filter is_closed (omap (ice_task (Some pc)) l) = [].
Proof.
  induction l as [|p l (H1 & H2 & H3 & H4 & H5)]; [done|].
  assert (omap (ice_task (Some pc)) (p :: l) =
    (option_list (ice_task (Some pc) p) ++ omap (ice_task (Some pc)) l)%list) as ->
    by (simpl; by destruct (ice_task (Some pc) p)).
  rewrite strip_app, posted_app, forallb_app, existsb_app, List.filter_app, H1, H2, H3, H4, H5.
  unfold ice_task. destruct (is_end_of_candidates p); [done|].
  by destruct (CreateIceCandidate _ _ _).
Qed.

Ltac good_done :=
  unfold good, tfacts, base, closes, offered, st_le, is_offer;
  lazymatch goal with
  | |- context [Wire <$> _] => rewrite !strip_app, !strip_wire
  | _ => idtac
  end; simpl; rewrite ?orb_true_r, ?orb_false_r, ?andb_false_r; split_and?; auto; intros;
  first [ done | lia | by left | by right; split; [lia|] | by right
        | by constructor | left; split_and?; by rewrite ?app_nil_r ].

Ltac step_run :=
  let Hb := fresh "Hb" in
  intros Hb; apply steps_from_run; open_driver Hb; eval_cases; good_done.

Lemma step_input i s : base s → steps_from (expected s) s (off_handle i).
Proof. destruct i; step_run. Qed.

(** The answer is applied: queued candidates, the notification, and the
    renegotiation that was waiting. *)
Definition answered (s : driver) : driver :=
  s <| state_ := kIceInFlight |> <| was_in_ice_flight_once_ := true |>
    <| current_offer_answered_ := true |> <| pending_remote_ice_ := [] |>.
Definition answered_events (s : driver) : list event :=
  (omap (ice_task (pc_ s)) (pending_remote_ice_ s) ++
   (if was_in_ice_flight_once_ s && observer_ s then [ObsOnRenegotiationCompleted] else []))%list.

Lemma SetRemote_ok_run r s :
  state_ s = kSettingRemote →
  HopHandleSetRemoteDescriptionComplete true r s =
    if pending_renegotiation_ s then
      (tt, (answered s) <| pending_renegotiation_ := false |> <| state_ := kCreatingOffer |>
             <| current_offer_answered_ := false |>,
       (answered_events s ++
        (if observer_ s then [ObsOnRenegotiationStarted "coalesced-pending"] else []) ++
        [PostCreateOffer (pc_ s) (weak_factory_ s)])%list)
    else (tt, answered s, answered_events s).
Proof.
  intros Hs. unfold HopHandleSetRemoteDescriptionComplete. rewrite get_run, Hs.
  cbn [negb st_eq rank Nat.eqb]. rewrite mod_run. unfold mbind at 1, eff_bind at 1.
  rewrite FlushPending_run by done. unfold answered, answered_events.
  destruct s as [ws ob pc ice early st ini ren td once ans con pl w made]. simpl in Hs. subst st.
  destruct once, ob, ren; eval_driver; simpl; rewrite ?app_nil_r, <-?app_assoc; done.
Qed.

(** A completion in the session it belongs to, the operation being the one the
    state expects. *)
Lemma step_complete o c s :
  base s → terminal (state_ s) = false → op_weak o = weak_factory_ s →
  expected s = [kind o] → comp_fits o c = true → steps_from [] s (complete o c).
Proof.
  intros Hb Ht Hw He Hf. destruct o as [k w0]. simpl in Hw. subst w0.
  apply steps_from_run. unfold complete. rewrite get_run. cbn [op_weak kind].
  rewrite Nat.eqb_refl. cbn [negb]. unfold comp_fits in Hf. cbn [kind] in *.
  assert (Hb' := Hb). unfold expected in He.
  destruct k, c as [type text| |reason]; try done; destruct (state_ s) eqn:Hst; try done;
    try (destruct (pending_local_offer_ s) eqn:Hpl; try done).
  all: try (rewrite SetRemote_ok_run by done; destruct (pending_renegotiation_ s) eqn:Hren).
  all: try change (HopHandleSetRemoteDescriptionComplete false ?r) with
    (eget ≫= λ _ : driver, FailWithReason (E := E) ("SetRemoteDescription failed: " ++ r)).
  all: open_driver Hb; simpl in *; simplify_eq/=.
  all: unfold answered, answered_events; eval_cases.
  all: try solve [good_done].
  all: destruct (ice_facts x ice) as (H1 & H2 & H3 & H4 & H5);
    unfold good, tfacts, base, closes, offered, st_le;
    rewrite !strip_app, H1, ?posted_app, !forallb_app, !existsb_app, !List.filter_app,
      !length_app, H2, H3, H4, H5; simpl; rewrite ?orb_true_r; split_and?; auto; intros;
    first [done | lia | by constructor | by left].
Qed.

(** A completion that finds the session over fails the driver. *)
Lemma complete_terminal o c s :
  base s → terminal (state_ s) = true → op_weak o = weak_factory_ s → comp_fits o c = true →
  base (exec (complete o c) s) ∧ state_ (exec (complete o c) s) = kFailed ∧
  weak_factory_ (exec (complete o c) s) = weak_factory_ s ∧
  posted (events (complete o c) s) = [] ∧
  tfacts s (exec (complete o c) s) (strip (events (complete o c) s)).
Proof.
  intros Hb Ht Hw Hf.
  enough (let '(_, s', evs) := complete o c s in
    base s' ∧ state_ s' = kFailed ∧ weak_factory_ s' = weak_factory_ s ∧ posted evs = [] ∧
    tfacts s s' (strip evs))
    by (unfold exec, events; by destruct (complete o c s) as [[[] ?] ?]).
  destruct o as [k w0]. simpl in Hw. subst w0. unfold complete. rewrite get_run.
  cbn [op_weak kind]. rewrite Nat.eqb_refl. cbn [negb]. unfold comp_fits in Hf. cbn [kind] in *.
  unfold HopHandleSetRemoteDescriptionComplete.
  destruct k, c as [type text| |reason]; try done;
    open_driver Hb; try done; eval_cases; unfold base, tfacts, closes, offered, st_le; simpl;
    rewrite ?orb_false_r, ?andb_false_r; split_and?; auto; intros; lia.
Qed.

Definition live (s : sys) : list op :=
  filter (λ o, op_weak o = weak_factory_ (drv s)) (ops s).

(** A live session has in flight exactly what its state waits for. *)
Record sys_inv (s : sys) : Prop := {
  inv_base : base (drv s);
  inv_weak : Forall (λ o, (op_weak o ≤ weak_factory_ (drv s))%nat) (ops s);
  inv_live : terminal (state_ (drv s)) = false → kind <$> live s = expected (drv s);
}.

Lemma expected_short (s : driver) : (List.length (expected s) ≤ 1)%nat.
Proof. unfold expected. destruct (state_ s); try case_match; simpl; lia. Qed.

(** Put the events of a computation together with what was in flight. *)
Lemma sys_run_inv m rest (s : sys) before :
  steps_from before (drv s) m →
  Forall (λ o, (op_weak o ≤ weak_factory_ (drv s))%nat) rest →
  (terminal (state_ (drv s)) = false →
     kind <$> filter (λ o, op_weak o = weak_factory_ (drv s)) rest = before) →
  sys_inv (exec (sys_run m rest) s).
Proof.
  intros (Hb & Hp & Hl & (_ & _ & _ & _ & Hw)) Hr Hbef.
  destruct (strip_facts (events m (drv s))) as [Hst _]. rewrite Hst in Hp, Hl.
  constructor; unfold live, sys_run, exec, events in *; simpl in *; [done | |].
  - apply Forall_app. split; [eapply Forall_impl; [exact Hr|] | eapply Forall_impl; [exact Hp|]];
      simpl; intros; lia.
  - intros Ht. rewrite filter_app, fmap_app. destruct (Hl Ht) as [(Hw' & Ht' & ->)|[Hlt ->]].
    + rewrite Hw', Hbef by done. f_equal. by rewrite (filter_all _ (posted _)).
    + rewrite !filter_none; [done | |]; eapply Forall_impl; try done; simpl; intros; lia.
Qed.

Lemma short_perm_nil {A} (x : A) l l' : (List.length l ≤ 1)%nat → l ≡ₚ x :: l' → l = [x] ∧ l' = [].
Proof.
  intros Hl Hp. pose proof (Permutation_length Hp) as Hlen. simpl in Hlen.
  destruct l' as [|y l']; simpl in *; [|lia]. split; [|done].
  by apply Permutation_singleton_r.
Qed.

Lemma short_perm_eq {A} (l l' : list A) : (List.length l ≤ 1)%nat → l ≡ₚ l' → l = l'.
Proof.
  intros Hl Hp. destruct l as [|x [|]]; simpl in Hl; [|  |lia].
  - by apply Permutation_nil_l in Hp.
  - by apply Permutation_singleton_l in Hp.
Qed.

(** An operation of the live session is the only one, and the expected one. *)
Lemma live_op s k o :
  sys_inv s → terminal (state_ (drv s)) = false → ops s !! k = Some o →
  op_weak o = weak_factory_ (drv s) →
  expected (drv s) = [kind o] ∧
  filter (λ o, op_weak o = weak_factory_ (drv s)) (delete k (ops s)) = [].
Proof.
  intros [_ _ Hl] Ht Hk Heq. specialize (Hl Ht).
  pose proof (delete_Permutation (ops s) k o Hk) as Hperm.
  assert (live s ≡ₚ o :: filter (λ o, op_weak o = weak_factory_ (drv s)) (delete k (ops s)))
    as Hp by (unfold live; rewrite Hperm at 1; by rewrite filter_cons_True).
  apply short_perm_nil in Hp as [Hl1 Hl2];
    [|rewrite <-(length_fmap kind), Hl; apply expected_short].
  by rewrite Hl1 in Hl.
Qed.

Lemma live_op_expected s k o :
  sys_inv s → terminal (state_ (drv s)) = false → ops s !! k = Some o →
  op_weak o = weak_factory_ (drv s) → expected (drv s) = [kind o].
Proof. intros. by eapply live_op. Qed.

Lemma sys_handle_inv i s :
  sys_inv s → sys_enabled i s = true → sys_inv (exec (sys_handle i) s).
Proof.
  intros Hi He. pose proof Hi as [Hb Hw Hl]. destruct i as [i|k c].
  { apply (sys_run_inv (off_handle i) (ops s) s (expected (drv s))); auto using step_input. }
  cbn [sys_enabled] in He. unfold exec, sys_handle. destruct (ops s !! k) as [o|] eqn:Hk; [|done].
  fold (exec (sys_run (complete o c) (delete k (ops s))) s).
  pose proof (delete_Permutation (ops s) k o Hk) as Hperm.
  assert (Forall (λ o, (op_weak o ≤ weak_factory_ (drv s))%nat) (delete k (ops s))) as Hw'.
  { by apply Forall_delete. }
  destruct (decide (op_weak o = weak_factory_ (drv s))) as [Heq|Hne].
  - destruct (terminal (state_ (drv s))) eqn:Ht.
    + destruct (complete_terminal o c (drv s)) as (H1 & H2 & H3 & H4 & _); [done..|].
      constructor; unfold exec, sys_run; simpl; [done | |by rewrite H2].
      fold (exec (complete o c) (drv s)). fold (events (complete o c) (drv s)).
      by rewrite H3, H4, app_nil_r.
    + destruct (live_op s k o) as [He1 He2]; [done..|].
      apply (sys_run_inv _ _ s []); [by apply step_complete | done | by rewrite He2].
  - assert (complete o c (drv s) = (tt, drv s, [])) as Hc.
    { unfold complete. rewrite get_run. by apply Nat.eqb_neq in Hne as ->. }
    constructor; unfold live, exec, sys_run, events; simpl; fold (exec (complete o c) (drv s));
      unfold exec; rewrite Hc; simpl; rewrite ?app_nil_r; auto.
    intros Ht. specialize (Hl Ht). symmetry. apply short_perm_eq; [apply expected_short|].
    rewrite <-Hl. unfold live. apply fmap_Permutation. rewrite Hperm at 1.
    by rewrite filter_cons_False.
Qed.

(** A step of the system is a step of the driver, or a stale completion. *)
Lemma sys_handle_facts i s :
  sys_inv s → sys_enabled i s = true →
  tfacts (drv s) (drv (exec (sys_handle i) s)) (events (sys_handle i) s).
Proof.
  intros Hi He.
  assert (∀ m : eff driver event unit, tfacts (drv s) (exec m (drv s)) (strip (events m (drv s))) →
    tfacts (drv s) (exec m (drv s)) (events m (drv s))) as Hst.
  { intros m. unfold tfacts. by destruct (strip_facts (events m (drv s))) as (_ & -> & -> & -> & ->). }
  destruct i as [i|k c].
  { apply Hst. by destruct (step_input i (drv s) (inv_base s Hi)) as (_ & _ & _ & Hf). }
  cbn [sys_enabled] in He. unfold exec, events, sys_handle.
  destruct (ops s !! k) as [o|] eqn:Hk; [|done]. apply Hst.
  destruct (decide (op_weak o = weak_factory_ (drv s))) as [Heq|Hne].
  - destruct (terminal (state_ (drv s))) eqn:Ht.
    + by destruct (complete_terminal o c (drv s) (inv_base s Hi)) as (_ & _ & _ & _ & Hf).
    + destruct (step_complete o c (drv s) (inv_base s Hi)) as (_ & _ & _ & Hf); try done.
      by apply (live_op_expected s k).
  - assert (complete o c (drv s) = (tt, drv s, [])) as Hc.
    { unfold complete. rewrite get_run. by apply Nat.eqb_neq in Hne as ->. }
    unfold exec, events. rewrite Hc. simpl. unfold tfacts, closes. simpl.
    split_and!; [done | by left | done | intros; lia | lia].
Qed.

Lemma sys_init_inv t ob : sys_inv (sys_init t ob).
Proof. by constructor. Qed.

Lemma sys_reachable_inv t ob s tr :
  reachable sys_enabled sys_handle (sys_init t ob) s tr → sys_inv s.
Proof. apply reachable_inv; [apply sys_init_inv | intros; by apply sys_handle_inv]. Qed.
End invariant.
