(* ===== verification/OffererProperties.v ===== *)
(** * Properties of the offerer driver

    Safety of the system of the driver and its operations in flight, the
    functional behaviour of the dance, of re-arming, of early and duplicate
    answers and of remote candidates, and the behaviours that differ from what
    the comments of the source promise. *)

From stdpp Require Import base tactics list strings pretty sets.
From Stdlib Require Import ZArith Lia String.
From S2P Require Import Prelude Values WireEnvelope Transport OffererDriver OffererInvariant.
Open Scope string_scope.

(** The envelope of a local offer. *)
Definition offer_envelope {W : WebRtc} (d : SessionDescription) : Envelope :=
  mkEnvelope kOffer kBrowser (Sdp (mkSdpPayload "offer" (DescriptionToString d))).

(** Run the whole system, up to the calls of libwebrtc and the transport. *)
Ltac eval_sys :=
  lazy -[transport_Send SdpTypeFromString CreateSessionDescription DescriptionToString
         String.eqb SdpType_kAnswer offer_envelope].

Section properties.
Context {W : WebRtc} {T E : Type} {ST : SignalingTransport T E}.
Abbreviation driver := (off (W := W) (T := T)).
Abbreviation event := (off_event (W := W) (E := E)).
Abbreviation system := (sys (W := W) (T := T)).

(** Whether every candidate of a trace comes after an accepted offer; [seen]
    tells whether there was one before the trace. *)
Fixpoint offers_first (seen : bool) (tr : list event) : bool :=
  match tr with
  | [] => true
  | ev :: tr' => (negb (is_candidate ev) || seen) && offers_first (seen || offer_ok ev) tr'
  end.

Lemma offers_first_app seen a b :
  offers_first seen (a ++ b)%list =
    offers_first seen a && offers_first (seen || existsb offer_ok a) b.
Proof.
  revert seen. induction a as [|ev a IH]; intros seen; simpl; [by rewrite orb_false_r|].
  by rewrite IH, andb_assoc, orb_assoc.
Qed.

Lemma offers_first_seen tr : offers_first true tr = true.
Proof. induction tr as [|ev tr IH]; [done|]. simpl. by rewrite orb_true_r. Qed.

Lemma offers_first_none seen tr :
  existsb is_candidate tr = false → offers_first seen tr = true.
Proof.
  revert seen. induction tr as [|ev tr IH]; intros seen; [done|]. simpl.
  intros [-> H]%orb_false_iff. by apply IH.
Qed.

(** C2. The SDP operation in flight is always the one the state waits for, and
    there is at most one: a live session in CreatingOffer has exactly one
    CreateOffer outstanding (none once the offer is buffered for the
    transport), in SettingLocal one SetLocalDescription, in SettingRemote one
    SetRemoteDescription, and in every other state nothing; operations of
    earlier sessions can no longer reach it. *)
Theorem offerer_operation_matches_state (t : T) (ob : bool) (s : system) (tr : list event) :
  reachable sys_enabled sys_handle (sys_init t ob) s tr →
  terminal (state_ (drv s)) = false →
  kind <$> live s =
    match state_ (drv s) with
    | kCreatingOffer =>
        match pending_local_offer_ (drv s) with None => [OpCreateOffer] | Some _ => [] end
    | kSettingLocal => [OpSetLocal]
    | kSettingRemote => [OpSetRemote]
    | _ => []
    end.
Proof. intros Hr. apply inv_live. exact (sys_reachable_inv t ob s tr Hr). Qed.

(** No task is ever posted to the signaling thread without a
    PeerConnection to work on: every captured [pc_] is non-null. *)
Theorem offerer_tasks_have_pc (t : T) (ob : bool) (s : system) (tr : list event) :
  reachable sys_enabled sys_handle (sys_init t ob) s tr → forallb has_pc tr = true.
Proof.
  intros Hr. enough (sys_inv s ∧ forallb has_pc tr = true) as H by apply H. revert s tr Hr.
  apply reachable_trace_inv; [split; [apply sys_init_inv | done]|].
  intros i s tr _ [Hi Hf] He. split; [by apply sys_handle_inv|].
  destruct (sys_handle_facts i s Hi He) as (Hp & _). by rewrite forallb_app, Hf.
Qed.

(** C20. No candidate leaves the process before an offer did: in every
    execution each [ice] envelope with a candidate comes after an [offer]
    envelope the transport accepted. *)
Theorem offerer_offer_before_candidates (t : T) (ob : bool) (s : system) (tr : list event) :
  reachable sys_enabled sys_handle (sys_init t ob) s tr → offers_first false tr = true.
Proof.
  intros Hr. enough (sys_inv s ∧ (offered (drv s) = true → existsb offer_ok tr = true) ∧
    offers_first false tr = true) as H by apply H. revert s tr Hr.
  apply reachable_trace_inv; [split_and!; [apply sys_init_inv | done | done]|].
  intros i s tr _ (Hi & Ho & Hf) He.
  destruct (sys_handle_facts i s Hi He) as (_ & H1 & H2 & _).
  split_and!; [by apply sys_handle_inv | |].
  - rewrite existsb_app. intros Hx. apply orb_true_iff. destruct (H1 Hx); auto.
  - rewrite offers_first_app, Hf. simpl.
    destruct (existsb is_candidate _) eqn:Hc; [|by apply offers_first_none].
    rewrite Ho by auto. apply offers_first_seen.
Qed.

Lemma sys_handle_closes ins s :
  sys_inv s → all_enabled sys_enabled sys_handle ins s = true →
  let s' := exec (run sys_handle ins) s in
  (weak_factory_ (drv s) ≤ weak_factory_ (drv s'))%nat ∧
  (weak_factory_ (drv s') = weak_factory_ (drv s) →
     closes (events (run sys_handle ins) s) + Nat.b2n (teardown_emitted_ (drv s)) ≤
       Nat.b2n (teardown_emitted_ (drv s')))%nat.
Proof.
  revert s. induction ins as [|i ins IH]; intros s Hi He; cbv zeta; [by split; intros; apply le_n|].
  simpl in He. apply andb_true_iff in He as [He Hes].
  unfold run. rewrite fmap_cons. cbn [eseq]. rewrite exec_bind, events_bind.
  fold (run sys_handle ins) in *.
  destruct (sys_handle_facts i s Hi He) as (_ & _ & _ & H1 & H2).
  destruct (IH _ (sys_handle_inv i s Hi He) Hes) as [H3 H4]. split; [lia|].
  intros Hw. unfold closes in *. rewrite List.filter_app, length_app.
  unfold run in *. specialize (H1 ltac:(lia)). specialize (H4 ltac:(lia)). lia.
Qed.

(** The end of a session is reported at most once: from any reachable
    state, whatever happens until the next successful re-arm (which renews the
    weak pointers), the observer hears [OnClosed] at most once, and not at all
    when the session was already torn down. *)
Theorem offerer_close_reported_once (t : T) (ob : bool) (s : system) (tr : list event)
    (ins : list sys_input) :
  reachable sys_enabled sys_handle (sys_init t ob) s tr →
  all_enabled sys_enabled sys_handle ins s = true →
  weak_factory_ (drv (exec (run sys_handle ins) s)) = weak_factory_ (drv s) →
  (closes (events (run sys_handle ins) s) ≤ 1)%nat ∧
  (teardown_emitted_ (drv s) = true → closes (events (run sys_handle ins) s) = 0%nat).
Proof.
  intros Hr He Hw. destruct (sys_handle_closes ins s) as [_ H]; [|done|].
  { exact (sys_reachable_inv t ob s tr Hr). }
  specialize (H Hw). split.
  - destruct (teardown_emitted_ (drv s)), (teardown_emitted_ _); simpl in H; lia.
  - intros Ht. rewrite Ht in H. destruct (teardown_emitted_ (drv (exec _ _))); simpl in H; lia.
Qed.

(** Re-arming isolates sessions: from every state except Idle and Failed
    it succeeds, returns the driver to Idle with all session state cleared and
    the process-wide facts kept, and no completion of an operation posted
    before can change the driver or be observed any more. *)
Theorem rearm_isolates_sessions (s : system) (b : bool) :
  sys_inv s → state_ (drv s) ≠ kIdle → state_ (drv s) ≠ kFailed →
  let d := exec (Rearm b) (drv s) in
  result (Rearm b) (drv s) = true ∧
  state_ d = kIdle ∧ pc_ d = None ∧ pending_remote_ice_ d = [] ∧
  pending_early_answer_sdp_ d = None ∧ pending_local_offer_ d = None ∧
  pending_renegotiation_ d = false ∧ teardown_emitted_ d = false ∧
  ws_connected_ d = ws_connected_ (drv s) ∧
  was_in_ice_flight_once_ d = was_in_ice_flight_once_ (drv s) ∧
  (∀ o c, o ∈ ops s → complete (E := E) o c d = (tt, d, [])).
Proof.
  intros [Hb Hw _] Hi Hf. cbv zeta.
  assert (let '(r, d, _) := Rearm (E := E) b (drv s) in r = true ∧ weak_factory_ d = S (weak_factory_ (drv s)) ∧
    state_ d = kIdle ∧ pc_ d = None ∧ pending_remote_ice_ d = [] ∧
    pending_early_answer_sdp_ d = None ∧ pending_local_offer_ d = None ∧
    pending_renegotiation_ d = false ∧ teardown_emitted_ d = false ∧
    ws_connected_ d = ws_connected_ (drv s) ∧
    was_in_ice_flight_once_ d = was_in_ice_flight_once_ (drv s)) as H.
  { destruct (drv s) as [ws obs pc ice early st ini ren td once ans con pl w made].
    simpl in Hi, Hf. destruct st; try done; eval_cases; done. }
  unfold result, exec. destruct (Rearm b (drv s)) as [[r d] es]. simpl.
  destruct H as (H1 & Hweak & H2). destruct_and! H2. split_and!; try done.
  intros o c Ho. unfold complete. rewrite get_run.
  rewrite Forall_forall in Hw. specialize (Hw o Ho).
  destruct (Nat.eqb_spec (op_weak o) (weak_factory_ d)); [lia | done].
Qed.

(** Requests for a renegotiation, from the embedder, libwebrtc and the viewer. *)
Definition is_request (i : off_input (T := T)) : bool :=
  match i with
  | InRequestRenegotiation | InRenegotiationNeeded => true
  | InEnvelope env => match env_type env with kRequestRenegotiate => true | _ => false end
  | _ => false
  end.

Lemma request_coalesces i (s : driver) :
  is_request i = true → initial_renegotiation_consumed_ s = true →
  state_ s = kCreatingOffer ∨ state_ s = kSettingLocal ∨ state_ s = kSettingRemote →
  off_handle i s = (tt, s <| pending_renegotiation_ := true |>, []).
Proof.
  intros Hi Hc Hs. destruct s as [ws ob pc ice early st ini ren td once ans con pl w made].
  simpl in *. subst ini.
  destruct i as [| | | | | | |env| | | | | | |]; try done;
    [| destruct env as [[] fr da]; try done |];
    destruct Hs as [-> | [-> | ->]]; reflexivity.
Qed.

Lemma requests_coalesce ins (s : driver) :
  forallb is_request ins = true → ins ≠ [] → initial_renegotiation_consumed_ s = true →
  state_ s = kCreatingOffer ∨ state_ s = kSettingLocal ∨ state_ s = kSettingRemote →
  run off_handle ins s = (tt, s <| pending_renegotiation_ := true |>, []).
Proof.
  unfold run. revert s. induction ins as [|i ins IH]; intros s Hr Hn Hc Hs; [done|].
  simpl in Hr. apply andb_true_iff in Hr as [Hi Hr]. rewrite fmap_cons. cbn [eseq].
  unfold mbind, eff_bind. rewrite (request_coalesces i s) by done.
  destruct ins as [|j ins]; [done|]. rewrite IH by done. reflexivity.
Qed.

(** Renegotiation requests coalesce: however many arrive, and from whomever,
    while an answer is being applied, they only leave the pending mark; the
    completion then starts exactly one new dance and clears the mark. *)
Theorem renegotiations_coalesce (s : driver) (ins : list off_input) (r : string) :
  state_ s = kSettingRemote → initial_renegotiation_consumed_ s = true →
  forallb is_request ins = true → ins ≠ [] →
  let m := run off_handle ins ;; HopHandleSetRemoteDescriptionComplete true r in
  state_ (exec m s) = kCreatingOffer ∧ pending_renegotiation_ (exec m s) = false ∧
  posted (events m s) = [mkOp OpCreateOffer (weak_factory_ s)].
Proof.
  intros Hs Hc Hr Hn. cbv zeta. unfold exec, events, mbind, eff_bind.
  rewrite requests_coalesce by auto.
  rewrite SetRemote_ok_run by done. simpl. split_and!; [done | done |].
  unfold answered_events. simpl. unfold posted. rewrite !omap_app.
  assert (omap op_of (omap (ice_task (W := W) (E := E) (pc_ s)) (pending_remote_ice_ s)) = []) as ->.
  { induction (pending_remote_ice_ s) as [|p l IH]; [done|]. simpl. unfold ice_task at 1.
    destruct (is_end_of_candidates p); [done|]. by destruct (CreateIceCandidate _ _ _). }
  by destruct (was_in_ice_flight_once_ s), (observer_ s).
Qed.

(** An answer that overtakes our own SetLocalDescription is not lost: it is
    buffered, and once the local description is set the driver is where it
    would be had the answer arrived afterwards (an unparseable one fails it in
    both orders), with the same tasks posted. *)
Theorem early_answer_equivalent (s : driver) (env : Envelope) (text r : string) :
  state_ s = kSettingLocal → pending_early_answer_sdp_ s = None →
  env_type env = kAnswer → answer_sdp env = Some text →
  (OnEnvelope env ;; HopHandleSetLocalDescriptionComplete true r) s =
  (HopHandleSetLocalDescriptionComplete true r ;; OnEnvelope (E := E) env) s.
Proof.
  intros Hs He Ht Ha.
  destruct s as [ws ob pc ice early st ini ren td once ans con pl w made]. simpl in Hs, He. subst.
  destruct env as [ty fr [|p| |]]; unfold answer_sdp in Ha; simpl in Ht, Ha; try done. subst ty.
  destruct (String.eqb (sdp p) "") eqn:Hp; [done|]. injection Ha as <-.
  unfold OnEnvelope, HopHandleSetLocalDescriptionComplete, HandleAnswerEnvelope, answer_sdp.
  eval_driver. cbn [env_type env_data sdp]. eval_driver. cbn [env_type env_data sdp].
  rewrite !Hp. eval_driver. rewrite ?Hp. eval_cases; done.
Qed.

(** An offer created before the transport is up waits for it: whichever of
    the creation and the connection comes second, the offer goes out then, and
    the driver ends in the same state with the same events. *)
Theorem offer_waits_for_transport (s : driver) (type text : string) (ty : SdpType)
    (d : SessionDescription) :
  state_ s = kCreatingOffer → ws_connected_ s = false → pending_local_offer_ s = None →
  SdpTypeFromString type = Some ty → CreateSessionDescription ty text = Some d →
  events (HopHandleCreateOfferSuccess (E := E) type text) s = [] ∧
  (HopHandleCreateOfferSuccess type text ;; OnConnected) s =
    (OnConnected ;; HopHandleCreateOfferSuccess (E := E) type text) s.
Proof.
  intros Hs Hc Hp Hty Hd. destruct s as [ws ob pc ice early st ini ren td once ans con pl w made].
  simpl in *. subst. unfold HopHandleCreateOfferSuccess, OnConnected, events. rewrite Hty, Hd.
  split; [done|]. eval_cases; done.
Qed.

(** A remote candidate cannot end the session: a well-formed [ice] envelope
    leaves the state as it was and posts at most an AddIceCandidate, whether or
    not the candidate parses. *)
Theorem remote_ice_is_harmless (s : driver) (env : Envelope) :
  env_wf env = true → env_type env = kIce →
  state_ (exec (OnEnvelope (E := E) env) s) = state_ s ∧
  Forall (λ ev : event, ∃ pc c, ev = PostAddIceCandidate pc c) (events (OnEnvelope env) s).
Proof.
  intros Hw Ht. destruct env as [ty fr [|p|p|raw]]; simpl in Ht; subst ty; try done.
  enough (let '(_, s', evs) := OnEnvelope (E := E) (mkEnvelope kIce fr (Ice p)) s in
    state_ s' = state_ s ∧ Forall (λ ev : event, ∃ pc c, ev = PostAddIceCandidate pc c) evs) as H
    by (unfold exec, events; by destruct (OnEnvelope _ s) as [[? ?] ?]).
  destruct s as [ws ob pc ice early st ini ren td once ans con pl w made].
  unfold OnEnvelope, HandleIceEnvelope, QueueRemoteIceCandidate. cbn [env_type env_data].
  destruct st; eval_cases; split; simpl; rewrite ?Forall_singleton; eauto using Forall_nil.
Qed.

(** A live viewer that asks for a fresh description is renegotiated with,
    never handed a new session: in a reachable IceInFlight state the offer has
    been answered, and the request starts one dance. *)
Theorem viewer_request_renegotiates (t : T) (ob : bool) (s : system) (tr : list event)
    (env : Envelope) :
  reachable sys_enabled sys_handle (sys_init t ob) s tr →
  state_ (drv s) = kIceInFlight → env_type env = kRequestRenegotiate →
  current_offer_answered_ (drv s) = true ∧
  state_ (exec (OnEnvelope (E := E) env) (drv s)) = kCreatingOffer ∧
  events (OnEnvelope env) (drv s) =
    ((if observer_ (drv s) then [ObsOnRenegotiationStarted "remote"] else []) ++
     [PostCreateOffer (E := E) (pc_ (drv s)) (weak_factory_ (drv s))])%list.
Proof.
  intros Hr Hs Ht. pose proof (inv_base _ (sys_reachable_inv t ob s tr Hr)) as Hb.
  unfold base in Hb. rewrite Hs in Hb. destruct_and! Hb. split; [done|].
  destruct (drv s) as [ws obs pc ice early st ini ren td once ans con pl w made]. simpl in *. subst.
  destruct env as [ty fr da]. simpl in Ht. subst ty.
  unfold exec, events, OnEnvelope. cbn [env_type]. eval_driver. by destruct obs.
Qed.

Definition answer_envelope (text : string) : Envelope :=
  mkEnvelope kAnswer kClient (Sdp (mkSdpPayload "answer" text)).

(** One session, from the start of the driver to the answer applied. *)
Definition dance_start : list (sys_input (T := T)) :=
  [SysInput InConnected; SysInput (InStart PcOk); SysInput InRenegotiationNeeded].
Definition dance_answer (answer : string) : list (sys_input (T := T)) :=
  [SysComplete 0 CompOk; SysInput (InEnvelope (answer_envelope answer)); SysComplete 0 CompOk].
Definition dance (type text answer : string) : list (sys_input (T := T)) :=
  (dance_start ++ [SysComplete 0 (CompOffer type text)] ++ dance_answer answer)%list.

(** The driver once its PeerConnection exists and its first offer is asked for,
    and once that offer is out. *)
Definition offering (t : T) (ob : bool) : driver :=
  (CbOffererDriver t ob) <| ws_connected_ := true |> <| state_ := kCreatingOffer |>
    <| pc_ := Some 0%nat |> <| pcs_made := 1%nat |> <| initial_renegotiation_consumed_ := true |>.

Lemma offer_sent_run (s : driver) type text ty d t' es :
  state_ s = kCreatingOffer → ws_connected_ s = true →
  SdpTypeFromString type = Some ty → CreateSessionDescription ty text = Some d →
  transport_Send (offer_envelope d) (ws_client_ s) = (true, t', es) →
  HopHandleCreateOfferSuccess type text s =
    (tt, s <| ws_client_ := t' |> <| state_ := kSettingLocal |>,
     ((Wire <$> es) ++ [Sent (offer_envelope d) true;
        PostSetLocalDescription (pc_ s) d (weak_factory_ s)])%list).
Proof.
  intros Hs Hc Hty Hd Hsend.
  unfold HopHandleCreateOfferSuccess, EmitOfferAndSetLocal, SendOfferEnvelope, ws_Send.
  fold (offer_envelope d). run_eff. rewrite Hs, Hty, Hd, Hc. simpl. fold (offer_envelope d).
  rewrite Hsend. simpl. rewrite Hs. simpl. by rewrite app_nil_r, <-app_assoc.
Qed.

Lemma offer_created (t t' : T) es ob type text ty d :
  SdpTypeFromString type = Some ty → CreateSessionDescription ty text = Some d →
  transport_Send (offer_envelope d) t = (true, t', es) →
  sys_handle (SysComplete 0 (CompOffer type text))
      (mkSys (offering t ob) [mkOp OpCreateOffer 0]) =
    (tt, mkSys ((offering t' ob) <| state_ := kSettingLocal |>) [mkOp OpSetLocal 0],
     ((Wire <$> es) ++ [Sent (offer_envelope d) true; PostSetLocalDescription (Some 0%nat) d 0])%list).
Proof.
  intros Hty Hd Hsend.
  assert (complete (mkOp OpCreateOffer 0) (CompOffer type text) (offering t ob) =
    HopHandleCreateOfferSuccess type text (offering t ob)) as Hc.
  { unfold complete. by rewrite get_run. }
  rewrite (offer_sent_run _ type text ty d t' es) in Hc by done.
  unfold sys_handle. simpl. unfold sys_run, exec, events. cbn [drv]. rewrite Hc. simpl.
  by rewrite posted_app, posted_wire.
Qed.

Lemma answer_applied (t : T) ob answer a :
  CreateSessionDescription SdpType_kAnswer answer = Some a → answer ≠ "" →
  let s := mkSys ((offering t ob) <| state_ := kSettingLocal |>) [mkOp OpSetLocal 0] in
  all_enabled sys_enabled sys_handle (dance_answer answer) s = true ∧
  state_ (drv (exec (run sys_handle (dance_answer answer)) s)) = kIceInFlight ∧
  ops (exec (run sys_handle (dance_answer answer)) s) = [] ∧
  strip (events (run sys_handle (dance_answer answer)) s) =
    [PostSetRemoteDescription (E := E) (Some 0%nat) a 0].
Proof.
  intros Ha Hne. apply String.eqb_neq in Hne. cbv zeta.
  eval_sys. rewrite Hne. eval_sys. rewrite Ha. eval_sys. done.
Qed.

(** C9. The dance completes: on a transport that accepts the offer, with
    descriptions that parse, the driver takes the session from Idle to
    IceInFlight and performs exactly the protocol: create the offer, send it,
    then set it locally, and set the answer remotely. *)
Theorem dance_completes (t t' : T) (es : list E) (ob : bool) (type text answer : string)
    (ty : SdpType) (d a : SessionDescription) :
  SdpTypeFromString type = Some ty → CreateSessionDescription ty text = Some d →
  CreateSessionDescription SdpType_kAnswer answer = Some a → answer ≠ "" →
  transport_Send (offer_envelope d) t = (true, t', es) →
  let m := run sys_handle (dance type text answer) in
  all_enabled sys_enabled sys_handle (dance type text answer) (sys_init t ob) = true ∧
  state_ (drv (exec m (sys_init t ob))) = kIceInFlight ∧ ops (exec m (sys_init t ob)) = [] ∧
  strip (events m (sys_init t ob)) =
    [PostCreateOffer (Some 0%nat) 0; Sent (offer_envelope d) true;
     PostSetLocalDescription (Some 0%nat) d 0; PostSetRemoteDescription (Some 0%nat) a 0].
Proof.
  intros Hty Hd Ha Hne Hsend. cbv zeta.
  assert (all_enabled sys_enabled sys_handle dance_start (sys_init t ob) = true ∧
    exec (run sys_handle dance_start) (sys_init t ob) = mkSys (offering t ob) [mkOp OpCreateOffer 0] ∧
    events (run sys_handle dance_start) (sys_init t ob) = [PostCreateOffer (E := E) (Some 0%nat) 0])
    as (F1 & F2 & F3) by done.
  destruct (answer_applied t' ob answer a Ha Hne) as (G1 & G2 & G3 & G4).
  unfold dance. rewrite !all_enabled_app, F1.
  destruct (run_app sys_handle dance_start ([SysComplete 0 (CompOffer type text)] ++
    dance_answer answer)%list (sys_init t ob)) as [-> ->].
  rewrite F2, F3.
  destruct (run_app sys_handle [SysComplete 0 (CompOffer type text)] (dance_answer answer)
    (mkSys (offering t ob) [mkOp OpCreateOffer 0])) as [-> ->].
  assert (run sys_handle [SysComplete 0 (CompOffer type text)]
      (mkSys (offering t ob) [mkOp OpCreateOffer 0]) =
    (tt, mkSys ((offering t' ob) <| state_ := kSettingLocal |>) [mkOp OpSetLocal 0],
     (Wire <$> es) ++ [Sent (offer_envelope d) true; PostSetLocalDescription (Some 0) d 0])%list)
    as H4 by (rewrite run_one; by apply (offer_created t t' es ob type text ty d)).
  assert (exec (run sys_handle [SysComplete 0 (CompOffer type text)])
      (mkSys (offering t ob) [mkOp OpCreateOffer 0]) =
    mkSys ((offering t' ob) <| state_ := kSettingLocal |>) [mkOp OpSetLocal 0]) as ->
    by (unfold exec; by rewrite H4).
  assert (events (run sys_handle [SysComplete 0 (CompOffer type text)])
      (mkSys (offering t ob) [mkOp OpCreateOffer 0]) =
    (Wire <$> es) ++ [Sent (offer_envelope d) true; PostSetLocalDescription (Some 0) d 0])%list as ->
    by (unfold events; by rewrite H4).
  split_and!; [by rewrite G1 | exact G2 | exact G3 |].
  rewrite !strip_app, strip_wire, G4. done.
Qed.

Definition is_failed (ev : event) : bool :=
  match ev with ObsOnFailed _ => true | _ => false end.

(** Closing a live session, and what a completion then does. *)
Lemma close_run reason (d : driver) :
  base d → terminal (state_ d) = false →
  let '(_, d', evs) := Close (E := E) reason d in
  state_ d' = kClosed ∧ weak_factory_ d' = weak_factory_ d ∧ observer_ d' = observer_ d ∧
  posted (strip evs) = [] ∧ closes (strip evs) = Nat.b2n (observer_ d) ∧ base d'.
Proof.
  intros Hb Ht. unfold Close. open_driver Hb; try done; eval_cases;
    rewrite ?strip_app, ?strip_wire; unfold base, closes; simpl; auto 10.
Qed.

Lemma late_completion_reports o c (d : driver) :
  state_ d = kClosed → op_weak o = weak_factory_ d → comp_fits o c = true →
  observer_ d = true →
  let '(_, d', evs) := complete (E := E) o c d in
  state_ d' = kFailed ∧ existsb is_failed evs = true.
Proof.
  intros Hs Hw Hf Hob. destruct o as [k w0].
  destruct d as [ws ob pc ice early st ini ren td once ans con pl w made]. simpl in *. subst.
  unfold complete, HopHandleSetRemoteDescriptionComplete. rewrite get_run. cbn [op_weak kind weak_factory_].
  rewrite Nat.eqb_refl. unfold comp_fits in Hf. cbn [kind] in *.
  destruct k, c as [type text| |why]; try done; eval_cases; done.
Qed.

(** Closing in the middle of a dance is not final: the operation that was
    in flight completes into the closed driver, which reports a failure after
    it reported the close, and re-arming is refused from then on. *)
Theorem late_completion_fails_closed (s : system) (o : op) (c : completion)
    (reason : string) (b : bool) :
  sys_inv s → ops s = [o] → kind <$> live s = [kind o] → terminal (state_ (drv s)) = false →
  comp_fits o c = true → observer_ (drv s) = true →
  let s1 := exec (sys_handle (SysInput (InClose reason))) s in
  let s2 := exec (sys_handle (SysComplete 0 c)) s1 in
  closes (events (sys_handle (SysInput (InClose reason))) s) = 1%nat ∧
  existsb is_failed (events (sys_handle (SysComplete 0 c)) s1) = true ∧
  state_ (drv s2) = kFailed ∧ result (Rearm (E := E) b) (drv s2) = false.
Proof.
  intros Hi Ho Hl Ht Hf Hob. cbv zeta.
  assert (op_weak o = weak_factory_ (drv s)) as Hw.
  { unfold live in Hl. rewrite Ho in Hl. destruct (decide (op_weak o = weak_factory_ (drv s)));
      [done|]. by rewrite filter_cons_False in Hl. }
  pose proof (close_run reason (drv s) (inv_base s Hi) Ht) as Hc.
  destruct (strip_facts (events (Close reason) (drv s))) as (P1 & _ & _ & _ & P2).
  unfold exec, events in *. simpl. unfold sys_run, exec, events.
  destruct (Close reason (drv s)) as [[? d1] es1]. simpl in *.
  destruct Hc as (C1 & C2 & C3 & C4 & C5 & _). rewrite Hob in C3, C5. rewrite <-P1, C4, Ho. simpl.
  pose proof (late_completion_reports o c d1 C1 ltac:(congruence) Hf C3) as Hd.
  destruct (complete o c d1) as [[? d2] es2]. simpl. destruct Hd as [D1 D2].
  split_and!; [by rewrite <-P2 | done | done |].
  unfold result, Rearm. rewrite get_run. by rewrite D1.
Qed.

(** A duplicate of the previous answer is taken for the answer to the next
    offer: redelivered while a renegotiation is creating its offer, it is
    buffered, and applied to the new local description once that is set. *)
Theorem duplicate_answer_reaches_new_offer (s : driver) (text old type r : string)
    (ty : SdpType) (d a : SessionDescription) :
  state_ s = kIceInFlight → ws_connected_ s = true → old ≠ "" →
  CreateSessionDescription SdpType_kAnswer old = Some a →
  SdpTypeFromString type = Some ty → CreateSessionDescription ty text = Some d →
  result (transport_Send (offer_envelope d)) (ws_client_ s) = true →
  let m := RequestRenegotiation ;; OnEnvelope (answer_envelope old) ;;
    HopHandleCreateOfferSuccess type text ;; HopHandleSetLocalDescriptionComplete true r in
  state_ (exec m s) = kSettingRemote ∧
  PostSetRemoteDescription (pc_ s) a (weak_factory_ s) ∈ events m s.
Proof.
  intros Hs Hc Hne Ha Hty Hd Hsend. cbv zeta. apply String.eqb_neq in Hne.
  unfold result in Hsend.
  destruct (transport_Send (offer_envelope d) (ws_client_ s)) as [[ok t'] es] eqn:Hse.
  simpl in Hsend. subst ok.
  set (s1 := s <| state_ := kCreatingOffer |> <| current_offer_answered_ := false |>).
  set (s2 := s1 <| pending_early_answer_sdp_ := Some old |>).
  assert (∃ evs : list event, RequestRenegotiation s = (tt, s1, evs)) as [e1 R1].
  { unfold RequestRenegotiation, BeginRenegotiation, observe. run_eff. rewrite Hs. simpl. rewrite ?Hs. simpl.
    destruct (observer_ s); simpl; by eexists. }
  assert (OnEnvelope (E := E) (answer_envelope old) s1 = (tt, s2, [])) as R2.
  { unfold OnEnvelope, HandleAnswerEnvelope, answer_sdp. run_eff. by rewrite Hne. }
  pose proof (offer_sent_run s2 type text ty d t' es eq_refl Hc Hty Hd Hse) as R3.
  set (s3 := s2 <| ws_client_ := t' |> <| state_ := kSettingLocal |>) in R3.
  assert (HopHandleSetLocalDescriptionComplete true r s3 =
    (tt, s3 <| pending_early_answer_sdp_ := None |> <| state_ := kSettingRemote |>,
     [PostSetRemoteDescription (E := E) (pc_ s) a (weak_factory_ s)])) as R4.
  { unfold HopHandleSetLocalDescriptionComplete, HandleAnswerEnvelope, answer_sdp. run_eff.
    rewrite Hne, Ha. done. }
  unfold exec, events, mbind, eff_bind. rewrite R1, R2, R3, R4. split; [done|].
  cbn [snd]. set_solver.
Qed.

(** No input resets the connection gate. *)
Lemma keeps_connected (i : off_input) (s : driver) :
  ws_connected_ s = true → ws_connected_ (exec (off_handle (E := E) i) s) = true.
Proof.
  intros Hc.
  enough (let '(_, s', _) := off_handle (E := E) i s in ws_connected_ s' = true) as H
    by (unfold exec; by destruct (off_handle i s) as [[? ?] ?]).
  destruct s as [ws ob pc ice early st ini ren td once ans con pl w made]. simpl in Hc. subst.
  destruct i; destruct st; eval_cases; done.
Qed.

(** The connection gate never closes again: after a transport drop an
    offer that is ready is not kept for the reconnection but sent into the dead
    transport, and the session fails. *)
Theorem offer_during_outage_fails (s : driver) (text type : string) (ty : SdpType)
    (d : SessionDescription) (i : off_input) :
  SdpTypeFromString type = Some ty → CreateSessionDescription ty text = Some d →
  ws_connected_ s = true →
  ws_connected_ (exec (off_handle (E := E) i) s) = true ∧
  (state_ s = kCreatingOffer → result (transport_Send (offer_envelope d)) (ws_client_ s) = false →
   state_ (exec (HopHandleCreateOfferSuccess (E := E) type text) s) = kFailed).
Proof.
  intros Hty Hd Hc. split.
  - apply keeps_connected, Hc.
  - intros Hs Hr. unfold exec, HopHandleCreateOfferSuccess, EmitOfferAndSetLocal,
      SendOfferEnvelope, ws_Send. fold (offer_envelope d).
    run_eff. rewrite Hs, Hty, Hd, Hc. simpl. fold (offer_envelope d). rewrite Hr. simpl.
    unfold FailWithReason, ClosePcOnSignalingThread, observe. run_eff.
    destruct (pc_ s); simpl; by destruct (observer_ s).
Qed.
End properties.

(** ** Witnesses *)

(** Descriptions are their text; every candidate parses; a transport that is up
    or down and records nothing. *)
#[local] Instance demo_webrtc : WebRtc := {|
  SessionDescription := string;
  RemoteCandidate := string;
  SdpType := string;
  SdpType_kAnswer := "answer";
  SdpTypeFromString s := Some s;
  CreateSessionDescription _ text := Some text;
  DescriptionToString d := d;
  CreateIceCandidate _ _ c := Some c;
|}.
#[local] Instance demo_transport : SignalingTransport bool unit := {|
  transport_Send _ := λ up : bool, (up, up, []);
  frame_of _ := None;
|}.

Abbreviation d0 := (sys_init true true).
Abbreviation demo ins := (run sys_handle ins).
(** The offer is set locally; a candidate is gathered. *)
Definition to_setting_local : list (sys_input (T := bool)) :=
  (dance_start ++ [SysComplete 0 (CompOffer "offer" "v=0 o")])%list.
Definition with_candidate : list (sys_input (T := bool)) :=
  (to_setting_local ++ [SysInput (InIceCandidate (mkLocalCandidate (Some "cand") "0" 0))])%list.

Lemma offerer_operation_matches_state_witness :
  kind <$> live (exec (demo to_setting_local) d0) = [OpSetLocal].
Proof.
  refine (offerer_operation_matches_state true true (exec (demo to_setting_local) d0)
    (events (demo to_setting_local) d0) _ _).
  - apply run_reachable. vm_compute. reflexivity.
  - vm_compute. reflexivity.
Defined.

Lemma offerer_tasks_have_pc_witness :
  forallb has_pc (events (demo to_setting_local) d0) = true.
Proof.
  apply (offerer_tasks_have_pc true true (exec (demo to_setting_local) d0)).
  apply run_reachable. vm_compute. reflexivity.
Defined.

Lemma offerer_offer_before_candidates_witness :
  existsb is_candidate (events (demo with_candidate) d0) = true ∧
  offers_first false (events (demo with_candidate) d0) = true.
Proof.
  split; [vm_compute; reflexivity|].
  apply (offerer_offer_before_candidates true true (exec (demo with_candidate) d0)).
  apply run_reachable. vm_compute. reflexivity.
Defined.

Lemma offerer_close_reported_once_witness :
  let ins := [SysInput (InClose "done"); SysInput (InEnvelope (mkEnvelope kBye kClient Monostate));
              SysInput (InClosed 1006 "")] in
  (closes (events (demo ins) (exec (demo to_setting_local) d0)) ≤ 1)%nat.
Proof.
  refine (proj1 (offerer_close_reported_once true true (exec (demo to_setting_local) d0)
    (events (demo to_setting_local) d0) _ _ _ _)); try (vm_compute; reflexivity).
  apply run_reachable. vm_compute. reflexivity.
Defined.

Lemma rearm_isolates_sessions_witness :
  let d := exec (Rearm false) (drv (exec (demo to_setting_local) d0)) in
  state_ d = kIdle ∧ complete (mkOp OpSetLocal 0) CompOk d = (tt, d, []).
Proof.
  pose proof (rearm_isolates_sessions (exec (demo to_setting_local) d0) false) as H.
  destruct H as (_ & H1 & _ & _ & _ & _ & _ & _ & _ & _ & H2).
  - apply (sys_reachable_inv true true _ (events (demo to_setting_local) d0)).
    apply run_reachable. vm_compute. reflexivity.
  - vm_compute. discriminate.
  - vm_compute. discriminate.
  - split; [exact H1|]. apply H2. vm_compute. left.
Defined.

Definition setting_remote : off (T := bool) :=
  (CbOffererDriver true true) <| state_ := kSettingRemote |> <| pc_ := Some 0%nat |>
    <| initial_renegotiation_consumed_ := true |> <| ws_connected_ := true |>.

Lemma renegotiations_coalesce_witness :
  posted (events (run off_handle
      [InRequestRenegotiation; InRenegotiationNeeded;
       InEnvelope (mkEnvelope kRequestRenegotiate kClient Monostate)] ;;
    HopHandleSetRemoteDescriptionComplete true "") setting_remote) = [mkOp OpCreateOffer 0].
Proof.
  refine (proj2 (proj2 (renegotiations_coalesce setting_remote
    [InRequestRenegotiation; InRenegotiationNeeded;
     InEnvelope (mkEnvelope kRequestRenegotiate kClient Monostate)] "" _ _ _ _)));
    [reflexivity | reflexivity | reflexivity | discriminate].
Defined.

Lemma early_answer_equivalent_witness :
  let s := setting_remote <| state_ := kSettingLocal |> in
  (OnEnvelope (answer_envelope "v=0 a") ;; HopHandleSetLocalDescriptionComplete true "") s =
  (HopHandleSetLocalDescriptionComplete true "" ;; OnEnvelope (answer_envelope "v=0 a")) s.
Proof.
  apply (early_answer_equivalent (setting_remote <| state_ := kSettingLocal |>)
    (answer_envelope "v=0 a") "v=0 a" ""); reflexivity.
Defined.

Lemma offer_waits_for_transport_witness :
  let s := setting_remote <| state_ := kCreatingOffer |> <| ws_connected_ := false |> in
  (HopHandleCreateOfferSuccess "offer" "v=0 o" ;; OnConnected) s =
    (OnConnected ;; HopHandleCreateOfferSuccess "offer" "v=0 o") s.
Proof.
  refine (proj2 (offer_waits_for_transport
    (setting_remote <| state_ := kCreatingOffer |> <| ws_connected_ := false |>) "offer" "v=0 o"
    "offer" "v=0 o" _ _ _ _ _)); reflexivity.
Defined.

Definition bad_candidate : Envelope :=
  mkEnvelope kIce kClient (Ice (mkIceCandidatePayload false "not a candidate" None None None)).
Lemma remote_ice_is_harmless_witness :
  state_ (exec (OnEnvelope bad_candidate) (setting_remote <| state_ := kIceInFlight |>))
    = kIceInFlight.
Proof.
  refine (proj1 (remote_ice_is_harmless (setting_remote <| state_ := kIceInFlight |>)
    bad_candidate _ _)); reflexivity.
Defined.

Lemma viewer_request_renegotiates_witness :
  current_offer_answered_ (drv (exec (demo (dance "offer" "v=0 o" "v=0 a")) d0)) = true.
Proof.
  refine (proj1 (viewer_request_renegotiates true true
    (exec (demo (dance "offer" "v=0 o" "v=0 a")) d0)
    (events (demo (dance "offer" "v=0 o" "v=0 a")) d0)
    (mkEnvelope kRequestRenegotiate kClient Monostate) _ _ _)); try (vm_compute; reflexivity).
  apply run_reachable. vm_compute. reflexivity.
Defined.

Lemma dance_completes_witness :
  state_ (drv (exec (demo (dance "offer" "v=0 o" "v=0 a")) d0)) = kIceInFlight.
Proof.
  refine (proj1 (proj2 (dance_completes true true [] true "offer" "v=0 o" "v=0 a" "offer"
    "v=0 o" "v=0 a" _ _ _ _ _))); [reflexivity | reflexivity | reflexivity | discriminate | reflexivity].
Defined.

Lemma late_completion_fails_closed_witness :
  let s1 := exec (sys_handle (SysInput (InClose "viewer left"))) (exec (demo to_setting_local) d0) in
  state_ (drv (exec (sys_handle (SysComplete 0 CompOk)) s1)) = kFailed.
Proof.
  refine (proj1 (proj2 (proj2 (late_completion_fails_closed (exec (demo to_setting_local) d0)
    (mkOp OpSetLocal 0) CompOk "viewer left" true _ _ _ _ _ _)))); try (vm_compute; reflexivity).
  apply (sys_reachable_inv true true _ (events (demo to_setting_local) d0)).
  apply run_reachable. vm_compute. reflexivity.
Defined.

Lemma duplicate_answer_reaches_new_offer_witness :
  let s := setting_remote <| state_ := kIceInFlight |> in
  let m := RequestRenegotiation ;; OnEnvelope (answer_envelope "v=0 old") ;;
    HopHandleCreateOfferSuccess "offer" "v=0 new" ;; HopHandleSetLocalDescriptionComplete true "" in
  state_ (exec m s) = kSettingRemote.
Proof.
  refine (proj1 (duplicate_answer_reaches_new_offer (setting_remote <| state_ := kIceInFlight |>)
    "v=0 new" "v=0 old" "offer" "" "offer" "v=0 new" "v=0 old" _ _ _ _ _ _ _));
    solve [reflexivity | discriminate].
Defined.

Lemma offer_during_outage_fails_witness :
  let s := setting_remote <| state_ := kCreatingOffer |> <| ws_client_ := false |> in
  state_ (exec (HopHandleCreateOfferSuccess "offer" "v=0 o") s) = kFailed.
Proof.
  refine (proj2 (offer_during_outage_fails
    (setting_remote <| state_ := kCreatingOffer |> <| ws_client_ := false |>)
    "v=0 o" "offer" "offer" "v=0 o" (InError "broker closed") _ _ _) _ _); reflexivity.
Defined.
