(* ===== verification/IceConfig.v ===== *)
(** * The ICE configuration loader (capture/signaling/cb_ice_config.{h,cc})

    Servers from the JSON of [WEBRTC_ICE_SERVERS], transport policy from
    [WEBRTC_ICE_TRANSPORT_POLICY], counts for the start-up log; the fallback is
    one STUN server.  Environment values are an argument, the JSON reader is
    the parameter [JsonCodec]. *)

From stdpp Require Import base tactics list strings.
From Stdlib Require Import ZArith Lia String Ascii.
From S2P Require Import Prelude Values.
Open Scope string_scope.

(** ** Data *)

(** [webrtc::PeerConnectionInterface::IceServer]. *)
Record IceServer := mkIceServer {
  urls : list string;
  username : string;
  password : string;
}.
#[export] Instance eta_IceServer : Eta IceServer := λ s,
  mkIceServer (urls s) (username s) (password s).
#[export] Instance IceServer_eq_dec : EqDecision IceServer.
Proof. solve_decision. Defined.

Inductive IceTransportsType := kRelay | kAll.

Record Summary := mkSummary { stun : nat; turn : nat; other : nat }.
#[export] Instance eta_Summary : Eta Summary := λ s, mkSummary (stun s) (turn s) (other s).

Record IceConfig := mkIceConfig {
  servers : list IceServer;
  transport_policy : IceTransportsType;
  summary : Summary;
}.

Definition kDefaultStunUrl : string := "stun:stun.l.google.com:19302".

(** ** Operations *)

Definition GetEnv (env : string → option string) (name : string) : string :=
  default "" (env name).

Definition AsciiLower (s : string) : string := str_map ascii_lower s.

Definition GetIfString (v : Value) : option string :=
  match v with VString s => Some s | _ => None end.

(** The usable urls of a list: its non-empty strings. *)
Definition url_of (v : Value) : option string :=
  match GetIfString v with
  | Some s => if String.eqb s "" then None else Some s
  | None => None
  end.

Definition set_if_nonempty (v : option string) (f : string → IceServer → IceServer)
    (server : IceServer) : IceServer :=
  match v with
  | Some s => if String.eqb s "" then server else f s server
  | None => server
  end.

Definition TryAppendServer (entry : DictValue) (out : list IceServer) : list IceServer :=
  let found :=
    match Find "urls" entry with
    | None => None
    | Some (VString single) => if String.eqb single "" then None else Some [single]
    | Some (VList l) => match omap url_of l with [] => None | us => Some us end
    | Some _ => None
    end in
  match found with
  | None => out
  | Some us =>
      let server :=
        set_if_nonempty (FindString "credential" entry) (λ s r, r <| password := s |>)
          (set_if_nonempty (FindString "username" entry) (λ s r, r <| username := s |>)
             (mkIceServer us "" "")) in
      (out ++ [server])%list
  end.

Section loader.
Context {J : JsonCodec}.

Definition ParseIceServersJson (raw_json : string) : option (list IceServer) :=
  if String.eqb raw_json "" then None
  else
    match JSONReader_Read raw_json with
    | None => None
    | Some parsed =>
        let candidate :=
          match parsed with
          | VList l => Some l
          | VDict d => FindList "iceServers" d
          | _ => None
          end in
        match candidate with
        | None => None
        | Some l =>
            let servers :=
              foldl (λ out entry,
                match entry with VDict d => TryAppendServer d out | _ => out end) [] l in
            match servers with [] => None | _ => Some servers end
        end
    end.

Definition ParseIceTransportPolicy (raw : string) : IceTransportsType :=
  if String.eqb (AsciiLower raw) "relay" then kRelay else kAll.

Definition BuildDefaultIceServers : list IceServer := [mkIceServer [kDefaultStunUrl] "" ""].

Definition count_url (out : Summary) (url : string) : Summary :=
  if String.prefix "stun:" url || String.prefix "stuns:" url
  then out <| stun := S (stun out) |>
  else if String.prefix "turn:" url || String.prefix "turns:" url
  then out <| turn := S (turn out) |>
  else out <| other := S (other out) |>.

Definition SummariseIceServers (servers : list IceServer) : Summary :=
  foldl (λ out server, foldl count_url out (urls server)) (mkSummary 0 0 0) servers.

Definition LoadIceConfigFromEnv (env : string → option string) : option IceConfig :=
  let parsed := ParseIceServersJson (GetEnv env "WEBRTC_ICE_SERVERS") in
  let servers := match parsed with Some l => l | None => BuildDefaultIceServers end in
  Some (mkIceConfig servers
    (ParseIceTransportPolicy (GetEnv env "WEBRTC_ICE_TRANSPORT_POLICY"))
    (SummariseIceServers servers)).

(** ** Lemmas *)

(** A server that libwebrtc can use: some url, none of them empty. *)
Definition usable (s : IceServer) : Prop := urls s ≠ [] ∧ Forall (λ u, u ≠ "") (urls s).

Lemma urls_of_nonempty l : Forall (λ u, u ≠ "") (omap url_of l).
Proof.
  induction l as [|v l IH]; [constructor|]. simpl. destruct v as [| | | |s| |]; simpl; try done.
  unfold url_of at 1. simpl. destruct (String.eqb_spec s ""); [done|]. by constructor.
Qed.

Lemma set_if_nonempty_urls v f server :
  (∀ s r, urls (f s r) = urls r) → urls (set_if_nonempty v f server) = urls server.
Proof. intros Hf. unfold set_if_nonempty. destruct v as [s|]; [|done]. by destruct (String.eqb s ""). Qed.

Lemma TryAppendServer_usable d out :
  Forall usable out → Forall usable (TryAppendServer d out).
Proof.
  intros Ho. unfold TryAppendServer. cbv zeta.
  match goal with |- context [match ?x with None => out | _ => _ end] => destruct x as [us|] eqn:Hx end;
    [|done].
  apply Forall_app. split; [done|]. constructor; [|constructor].
  unfold usable. rewrite !set_if_nonempty_urls by done. simpl.
  destruct (Find "urls" d) as [[| | | |s|l|]|]; try done.
  - destruct (String.eqb_spec s ""); [done|]. injection Hx as <-. split; [done|]. by constructor.
  - pose proof (urls_of_nonempty l) as Hu. destruct (omap url_of l); [done|].
    injection Hx as <-. by split.
Qed.

Lemma ParseIceServersJson_usable raw l :
  ParseIceServersJson raw = Some l → l ≠ [] ∧ Forall usable l.
Proof.
  unfold ParseIceServersJson. destruct (String.eqb raw ""); [done|].
  destruct (JSONReader_Read raw) as [v|]; [|done].
  match goal with |- context [match ?x with None => None | _ => _ end] => destruct x as [es|] end;
    [|done].
  assert (∀ es out, Forall usable out →
    Forall usable (foldl (λ out entry, match entry with VDict d => TryAppendServer d out | _ => out end)
      out es)) as Hf.
  { clear. induction es as [|e es IH]; intros out Ho; [done|]. simpl. apply IH.
    destruct e; try done. by apply TryAppendServer_usable. }
  specialize (Hf es []). destruct (foldl _ [] es); [done|]. intros [= <-]. auto.
Qed.

Lemma count_url_total out u :
  (stun (count_url out u) + turn (count_url out u) + other (count_url out u) =
   S (stun out + turn out + other out))%nat.
Proof. unfold count_url. do 2 (case_match; simpl; [lia|]). lia. Qed.

Lemma summary_total l out :
  (let s := foldl (λ out server, foldl count_url out (urls server)) out l in
   stun s + turn s + other s =
   stun out + turn out + other out + List.length (List.concat (urls <$> l)))%nat.
Proof.
  assert (∀ us out, let s := foldl count_url out us in
    (stun s + turn s + other s = stun out + turn out + other out + List.length us)%nat) as Hu.
  { clear. induction us as [|u us IH]; intros out; simpl; [lia|].
    rewrite IH, count_url_total. lia. }
  revert out. induction l as [|s l IH]; intros out; cbv zeta; [simpl; lia|].
  assert (List.length (List.concat (urls <$> s :: l)) =
    List.length (urls s) + List.length (List.concat (urls <$> l)))%nat as ->
    by (rewrite fmap_cons; apply length_app).
  pose proof (IH (foldl count_url out (urls s))) as H1. pose proof (Hu (urls s) out) as H2.
  cbv zeta in H1, H2. cbn [foldl]. lia.
Qed.

(** Loading never fails and never yields an unusable configuration: whatever
    the environment holds there is at least one server, every server has a url
    and no empty one, the policy is relay exactly for "relay" in any case, and
    the summary counts every url once; without a parsable list the single
    default STUN server is used. *)
Theorem ice_config_usable (env : string → option string) :
  ∃ c, LoadIceConfigFromEnv env = Some c ∧
    servers c ≠ [] ∧ Forall usable (servers c) ∧
    (transport_policy c = kRelay ↔
       str_map ascii_lower (default "" (env "WEBRTC_ICE_TRANSPORT_POLICY")) = "relay") ∧
    (stun (summary c) + turn (summary c) + other (summary c) =
       List.length (List.concat (urls <$> servers c)))%nat ∧
    (ParseIceServersJson (default "" (env "WEBRTC_ICE_SERVERS")) = None →
       servers c = [mkIceServer [kDefaultStunUrl] "" ""]).
Proof.
  unfold LoadIceConfigFromEnv, GetEnv, ParseIceTransportPolicy, AsciiLower.
  eexists. split; [reflexivity|]. simpl.
  set (raw := default "" (env "WEBRTC_ICE_SERVERS")).
  assert (∀ l : list IceServer,
    (stun (SummariseIceServers l) + turn (SummariseIceServers l) + other (SummariseIceServers l) =
     List.length (List.concat (urls <$> l)))%nat) as Hsum by (intros l; apply summary_total).
  assert (∀ p, (if String.eqb p "relay" then kRelay else kAll) = kRelay ↔ p = "relay") as Hpol.
  { intros p. destruct (String.eqb_spec p "relay"); naive_solver. }
  destruct (ParseIceServersJson raw) as [l|] eqn:Hp.
  - apply ParseIceServersJson_usable in Hp as [Hne Hu]. by split_and!.
  - split_and!; auto; try discriminate; repeat constructor; discriminate.
Qed.
End loader.
