(* ===== verification/DcHost.v ===== *)
(** * The data-channel host (capture/signaling/cb_dc_host.{h,cc})

    One host per peer connection owns the six labelled data channels.  It
    creates them, forwards the library's callbacks to the observer bound to a
    label and to the session's observer, and sends text and binary frames.

    Every operation runs its body on the signalling thread in one blocking
    call, so an execution is a sequence of inputs.  [data_channel]s belong to
    libwebrtc: the inputs [DcMoves] (the channel's state changes) and
    [DcQueues] (its send buffer drains or fills) are steps of that library;
    the callback [DcStateChange] comes later and reads the state of its own
    moment.  [SendAsync] posts a task, run by [RunPosted]. *)

From Stdlib Require Import ZArith Lia String Ascii.
From stdpp Require Import finite functions base tactics list strings.
From S2P Require Import Prelude.
Open Scope string_scope.

(** ** Data *)

Inductive CbDcLabel := kInput | kStats | kCursor | kClipboard | kFiles | kControl.
#[export] Instance CbDcLabel_eq_dec : EqDecision CbDcLabel.
Proof. solve_decision. Defined.

(** The labels in the order of their enumerators, as the arrays index them. *)
Definition all_labels : list CbDcLabel := [kInput; kStats; kCursor; kClipboard; kFiles; kControl].
#[export] Instance CbDcLabel_finite : Finite CbDcLabel.
Proof.
  refine {| enum := all_labels |}.
  - by apply (bool_decide_unpack _).
  - by intros []; apply (bool_decide_unpack _).
Defined.

(** [webrtc::DataChannelInterface::DataState]. *)
Inductive DataState := DcConnecting | DcOpen | DcClosing | DcClosed.
#[export] Instance DataState_eq_dec : EqDecision DataState.
Proof. solve_decision. Defined.

(** [webrtc::RTCError]: success, or a type and a message. *)
Inductive RTCErrorType := INVALID_STATE | LIBRARY_ERROR.
Inductive RTCError := OK | Err (type : RTCErrorType) (message : string).
Definition ok (e : RTCError) : bool := match e with OK => true | _ => false end.
Definition message (e : RTCError) : string := match e with OK => "" | Err _ m => m end.

(** The part of libwebrtc's channel object the host reads. *)
Record data_channel := mkDc { dc_state : DataState; dc_buffered : N }.

Record ChannelSlot := mkSlot {
  dc : option data_channel;
  trampoline : bool;
  ever_opened : bool;
}.
#[export] Instance eta_ChannelSlot : Eta ChannelSlot := λ s,
  mkSlot (dc s) (trampoline s) (ever_opened s).
Definition empty_slot : ChannelSlot := mkSlot None false false.

(** Consumer observers are identified by a number. *)
Definition observer := nat.

Record host := mkHost {
  host_observer : bool;
  bound_observers : CbDcLabel → option observer;
  slots : CbDcLabel → ChannelSlot;
  all_open_latched : bool;
  create_called : bool;
  posted : list (CbDcLabel * string * option nat);
}.
#[export] Instance eta_host : Eta host := λ s,
  mkHost (host_observer s) (bound_observers s) (slots s) (all_open_latched s)
    (create_called s) (posted s).

Inductive event :=
| ChannelCreated (l : CbDcLabel)
| ChannelClose (l : CbDcLabel)
| Frame (l : CbDcLabel) (binary : bool) (payload : string)
| ToConsumer (o : observer) (l : CbDcLabel)
| MessageToConsumer (o : observer) (l : CbDcLabel) (binary : bool) (payload : string)
| BufferedToConsumer (o : observer) (l : CbDcLabel) (sent : N)
| HostStateChanged (l : CbDcLabel) (st : DataState)
| HostAllOpen
| Returned (e : RTCError)
| Reply (callback : nat) (r : bool) (msg : string).

(** ** Labels *)

Definition LabelToString (l : CbDcLabel) : string :=
  match l with
  | kInput => "input" | kStats => "stats" | kCursor => "cursor"
  | kClipboard => "clipboard" | kFiles => "files" | kControl => "control"
  end.

Fixpoint find_label (ls : list CbDcLabel) (s : string) : option CbDcLabel :=
  match ls with
  | [] => None
  | l :: ls' => if String.eqb s (LabelToString l) then Some l else find_label ls' s
  end.
Definition LabelFromString (s : string) : option CbDcLabel := find_label all_labels s.

Definition DefaultOutboundLabels : list CbDcLabel :=
  [kInput; kStats; kCursor; kClipboard; kFiles; kControl].

(** ** Operations *)

Definition CbDataChannelHost (observed : bool) : host :=
  mkHost observed (λ _, None) (λ _, empty_slot) false false [].

Definition set_slot (l : CbDcLabel) (sl : ChannelSlot) : eff host event unit :=
  emod (λ s, s <| slots := <[l := sl]> (slots s) |>).

(** The creation loop; [create] is the library's answer for each label. *)
Fixpoint create_channels (create : CbDcLabel → RTCError + data_channel)
    (labels ls : list CbDcLabel) (err : RTCError) : eff host event RTCError :=
  match ls with
  | [] => mret err
  | l :: ls' =>
      if bool_decide (l ∈ labels) then
        match create l with
        | inl e => create_channels create labels ls' (if ok err then e else err)
        | inr d =>
            s ← eget;
            set_slot l (mkSlot (Some d) true (ever_opened (slots s l)));;
            emit (ChannelCreated l);;
            create_channels create labels ls' err
        end
      else create_channels create labels ls' err
  end.

Definition CreateOutboundChannels (create : CbDcLabel → RTCError + data_channel)
    (labels : list CbDcLabel) : eff host event RTCError :=
  s ← eget;
  if create_called s then mret (Err INVALID_STATE "CreateOutboundChannels already called")
  else
    emod (λ s, s <| create_called := true |>);;
    create_channels create labels all_labels OK.

Definition BindObserver (l : CbDcLabel) (o : option observer) : eff host event unit :=
  emod (λ s, s <| bound_observers := <[l := o]> (bound_observers s) |>).

Definition IsOpen (l : CbDcLabel) (s : host) : bool :=
  match dc (slots s l) with
  | Some d => bool_decide (dc_state d = DcOpen)
  | None => false
  end.

Definition AllChannelsOpen (s : host) : bool := all_open_latched s.

Definition GetBufferedAmount (l : CbDcLabel) (s : host) : N :=
  match dc (slots s l) with Some d => dc_buffered d | None => 0%N end.

Definition send_frame (l : CbDcLabel) (binary : bool) (body : string) : eff host event RTCError :=
  s ← eget;
  match dc (slots s l) with
  | None => mret (Err INVALID_STATE "channel not created")
  | Some d =>
      if bool_decide (dc_state d = DcOpen) then
        emit (Frame l binary body);; mret OK
      else mret (Err INVALID_STATE "channel not open")
  end.

Definition Send (l : CbDcLabel) (text : string) : eff host event RTCError := send_frame l false text.
Definition SendBinary (l : CbDcLabel) (buffer : string) : eff host event RTCError := send_frame l true buffer.

(** [callback = None] is a null callback. *)
Definition SendAsync (l : CbDcLabel) (text : string) (callback : option nat) : eff host event unit :=
  emod (λ s, s <| posted := (posted s ++ [(l, text, callback)])%list |>).

(** The signalling thread runs the oldest posted send. *)
Definition RunPosted : eff host event unit :=
  s ← eget;
  match posted s with
  | [] => mret tt
  | (l, body, callback) :: rest =>
      emod (λ s, s <| posted := rest |>);;
      r ← Send l body;
      match callback with
      | Some cb => emit (Reply cb (ok r) (message r))
      | None => mret tt
      end
  end.

Definition shutdown_slot (l : CbDcLabel) : eff host event unit :=
  s ← eget;
  let sl := slots s l in
  ewhen (bool_decide (is_Some (dc sl))) (emit (ChannelClose l));;
  set_slot l (mkSlot None false (ever_opened sl)).

Definition Shutdown : eff host event unit :=
  eseq (shutdown_slot <$> all_labels);;
  emod (λ s, s <| bound_observers := λ _, None |>).

Definition OnChannelStateChanged_Signaling (l : CbDcLabel) : eff host event unit :=
  s ← eget;
  let sl := slots s l in
  match dc sl with
  | None => mret tt
  | Some d =>
      let state := dc_state d in
      ewhen (bool_decide (state = DcOpen))
        (set_slot l (mkSlot (dc sl) (trampoline sl) true));;
      ewhen (host_observer s) (emit (HostStateChanged l state));;
      s ← eget;
      if bool_decide (state = DcOpen) && negb (all_open_latched s) then
        if forallb (λ l', ever_opened (slots s l')) all_labels then
          emod (λ s, s <| all_open_latched := true |>);;
          ewhen (host_observer s) (emit HostAllOpen)
        else mret tt
      else mret tt
  end.

(** The trampoline's callbacks.  Shutdown unregisters it, after which the
    library calls nothing. *)
Definition OnStateChange (l : CbDcLabel) : eff host event unit :=
  s ← eget;
  match bound_observers s l with
  | Some o => emit (ToConsumer o l)
  | None => mret tt
  end;;
  OnChannelStateChanged_Signaling l.

Definition OnMessage (l : CbDcLabel) (binary : bool) (payload : string) : eff host event unit :=
  s ← eget;
  match bound_observers s l with
  | Some o => emit (MessageToConsumer o l binary payload)
  | None => mret tt
  end.

Definition OnBufferedAmountChange (l : CbDcLabel) (sent : N) : eff host event unit :=
  s ← eget;
  match bound_observers s l with
  | Some o => emit (BufferedToConsumer o l sent)
  | None => mret tt
  end.

(** [true] lets the library call on its network thread; asked of the consumer. *)
Definition IsOkToCallOnTheNetworkThread (consumer_ok : observer → bool) (l : CbDcLabel)
    (s : host) : bool :=
  match bound_observers s l with Some o => consumer_ok o | None => false end.

(** ** The machine *)

Inductive input :=
| Create (create : CbDcLabel → RTCError + data_channel) (labels : list CbDcLabel)
| Bind (l : CbDcLabel) (o : option observer)
| SendText (l : CbDcLabel) (body : string)
| SendBin (l : CbDcLabel) (body : string)
| PostSend (l : CbDcLabel) (body : string) (callback : option nat)
| Posted
| ShutdownCall
| DcMoves (l : CbDcLabel) (st : DataState)
| DcQueues (l : CbDcLabel) (n : N)
| DcStateChange (l : CbDcLabel)
| DcMessage (l : CbDcLabel) (binary : bool) (payload : string)
| DcBuffered (l : CbDcLabel) (sent : N).

(** A step of libwebrtc on the channel in slot [l]. *)
Definition library (l : CbDcLabel) (f : data_channel → data_channel) : eff host event unit :=
  emod (λ s, s <| slots := <[l := mkSlot (f <$> dc (slots s l)) (trampoline (slots s l))
                                   (ever_opened (slots s l))]> (slots s) |>).

Definition returned (m : eff host event RTCError) : eff host event unit := e ← m; emit (Returned e).

Definition handle (i : input) : eff host event unit :=
  match i with
  | Create create labels => returned (CreateOutboundChannels create labels)
  | Bind l o => BindObserver l o
  | SendText l body => returned (Send l body)
  | SendBin l body => returned (SendBinary l body)
  | PostSend l body cb => SendAsync l body cb
  | Posted => RunPosted
  | ShutdownCall => Shutdown
  | DcMoves l st => library l (λ d, mkDc st (dc_buffered d))
  | DcQueues l n => library l (λ d, mkDc (dc_state d) n)
  | DcStateChange l => OnStateChange l
  | DcMessage l binary payload => OnMessage l binary payload
  | DcBuffered l sent => OnBufferedAmountChange l sent
  end.

(** Callbacks come only through a registered trampoline. *)
Definition enabled (i : input) (s : host) : bool :=
  match i with
  | DcStateChange l | DcMessage l _ _ | DcBuffered l _ => trampoline (slots s l)
  | _ => true
  end.

(** ** Lemmas *)

Lemma all_labels_spec (P : CbDcLabel → bool) : forallb P all_labels = true ↔ ∀ l, P l = true.
Proof.
  rewrite forallb_forall. split; [|by auto]. intros H l. apply H.
  destruct l; unfold all_labels; simpl; tauto.
Qed.

Definition create_fails (r : RTCError + data_channel) : Prop :=
  match r with inl _ => True | inr _ => False end.

Lemma create_channels_facts create labels ls err s :
  (∀ l, ever_opened (slots (exec (create_channels create labels ls err) s) l) =
        ever_opened (slots s l)) ∧
  host_observer (exec (create_channels create labels ls err) s) = host_observer s ∧
  all_open_latched (exec (create_channels create labels ls err) s) = all_open_latched s ∧
  (∀ l, (l ∉ labels ∨ create_fails (create l)) →
    dc (slots (exec (create_channels create labels ls err) s) l) = dc (slots s l)) ∧
  Forall (λ e, ∃ l, e = ChannelCreated l) (events (create_channels create labels ls err) s).
Proof.
  revert s err. induction ls as [|l ls IH]; intros s err.
  - by split_and!.
  - cbn [create_channels]. case_bool_decide as Hin; [|apply IH].
    destruct (create l) as [e|d] eqn:Hc; [apply IH|].
    set (s1 := s <| slots := <[l := mkSlot (Some d) true (ever_opened (slots s l))]> (slots s) |>).
    destruct (IH s1 err) as (H1 & H2 & H3 & H4 & H5).
    match goal with |- context [exec ?m s] => assert (exec m s = exec (create_channels create labels ls err) s1 ∧
      events m s = ChannelCreated l :: events (create_channels create labels ls err) s1) as [-> ->] end.
    { unfold exec, events, set_slot, emit, emod, eget, mbind, eff_bind. simpl. fold s1.
      by destruct (create_channels create labels ls err s1) as [[??]?]. }
    split_and!; [intros l'; rewrite H1| done | done | |].
    + subst s1. unfold set_field; simpl. destruct (decide (l' = l)) as [->|];
        [by rewrite fn_lookup_insert | by rewrite fn_lookup_insert_ne].
    + intros l' Hl'. rewrite H4 by done. subst s1. simpl. destruct (decide (l' = l)) as [->|];
        [|by rewrite fn_lookup_insert_ne].
      destruct Hl' as [?|Hl']; [done|]. by rewrite Hc in Hl'.
    + constructor; [by eexists|done].
Qed.

(** Calls on the session's observer. *)
Definition to_host (e : event) : bool :=
  match e with HostStateChanged _ _ | HostAllOpen => true | _ => false end.

(** What only the state-change callback touches. *)
Definition same_openings (s s' : host) : Prop :=
  host_observer s' = host_observer s ∧ all_open_latched s' = all_open_latched s ∧
  ∀ l, ever_opened (slots s' l) = ever_opened (slots s l).

#[export] Instance same_openings_preorder : PreOrder same_openings.
Proof.
  split; [intros s; by repeat split|]. intros s1 s2 s3 (?&?&H1) (?&?&H2).
  repeat split; [congruence.. | intros l; by rewrite H2, H1].
Qed.

Lemma set_slot_openings l sl s :
  ever_opened sl = ever_opened (slots s l) → same_openings s (exec (set_slot l sl) s).
Proof.
  intros H. split_and!; try done. intros l'. unfold exec, set_slot, emod. simpl.
  destruct (decide (l' = l)) as [->|]; [by rewrite fn_lookup_insert | by rewrite fn_lookup_insert_ne].
Qed.

Lemma shutdown_slot_run l s :
  shutdown_slot l s =
  (tt, exec (set_slot l (mkSlot None false (ever_opened (slots s l)))) s,
   if bool_decide (is_Some (dc (slots s l))) then [ChannelClose l] else []).
Proof. unfold shutdown_slot. rewrite get_run. by case_bool_decide. Qed.

Lemma Shutdown_slots ls s :
  let s' := exec (eseq (shutdown_slot <$> ls)) s in
  same_openings s s' ∧ create_called s' = create_called s ∧ posted s' = posted s ∧
  (∀ l, l ∈ ls ∨ (dc (slots s l) = None ∧ trampoline (slots s l) = false) →
     dc (slots s' l) = None ∧ trampoline (slots s' l) = false) ∧
  Forall (λ e, to_host e = false) (events (eseq (shutdown_slot <$> ls)) s).
Proof.
  revert s. induction ls as [|l ls IH]; intros s; cbv zeta.
  - split_and!; try done. intros l [Hl|Hl]; [by apply elem_of_nil in Hl|done].
  - rewrite fmap_cons. cbn [eseq]. rewrite exec_bind, events_bind.
    set (sl := mkSlot None false (ever_opened (slots s l))).
    assert (exec (shutdown_slot l) s = exec (set_slot l sl) s) as Hx
      by (unfold exec at 1; by rewrite shutdown_slot_run).
    rewrite Hx. destruct (IH (exec (set_slot l sl) s)) as (H1 & H2 & H3 & H4 & H5).
    split_and!; [| by rewrite H2 | by rewrite H3 | |].
    + etrans; [|exact H1]. by apply set_slot_openings.
    + intros l' Hl'. apply H4. destruct (decide (l' = l)) as [->|Hne].
      * right. unfold exec, set_slot, emod. simpl. by rewrite fn_lookup_insert.
      * destruct Hl' as [Hl'|Hl']; [apply elem_of_cons in Hl' as [->|Hl']; [done|by left]|].
        right. unfold exec, set_slot, emod. simpl. by rewrite fn_lookup_insert_ne.
    + apply Forall_app. split; [|exact H5]. unfold events. rewrite shutdown_slot_run. simpl.
      case_bool_decide; by repeat constructor.
Qed.

Lemma send_frame_run l b body s :
  send_frame l b body s =
  match dc (slots s l) with
  | None => (Err INVALID_STATE "channel not created", s, [])
  | Some d => if bool_decide (dc_state d = DcOpen) then (OK, s, [Frame l b body])
              else (Err INVALID_STATE "channel not open", s, [])
  end.
Proof.
  unfold send_frame. rewrite get_run. destruct (dc (slots s l)) as [d|]; [|done].
  by case_bool_decide.
Qed.

(** Every input but the state-change callback leaves the openings alone and
    says nothing to the session's observer. *)
Lemma handle_neutral i s :
  (∀ l, i ≠ DcStateChange l) →
  same_openings s (exec (handle i) s) ∧ Forall (λ e, to_host e = false) (events (handle i) s).
Proof.
  intros Hi. destruct i as [create labels|l o|l b|l b|l b cb| | |l st|l n|l|l b p|l n].
  - cbn [handle]. unfold returned, CreateOutboundChannels. rewrite exec_bind, events_bind, exec_get.
    rewrite events_get. destruct (create_called s); [by split; repeat constructor|].
    rewrite exec_mod, events_mod.
    match goal with |- context [create_channels _ _ _ _] =>
      destruct (create_channels_facts create labels all_labels OK (s <| create_called := true |>))
        as (H1 & H2 & H3 & _ & H5) end.
    split; [by split_and!|]. apply Forall_app. split; [|by repeat constructor].
    eapply Forall_impl; [exact H5|]. by intros e [l ->].
  - by split; repeat constructor.
  - cbn [handle]. unfold returned, Send, exec, events, mbind, eff_bind. rewrite send_frame_run.
    destruct (dc (slots s l)); [case_bool_decide|]; by split; repeat constructor.
  - cbn [handle]. unfold returned, SendBinary, exec, events, mbind, eff_bind. rewrite send_frame_run.
    destruct (dc (slots s l)); [case_bool_decide|]; by split; repeat constructor.
  - by split; repeat constructor.
  - cbn [handle]. unfold RunPosted, exec, events. rewrite get_run.
    destruct (posted s) as [|[[l b] cb] rest]; [by split; repeat constructor|].
    rewrite mod_run. unfold Send, mbind, eff_bind. rewrite send_frame_run. simpl.
    destruct (dc (slots s l)); [case_bool_decide|]; destruct cb; by split; repeat constructor.
  - cbn [handle]. unfold Shutdown. rewrite exec_bind, events_bind.
    destruct (Shutdown_slots all_labels s) as (H1 & _ & _ & _ & H5).
    split; [etrans; [exact H1|done]|]. apply Forall_app. by split.
  - split; [|constructor]. by apply (set_slot_openings l (mkSlot _ _ _)).
  - split; [|constructor]. by apply (set_slot_openings l (mkSlot _ _ _)).
  - by destruct (Hi l).
  - cbn [handle]. unfold OnMessage, exec, events. rewrite get_run.
    destruct (bound_observers s l); by split; repeat constructor.
  - cbn [handle]. unfold OnBufferedAmountChange, exec, events. rewrite get_run.
    destruct (bound_observers s l); by split; repeat constructor.
Qed.

(** ** Properties *)

(** Running all six labels' openings: the session's observer heard each. *)
Definition heard_open (l : CbDcLabel) (tr : list event) : Prop := HostStateChanged l DcOpen ∈ tr.

(** The announcement stands once in the trace, after every label's opening. *)
Definition announced (tr : list event) : Prop :=
  ∃ pre post, tr = (pre ++ HostAllOpen :: post)%list ∧ (HostAllOpen ∉ pre) ∧ (HostAllOpen ∉ post) ∧
    ∀ l, heard_open l pre.

Definition openings_inv (s : host) (tr : list event) : Prop :=
  host_observer s = true ∧
  (∀ l, ever_opened (slots s l) = true ↔ heard_open l tr) ∧
  (all_open_latched s = true ↔ ∀ l, ever_opened (slots s l) = true) ∧
  (if all_open_latched s then announced tr else HostAllOpen ∉ tr).

Lemma neutral_trace e tr es :
  to_host e = true → Forall (λ e, to_host e = false) es → (e ∈ (tr ++ es)%list ↔ e ∈ tr).
Proof.
  intros He Hes. rewrite elem_of_app. split; [|by left]. intros [?|Hin]; [done|].
  rewrite Forall_forall in Hes. apply Hes in Hin. congruence.
Qed.

Lemma announced_app tr es : announced tr → HostAllOpen ∉ es → announced (tr ++ es)%list.
Proof.
  intros (pre & post & -> & H1 & H2 & H3) Hes.
  exists pre, (post ++ es)%list. split_and!; [by rewrite <-app_assoc|done| |done].
  rewrite elem_of_app. tauto.
Qed.

Lemma announced_not_in tr es : HostAllOpen ∉ tr → HostAllOpen ∉ es → HostAllOpen ∉ (tr ++ es)%list.
Proof. intros H1 H2 [?|?]%elem_of_app; auto. Qed.

Lemma openings_neutral s s' tr es :
  same_openings s s' → Forall (λ e, to_host e = false) es →
  openings_inv s tr → openings_inv s' (tr ++ es)%list.
Proof.
  intros (Ho & Hl & He) Hes (I1 & I2 & I3 & I4). split_and!.
  - congruence.
  - intros l. rewrite He, I2. unfold heard_open. by rewrite neutral_trace.
  - rewrite Hl, I3. split; intros H l; specialize (H l); specialize (He l); congruence.
  - rewrite Hl. destruct (all_open_latched s); [|by rewrite neutral_trace].
    apply announced_app; [done|]. intros Hin. rewrite Forall_forall in Hes. by apply Hes in Hin.
Qed.

(** What the callback does once the consumer has been called. *)
Lemma state_change_run l s d :
  dc (slots s l) = Some d →
  OnChannelStateChanged_Signaling l s =
  if bool_decide (dc_state d = DcOpen) then
    let s1 := exec (set_slot l (mkSlot (Some d) (trampoline (slots s l)) true)) s in
    if negb (all_open_latched s) && forallb (λ l', ever_opened (slots s1 l')) all_labels
    then (tt, s1 <| all_open_latched := true |>,
          if host_observer s then [HostStateChanged l DcOpen; HostAllOpen] else [])
    else (tt, s1, if host_observer s then [HostStateChanged l DcOpen] else [])
  else (tt, s, if host_observer s then [HostStateChanged l (dc_state d)] else []).
Proof.
  intros Hd. unfold OnChannelStateChanged_Signaling. rewrite get_run. cbv zeta. rewrite Hd.
  case_bool_decide as Hop; [rewrite Hop | ].
  - generalize all_labels. intros ls. unfold set_slot, ewhen, mbind, eff_bind, exec, emod, eget. simpl.
    destruct (host_observer s) eqn:Ho; simpl; (destruct (all_open_latched s); simpl; [done|]);
    match goal with |- context [forallb ?f ?l] => destruct (forallb f l) end; by rewrite ?Ho.
  - unfold mbind, eff_bind. simpl. by destruct (host_observer s).
Qed.

Lemma openings_state_change l s tr :
  openings_inv s tr →
  openings_inv (exec (OnChannelStateChanged_Signaling l) s)
    (tr ++ events (OnChannelStateChanged_Signaling l) s)%list.
Proof.
  intros Hinv. pose proof Hinv as (I1 & I2 & I3 & I4).
  destruct (dc (slots s l)) as [d|] eqn:Hd.
  2:{ assert (OnChannelStateChanged_Signaling l s = (tt, s, [])) as E.
      { unfold OnChannelStateChanged_Signaling. by rewrite get_run, Hd. }
      unfold exec, events. rewrite E. simpl. by rewrite app_nil_r. }
  unfold exec, events. rewrite (state_change_run l s d Hd), I1.
  case_bool_decide as Hop.
  2:{ simpl. split_and!; [done| |done|].
      - intros l'. rewrite I2. unfold heard_open. rewrite elem_of_app, list_elem_of_singleton.
        split; [by left|]. intros [?|[= -> Hst]]; [done|congruence].
      - destruct (all_open_latched s).
        + apply announced_app; [done|]. by rewrite list_elem_of_singleton.
        + rewrite elem_of_app, list_elem_of_singleton. intros [?|?]; done. }
  set (s1 := exec (set_slot l (mkSlot (Some d) (trampoline (slots s l)) true)) s).
  assert (∀ l', ever_opened (slots s1 l') = true ↔
    heard_open l' (tr ++ [HostStateChanged l DcOpen])%list) as Hs1.
  { intros l'. subst s1. unfold exec, set_slot, emod, heard_open. simpl.
    rewrite elem_of_app, list_elem_of_singleton. destruct (decide (l' = l)) as [->|Hne].
    - rewrite fn_lookup_insert. simpl. tauto.
    - rewrite fn_lookup_insert_ne by done. rewrite I2. unfold heard_open.
      split; [by left|]. intros [?|[= ?]]; done. }
  pose proof (all_labels_spec (λ l', ever_opened (slots s1 l'))) as Hall.
  destruct (all_open_latched s) eqn:Hlat; cbn [negb andb fst snd].
  - split_and!; [done|done| |].
    + change (all_open_latched s1) with (all_open_latched s). rewrite Hlat. split; [|done].
      intros _ l'. apply Hs1, elem_of_app. left. apply I2. by apply I3.
    + change (all_open_latched s1) with (all_open_latched s). rewrite Hlat.
      apply announced_app; [done|]. by rewrite list_elem_of_singleton.
  - destruct (forallb (λ l', ever_opened (slots s1 l')) all_labels) eqn:Hf; cbn [fst snd].
    + specialize (proj1 Hall eq_refl) as Hop'.
      assert (∀ l', heard_open l' (tr ++ [HostStateChanged l DcOpen])%list) as Hh
        by (intros l'; apply Hs1, Hop').
      replace (tr ++ [HostStateChanged l DcOpen; HostAllOpen])%list
        with ((tr ++ [HostStateChanged l DcOpen]) ++ [HostAllOpen])%list
        by (by rewrite <-app_assoc).
      split_and!; [exact I1| | |].
      * intros l'. split; [|intros _; exact (Hop' l')]. intros _. apply elem_of_app. left. apply Hh.
      * split; [|done]. intros _. exact Hop'.
      * exists (tr ++ [HostStateChanged l DcOpen])%list, []. split_and!; [done| |apply not_elem_of_nil|done].
        apply announced_not_in; [done|]. by rewrite list_elem_of_singleton.
    + split_and!; [done|done| |].
      * change (all_open_latched s1) with (all_open_latched s). rewrite Hlat. split; [done|].
        intros H. by apply Hall in H.
      * change (all_open_latched s1) with (all_open_latched s). rewrite Hlat.
        apply announced_not_in; [done|]. by rewrite list_elem_of_singleton.
Qed.

Lemma OnStateChange_run l s :
  ∃ es, Forall (λ e, to_host e = false) es ∧
    exec (handle (DcStateChange l)) s = exec (OnChannelStateChanged_Signaling l) s ∧
    events (handle (DcStateChange l)) s = (es ++ events (OnChannelStateChanged_Signaling l) s)%list.
Proof.
  exists (match bound_observers s l with Some o => [ToConsumer o l] | None => [] end).
  unfold exec, events, handle, OnStateChange. rewrite get_run.
  destruct (bound_observers s l); (split; [by repeat constructor|]);
    unfold mbind, eff_bind, emit, mret, eff_ret;
    by destruct (OnChannelStateChanged_Signaling l s) as [[??]?].
Qed.

Lemma openings_init : openings_inv (CbDataChannelHost true) [].
Proof.
  split_and!; simpl; try done.
  - intros l. split; [done|]. intros H. by apply elem_of_nil in H.
  - split; [done|]. intros H. by specialize (H kInput).
  - apply not_elem_of_nil.
Qed.

Lemma is_state_change i : (∀ l, i ≠ DcStateChange l) ∨ ∃ l, i = DcStateChange l.
Proof. destruct i; eauto; left; discriminate. Qed.

Lemma openings_step i s tr :
  openings_inv s tr → openings_inv (exec (handle i) s) (tr ++ events (handle i) s)%list.
Proof.
  intros Hinv. destruct (is_state_change i) as [Hi|[l ->]].
  - destruct (handle_neutral i s Hi). by eapply openings_neutral.
  - destruct (OnStateChange_run l s) as (es & Hes & -> & ->). rewrite app_assoc.
    by apply openings_state_change, (openings_neutral s s).
Qed.

(** In every execution the session is announced open exactly when each of
    the six labels has been reported open at least once, after all those
    reports, and only once however often a channel closes and opens again;
    [AllChannelsOpen] is that fact. *)
Theorem all_open_exact s tr :
  reachable enabled handle (CbDataChannelHost true) s tr →
  (AllChannelsOpen s = true ↔ ∀ l, HostStateChanged l DcOpen ∈ tr) ∧
  (if AllChannelsOpen s then
     ∃ pre post, tr = (pre ++ HostAllOpen :: post)%list ∧ (HostAllOpen ∉ pre) ∧
       (HostAllOpen ∉ post) ∧ ∀ l, HostStateChanged l DcOpen ∈ pre
   else HostAllOpen ∉ tr).
Proof.
  intros Hr. assert (openings_inv s tr) as (_ & I2 & I3 & I4).
  { revert s tr Hr. apply reachable_trace_inv.
    - apply openings_init.
    - intros i s tr _ Hinv _. by apply openings_step. }
  unfold AllChannelsOpen. split; [|exact I4]. rewrite I3. split; intros H l; apply I2, H.
Qed.

(** A session that opens its six channels, two of them twice. *)
Definition fresh_channel (_ : CbDcLabel) : RTCError + data_channel := inr (mkDc DcConnecting 0).
Definition opens (l : CbDcLabel) : list input := [DcMoves l DcOpen; DcStateChange l].
Definition full_session : list input :=
  Create fresh_channel DefaultOutboundLabels ::
  (List.concat (opens <$> all_labels) ++ opens kInput ++ [DcMoves kStats DcClosed; DcStateChange kStats] ++
   opens kStats)%list.

Lemma all_open_exact_witness :
  AllChannelsOpen (exec (run handle full_session) (CbDataChannelHost true)) = true ∧
  (HostAllOpen ∈ events (run handle full_session) (CbDataChannelHost true)).
Proof.
  pose proof (all_open_exact _ _
    (run_reachable enabled handle (CbDataChannelHost true) full_session eq_refl)) as [H1 H2].
  assert (AllChannelsOpen (exec (run handle full_session) (CbDataChannelHost true)) = true) as E
    by reflexivity.
  split; [exact E|]. rewrite E in H2. destruct H2 as (pre & post & -> & _).
  apply elem_of_app. right. left.
Defined.

Lemma library_slot l0 f l s : dc (slots s l) = None → dc (slots (exec (library l0 f) s) l) = None.
Proof.
  intros H. unfold exec, library, emod. simpl. destruct (decide (l = l0)) as [->|].
  - rewrite fn_lookup_insert. simpl. by rewrite H.
  - by rewrite fn_lookup_insert_ne.
Qed.

(** Channels appear only through [Create]. *)
Lemma handle_no_channel i l s :
  (∀ create labels, i = Create create labels → l ∉ labels ∨ create_fails (create l)) →
  dc (slots s l) = None → dc (slots (exec (handle i) s) l) = None.
Proof.
  intros Hc Hd. destruct i as [create labels|l0 o|l0 b|l0 b|l0 b cb| | |l0 st|l0 n|l0|l0 b p|l0 n].
  - cbn [handle]. unfold returned, CreateOutboundChannels. rewrite exec_bind, exec_get.
    destruct (create_called s); [done|]. rewrite exec_mod.
    match goal with |- context [exec (create_channels ?c ?ls ?al ?e) ?s1] =>
      destruct (create_channels_facts c ls al e s1) as (_ & _ & _ & H & _) end.
    change (dc (slots (exec (create_channels create labels all_labels OK)
      (s <| create_called := true |>)) l) = None). rewrite H by (by eapply Hc). done.
  - done.
  - cbn [handle]. unfold returned, Send, exec, mbind, eff_bind. rewrite send_frame_run.
    destruct (dc (slots s l0)); [case_bool_decide|]; done.
  - cbn [handle]. unfold returned, SendBinary, exec, mbind, eff_bind. rewrite send_frame_run.
    destruct (dc (slots s l0)); [case_bool_decide|]; done.
  - done.
  - cbn [handle]. unfold RunPosted, exec. rewrite get_run.
    destruct (posted s) as [|[[l0 b] cb] rest]; [done|].
    rewrite mod_run. unfold Send, mbind, eff_bind. rewrite send_frame_run. simpl.
    destruct (dc (slots s l0)); [case_bool_decide|]; by destruct cb.
  - cbn [handle]. unfold Shutdown. rewrite exec_bind.
    destruct (Shutdown_slots all_labels s) as (_ & _ & _ & H4 & _).
    apply (H4 l). left. destruct l; unfold all_labels; repeat constructor.
  - by apply library_slot.
  - by apply library_slot.
  - destruct (OnStateChange_run l0 s) as (es & _ & -> & _). unfold exec.
    destruct (dc (slots s l0)) as [d|] eqn:Hd0.
    2:{ unfold OnChannelStateChanged_Signaling. by rewrite get_run, Hd0. }
    assert (l ≠ l0) as Hne by congruence. rewrite (state_change_run l0 s d Hd0).
    assert (∀ sl, dc (slots (exec (set_slot l0 sl) s) l) = None) as Hset.
    { intros sl. unfold exec, set_slot, emod. simpl. by rewrite fn_lookup_insert_ne. }
    case_bool_decide; [|done]. cbv zeta.
    destruct (negb (all_open_latched s) && _); cbn [fst snd]; apply Hset.
  - cbn [handle]. unfold OnMessage, exec. rewrite get_run. by destruct (bound_observers s l0).
  - cbn [handle]. unfold OnBufferedAmountChange, exec. rewrite get_run.
    by destruct (bound_observers s l0).
Qed.

Lemma unopened_step i l s :
  dc (slots s l) = None → ever_opened (slots s l) = false →
  ever_opened (slots (exec (handle i) s) l) = false.
Proof.
  intros Hd He. destruct (is_state_change i) as [Hi|[l0 ->]].
  - destruct (handle_neutral i s Hi) as [(_ & _ & H) _]. by rewrite H.
  - destruct (OnStateChange_run l0 s) as (es & _ & -> & _). unfold exec.
    destruct (dc (slots s l0)) as [d|] eqn:Hd0.
    2:{ unfold OnChannelStateChanged_Signaling. by rewrite get_run, Hd0. }
    assert (l ≠ l0) as Hne by congruence. rewrite (state_change_run l0 s d Hd0).
    assert (∀ sl, ever_opened (slots (exec (set_slot l0 sl) s) l) = false) as Hset.
    { intros sl. unfold exec, set_slot, emod. simpl. by rewrite fn_lookup_insert_ne. }
    case_bool_decide; [|done]. cbv zeta.
    destruct (negb (all_open_latched s) && _); cbn [fst snd]; apply Hset.
Qed.

(** A label the caller opts out of, or whose channel the library refuses to
    create, keeps the whole session from ever being announced open: whatever
    the other five channels do, [OnAllChannelsOpen] is never called,
    [AllChannelsOpen] stays false and every send on the label fails. *)
Theorem opt_out_never_all_open l ins :
  all_enabled enabled handle ins (CbDataChannelHost true) = true →
  (∀ create labels, Create create labels ∈ ins → l ∉ labels ∨ create_fails (create l)) →
  let s := exec (run handle ins) (CbDataChannelHost true) in
  AllChannelsOpen s = false ∧
  (HostAllOpen ∉ events (run handle ins) (CbDataChannelHost true)) ∧
  IsOpen l s = false ∧
  ∀ b body, result (send_frame l b body) s = Err INVALID_STATE "channel not created".
Proof.
  intros _ Hc. cbv zeta. unfold run.
  enough (∀ s tr, dc (slots s l) = None → ever_opened (slots s l) = false → openings_inv s tr →
    let s' := exec (eseq (handle <$> ins)) s in
    dc (slots s' l) = None ∧ ever_opened (slots s' l) = false ∧
    openings_inv s' (tr ++ events (eseq (handle <$> ins)) s)%list) as H.
  { destruct (H (CbDataChannelHost true) [] eq_refl eq_refl openings_init)
      as (Hd & He & I1 & I2 & I3 & I4). simpl app in *.
    set (s' := exec _ _) in *.
    assert (all_open_latched s' = false) as Hl.
    { destruct (all_open_latched s'); [|done]. rewrite (proj1 I3 eq_refl l) in He. done. }
    rewrite Hl in I4. split_and!; [done|done| |].
    - unfold IsOpen. by rewrite Hd.
    - intros b body. unfold result. by rewrite send_frame_run, Hd. }
  induction ins as [|i ins IH]; intros s tr Hd He Hinv; [by rewrite app_nil_r|].
  rewrite fmap_cons. cbn [eseq]. cbv zeta. rewrite exec_bind, events_bind, app_assoc.
  apply IH; [|apply handle_no_channel|apply unopened_step|apply openings_step]; try done.
  - intros create labels Hin. apply Hc. by right.
  - intros create labels ->. apply Hc. by left.
Qed.

Lemma opt_out_never_all_open_witness :
  AllChannelsOpen (exec (run handle (Create fresh_channel [kInput; kControl] ::
    opens kInput ++ opens kControl)%list) (CbDataChannelHost true)) = false.
Proof.
  apply (opt_out_never_all_open kFiles (Create fresh_channel [kInput; kControl] ::
    opens kInput ++ opens kControl)%list); [reflexivity|].
  intros create labels Hin. left. apply elem_of_cons in Hin as [[= -> ->]|Hin].
  - by apply (bool_decide_unpack _).
  - repeat (apply elem_of_cons in Hin as [Hin|Hin]; [discriminate|]). by apply elem_of_nil in Hin.
Defined.

(** What one posted send does: its frame and its reply. *)
Definition settle (s : host) (p : CbDcLabel * string * option nat) : list event :=
  let '(l, body, callback) := p in
  let reply r msg := match callback with Some cb => [Reply cb r msg] | None => [] end in
  match dc (slots s l) with
  | None => reply false "channel not created"
  | Some _ => if IsOpen l s then Frame l false body :: reply true "" else reply false "channel not open"
  end.

(** The posted sends are settled in the order they were posted: running the
    queue hands each text whose channel is open to that channel, calls every
    callback exactly once with the matching verdict, leaves no task behind and
    changes nothing else; without channel activity in between, each is judged
    on the state the queue found. *)
Theorem async_sends_settle s :
  run handle (replicate (List.length (posted s)) Posted) s =
  (tt, s <| posted := [] |>, List.concat (settle s <$> posted s)).
Proof.
  remember (posted s) as ps eqn:Hps.
  enough (∀ s0, (∀ l, dc (slots s0 l) = dc (slots s l)) → posted s0 = ps →
    run handle (replicate (List.length ps) Posted) s0 =
    (tt, s0 <| posted := [] |>, List.concat (settle s <$> ps))) as H by (by apply H).
  clear Hps. induction ps as [|[[l body] cb] ps IH]; intros s0 Hd Hp.
  { unfold run. simpl. destruct s0. simpl in *. by subst. }
  unfold run in *. cbn [List.length replicate]. rewrite !fmap_cons. cbn [eseq handle].
  unfold RunPosted. unfold mbind at 1. unfold eff_bind at 1. rewrite get_run, Hp, mod_run.
  unfold Send, mbind, eff_bind. rewrite send_frame_run. cbn [settle].
  assert (IsOpen l s = match dc (slots s l) with Some d => bool_decide (dc_state d = DcOpen) | None => false end)
    as -> by done.
  change (slots (s0 <| posted := ps |>)) with (slots s0). rewrite Hd.
  assert (posted (s0 <| posted := ps |>) = ps) as Hp' by (by cbv).
  assert (∀ l, dc (slots (s0 <| posted := ps |>) l) = dc (slots s l)) as Hd' by exact Hd.
  specialize (IH _ Hd' Hp').
  destruct (dc (slots s l)) as [d|]; [case_bool_decide|];
    destruct cb; unfold mret, eff_ret, emit; rewrite IH; done.
Qed.

(** Errors handed back to a caller. *)
Definition refused (e : event) : Prop :=
  match e with
  | Returned (Err _ _) | Reply _ false _ => True
  | _ => False
  end.

(** A host that has been shut down: no channel, no trampoline. *)
Definition closed_down (s : host) : Prop :=
  create_called s = true ∧ ∀ l, dc (slots s l) = None ∧ trampoline (slots s l) = false.

Lemma Shutdown_closes s : create_called s = true → closed_down (exec Shutdown s).
Proof.
  intros Hc. unfold Shutdown. rewrite exec_bind.
  destruct (Shutdown_slots all_labels s) as (_ & H2 & _ & H4 & _). split.
  - etrans; [exact H2|done].
  - intros l. apply (H4 l). left. destruct l; unfold all_labels; repeat constructor.
Qed.

Lemma Shutdown_quiet ls s :
  (∀ l, dc (slots s l) = None) → events (eseq (shutdown_slot <$> ls)) s = [].
Proof.
  revert s. induction ls as [|l ls IH]; intros s Hd; [done|].
  rewrite fmap_cons. cbn [eseq]. rewrite events_bind.
  assert (events (shutdown_slot l) s = []) as -> by (unfold events; by rewrite shutdown_slot_run, Hd).
  apply IH. intros l'. unfold exec. rewrite shutdown_slot_run. cbn [fst snd].
  unfold exec, set_slot, emod. simpl. destruct (decide (l' = l)) as [->|];
    [by rewrite fn_lookup_insert | by rewrite fn_lookup_insert_ne].
Qed.

Lemma closed_down_step i s :
  closed_down s → enabled i s = true →
  Forall refused (events (handle i) s) ∧ closed_down (exec (handle i) s).
Proof.
  intros [Hc Hs] Hen.
  assert (∀ l, dc (slots s l) = None) as Hd by (intros l; apply Hs).
  assert (∀ l, trampoline (slots s l) = false) as Ht by (intros l; apply Hs).
  assert (∀ l b body, send_frame l b body s = (Err INVALID_STATE "channel not created", s, [])) as Hf
    by (intros l b body; by rewrite send_frame_run, Hd).
  assert (∀ l f, closed_down (exec (library l f) s)) as Hlib.
  { intros l f. split; [exact Hc|]. intros l'. unfold exec, library, emod. simpl.
    destruct (decide (l' = l)) as [->|]; [|rewrite fn_lookup_insert_ne by done; apply Hs].
    rewrite fn_lookup_insert. simpl. by rewrite Hd, Ht. }
  destruct i as [create labels|l o|l b|l b|l b cb| | |l st|l n|l|l b p|l n];
    cbn [enabled] in Hen; try (by rewrite Ht in Hen); cbn [handle].
  - assert (CreateOutboundChannels create labels s =
      (Err INVALID_STATE "CreateOutboundChannels already called", s, [])) as E
      by (unfold CreateOutboundChannels; by rewrite get_run, Hc).
    unfold returned, exec, events, mbind, eff_bind. rewrite E. split; [by constructor|by split].
  - by split.
  - unfold returned, Send, exec, events, mbind, eff_bind. rewrite Hf. split; [by constructor|by split].
  - unfold returned, SendBinary, exec, events, mbind, eff_bind. rewrite Hf.
    split; [by constructor|by split].
  - by split.
  - unfold RunPosted, exec, events. rewrite get_run. destruct (posted s) as [|[[l b] cb] rest]; [by split|].
    rewrite mod_run. unfold Send, mbind, eff_bind. rewrite send_frame_run.
    change (slots (s <| posted := rest |>)) with (slots s). rewrite Hd.
    destruct cb; (split; [by repeat constructor|by split]).
  - split; [|by apply Shutdown_closes]. unfold Shutdown. rewrite events_bind, Shutdown_quiet by done.
    constructor.
  - split; [constructor|apply Hlib].
  - split; [constructor|apply Hlib].
Qed.

(** Shutting the host down is final: once its channels have been created,
    after [Shutdown] no frame leaves, no consumer and no observer of the
    session is called and no channel exists, whatever the callers and the
    library still do; sends still queued are answered with an error. *)
Theorem shutdown_is_final s ins :
  create_called s = true →
  all_enabled enabled handle ins (exec Shutdown s) = true →
  Forall refused (events (run handle ins) (exec Shutdown s)) ∧
  ∀ l, IsOpen l (exec (run handle ins) (exec Shutdown s)) = false ∧
       GetBufferedAmount l (exec (run handle ins) (exec Shutdown s)) = 0%N.
Proof.
  intros Hc. apply Shutdown_closes in Hc. revert Hc. generalize (exec Shutdown s). clear s.
  unfold run. induction ins as [|i ins IH]; intros s Hs Hen.
  - split; [constructor|]. intros l. destruct Hs as [_ Hs]. destruct (Hs l) as [Hd _].
    change (exec (eseq (handle <$> [])) s) with s. unfold IsOpen, GetBufferedAmount. by rewrite Hd.
  - simpl in Hen. apply andb_true_iff in Hen as [He Hen].
    destruct (closed_down_step i s Hs He) as [Hr Hs'].
    rewrite fmap_cons. cbn [eseq]. rewrite exec_bind, events_bind.
    destruct (IH _ Hs' Hen) as [H1 H2]. split; [by apply Forall_app|exact H2].
Qed.

Lemma shutdown_is_final_witness :
  Forall refused (events (run handle [PostSend kInput "late" (Some 7); Posted; SendText kFiles "x"])
    (exec Shutdown (exec (run handle full_session) (CbDataChannelHost true)))).
Proof.
  apply (shutdown_is_final (exec (run handle full_session) (CbDataChannelHost true))
    [PostSend kInput "late" (Some 7); Posted; SendText kFiles "x"]); reflexivity.
Defined.

(** Label strings are a bijection with the labels: parsing a printed label
    gives it back and no other string parses. *)
Theorem label_roundtrip s l : LabelFromString s = Some l ↔ s = LabelToString l.
Proof.
  split; [|intros ->; by destruct l].
  unfold LabelFromString, all_labels. cbn [find_label].
  repeat (match goal with |- context [String.eqb ?a ?b] => destruct (String.eqb_spec a b) end;
    [by intros [= <-]|]). done.
Qed.
