(* ===== verification/FileUpload.v ===== *)
(** * The file-upload receiver (capture/build-integration/cb_file_upload_receiver.{h,cc})

    The guest half of a file upload: [file_upload_*] envelopes arrive on the
    files channel, their chunks are written under the profile's [Uploads/]
    directory, the finished file is checked against the declared size and hash
    and handed to the page's parked file chooser.

    Three places run code.  [OnMessage] runs on the network side and posts to
    the UI sequence, whose tasks are the FIFO [ui]; file IO runs on the thread
    pool, whose tasks [pool] have no order among themselves, so the input
    [RunTask] names the one that runs; a pool task's reply joins [ui].  [disk]
    is the content of the directory.  A failing IO operation may leave
    anything at its path. *)

From Stdlib Require Import ZArith Lia String Ascii SpecFloat.
From stdpp Require Import base tactics list strings gmap.
From S2P Require Import Prelude Values.
Open Scope string_scope.
Open Scope Z_scope.

(** ** What the receiver takes from Chromium *)

Class UploadLib := {
  Base64Decode : string → option string;
  (** [crypto::hash::Sha256] printed by [HexEncode] and [ToLowerASCII]. *)
  Sha256Hex : string → string;
  ToLowerASCII : string → string;
  UTF8ToUTF16 : string → string;
  (** [FilePath::AppendASCII]. *)
  AppendASCII : string → string → string;
  NumberToString : Z → string;
  (** The value of [static_cast<int64_t>] on a double outside the type's range,
      which the language leaves undefined. *)
  cast_out_of_range : spec_float → Z;
}.

(** ** Data *)

Definition kProtocolVersion : Z := 1.
Definition kMaxUploadBytes : Z := 100 * 1024 * 1024.
Definition kMaxSessionUploadBytes : Z := 512 * 1024 * 1024.

Inductive Mode := kOpen | kOpenMultiple | kUploadFolder | kSave.

Record Upload := mkUpload {
  name : string;
  display_name : string;
  sha256 : string;
  declared_size : Z;
  received : Z;
  next_seq : Z;
  path : string;
  writes_in_flight : Z;
  end_pending : bool;
}.
#[export] Instance eta_Upload : Eta Upload := λ u,
  mkUpload (name u) (display_name u) (sha256 u) (declared_size u) (received u) (next_seq u)
    (path u) (writes_in_flight u) (end_pending u).

Inductive pool_task :=
| AppendTask (p bytes : string) (first_chunk : bool) (upload_id : string)
| HashTask (upload_id p : string)
| DeleteFileTask (p : string)
| DeleteDirTask.

Inductive ui_task :=
| UiHandleEnvelope (json : string)
| UiChunkWritten (upload_id : string) (ok : bool)
| UiFinalised (upload_id p hash : string) (size : Z).

Record rcv := mkRcv {
  uploads_ : gmap string Upload;
  session_bytes_ : Z;
  pending_listener_ : option nat;
  pending_mode_ : Mode;
  chooser_deadline_ : bool;
  alive : bool;
  ui : list ui_task;
  pool : list pool_task;
  disk : gmap string string;
}.
#[export] Instance eta_rcv : Eta rcv := λ s,
  mkRcv (uploads_ s) (session_bytes_ s) (pending_listener_ s) (pending_mode_ s)
    (chooser_deadline_ s) (alive s) (ui s) (pool s) (disk s).

(** [Parked] is the log line of a parked chooser; [Sent] a reply handed to the
    files channel, as the dictionary and as its text. *)
Inductive event :=
| Parked (listener : nat)
| FileSelected (listener : nat) (p display : string) (mode : Mode)
| FileSelectionCanceled (listener : nat)
| Sent (env : DictValue) (json : string).

(** ** Names *)

Definition safe_char (c : ascii) : bool :=
  in_range "a" "z" c || in_range "A" "Z" c || in_range "0" "9" c ||
  Ascii.eqb c "." || Ascii.eqb c "_" || Ascii.eqb c "-".

Definition SafeComponent (raw : string) : string :=
  let out := str_map (λ c, if safe_char c then c else "_"%char) raw in
  let out :=
    if String.eqb out "" || String.eqb out "." || String.eqb out ".." then "upload" else out in
  if (128 <? String.length out)%nat then str_take 128 out else out.

Definition SafeId (raw : string) : string :=
  let out := SafeComponent raw in
  if (64 <? String.length out)%nat then str_take 64 out else out.

(** ** File IO, on the pool *)

(** What the operating system does with an operation. *)
Inductive io := IoOk | IoFails (left_behind : option string).

Definition AppendChunk (o : io) (p bytes : string) (first_chunk : bool) (d : gmap string string)
    : bool * gmap string string :=
  match o with
  | IoFails None => (false, d)
  | IoFails (Some garbage) => (false, <[p := garbage]> d)
  | IoOk =>
      if first_chunk then (true, <[p := bytes]> d)
      else match d !! p with
           | Some old => (true, <[p := old ++ bytes]> d)
           | None => (false, d)
           end
  end.

Section receiver.
Context {J : JsonCodec} {L : UploadLib}.
(** [uploads_dir_]. *)
Variable uploads_dir_ : string.

Definition HashFile (o : io) (p : string) (d : gmap string string) : string * Z :=
  match o, d !! p with
  | IoOk, Some contents => (Sha256Hex contents, Z.of_nat (String.length contents))
  | _, _ => ("", 0)
  end.

(** ** Numbers *)

(** [static_cast<int64_t>(double)]. *)
Definition cast_int64 (x : spec_float) : Z :=
  match x with
  | S754_zero _ => 0
  | S754_finite neg m e =>
      let z := if neg then - Z.shiftl (Zpos m) e else Z.shiftl (Zpos m) e in
      if (- 2 ^ 63 <=? z) && (z <? 2 ^ 63) then z else cast_out_of_range x
  | _ => cast_out_of_range x
  end.

(** [FindDouble] followed by the cast; an [int] value converts exactly. *)
Definition FindSize (k : string) (d : DictValue) : option Z :=
  match Find k d with
  | Some (VInt n) => Some n
  | Some (VDouble x) => Some (cast_int64 x)
  | _ => None
  end.

(** [static_cast<double>(int64_t)]. *)
Definition double_of (z : Z) : Value := VDouble (binary_normalize 53 1024 z 0 false).

(** ** Replies *)

Definition Send (env : DictValue) : eff rcv event unit :=
  match JSONWriter_Write (VDict env) with
  | Some json => emit (Sent env json)
  | None => mret tt
  end.

Definition progress_env (upload_id : string) (got total : Z) : DictValue :=
  Set_ "bytes_total" (double_of total)
    (Set_ "bytes_received" (double_of got)
      (Set_ "upload_id" (VString upload_id)
        (Set_ "type" (VString "file_upload_progress") (Set_ "v" (VInt kProtocolVersion) [])))).
Definition ReplyProgress (upload_id : string) (got total : Z) : eff rcv event unit :=
  Send (progress_env upload_id got total).

Definition complete_env (upload_id p : string) (attached : bool) : DictValue :=
  Set_ "attached_via" (VString (if attached then "fileChooser" else "none"))
    (Set_ "server_path" (VString p)
      (Set_ "upload_id" (VString upload_id)
        (Set_ "type" (VString "file_upload_complete") (Set_ "v" (VInt kProtocolVersion) [])))).
Definition ReplyComplete (upload_id p : string) (attached : bool) : eff rcv event unit :=
  Send (complete_env upload_id p attached).

Definition error_env (upload_id code message : string) : DictValue :=
  Set_ "error" (VString message)
    (Set_ "code" (VString code)
      (Set_ "upload_id" (VString upload_id)
        (Set_ "type" (VString "file_upload_error") (Set_ "v" (VInt kProtocolVersion) [])))).
Definition ReplyError (upload_id code message : string) : eff rcv event unit :=
  Send (error_env upload_id code message).

(** ** The chooser *)

Definition CancelChooser : eff rcv event unit :=
  emod (λ s, s <| chooser_deadline_ := false |>);;
  s ← eget;
  match pending_listener_ s with
  | None => mret tt
  | Some l =>
      emod (λ s, s <| pending_listener_ := None |>);;
      emit (FileSelectionCanceled l)
  end.

Definition BeginChooser (listener : nat) (mode : Mode) : eff rcv event unit :=
  CancelChooser;;
  emod (λ s, s <| pending_listener_ := Some listener |> <| pending_mode_ := mode |>
               <| chooser_deadline_ := true |>);;
  emit (Parked listener).

Definition ResolveChooserWith (p display : string) : eff rcv event bool :=
  s ← eget;
  match pending_listener_ s with
  | None => mret false
  | Some l =>
      emod (λ s, s <| chooser_deadline_ := false |> <| pending_listener_ := None |>);;
      emit (FileSelected l p display (pending_mode_ s));;
      mret true
  end.

(** ** Uploads *)

Definition post_pool (t : pool_task) : eff rcv event unit :=
  emod (λ s, s <| pool := (pool s ++ [t])%list |>).
Definition post_ui (t : ui_task) : eff rcv event unit :=
  emod (λ s, s <| ui := (ui s ++ [t])%list |>).
Definition set_upload (upload_id : string) (up : Upload) : eff rcv event unit :=
  emod (λ s, s <| uploads_ := <[upload_id := up]> (uploads_ s) |>).
Definition erase_upload (upload_id : string) : eff rcv event unit :=
  emod (λ s, s <| uploads_ := delete upload_id (uploads_ s) |>).

(** The iterator is the entry the caller has just found. *)
Definition AbandonUpload (upload_id : string) (up : Upload) (code message : string)
    : eff rcv event unit :=
  erase_upload upload_id;;
  post_pool (DeleteFileTask (path up));;
  ReplyError upload_id code message.

Definition ResetForNewSession : eff rcv event unit :=
  CancelChooser;;
  emod (λ s, s <| uploads_ := ∅ |> <| session_bytes_ := 0 |>);;
  post_pool DeleteDirTask.

Definition component (id name : string) : string := (SafeId id ++ "__" ++ SafeComponent name).

Definition HandleStart (data : DictValue) : eff rcv event unit :=
  match FindString "upload_id" data, FindString "name" data, FindString "sha256" data,
        FindSize "size" data with
  | Some id, Some nm, Some sha, Some declared =>
      let upload_id := SafeId id in
      s ← eget;
      if (declared <=? 0) || (kMaxUploadBytes <? declared) then
        ReplyError upload_id "too_large"
          ("file is " ++ NumberToString declared ++ " bytes; the limit is " ++
           NumberToString kMaxUploadBytes)
      else if kMaxSessionUploadBytes <? session_bytes_ s + declared then
        ReplyError upload_id "session_quota"
          ("this session has already uploaded " ++ NumberToString (session_bytes_ s) ++
           " bytes; the limit is " ++ NumberToString kMaxSessionUploadBytes)
      else
        set_upload upload_id
          (mkUpload (SafeComponent nm) (UTF8ToUTF16 nm) (ToLowerASCII sha) declared 0 0
             (AppendASCII uploads_dir_ (component id nm)) 0 false)
  | _, _, _, _ => mret tt
  end.

Definition HandleChunk (data : DictValue) : eff rcv event unit :=
  match FindString "upload_id" data, FindString "data" data, FindInt "seq" data with
  | Some id, Some b64, Some seq =>
      let upload_id := SafeId id in
      s ← eget;
      match uploads_ s !! upload_id with
      | None => mret tt
      | Some up =>
          if negb (seq =? next_seq up) then
            AbandonUpload upload_id up "out_of_order"
              ("expected seq " ++ NumberToString (next_seq up) ++ ", got " ++ NumberToString seq)
          else
            match Base64Decode b64 with
            | None => AbandonUpload upload_id up "bad_base64" "chunk did not decode"
            | Some bytes =>
                let chunk_bytes := Z.of_nat (String.length bytes) in
                if declared_size up <? received up + chunk_bytes then
                  AbandonUpload upload_id up "too_large" "more bytes arrived than the declared size"
                else
                  let up := up <| next_seq := next_seq up + 1 |>
                               <| received := received up + chunk_bytes |>
                               <| writes_in_flight := writes_in_flight up + 1 |> in
                  set_upload upload_id up;;
                  post_pool (AppendTask (path up) bytes (next_seq up =? 1) upload_id)
            end
      end
  | _, _, _ => mret tt
  end.

Definition FinaliseUpload (upload_id : string) : eff rcv event unit :=
  s ← eget;
  match uploads_ s !! upload_id with
  | None => mret tt
  | Some up => post_pool (HashTask upload_id (path up))
  end.

Definition OnChunkWritten (upload_id : string) (ok : bool) : eff rcv event unit :=
  s ← eget;
  match uploads_ s !! upload_id with
  | None => mret tt
  | Some up =>
      let up := if 0 <? writes_in_flight up
                then up <| writes_in_flight := writes_in_flight up - 1 |> else up in
      set_upload upload_id up;;
      if negb ok then
        AbandonUpload upload_id up "write_failed" ("could not write to " ++ path up)
      else
        ReplyProgress upload_id (received up) (declared_size up);;
        ewhen (end_pending up && (writes_in_flight up =? 0)) (FinaliseUpload upload_id)
  end.

Definition HandleEnd (data : DictValue) : eff rcv event unit :=
  match FindString "upload_id" data with
  | None => mret tt
  | Some id =>
      let upload_id := SafeId id in
      s ← eget;
      match uploads_ s !! upload_id with
      | None => mret tt
      | Some up =>
          if 0 <? writes_in_flight up then
            set_upload upload_id (up <| end_pending := true |>)
          else FinaliseUpload upload_id
      end
  end.

Definition OnFinalised (upload_id p actual_sha256 : string) (total_bytes : Z) (ok : bool)
    : eff rcv event unit :=
  s ← eget;
  match uploads_ s !! upload_id with
  | None => mret tt
  | Some up =>
      if negb ok then
        AbandonUpload upload_id up "hash_failed"
          ("the file could not be hashed — see the guest log for " ++
           "whether the read itself failed")
      else if negb (total_bytes =? declared_size up) then
        AbandonUpload upload_id up "truncated"
          ("expected " ++ NumberToString (declared_size up) ++ " bytes, have " ++
           NumberToString total_bytes)
      else if negb (String.eqb (sha256 up) "") && negb (String.eqb actual_sha256 (sha256 up)) then
        AbandonUpload upload_id up "hash_mismatch"
          ("expected " ++ sha256 up ++ ", got " ++ actual_sha256)
      else
        erase_upload upload_id;;
        emod (λ s, s <| session_bytes_ := session_bytes_ s + total_bytes |>);;
        attached ← ResolveChooserWith p (display_name up);
        ReplyComplete upload_id p attached
  end.

Definition HandleCancel (data : DictValue) : eff rcv event unit :=
  match FindString "upload_id" data with
  | None => mret tt
  | Some id =>
      let upload_id := SafeId id in
      CancelChooser;;
      s ← eget;
      match uploads_ s !! upload_id with
      | Some up => AbandonUpload upload_id up "cancelled" "the viewer cancelled the upload"
      | None => ReplyError upload_id "cancelled" "the viewer cancelled the upload"
      end
  end.

Definition HandleEnvelope (json : string) : eff rcv event unit :=
  match JSONReader_Read json with
  | Some (VDict parsed) =>
      match FindInt "v" parsed, FindString "type" parsed with
      | Some v, Some type =>
          if negb (v =? kProtocolVersion) then mret tt
          else if String.eqb type "file_upload_start" then HandleStart parsed
          else if String.eqb type "file_upload_chunk" then HandleChunk parsed
          else if String.eqb type "file_upload_end" then HandleEnd parsed
          else if String.eqb type "file_upload_cancel" then HandleCancel parsed
          else mret tt
      | _, _ => mret tt
      end
  | _ => mret tt
  end.

Definition OnMessage (binary : bool) (json : string) : eff rcv event unit :=
  if binary then mret tt else post_ui (UiHandleEnvelope json).

Definition CbFileUploadReceiver : rcv := mkRcv ∅ 0 None kOpen false true [] [] ∅.

Definition destroy : eff rcv event unit :=
  CancelChooser;; emod (λ s, s <| alive := false |>).

(** ** The sequences *)

(** One UI task; the callbacks are bound to a weak pointer. *)
Definition run_ui : eff rcv event unit :=
  s ← eget;
  match ui s with
  | [] => mret tt
  | t :: rest =>
      emod (λ s, s <| ui := rest |>);;
      if alive s then
        match t with
        | UiHandleEnvelope json => HandleEnvelope json
        | UiChunkWritten id ok => OnChunkWritten id ok
        | UiFinalised id p hash size => OnFinalised id p hash size (negb (String.eqb hash ""))
        end
      else mret tt
  end.

(** One pool task, any of them. *)
Definition run_task (n : nat) (o : io) : eff rcv event unit :=
  s ← eget;
  match pool s !! n with
  | None => mret tt
  | Some t =>
      emod (λ s, s <| pool := delete n (pool s) |>);;
      match t with
      | AppendTask p bytes first_chunk id =>
          let '(ok, d) := AppendChunk o p bytes first_chunk (disk s) in
          emod (λ s, s <| disk := d |>);;
          post_ui (UiChunkWritten id ok)
      | HashTask id p =>
          let '(hash, size) := HashFile o p (disk s) in
          post_ui (UiFinalised id p hash size)
      | DeleteFileTask p => emod (λ s, s <| disk := delete p (disk s) |>)
      | DeleteDirTask => emod (λ s, s <| disk := ∅ |>)
      end
  end.

Inductive input :=
| Message (binary : bool) (json : string)
| Chooser (listener : nat) (mode : Mode)
| Cancel
| Deadline
| Reset
| Destroy
| RunUi
| RunTask (n : nat) (o : io).

Definition handle (i : input) : eff rcv event unit :=
  match i with
  | Message binary json => OnMessage binary json
  | Chooser l mode => BeginChooser l mode
  | Cancel => CancelChooser
  | Deadline => CancelChooser
  | Reset => ResetForNewSession
  | Destroy => destroy
  | RunUi => run_ui
  | RunTask n o => run_task n o
  end.

Definition enabled (i : input) (s : rcv) : bool :=
  match i with
  | Deadline => alive s && chooser_deadline_ s
  | RunUi | RunTask _ _ => true
  | _ => alive s
  end.
End receiver.

(** ** Names stay inside the directory *)

Fixpoint all_safe (s : string) : bool :=
  match s with EmptyString => true | String c s' => safe_char c && all_safe s' end.

(** One path component that names a file of the directory itself. *)
Definition safe_name (c : string) : Prop :=
  all_safe c = true ∧ c ≠ "." ∧ c ≠ ".." ∧ (3 ≤ String.length c ≤ 194)%nat.

Lemma all_safe_app a b : all_safe (a ++ b) = all_safe a && all_safe b.
Proof. induction a as [|c a IH]; [done|]. rewrite str_app_cons. simpl. by rewrite IH, andb_assoc. Qed.

Lemma all_safe_take n s : all_safe s = true → all_safe (str_take n s) = true.
Proof.
  revert n. induction s as [|c s IH]; intros [|n]; simpl; try done.
  intros [Hc Hs]%andb_true_iff. rewrite Hc. simpl. by apply IH.
Qed.

Lemma str_take_length n s : String.length (str_take n s) = Nat.min n (String.length s).
Proof. revert n. induction s as [|c s IH]; intros [|n]; simpl; try done. by rewrite IH. Qed.

Lemma SafeComponent_safe raw :
  all_safe (SafeComponent raw) = true ∧ (1 ≤ String.length (SafeComponent raw) ≤ 128)%nat.
Proof.
  unfold SafeComponent. set (m := str_map _ raw).
  assert (all_safe m = true) as Hm.
  { subst m. induction raw as [|c raw IH]; [done|]. simpl. rewrite IH, andb_true_r.
    by destruct (safe_char c) eqn:E. }
  set (out := if _ || _ || _ then "upload" else m).
  assert (all_safe out = true ∧ (1 ≤ String.length out)%nat) as [Ho Hl].
  { subst out. destruct (String.eqb_spec m ""); simpl; [split; [done|lia]|].
    destruct (String.eqb m "." || String.eqb m ".."); [split; [done|simpl; lia]|].
    split; [done|]. destruct m; simpl in *; [done|lia]. }
  destruct (Nat.ltb_spec 128 (String.length out)).
  - rewrite str_take_length. split; [by apply all_safe_take|lia].
  - split; [done|lia].
Qed.

Lemma SafeId_safe raw :
  all_safe (SafeId raw) = true ∧ (1 ≤ String.length (SafeId raw) ≤ 64)%nat.
Proof.
  unfold SafeId. destruct (SafeComponent_safe raw) as [Hs Hl].
  destruct (Nat.ltb_spec 64 (String.length (SafeComponent raw))).
  - rewrite str_take_length. split; [by apply all_safe_take|lia].
  - split; [done|lia].
Qed.

Lemma component_safe id nm : safe_name (component id nm).
Proof.
  unfold component, safe_name.
  destruct (SafeId_safe id) as [H1 H2], (SafeComponent_safe nm) as [H3 H4].
  rewrite !all_safe_app, H1, H3. rewrite !str_length_app. simpl.
  assert (∀ t, (String.length t <= 2)%nat → (SafeId id ++ "__" ++ SafeComponent nm) ≠ t) as Hne.
  { intros t Ht E. apply (f_equal String.length) in E. rewrite !str_length_app in E. simpl in E. lia. }
  split_and!; [done|apply Hne; simpl; lia|apply Hne; simpl; lia|lia|lia].
Qed.

(** A codec and a library for concrete runs: no character is escaped. *)
Definition plain_lib : UploadLib := {|
  Base64Decode s := Some s;
  Sha256Hex s := "hash of " ++ s;
  ToLowerASCII s := s;
  UTF8ToUTF16 s := s;
  AppendASCII d c := d ++ "/" ++ c;
  NumberToString _ := "n";
  cast_out_of_range _ := 0;
|}.

(** ** The chooser is resolved exactly once *)

Section theorems.
Context {J : JsonCodec} {L : UploadLib}.
Variable uploads_dir_ : string.

Abbreviation handle := (FileUpload.handle uploads_dir_).

Definition is_parked (l : nat) (e : event) : bool :=
  match e with Parked l' => Nat.eqb l l' | _ => false end.
Definition is_resolved (l : nat) (e : event) : bool :=
  match e with
  | FileSelected l' _ _ _ | FileSelectionCanceled l' => Nat.eqb l l'
  | _ => false
  end.
Definition count (f : event → bool) (tr : list event) : nat := List.length (List.filter f tr).
Definition pending (l : nat) (s : rcv) : nat :=
  match pending_listener_ s with Some l' => if Nat.eqb l l' then 1 else 0 | None => 0 end.

(** Parkings and resolutions of [l] differ by whether it is parked now. *)
Definition balanced (l : nat) (s : rcv) (es : list event) (s' : rcv) : Prop :=
  (count (is_parked l) es + pending l s = count (is_resolved l) es + pending l s')%nat.

Lemma count_app f a b : count f (a ++ b)%list = (count f a + count f b)%nat.
Proof. unfold count. rewrite List.filter_app. apply List.length_app. Qed.

#[export] Instance balanced_rel l : TraceRel (balanced l).
Proof.
  unfold balanced. split; [done|]. intros s1 s2 s3 es1 es2. rewrite !count_app. lia.
Qed.

Hint Resolve respects_get : eff.

Lemma balanced_Send l env : respects (balanced l) (Send env).
Proof. unfold Send. destruct (JSONWriter_Write _); intros st; done. Qed.

Lemma balanced_mod l g :
  (∀ s, pending_listener_ (g s) = pending_listener_ s) → respects (balanced l) (emod g).
Proof. intros H s. unfold balanced, pending. simpl. by rewrite H. Qed.

Lemma balanced_CancelChooser l : respects (balanced l) CancelChooser.
Proof.
  intros s. unfold balanced, pending, CancelChooser, count, events, exec. rewrite mod_run, get_run.
  simpl. destruct (pending_listener_ s) as [n|] eqn:E; simpl; rewrite ?E; [|done]. by destruct (Nat.eqb l n).
Qed.

Lemma balanced_ResolveChooserWith l p d : respects (balanced l) (ResolveChooserWith p d).
Proof.
  intros s. unfold balanced, pending, ResolveChooserWith, count, events, exec. rewrite get_run.
  destruct (pending_listener_ s) as [n|] eqn:E; simpl; rewrite ?E; [|done]. by destruct (Nat.eqb l n).
Qed.

Lemma balanced_BeginChooser l n m : respects (balanced l) (BeginChooser n m).
Proof.
  unfold BeginChooser. intros s. rewrite exec_bind, events_bind.
  pose proof (balanced_CancelChooser l s) as Hc.
  assert (pending_listener_ (exec CancelChooser s) = None) as Hp.
  { unfold CancelChooser, exec. rewrite mod_run, get_run. simpl.
    by destruct (pending_listener_ s) eqn:E. }
  unfold balanced in *. rewrite !count_app. unfold pending in Hc at 2. rewrite Hp in Hc.
  unfold pending at 2. unfold count at 2 4. simpl. destruct (Nat.eqb l n); simpl; lia.
Qed.
Hint Resolve balanced_Send balanced_mod balanced_CancelChooser balanced_ResolveChooserWith
  balanced_BeginChooser : eff.

Lemma balanced_post_pool l t : respects (balanced l) (post_pool t).
Proof. by apply balanced_mod. Qed.
Lemma balanced_post_ui l t : respects (balanced l) (post_ui t).
Proof. by apply balanced_mod. Qed.
Lemma balanced_set_upload l id up : respects (balanced l) (set_upload id up).
Proof. by apply balanced_mod. Qed.
Lemma balanced_erase_upload l id : respects (balanced l) (erase_upload id).
Proof. by apply balanced_mod. Qed.
Hint Resolve balanced_post_pool balanced_post_ui balanced_set_upload balanced_erase_upload : eff.

Lemma balanced_AbandonUpload l id up c m : respects (balanced l) (AbandonUpload id up c m).
Proof. unfold AbandonUpload, ReplyError. auto 10 with eff. Qed.

(** Decide the matches and tests of a handler, then compose. *)
Ltac handler_cases :=
  repeat first
    [ apply respects_get; intros ?
    | case_match
    | progress cbv zeta ];
  auto 15 with eff.

Lemma balanced_FinaliseUpload l id : respects (balanced l) (FinaliseUpload id).
Proof. unfold FinaliseUpload. handler_cases. Qed.
Hint Resolve balanced_AbandonUpload balanced_FinaliseUpload : eff.

Lemma balanced_handle l i : respects (balanced l) (handle i).
Proof.
  assert (∀ data, respects (balanced l) (HandleStart uploads_dir_ data))
    by (intros; unfold HandleStart, ReplyError; handler_cases).
  assert (∀ data, respects (balanced l) (HandleChunk data))
    by (intros; unfold HandleChunk; handler_cases).
  assert (∀ data, respects (balanced l) (HandleEnd data))
    by (intros; unfold HandleEnd; handler_cases).
  assert (∀ data, respects (balanced l) (HandleCancel data)).
  { intros. unfold HandleCancel, ReplyError. case_match; auto with eff.
    apply respects_bind; [apply _|auto with eff|]. intros _. handler_cases. }
  assert (∀ json, respects (balanced l) (HandleEnvelope uploads_dir_ json))
    by (intros; unfold HandleEnvelope; handler_cases).
  assert (∀ id ok, respects (balanced l) (OnChunkWritten id ok))
    by (intros; unfold OnChunkWritten, ReplyProgress; handler_cases).
  assert (∀ id p h t ok, respects (balanced l) (OnFinalised id p h t ok))
    by (intros; unfold OnFinalised, ReplyComplete; handler_cases).
  destruct i; simpl; auto with eff.
  - unfold OnMessage. handler_cases.
  - unfold ResetForNewSession. auto with eff.
  - unfold destroy. auto with eff.
  - unfold run_ui. handler_cases.
  - unfold run_task. handler_cases.
Qed.

Lemma CancelChooser_clears l s : pending l (exec CancelChooser s) = 0%nat.
Proof.
  unfold pending, CancelChooser, exec. rewrite mod_run, get_run. simpl.
  by destruct (pending_listener_ s) eqn:E; simpl; rewrite ?E.
Qed.

(** C7. Every parked file chooser is resolved exactly once: in every execution,
    whatever the viewer, the disk and the page do, each parking of a listener
    but one that is still pending has been followed by one call of
    [FileSelected] or [FileSelectionCanceled], and destroying the receiver
    resolves what is left. *)
Theorem chooser_resolved_once s tr l :
  reachable enabled handle CbFileUploadReceiver s tr →
  (count (is_parked l) tr = count (is_resolved l) tr + pending l s)%nat ∧
  count (is_parked l) (tr ++ events destroy s)%list = count (is_resolved l) (tr ++ events destroy s)%list.
Proof.
  intros Hr. assert (count (is_parked l) tr = count (is_resolved l) tr + pending l s)%nat as H.
  { revert s tr Hr. apply reachable_trace_inv; [done|]. intros i s tr _ IH _.
    pose proof (balanced_handle l i s) as H. unfold balanced in H. rewrite !count_app. lia. }
  split; [exact H|]. pose proof (balanced_handle l Destroy s) as Hd. unfold balanced in Hd.
  cbn [FileUpload.handle] in Hd. rewrite !count_app.
  assert (pending l (exec destroy s) = 0%nat) as Hz.
  { unfold destroy. rewrite exec_bind. etrans; [|apply (CancelChooser_clears l s)]. done. }
  lia.
Qed.

(** ** Every path is under [Uploads/] *)

Definition confined (p : string) : Prop := ∃ c, p = AppendASCII uploads_dir_ c ∧ safe_name c.

Definition task_confined (t : pool_task) : Prop :=
  match t with
  | AppendTask p _ _ _ | HashTask _ p | DeleteFileTask p => confined p
  | DeleteDirTask => True
  end.
Definition ui_confined (t : ui_task) : Prop :=
  match t with UiFinalised _ p _ _ => confined p | _ => True end.
Definition event_confined (e : event) : Prop :=
  match e with FileSelected _ p _ _ => confined p | _ => True end.

Definition paths_inv (s : rcv) : Prop :=
  map_Forall (λ _ up, confined (path up)) (uploads_ s) ∧ Forall task_confined (pool s) ∧
  Forall ui_confined (ui s) ∧ map_Forall (λ p _, confined p) (disk s).

Abbreviation keeps m := (respects (keeping paths_inv event_confined) m).
Create HintDb paths.

Lemma keeps_mod g : (∀ s, paths_inv s → paths_inv (g s)) → keeps (emod g).
Proof. apply keeping_mod. Qed.

Lemma keeps_Send env : keeps (Send env).
Proof. unfold Send. case_match; auto with eff. by apply keeping_emit. Qed.

Lemma keeps_post_pool t : task_confined t → keeps (post_pool t).
Proof.
  intros Ht. apply keeps_mod. intros s (H1 & H2 & H3 & H4). split_and!; try done. simpl.
  apply Forall_app. split; [done|]. by constructor.
Qed.
Lemma keeps_post_ui t : ui_confined t → keeps (post_ui t).
Proof.
  intros Ht. apply keeps_mod. intros s (H1 & H2 & H3 & H4). split_and!; try done. simpl.
  apply Forall_app. split; [done|]. by constructor.
Qed.
Lemma keeps_set_upload id up : confined (path up) → keeps (set_upload id up).
Proof.
  intros Hu. apply keeps_mod. intros s (H1 & H2 & H3 & H4). split_and!; try done. simpl.
  by apply map_Forall_insert_2.
Qed.
Lemma keeps_erase_upload id : keeps (erase_upload id).
Proof.
  apply keeps_mod. intros s (H1 & H2 & H3 & H4). split_and!; try done. simpl.
  by apply map_Forall_delete.
Qed.
Lemma paths_lookup s id up : paths_inv s → uploads_ s !! id = Some up → confined (path up).
Proof. intros (H1 & _) Hu. exact (H1 id up Hu). Qed.

Lemma keeps_CancelChooser : keeps CancelChooser.
Proof.
  apply respects_bind; [apply _|by apply keeps_mod|]. intros _.
  apply keeping_get. intros s _. case_match; auto with eff.
  apply respects_bind; [apply _|by apply keeps_mod|]. intros _. by apply keeping_emit.
Qed.
Lemma keeps_ResolveChooserWith p d : confined p → keeps (ResolveChooserWith p d).
Proof.
  intros Hp. apply keeping_get. intros s _. case_match; [|by apply respects_ret, _].
  apply respects_bind; [apply _|by apply keeps_mod|]. intros _.
  apply respects_bind; [apply _|by apply keeping_emit|]. intros _. by apply respects_ret, _.
Qed.
Lemma keeps_AbandonUpload id up c m : confined (path up) → keeps (AbandonUpload id up c m).
Proof.
  intros Hp. apply respects_bind; [apply _|apply keeps_erase_upload|]. intros _.
  apply respects_bind; [apply _|by apply keeps_post_pool|]. intros _. apply keeps_Send.
Qed.
Lemma keeps_FinaliseUpload id : keeps (FinaliseUpload id).
Proof.
  apply keeping_get. intros s Hs. destruct (uploads_ s !! id) as [up|] eqn:E; [|by apply respects_ret, _].
  apply keeps_post_pool. exact (paths_lookup s id up Hs E).
Qed.
Hint Resolve keeps_Send keeps_post_pool keeps_post_ui keeps_set_upload keeps_erase_upload
  keeps_CancelChooser keeps_ResolveChooserWith keeps_AbandonUpload keeps_FinaliseUpload : paths.
Hint Resolve paths_lookup : paths.
Hint Extern 1 (ui_confined _) => exact I : paths.
Hint Extern 1 (task_confined _) => exact I : paths.

(** As [handler_cases], remembering that the snapshot satisfies the invariant. *)
Ltac found_upload :=
  match goal with
  | Hs : paths_inv ?s, Hu : uploads_ ?s !! _ = Some _ |- _ => exact (paths_lookup _ _ _ Hs Hu)
  end.
Ltac keeps_step :=
  first
    [ solve [eauto with paths]
    | first [apply keeps_set_upload | apply keeps_post_pool | apply keeps_AbandonUpload]; found_upload
    | apply keeping_get; intros ? ?
    | apply respects_ret; apply _
    | case_match
    | apply respects_when; [apply _|]
    | apply respects_bind; [apply _| |intros ?] ].
Ltac keeps_cases := repeat (cbv zeta; keeps_step).

Lemma AppendChunk_confined o p bytes f d ok d' :
  confined p → map_Forall (λ p _, confined p) d → AppendChunk o p bytes f d = (ok, d') →
  map_Forall (λ p _, confined p) d'.
Proof.
  intros Hp Hd. unfold AppendChunk. intros H. split_ifs; first [done | by apply map_Forall_insert_2].
Qed.

Lemma keeps_handle i : keeps (handle i).
Proof.
  assert (∀ data, keeps (HandleStart uploads_dir_ data)).
  { intros data. unfold HandleStart, ReplyError. keeps_cases. apply keeps_set_upload.
    eexists. split; [reflexivity|]. apply component_safe. }
  assert (∀ data, keeps (HandleChunk data)) by (intros; unfold HandleChunk; keeps_cases).
  assert (∀ data, keeps (HandleEnd data)) by (intros; unfold HandleEnd; keeps_cases).
  assert (∀ data, keeps (HandleCancel data)) by (intros; unfold HandleCancel, ReplyError; keeps_cases).
  assert (∀ json, keeps (HandleEnvelope uploads_dir_ json))
    by (intros; unfold HandleEnvelope; keeps_cases; auto).
  assert (∀ id ok, keeps (OnChunkWritten id ok)).
  { intros. unfold OnChunkWritten, ReplyProgress. apply keeping_get. intros s Hs.
    destruct (uploads_ s !! id) as [up|] eqn:E; [|keeps_step]. cbv zeta.
    assert (confined (path (if 0 <? writes_in_flight up
      then up <| writes_in_flight := writes_in_flight up - 1 |> else up))).
    { apply paths_lookup in E; [|done]. by case_match. }
    keeps_cases. }
  assert (∀ id p h t ok, confined p → keeps (OnFinalised id p h t ok)).
  { intros. unfold OnFinalised, ReplyComplete. keeps_cases. by apply keeps_mod. }
  destruct i; cbn [FileUpload.handle].
  - unfold OnMessage. keeps_cases.
  - unfold BeginChooser. keeps_cases; [by apply keeps_mod|by apply keeping_emit].
  - keeps_cases.
  - keeps_cases.
  - unfold ResetForNewSession. keeps_cases. apply keeps_mod.
    intros s (P1 & P2 & P3 & P4). by split_and!.
  - unfold destroy. keeps_cases. by apply keeps_mod.
  - unfold run_ui. apply keeping_get. intros s Hs. pose proof Hs as (_ & _ & Hui & _).
    destruct (ui s) as [|t rest]; [keeps_step|]. apply Forall_cons in Hui as [Ht Hrest].
    apply respects_bind; [apply _| |intros _].
    + apply keeps_mod. intros s' (P1 & P2 & P3 & P4). by split_and!.
    + destruct (alive s); [|keeps_step]. destruct t; auto.
  - unfold run_task. apply keeping_get. intros s Hs. pose proof Hs as (_ & Hpool & _ & Hdisk).
    destruct (pool s !! n) as [t|] eqn:Ht; [|keeps_step].
    apply (Forall_lookup_1 _ _ _ _ Hpool) in Ht.
    apply respects_bind; [apply _| |intros _].
    + apply keeps_mod. intros s' (P1 & P2 & P3 & P4). split_and!; try done. by apply Forall_delete.
    + destruct t as [p bytes f id|id p|p|].
      * destruct (AppendChunk o p bytes f (disk s)) as [ok d] eqn:Ha.
        apply AppendChunk_confined in Ha; [|done..].
        keeps_cases. apply keeps_mod. intros s' (P1 & P2 & P3 & P4). by split_and!.
      * destruct (HashFile o p (disk s)). by apply keeps_post_ui.
      * apply keeps_mod. intros s' (P1 & P2 & P3 & P4). split_and!; try done. by apply map_Forall_delete.
      * apply keeps_mod. intros s' (P1 & P2 & P3 & P4). by split_and!.
Qed.

(** A path never comes from the wire: in every execution each file the
    receiver writes, hashes, deletes or hands to a page is [Uploads/] joined
    with one component of at most 194 characters of [A-Za-z0-9._-] that is
    neither [.] nor [..], whatever the viewer sends as name and id. *)
Theorem upload_paths_confined s tr :
  reachable enabled handle CbFileUploadReceiver s tr →
  (∀ p contents, disk s !! p = Some contents → confined p) ∧
  (∀ t, t ∈ pool s → task_confined t) ∧
  (∀ l p d m, FileSelected l p d m ∈ tr → confined p).
Proof.
  intros Hr. assert (paths_inv s ∧ Forall event_confined tr) as [(_ & Hp & _ & Hd) He].
  { revert s tr Hr. apply reachable_trace_inv; [by repeat split; try apply map_Forall_empty|].
    intros i s tr _ [Hs Htr] _. destruct (keeps_handle i s Hs) as [Hs' He].
    split; [done|]. by apply Forall_app. }
  split_and!.
  - intros p c Hc. exact (Hd p c Hc).
  - intros t Ht. rewrite Forall_forall in Hp. auto.
  - intros l p d m Hin. rewrite Forall_forall in He. exact (He _ Hin).
Qed.

(** ** A whole upload *)

(** The envelopes the client sends, keys in order. *)
Definition start_env (id nm sha : string) (size : Z) : DictValue :=
  [("name", VString nm); ("sha256", VString sha); ("size", VInt size);
   ("type", VString "file_upload_start"); ("upload_id", VString id); ("v", VInt 1)].
Definition chunk_env (id b64 : string) (seq : Z) : DictValue :=
  [("data", VString b64); ("seq", VInt seq); ("type", VString "file_upload_chunk");
   ("upload_id", VString id); ("v", VInt 1)].
Definition end_env (id : string) : DictValue :=
  [("type", VString "file_upload_end"); ("upload_id", VString id); ("v", VInt 1)].

Definition sent (env : DictValue) : list event :=
  match JSONWriter_Write (VDict env) with Some json => [Sent env json] | None => [] end.

Lemma Send_run env s : Send env s = (tt, s, sent env).
Proof. unfold Send, sent. by destruct (JSONWriter_Write _). Qed.

(** A message handled at once, when nothing else waits on the UI sequence. *)
Lemma message_run json s :
  alive s = true → ui s = [] →
  run handle [Message false json; RunUi] s = HandleEnvelope uploads_dir_ json s.
Proof.
  intros Ha Hu. destruct s as [us sb pl pm cd al u po d]. simpl in Ha, Hu. subst.
  unfold run. rewrite !fmap_cons, fmap_nil. cbn [eseq FileUpload.handle OnMessage].
  unfold post_ui, run_ui, mbind, eff_bind, emod, eget, mret, eff_ret, set_field.
  simpl. destruct (HandleEnvelope uploads_dir_ json _) as [[[] s1] es]. by rewrite app_nil_r.
Qed.

(** The receiver with nothing in flight. *)
Definition at_rest (us : gmap string Upload) (sb : Z) (pl : option nat) (pm : Mode) (cd : bool)
    (d : gmap string string) : rcv := mkRcv us sb pl pm cd true [] [] d.

Definition started (id nm sha : string) (size : Z) : Upload :=
  mkUpload (SafeComponent nm) (UTF8ToUTF16 nm) (ToLowerASCII sha) size 0 0
    (AppendASCII uploads_dir_ (component id nm)) 0 false.

Lemma start_round id nm sha size json us sb pl pm cd d :
  JSONReader_Read json = Some (VDict (start_env id nm sha size)) →
  0 < size ≤ kMaxUploadBytes → sb + size ≤ kMaxSessionUploadBytes →
  run handle [Message false json; RunUi] (at_rest us sb pl pm cd d) =
  (tt, at_rest (<[SafeId id := started id nm sha size]> us) sb pl pm cd d, []).
Proof.
  intros Hj Hs Hq. rewrite message_run by done. unfold HandleEnvelope. rewrite Hj.
  cbn [start_env FindInt FindString Find String.eqb Ascii.eqb Bool.eqb].
  change (HandleStart uploads_dir_ (start_env id nm sha size) (at_rest us sb pl pm cd d) =
    (tt, at_rest (<[SafeId id := started id nm sha size]> us) sb pl pm cd d, [])).
  unfold HandleStart.
  change (FindString "upload_id" (start_env id nm sha size)) with (Some id).
  change (FindString "name" (start_env id nm sha size)) with (Some nm).
  change (FindString "sha256" (start_env id nm sha size)) with (Some sha).
  change (FindSize "size" (start_env id nm sha size)) with (Some size).
  cbv zeta iota beta. rewrite get_run.
  destruct (Z.leb_spec size 0); [lia|]. destruct (Z.ltb_spec kMaxUploadBytes size); [lia|].
  cbn [orb session_bytes_ at_rest].
  destruct (Z.ltb_spec kMaxSessionUploadBytes (sb + size)); [lia|]. done.
Qed.

(** The upload after [m] more chunks of [n] bytes together. *)
Definition advance (m : Z) (n : nat) (up : Upload) : Upload :=
  up <| next_seq := next_seq up + m |> <| received := received up + Z.of_nat n |>.

Definition serial_chunk (json : string) : list input :=
  [Message false json; RunUi] ++ [RunTask 0 IoOk; RunUi].

(** A pool write and its reply. *)
Lemma append_run us sb pl pm cd p bytes f id d a ok d' :
  AppendChunk IoOk p bytes f d = (ok, d') →
  handle (RunTask 0 IoOk) (mkRcv us sb pl pm cd a [] [AppendTask p bytes f id] d) =
  (tt, mkRcv us sb pl pm cd a [UiChunkWritten id ok] [] d', []).
Proof.
  intros Ha. cbn [FileUpload.handle]. unfold run_task. rewrite get_run.
  cbn [pool lookup list_lookup]. rewrite mod_run.
  change (disk (mkRcv us sb pl pm cd a [] [AppendTask p bytes f id] d)) with d.
  by rewrite Ha.
Qed.

Lemma written_run us sb pl pm cd id ok po d :
  run_ui uploads_dir_ (mkRcv us sb pl pm cd true [UiChunkWritten id ok] po d) =
  OnChunkWritten id ok (mkRcv us sb pl pm cd true [] po d).
Proof. unfold run_ui. rewrite get_run. simpl. by rewrite mod_run. Qed.

Lemma chunk_round id b64 bytes json up old us sb pl pm cd d :
  JSONReader_Read json = Some (VDict (chunk_env id b64 (next_seq up))) →
  us !! SafeId id = Some up → Base64Decode b64 = Some bytes →
  writes_in_flight up = 0 → end_pending up = false → 0 ≤ next_seq up →
  received up + Z.of_nat (String.length bytes) ≤ declared_size up →
  (next_seq up = 0 ∧ old = "" ∨ 0 < next_seq up ∧ d !! path up = Some old) →
  run handle (serial_chunk json) (at_rest us sb pl pm cd d) =
  (tt, at_rest (<[SafeId id := advance 1 (String.length bytes) up]> us) sb pl pm cd
         (<[path up := old ++ bytes]> d),
   sent (progress_env (SafeId id) (received up + Z.of_nat (String.length bytes)) (declared_size up))).
Proof.
  intros Hj Hu Hb Hw He Hn Hr Ho. unfold serial_chunk.
  set (flying := advance 1 (String.length bytes) up <| writes_in_flight := 1 |>).
  eapply (run_chain _ _ _ _ (mkRcv (<[SafeId id := flying]> us) sb pl pm cd true []
    [AppendTask (path up) bytes (next_seq up + 1 =? 1) (SafeId id)] d) _ []).
  - rewrite message_run by done. unfold HandleEnvelope. rewrite Hj.
    change (HandleChunk (chunk_env id b64 (next_seq up)) (at_rest us sb pl pm cd d) =
      (tt, mkRcv (<[SafeId id := flying]> us) sb pl pm cd true []
        [AppendTask (path up) bytes (next_seq up + 1 =? 1) (SafeId id)] d, [])).
    unfold HandleChunk.
    change (FindString "upload_id" (chunk_env id b64 (next_seq up))) with (Some id).
    change (FindString "data" (chunk_env id b64 (next_seq up))) with (Some b64).
    change (FindInt "seq" (chunk_env id b64 (next_seq up))) with (Some (next_seq up)).
    cbv zeta iota beta. rewrite get_run. cbn [uploads_ at_rest]. rewrite Hu, Z.eqb_refl, Hb.
    cbn [negb]. cbv zeta. destruct (Z.ltb_spec (declared_size up) (received up + Z.of_nat (String.length bytes))); [lia|].
    subst flying. unfold advance. destruct up. simpl in *. by subst.
  - assert (AppendChunk IoOk (path up) bytes (next_seq up + 1 =? 1) d =
      (true, <[path up := old ++ bytes]> d)) as Ha.
    { unfold AppendChunk. destruct Ho as [[-> ->]|[Hpos Hd]]; [done|].
      destruct (Z.eqb_spec (next_seq up + 1) 1); [lia|]. by rewrite Hd. }
    rewrite run_two. unfold mbind, eff_bind.
    rewrite (append_run _ _ _ _ _ _ _ _ _ _ _ true (<[path up := old ++ bytes]> d)) by exact Ha.
    cbn [FileUpload.handle]. rewrite written_run.
    unfold OnChunkWritten, set_upload, ReplyProgress. rewrite get_run. cbn [uploads_].
    rewrite lookup_insert_eq. cbn [writes_in_flight flying].
    subst flying. unfold advance. simpl. unfold mbind, eff_bind, emod. rewrite Send_run. simpl.
    unfold ewhen. rewrite He. simpl. rewrite insert_insert_eq, app_nil_r. unfold at_rest.
    destruct up; simpl in *; by subst.
Qed.

(** Chunks as message, base64 text and bytes, numbered from [k]. *)
Fixpoint chunks_ok (id : string) (k : Z) (cs : list (string * string * string)) : Prop :=
  match cs with
  | [] => True
  | (json, b64, bytes) :: cs' =>
      JSONReader_Read json = Some (VDict (chunk_env id b64 k)) ∧ Base64Decode b64 = Some bytes ∧
      chunks_ok id (k + 1) cs'
  end.
Definition chunk_inputs (cs : list (string * string * string)) : list input :=
  List.concat ((λ c, serial_chunk c.1.1) <$> cs).
Fixpoint content (cs : list (string * string * string)) : string :=
  match cs with [] => "" | c :: cs' => c.2 ++ content cs' end.
Fixpoint progress_events (id : string) (got total : Z) (cs : list (string * string * string))
    : list event :=
  match cs with
  | [] => []
  | c :: cs' =>
      let got := got + Z.of_nat (String.length c.2) in
      (sent (progress_env id got total) ++ progress_events id got total cs')%list
  end.

Lemma advance_advance m1 n1 m2 n2 up :
  advance m2 n2 (advance m1 n1 up) = advance (m1 + m2) (n1 + n2) up.
Proof.
  unfold advance, set_field. simpl. f_equal; lia.
Qed.

Lemma chunks_round id cs : ∀ up old us sb pl pm cd d,
  chunks_ok id (next_seq up) cs → us !! SafeId id = Some up →
  writes_in_flight up = 0 → end_pending up = false → 0 < next_seq up →
  received up + Z.of_nat (String.length (content cs)) ≤ declared_size up →
  d !! path up = Some old →
  run handle (chunk_inputs cs) (at_rest us sb pl pm cd d) =
  (tt, at_rest (<[SafeId id := advance (Z.of_nat (List.length cs)) (String.length (content cs)) up]> us)
         sb pl pm cd (<[path up := old ++ content cs]> d),
   progress_events (SafeId id) (received up) (declared_size up) cs).
Proof.
  induction cs as [|[[json b64] bytes] cs IH]; intros up old us sb pl pm cd d Hc Hu Hw He Hn Hr Hd.
  - unfold run, chunk_inputs. simpl. rewrite str_app_nil.
    rewrite (insert_id d) by done. rewrite insert_id; [done|]. rewrite Hu. f_equal.
    unfold advance, set_field. destruct up; simpl. f_equal; lia.
  - destruct Hc as (Hj & Hb & Hc). cbn [content] in Hr. rewrite str_length_app in Hr. simpl in Hr.
    set (up1 := advance 1 (String.length bytes) up).
    eassert (run handle (serial_chunk json) (at_rest us sb pl pm cd d) = _) as H1.
    { apply (chunk_round id b64 bytes json up old); try done; [lia|lia|by right]. }
    eassert (run handle (chunk_inputs cs) (at_rest (<[SafeId id := up1]> us) sb pl pm cd
      (<[path up := old ++ bytes]> d)) = _) as H2.
    { apply (IH up1 (old ++ bytes)); try done.
      - by rewrite lookup_insert_eq.
      - subst up1. unfold advance. simpl. lia.
      - subst up1. unfold advance. simpl. lia.
      - by rewrite lookup_insert_eq. }
    pose proof (run_chain _ _ _ _ _ _ _ _ H1 H2) as H. unfold chunk_inputs in *. rewrite fmap_cons.
    cbn [List.concat fst]. rewrite H. f_equal. f_equal.
    + rewrite !insert_insert_eq. subst up1. rewrite advance_advance. cbn [content]. cbn [snd].
      rewrite str_length_app, str_app_assoc.
      by replace (1 + Z.of_nat (List.length cs)) with (Z.of_nat (List.length ((json, b64, bytes) :: cs)))
        by (cbn [List.length]; lia).
Qed.

(** What the receiver decides about the finished file. *)
Definition accepted (up : Upload) (contents : string) : bool :=
  (Z.of_nat (String.length contents) =? declared_size up) &&
  (String.eqb (sha256 up) "" || String.eqb (Sha256Hex contents) (sha256 up)).

(** Handing a file to the page, if a chooser waits. *)
Definition attach (pl : option nat) (pm : Mode) (p display : string) : list event :=
  match pl with Some l => [FileSelected l p display pm] | None => [] end.

Lemma abandon_run id up c m us sb pl pm cd d :
  ∃ code msg, AbandonUpload id up c m (at_rest us sb pl pm cd d) =
    (tt, mkRcv (delete id us) sb pl pm cd true [] [DeleteFileTask (path up)] d,
     sent (error_env id code msg)).
Proof.
  exists c, m. unfold AbandonUpload, erase_upload, post_pool, ReplyError, mbind, eff_bind, emod.
  by rewrite Send_run.
Qed.

Lemma verdict_run id up contents us sb pl pm cd d :
  us !! id = Some up →
  ∃ code msg, OnFinalised id (path up) (Sha256Hex contents) (Z.of_nat (String.length contents)) true
    (at_rest us sb pl pm cd d) =
  if accepted up contents then
    (tt, at_rest (delete id us) (sb + declared_size up) None pm
           (match pl with Some _ => false | None => cd end) d,
     (attach pl pm (path up) (display_name up) ++
      sent (complete_env id (path up) (bool_decide (is_Some pl))))%list)
  else (tt, mkRcv (delete id us) sb pl pm cd true [] [DeleteFileTask (path up)] d,
        sent (error_env id code msg)).
Proof.
  intros Hu. unfold OnFinalised. rewrite get_run. cbn [uploads_ at_rest]. rewrite Hu. cbn [negb].
  unfold accepted. destruct (Z.eqb_spec (Z.of_nat (String.length contents)) (declared_size up)) as [->|Hne];
    cbn [negb andb].
  - destruct (String.eqb (sha256 up) "") eqn:Hs, (String.eqb (Sha256Hex contents) (sha256 up)) eqn:Hh;
      cbn [negb andb orb].
    1-3: exists "", ""; unfold erase_upload, ResolveChooserWith, ReplyComplete, mbind, eff_bind, emod, eget, at_rest;
      simpl; destruct pl; simpl; rewrite Send_run; done.
    apply abandon_run.
  - apply abandon_run.
Qed.

Definition end_inputs (json : string) : list input :=
  [Message false json; RunUi] ++ [RunTask 0 IoOk; RunUi].

Lemma end_round id json up contents us sb pl pm cd d :
  JSONReader_Read json = Some (VDict (end_env id)) →
  us !! SafeId id = Some up → writes_in_flight up = 0 → d !! path up = Some contents →
  Sha256Hex contents ≠ "" →
  run handle (end_inputs json) (at_rest us sb pl pm cd d) =
  OnFinalised (SafeId id) (path up) (Sha256Hex contents) (Z.of_nat (String.length contents)) true
    (at_rest us sb pl pm cd d).
Proof.
  intros Hj Hu Hw Hd Hh. unfold end_inputs.
  destruct (OnFinalised _ _ _ _ _ _) as [[[] s2] es2] eqn:Hf.
  apply (run_chain _ _ _ _ (mkRcv us sb pl pm cd true [] [HashTask (SafeId id) (path up)] d) _ [] es2).
  - rewrite message_run by done. unfold HandleEnvelope. rewrite Hj.
    change (HandleEnd (end_env id) (at_rest us sb pl pm cd d) =
      (tt, mkRcv us sb pl pm cd true [] [HashTask (SafeId id) (path up)] d, [])).
    unfold HandleEnd. change (FindString "upload_id" (end_env id)) with (Some id).
    cbv zeta iota beta. rewrite get_run. cbn [uploads_ at_rest]. rewrite Hu, Hw.
    cbn [Z.ltb Z.compare]. unfold FinaliseUpload. rewrite get_run. cbn [uploads_ at_rest]. by rewrite Hu.
  - rewrite run_two. unfold mbind, eff_bind.
    assert (handle (RunTask 0 IoOk) (mkRcv us sb pl pm cd true [] [HashTask (SafeId id) (path up)] d) =
      (tt, mkRcv us sb pl pm cd true [UiFinalised (SafeId id) (path up) (Sha256Hex contents)
        (Z.of_nat (String.length contents))] [] d, [])) as ->.
    { cbn [FileUpload.handle]. unfold run_task. rewrite get_run. cbn [pool lookup list_lookup].
      rewrite mod_run. cbn [disk]. unfold HashFile. by rewrite Hd. }
    cbn [FileUpload.handle]. unfold run_ui. rewrite get_run. cbn [ui]. rewrite mod_run. cbn [alive].
    apply String.eqb_neq in Hh. rewrite Hh. cbn [negb].
    match goal with |- context [OnFinalised _ _ _ _ true ?s0] => change s0 with (at_rest us sb pl pm cd d) end.
    by rewrite Hf.
Qed.

Definition upload_inputs (jstart : string) (cs : list (string * string * string)) (jend : string)
    : list input :=
  ([Message false jstart; RunUi] ++ chunk_inputs cs ++ end_inputs jend)%list.

(** C8. An upload sent one chunk at a time ends in exactly one verdict, and the
    right one: when the bytes that arrived have the declared length and hash
    the file holds exactly the chunks in order, its size is charged to the
    session and the waiting page gets it; otherwise nothing is handed over,
    the page's chooser keeps waiting, nothing is charged and the file's
    deletion is queued behind an error reply. *)
Theorem upload_serial id nm sha size jstart cs jend us sb pl pm cd d :
  JSONReader_Read jstart = Some (VDict (start_env id nm sha size)) →
  chunks_ok id 0 cs → cs ≠ [] →
  JSONReader_Read jend = Some (VDict (end_env id)) →
  0 < size ≤ kMaxUploadBytes → sb + size ≤ kMaxSessionUploadBytes →
  Z.of_nat (String.length (content cs)) ≤ size → Sha256Hex (content cs) ≠ "" →
  let up := started id nm sha size in
  ∃ code msg, run handle (upload_inputs jstart cs jend) (at_rest us sb pl pm cd d) =
  if accepted up (content cs) then
    (tt, at_rest (delete (SafeId id) us) (sb + size) None pm
           (match pl with Some _ => false | None => cd end) (<[path up := content cs]> d),
     (progress_events (SafeId id) 0 size cs ++
      attach pl pm (path up) (UTF8ToUTF16 nm) ++
      sent (complete_env (SafeId id) (path up) (bool_decide (is_Some pl))))%list)
  else (tt, mkRcv (delete (SafeId id) us) sb pl pm cd true [] [DeleteFileTask (path up)]
              (<[path up := content cs]> d),
        (progress_events (SafeId id) 0 size cs ++ sent (error_env (SafeId id) code msg))%list).
Proof.
  intros Hs Hc Hne He Hsz Hq Hl Hh up. destruct cs as [|[[json b64] bytes] cs]; [done|].
  destruct Hc as (Hj & Hb & Hc). cbn [content snd] in *. rewrite str_length_app in Hl.
  set (up1 := advance 1 (String.length bytes) up).
  set (up2 := advance (Z.of_nat (List.length cs)) (String.length (content cs)) up1).
  set (whole := bytes ++ content cs) in *.
  destruct (verdict_run (SafeId id) up2 whole (<[SafeId id := up2]> us) sb pl pm cd
    (<[path up := whole]> d) (lookup_insert_eq _ _ _)) as (code & msg & Hv).
  exists code, msg.
  pose proof (start_round id nm sha size jstart us sb pl pm cd d Hs Hsz Hq) as H1.
  eassert (run handle (serial_chunk json) (at_rest (<[SafeId id := up]> us) sb pl pm cd d) = _) as H2.
  { apply (chunk_round id b64 bytes json up ""); try done; [by rewrite lookup_insert_eq| |by left].
    subst up. simpl. lia. }
  eassert (run handle (chunk_inputs cs) (at_rest (<[SafeId id := up1]> us) sb pl pm cd
    (<[path up := bytes]> d)) = _) as H3.
  { apply (chunks_round id cs up1 bytes); try done; [by rewrite lookup_insert_eq| |by rewrite lookup_insert_eq].
    subst up1 up. unfold advance. simpl. lia. }
  rewrite insert_insert_eq in H2. rewrite !insert_insert_eq in H3. fold up2 whole in H3.
  eassert (run handle (end_inputs jend) (at_rest (<[SafeId id := up2]> us) sb pl pm cd
    (<[path up := whole]> d)) = _) as H4.
  { apply (end_round id jend up2 whole); try done; [by rewrite lookup_insert_eq|].
    change (path up2) with (path up). by rewrite lookup_insert_eq. }
  rewrite Hv, delete_insert_eq in H4. change (accepted up2 whole) with (accepted up whole) in H4.
  pose proof (run_chain _ _ _ _ _ _ _ _ H2 H3) as H23.
  assert (upload_inputs jstart ((json, b64, bytes) :: cs) jend =
    [Message false jstart; RunUi] ++ (serial_chunk json ++ chunk_inputs cs) ++ end_inputs jend)%list as ->.
  { unfold upload_inputs, chunk_inputs. rewrite fmap_cons. cbn [List.concat fst]. by rewrite <-app_assoc. }
  destruct (accepted up whole); pose proof (run_chain _ _ _ _ _ _ _ _ H23 H4) as H;
    pose proof (run_chain _ _ _ _ _ _ _ _ H1 H) as Hall; rewrite Hall; cbn [progress_events snd];
    by rewrite !app_nil_l.
Qed.

(** The session quota is charged on completion only: however many uploads
    a viewer has open, each start whose own size fits what completed uploads
    left of the quota is accepted, so the bytes declared by the uploads that
    may be written to the disk together have no bound. *)
Theorem quota_ignores_open_uploads us sb pl pm cd d (starts : list (string * string * string * string)) size :
  0 < size ≤ kMaxUploadBytes → sb + size ≤ kMaxSessionUploadBytes →
  (∀ json id nm sha, (json, id, nm, sha) ∈ starts →
     JSONReader_Read json = Some (VDict (start_env id nm sha size))) →
  NoDup ((λ x, SafeId x.1.1.2) <$> starts) →
  (∀ json id nm sha, (json, id, nm, sha) ∈ starts → us !! SafeId id = None) →
  ∃ us', run handle (List.concat ((λ x, [Message false x.1.1.1; RunUi]) <$> starts))
      (at_rest us sb pl pm cd d) = (tt, at_rest us' sb pl pm cd d, []) ∧
    map_fold (λ _ up total, declared_size up + total) 0 us' =
      map_fold (λ _ up total, declared_size up + total) 0 us + Z.of_nat (List.length starts) * size.
Proof.
  intros Hs Hq. revert us. induction starts as [|[[[json id] nm] sha] starts IH]; intros us Hr Hnd Hf.
  { exists us. split; [done|]. simpl. lia. }
  rewrite fmap_cons in Hnd. apply NoDup_cons in Hnd as [Hni Hnd].
  pose proof (start_round id nm sha size json us sb pl pm cd d
    (Hr _ _ _ _ (list_elem_of_here _ _)) Hs Hq) as H1.
  destruct (IH (<[SafeId id := started id nm sha size]> us)) as (us' & H2 & Hsum).
  - intros. eapply Hr. by right.
  - done.
  - intros j' id' nm' sha' Hin. rewrite lookup_insert_ne.
    + eapply Hf. by right.
    + intros E. apply Hni. simpl. rewrite E. apply list_elem_of_fmap. by exists (j', id', nm', sha').
  - exists us'. rewrite fmap_cons. cbn [List.concat]. split.
    + exact (run_chain _ _ _ _ _ _ _ _ H1 H2).
    + rewrite Hsum. rewrite map_fold_insert_L.
      * simpl declared_size. cbn [List.length]. lia.
      * intros. lia.
      * eapply Hf. by left.
Qed.
End theorems.

Lemma chooser_resolved_once_witness :
  let s := exec (run (@handle BitsCodec.bits_codec plain_lib "Uploads")
    [Chooser 1 kOpen; Chooser 2 kOpen; Deadline; Chooser 3 kOpen]) CbFileUploadReceiver in
  pending 3 s = 1%nat ∧ pending 1 s = 0%nat.
Proof.
  split.
  - pose proof (chooser_resolved_once (J := BitsCodec.bits_codec) (L := plain_lib) "Uploads" _ _ 3
      (run_reachable enabled (@handle BitsCodec.bits_codec plain_lib "Uploads") CbFileUploadReceiver
        [Chooser 1 kOpen; Chooser 2 kOpen; Deadline; Chooser 3 kOpen] eq_refl)) as [H _].
    vm_compute in H. reflexivity.
  - reflexivity.
Defined.

(** ** Concrete runs *)

#[local] Existing Instance BitsCodec.bits_codec.
#[local] Existing Instance plain_lib.

Definition text (env : DictValue) : string := default "" (JSONWriter_Write (VDict env)).
Definition msg (env : DictValue) : list input := [Message false (text env); RunUi].

Lemma read_text env : JSONReader_Read (text env) = Some (VDict env).
Proof. unfold text. simpl. by rewrite BitsCodec.unbits_bits, BitsCodec.of_to_pos. Qed.

(** An honest client's upload of the bytes "A", "B", "C", and a pool that runs
    the third write before the second. *)
Definition overlapping_run : list input :=
  ([Chooser 1 kOpen] ++ msg (start_env "id" "f.txt" "" 3) ++
   msg (chunk_env "id" "A" 0) ++ [RunTask 0 IoOk; RunUi] ++
   msg (chunk_env "id" "B" 1) ++ msg (chunk_env "id" "C" 2) ++
   [RunTask 1 IoOk; RunTask 0 IoOk; RunUi; RunUi] ++
   msg (end_env "id") ++ [RunTask 0 IoOk; RunUi])%list.

(** Two chunk writes of one upload can be in flight together, and the pool
    may run them in either order: an honest client's three chunks, sent in
    order and all accepted, end up permuted in the file, which is then reported
    complete and handed to the page (the client declared no hash). *)
Theorem overlapping_writes_reorder :
  let s := exec (run (handle "Uploads") overlapping_run) CbFileUploadReceiver in
  all_enabled enabled (handle "Uploads") overlapping_run CbFileUploadReceiver = true ∧
  disk s !! "Uploads/id__f.txt" = Some "ACB" ∧
  (FileSelected 1 "Uploads/id__f.txt" "f.txt" kOpen
     ∈ events (run (handle "Uploads") overlapping_run) CbFileUploadReceiver) ∧
  uploads_ s = ∅ ∧ session_bytes_ s = 3.
Proof.
  split_and!; [by vm_compute| by vm_compute| | by vm_compute | by vm_compute].
  apply (list_elem_of_lookup_2 _ 4). by vm_compute.
Qed.

Lemma upload_paths_confined_witness :
  confined "Uploads" "Uploads/id__f.txt".
Proof.
  assert (all_enabled enabled (handle "Uploads") overlapping_run CbFileUploadReceiver = true) as Hen
    by (vm_compute; reflexivity).
  refine (proj1 (upload_paths_confined "Uploads" _ _
    (run_reachable enabled (handle "Uploads") CbFileUploadReceiver overlapping_run Hen)) _ "ACB" _).
  vm_compute. reflexivity.
Defined.

Definition two_chunks : list (string * string * string) :=
  [(text (chunk_env "id" "A" 0), "A", "A"); (text (chunk_env "id" "B" 1), "B", "B")].

Lemma upload_serial_witness :
  disk (exec (run (handle "Uploads") (upload_inputs (text (start_env "id" "../a" "hash of AB" 2))
    two_chunks (text (end_env "id")))) (at_rest ∅ 0 (Some 1%nat) kOpen true ∅)) !!
    "Uploads/id__.._a" = Some "AB".
Proof.
  destruct (upload_serial "Uploads" "id" "../a" "hash of AB" 2
    (text (start_env "id" "../a" "hash of AB" 2)) two_chunks
    (text (end_env "id")) ∅ 0 (Some 1%nat) kOpen true ∅) as (c & m & H).
  - apply read_text.
  - split_and!; try apply read_text; done.
  - done.
  - apply read_text.
  - vm_compute. split; [reflexivity|discriminate].
  - vm_compute. discriminate.
  - vm_compute. discriminate.
  - vm_compute. discriminate.
  - unfold exec. rewrite H. clear H. vm_compute. reflexivity.
Defined.

Definition six_starts : list (string * string * string * string) :=
  (λ id, (text (start_env id "big" "" kMaxUploadBytes), id, "big", "")) <$> ["1"; "2"; "3"; "4"; "5"; "6"].

(** Six open uploads of 100 MiB exceed the 512 MiB of the session. *)
Lemma quota_ignores_open_uploads_witness :
  ∃ us', run (handle "Uploads") (List.concat ((λ x, [Message false x.1.1.1; RunUi]) <$> six_starts))
      (at_rest ∅ 0 None kOpen false ∅) = (tt, at_rest us' 0 None kOpen false ∅, []) ∧
    kMaxSessionUploadBytes < map_fold (λ _ up total, declared_size up + total) 0 us'.
Proof.
  destruct (quota_ignores_open_uploads "Uploads" ∅ 0 None kOpen false ∅ six_starts kMaxUploadBytes)
    as (us' & Hrun & Hsum).
  - vm_compute. split; [reflexivity|discriminate].
  - vm_compute. discriminate.
  - intros json id nm sha Hin. unfold six_starts in Hin.
    apply list_elem_of_fmap in Hin as (id' & [= -> -> -> ->] & _). apply read_text.
  - apply (bool_decide_unpack (NoDup _)). by vm_compute.
  - done.
  - exists us'. split; [exact Hrun|]. rewrite Hsum, map_fold_empty. vm_compute. reflexivity.
Defined.
