(* ===== verification/LastPointer.v ===== *)
(** * The last pointer position (capture/build-integration/cb_last_pointer.{h,cc})

    The mouse dispatcher writes the snapshot on every forwarded event; the
    cursor join reads it on every cursor edge. *)

From Stdlib Require Import ZArith SpecFloat.
From stdpp Require Import base tactics.
From S2P Require Import Prelude Numbers.
Open Scope Z_scope.

Record CbLastPointerSnapshot := mkPointer {
  px : spec_float;
  py : spec_float;
  p_buttons : Z;
  p_at : Z;
  in_widget : bool;
}.
#[export] Instance eta_pointer : Eta CbLastPointerSnapshot := λ p,
  mkPointer (px p) (py p) (p_buttons p) (p_at p) (in_widget p).

Definition CbLastPointerState : CbLastPointerSnapshot :=
  mkPointer float_zero float_zero 0 0 true.

Definition Update (widget_x widget_y : spec_float) (buttons at_ : Z)
    (snap : CbLastPointerSnapshot) : CbLastPointerSnapshot :=
  snap <| px := widget_x |> <| py := widget_y |> <| p_buttons := buttons |>
       <| p_at := at_ |> <| in_widget := true |>.

Definition MarkLeft (snap : CbLastPointerSnapshot) : CbLastPointerSnapshot :=
  snap <| in_widget := false |>.
Definition MarkEntered (snap : CbLastPointerSnapshot) : CbLastPointerSnapshot :=
  snap <| in_widget := true |>.

(** The state holder may be null. *)
Definition HandlePointerLeaveEnvelope (state : option CbLastPointerSnapshot)
    : bool * option CbLastPointerSnapshot :=
  match state with None => (false, None) | Some s => (true, Some (MarkLeft s)) end.
Definition HandlePointerEnterEnvelope (state : option CbLastPointerSnapshot)
    : bool * option CbLastPointerSnapshot :=
  match state with None => (false, None) | Some s => (true, Some (MarkEntered s)) end.

(** Leaving freezes the position; the next forwarded event re-enters. *)
Lemma leave_freezes snap :
  (px (MarkLeft snap), py (MarkLeft snap), p_at (MarkLeft snap)) = (px snap, py snap, p_at snap) ∧
  ∀ x y b a, Update x y b a (MarkLeft snap) = Update x y b a snap ∧
    in_widget (Update x y b a (MarkLeft snap)) = true.
Proof. by destruct snap. Qed.
