(* ===== verification/CursorEnvelope.v ===== *)
(** * Cursor wire envelopes (capture/cursor/cb_cursor_envelope.{h,cc},
      capture/cursor/cb_custom_cursor_image.{h,cc})

    The cursor channel's v1 message: the CSS keyword of a cursor type, the view
    the assembler fills, its JSON text, and the extraction of a custom cursor's
    image. *)

From Stdlib Require Import ZArith Lia String Ascii SpecFloat.
From stdpp Require Import base tactics list strings.
From S2P Require Import Prelude Values Numbers.
Open Scope string_scope.
Open Scope Z_scope.

(** ** Shapes *)

(** [ui::mojom::CursorType], as far as the code names it; [kOther] stands for an
    enumerator a later Chromium adds. *)
Inductive CursorType :=
| kPointer | kHand | kIBeam | kVerticalText | kCross | kWait | kProgress | kHelp
| kContextMenu | kCell | kAlias | kCopy | kNoDrop | kNotAllowed | kGrab | kGrabbing | kMove
| kZoomIn | kZoomOut | kEastResize | kNorthResize | kNorthEastResize | kNorthWestResize
| kSouthResize | kSouthEastResize | kSouthWestResize | kWestResize | kEastWestResize
| kNorthSouthResize | kNorthEastSouthWestResize | kNorthWestSouthEastResize | kColumnResize
| kRowResize | kMiddlePanning | kEastPanning | kNorthPanning | kNorthEastPanning
| kNorthWestPanning | kSouthPanning | kSouthEastPanning | kSouthWestPanning | kWestPanning
| kNone | kNull | kCustom | kDndNone | kDndMove | kDndCopy | kDndLink
| kOther (n : nat).
#[export] Instance CursorType_eq_dec : EqDecision CursorType.
Proof. solve_decision. Defined.

Definition kShapeNone : string := "none".
Definition kShapeDefault : string := "default".
Definition kShapeCustom : string := "custom".
Definition kProtocolVersion : Z := 1.
Definition kEnvelopeTypeCursor : string := "cursor".

Definition CssKeywordForType (t : CursorType) : string :=
  match t with
  | kPointer => kShapeDefault
  | kHand => "pointer"
  | kIBeam => "text"
  | kVerticalText => "vertical-text"
  | kCross => "crosshair"
  | kWait => "wait"
  | kProgress => "progress"
  | kHelp => "help"
  | kContextMenu => "context-menu"
  | kCell => "cell"
  | kAlias => "alias"
  | kCopy => "copy"
  | kNoDrop => "no-drop"
  | kNotAllowed => "not-allowed"
  | kGrab => "grab"
  | kGrabbing => "grabbing"
  | kMove => "move"
  | kZoomIn => "zoom-in"
  | kZoomOut => "zoom-out"
  | kEastResize => "e-resize"
  | kNorthResize => "n-resize"
  | kNorthEastResize => "ne-resize"
  | kNorthWestResize => "nw-resize"
  | kSouthResize => "s-resize"
  | kSouthEastResize => "se-resize"
  | kSouthWestResize => "sw-resize"
  | kWestResize => "w-resize"
  | kEastWestResize => "ew-resize"
  | kNorthSouthResize => "ns-resize"
  | kNorthEastSouthWestResize => "nesw-resize"
  | kNorthWestSouthEastResize => "nwse-resize"
  | kColumnResize => "col-resize"
  | kRowResize => "row-resize"
  | kMiddlePanning | kEastPanning | kNorthPanning | kNorthEastPanning | kNorthWestPanning
  | kSouthPanning | kSouthEastPanning | kSouthWestPanning | kWestPanning => "all-scroll"
  | kNone => kShapeNone
  | kNull => kShapeDefault
  | kCustom => kShapeCustom
  | kDndNone => "no-drop"
  | kDndMove => "move"
  | kDndCopy => "copy"
  | kDndLink => "alias"
  | kOther _ => kShapeDefault
  end.

Definition ShapeForType (t : CursorType) : string := CssKeywordForType t.

(** ** The view and its text *)

Record V1EnvelopeView := mkView {
  view_v : Z;
  type_tag : string;
  t_epoch_ms : Z;
  seq : Z;
  view_x : Z;
  view_y : Z;
  visible : bool;
  shape : string;
  hotspot_x : option Z;
  hotspot_y : option Z;
  custom_image_b64 : string;
  image_format : string;
}.
#[export] Instance eta_view : Eta V1EnvelopeView := λ w,
  mkView (view_v w) (type_tag w) (t_epoch_ms w) (seq w) (view_x w) (view_y w) (visible w) (shape w)
    (hotspot_x w) (hotspot_y w) (custom_image_b64 w) (image_format w).

Record EnvelopeAssembler := mkAssembler {
  seq_ : Z;
  latched_x_ : Z;
  latched_y_ : Z;
}.
#[export] Instance eta_assembler : Eta EnvelopeAssembler := λ a,
  mkAssembler (seq_ a) (latched_x_ a) (latched_y_ a).

Definition SetLatchedPosition (px py : Z) (a : EnvelopeAssembler) : EnvelopeAssembler :=
  a <| latched_x_ := px |> <| latched_y_ := py |>.

(** [wall] is the wall clock, read when no time is given. *)
Definition Assemble (wall : Z) (type : CursorType) (vis : bool) (now_epoch_ms : Z)
    (a : EnvelopeAssembler) : V1EnvelopeView * EnvelopeAssembler :=
  (mkView kProtocolVersion kEnvelopeTypeCursor
     (if now_epoch_ms =? 0 then wall else now_epoch_ms)
     (seq_ a) (latched_x_ a) (latched_y_ a) vis
     (if vis then CssKeywordForType type else kShapeNone) None None "" "",
   a <| seq_ := seq_ a + 1 |>).

Definition envelope_data (w : V1EnvelopeView) : DictValue :=
  let data :=
    Set_ "shape" (VString (shape w))
      (Set_ "visible" (VBool (visible w)) (Set_ "y" (VInt (view_y w)) (Set_ "x" (VInt (view_x w)) []))) in
  let data :=
    match hotspot_x w, hotspot_y w with
    | Some hx, Some hy =>
        Set_ "hotspot" (VDict (Set_ "y" (VInt hy) (Set_ "x" (VInt hx) []))) data
    | _, _ => data
    end in
  if String.eqb (custom_image_b64 w) "" then data
  else
    Set_ "image_format" (VString (if String.eqb (image_format w) "" then "png" else image_format w))
      (Set_ "custom_image_b64" (VString (custom_image_b64 w)) data).

Definition envelope_doc (w : V1EnvelopeView) : DictValue :=
  Set_ "data" (VDict (envelope_data w))
    (Set_ "seq" (VDouble (double_of_Z (seq w)))
      (Set_ "t" (VDouble (double_of_Z (t_epoch_ms w)))
        (Set_ "type" (VString (type_tag w)) (Set_ "v" (VInt (view_v w)) [])))).

Section encode.
Context {J : JsonCodec}.

Definition EncodeJson (w : V1EnvelopeView) : option string :=
  JSONWriter_Write (VDict (envelope_doc w)).

Definition AssembleAndEncode (wall : Z) (type : CursorType) (vis : bool) (now_epoch_ms : Z)
    (a : EnvelopeAssembler) : option string * EnvelopeAssembler :=
  let '(w, a') := Assemble wall type vis now_epoch_ms a in (EncodeJson w, a').
End encode.

(** ** Custom cursor images *)

Definition kV1CustomImageB64MaxBytes : Z := 64 * 1024.

Inductive Skip := SkipNone | kNotCustom | kBitmapEmpty | kEncodeFailed | kOverCap.

Record CustomImageExtraction := mkExtraction {
  ok : bool;
  skip : Skip;
  ex_image_b64 : string;
  ex_hotspot_x : Z;
  ex_hotspot_y : Z;
  ex_image_format : string;
  image_scale_factor : spec_float;
}.

(** Skia's bitmap as far as the code looks at it, and its encoders. *)
Class ImageLib := {
  bitmap : Type;
  isNull : bitmap → bool;
  bm_empty : bitmap → bool;
  bm_width : bitmap → Z;
  bm_height : bitmap → Z;
  (** [PNGCodec::EncodeBGRASkBitmap]. *)
  EncodePng : bitmap → bool → option string;
  Base64Encode : string → string;
}.

Definition one_float : spec_float := S754_finite false 8388608 (-23).

Section image.
Context {L : ImageLib}.

Record Cursor := mkCursor {
  cursor_type : CursorType;
  custom_bitmap : bitmap;
  custom_hotspot : Z * Z;
  cursor_scale : spec_float;
}.

Definition kKeepAlphaChannel : bool := false.

Definition ExtractCustomImage (c : Cursor) : CustomImageExtraction :=
  let skipped why scale := mkExtraction false why "" 0 0 "" scale in
  if negb (bool_decide (cursor_type c = kCustom)) then skipped kNotCustom one_float
  else
    let bm := custom_bitmap c in
    if isNull bm || bm_empty bm || (bm_width bm =? 0) || (bm_height bm =? 0) then
      skipped kBitmapEmpty (cursor_scale c)
    else
      match EncodePng bm kKeepAlphaChannel with
      | None => skipped kEncodeFailed (cursor_scale c)
      | Some png_bytes =>
          if String.eqb png_bytes "" then skipped kEncodeFailed (cursor_scale c)
          else
            let b64 := Base64Encode png_bytes in
            if kV1CustomImageB64MaxBytes <? Z.of_nat (String.length b64) then
              skipped kOverCap (cursor_scale c)
            else
              mkExtraction true SkipNone b64 (custom_hotspot c).1 (custom_hotspot c).2 "png"
                (cursor_scale c)
      end.
End image.

Definition ApplyExtractionToEnvelope (e : CustomImageExtraction) (w : V1EnvelopeView)
    : bool * V1EnvelopeView :=
  if negb (ok e) then (false, w)
  else
    (true, w <| custom_image_b64 := ex_image_b64 e |> <| hotspot_x := Some (ex_hotspot_x e) |>
             <| hotspot_y := Some (ex_hotspot_y e) |> <| image_format := ex_image_format e |>).

(** ** Properties *)

Section encode_props.
Context {J : JsonCodec} {JL : JsonCodecLaws J}.

(** What a reader finds in an envelope's text. *)
Definition reads_as (w : V1EnvelopeView) (d : DictValue) : Prop :=
  FindInt "v" d = Some (view_v w) ∧ FindString "type" d = Some (type_tag w) ∧
  Find "t" d = Some (VDouble (double_of_Z (t_epoch_ms w))) ∧
  Find "seq" d = Some (VDouble (double_of_Z (seq w))) ∧
  ∃ data, FindDict "data" d = Some data ∧
    FindInt "x" data = Some (view_x w) ∧ FindInt "y" data = Some (view_y w) ∧
    FindBool "visible" data = Some (visible w) ∧ FindString "shape" data = Some (shape w) ∧
    FindString "custom_image_b64" data =
      (if String.eqb (custom_image_b64 w) "" then None else Some (custom_image_b64 w)) ∧
    Find "hotspot" data =
      (match hotspot_x w, hotspot_y w with
       | Some hx, Some hy => Some (VDict [("x", VInt hx); ("y", VInt hy)])
       | _, _ => None
       end).

Lemma envelope_doc_reads w : reads_as w (envelope_doc w).
Proof.
  unfold reads_as, envelope_doc, FindInt, FindString, FindDict. find_set.
  split_and!; try done. exists (envelope_data w). split; [done|].
  unfold envelope_data, FindBool. destruct w as [? ? ? ? ? ? ? ? [hx|] [hy|] img ?]; simpl;
    destruct (String.eqb img ""); find_set; by split_and!.
Qed.

(** A cursor envelope survives the wire: its text is read back as the
    protocol version, the tag, the time, the sequence number, the position, the
    visibility and the shape of the view, with an image and a hotspot exactly
    when the view has them. *)
Theorem cursor_envelope_roundtrip w :
  json_ok (VDict (envelope_doc w)) →
  ∃ text d, EncodeJson w = Some text ∧ JSONReader_Read text = Some (VDict d) ∧ reads_as w d.
Proof.
  intros Hok. destruct (json_roundtrip _ Hok) as (text & Hw & Hr).
  exists text, (envelope_doc w). split_and!; [done|done|apply envelope_doc_reads].
Qed.
End encode_props.

(** An image is attached only for a custom cursor's own bitmap and never
    exceeds the cap: after extraction and application the document's
    image, when there is one, is the base64 of the PNG of the cursor's
    non-empty bitmap, at most 64 KiB long, with the cursor's hotspot; in every
    other case the envelope is the one without image. *)
Theorem custom_image_bounded {L : ImageLib} (c : Cursor) wall vis now a :
  let w := (Assemble wall (cursor_type c) vis now a).1 in
  let '(applied, w') := ApplyExtractionToEnvelope (ExtractCustomImage c) w in
  if applied then
    cursor_type c = kCustom ∧ bm_width (custom_bitmap c) ≠ 0 ∧ bm_height (custom_bitmap c) ≠ 0 ∧
    ∃ png, EncodePng (custom_bitmap c) kKeepAlphaChannel = Some png ∧
      custom_image_b64 w' = Base64Encode png ∧
      Z.of_nat (String.length (custom_image_b64 w')) ≤ kV1CustomImageB64MaxBytes ∧
      hotspot_x w' = Some (custom_hotspot c).1 ∧ hotspot_y w' = Some (custom_hotspot c).2 ∧
      image_format w' = "png"
  else w' = w ∧ custom_image_b64 w' = "".
Proof.
  cbv zeta. unfold ExtractCustomImage, ApplyExtractionToEnvelope.
  case_bool_decide as Ht; cbn [negb]; [|done].
  destruct (isNull (custom_bitmap c) || bm_empty (custom_bitmap c) || _ || _) eqn:Hb; [done|].
  apply orb_false_iff in Hb as [[Hb Hw]%orb_false_iff Hh].
  destruct (EncodePng (custom_bitmap c) kKeepAlphaChannel) as [png|]; [|done].
  destruct (String.eqb_spec png ""); [done|].
  destruct (Z.ltb_spec kV1CustomImageB64MaxBytes (Z.of_nat (String.length (Base64Encode png)))); [done|].
  cbn [ok negb]. split; [done|]. split; [by apply Z.eqb_neq|]. split; [by apply Z.eqb_neq|].
  exists png. by split_and!.
Qed.

Lemma cursor_envelope_roundtrip_witness :
  ∃ text d, EncodeJson (J := BitsCodec.bits_codec)
      (Assemble 5 kHand true 0 (mkAssembler 0 3 4)).1 = Some text ∧
    JSONReader_Read (JsonCodec := BitsCodec.bits_codec) text = Some (VDict d) ∧
    reads_as (Assemble 5 kHand true 0 (mkAssembler 0 3 4)).1 d.
Proof.
  apply (cursor_envelope_roundtrip (J := BitsCodec.bits_codec) (JL := BitsCodec.bits_codec_laws)).
  exact I.
Defined.
