(* ===== verification/CursorEmitter.v ===== *)
(** * Cursor emission (capture/cursor/cb_cursor_emit_policy.{h,cc},
      capture/cursor/cb_cursor_dc_emitter.{h,cc},
      capture/build-integration/cb_cursor_xy_join.{h,cc})

    Every cursor edge of the renderer is joined with the last pointer position,
    gated by the policy (duplicates, bursts) and written to the cursor channel.
    Writes are asynchronous: [in_flight] holds the sends whose completion has
    not come back to the UI sequence, in order.  [posted] holds the channel
    state changes the channel observer posted to that sequence.  [clock] is what
    [TimeTicks::Now] returns; time moves by the input [Tick]. *)

From Stdlib Require Import ZArith Lia String Ascii SpecFloat Sorted.
From stdpp Require Import base tactics list strings.
From S2P Require Import Prelude Values Numbers DcHost LastPointer CursorEnvelope.
Open Scope string_scope.
Open Scope Z_scope.

(** ** Data *)

Record JoinedCursorState := mkJoined {
  type : CursorType;
  j_visible : bool;
  jx : spec_float;
  jy : spec_float;
  buttons_blink : Z;
  last_motion_at : Z;
  joined_at : Z;
  has_pointer_history : bool;
}.
#[export] Instance eta_joined : Eta JoinedCursorState := λ j,
  mkJoined (type j) (j_visible j) (jx j) (jy j) (buttons_blink j) (last_motion_at j)
    (joined_at j) (has_pointer_history j).

Record PolicyConfig := mkPolicyConfig {
  min_emit_gap : Z;
  position_quantum_px : Z;
  replay_buffer_capacity : nat;
}.
Definition default_policy : PolicyConfig := mkPolicyConfig 0 1 1.

Inductive SuppressReason := kSuppressReasonDedupe | kSuppressReasonDebounce.
Record EmitDecision := mkDecision {
  d_emit : bool;
  reason_for_suppress : option SuppressReason;
}.

Record PolicySnapshot := mkSnapshot {
  s_type : CursorType;
  s_visible : bool;
  x_rounded : Z;
  y_rounded : Z;
  s_buttons_blink : Z;
  emitted_at : Z;
  s_seq : Z;
  s_has_pointer_history : bool;
}.

Record EmitPolicy := mkPolicy {
  next_seq_ : Z;
  last_ : option PolicySnapshot;
  pending_ : option JoinedCursorState;
  replay_ : list PolicySnapshot;
}.
#[export] Instance eta_policy : Eta EmitPolicy := λ p,
  mkPolicy (next_seq_ p) (last_ p) (pending_ p) (replay_ p).

Record EmitterStats := mkStats {
  emits : N;
  suppress_dedupe : N;
  suppress_debounce : N;
  suppress_dc_closed : N;
  send_errors : N;
  dc_replays : N;
}.
#[export] Instance eta_stats : Eta EmitterStats := λ s,
  mkStats (emits s) (suppress_dedupe s) (suppress_debounce s) (suppress_dc_closed s)
    (send_errors s) (dc_replays s).

(** A send that has not been answered: the state, its sequence number and
    whether the policy is to record it. *)
Definition send := (JoinedCursorState * Z * bool)%type.

Record em := mkEm {
  policy : EmitPolicy;
  assembler : EnvelopeAssembler;
  pointer : option CbLastPointerSnapshot;
  cursor_dc_open_ : bool;
  cursor_dc_ever_opened_ : bool;
  started_ : bool;
  pending_while_closed_ : option JoinedCursorState;
  stats_ : EmitterStats;
  in_flight : list send;
  posted : list (CbDcLabel * DataState);
  clock : Z;
  wall : Z;
}.
#[export] Instance eta_em : Eta em := λ s,
  mkEm (policy s) (assembler s) (pointer s) (cursor_dc_open_ s) (cursor_dc_ever_opened_ s)
    (started_ s) (pending_while_closed_ s) (stats_ s) (in_flight s) (posted s) (clock s) (wall s).

(** A frame handed to the channel: its view, its text and whether it repeats a
    snapshot. *)
Inductive event := Wire (w : V1EnvelopeView) (text : string) (replayed : bool).

(** ** The policy *)

Section policy.
Context {U : Unspecified}.
Variable config_ : PolicyConfig.

Definition round_to_q (q : Z) (f : spec_float) : Z :=
  wrap32 (lround (SFdiv 24 128 f (float_of_Z q)) * q).

Definition RoundPosition (fx fy : spec_float) : Z * Z :=
  let q := if 0 <? position_quantum_px config_ then position_quantum_px config_ else 1 in
  if q =? 1 then (wrap32 (lround fx), wrap32 (lround fy))
  else (round_to_q q fx, round_to_q q fy).

Definition IsDuplicate (p : EmitPolicy) (joined : JoinedCursorState) : bool :=
  match last_ p with
  | None => false
  | Some l =>
      let '(rx, ry) := RoundPosition (jx joined) (jy joined) in
      bool_decide (s_type l = type joined) && Bool.eqb (s_visible l) (j_visible joined) &&
      (s_buttons_blink l =? buttons_blink joined) && (x_rounded l =? rx) && (y_rounded l =? ry)
  end.

Definition Decide (joined : JoinedCursorState) (now : Z) (p : EmitPolicy)
    : EmitDecision * EmitPolicy :=
  if IsDuplicate p joined then (mkDecision false (Some kSuppressReasonDedupe), p)
  else
    let held :=
      match last_ p with
      | Some l => (0 <? min_emit_gap config_) && (now - emitted_at l <? min_emit_gap config_)
      | None => false
      end in
    if held then
      (mkDecision false (Some kSuppressReasonDebounce), p <| pending_ := Some joined |>)
    else (mkDecision true None, p <| pending_ := None |>).

Definition AllocSeq (p : EmitPolicy) : Z * EmitPolicy :=
  (next_seq_ p, p <| next_seq_ := next_seq_ p + 1 |>).

(** Drop from the front until the capacity is met. *)
Definition trim (cap : nat) (l : list PolicySnapshot) : list PolicySnapshot :=
  drop (List.length l - cap) l.

Definition snapshot_of (joined : JoinedCursorState) (now seq : Z) : PolicySnapshot :=
  let '(rx, ry) := RoundPosition (jx joined) (jy joined) in
  mkSnapshot (type joined) (j_visible joined) rx ry (buttons_blink joined) now seq
    (has_pointer_history joined).

Definition OnEmitted (joined : JoinedCursorState) (now : Z) (p : EmitPolicy) : EmitPolicy :=
  let snap := snapshot_of joined now (next_seq_ p - 1) in
  p <| last_ := Some snap |>
    <| replay_ := if (0 <? replay_buffer_capacity config_)%nat
                  then trim (replay_buffer_capacity config_) (replay_ p ++ [snap])%list
                  else replay_ p |>.

Definition ReplayBuffer (p : EmitPolicy) : list PolicySnapshot := replay_ p.

Definition Reset (p : EmitPolicy) : EmitPolicy := mkPolicy 0 None None [].
End policy.

(** ** The emitter *)

Section emitter.
Context {U : Unspecified} {J : JsonCodec}.
Variable config_ : PolicyConfig.

Abbreviation M A := (eff em event A).

Definition bump (f : EmitterStats → EmitterStats) : M unit :=
  emod (λ s, s <| stats_ := f (stats_ s) |>).

(** [EncodeWithSeq]: the assembler's view with the policy's sequence number and
    the joined position. *)
Definition EncodeWithSeq (joined : JoinedCursorState) (sq : Z) : M (V1EnvelopeView * option string) :=
  s ← eget;
  let '(w, a) := Assemble (wall s) (type joined) (j_visible joined) 0 (assembler s) in
  emod (λ s, s <| assembler := a |>);;
  let w := w <| seq := sq |> <| view_x := cast_int (jx joined) |>
             <| view_y := cast_int (jy joined) |> in
  mret (w, EncodeJson w).

Definition EncodeAndSendAsync (joined : JoinedCursorState) (sq : Z) (record_emitted : bool) : M unit :=
  r ← EncodeWithSeq joined sq;
  match r.2 with
  | None => bump (λ st, st <| send_errors := N.succ (send_errors st) |>)
  | Some text =>
      emit (Wire r.1 text (negb record_emitted));;
      emod (λ s, s <| in_flight := (in_flight s ++ [(joined, sq, record_emitted)])%list |>)
  end.

Definition OnJoined (joined : JoinedCursorState) : M unit :=
  s ← eget;
  let '(decision, p) := Decide config_ joined (clock s) (policy s) in
  emod (λ s, s <| policy := p |>);;
  if negb (d_emit decision) then
    match reason_for_suppress decision with
    | Some kSuppressReasonDedupe => bump (λ st, st <| suppress_dedupe := N.succ (suppress_dedupe st) |>)
    | Some kSuppressReasonDebounce =>
        bump (λ st, st <| suppress_debounce := N.succ (suppress_debounce st) |>)
    | None => mret tt
    end
  else if negb (cursor_dc_open_ s) then
    emod (λ s, s <| pending_while_closed_ := Some joined |>);;
    bump (λ st, st <| suppress_dc_closed := N.succ (suppress_dc_closed st) |>)
  else
    s ← eget;
    let '(sq, p) := AllocSeq (policy s) in
    emod (λ s, s <| policy := p |>);;
    EncodeAndSendAsync joined sq true.

Definition OnSendComplete (joined : JoinedCursorState) (sq : Z) (record_emitted ok : bool) : M unit :=
  if negb ok then bump (λ st, st <| send_errors := N.succ (send_errors st) |>)
  else
    bump (λ st, st <| emits := N.succ (emits st) |>);;
    ewhen record_emitted
      (emod (λ s, s <| policy := OnEmitted config_ joined (clock s) (policy s) |>)).

Definition joined_of (snap : PolicySnapshot) : JoinedCursorState :=
  mkJoined (s_type snap) (s_visible snap) (float_of_Z (x_rounded snap)) (float_of_Z (y_rounded snap))
    (s_buttons_blink snap) 0 0 (s_has_pointer_history snap).

Definition ReplayOnOpen : M unit :=
  s ← eget;
  match ReplayBuffer (policy s) with
  | [] => mret tt
  | snaps =>
      bump (λ st, st <| dc_replays := N.succ (dc_replays st) |>);;
      eseq ((λ snap, EncodeAndSendAsync (joined_of snap) (s_seq snap) false) <$> snaps)
  end.

Definition OnChannelStateChanged_Ui (label : CbDcLabel) (state : DataState) : M unit :=
  if negb (bool_decide (label = kCursor)) then mret tt
  else
    match state with
    | DcOpen =>
        s ← eget;
        let reopen := cursor_dc_ever_opened_ s && negb (cursor_dc_open_ s) in
        emod (λ s, s <| cursor_dc_open_ := true |> <| cursor_dc_ever_opened_ := true |>);;
        match pending_while_closed_ s with
        | Some pending =>
            emod (λ s, s <| pending_while_closed_ := None |>);;
            OnJoined pending
        | None => mret tt
        end;;
        ewhen reopen ReplayOnOpen
    | DcClosing | DcClosed => emod (λ s, s <| cursor_dc_open_ := false |>)
    | DcConnecting => mret tt
    end.

(** The weak pointer the posted task is bound to dies in [Stop]. *)
Definition OnChannelStateChanged (label : CbDcLabel) (state : DataState) : M unit :=
  emod (λ s, s <| posted := (posted s ++ [(label, state)])%list |>).

(** [CursorChannelObserver::OnStateChange]; [is_open] is the channel host's
    answer. *)
Definition CursorChannel_OnStateChange (is_open : bool) : M unit :=
  OnChannelStateChanged kCursor (if is_open then DcOpen else DcClosed).

Definition BindAndStart (is_open : bool) : M unit :=
  s ← eget;
  if started_ s then mret tt
  else
    emod (λ s, s <| started_ := true |>);;
    ewhen is_open (OnChannelStateChanged kCursor DcOpen).

(** Stopping unbinds both callbacks and invalidates the weak pointers: tasks and
    completions already posted are dropped. *)
Definition Stop : M unit :=
  s ← eget;
  if negb (started_ s) then mret tt
  else emod (λ s, s <| started_ := false |> <| posted := [] |> <| in_flight := [] |>).

(** ** The join *)

Definition FillPositionFromSnapshot (p : option CbLastPointerSnapshot) (out : JoinedCursorState)
    : JoinedCursorState :=
  match p with
  | None => out
  | Some snap =>
      out <| jx := px snap |> <| jy := py snap |> <| buttons_blink := p_buttons snap |>
          <| last_motion_at := p_at snap |> <| has_pointer_history := negb (p_at snap =? 0) |>
  end.

(** The emit callback is set while the emitter is started. *)
Definition OnCursorChange (t : CursorType) (vis : bool) : M unit :=
  s ← eget;
  let joined := FillPositionFromSnapshot (pointer s)
                  (mkJoined t vis float_zero float_zero 0 0 (clock s) false) in
  if started_ s then OnJoined joined else mret tt.

(** ** The machine *)

Definition fresh_policy : EmitPolicy := mkPolicy 0 None None [].

Definition CbCursorDcEmitter : em :=
  mkEm fresh_policy (mkAssembler 0 0 0) None false false false None (mkStats 0 0 0 0 0 0) [] [] 1 1.

Inductive input :=
| Start (is_open : bool)
| StopCall
| Edge (t : CursorType) (vis : bool)
| PointerMoved (p : CbLastPointerSnapshot)
| ChannelChange (is_open : bool)
| RunPosted
| SendDone (ok : bool)
| Tick (later : Z).

Definition handle (i : input) : M unit :=
  match i with
  | Start is_open => BindAndStart is_open
  | StopCall => Stop
  | Edge t vis => OnCursorChange t vis
  | PointerMoved p => emod (λ s, s <| pointer := Some p |>)
  | ChannelChange is_open => CursorChannel_OnStateChange is_open
  | RunPosted =>
      s ← eget;
      match posted s with
      | [] => mret tt
      | (l, st) :: rest =>
          emod (λ s, s <| posted := rest |>);;
          OnChannelStateChanged_Ui l st
      end
  | SendDone ok =>
      s ← eget;
      match in_flight s with
      | [] => mret tt
      | (joined, sq, record_emitted) :: rest =>
          emod (λ s, s <| in_flight := rest |>);;
          OnSendComplete joined sq record_emitted ok
      end
  | Tick later => emod (λ s, s <| clock := clock s + later |> <| wall := wall s + later |>)
  end.

(** The observer is bound while the emitter is started. *)
Definition enabled (i : input) (s : em) : bool :=
  match i with
  | ChannelChange _ => started_ s
  | Tick later => 0 <=? later
  | _ => true
  end.
End emitter.

(** ** Sequence numbers and the replay buffer *)

Section theorems.
Context {U : Unspecified} {J : JsonCodec}.
Variable config_ : PolicyConfig.

Definition fresh_seqs (tr : list event) : list Z :=
  omap (λ e, match e with Wire w _ false => Some (seq w) | _ => None end) tr.
Definition replayed_seqs (tr : list event) : list Z :=
  omap (λ e, match e with Wire w _ true => Some (seq w) | _ => None end) tr.

Definition below (n : Z) (l : list Z) : Prop := Forall (λ k, 0 ≤ k < n) l.

Lemma below_mono n n' l : n ≤ n' → below n l → below n' l.
Proof. intros Hn H. eapply Forall_impl; [exact H|]. simpl. lia. Qed.

(** Sends that the policy is to record carry allocated numbers. *)
Definition seqs_inv (s : em) : Prop :=
  0 ≤ next_seq_ (policy s) ∧ below (next_seq_ (policy s)) (s_seq <$> replay_ (policy s)) ∧
  Forall (λ x : send, x.2 = true → 0 < next_seq_ (policy s)) (in_flight s).

(** The frame a state is sent as. *)
Definition frame (wall : Z) (j : JoinedCursorState) (sq : Z) : V1EnvelopeView :=
  mkView kProtocolVersion kEnvelopeTypeCursor wall sq (cast_int (jx j)) (cast_int (jy j))
    (j_visible j) (if j_visible j then CssKeywordForType (type j) else kShapeNone) None None "" "".

Definition assembled (s : em) : em :=
  s <| assembler := (assembler s) <| seq_ := seq_ (assembler s) + 1 |> |>.

Lemma Encode_run j sq r s :
  EncodeAndSendAsync j sq r s =
  match EncodeJson (frame (wall s) j sq) with
  | Some text => (tt, (assembled s) <| in_flight := (in_flight s ++ [(j, sq, r)])%list |>,
                  [Wire (frame (wall s) j sq) text (negb r)])
  | None => (tt, (assembled s) <| stats_ := (stats_ s) <| send_errors := N.succ (send_errors (stats_ s)) |> |>, [])
  end.
Proof.
  unfold EncodeAndSendAsync, EncodeWithSeq, bump, emod, emit, mbind, eff_bind, eget, mret, eff_ret.
  unfold Assemble. cbn [negb]. simpl.
  match goal with |- context [EncodeJson ?w] => change w with (frame (wall s) j sq) end.
  by destruct (EncodeJson (frame (wall s) j sq)).
Qed.

(** Allocated numbers grow; fresh frames take them in order, replayed frames
    carry older ones. *)
Definition seqs_rel (s : em) (es : list event) (s' : em) : Prop :=
  seqs_inv s →
  seqs_inv s' ∧ next_seq_ (policy s) ≤ next_seq_ (policy s') ∧
  StronglySorted Z.lt (fresh_seqs es) ∧
  Forall (λ k, next_seq_ (policy s) ≤ k < next_seq_ (policy s')) (fresh_seqs es) ∧
  below (next_seq_ (policy s')) (replayed_seqs es).

Lemma sorted_app l1 l2 n :
  StronglySorted Z.lt l1 → StronglySorted Z.lt l2 → Forall (λ k, k < n) l1 → Forall (λ k, n ≤ k) l2 →
  StronglySorted Z.lt (l1 ++ l2)%list.
Proof.
  induction 1 as [|a l1 H1 IH Ha]; intros H2 Hlt Hge; [done|].
  apply Forall_cons in Hlt as [Hl Hlt]. simpl. constructor; [by apply IH|].
  apply Forall_app. split; [done|]. eapply Forall_impl; [exact Hge|]. simpl. lia.
Qed.

#[export] Instance seqs_rel_trace : TraceRel seqs_rel.
Proof.
  split.
  - intros s Hs. split_and!; [done|lia|constructor|constructor|constructor].
  - intros s1 s2 s3 es1 es2 H1 H2 Hs.
    destruct (H1 Hs) as (I2 & L1 & S1 & F1 & B1), (H2 I2) as (I3 & L2 & S2 & F2 & B2).
    unfold fresh_seqs, replayed_seqs in *. rewrite !omap_app. split_and!; [done|lia| | |].
    + eapply (sorted_app _ _ (next_seq_ (policy s2))); [done..| |];
        eapply Forall_impl; [exact F1| |exact F2|]; simpl; lia.
    + apply Forall_app. split; eapply Forall_impl; [exact F1| |exact F2|]; simpl; lia.
    + apply Forall_app. split; [|done]. by eapply below_mono.
Qed.

(** Steps that leave the numbers alone. *)
Lemma seqs_same g :
  (∀ s, next_seq_ (policy (g s)) = next_seq_ (policy s) ∧ replay_ (policy (g s)) = replay_ (policy s) ∧
        in_flight (g s) = in_flight s) →
  respects seqs_rel (emod g).
Proof.
  intros Hg s (H0 & Hr & Hf). destruct (Hg s) as (G1 & G2 & G3). unfold exec, emod. simpl.
  unfold seqs_inv. rewrite G1, G2, G3. split_and!; try done; try lia; constructor.
Qed.
Lemma seqs_bump f : respects seqs_rel (bump f).
Proof. by apply seqs_same. Qed.

(** A send of a state: fresh when recorded, and then its number is the last one
    allocated. *)
Lemma seqs_encode joined (sq : Z) (r : bool) (s : em) :
  seqs_inv s →
  (if r then sq = next_seq_ (policy s) - 1 ∧ 0 ≤ sq else 0 ≤ sq < next_seq_ (policy s)) →
  let m := EncodeAndSendAsync joined sq r in
  seqs_inv (exec m s) ∧ next_seq_ (policy (exec m s)) = next_seq_ (policy s) ∧
  (fresh_seqs (events m s) = [] ∨ r = true ∧ fresh_seqs (events m s) = [sq]) ∧
  (replayed_seqs (events m s) = [] ∨ r = false ∧ replayed_seqs (events m s) = [sq]).
Proof.
  intros (H0 & Hr & Hf) Hsq. cbv zeta. unfold exec, events. rewrite Encode_run.
  destruct (EncodeJson _); simpl; (split; [|split; [done|split]]).
  - split; [done|split; [done|]]. simpl. apply Forall_app. split; [done|].
    constructor; [|constructor]. simpl. destruct r; [lia|done].
  - destruct r; [by right|by left].
  - destruct r; [by left|by right].
  - done.
  - by left.
  - by left.
Qed.

Lemma Decide_same j now p :
  next_seq_ (Decide config_ j now p).2 = next_seq_ p ∧ replay_ (Decide config_ j now p).2 = replay_ p ∧
  last_ (Decide config_ j now p).2 = last_ p.
Proof. unfold Decide. repeat case_match; done. Qed.

(** A joined edge: suppressed, parked, or sent with the next number. *)
Lemma OnJoined_run j s :
  let '(d, p) := Decide config_ j (clock s) (policy s) in
  OnJoined config_ j s =
  if d_emit d && cursor_dc_open_ s then
    EncodeAndSendAsync j (next_seq_ (policy s)) true
      (s <| policy := p <| next_seq_ := next_seq_ (policy s) + 1 |> |>)
  else
    (tt, (s <| policy := p |>)
           <| stats_ := stats_ (exec (OnJoined config_ j) s) |>
           <| pending_while_closed_ :=
                if d_emit d then Some j else pending_while_closed_ s |>, []).
Proof.
  pose proof (Decide_same j (clock s) (policy s)) as (Hn & _ & _).
  unfold OnJoined, exec. rewrite get_run.
  destruct (Decide config_ j (clock s) (policy s)) as [d p] eqn:Hd. cbn [snd] in Hn.
  rewrite !mod_run. destruct (d_emit d); cbn [negb andb].
  - destruct (cursor_dc_open_ s); cbn [negb].
    + rewrite get_run. unfold AllocSeq. cbn [policy]. rewrite mod_run. simpl. by rewrite Hn.
    + by rewrite mod_run.
  - destruct (reason_for_suppress d) as [[]|]; by destruct s.
Qed.

Lemma seqs_OnJoined j : respects seqs_rel (OnJoined config_ j).
Proof.
  intros s Hs. pose proof (OnJoined_run j s) as H.
  pose proof (Decide_same j (clock s) (policy s)) as (Hn & Hr & _).
  destruct (Decide config_ j (clock s) (policy s)) as [d p]. cbn [snd] in *.
  destruct Hs as (H0 & Hb & Hf).
  destruct (d_emit d && cursor_dc_open_ s).
  - set (s1 := s <| policy := p <| next_seq_ := next_seq_ (policy s) + 1 |> |>) in *.
    assert (seqs_inv s1) as H1.
    { split; [simpl; lia|split].
      - simpl. rewrite Hr. eapply below_mono; [|exact Hb]. lia.
      - eapply Forall_impl; [exact Hf|]. simpl. lia. }
    destruct (seqs_encode j (next_seq_ (policy s)) true s1 H1) as (I & N & F & R); [simpl; lia|].
    unfold exec, events in *. rewrite H. split; [exact I|]. rewrite N.
    change (next_seq_ (policy s1)) with (next_seq_ (policy s) + 1).
    destruct R as [->|[? _]]; [|done]. destruct F as [->|[_ ->]]; split_and!; try lia;
      repeat constructor; lia.
  - unfold exec, events in *. rewrite H. cbn [fst snd].
    split; [split; [simpl; lia|split; [simpl; by rewrite Hr, Hn|]]|].
    + eapply Forall_impl; [exact Hf|]. simpl. rewrite Hn. auto.
    + simpl. split_and!; try lia; constructor.
Qed.

Lemma seqs_ReplayOnOpen : respects seqs_rel ReplayOnOpen.
Proof.
  unfold ReplayOnOpen. intros s Hs. rewrite exec_get, events_get.
  pose proof Hs as (H0 & Hb & _). unfold ReplayBuffer.
  assert (∀ snaps s, seqs_inv s → below (next_seq_ (policy s)) (s_seq <$> snaps) →
    let m := eseq ((λ snap, EncodeAndSendAsync (joined_of snap) (s_seq snap) false) <$> snaps) in
    seqs_inv (exec m s) ∧ next_seq_ (policy (exec m s)) = next_seq_ (policy s) ∧
    fresh_seqs (events m s) = [] ∧ below (next_seq_ (policy s)) (replayed_seqs (events m s))) as Hseq.
  { clear. induction snaps as [|snap snaps IH]; intros s Hs Hb; cbv zeta.
    - split_and!; try done; apply Hs.
    - rewrite fmap_cons in Hb. apply Forall_cons in Hb as [Hb1 Hb].
      rewrite fmap_cons. cbn [eseq]. rewrite exec_bind, events_bind.
      destruct (seqs_encode (joined_of snap) (s_seq snap) false s Hs Hb1) as (I & N & F & R).
      destruct (IH _ I ltac:(by rewrite N)) as (I' & N' & F' & R').
      split; [done|]. split; [congruence|]. unfold fresh_seqs, replayed_seqs in *.
      rewrite !omap_app, F'. rewrite N in R'. destruct F as [->|[? _]]; [|done]. split; [done|].
      apply Forall_app. split; [|done]. destruct R as [->|[_ ->]]; [constructor|]. by constructor. }
  destruct (replay_ (policy s)) as [|snap snaps] eqn:Hr.
  - split_and!; try done; try lia; try constructor; apply Hs.
  - set (s1 := exec (bump (λ st, st <| dc_replays := N.succ (dc_replays st) |>)) s).
    assert (seqs_inv s1) as H1 by exact Hs.
    destruct (Hseq (snap :: snaps) s1 H1 Hb) as (I & N & F & R).
    rewrite exec_bind, events_bind. fold s1. split; [exact I|].
    change (next_seq_ (policy s1)) with (next_seq_ (policy s)) in *.
    split; [rewrite N; lia|]. match goal with |- context [events (bump ?f) s] =>
      change (events (bump f) s) with (@nil event) end.
    rewrite app_nil_l, F. split; [constructor|]. split; [constructor|]. by rewrite N.
Qed.

Lemma seqs_handle i : respects seqs_rel (handle config_ i).
Proof.
  destruct i as [b| |t b|p|b| |b|l]; cbn [handle].
  - unfold BindAndStart. apply respects_get. intros s. case_match; [by apply respects_ret, _|].
    apply respects_bind; [apply _|by apply seqs_same|]. intros _.
    apply respects_when; [apply _|]. by apply seqs_same.
  - unfold Stop. apply respects_get. intros s. case_match; [by apply respects_ret, _|].
    intros s0 (H0 & Hb & Hf). split; [split; [done|split; [done|constructor]]|].
    split_and!; try done; try constructor.
  - unfold OnCursorChange. apply respects_get. intros s. case_match; [apply seqs_OnJoined|].
    by apply respects_ret, _.
  - by apply seqs_same.
  - by apply seqs_same.
  - apply respects_get. intros s. destruct (posted s) as [|[l st] rest]; [by apply respects_ret, _|].
    apply respects_bind; [apply _|by apply seqs_same|]. intros _.
    unfold OnChannelStateChanged_Ui. case_match; [by apply respects_ret, _|].
    destruct st; [by apply respects_ret, _| |by apply seqs_same..].
    apply respects_get. intros s1. apply respects_bind; [apply _|by apply seqs_same|]. intros _.
    apply respects_bind; [apply _| |].
    + destruct (pending_while_closed_ s1); [|by apply respects_ret, _].
      apply respects_bind; [apply _|by apply seqs_same|]. intros _. apply seqs_OnJoined.
    + intros _. apply respects_when; [apply _|]. apply seqs_ReplayOnOpen.
  - intros s Hs. pose proof Hs as (H0 & Hb & Hf). rewrite exec_get, events_get.
    destruct (in_flight s) as [|[[j sq] r] rest] eqn:Hfl;
      [exact (trace_rel_nil s Hs)|].
    apply Forall_cons in Hf as [Hr Hf]. cbn [snd] in Hr.
    rewrite exec_mod, events_mod.
    assert (∀ s2, next_seq_ (policy s2) = next_seq_ (policy s) →
      below (next_seq_ (policy s)) (s_seq <$> replay_ (policy s2)) → in_flight s2 = rest →
      seqs_inv s2) as Hinv.
    { intros s2 G1 G2 G3. split; [by rewrite G1|]. rewrite G1, G3. by split. }
    assert (∀ s2 es, seqs_inv s2 → next_seq_ (policy s2) = next_seq_ (policy s) → es = [] →
      seqs_inv s2 ∧ next_seq_ (policy s) ≤ next_seq_ (policy s2) ∧
      StronglySorted Z.lt (fresh_seqs es) ∧
      Forall (λ k, next_seq_ (policy s) ≤ k < next_seq_ (policy s2)) (fresh_seqs es) ∧
      below (next_seq_ (policy s2)) (replayed_seqs es)) as Hdone.
    { intros s2 es I2 E ->. split; [done|]. split; [lia|]. repeat split; constructor. }
    unfold OnSendComplete. destruct b; cbn [negb].
    + destruct r; cbn [ewhen].
      * apply Hdone; [|done|done]. apply Hinv; [done| |done].
        unfold exec, emod, bump, OnEmitted. simpl. unfold trim, snapshot_of.
        assert (below (next_seq_ (policy s)) (s_seq <$> (replay_ (policy s) ++
          [let '(rx, ry) := RoundPosition config_ (jx j) (jy j) in mkSnapshot (type j) (j_visible j) rx ry
             (buttons_blink j) (clock s) (next_seq_ (policy s) - 1) (has_pointer_history j)])%list)) as Hn.
        { rewrite fmap_app. apply Forall_app. split; [done|].
          destruct (RoundPosition config_ (jx j) (jy j)). constructor; [|constructor].
          specialize (Hr eq_refl). simpl. lia. }
        destruct (replay_buffer_capacity config_) as [|cap]; [done|]. simpl.
        unfold below. rewrite fmap_drop. by apply Forall_drop.
      * apply Hdone; [|done|done]. by apply Hinv.
    + apply Hdone; [|done|done]. by apply Hinv.
  - by apply seqs_same.
Qed.

(** Wire sequence numbers: in every execution the fresh frames carry
    strictly increasing numbers, each below the next one to be allocated, and a
    replayed frame repeats an older number. *)
Theorem cursor_seqs s tr :
  reachable enabled (handle config_) CbCursorDcEmitter s tr →
  StronglySorted Z.lt (fresh_seqs tr) ∧
  Forall (λ k, 0 ≤ k < next_seq_ (policy s)) (fresh_seqs tr ++ replayed_seqs tr).
Proof.
  intros Hr. enough (seqs_inv s ∧ seqs_rel CbCursorDcEmitter tr s) as [Hi Hrel].
  { destruct Hrel as (_ & L & S & F & B); [split; [done|split; constructor]|].
    split; [done|]. apply Forall_app. split; [|done]. exact F. }
  revert s tr Hr. apply reachable_trace_inv.
  - split; [split; [done|split; constructor]|]. apply trace_rel_nil.
  - intros i s tr _ [Hi Hrel] _. split; [by apply (seqs_handle i s Hi)|].
    eapply trace_rel_app; [exact Hrel|apply seqs_handle].
Qed.

(** ** Serial sends: the viewer is up to date *)

Definition edge := (CbLastPointerSnapshot * CursorType * bool)%type.
Definition joined_edge (now : Z) (e : edge) : JoinedCursorState :=
  FillPositionFromSnapshot (Some e.1.1) (mkJoined e.1.2 e.2 float_zero float_zero 0 0 now false).

(** What makes two states the same to the viewer. *)
Definition key (e : edge) : CursorType * bool * Z * (Z * Z) :=
  (e.1.2, e.2, p_buttons e.1.1, RoundPosition config_ (px e.1.1) (py e.1.1)).
Definition snapshot_key (l : PolicySnapshot) : CursorType * bool * Z * (Z * Z) :=
  (s_type l, s_visible l, s_buttons_blink l, (x_rounded l, y_rounded l)).

(** The edges whose key differs from the one before. *)
Fixpoint destutter (prev : option (CursorType * bool * Z * (Z * Z))) (es : list edge) : list edge :=
  match es with
  | [] => []
  | e :: es' =>
      if bool_decide (prev = Some (key e)) then destutter prev es'
      else e :: destutter (Some (key e)) es'
  end.

Definition frames (now_wall clock first : Z) (es : list edge) : list V1EnvelopeView :=
  imap (λ i e, frame now_wall (joined_edge clock e) (first + Z.of_nat i)) es.
Definition view_of (e : event) : V1EnvelopeView := match e with Wire w _ _ => w end.

(** What is to be sent for edges that follow a state [prev], from the number [n]
    on: nothing for an edge that changes nothing; a frame with the next number
    for one that does, after which the edge is the state, unless the frame
    cannot be written: the number is used up then and the state stays. *)
Fixpoint emitted (now_wall clock : Z) (prev : option (CursorType * bool * Z * (Z * Z))) (n : Z)
    (es : list edge) : list V1EnvelopeView * Z * option (CursorType * bool * Z * (Z * Z)) :=
  match es with
  | [] => ([], n, prev)
  | e :: es' =>
      if bool_decide (prev = Some (key e)) then emitted now_wall clock prev n es'
      else
        let w := frame now_wall (joined_edge clock e) n in
        match EncodeJson w with
        | None => emitted now_wall clock prev (n + 1) es'
        | Some _ =>
            let '(ws, n', last) := emitted now_wall clock (Some (key e)) (n + 1) es' in
            (w :: ws, n', last)
        end
  end.

(** When every frame can be written they are the edges without repetitions,
    numbered one after the other. *)
Lemma emitted_all now_wall now prev n es :
  (∀ e k, e ∈ es → n ≤ k < n + Z.of_nat (List.length es) →
    is_Some (EncodeJson (frame now_wall (joined_edge now e) k))) →
  let kept := destutter prev es in
  emitted now_wall now prev n es =
    (frames now_wall now n kept, n + Z.of_nat (List.length kept),
     match last es with Some e => Some (key e) | None => prev end).
Proof.
  cbv zeta. revert prev n. induction es as [|e es IH]; intros prev n Hw.
  { cbn. by rewrite Z.add_0_r. }
  assert (last (e :: es) = match last es with Some x => Some x | None => Some e end) as Hlast.
  { destruct es as [|a es]; [done|]. change (last (e :: a :: es)) with (last (a :: es)).
    destruct (last (a :: es)) eqn:Hl; [done|]. by apply last_None in Hl. }
  rewrite Hlast. cbn [emitted destutter]. case_bool_decide as Hk.
  - rewrite IH.
    + rewrite Hk. by destruct (last es).
    + intros x k Hx Hr. apply Hw; [by right|]. cbn [List.length]. lia.
  - destruct (Hw e n) as [text ->]; [by left|cbn [List.length]; lia|]. rewrite IH.
    + unfold frames. cbn [imap List.length]. rewrite Z.add_0_r. f_equal; [f_equal; [f_equal|lia]|by destruct (last es)].
      apply imap_ext. intros i x _. simpl. f_equal. lia.
    + intros x k Hx Hr. apply Hw; [by right|]. cbn [List.length]. lia.
Qed.

(** An edge whose send is answered before the next edge. *)
Definition serial (e : edge) : list input := [PointerMoved e.1.1; Edge e.1.2 e.2] ++ [SendDone true].

Lemma IsDuplicate_key p e now :
  IsDuplicate config_ p (joined_edge now e) = bool_decide (snapshot_key <$> last_ p = Some (key e)).
Proof.
  unfold IsDuplicate, key. simpl. destruct (last_ p) as [l|]; simpl.
  2:{ done. }
  destruct (RoundPosition config_ (px e.1.1) (py e.1.1)) as [rx ry].
  apply eq_bool_prop_intro. rewrite !Is_true_true.
  rewrite !andb_true_iff, !bool_decide_eq_true, Bool.eqb_true_iff, !Z.eqb_eq. unfold snapshot_key.
  split; [intros [[[[-> ->] ->] ->] ->]; done|]. by intros [= -> -> -> -> ->].
Qed.

(** A started emitter on an open channel with nothing in flight. *)
Definition at_rest (s : em) : Prop :=
  started_ s = true ∧ cursor_dc_open_ s = true ∧ in_flight s = [].

Lemma serial_step s e :
  min_emit_gap config_ ≤ 0 → at_rest s →
  let prev := snapshot_key <$> last_ (policy s) in
  let n := next_seq_ (policy s) in
  let w := frame (wall s) (joined_edge (clock s) e) n in
  ∃ s' es, at_rest s' ∧ clock s' = clock s ∧ wall s' = wall s ∧
    run (handle config_) (serial e) s = (tt, s', es) ∧
    (view_of <$> es, next_seq_ (policy s'), snapshot_key <$> last_ (policy s')) =
      if bool_decide (prev = Some (key e)) then ([], n, prev)
      else match EncodeJson w with
           | Some _ => ([w], n + 1, Some (key e))
           | None => ([], n + 1, prev)
           end.
Proof.
  intros Hgap (Hst & Hop & Hfl). cbv zeta.
  set (s0 := s <| pointer := Some e.1.1 |>).
  pose proof (OnJoined_run (joined_edge (clock s) e) s0) as HJ.
  assert (run (handle config_) [PointerMoved e.1.1; Edge e.1.2 e.2] s =
    OnJoined config_ (joined_edge (clock s) e) s0) as Hedge.
  { rewrite run_two. cbn [handle]. rewrite mod_run. fold s0. unfold OnCursorChange. rewrite get_run.
    change (started_ s0) with (started_ s). by rewrite Hst. }
  unfold Decide in HJ. rewrite IsDuplicate_key in HJ.
  change (last_ (policy s0)) with (last_ (policy s)) in HJ.
  assert (∀ s1, run (handle config_) [SendDone true] s1 =
    match in_flight s1 with
    | [] => (tt, s1, [])
    | (j, sq, r) :: rest => OnSendComplete config_ j sq r true (s1 <| in_flight := rest |>)
    end) as Hdone.
  { intros s1. rewrite run_one. cbn [handle]. rewrite get_run.
    by destruct (in_flight s1) as [|[[??]?]?]; [|rewrite mod_run]. }
  unfold serial. case_bool_decide as Hk.
  - cbn [d_emit andb] in HJ.
    destruct (OnJoined config_ (joined_edge (clock s) e) s0) as [[[] s2] ev] eqn:E.
    injection HJ as -> ->. eexists _, []. split; [|split; [|split; [|split]]].
    4:{ eapply (run_chain _ _ _ _ _ _ [] []); [by rewrite Hedge|]. rewrite Hdone.
        match goal with |- context [in_flight ?x] => change (in_flight x) with (in_flight s) end.
        by rewrite Hfl. }
    all: done.
  - assert ((match last_ (policy s0) with
      | Some l => (0 <? min_emit_gap config_) && (clock s0 - emitted_at l <? min_emit_gap config_)
      | None => false end) = false) as Hheld.
    { destruct (last_ (policy s0)); [|done]. by destruct (Z.ltb_spec 0 (min_emit_gap config_)); [lia|]. }
    change (last_ (policy s0)) with (last_ (policy s)) in Hheld. rewrite Hheld in HJ.
    cbn [d_emit andb] in HJ. change (cursor_dc_open_ s0) with (cursor_dc_open_ s) in HJ.
    rewrite Hop, Encode_run in HJ.
    match type of HJ with context [EncodeJson ?w] => change w with
      (frame (wall s) (joined_edge (clock s) e) (next_seq_ (policy s))) in HJ end.
    destruct (EncodeJson _) as [text|].
    + eexists _, [_]. split; [|split; [|split; [|split]]].
      4:{ match goal with |- _ = (_, _, ?ev) => rewrite <-(app_nil_r ev) end.
          eapply run_chain; [rewrite Hedge; exact HJ|]. rewrite Hdone.
          match goal with |- context [in_flight ?x] => change (in_flight x)
            with (in_flight s ++ [(joined_edge (clock s) e, next_seq_ (policy s), true)])%list end.
          rewrite Hfl. reflexivity. }
      all: try done. unfold OnEmitted, snapshot_of, key. cbn [fst snd exec emod policy last_ fmap].
      simpl. by destruct (RoundPosition config_ (px e.1.1) (py e.1.1)).
    + eexists _, []. split; [|split; [|split; [|split]]].
      4:{ eapply (run_chain _ _ _ _ _ _ [] []); [rewrite Hedge; exact HJ|]. rewrite Hdone.
          match goal with |- context [in_flight ?x] => change (in_flight x) with (in_flight s) end.
          by rewrite Hfl. }
      all: done.
Qed.

(** C21. While the cursor channel is open and each send is answered before the
    next edge, the wire carries what [emitted] says: a frame for each edge that
    changes the cursor the viewer knows, and for no other, unless its text
    cannot be written.  When every frame can be written these are the edges with
    adjacent repetitions removed, in order and numbered consecutively, and the
    last frame is the current cursor: the viewer is never behind. *)
Theorem serial_emission_destutters s es :
  min_emit_gap config_ ≤ 0 → at_rest s →
  let m := run (handle config_) (List.concat (serial <$> es)) in
  let s' := exec m s in
  let prev := snapshot_key <$> last_ (policy s) in
  let n := next_seq_ (policy s) in
  (view_of <$> events m s, next_seq_ (policy s'), snapshot_key <$> last_ (policy s')) =
    emitted (wall s) (clock s) prev n es ∧
  ((∀ e k, e ∈ es → n ≤ k < n + Z.of_nat (List.length es) →
      is_Some (EncodeJson (frame (wall s) (joined_edge (clock s) e) k))) →
   let kept := destutter prev es in
   emitted (wall s) (clock s) prev n es =
     (frames (wall s) (clock s) n kept, n + Z.of_nat (List.length kept),
      match last es with Some e => Some (key e) | None => prev end)).
Proof.
  intros Hgap Hs. cbv zeta. split; [|apply emitted_all]. revert s Hs.
  induction es as [|e es IH]; intros s Hs; [done|].
  destruct (serial_step s e Hgap Hs) as (s1 & es1 & Hs1 & Hc & Hwl & Hrun & Heq).
  rewrite fmap_cons. cbn [List.concat]. destruct (run_app (handle config_) (serial e)
    (List.concat (serial <$> es)) s) as [Hex Hev]. rewrite Hex, Hev.
  assert (exec (run (handle config_) (serial e)) s = s1) as -> by (unfold exec; by rewrite Hrun).
  assert (events (run (handle config_) (serial e)) s = es1) as -> by (unfold events; by rewrite Hrun).
  rewrite fmap_app. specialize (IH s1 Hs1). rewrite Hwl, Hc in IH. cbn [emitted].
  case_bool_decide as Hk; [|destruct (EncodeJson _) as [text|]]; injection Heq as E1 E2 E3; rewrite E2, E3 in IH;
    rewrite <-IH, E1; done.
Qed.
End theorems.

(** ** Executions that leave the viewer behind *)

#[local] Existing Instance BitsCodec.bits_codec.
#[local] Existing Instance Numbers.defaults.

Definition wire (ins : list input) : list (string * Z) :=
  (λ e, (shape (view_of e), seq (view_of e))) <$>
    events (run (handle default_policy) ins) CbCursorDcEmitter.

(** The channel closes, the cursor becomes a hand, the channel opens again. *)
Definition reopen_run : list input :=
  [Start true; RunPosted; Edge kPointer true; SendDone true; ChannelChange false; RunPosted;
   Edge kHand true; ChannelChange true; RunPosted; SendDone true; SendDone true].

(** The cursor becomes a hand and an arrow again before the hand is answered. *)
Definition flicker_run : list input :=
  [Start true; RunPosted; Edge kPointer true; SendDone true; Edge kHand true; Edge kPointer true;
   SendDone true].

(** Two executions end, with nothing queued or in flight, on a frame that is
    not the current cursor.  After a reopen the snapshot of before the outage is
    replayed behind the state the cursor took meanwhile, with its older number;
    and an edge back to the last answered state is dropped as a duplicate while
    another state is still in flight. *)
Theorem stale_cursor_executions :
  all_enabled enabled (handle default_policy) reopen_run CbCursorDcEmitter = true ∧
  wire reopen_run = [("default", 0); ("pointer", 1); ("default", 0)] ∧
  all_enabled enabled (handle default_policy) flicker_run CbCursorDcEmitter = true ∧
  wire flicker_run = [("default", 0); ("pointer", 1)] ∧
  let settled s := in_flight s = [] ∧ posted s = [] in
  settled (exec (run (handle default_policy) reopen_run) CbCursorDcEmitter) ∧
  settled (exec (run (handle default_policy) flicker_run) CbCursorDcEmitter).
Proof. vm_compute. by split_and!. Qed.

Lemma cursor_seqs_witness :
  Forall (λ k, 0 ≤ k < 2) (fresh_seqs (events (run (handle default_policy) flicker_run) CbCursorDcEmitter)).
Proof.
  assert (all_enabled enabled (handle default_policy) flicker_run CbCursorDcEmitter = true) as Hen
    by (vm_compute; reflexivity).
  pose proof (proj2 (cursor_seqs default_policy _ _
    (run_reachable enabled (handle default_policy) CbCursorDcEmitter flicker_run Hen))) as H.
  apply Forall_app in H as [H _]. exact H.
Defined.

Definition open_emitter : em :=
  exec (run (handle default_policy) [Start true; RunPosted]) CbCursorDcEmitter.
Definition origin : CbLastPointerSnapshot := mkPointer float_zero float_zero 0 7 true.

Definition some_edges : list edge := [(origin, kHand, true); (origin, kHand, true); (origin, kIBeam, false)].
Lemma serial_emission_destutters_witness :
  shape <$> (view_of <$> events (run (handle default_policy) (List.concat (serial <$> some_edges))) open_emitter) =
    ["pointer"; "none"] ∧
  emitted default_policy (wall open_emitter) (clock open_emitter) (snapshot_key <$> last_ (policy open_emitter))
      (next_seq_ (policy open_emitter)) some_edges =
    (frames (wall open_emitter) (clock open_emitter) 0 [(origin, kHand, true); (origin, kIBeam, false)], 2,
     Some (key default_policy (origin, kIBeam, false))).
Proof.
  split; [vm_compute; reflexivity|].
  refine (proj2 (serial_emission_destutters default_policy open_emitter some_edges _ _) _).
  - vm_compute. discriminate.
  - by vm_compute.
  - intros e k _ _. by eexists.
Defined.
