(* ===== verification/InputEnvelope.v ===== *)
(** * Input envelopes (capture/build-integration/cb_input_dispatch.{h,cc})

    The decoder of the input channel: a text frame becomes an envelope, an
    unknown-type report or a decode error, handed to the UI sequence. *)

From Stdlib Require Import ZArith Lia String Ascii SpecFloat.
From stdpp Require Import base tactics list strings.
From S2P Require Import Prelude Values Numbers.
Open Scope string_scope.
Open Scope Z_scope.

(** ** Data *)

Record InputEnvelope := mkInput {
  version : Z;
  type : string;
  t : Z;
  seq : Z;
  data : DictValue;
}.

Definition kProtocolVersion : Z := 1.

Definition kKnownInputTypes : list string :=
  ["clipboard_copy_request"; "clipboard_paste"; "composition_cancel"; "composition_end";
   "composition_start"; "composition_update"; "drag_end"; "drag_over"; "drag_start"; "drop";
   "key_down"; "key_up"; "mouse_button"; "mouse_enter"; "mouse_leave"; "mouse_move";
   "mouse_wheel"; "touch_cancel"; "touch_end"; "touch_move"; "touch_start"].

(** [std::binary_search] over a sorted table: halve the interval. *)
Fixpoint binary_search (fuel : nat) (table : list string) (s : string) : bool :=
  match fuel with
  | O => false
  | S fuel' =>
      match table with
      | [] => false
      | _ =>
          let mid := Nat.div2 (List.length table) in
          match table !! mid with
          | None => false
          | Some m =>
              match String.compare s m with
              | Eq => true
              | Lt => binary_search fuel' (take mid table) s
              | Gt => binary_search fuel' (drop (S mid) table) s
              end
          end
      end
  end.

Definition IsKnownInputType (s : string) : bool :=
  binary_search (List.length kKnownInputTypes) kKnownInputTypes s.

Definition kPreviewMax : nat := 96.
Definition preview_char (c : ascii) : ascii := if in_range " " "~" c then c else "."%char.
Definition TruncatedPreview (raw : string) : string :=
  (str_map preview_char (str_take kPreviewMax raw) ++
   (if (kPreviewMax <? String.length raw)%nat then "..." else ""))%string.

(** ** Integers of a JSON number *)

Definition kMaxSafeJsonInteger : Z := 9007199254740991.

(** [std::trunc(d) == d]. *)
Definition sf_is_integral (x : spec_float) : bool :=
  match x with
  | S754_zero _ => true
  | S754_finite _ m e => (0 <=? e) || (Zpos m mod 2 ^ (- e) =? 0)
  | _ => false
  end.

Definition FindSafeJsonInteger (k : string) (d : DictValue) : option Z :=
  match FindInt k d with
  | Some n => Some n
  | None =>
      match Find k d with
      | Some (VDouble x) =>
          match sf_trunc x with
          | None => None
          | Some z =>
              if (z <? - kMaxSafeJsonInteger) || (kMaxSafeJsonInteger <? z) ||
                 negb (sf_is_integral x)
              then None else Some z
          end
      | _ => None
      end
  end.

(** ** The decoder *)

Section decode.
Context {J : JsonCodec}.
(** The reader's message for a text it refuses, and [NumberToString]. *)
Variable error_message : string → string.
Variable NumberToString : Z → string.

Definition DecodeEnvelope (raw : string) : string + InputEnvelope :=
  match JSONReader_Read raw with
  | None => inl ("invalid JSON: " ++ error_message raw)
  | Some (VDict envelope) =>
      match FindInt "v" envelope with
      | None => inl "missing or non-integer 'v'"
      | Some v =>
          if negb (v =? kProtocolVersion) then
            inl ("unsupported protocol version v=" ++ NumberToString v)
          else
            match FindString "type" envelope with
            | None => inl "missing or empty 'type'"
            | Some ty =>
                if String.eqb ty "" then inl "missing or empty 'type'"
                else
                  match FindSafeJsonInteger "t" envelope with
                  | None => inl "missing or non-integer 't'"
                  | Some tm =>
                      match FindSafeJsonInteger "seq" envelope with
                      | None => inl "missing or non-integer 'seq'"
                      | Some sq =>
                          match FindDict "data" envelope with
                          | None => inl "missing or non-object 'data'"
                          | Some d => inr (mkInput v ty tm sq d)
                          end
                      end
                  end
            end
      end
  | Some _ => inl "envelope not a JSON object"
  end.

(** The task a frame posts to the UI sequence. *)
Inductive ui_call :=
| OnInputEvent (e : InputEnvelope)
| OnInputEventDecodeError (reason preview : string)
| OnInputEventUnknownType (ty : string) (sq : Z).

Definition OnMessage (binary : bool) (raw : string) : ui_call :=
  if binary then
    OnInputEventDecodeError "binary frame on input channel (v1 expects JSON text)" ""
  else
    match DecodeEnvelope raw with
    | inl reason => OnInputEventDecodeError reason (TruncatedPreview raw)
    | inr e =>
        if IsKnownInputType (type e) then OnInputEvent e
        else OnInputEventUnknownType (type e) (seq e)
    end.

(** ** Properties *)

Lemma binary_search_sound fuel table s : binary_search fuel table s = true → s ∈ table.
Proof.
  revert table. induction fuel as [|fuel IH]; intros table; [done|]. simpl.
  destruct table as [|a table]; [done|]. set (tb := a :: table).
  destruct (tb !! Nat.div2 (List.length tb)) as [m|] eqn:Hm; [|done].
  destruct (String.compare s m) eqn:Hc.
  - intros _. apply String.compare_eq_iff in Hc as ->. by apply list_elem_of_lookup_2 in Hm.
  - intros H%IH. rewrite <-(take_drop (Nat.div2 (List.length tb)) tb). apply elem_of_app. by left.
  - intros H%IH. rewrite <-(take_drop (S (Nat.div2 (List.length tb))) tb). apply elem_of_app. by right.
Qed.

Lemma IsKnownInputType_spec s : IsKnownInputType s = true ↔ s ∈ kKnownInputTypes.
Proof.
  split; [apply binary_search_sound|].
  assert (forallb IsKnownInputType kKnownInputTypes = true) as H by (by vm_compute).
  rewrite forallb_forall in H. intros Hs. apply H. by apply list_elem_of_In.
Qed.

(** A JSON number holds the integer [z] exactly. *)
Definition holds (v : Value) (z : Z) : Prop :=
  match v with
  | VInt n => z = n
  | VDouble (S754_zero _) => z = 0
  | VDouble (S754_finite neg m e) =>
      Z.abs z * 2 ^ Z.max 0 (- e) = Zpos m * 2 ^ Z.max 0 e ∧ (z < 0 ↔ neg = true)
  | _ => False
  end.

Lemma trunc_exact x z :
  sf_trunc x = Some z → sf_is_integral x = true → holds (VDouble x) z.
Proof.
  destruct x as [neg|neg| |neg m e]; simpl; try done.
  - by intros [= <-].
  - intros [= Hz] Hi.
    assert (0 < Z.shiftl (Zpos m) e ∧
      Z.shiftl (Zpos m) e * 2 ^ Z.max 0 (- e) = Zpos m * 2 ^ Z.max 0 e) as [Hpos He].
    { destruct (Z.leb_spec 0 e); simpl in Hi.
      - rewrite Z.shiftl_mul_pow2, !Z.max_l, !Z.max_r by lia. split; [|lia].
        pose proof (Z.pow_pos_nonneg 2 e). lia.
      - rewrite Z.shiftl_div_pow2 by lia. rewrite Z.max_r, Z.max_l by lia.
        apply Z.eqb_eq in Hi. pose proof (Z.pow_pos_nonneg 2 (- e) ltac:(lia) ltac:(lia)).
        pose proof (Z.div_mod (Zpos m) (2 ^ (- e)) ltac:(lia)). split; [|lia].
        destruct (Z.lt_ge_cases 0 (Zpos m / 2 ^ (- e))); [done|]. nia. }
    destruct neg; subst z; rewrite ?Z.abs_opp, Z.abs_eq by lia; (split; [done|]);
      split; intros; try done; lia.
Qed.

(** What the input decoder accepts is what the protocol says: a text frame
    reaches the dispatcher exactly when it is a JSON object of version 1 with a
    known type, an object as data, and a time and a sequence number that are
    integers of at most 53 bits held exactly; every other frame is reported, a
    well-formed one of unknown type with its type, the rest as a decode error
    whose preview is at most 99 characters of printable text. *)
Theorem input_frame_outcome raw :
  match OnMessage false raw with
  | OnInputEvent e =>
      ∃ doc vt vs, JSONReader_Read raw = Some (VDict doc) ∧ FindInt "v" doc = Some 1 ∧
        FindString "type" doc = Some (type e) ∧ type e ∈ kKnownInputTypes ∧
        FindDict "data" doc = Some (data e) ∧
        Find "t" doc = Some vt ∧ holds vt (t e) ∧ Find "seq" doc = Some vs ∧ holds vs (seq e) ∧
        (∀ x, vt = VDouble x → Z.abs (t e) ≤ kMaxSafeJsonInteger) ∧
        (∀ x, vs = VDouble x → Z.abs (seq e) ≤ kMaxSafeJsonInteger)
  | OnInputEventUnknownType ty sq =>
      ∃ e, DecodeEnvelope raw = inr e ∧ type e = ty ∧ seq e = sq ∧ (ty ∉ kKnownInputTypes)
  | OnInputEventDecodeError reason preview =>
      DecodeEnvelope raw = inl reason ∧ preview = TruncatedPreview raw ∧
      (String.length preview ≤ 99)%nat
  end.
Proof.
  assert (∀ k d z, FindSafeJsonInteger k d = Some z →
    ∃ v, Find k d = Some v ∧ holds v z ∧ (∀ x, v = VDouble x → Z.abs z ≤ kMaxSafeJsonInteger)) as Hsafe.
  { intros k d z. unfold FindSafeJsonInteger, FindInt.
    destruct (Find k d) as [[| |n|x| | |]|]; try done.
    - intros [= ->]. exists (VInt z). by split_and!.
    - destruct (sf_trunc x) as [z'|] eqn:Ht; [|done].
      destruct ((z' <? _) || _ || _) eqn:Hb; [done|]. intros [= <-].
      apply orb_false_iff in Hb as [[H1 H2]%orb_false_iff H3]. apply negb_false_iff in H3.
      exists (VDouble x). split_and!; [done|by apply trunc_exact|].
      intros _ _. apply Z.ltb_ge in H1, H2. lia. }
  assert (String.length (TruncatedPreview raw) ≤ 99)%nat as Hlen.
  { unfold TruncatedPreview. rewrite str_length_app.
    assert (∀ s, String.length (str_map preview_char s) = String.length s) as ->
      by (induction s; simpl; congruence).
    assert (∀ n s, (String.length (str_take n s) ≤ n)%nat) as Hl
      by (induction n; intros [|c s]; simpl; try lia; specialize (IHn s); lia).
    pose proof (Hl kPreviewMax raw) as Hle. revert Hle.
    generalize (String.length (str_take kPreviewMax raw)). intros n Hn.
    assert (kPreviewMax = 96%nat) as Hk by done. rewrite Hk in Hn.
    by case_match; simpl; lia. }
  unfold OnMessage. destruct (DecodeEnvelope raw) as [reason|e] eqn:Hd; [done|].
  destruct (IsKnownInputType (type e)) eqn:Hk.
  - apply IsKnownInputType_spec in Hk. unfold DecodeEnvelope in Hd.
    destruct (JSONReader_Read raw) as [[| | | | | |doc]|] eqn:Hr; try done.
    destruct (FindInt "v" doc) as [v|] eqn:Hv; [|done].
    destruct (Z.eqb_spec v kProtocolVersion) as [->|]; [|done]. simpl in Hd.
    destruct (FindString "type" doc) as [ty|] eqn:Hty; [|done].
    destruct (String.eqb ty ""); [done|].
    destruct (FindSafeJsonInteger "t" doc) as [tm|] eqn:Htm; [|done].
    destruct (FindSafeJsonInteger "seq" doc) as [sq|] eqn:Hsq; [|done].
    destruct (FindDict "data" doc) as [d|] eqn:Hdd; [|done].
    injection Hd as <-. simpl in *.
    apply Hsafe in Htm as (vt & ? & ? & ?), Hsq as (vs & ? & ? & ?).
    exists doc, vt, vs. by split_and!.
  - exists e. split_and!; try done. intros Hin%IsKnownInputType_spec. congruence.
Qed.
End decode.
