(* ===== verification/InputWidget.v ===== *)
(** * What the input dispatchers talk to

    The resolver's answer, the widget host's entry points and the event objects
    the dispatchers fill (Blink's types, the fields the code sets).  A frame of
    the input channel is handled in one go on the UI sequence, so an input is
    the envelope, the time the handler reads and the resolver's answer. *)

From Stdlib Require Import ZArith Lia SpecFloat.
From stdpp Require Import base tactics sets list strings numbers gmap.
From S2P Require Import Prelude Values Numbers InputEnvelope.
Open Scope Z_scope.

(** ** Blink's modifier bits *)

Inductive Modifier :=
| kShiftKey | kControlKey | kAltKey | kMetaKey
| kLeftButtonDown | kMiddleButtonDown | kRightButtonDown | kBackButtonDown | kForwardButtonDown.
#[export] Instance Modifier_eq_dec : EqDecision Modifier.
Proof. solve_decision. Defined.

(** [WebInputEvent::Modifiers] is a bit set of 32 bits: each flag is one bit. *)
Class BlinkModifiers := {
  modifier_bit : Modifier → Z;
  modifier_bit_range m : 0 ≤ modifier_bit m < 31;
  modifier_bit_inj m m' : modifier_bit m = modifier_bit m' → m = m';
}.

Section flags.
Context {B : BlinkModifiers}.

Definition flag (m : Modifier) : Z := Z.shiftl 1 (modifier_bit m).
Definition has (m : Modifier) (set : Z) : bool := Z.testbit set (modifier_bit m).
(** [set & flag != 0], [set |= flag], [set &= ~flag] on [uint32_t]. *)
Definition test_flag (m : Modifier) (set : Z) : bool := negb (Z.land set (flag m) =? 0).
Definition set_flag (m : Modifier) (set : Z) : Z := Z.lor set (flag m).
Definition clear_flag (m : Modifier) (set : Z) : Z := Z.land set (Z.lnot (flag m)).

Lemma flag_testbit m i : 0 ≤ i → Z.testbit (flag m) i = bool_decide (i = modifier_bit m).
Proof.
  intros Hi. pose proof (modifier_bit_range m). unfold flag. rewrite Z.shiftl_1_l.
  rewrite Z.pow2_bits_eqb by lia. rewrite Z.eqb_sym.
  destruct (Z.eqb_spec i (modifier_bit m)); by case_bool_decide.
Qed.

Lemma has_flag m m' : has m (flag m') = bool_decide (m = m').
Proof.
  unfold has. rewrite flag_testbit by apply modifier_bit_range.
  apply bool_decide_ext. split; [apply modifier_bit_inj|by intros ->].
Qed.

Lemma has_set m m' s : has m (set_flag m' s) = bool_decide (m = m') || has m s.
Proof. unfold set_flag, has. rewrite Z.lor_spec, orb_comm. f_equal. apply has_flag. Qed.

Lemma has_clear m m' s : has m (clear_flag m' s) = negb (bool_decide (m = m')) && has m s.
Proof.
  unfold clear_flag, has. pose proof (modifier_bit_range m).
  rewrite Z.land_spec, Z.lnot_spec, andb_comm by lia. f_equal. f_equal. apply has_flag.
Qed.

Lemma has_lor m a b : has m (Z.lor a b) = has m a || has m b.
Proof. apply Z.lor_spec. Qed.
Lemma has_0 m : has m 0 = false.
Proof. apply Z.bits_0. Qed.

Lemma test_flag_has m s : test_flag m s = has m s.
Proof.
  unfold test_flag. destruct (has m s) eqn:Hm.
  - apply negb_true_iff, Z.eqb_neq. intros H0.
    assert (has m (Z.land s (flag m)) = false) as Hb by (by rewrite H0, has_0).
    unfold has in Hb, Hm. rewrite Z.land_spec, Hm in Hb. simpl in Hb.
    pose proof (has_flag m m) as Hf. unfold has in Hf. rewrite Hb in Hf.
    by rewrite bool_decide_eq_true_2 in Hf.
  - apply negb_false_iff, Z.eqb_eq. apply Z.bits_inj'. intros i Hi.
    rewrite Z.bits_0, Z.land_spec, flag_testbit by lia.
    case_bool_decide as He; [|apply andb_false_r]. subst. unfold has in Hm. by rewrite Hm.
Qed.

(** The bits of a set that are no known flag. *)
Definition no_other_bits (ms : list Modifier) (s : Z) : Prop :=
  ∀ i, 0 ≤ i → Z.testbit s i = true → ∃ m, m ∈ ms ∧ i = modifier_bit m.

Lemma no_other_flag ms m s : m ∈ ms → no_other_bits ms s → no_other_bits ms (set_flag m s).
Proof.
  intros Hm Hs i Hi. unfold set_flag. rewrite Z.lor_spec, flag_testbit by done.
  intros [H|H%bool_decide_eq_true]%orb_true_iff; eauto.
Qed.
Lemma no_other_clear ms m s : no_other_bits ms s → no_other_bits ms (clear_flag m s).
Proof.
  intros Hs i Hi. unfold clear_flag. rewrite Z.land_spec. intros [H _]%andb_true_iff. eauto.
Qed.
Lemma no_other_has ms m s : no_other_bits ms s → m ∉ ms → has m s = false.
Proof.
  intros Hs Hm. destruct (has m s) eqn:H; [|done].
  apply Hs in H as (m' & Hm' & ->%modifier_bit_inj); [done|apply modifier_bit_range].
Qed.

(** A set driven by presses and releases: an edge presses or releases one flag. *)
Definition apply_edge (held : Z) (e : option (bool * Modifier)) : Z :=
  match e with
  | Some (true, m) => set_flag m held
  | Some (false, m) => clear_flag m held
  | None => held
  end.
(** Whether the last edge of a flag was a press. *)
Definition last_press (m : Modifier) (es : list (option (bool * Modifier))) : bool :=
  fold_left (λ acc e,
    match e with
    | Some (dn, m') => if bool_decide (m = m') then dn else acc
    | None => acc
    end) es false.

Lemma edges_track ms es :
  (∀ dn m, Some (dn, m) ∈ es → m ∈ ms) →
  let held := fold_left apply_edge es 0 in
  0 ≤ held ∧ no_other_bits ms held ∧ ∀ m, has m held = last_press m es.
Proof.
  intros Hes. cbv zeta. induction es as [|e es IH] using rev_ind.
  { split; [done|]. split; [|intros m; apply has_0]. intros k _. simpl. by rewrite Z.bits_0. }
  destruct IH as (H0 & Hn & Hh); [intros dn m Hin; apply (Hes dn); set_solver|].
  unfold last_press. setoid_rewrite fold_left_app. simpl.
  destruct e as [[dn m]|]; [|done].
  assert (m ∈ ms) as Hm by (apply (Hes dn); set_solver).
  destruct dn; split_and!.
  - unfold set_flag. apply Z.lor_nonneg. split; [done|]. unfold flag.
    pose proof (modifier_bit_range m). by apply Z.shiftl_nonneg.
  - by apply no_other_flag.
  - intros m'. simpl. rewrite has_set, Hh. by case_bool_decide.
  - unfold clear_flag. apply Z.land_nonneg. by left.
  - by apply no_other_clear.
  - intros m'. simpl. rewrite has_clear, Hh. by case_bool_decide.
Qed.

Lemma no_other_bound ms s : 0 ≤ s → no_other_bits ms s → 0 ≤ s < 2 ^ 31.
Proof.
  intros Hs H. split; [done|]. rewrite <-(Z.mod_small s (2 ^ 31)); [apply Z.mod_pos_bound; lia|].
  split; [done|]. destruct (Z.lt_ge_cases s (2 ^ 31)) as [|Hge]; [done|exfalso].
  assert (0 < s) as Hpos by lia. pose proof (Z.bit_log2 s Hpos) as Hb.
  apply H in Hb as (m & _ & Hm); [|apply Z.log2_nonneg].
  pose proof (modifier_bit_range m). pose proof (Z.log2_le_mono _ _ Hge) as Hl.
  rewrite Z.log2_pow2 in Hl by lia. lia.
Qed.
End flags.

Create Rewrite HintDb flags.
#[export] Hint Rewrite @has_set @has_clear @has_flag @has_lor @has_0 @test_flag_has : flags.

(** Blink's assignment of the bits. *)
Definition blink_bit (m : Modifier) : Z :=
  match m with
  | kShiftKey => 0 | kControlKey => 1 | kAltKey => 2 | kMetaKey => 3
  | kLeftButtonDown => 6 | kMiddleButtonDown => 7 | kRightButtonDown => 8
  | kBackButtonDown => 17 | kForwardButtonDown => 18
  end.
Definition blink_modifiers : BlinkModifiers.
Proof.
  refine {| modifier_bit := blink_bit |}.
  - by intros [].
  - by intros [] [].
Defined.

(** ** The resolver *)

(** A widget host, with the identity of the object;
    [GetView()->GetDeviceScaleFactor()] when it has a view. *)
Record RenderWidgetHost := mkRwh {
  rwh_id : nat;
  view_dsf : option spec_float;
  routing_id : Z;
}.

(** A view and its widget host, either of which may be null. *)
Abbreviation RenderWidgetHostView := (option (option RenderWidgetHost)) (only parsing).

Record WebContents := mkContents {
  contents_view : RenderWidgetHostView;
  focused_frame : option RenderWidgetHostView;
  primary_frame : option RenderWidgetHostView;
}.

(** [resolver_] may be null, and so may its answer. *)
Abbreviation Resolver := (option (option WebContents)) (only parsing).
Definition GetActiveWebContents (r : Resolver) : option WebContents :=
  match r with Some (Some wc) => Some wc | _ => None end.
Definition contents_host (wc : WebContents) : option RenderWidgetHost :=
  match contents_view wc with Some (Some rwh) => Some rwh | _ => None end.

Record ui_input := mkUi {
  now : Z;
  resolver : Resolver;
  env : InputEnvelope;
}.

(** ** Events and calls *)

Inductive Button := kNoButton | kLeft | kMiddle | kRight | kBack | kForward.
Inductive Phase := kPhaseNone | kPhaseBegan | kPhaseChanged | kPhaseEnded.
Inductive MouseType := kMouseMove | kMouseDown | kMouseUp.
Inductive KeyType := kRawKeyDown | kKeyUp | kChar.
Inductive TouchType := kTouchStart | kTouchMove | kTouchEnd | kTouchCancel.
Inductive PointState := kStatePressed | kStateMoved | kStateStationary | kStateReleased | kStateCancelled.
#[export] Instance PointState_eq_dec : EqDecision PointState.
Proof. solve_decision. Defined.

Record WebMouseEvent := mkMouse {
  m_type : MouseType;
  m_pos : spec_float * spec_float;
  m_button : Button;
  m_click_count : Z;
  m_modifiers : Z;
  m_time : Z;
}.

Record WebMouseWheelEvent := mkWheel {
  w_modifiers : Z;
  w_time : Z;
  w_pos : spec_float * spec_float;
  delta_x : spec_float;
  delta_y : spec_float;
  wheel_ticks_x : spec_float;
  wheel_ticks_y : spec_float;
  w_phase : Phase;
  momentum_phase : Phase;
}.
#[export] Instance eta_wheel : Eta WebMouseWheelEvent := λ w,
  mkWheel (w_modifiers w) (w_time w) (w_pos w) (delta_x w) (delta_y w) (wheel_ticks_x w)
    (wheel_ticks_y w) (w_phase w) (momentum_phase w).

Record NativeWebKeyboardEvent := mkKey {
  k_type : KeyType;
  k_modifiers : Z;
  k_time : Z;
  windows_key_code : Z;
  native_key_code : Z;
  k_dom_code : Z;
  k_dom_key : Z;
  k_text : list Z;
}.

Record WebTouchPoint := mkPoint {
  p_id : Z;
  p_state : PointState;
  p_pos : spec_float * spec_float;
  p_radius : spec_float * spec_float;
  p_rotation : spec_float;
  p_force : spec_float;
}.
Record WebTouchEvent := mkTouch {
  t_type : TouchType;
  t_time : Z;
  moved_beyond_slop_region : bool;
  touches : list WebTouchPoint;
}.

(** [ui::ImeTextSpan] of the one kind the code builds. *)
Record ImeTextSpan := mkSpan { start_offset : Z; end_offset : Z }.

Record DropData := mkDrop {
  view_id : Z;
  filenames : nat;
  drop_text : option (list Z);
  drop_html : option (list Z);
  url_infos : list string;
  custom_data : gmap (list Z) (list Z);
}.
#[export] Instance eta_drop : Eta DropData := λ d,
  mkDrop (view_id d) (filenames d) (drop_text d) (drop_html d) (url_infos d) (custom_data d).

(** Calls on the contents and the widget host, in order.  Those of a drag say
    which widget host they are made on. *)
Inductive call :=
| WasShown
| Focus
| ForwardMouseEvent (e : WebMouseEvent)
| ForwardWheelEvent (e : WebMouseWheelEvent)
| ForwardKeyboardEvent (e : NativeWebKeyboardEvent)
| ForwardTouchEvent (e : WebTouchEvent)
| ImeSetComposition (text : list Z) (spans : list ImeTextSpan) (sel_start sel_end : Z)
| ImeCommitText (text : list Z) (spans : list ImeTextSpan) (relative_cursor_pos : Z)
| ImeCancelComposition
| DragTargetDragEnter (host : nat) (d : DropData) (p : spec_float * spec_float) (ops modifiers : Z)
| DragTargetDragOver (host : nat) (p : spec_float * spec_float) (ops modifiers : Z)
| DragTargetDragLeave (host : nat) (p : spec_float * spec_float)
| DragTargetDrop (host : nat) (d : DropData) (p : spec_float * spec_float) (modifiers : Z)
| CopyGesture.

(** ** Code the dispatchers repeat *)

(** [EnsureBroughtToFront]: once per dispatcher. *)
Definition bring_to_front (wc : WebContents) : list call :=
  WasShown :: match contents_view wc with Some _ => [Focus] | None => [] end.

(** [ContentToWidget] of the mouse and drag dispatchers. *)
Definition ContentToWidget (rwh : RenderWidgetHost) (x y : Z) : spec_float * spec_float :=
  let dsf := match view_dsf rwh with
             | Some d => if SFltb float_zero d then d else float_one
             | None => float_one
             end in
  (fdiv (float_of_Z x) dsf, fdiv (float_of_Z y) dsf).
