(* ===== verification/InputMouse.v ===== *)
(** * The mouse dispatcher (capture/build-integration/cb_input_dispatch_mouse.{h,cc}) *)

From Stdlib Require Import ZArith Lia String SpecFloat.
From stdpp Require Import base tactics sets list strings numbers.
From S2P Require Import Prelude Values Numbers LastPointer InputEnvelope InputWidget.
Open Scope string_scope.
Open Scope Z_scope.

(** ** State *)

Record ClickRamp := mkRamp {
  protocol_button : Z;
  ramp_x : Z;
  ramp_y : Z;
  ramp_at : Z;
  count : Z;
}.

Record mouse := mkMouseState {
  last_click_ : ClickRamp;
  held_buttons_blink_ : Z;
  held_modifiers_blink_ : Z;
  wheel_in_gesture_ : bool;
  brought_to_front_ : bool;
  last_pointer_state_ : CbLastPointerSnapshot;
}.
#[export] Instance eta_mouse : Eta mouse := λ s,
  mkMouseState (last_click_ s) (held_buttons_blink_ s) (held_modifiers_blink_ s)
    (wheel_in_gesture_ s) (brought_to_front_ s) (last_pointer_state_ s).

Definition CbInputDispatchMouse : mouse :=
  mkMouseState (mkRamp (-1) 0 0 0 0) 0 0 false false CbLastPointerState.

(** Microseconds and pixels. *)
Definition kClickRampWindow : Z := 500000.
Definition kClickRampSlopPx : Z := 5.

Definition ProtocolButtonToBlink (b : Z) : Button :=
  match b with
  | 0 => kLeft | 1 => kMiddle | 2 => kRight | 3 => kBack | 4 => kForward
  | _ => kNoButton
  end.

Definition button_modifier (b : Z) : option Modifier :=
  match b with
  | 0 => Some kLeftButtonDown | 1 => Some kMiddleButtonDown | 2 => Some kRightButtonDown
  | 3 => Some kBackButtonDown | 4 => Some kForwardButtonDown
  | _ => None
  end.

(** [float] constants of the wheel. *)
Definition f (z : Z) : spec_float := float_of_Z z.
Definition kProtocolToBlinkSign : spec_float := f (-1).

Definition WheelScalingFor (mode : Z) (delta_mode : option string) : spec_float :=
  let by_mode := match mode with 0 => f 1 | 1 => f 16 | 2 => f 800 | _ => f 1 end in
  match delta_mode with
  | Some d =>
      if String.eqb d "pixel" then f 1
      else if String.eqb d "line" then f 16
      else if String.eqb d "page" then f 800
      else by_mode
  | None => by_mode
  end.

Section mouse.
Context {B : BlinkModifiers} {U : Unspecified}.
Abbreviation M := (eff mouse call).

Definition ProtocolButtonToBlinkHeldBit (b : Z) : Z :=
  match button_modifier b with Some m => flag m | None => 0 end.

Definition ButtonFromHeldBits (held : Z) : Button :=
  if test_flag kLeftButtonDown held then kLeft
  else if test_flag kRightButtonDown held then kRight
  else if test_flag kMiddleButtonDown held then kMiddle
  else if test_flag kBackButtonDown held then kBack
  else if test_flag kForwardButtonDown held then kForward
  else kNoButton.

(** [static_cast<int>(held_buttons_blink_ | held_modifiers_blink_)]. *)
Definition event_modifiers (s : mouse) : Z :=
  wrap32 (Z.lor (held_buttons_blink_ s) (held_modifiers_blink_ s)).

Definition EnsureBroughtToFront (wc : WebContents) : M unit :=
  s ← eget;
  if brought_to_front_ s then mret tt
  else
    eseq (emit <$> bring_to_front wc);;
    emod (λ s, s <| brought_to_front_ := true |>).

Definition update_pointer (p : spec_float * spec_float) (event_time : Z) : M unit :=
  emod (λ s, s <| last_pointer_state_ :=
                    Update p.1 p.2 (held_buttons_blink_ s) event_time (last_pointer_state_ s) |>).

(** The guards every handler starts with. *)
Definition with_host (r : option (option WebContents)) (k : RenderWidgetHost → M unit) : M unit :=
  match GetActiveWebContents r with
  | None => mret tt
  | Some wc =>
      match contents_host wc with
      | None => mret tt
      | Some rwh => EnsureBroughtToFront wc;; k rwh
      end
  end.

Definition DispatchMouseMove (r : option (option WebContents)) (data : DictValue) (event_time : Z)
    : M unit :=
  with_host r (λ rwh,
    match FindInt "x" data, FindInt "y" data with
    | Some x, Some y =>
        let widget := ContentToWidget rwh x y in
        s ← eget;
        emit (ForwardMouseEvent
                (mkMouse kMouseMove widget (ButtonFromHeldBits (held_buttons_blink_ s)) 0
                   (event_modifiers s) event_time));;
        update_pointer widget event_time
    | _, _ => mret tt
    end).

(** The click count of a press and of a release. *)
Definition down_count (c : ClickRamp) (button x y event_time : Z) : Z :=
  let elapsed := event_time - ramp_at c in
  let dx := int_abs (int_result (x - ramp_x c)) in
  let dy := int_abs (int_result (y - ramp_y c)) in
  if (protocol_button c =? button) && (elapsed <=? kClickRampWindow) &&
     (dx <=? kClickRampSlopPx) && (dy <=? kClickRampSlopPx) && (0 <? count c)
  then int_result (count c + 1) else 1.
Definition up_count (c : ClickRamp) (button : Z) : Z :=
  if (protocol_button c =? button) && (0 <? count c) then count c else 1.

Definition DispatchMouseButton (r : option (option WebContents)) (data : DictValue) (event_time : Z)
    : M unit :=
  with_host r (λ rwh,
    match FindInt "button" data, FindString "action" data, FindInt "x" data, FindInt "y" data with
    | Some button, Some action, Some x, Some y =>
        let is_down := String.eqb action "down" in
        let is_up := String.eqb action "up" in
        if negb is_down && negb is_up then mret tt
        else
          let blink_button := ProtocolButtonToBlink button in
          let held_bit := ProtocolButtonToBlinkHeldBit button in
          s ← eget;
          let click_count :=
            if is_down then down_count (last_click_ s) button x y event_time
            else up_count (last_click_ s) button in
          (if is_down then
             emod (λ s, s <| last_click_ := mkRamp button x y event_time click_count |>
                          <| held_buttons_blink_ := Z.lor (held_buttons_blink_ s) held_bit |>)
           else
             emod (λ s, s <| held_buttons_blink_ :=
                               Z.land (held_buttons_blink_ s) (Z.lnot held_bit) |>));;
          let widget := ContentToWidget rwh x y in
          s' ← eget;
          emit (ForwardMouseEvent
                  (mkMouse (if is_down then kMouseDown else kMouseUp) widget blink_button
                     click_count (event_modifiers s') event_time));;
          update_pointer widget event_time
    | _, _, _, _ => mret tt
    end).

Definition DispatchMouseWheel (r : option (option WebContents)) (data : DictValue) (event_time : Z)
    : M unit :=
  with_host r (λ rwh,
    match FindInt "dx" data, FindInt "dy" data, FindInt "mode" data,
          FindInt "x" data, FindInt "y" data with
    | Some dx, Some dy, Some mode, Some x, Some y =>
        let delta_mode := FindString "delta_mode" data in
        let widget := ContentToWidget rwh x y in
        let '(gesture, blink_phase, synth_zero_delta, emit_start_delta) :=
          match FindString "phase" data with
          | Some p =>
              if String.eqb p "start" then
                (Some true, kPhaseBegan, true, negb (dx =? 0) || negb (dy =? 0))
              else if String.eqb p "end" then (Some false, kPhaseEnded, true, false)
              else (None, kPhaseChanged, false, false)
          | None => (None, kPhaseChanged, false, false)
          end in
        emod (λ s, match gesture with
                   | Some g => s <| wheel_in_gesture_ := g |> | None => s end);;
        let scale := WheelScalingFor mode delta_mode in
        let full d := fmul (fmul (f d) scale) kProtocolToBlinkSign in
        let scaled d := if synth_zero_delta then f 0 else full d in
        let ticks d scaled_d :=
          if SFeqb scale (f 1) then scaled_d else fmul (f d) kProtocolToBlinkSign in
        s ← eget;
        let event :=
          mkWheel (event_modifiers s) event_time widget (scaled dx) (scaled dy)
            (ticks dx (scaled dx)) (ticks dy (scaled dy)) blink_phase
            (if default false (FindBool "momentum" data) then kPhaseChanged else kPhaseNone) in
        emit (ForwardWheelEvent event);;
        ewhen emit_start_delta
          (emit (ForwardWheelEvent
             (event <| w_phase := kPhaseChanged |> <| delta_x := full dx |> <| delta_y := full dy |>
                    <| wheel_ticks_x := ticks dx (full dx) |>
                    <| wheel_ticks_y := ticks dy (full dy) |>)));;
        update_pointer widget event_time
    | _, _, _, _, _ => mret tt
    end).

Definition OnInputEvent (i : ui_input) : M unit :=
  let data := data (env i) in
  if String.eqb (type (env i)) "mouse_move" then DispatchMouseMove (resolver i) data (now i)
  else if String.eqb (type (env i)) "mouse_button" then DispatchMouseButton (resolver i) data (now i)
  else if String.eqb (type (env i)) "mouse_wheel" then DispatchMouseWheel (resolver i) data (now i)
  else mret tt.
End mouse.

(** ** Properties *)

Section properties.
Context {B : BlinkModifiers} {U : Unspecified}.

Definition host (r : option (option WebContents)) : option RenderWidgetHost :=
  GetActiveWebContents r ≫= contents_host.

(** The press or release an input delivers: a button and a position. *)
Definition edge (i : ui_input) : option (bool * Z * Z * Z) :=
  match host (resolver i) with
  | Some _ =>
      let d := data (env i) in
      if String.eqb (type (env i)) "mouse_button" then
        match FindInt "button" d, FindString "action" d, FindInt "x" d, FindInt "y" d with
        | Some b, Some a, Some x, Some y =>
            if String.eqb a "down" then Some (true, b, x, y)
            else if String.eqb a "up" then Some (false, b, x, y) else None
        | _, _, _, _ => None
        end
      else None
  | None => None
  end.

Definition frontal (s : mouse) : mouse := s <| brought_to_front_ := true |>.

Lemma bring_run wc s :
  exec (EnsureBroughtToFront wc) s = frontal s ∧
  events (EnsureBroughtToFront wc) s = if brought_to_front_ s then [] else bring_to_front wc.
Proof.
  unfold EnsureBroughtToFront, bring_to_front, frontal.
  destruct s as [? ? ? ? br ?]. rewrite exec_get, events_get.
  by destruct br, (contents_view wc).
Qed.

Lemma with_host_exec r k s :
  exec (with_host r k) s = match host r with Some rwh => exec (k rwh) (frontal s) | None => s end.
Proof.
  unfold with_host, host. destruct (GetActiveWebContents r) as [wc|]; [|done]. simpl.
  destruct (contents_host wc) as [rwh|]; [|done].
  rewrite exec_bind. by destruct (bring_run wc s) as [-> _].
Qed.

Lemma with_host_events {A} (sel : call → option A) r k s :
  sel WasShown = None → sel Focus = None →
  omap sel (events (with_host r k) s) =
    match host r with Some rwh => omap sel (events (k rwh) (frontal s)) | None => [] end.
Proof.
  intros H1 H2. unfold with_host, host. destruct (GetActiveWebContents r) as [wc|]; [|done]. simpl.
  destruct (contents_host wc) as [rwh|]; [|done].
  rewrite events_bind, omap_app. destruct (bring_run wc s) as [-> ->].
  unfold bring_to_front. destruct (brought_to_front_ s), (contents_view wc); simpl; by rewrite ?H1, ?H2.
Qed.

(** The mouse and wheel events among the calls. *)
Definition mouse_event (e : call) : option WebMouseEvent :=
  match e with ForwardMouseEvent m => Some m | _ => None end.
Definition wheel_event (e : call) : option WebMouseWheelEvent :=
  match e with ForwardWheelEvent w => Some w | _ => None end.

(** The edge of a button Blink has a bit for. *)
Definition button_edge (i : ui_input) : option (bool * Modifier) :=
  '(dn, b, _, _) ← edge i; m ← button_modifier b; Some (dn, m).

Definition held_after (i : ui_input) (held : Z) : Z := apply_edge held (button_edge i).

Lemma held_after_spec i held :
  held_after i held =
  match edge i with
  | Some (true, b, _, _) => Z.lor held (ProtocolButtonToBlinkHeldBit b)
  | Some (false, b, _, _) => Z.land held (Z.lnot (ProtocolButtonToBlinkHeldBit b))
  | None => held
  end.
Proof.
  unfold held_after, button_edge, ProtocolButtonToBlinkHeldBit.
  destruct (edge i) as [[[[[] b] x] y]|]; simpl; [| |done]; destruct (button_modifier b); simpl;
    rewrite ?Z.lor_0_r, ?Z.land_m1_r; done.
Qed.

(** The edge as the events it is delivered by. *)
Definition edge_event (i : ui_input) (s : mouse) : list WebMouseEvent :=
  match host (resolver i), edge i with
  | Some rwh, Some (dn, b, x, y) =>
      [mkMouse (if dn : bool then kMouseDown else kMouseUp) (ContentToWidget rwh x y)
         (ProtocolButtonToBlink b)
         (if dn then down_count (last_click_ s) b x y (now i) else up_count (last_click_ s) b)
         (wrap32 (Z.lor (held_after i (held_buttons_blink_ s)) (held_modifiers_blink_ s)))
         (now i)]
  | _, _ => []
  end.
Definition ramp_after (i : ui_input) (s : mouse) : ClickRamp :=
  match edge i with
  | Some (true, b, x, y) => mkRamp b x y (now i) (down_count (last_click_ s) b x y (now i))
  | _ => last_click_ s
  end.

(** One step: the state it leaves, and the press or release it forwards. *)
Lemma step_state i s :
  let s' := exec (OnInputEvent i) s in
  held_buttons_blink_ s' = held_after i (held_buttons_blink_ s) ∧
  held_modifiers_blink_ s' = held_modifiers_blink_ s ∧ last_click_ s' = ramp_after i s.
Proof.
  cbv zeta. rewrite held_after_spec. unfold OnInputEvent, ramp_after, edge. generalize (data (env i)). intros d.
  destruct (String.eqb (type (env i)) "mouse_move") eqn:Hm.
  { apply String.eqb_eq in Hm as ->. unfold DispatchMouseMove. rewrite with_host_exec.
    destruct (host (resolver i)); [|done]. simpl. by run_cases. }
  destruct (String.eqb (type (env i)) "mouse_button") eqn:Hb.
  { unfold DispatchMouseButton. rewrite with_host_exec. destruct (host (resolver i)); [|done].
    destruct (FindInt "button" d), (FindString "action" d) as [a|], (FindInt "x" d),
      (FindInt "y" d); try done.
    by destruct (String.eqb a "down"), (String.eqb a "up"). }
  destruct (String.eqb (type (env i)) "mouse_wheel"); [|by destruct (host (resolver i))].
  unfold DispatchMouseWheel. rewrite with_host_exec.
  destruct (host (resolver i)); [|done]. simpl. by run_cases.
Qed.

Definition is_edge_event (e : call) : option WebMouseEvent :=
  match e with
  | ForwardMouseEvent m => match m_type m with kMouseMove => None | _ => Some m end
  | _ => None
  end.

Lemma step_edge i s : omap is_edge_event (events (OnInputEvent i) s) = edge_event i s.
Proof.
  unfold edge_event. rewrite held_after_spec. unfold OnInputEvent, edge. generalize (data (env i)). intros d.
  destruct (String.eqb (type (env i)) "mouse_move") eqn:Hm.
  { apply String.eqb_eq in Hm as ->. unfold DispatchMouseMove. rewrite with_host_events by done.
    destruct (host (resolver i)); [|done]. simpl. by run_cases. }
  destruct (String.eqb (type (env i)) "mouse_button") eqn:Hb.
  { unfold DispatchMouseButton. rewrite with_host_events by done. destruct (host (resolver i)); [|done].
    destruct (FindInt "button" d), (FindString "action" d) as [a|], (FindInt "x" d),
      (FindInt "y" d); try done.
    by destruct (String.eqb a "down"), (String.eqb a "up"). }
  destruct (String.eqb (type (env i)) "mouse_wheel"); [|by destruct (host (resolver i))].
  unfold DispatchMouseWheel. rewrite with_host_events by done.
  destruct (host (resolver i)); [|done]. simpl. by run_cases.
Qed.

(** The modifiers of every mouse and wheel event a step forwards. *)
Definition call_modifiers (e : call) : option Z :=
  match e with
  | ForwardMouseEvent m => Some (m_modifiers m)
  | ForwardWheelEvent w => Some (w_modifiers w)
  | _ => None
  end.

Lemma step_modifiers i s :
  Forall (λ m, m = wrap32 (Z.lor (held_after i (held_buttons_blink_ s)) (held_modifiers_blink_ s)))
    (omap call_modifiers (events (OnInputEvent i) s)).
Proof.
  rewrite held_after_spec. unfold OnInputEvent, edge. generalize (data (env i)). intros d.
  destruct (String.eqb (type (env i)) "mouse_move") eqn:Hm.
  { apply String.eqb_eq in Hm as ->. unfold DispatchMouseMove. rewrite with_host_events by done.
    destruct (host (resolver i)); [|constructor]. simpl. run_cases; by repeat constructor. }
  destruct (String.eqb (type (env i)) "mouse_button") eqn:Hb.
  { unfold DispatchMouseButton. rewrite with_host_events by done.
    destruct (host (resolver i)); [|constructor].
    destruct (FindInt "button" d), (FindString "action" d) as [a|], (FindInt "x" d),
      (FindInt "y" d); try constructor.
    destruct (String.eqb a "down"), (String.eqb a "up"); by repeat constructor. }
  destruct (String.eqb (type (env i)) "mouse_wheel");
    [|destruct (host (resolver i)); constructor].
  unfold DispatchMouseWheel. rewrite with_host_events by done.
  destruct (host (resolver i)); [|constructor]. simpl. run_cases; by repeat constructor.
Qed.

Definition button_modifiers : list Modifier :=
  [kLeftButtonDown; kMiddleButtonDown; kRightButtonDown; kBackButtonDown; kForwardButtonDown].

Lemma button_edge_in i dn m : button_edge i = Some (dn, m) → m ∈ button_modifiers.
Proof.
  unfold button_edge. destruct (edge i) as [[[[dn' b] x] y]|]; [|done]. simpl.
  unfold button_modifier, button_modifiers.
  destruct b as [|p|p]; try done; [|repeat (destruct p as [p|p|]; try done)];
    intros [= _ <-]; set_solver.
Qed.

Lemma held_run ins :
  let s := exec (run OnInputEvent ins) CbInputDispatchMouse in
  held_buttons_blink_ s = fold_left apply_edge (button_edge <$> ins) 0 ∧ held_modifiers_blink_ s = 0.
Proof.
  cbv zeta. induction ins as [|i ins IH] using rev_ind; [done|].
  destruct (run_app OnInputEvent ins [i] CbInputDispatchMouse) as [-> _].
  revert IH. generalize (exec (run OnInputEvent ins) CbInputDispatchMouse). intros s [H1 H2].
  assert (exec (run OnInputEvent [i]) s = exec (OnInputEvent i) s) as ->
    by (unfold exec; by rewrite run_one).
  rewrite fmap_app, fold_left_app, <-H1, <-H2.
  by destruct (step_state i s) as (-> & -> & _).
Qed.

Lemma held_track ins :
  let held := fold_left apply_edge (button_edge <$> ins) 0 in
  0 ≤ held ∧ no_other_bits button_modifiers held ∧
  ∀ m, has m held = last_press m (button_edge <$> ins).
Proof.
  apply edges_track. intros dn m (i & Hi & _)%list_elem_of_fmap. by apply (button_edge_in i dn).
Qed.

(** C22. The held buttons are exact: whatever arrives, in any order, with or without
    a page to receive it, a button's bit is set exactly when the last delivered
    edge of that button was a press, no other bit is ever set, and every mouse
    and wheel event that is forwarded carries exactly the bits of the buttons
    held at that point: no keyboard modifier among them. *)
Theorem held_buttons_exact pre i :
  let s := exec (run OnInputEvent pre) CbInputDispatchMouse in
  (∀ m, has m (held_buttons_blink_ s) = last_press m (button_edge <$> pre)) ∧
  (∀ k, 0 ≤ k → Z.testbit (held_buttons_blink_ s) k = true →
     ∃ m, m ∈ button_modifiers ∧ k = modifier_bit m) ∧
  Forall (λ v, ∀ m, has m v = last_press m (button_edge <$> (pre ++ [i])%list))
    (omap call_modifiers (events (OnInputEvent i) s)).
Proof.
  intros s. destruct (held_run pre) as [Hs H0]. fold s in Hs, H0.
  destruct (held_track pre) as (_ & Hn & Hh), (held_track (pre ++ [i])%list) as (Hp & Hn' & Hh').
  rewrite <-Hs in Hn, Hh. split; [exact Hh|]. split; [exact Hn|].
  pose proof (step_modifiers i s) as Hm. eapply Forall_impl; [|exact Hm]. intros v ->.
  rewrite fmap_app, fold_left_app, <-Hs in Hp, Hn', Hh'. simpl in Hp, Hn', Hh'. unfold held_after.
  rewrite H0, Z.lor_0_r, fmap_app. setoid_rewrite <-Hh'. 
  rewrite wrap32_id; [done|]. pose proof (no_other_bound _ _ Hp Hn'). lia.
Qed.

(** A click: a press and a release of one button that both arrive. *)
Definition is_click (b : Z) (c : ui_input * ui_input) : Prop :=
  (∃ x y, edge c.1 = Some (true, b, x, y)) ∧ (∃ x y, edge c.2 = Some (false, b, x, y)).

(** The press follows the previous one within the window and the slop. *)
Definition chained (d d' : ui_input) : Prop :=
  match edge d, edge d' with
  | Some (_, _, x, y), Some (_, _, x', y') =>
      now d' - now d ≤ kClickRampWindow ∧
      Z.abs (x' - x) ≤ kClickRampSlopPx ∧ Z.abs (y' - y) ≤ kClickRampSlopPx
  | _, _ => False
  end.

(** The counts of the press and the release of [n] successive clicks. *)
Fixpoint ramp_counts (first : Z) (n : nat) : list Z :=
  match n with O => [] | S n' => first :: first :: ramp_counts (first + 1) n' end.

Definition edge_counts (es : list call) : list Z := m_click_count <$> omap is_edge_event es.

Definition down_of (c : ui_input * ui_input) (s : mouse) : Z :=
  match edge c.1 with
  | Some (_, b, x, y) => down_count (last_click_ s) b x y (now c.1)
  | None => 0
  end.

Lemma edge_has_host i e : edge i = Some e → is_Some (host (resolver i)).
Proof. unfold edge. by destruct (host (resolver i)). Qed.

Lemma run_pair i j s :
  exec (run OnInputEvent [i; j]) s = exec (OnInputEvent j) (exec (OnInputEvent i) s) ∧
  events (run OnInputEvent [i; j]) s =
    (events (OnInputEvent i) s ++ events (OnInputEvent j) (exec (OnInputEvent i) s))%list.
Proof.
  unfold exec at 1, events at 1. rewrite run_two.
  split; [apply (exec_bind (OnInputEvent i))|apply (events_bind (OnInputEvent i))].
Qed.

Lemma click_step b c s :
  is_click b c → 0 < down_of c s →
  edge_counts (events (run OnInputEvent [c.1; c.2]) s) = [down_of c s; down_of c s] ∧
  ∃ x y, edge c.1 = Some (true, b, x, y) ∧
    last_click_ (exec (run OnInputEvent [c.1; c.2]) s) = mkRamp b x y (now c.1) (down_of c s).
Proof.
  intros [(x & y & Hd) (x' & y' & Hu)] Hpos. unfold down_of in *. rewrite Hd in Hpos |- *.
  destruct (edge_has_host _ _ Hd) as [rwh1 Hh1], (edge_has_host _ _ Hu) as [rwh2 Hh2].
  destruct (run_pair c.1 c.2 s) as [-> ->].
  destruct (step_state c.1 s) as (_ & _ & Hl). unfold ramp_after in Hl. rewrite Hd in Hl.
  destruct (step_state c.2 (exec (OnInputEvent c.1) s)) as (_ & _ & Hl'). unfold ramp_after in Hl'.
  rewrite Hu, Hl in Hl'.
  unfold edge_counts. rewrite omap_app, !step_edge. unfold edge_event.
  rewrite Hh1, Hh2, Hd, Hu, Hl. simpl. unfold up_count. simpl.
  rewrite Z.eqb_refl. apply Z.ltb_lt in Hpos. rewrite Hpos. simpl. split; [done|].
  by exists x, y.
Qed.

Lemma chained_count x y at_ n b x' y' t :
  t - at_ ≤ kClickRampWindow → Z.abs (x' - x) ≤ kClickRampSlopPx →
  Z.abs (y' - y) ≤ kClickRampSlopPx → 0 < n < 2 ^ 31 - 1 →
  down_count (mkRamp b x y at_ n) b x' y' t = n + 1.
Proof.
  unfold kClickRampSlopPx. intros Ht Hx Hy Hn. unfold down_count, int_abs, kClickRampSlopPx. simpl.
  rewrite !int_result_exact by (rewrite ?int_result_exact; lia).
  rewrite Z.eqb_refl. apply Z.leb_le in Ht, Hx, Hy. rewrite Ht, Hx, Hy.
  by destruct (Z.ltb_spec 0 n); [|lia].
Qed.

(** The click ramp: clicks of one button, each press within half a second and
    five pixels of the previous press, are forwarded with the counts 1, 1, 2,
    2, 3, 3, ... — a release carries the count of its press — when the first
    press does not itself continue an earlier ramp. *)
Theorem click_ramp b clicks s :
  Forall (is_click b) clicks →
  (∀ k c c', clicks !! k = Some c → clicks !! S k = Some c' → chained c.1 c'.1) →
  (∀ c, head clicks = Some c → down_of c s = 1) →
  Z.of_nat (List.length clicks) < 2 ^ 31 - 1 →
  edge_counts (events (run OnInputEvent (List.concat ((λ c, [c.1; c.2]) <$> clicks))) s) =
    ramp_counts 1 (List.length clicks).
Proof.
  intros Hc Hch Hfst Hlen.
  enough (∀ n, 0 < n → n + Z.of_nat (List.length clicks) < 2 ^ 31 →
    (∀ c, head clicks = Some c → down_of c s = n) →
    edge_counts (events (run OnInputEvent (List.concat ((λ c, [c.1; c.2]) <$> clicks))) s) =
      ramp_counts n (List.length clicks)) as H by (apply H; [lia|lia|done]).
  clear Hfst Hlen. revert s. induction Hc as [|c clicks Hc Hcs IH]; intros s n Hn Hlen Hfst; [done|].
  rewrite fmap_cons. cbn [List.concat List.length ramp_counts].
  destruct (run_app OnInputEvent [c.1; c.2]
    (List.concat ((λ c, [c.1; c.2]) <$> clicks)) s) as [_ ->].
  unfold edge_counts. rewrite omap_app, fmap_app.
  specialize (Hfst c eq_refl). destruct (click_step b c s Hc) as [Hev (x & y & Hd & Hl)]; [lia|].
  unfold edge_counts in Hev. rewrite Hev, Hfst. simpl. f_equal. f_equal.
  apply IH; [|lia|simpl in Hlen; lia|].
  { intros k c1 c2 H1 H2. by apply (Hch (S k)). }
  intros c' Hhd. destruct clicks as [|c'' clicks]; [done|]. injection Hhd as ->.
  pose proof (Hch 0%nat c c' eq_refl eq_refl) as Hcc. unfold chained in Hcc. rewrite Hd in Hcc.
  unfold down_of at 1. destruct (edge c'.1) as [[[[e b'] x'] y']|] eqn:He; [|done].
  rewrite Hl, Hfst. destruct Hcc as (H1 & H2 & H3).
  assert (b' = b) as ->.
  { apply Forall_inv in Hcs as [(? & ? & Hd') _]. rewrite He in Hd'. by injection Hd'. }
  apply chained_count; [done..|]. simpl in Hlen. lia.
Qed.

Definition tagged (ph : option string) : Phase :=
  match ph with
  | Some p =>
      if String.eqb p "start" then kPhaseBegan
      else if String.eqb p "end" then kPhaseEnded else kPhaseChanged
  | None => kPhaseChanged
  end.

(** Wheel delivery, on every branch: a [changed] envelope (or one without a
    phase) is one Changed event with the scaled, sign-flipped delta; a [start]
    is a Began event with zero delta, followed, when the envelope has motion,
    by one Changed event that carries it; an [end] is an Ended event and its
    delta is dropped.  In line and page mode the Began and Ended events carry
    the whole envelope's ticks nevertheless, so a start delivers its ticks
    twice. *)
Theorem wheel_delivery i s rwh dx dy mode x y :
  type (env i) = "mouse_wheel" → host (resolver i) = Some rwh →
  FindInt "dx" (data (env i)) = Some dx → FindInt "dy" (data (env i)) = Some dy →
  FindInt "mode" (data (env i)) = Some mode →
  FindInt "x" (data (env i)) = Some x → FindInt "y" (data (env i)) = Some y →
  let scale := WheelScalingFor mode (FindString "delta_mode" (data (env i))) in
  let delta d := fmul (fmul (f d) scale) (f (-1)) in
  let ticks d px := if SFeqb scale (f 1) then px else fmul (f d) (f (-1)) in
  let moved := (kPhaseChanged, (delta dx, delta dy), (ticks dx (delta dx), ticks dy (delta dy))) in
  let still ph := (ph, (f 0, f 0), (ticks dx (f 0), ticks dy (f 0))) in
  (λ w, (w_phase w, (delta_x w, delta_y w), (wheel_ticks_x w, wheel_ticks_y w)))
    <$> omap wheel_event (events (OnInputEvent i) s) =
  match tagged (FindString "phase" (data (env i))) with
  | kPhaseBegan => still kPhaseBegan :: (if negb (dx =? 0) || negb (dy =? 0) then [moved] else [])
  | kPhaseEnded => [still kPhaseEnded]
  | _ => [moved]
  end.
Proof.
  intros Ht Hh H1 H2 H3 H4 H5. cbv zeta. unfold OnInputEvent. rewrite Ht.
  cbn [String.eqb Ascii.eqb Bool.eqb].
  unfold DispatchMouseWheel. rewrite with_host_events, Hh, H1, H2, H3, H4, H5 by done.
  destruct (FindString "phase" (data (env i))) as [ph|]; simpl; [|done].
  destruct (String.eqb ph "start"); [|by destruct (String.eqb ph "end")].
  by destruct (negb (dx =? 0) || negb (dy =? 0)).
Qed.
End properties.

(** ** Witnesses *)

#[local] Existing Instance blink_modifiers.
#[local] Existing Instance Numbers.defaults.

Definition page : WebContents :=
  mkContents (Some (Some (mkRwh 0 (Some (f 1)) 7))) None None.
Definition button_input (t b x y : Z) (action : string) : ui_input :=
  mkUi t (Some (Some page))
    (mkInput 1 "mouse_button" 0 0
       [("action", VString action); ("button", VInt b); ("x", VInt x); ("y", VInt y)]).
Definition double_click : list (ui_input * ui_input) :=
  [(button_input 1000 0 10 10 "down", button_input 2000 0 10 10 "up");
   (button_input 300000 0 12 9 "down", button_input 310000 0 12 9 "up")].

Lemma click_ramp_witness :
  edge_counts (events (run OnInputEvent (List.concat ((λ c, [c.1; c.2]) <$> double_click)))
    CbInputDispatchMouse) = [1; 1; 2; 2].
Proof.
  apply (click_ramp 0 double_click CbInputDispatchMouse).
  - repeat constructor; simpl; eauto.
  - intros [|[|k]] c c'; simpl; try done. intros [= <-] [= <-]. vm_compute. by split_and!.
  - by intros c [= <-].
  - done.
Defined.

Lemma wheel_delivery_witness :
  let i := mkUi 5 (Some (Some page)) (mkInput 1 "mouse_wheel" 0 0
    [("dx", VInt 0); ("dy", VInt 3); ("mode", VInt 1); ("phase", VString "start");
     ("x", VInt 4); ("y", VInt 5)]) in
  (λ w, (w_phase w, delta_y w, wheel_ticks_y w))
    <$> omap wheel_event (events (OnInputEvent i) CbInputDispatchMouse) =
  [(kPhaseBegan, f 0, f (-3)); (kPhaseChanged, f (-48), f (-3))].
Proof.
  intros i. pose proof (wheel_delivery i CbInputDispatchMouse (mkRwh 0 (Some (f 1)) 7) 0 3 1 4 5
    eq_refl eq_refl eq_refl eq_refl eq_refl eq_refl eq_refl) as H.
  apply (f_equal (fmap (λ x : Phase * _ * _, (x.1.1, x.1.2.2, x.2.2)))) in H.
  rewrite <-list_fmap_compose in H. etransitivity; [exact H|]. by vm_compute.
Defined.
