(* ===== verification/InputKeyboard.v ===== *)
(** * Keyboard, clipboard and IME dispatchers
      (capture/build-integration/cb_input_dispatch_keyboard.{h,cc},
       cb_input_dispatch_clipboard.{h,cc}, cb_input_dispatch_ime.{h,cc})

    The keyboard and the clipboard dispatcher share the held modifiers, which
    only the keyboard writes: the state of both is that bit set. *)

From Stdlib Require Import ZArith Lia String Ascii.
From stdpp Require Import base tactics sets list strings numbers.
From S2P Require Import Prelude Values Numbers InputEnvelope InputWidget.
Open Scope string_scope.
Open Scope Z_scope.

(** Code of the base and ui libraries; UTF-16 text is a list of code units. *)
Class InputLib := {
  UTF8ToUTF16 : string → list Z;
  CodeStringToDomCode : string → Z;
  KeyStringToDomKey : string → Z;
  kTextLengthCap : nat;
}.

(** An ASCII character is one code unit, and a key event has room for one. *)
Class InputLibLaws (L : InputLib) := {
  ascii_utf16 c : (N_of_ascii c < 128)%N → UTF8ToUTF16 (String c "") = [Z.of_N (N_of_ascii c)];
  text_cap_pos : (1 ≤ kTextLengthCap)%nat;
}.

(** ** Key tables *)

Definition char_at (n : nat) (s : string) : ascii := default zero (String.get n s).
Definition code_of (c : ascii) : Z := Z.of_N (N_of_ascii c).
Definition has_prefix (p s : string) : bool := String.eqb (str_take (String.length p) s) p.
Definition size_is (n : nat) (s : string) : bool := Nat.eqb (String.length s) n.

Definition named_codes : list (string * Z) :=
  [("Enter", 0x0D); ("Tab", 0x09); ("Backspace", 0x08); ("Space", 0x20); ("Escape", 0x1B);
   ("Delete", 0x2E); ("Insert", 0x2D); ("Home", 0x24); ("End", 0x23); ("PageUp", 0x21);
   ("PageDown", 0x22); ("ArrowLeft", 0x25); ("ArrowUp", 0x26); ("ArrowRight", 0x27);
   ("ArrowDown", 0x28); ("ShiftLeft", 0xA0); ("ShiftRight", 0xA1); ("ControlLeft", 0xA2);
   ("ControlRight", 0xA3); ("AltLeft", 0xA4); ("AltRight", 0xA5); ("MetaLeft", 0x5B);
   ("OSLeft", 0x5B); ("MetaRight", 0x5C); ("OSRight", 0x5C)].

Fixpoint first_of (code : string) (table : list (string * Z)) : option Z :=
  match table with
  | [] => None
  | (name, key) :: table' => if String.eqb code name then Some key else first_of code table'
  end.

Definition MapCodeToScancode (code : string) : option Z :=
  if size_is 4 code && has_prefix "Key" code && in_range "A" "Z" (char_at 3 code) then
    Some (0x41 + (code_of (char_at 3 code) - code_of "A"))
  else if size_is 6 code && has_prefix "Digit" code && in_range "0" "9" (char_at 5 code) then
    Some (0x30 + (code_of (char_at 5 code) - code_of "0"))
  else
    match first_of code named_codes with
    | Some key => Some key
    | None =>
        if size_is 2 code && has_prefix "F" code && in_range "1" "9" (char_at 1 code) then
          Some (0x70 + (code_of (char_at 1 code) - code_of "1"))
        else if size_is 3 code && has_prefix "F1" code && in_range "0" "2" (char_at 2 code) then
          Some (0x79 + (code_of (char_at 2 code) - code_of "0"))
        else None
    end.

Definition SynthesizedTextFor (key : string) : string :=
  if String.eqb key "Enter" then String "013" ""
  else if String.eqb key "Tab" then String "009" ""
  else if String.eqb key "Backspace" then String "008" ""
  else
    match key with
    | "" => ""
    | String c "" => if (0x20 <=? code_of c) && (code_of c <? 0x7F) then key else ""
    | String c _ => if 0x80 <=? code_of c then key else ""
    end.

Definition one_of (s : string) (l : list string) : bool := existsb (String.eqb s) l.

(** The modifier a key is, if any. *)
Definition key_modifier (key code : string) : option Modifier :=
  if String.eqb key "Shift" then Some kShiftKey
  else if String.eqb key "Control" then Some kControlKey
  else if String.eqb key "Alt" then Some kAltKey
  else if one_of key ["Meta"; "OS"; "Super"] then Some kMetaKey
  else if one_of code ["ShiftLeft"; "ShiftRight"] then Some kShiftKey
  else if one_of code ["ControlLeft"; "ControlRight"] then Some kControlKey
  else if one_of code ["AltLeft"; "AltRight"] then Some kAltKey
  else if one_of code ["MetaLeft"; "MetaRight"; "OSLeft"; "OSRight"] then Some kMetaKey
  else None.

Definition kProtoShift : Z := Z.shiftl 1 0.
Definition kProtoCtrl : Z := Z.shiftl 1 1.
Definition kProtoAlt : Z := Z.shiftl 1 2.
Definition kProtoMeta : Z := Z.shiftl 1 3.

Section keyboard.
Context {B : BlinkModifiers} {L : InputLib}.

Definition KeyToBlinkModifier (key code : string) : Z :=
  match key_modifier key code with Some m => flag m | None => 0 end.

Definition ProtocolModsToBlink (mods : Z) : Z :=
  let bit p m out := if Z.land mods p =? 0 then out else Z.lor out (flag m) in
  bit kProtoMeta kMetaKey (bit kProtoAlt kAltKey (bit kProtoCtrl kControlKey
    (bit kProtoShift kShiftKey 0))).

Abbreviation M := (eff Z call).

(** ** The keyboard *)

Definition DispatchKey (r : option (option WebContents)) (data : DictValue) (is_down : bool)
    (event_time : Z) : M unit :=
  match GetActiveWebContents r ≫= contents_host with
  | None => mret tt
  | Some _ =>
      let key_ptr := FindString "key" data in
      let code_ptr := FindString "code" data in
      match key_ptr, code_ptr with
      | None, None => mret tt
      | _, _ =>
          let key := default "" key_ptr in
          let code := default "" code_ptr in
          let mod_bit := KeyToBlinkModifier key code in
          ewhen (negb (mod_bit =? 0))
            (emod (λ held, if is_down then Z.lor held mod_bit else Z.land held (Z.lnot mod_bit)));;
          held ← eget;
          let modifiers_blink :=
            match FindInt "mods" data with
            | Some mods => Z.lor held (ProtocolModsToBlink mods)
            | None => held
            end in
          let scancode := MapCodeToScancode code in
          let dom_code := CodeStringToDomCode code in
          let dom_key := KeyStringToDomKey key in
          match scancode with
          | Some vk =>
              emit (ForwardKeyboardEvent
                (mkKey (if is_down then kRawKeyDown else kKeyUp) (wrap32 modifiers_blink)
                   event_time vk vk dom_code dom_key []))
          | None => mret tt
          end;;
          ewhen is_down
            (let text := SynthesizedTextFor key in
             ewhen (negb (String.eqb text ""))
               (let vk := default 0 scancode in
                emit (ForwardKeyboardEvent
                  (mkKey kChar (wrap32 modifiers_blink) event_time vk vk dom_code dom_key
                     (take kTextLengthCap (UTF8ToUTF16 text))))))
      end
  end.

Definition Keyboard_OnInputEvent (i : ui_input) : M unit :=
  if String.eqb (type (env i)) "key_down" then DispatchKey (resolver i) (data (env i)) true (now i)
  else if String.eqb (type (env i)) "key_up" then DispatchKey (resolver i) (data (env i)) false (now i)
  else mret tt.

(** ** The clipboard: a synthesized Ctrl+C *)

Definition kVkeyC : Z := 0x43.
Definition DispatchCopy (wc : WebContents) (event_time : Z) : M unit :=
  match contents_host wc with
  | None => mret tt
  | Some _ =>
      let modifiers_blink := wrap32 (flag kControlKey) in
      emit (ForwardKeyboardEvent (mkKey kRawKeyDown modifiers_blink event_time kVkeyC kVkeyC 0 0 []));;
      emit (ForwardKeyboardEvent (mkKey kKeyUp modifiers_blink event_time kVkeyC kVkeyC 0 0 []))
  end.

Definition Clipboard_OnInputEvent (i : ui_input) : M unit :=
  if negb (String.eqb (type (env i)) "clipboard_copy_request") then mret tt
  else
    match GetActiveWebContents (resolver i) with
    | None => mret tt
    | Some wc => DispatchCopy wc (now i)
    end.
End keyboard.

(** ** The IME *)

Record CbLastCompositionSnapshot := mkComposition {
  last_committed_text : list Z;
  committed_at : Z;
}.
Record ime := mkIme {
  is_composing_ : bool;
  last_composition_ : CbLastCompositionSnapshot;
}.
#[export] Instance eta_ime : Eta ime := λ s, mkIme (is_composing_ s) (last_composition_ s).
Definition CbInputDispatchIme : ime := mkIme false (mkComposition [] 0).

Definition BuildDefaultCompositionSpans (text_length_utf16 : nat) : list ImeTextSpan :=
  if Nat.eqb text_length_utf16 0 then [] else [mkSpan 0 (Z.of_nat text_length_utf16)].

Definition ClampInt (value lo hi : Z) : Z := Z.max lo (Z.min hi value).

(** The host of the focused frame, or of the main frame. *)
Definition ResolveFocusedRenderWidgetHost (r : option (option WebContents)) : option RenderWidgetHost :=
  wc ← GetActiveWebContents r;
  rfh ← (match focused_frame wc with Some f => Some f | None => primary_frame wc end);
  rwhv ← rfh;
  rwhv.

Section ime.
Context {L : InputLib}.
Abbreviation M := (eff ime call).

Definition ReadDataAsU16 (d : DictValue) : list Z :=
  match FindString "data" d with
  | Some s => if String.eqb s "" then [] else UTF8ToUTF16 s
  | None => []
  end.

(** The selection a composition carries. *)
Definition composition_selection (d : DictValue) (len_u16 : nat) : Z * Z :=
  let hi := wrap32 (Z.of_nat len_u16) in
  let '(selection_start, selection_end) :=
    match FindInt "selection_start" d with
    | Some sel => (ClampInt sel 0 hi, ClampInt sel 0 hi)
    | None => (hi, hi)
    end in
  match FindInt "selection_end" d with
  | Some sel => (selection_start, ClampInt sel 0 hi)
  | None => (selection_start, selection_end)
  end.

(** [DispatchCompositionStart] and [DispatchCompositionUpdate] have one body. *)
Definition DispatchCompositionStart (r : option (option WebContents)) (d : DictValue) : M unit :=
  match ResolveFocusedRenderWidgetHost r with
  | None => mret tt
  | Some _ =>
      let text := ReadDataAsU16 d in
      let len_u16 := List.length text in
      let '(selection_start, selection_end) := composition_selection d len_u16 in
      emit (ImeSetComposition text (BuildDefaultCompositionSpans len_u16)
              selection_start selection_end);;
      emod (λ s, s <| is_composing_ := true |>)
  end.
Definition DispatchCompositionUpdate := DispatchCompositionStart.

Definition DispatchCompositionEnd (r : option (option WebContents)) (d : DictValue) (event_time : Z)
    : M unit :=
  match ResolveFocusedRenderWidgetHost r with
  | None => emod (λ s, s <| is_composing_ := false |>)
  | Some _ =>
      let text := ReadDataAsU16 d in
      emit (ImeCommitText text (BuildDefaultCompositionSpans (List.length text)) 0);;
      emod (λ s, s <| is_composing_ := false |>
                   <| last_composition_ := mkComposition text event_time |>)
  end.

Definition DispatchCompositionCancel (r : option (option WebContents)) : M unit :=
  match ResolveFocusedRenderWidgetHost r with
  | None => emod (λ s, s <| is_composing_ := false |>)
  | Some _ =>
      emit ImeCancelComposition;;
      emod (λ s, s <| is_composing_ := false |>)
  end.

Definition Ime_OnInputEvent (i : ui_input) : M unit :=
  let t := type (env i) in
  if String.eqb t "composition_start" then DispatchCompositionStart (resolver i) (data (env i))
  else if String.eqb t "composition_update" then DispatchCompositionUpdate (resolver i) (data (env i))
  else if String.eqb t "composition_end" then DispatchCompositionEnd (resolver i) (data (env i)) (now i)
  else if String.eqb t "composition_cancel" then DispatchCompositionCancel (resolver i)
  else mret tt.
End ime.

(** ** Properties of the key tables *)

Definition digits_of (p : string) (cs : string) : list string :=
  (λ c, p ++ String c "")%string <$> list_ascii_of_string cs.
Definition all_codes : list string :=
  (digits_of "Key" "ABCDEFGHIJKLMNOPQRSTUVWXYZ" ++ digits_of "Digit" "0123456789" ++
   named_codes.*1 ++ digits_of "F" "123456789" ++ digits_of "F1" "012")%list.

Lemma has_prefix_split p s :
  has_prefix p s = true → ∃ s', s = (p ++ s')%string.
Proof.
  unfold has_prefix. intros H%String.eqb_eq. exists (str_drop (String.length p) s).
  revert s H. induction p as [|c p IH]; intros s H; [done|].
  destruct s as [|c' s]; [done|]. injection H as -> H. rewrite str_app_cons. f_equal. by apply IH.
Qed.

Lemma in_range_list lo hi cs :
  forallb (λ n, implb (in_range lo hi (ascii_of_nat n))
    (bool_decide (ascii_of_nat n ∈ list_ascii_of_string cs))) (List.seq 0 256) = true →
  ∀ c, in_range lo hi c = true → c ∈ list_ascii_of_string cs.
Proof.
  rewrite forallb_forall. intros H c Hc.
  assert (In (nat_of_ascii c) (List.seq 0 256)) as Hin
    by (apply in_seq; pose proof (nat_ascii_bounded c); lia).
  apply H in Hin. rewrite ascii_nat_embedding, Hc in Hin. by apply (bool_decide_eq_true_1 _).
Qed.

(** A code of the shape "prefix and one character of a range" is listed. *)
Lemma ranged_code p n lo hi cs code :
  n = String.length p →
  forallb (λ n, implb (in_range lo hi (ascii_of_nat n))
    (bool_decide (ascii_of_nat n ∈ list_ascii_of_string cs))) (List.seq 0 256) = true →
  size_is (S n) code && has_prefix p code && in_range lo hi (char_at n code) = true →
  code ∈ digits_of p cs.
Proof.
  intros -> Hcs [[Hs (s' & ->)%has_prefix_split]%andb_true_iff Hr]%andb_true_iff.
  apply Nat.eqb_eq in Hs. rewrite str_length_app in Hs.
  destruct s' as [|c [|]]; simpl in Hs; try lia.
  assert (char_at (String.length p) (p ++ String c "") = c) as Hc.
  { clear. unfold char_at. induction p as [|a p IH]; [done|]. by rewrite str_app_cons. }
  rewrite Hc in Hr. apply list_elem_of_fmap. exists c. split; [done|].
  by apply (in_range_list lo hi).
Qed.

Lemma first_of_in code table v : first_of code table = Some v → code ∈ table.*1.
Proof.
  induction table as [|[name key] table IH]; simpl; [done|].
  destruct (String.eqb_spec code name) as [->|]; [intros; left|intros; right; auto].
Qed.

Lemma mapped_codes_listed code v : MapCodeToScancode code = Some v → code ∈ all_codes.
Proof.
  unfold MapCodeToScancode, all_codes. rewrite !elem_of_app.
  destruct (size_is 4 code && _ && _) eqn:H1.
  { intros _. left. by apply (ranged_code "Key" 3 "A" "Z"). }
  destruct (size_is 6 code && _ && _) eqn:H2.
  { intros _. right. left. by apply (ranged_code "Digit" 5 "0" "9"). }
  destruct (first_of code named_codes) eqn:H3.
  { intros _. do 2 right. left. by apply first_of_in in H3. }
  destruct (size_is 2 code && _ && _) eqn:H4.
  { intros _. do 3 right. left. by apply (ranged_code "F" 1 "1" "9"). }
  destruct (size_is 3 code && _ && _) eqn:H5; [|done].
  intros _. do 4 right. by apply (ranged_code "F1" 2 "0" "2").
Qed.

Definition same_key (c c' : string) : bool :=
  String.eqb c c' ||
  existsb (λ p : string * string, (String.eqb c p.1 && String.eqb c' p.2) || (String.eqb c p.2 && String.eqb c' p.1))
    [("MetaLeft", "OSLeft"); ("MetaRight", "OSRight")].

(** No two keys share a virtual key: two codes are mapped to the same virtual
    key only when they are the same code or the two names of one Meta key, and
    every mapped virtual key fits a byte, from 8 to 165. *)
Theorem scancode_injective c c' v :
  MapCodeToScancode c = Some v → MapCodeToScancode c' = Some v →
  same_key c c' = true ∧ 0x08 ≤ v ≤ 0xA5.
Proof.
  assert (forallb (λ c, match MapCodeToScancode c with
    | Some v => (0x08 <=? v) && (v <=? 0xA5) &&
        forallb (λ c', implb (bool_decide (MapCodeToScancode c' = Some v)) (same_key c c')) all_codes
    | None => false end) all_codes = true) as Hall by (by vm_compute).
  rewrite forallb_forall in Hall. intros H H'.
  apply mapped_codes_listed in H as Hin. apply mapped_codes_listed in H' as Hin'.
  apply list_elem_of_In in Hin, Hin'. specialize (Hall c Hin). rewrite H in Hall.
  apply andb_true_iff in Hall as [[H1%Z.leb_le H2%Z.leb_le]%andb_true_iff Hall].
  rewrite forallb_forall in Hall. specialize (Hall c' Hin').
  rewrite bool_decide_eq_true_2 in Hall by done. by split.
Qed.

Lemma scancode_injective_witness :
  MapCodeToScancode "OSLeft" = Some 0x5B ∧ same_key "OSLeft" "MetaLeft" = true ∧ 0x08 ≤ 0x5B ≤ 0xA5.
Proof. split; [done|]. by apply (scancode_injective "OSLeft" "MetaLeft" 0x5B). Defined.

(** ** Properties of the dispatchers *)

#[local] Arguments MapCodeToScancode : simpl never.
#[local] Arguments SynthesizedTextFor : simpl never.
#[local] Arguments key_modifier : simpl never.
#[local] Arguments Z.testbit : simpl never.

Section properties.
Context {B : BlinkModifiers} {L : InputLib}.

Definition key_modifiers : list Modifier := [kShiftKey; kControlKey; kAltKey; kMetaKey].

(** The press or release of a key an input delivers to a page. *)
Definition key_edge (i : ui_input) : option (bool * string * string) :=
  match GetActiveWebContents (resolver i) ≫= contents_host with
  | None => None
  | Some _ =>
      let is_down := String.eqb (type (env i)) "key_down" in
      if is_down || String.eqb (type (env i)) "key_up" then
        match FindString "key" (data (env i)), FindString "code" (data (env i)) with
        | None, None => None
        | k, c => Some (is_down, default "" k, default "" c)
        end
      else None
  end.

Definition modifier_edge (i : ui_input) : option (bool * Modifier) :=
  '(dn, k, c) ← key_edge i; m ← key_modifier k c; Some (dn, m).
Definition envelope_mods (i : ui_input) : Z :=
  match FindInt "mods" (data (env i)) with Some mods => ProtocolModsToBlink mods | None => 0 end.

(** The key events of one input, from its edge and the modifiers held after it. *)
Definition key_calls (i : ui_input) (held : Z) : list call :=
  match key_edge i with
  | None => []
  | Some (dn, k, c) =>
      let ev ty vk text :=
        ForwardKeyboardEvent (mkKey ty (wrap32 (Z.lor held (envelope_mods i))) (now i) vk vk
          (CodeStringToDomCode c) (KeyStringToDomKey k) text) in
      (match MapCodeToScancode c with
       | Some vk => [ev (if dn : bool then kRawKeyDown else kKeyUp) vk []]
       | None => []
       end) ++
      (if dn && negb (String.eqb (SynthesizedTextFor k) "") then
         [ev kChar (default 0 (MapCodeToScancode c))
            (take kTextLengthCap (UTF8ToUTF16 (SynthesizedTextFor k)))]
       else [])
  end.

Lemma key_bit_nonzero m : (flag m =? 0) = false.
Proof.
  apply Z.eqb_neq. pose proof (modifier_bit_range m). unfold flag.
  rewrite Z.shiftl_1_l. lia.
Qed.

Lemma DispatchKey_run (r : option (option WebContents)) d dn t held :
  let i := mkUi t r (mkInput 1 (if dn : bool then "key_down" else "key_up") 0 0 d) in
  let held' := apply_edge held (modifier_edge i) in
  DispatchKey r d dn t held = (tt, held', key_calls i held').
Proof.
  cbv zeta. unfold DispatchKey, key_calls, envelope_mods, modifier_edge, key_edge. cbn [resolver env type data now].
  destruct (GetActiveWebContents r ≫= contents_host); [|done].
  assert (((if dn then "key_down" else "key_up") =? "key_down")%string = dn) as -> by (by destruct dn).
  assert ((dn || ((if dn then "key_down" else "key_up") =? "key_up")%string)%bool = true) as ->
    by (by destruct dn).
  destruct (FindString "key" d) as [k|], (FindString "code" d) as [c|]; try done; simpl;
    unfold KeyToBlinkModifier;
    (match goal with |- context [key_modifier ?a ?b] => destruct (key_modifier a b) end);
    rewrite ?key_bit_nonzero; run_cases; by rewrite ?Z.lor_0_r.
Qed.

Lemma Keyboard_run i held :
  let held' := apply_edge held (modifier_edge i) in
  Keyboard_OnInputEvent i held = (tt, held', key_calls i held').
Proof.
  cbv zeta. unfold Keyboard_OnInputEvent.
  destruct (String.eqb_spec (type (env i)) "key_down") as [Ht|Hd].
  - rewrite DispatchKey_run. unfold key_calls, modifier_edge, key_edge, envelope_mods. simpl. by rewrite Ht.
  - destruct (String.eqb_spec (type (env i)) "key_up") as [Ht|Hu].
    + rewrite DispatchKey_run. unfold key_calls, modifier_edge, key_edge, envelope_mods. simpl. by rewrite Ht.
    + unfold key_calls, modifier_edge, key_edge. apply String.eqb_neq in Hd, Hu. rewrite Hd, Hu.
      by destruct (GetActiveWebContents (resolver i) ≫= contents_host).
Qed.

Lemma Keyboard_run_list ins held :
  exec (run Keyboard_OnInputEvent ins) held = fold_left apply_edge (modifier_edge <$> ins) held.
Proof.
  revert held. unfold run. induction ins as [|i ins IH]; intros held; [done|].
  rewrite !fmap_cons. cbn [eseq fold_left]. rewrite exec_bind. unfold exec at 2.
  rewrite Keyboard_run. apply IH.
Qed.

Definition key_event (e : call) : option NativeWebKeyboardEvent :=
  match e with ForwardKeyboardEvent k => Some k | _ => None end.

Lemma modifier_edge_in i dn m : modifier_edge i = Some (dn, m) → m ∈ key_modifiers.
Proof.
  unfold modifier_edge. destruct (key_edge i) as [[[dn' k] c]|]; [|done]. simpl.
  unfold key_modifier, key_modifiers.
  repeat (match goal with |- context [if ?b then _ else _] => destruct b end; 
    [by intros [= _ <-]; set_solver|]); done.
Qed.

(** The envelope's own modifiers: bits 0 to 3 of [mods]. *)
Definition proto_bit (m : Modifier) : option Z :=
  match m with
  | kShiftKey => Some 0 | kControlKey => Some 1 | kAltKey => Some 2 | kMetaKey => Some 3
  | _ => None
  end.
Definition envelope_has (m : Modifier) (i : ui_input) : bool :=
  match FindInt "mods" (data (env i)), proto_bit m with
  | Some mods, Some k => Z.testbit mods k
  | _, _ => false
  end.

Definition proto_edge (mods : Z) (m : Modifier) : option (bool * Modifier) :=
  match proto_bit m with
  | Some k => if Z.testbit mods k then Some (true, m) else None
  | None => None
  end.

Lemma land_bit a k : 0 ≤ k → (Z.land a (Z.shiftl 1 k) =? 0) = negb (Z.testbit a k).
Proof.
  intros Hk. rewrite Z.shiftl_1_l. destruct (Z.testbit a k) eqn:Hb.
  - apply Z.eqb_neq. intros H0. assert (Z.testbit (Z.land a (2 ^ k)) k = false) as H
      by (by rewrite H0, Z.bits_0).
    by rewrite Z.land_spec, Hb, Z.pow2_bits_true in H.
  - apply Z.eqb_eq, Z.bits_inj'. intros i Hi. rewrite Z.land_spec, Z.bits_0.
    rewrite Z.pow2_bits_eqb by done. destruct (Z.eqb_spec k i) as [<-|]; [by rewrite Hb|apply andb_false_r].
Qed.

Lemma ProtocolModsToBlink_edges mods :
  ProtocolModsToBlink mods = fold_left apply_edge (proto_edge mods <$> key_modifiers) 0.
Proof.
  unfold ProtocolModsToBlink, kProtoShift, kProtoCtrl, kProtoAlt, kProtoMeta.
  rewrite !land_bit by done. unfold key_modifiers, proto_edge. simpl fmap.
  destruct (Z.testbit mods 0), (Z.testbit mods 1), (Z.testbit mods 2), (Z.testbit mods 3); reflexivity.
Qed.

Lemma envelope_mods_track i :
  0 ≤ envelope_mods i ∧ no_other_bits key_modifiers (envelope_mods i) ∧
  ∀ m, has m (envelope_mods i) = envelope_has m i.
Proof.
  unfold envelope_mods, envelope_has. destruct (FindInt "mods" (data (env i))) as [mods|].
  - rewrite ProtocolModsToBlink_edges.
    destruct (edges_track key_modifiers (proto_edge mods <$> key_modifiers)) as (H0 & Hn & Hh).
    { intros dn m (m' & He & Hm)%list_elem_of_fmap. unfold proto_edge in He.
      destruct (proto_bit m'); [|done]. destruct (Z.testbit mods z); [|done]. by injection He as -> <-. }
    split; [done|]. split; [done|]. intros m. rewrite Hh. unfold last_press, key_modifiers, proto_edge.
    cbn [fmap list_fmap proto_bit].
    destruct (Z.testbit mods 0) eqn:H1, (Z.testbit mods 1) eqn:H2, (Z.testbit mods 2) eqn:H3,
      (Z.testbit mods 3) eqn:H4, m; cbn [proto_bit]; rewrite ?H1, ?H2, ?H3, ?H4; reflexivity.
  - split; [done|]. split; [intros k _; by rewrite Z.bits_0|]. intros m. apply has_0.
Qed.

(** The held modifiers are exact with respect to what is delivered: after any
    sequence of inputs a modifier is held exactly when the last press or
    release of one of its keys that reached a page was a press (the two Shift
    keys, say, share one bit), and the events of the next input carry exactly
    those modifiers and the ones its own envelope names. *)
Theorem held_modifiers_exact pre i :
  let held := exec (run Keyboard_OnInputEvent pre) 0 in
  (∀ m, has m held = last_press m (modifier_edge <$> pre)) ∧ no_other_bits key_modifiers held ∧
  Forall (λ k, ∀ m, has m (k_modifiers k) =
      last_press m (modifier_edge <$> (pre ++ [i])%list) || envelope_has m i)
    (omap key_event (events (Keyboard_OnInputEvent i) held)).
Proof.
  cbv zeta. rewrite Keyboard_run_list.
  assert (∀ ins, let held := fold_left apply_edge (modifier_edge <$> ins) 0 in
    0 ≤ held ∧ no_other_bits key_modifiers held ∧
    ∀ m, has m held = last_press m (modifier_edge <$> ins)) as Htrack.
  { intros ins. apply edges_track. intros dn m (j & Hj & _)%list_elem_of_fmap.
    by apply (modifier_edge_in j dn). }
  destruct (Htrack pre) as (_ & Hn & Hh). split; [exact Hh|]. split; [exact Hn|].
  destruct (Htrack (pre ++ [i])%list) as (H0' & Hn' & Hh').
  destruct (envelope_mods_track i) as (He0 & Hen & Heh).
  rewrite fmap_app, fold_left_app in H0', Hn', Hh'. simpl in H0', Hn', Hh'.
  unfold events. rewrite Keyboard_run. rewrite fmap_app.
  set (held' := apply_edge _ _) in *. clearbody held'.
  assert (∀ m, has m (wrap32 (Z.lor held' (envelope_mods i))) =
    last_press m ((modifier_edge <$> pre) ++ (modifier_edge <$> [i]))%list || envelope_has m i) as Hv.
  { intros m. rewrite wrap32_id; [by rewrite has_lor, Hh', Heh|].
    assert (0 ≤ Z.lor held' (envelope_mods i)) as Hp by (by apply Z.lor_nonneg).
    enough (no_other_bits key_modifiers (Z.lor held' (envelope_mods i))) as Hb
      by (pose proof (no_other_bound _ _ Hp Hb); lia).
    intros k Hk. rewrite Z.lor_spec. intros [?|?]%orb_true_iff; eauto. }
  unfold key_calls. destruct (key_edge i) as [[[dn k] c]|]; [|constructor].
  destruct (MapCodeToScancode c), dn; simpl;
    try (destruct (String.eqb (SynthesizedTextFor k) ""); simpl); repeat constructor; exact Hv.
Qed.
End properties.

Section typing.
Context {B : BlinkModifiers} {L : InputLib} {LL : InputLibLaws L}.

Definition char_text (e : call) : option (list Z) :=
  match e with
  | ForwardKeyboardEvent k => match k_type k with kChar => Some (k_text k) | _ => None end
  | _ => None
  end.

(** What one input types. *)
Lemma typed_by i held :
  omap char_text (events (Keyboard_OnInputEvent i) held) =
  match key_edge i with
  | Some (true, k, _) =>
      if String.eqb (SynthesizedTextFor k) "" then []
      else [take kTextLengthCap (UTF8ToUTF16 (SynthesizedTextFor k))]
  | _ => []
  end.
Proof.
  unfold events. rewrite Keyboard_run. unfold key_calls.
  destruct (key_edge i) as [[[dn k] c]|]; [|done].
  destruct (MapCodeToScancode c), dn; simpl; try done;
    by destruct (String.eqb (SynthesizedTextFor k) "").
Qed.

Definition printable (c : ascii) : Prop := 0x20 ≤ code_of c < 0x7F.

(** A press and a release of the key that types [c], both delivered. *)
Definition strikes (c : ascii) (p : ui_input * ui_input) : Prop :=
  (∃ code, key_edge p.1 = Some (true, String c "", code)) ∧
  (∃ k code, key_edge p.2 = Some (false, k, code)).

Lemma text_of_printable c : printable c → SynthesizedTextFor (String c "") = String c "".
Proof.
  intros [H1 H2]. unfold SynthesizedTextFor.
  assert (∀ a b s, String.eqb (String c "") (String a (String b s)) = false) as Hne
    by (intros; apply String.eqb_neq; congruence).
  rewrite !Hne. by destruct (Z.leb_spec 0x20 (code_of c)), (Z.ltb_spec (code_of c) 0x7F); try lia.
Qed.

(** C23. Typing is faithful: striking the keys of a printable text one after the
    other, whatever codes and modifiers come with them, makes the page receive
    that text and nothing else, each character once. *)
Theorem typing_roundtrip text strokes held :
  Forall printable (list_ascii_of_string text) →
  Forall2 strikes (list_ascii_of_string text) strokes →
  List.concat (omap char_text
    (events (run Keyboard_OnInputEvent (List.concat ((λ p, [p.1; p.2]) <$> strokes))) held)) =
  code_of <$> list_ascii_of_string text.
Proof.
  generalize (list_ascii_of_string text). clear text. intros cs Hp Hs. revert held Hp.
  induction Hs as [|c p cs strokes [(code & Hd) (k & code' & Hu)] _ IH]; intros held Hp; [done|].
  apply Forall_cons_1 in Hp as [Hc Hp]. rewrite fmap_cons. cbn [List.concat].
  destruct (run_app Keyboard_OnInputEvent [p.1; p.2]
    (List.concat ((λ p, [p.1; p.2]) <$> strokes)) held) as [_ ->].
  rewrite omap_app, concat_app, IH by done.
  unfold events at 1. rewrite run_two.
  rewrite (events_bind (Keyboard_OnInputEvent p.1) (λ _, Keyboard_OnInputEvent p.2) held
    : ((Keyboard_OnInputEvent p.1;; Keyboard_OnInputEvent p.2) held).2 = _).
  rewrite omap_app, !typed_by, Hd, Hu, app_nil_r.
  rewrite text_of_printable by done. unfold printable in Hc. simpl.
  rewrite ascii_utf16 by (unfold code_of in *; lia).
  pose proof text_cap_pos. destruct kTextLengthCap; [lia|]. simpl. by rewrite take_nil.
Qed.

Definition ime_call_ok (committed : list Z) (e : call) : Prop :=
  match e with
  | ImeSetComposition text spans a b =>
      (Z.of_nat (List.length text) < 2 ^ 31 →
         0 ≤ a ≤ Z.of_nat (List.length text) ∧ 0 ≤ b ≤ Z.of_nat (List.length text)) ∧
      spans = (if Nat.eqb (List.length text) 0 then [] else [mkSpan 0 (Z.of_nat (List.length text))])
  | ImeCommitText text _ pos => text = committed ∧ pos = 0
  | ImeCancelComposition => True
  | _ => False
  end.

Lemma selection_in_text d len :
  Z.of_nat len < 2 ^ 31 →
  let '(a, b) := composition_selection d len in 0 ≤ a ≤ Z.of_nat len ∧ 0 ≤ b ≤ Z.of_nat len.
Proof.
  intros Hl. unfold composition_selection, ClampInt. rewrite wrap32_id by lia.
  destruct (FindInt "selection_start" d), (FindInt "selection_end" d); lia.
Qed.

Lemma composition_ok committed r d s :
  Forall (ime_call_ok committed) (events (DispatchCompositionStart r d) s) ∧
  is_composing_ (exec (DispatchCompositionStart r d) s) =
    match ResolveFocusedRenderWidgetHost r with Some _ => true | None => is_composing_ s end.
Proof.
  unfold DispatchCompositionStart. destruct (ResolveFocusedRenderWidgetHost r); [|by repeat constructor].
  pose proof (selection_in_text d (List.length (ReadDataAsU16 d))) as Hsel.
  destruct (composition_selection d _) as [a b]. simpl. by repeat constructor; try apply Hsel.
Qed.

(** IME calls are well formed: every composition a frame sets has its text,
    no underline when it is empty and one underline over all of it otherwise,
    both ends of its selection within the text (the start may lie behind the
    end), and a commit records the text it commits; [is_composing] is set by exactly the delivered starts and
    updates, and cleared by ends and cancels even when they reach no page. *)
Theorem ime_well_formed i s :
  Forall (ime_call_ok (last_committed_text (last_composition_ (exec (Ime_OnInputEvent i) s)))) (events (Ime_OnInputEvent i) s) ∧
  is_composing_ (exec (Ime_OnInputEvent i) s) =
    if one_of (type (env i)) ["composition_end"; "composition_cancel"] then false
    else if one_of (type (env i)) ["composition_start"; "composition_update"]
    then match ResolveFocusedRenderWidgetHost (resolver i) with
         | Some _ => true | None => is_composing_ s end
    else is_composing_ s.
Proof.
  unfold Ime_OnInputEvent, one_of. cbn [existsb].
  destruct (String.eqb (type (env i)) "composition_start") eqn:H1.
  { apply String.eqb_eq in H1 as ->. apply composition_ok. }
  destruct (String.eqb (type (env i)) "composition_update") eqn:H2.
  { apply String.eqb_eq in H2 as ->. apply composition_ok. }
  destruct (String.eqb (type (env i)) "composition_end") eqn:H3.
  { unfold DispatchCompositionEnd. destruct (ResolveFocusedRenderWidgetHost _);
      simpl; by repeat constructor. }
  destruct (String.eqb (type (env i)) "composition_cancel") eqn:H4; [|by repeat constructor].
  unfold DispatchCompositionCancel. destruct (ResolveFocusedRenderWidgetHost _);
    simpl; by repeat constructor.
Qed.
End typing.

(** ** Witness *)

Definition ascii_lib : InputLib := {|
  UTF8ToUTF16 s := (λ c, Z.of_N (N_of_ascii c)) <$> list_ascii_of_string s;
  CodeStringToDomCode _ := 0;
  KeyStringToDomKey _ := 0;
  kTextLengthCap := 4;
|}.
#[local] Existing Instance blink_modifiers.
#[local] Existing Instance ascii_lib.
#[local] Instance ascii_laws : InputLibLaws ascii_lib.
Proof. split; [done|simpl; lia]. Defined.

Definition page : WebContents :=
  mkContents (Some (Some (mkRwh 0 None 7))) None None.
Definition key_input (ty key code : string) : ui_input :=
  mkUi 0 (Some (Some page)) (mkInput 1 ty 0 0 [("code", VString code); ("key", VString key)]).
Definition stroke (key code : string) : ui_input * ui_input :=
  (key_input "key_down" key code, key_input "key_up" key code).

Lemma typing_roundtrip_witness :
  List.concat (omap char_text (events (run Keyboard_OnInputEvent
    (List.concat ((λ p, [p.1; p.2]) <$> [stroke "H" "KeyH"; stroke "i" ""]))) 0)) = [72; 105].
Proof.
  apply (typing_roundtrip "Hi" [stroke "H" "KeyH"; stroke "i" ""] 0).
  - repeat constructor; by vm_compute.
  - repeat constructor; simpl; eauto.
Defined.
