(* ===== verification/InputTouch.v ===== *)
(** * The touch dispatcher (capture/build-integration/cb_input_dispatch_touch.{h,cc})

    The active points are an [std::unordered_map<int, CbActiveTouchPoint>]; its
    iteration order, which the code inherits, is the parameter [order]. *)

From Stdlib Require Import ZArith Lia String SpecFloat.
From stdpp Require Import base tactics sets list strings numbers gmap.
From S2P Require Import Prelude Values Numbers InputEnvelope InputWidget.
Open Scope string_scope.
Open Scope Z_scope.

(** ** Data *)

Definition kBlinkTouchPointsCap : nat := 16.

Record CbActiveTouchPoint := mkActive {
  identifier : Z;
  x : Z;
  y : Z;
  radius_x : Z;
  radius_y : Z;
  force : spec_float;
  twist : Z;
  last_event_time : Z;
}.

Record touch := mkTouchState {
  active_points_ : gmap Z CbActiveTouchPoint;
  brought_to_front_ : bool;
  last_assembled_event_ : option WebTouchEvent;
}.
#[export] Instance eta_touch : Eta touch := λ s,
  mkTouchState (active_points_ s) (brought_to_front_ s) (last_assembled_event_ s).
Definition CbInputDispatchTouch : touch := mkTouchState ∅ false None.

Definition RadiusOrDefault (raw : Z) : Z := if 0 <? raw then raw else 1.
Definition FindIntOr (d : DictValue) (k : string) (fallback : Z) : Z := default fallback (FindInt k d).

Definition FindDoubleOr (d : DictValue) (k : string) (fallback : spec_float) : spec_float :=
  default fallback (FindDouble k d).

Definition ParseTouchPointData (d : DictValue) (event_time : Z) : option CbActiveTouchPoint :=
  match FindInt "identifier" d, FindInt "x" d, FindInt "y" d with
  | Some id, Some px, Some py =>
      Some (mkActive id px py (RadiusOrDefault (FindIntOr d "radius_x" 1))
              (RadiusOrDefault (FindIntOr d "radius_y" 1))
              (float_of_double (FindDoubleOr d "force" (S754_zero false)))
              (FindIntOr d "twist" 0) event_time)
  | _, _, _ => None
  end.
Definition ParseTouchEndIdentifier (d : DictValue) : option Z := FindInt "identifier" d.

(** Unlike the mouse's, this conversion lets a NaN scale through. *)
Definition Touch_ContentToWidget (rwh : RenderWidgetHost) (px py : Z) : spec_float * spec_float :=
  let dsf := match view_dsf rwh with
             | Some d => if SFleb d float_zero then float_one else d
             | None => float_one
             end in
  (fdiv (float_of_Z px) dsf, fdiv (float_of_Z py) dsf).

Definition FillWebTouchPoint (src : CbActiveTouchPoint) (widget_pos : spec_float * spec_float)
    (state : PointState) : WebTouchPoint :=
  mkPoint (identifier src) state widget_pos (float_of_Z (radius_x src), float_of_Z (radius_y src))
    (float_of_Z (twist src)) (force src).

Section touch.
(** The order in which the hash map is walked. *)
Variable order : gmap Z CbActiveTouchPoint → list (Z * CbActiveTouchPoint).

Abbreviation M := (eff touch call).

Definition EnsureBroughtToFront (wc : WebContents) : M unit :=
  s ← eget;
  if brought_to_front_ s then mret tt
  else
    eseq (emit <$> bring_to_front wc);;
    emod (λ s, s <| brought_to_front_ := true |>).

Definition AssembleTouchEvent (ty : TouchType) (changed_identifier : Z) (changed_state : PointState)
    (released_point : option CbActiveTouchPoint) (event_time : Z) (rwh : RenderWidgetHost)
    : M (option WebTouchEvent) :=
  s ← eget;
  let points := active_points_ s in
  let total := (size points + match released_point with Some _ => 1 | None => 0 end)%nat in
  if (kBlinkTouchPointsCap <? total)%nat then mret None
  else
    let fill '(id, p) :=
      FillWebTouchPoint p (Touch_ContentToWidget rwh (x p) (y p))
        (if id =? changed_identifier then changed_state else kStateStationary) in
    let filled := fill <$> take kBlinkTouchPointsCap (order points) in
    let released :=
      match released_point with
      | Some p =>
          if (List.length filled <? kBlinkTouchPointsCap)%nat
          then [FillWebTouchPoint p (Touch_ContentToWidget rwh (x p) (y p)) changed_state] else []
      | None => []
      end in
    let out := mkTouch ty event_time (match ty with kTouchMove => true | _ => false end)
                 (filled ++ released) in
    emod (λ s, s <| last_assembled_event_ := Some out |>);;
    mret (Some out).

Definition assemble_and_forward (ty : TouchType) (id : Z) (st : PointState)
    (released : option CbActiveTouchPoint) (event_time : Z) (rwh : RenderWidgetHost) : M unit :=
  e ← AssembleTouchEvent ty id st released event_time rwh;
  match e with
  | None => mret tt
  | Some ev => emit (ForwardTouchEvent ev)
  end.

Definition DispatchTouchStart (r : option (option WebContents)) (d : DictValue) (event_time : Z)
    : M unit :=
  match ParseTouchPointData d event_time with
  | None => mret tt
  | Some parsed =>
      s ← eget;
      let known := bool_decide (is_Some (active_points_ s !! identifier parsed)) in
      if negb known && (kBlinkTouchPointsCap <=? size (active_points_ s))%nat then mret tt
      else
        let id := identifier parsed in
        emod (λ s, s <| active_points_ := <[id := parsed]> (active_points_ s) |>);;
        match GetActiveWebContents r with
        | None => mret tt
        | Some wc =>
            EnsureBroughtToFront wc;;
            match contents_host wc with
            | None => mret tt
            | Some rwh => assemble_and_forward kTouchStart id kStatePressed None event_time rwh
            end
        end
  end.

Definition DispatchTouchMove (r : option (option WebContents)) (d : DictValue) (event_time : Z)
    : M unit :=
  match ParseTouchPointData d event_time with
  | None => mret tt
  | Some parsed =>
      s ← eget;
      match active_points_ s !! identifier parsed with
      | None => mret tt
      | Some _ =>
          emod (λ s, s <| active_points_ := <[identifier parsed := parsed]> (active_points_ s) |>);;
          match GetActiveWebContents r with
          | None => mret tt
          | Some wc =>
              match contents_host wc with
              | None => mret tt
              | Some rwh =>
                  assemble_and_forward kTouchMove (identifier parsed) kStateMoved None event_time rwh
              end
          end
      end
  end.

Definition DispatchTouchEnd (r : option (option WebContents)) (d : DictValue) (event_time : Z)
    (cancel : bool) : M unit :=
  match ParseTouchEndIdentifier d with
  | None => mret tt
  | Some id =>
      s ← eget;
      match active_points_ s !! id with
      | None => mret tt
      | Some released =>
          emod (λ s, s <| active_points_ := delete id (active_points_ s) |>);;
          match GetActiveWebContents r with
          | None => mret tt
          | Some wc =>
              match contents_host wc with
              | None => mret tt
              | Some rwh =>
                  assemble_and_forward (if cancel then kTouchCancel else kTouchEnd) id
                    (if cancel then kStateCancelled else kStateReleased) (Some released) event_time rwh
              end
          end
      end
  end.

Definition Touch_OnInputEvent (i : ui_input) : M unit :=
  let t := type (env i) in
  if String.eqb t "touch_start" then DispatchTouchStart (resolver i) (data (env i)) (now i)
  else if String.eqb t "touch_move" then DispatchTouchMove (resolver i) (data (env i)) (now i)
  else if String.eqb t "touch_end" then DispatchTouchEnd (resolver i) (data (env i)) (now i) false
  else if String.eqb t "touch_cancel" then DispatchTouchEnd (resolver i) (data (env i)) (now i) true
  else mret tt.
End touch.

(** ** Properties *)

Section properties.
Context (order : gmap Z CbActiveTouchPoint → list (Z * CbActiveTouchPoint)).
(** Walking the hash map visits each entry once. *)
Hypothesis order_perm : ∀ m, order m ≡ₚ map_to_list m.

Definition touch_inv (points : gmap Z CbActiveTouchPoint) : Prop :=
  (size points ≤ kBlinkTouchPointsCap)%nat ∧
  map_Forall (λ id p, identifier p = id) points.

(** The change an input makes to the active points. *)
Definition touch_edge (i : ui_input) (points : gmap Z CbActiveTouchPoint)
    : option (TouchType * Z * gmap Z CbActiveTouchPoint) :=
  let d := data (env i) in
  let parsed := ParseTouchPointData d (now i) in
  if String.eqb (type (env i)) "touch_start" then
    p ← parsed;
    if bool_decide (is_Some (points !! identifier p)) || (size points <? kBlinkTouchPointsCap)%nat
    then Some (kTouchStart, identifier p, <[identifier p := p]> points) else None
  else if String.eqb (type (env i)) "touch_move" then
    p ← parsed; _ ← points !! identifier p;
    Some (kTouchMove, identifier p, <[identifier p := p]> points)
  else if String.eqb (type (env i)) "touch_end" then
    id ← FindInt "identifier" d; _ ← points !! id; Some (kTouchEnd, id, delete id points)
  else if String.eqb (type (env i)) "touch_cancel" then
    id ← FindInt "identifier" d; _ ← points !! id; Some (kTouchCancel, id, delete id points)
  else None.

Definition state_of (ty : TouchType) : PointState :=
  match ty with
  | kTouchStart => kStatePressed | kTouchMove => kStateMoved
  | kTouchEnd => kStateReleased | kTouchCancel => kStateCancelled
  end.

(** The frame of a change: the finger that changed and all that are down. *)
Definition coherent (ty : TouchType) (id t : Z) (points : gmap Z CbActiveTouchPoint)
    (ev : WebTouchEvent) : Prop :=
  t_type ev = ty ∧ t_time ev = t ∧ (List.length (touches ev) ≤ kBlinkTouchPointsCap)%nat ∧
  NoDup (p_id <$> touches ev) ∧
  (∀ k, k ∈ p_id <$> touches ev ↔ k = id ∨ is_Some (points !! k)) ∧
  Forall (λ pt, p_state pt = if p_id pt =? id then state_of ty else kStateStationary) (touches ev).

Definition filled (points : gmap Z CbActiveTouchPoint) (rwh : RenderWidgetHost) (id : Z)
    (st : PointState) : list WebTouchPoint :=
  (λ '(k, p), FillWebTouchPoint p (Touch_ContentToWidget rwh (x p) (y p))
     (if k =? id then st else kStateStationary)) <$> order points.

Lemma filled_ids points rwh id st :
  map_Forall (λ id p, identifier p = id) points →
  p_id <$> filled points rwh id st = (order points).*1.
Proof.
  intros Hid. unfold filled. rewrite <-list_fmap_compose. apply list_fmap_ext.
  intros n [k p] Hn. simpl. apply Hid. apply elem_of_map_to_list. rewrite <-order_perm.
  by apply list_elem_of_lookup_2 in Hn.
Qed.

Lemma filled_states points rwh id st :
  map_Forall (λ id p, identifier p = id) points →
  Forall (λ pt, p_state pt = if p_id pt =? id then st else kStateStationary) (filled points rwh id st).
Proof.
  intros Hid. unfold filled. apply Forall_fmap, Forall_forall. intros [k p] Hin. simpl.
  rewrite order_perm in Hin. apply elem_of_map_to_list in Hin. by rewrite (Hid k p Hin).
Qed.

Lemma order_keys points k : k ∈ (order points).*1 ↔ is_Some (points !! k).
Proof.
  rewrite order_perm, list_elem_of_fmap. split.
  - intros ([k' p] & -> & H%elem_of_map_to_list). by exists p.
  - intros [p H]. exists (k, p). split; [done|]. by apply elem_of_map_to_list.
Qed.

Lemma order_length points : List.length (order points) = size points.
Proof. rewrite order_perm. apply length_map_to_list. Qed.

Lemma filled_length points rwh id st : List.length (filled points rwh id st) = size points.
Proof. unfold filled. by rewrite length_fmap, order_length. Qed.

Definition released_points (rel : option CbActiveTouchPoint) (rwh : RenderWidgetHost) (st : PointState)
    : list WebTouchPoint :=
  match rel with
  | Some p => [FillWebTouchPoint p (Touch_ContentToWidget rwh (x p) (y p)) st]
  | None => []
  end.

(** Assembling never fails on a state within the cap. *)
Lemma assemble_run ty id st rel t rwh s :
  (size (active_points_ s) + List.length (released_points rel rwh st) ≤ kBlinkTouchPointsCap)%nat →
  let ev := mkTouch ty t (match ty with kTouchMove => true | _ => false end)
              (filled (active_points_ s) rwh id st ++ released_points rel rwh st) in
  assemble_and_forward order ty id st rel t rwh s =
    (tt, s <| last_assembled_event_ := Some ev |>, [ForwardTouchEvent ev]).
Proof.
  intros Hle. cbv zeta. unfold assemble_and_forward, AssembleTouchEvent.
  assert (take kBlinkTouchPointsCap (order (active_points_ s)) = order (active_points_ s)) as Htake.
  { apply take_ge. rewrite order_length. lia. }
  assert (List.length (filled (active_points_ s) rwh id st) = size (active_points_ s)) as Hlen
    by apply filled_length.
  unfold filled in *. run_eff. rewrite Htake.
  assert (((kBlinkTouchPointsCap <? size (active_points_ s) + match rel with Some _ => 1 | None => 0 end)
    = false)%nat) as ->.
  { apply Nat.ltb_ge. unfold released_points in Hle. destruct rel; simpl in Hle; lia. }
  simpl. destruct rel as [p|]; simpl in *; [|by rewrite app_nil_r].
  rewrite Hlen. assert ((size (active_points_ s) <? kBlinkTouchPointsCap)%nat = true) as ->
    by (apply Nat.ltb_lt; lia).
  done.
Qed.

Lemma coherent_down ty id t points rwh mv :
  touch_inv points → is_Some (points !! id) →
  coherent ty id t points
    (mkTouch ty t mv (filled points rwh id (state_of ty) ++ [])).
Proof.
  intros [Hsz Hid] Hin. rewrite app_nil_r. unfold coherent. simpl.
  rewrite filled_length, filled_ids by done.
  split; [done|]. split; [done|]. split; [done|]. split; [|split].
  - rewrite order_perm. apply NoDup_fst_map_to_list.
  - intros k. rewrite order_keys. split; [by right|]. by intros [->|].
  - by apply filled_states.
Qed.

Lemma coherent_up ty id t points rwh mv p :
  touch_inv points → points !! id = None → identifier p = id →
  (size points < kBlinkTouchPointsCap)%nat →
  coherent ty id t points
    (mkTouch ty t mv (filled points rwh id (state_of ty) ++
       [FillWebTouchPoint p (Touch_ContentToWidget rwh (x p) (y p)) (state_of ty)])).
Proof.
  intros [_ Hid] Hin Hp Hsz. unfold coherent. simpl.
  rewrite length_app, filled_length, fmap_app, filled_ids by done. simpl. rewrite Hp.
  assert (id ∉ (order points).*1) as Hni by (rewrite order_keys, Hin; by intros [? ?]).
  split; [done|]. split; [done|]. split; [lia|]. split; [|split].
  - apply NoDup_app. split; [rewrite order_perm; apply NoDup_fst_map_to_list|].
    split; [|apply NoDup_singleton]. intros k Hk. intros ->%list_elem_of_singleton. done.
  - intros k. rewrite elem_of_app, list_elem_of_singleton, order_keys. naive_solver.
  - apply Forall_app. split; [by apply filled_states|]. constructor; [|constructor].
    simpl. by rewrite Hp, Z.eqb_refl.
Qed.

Definition touch_event (e : call) : option WebTouchEvent :=
  match e with ForwardTouchEvent ev => Some ev | _ => None end.
Definition host (r : option (option WebContents)) : option RenderWidgetHost :=
  GetActiveWebContents r ≫= contents_host.

(** A change of the active points followed by its frame, when a page can take it. *)
Definition delivers (m : eff touch call unit) (i : ui_input) (ty : TouchType) (id : Z)
    (points' : gmap Z CbActiveTouchPoint) (s : touch) : Prop :=
  active_points_ (exec m s) = points' ∧
  match host (resolver i) with
  | Some _ => ∃ ev, omap touch_event (events m s) = [ev] ∧ coherent ty id (now i) points' ev
  | None => omap touch_event (events m s) = []
  end.

Lemma bring_keeps wc s :
  active_points_ (exec (EnsureBroughtToFront wc) s) = active_points_ s ∧
  omap touch_event (events (EnsureBroughtToFront wc) s) = [].
Proof.
  unfold EnsureBroughtToFront, bring_to_front. rewrite exec_get, events_get.
  by destruct (brought_to_front_ s), (contents_view wc).
Qed.

(** The tail of a handler; only a start brings the page to the front first. *)
Definition tail (front : bool) (r : option (option WebContents)) (ty : TouchType) (id : Z)
    (rel : option CbActiveTouchPoint) (t : Z) : eff touch call unit :=
  let forward wc :=
    match contents_host wc with
    | None => mret tt
    | Some rwh => assemble_and_forward order ty id (state_of ty) rel t rwh
    end in
  match GetActiveWebContents r with
  | None => mret tt
  | Some wc => if front then EnsureBroughtToFront wc;; forward wc else forward wc
  end.

Lemma tail_run front i ty id rel s :
  (size (active_points_ s) + match rel with Some _ => 1 | None => 0 end ≤ kBlinkTouchPointsCap)%nat →
  (∀ rwh mv, coherent ty id (now i) (active_points_ s)
     (mkTouch ty (now i) mv (filled (active_points_ s) rwh id (state_of ty) ++
        released_points rel rwh (state_of ty)))) →
  delivers (tail front (resolver i) ty id rel (now i)) i ty id (active_points_ s) s.
Proof.
  intros Hsz Hco. unfold delivers, tail, host.
  destruct (GetActiveWebContents (resolver i)) as [wc|]; [|done]. simpl.
  assert (∀ s', active_points_ s' = active_points_ s →
    active_points_ (exec (match contents_host wc with
      | None => mret tt
      | Some rwh => assemble_and_forward order ty id (state_of ty) rel (now i) rwh end) s') =
      active_points_ s ∧
    match contents_host wc with
    | Some _ => ∃ ev, omap touch_event (events (match contents_host wc with
        | None => mret tt
        | Some rwh => assemble_and_forward order ty id (state_of ty) rel (now i) rwh end) s') = [ev] ∧
        coherent ty id (now i) (active_points_ s) ev
    | None => omap touch_event (events (match contents_host wc with
        | None => mret tt
        | Some rwh => assemble_and_forward order ty id (state_of ty) rel (now i) rwh end) s') = []
    end) as Hfwd.
  { intros s' Hs'. destruct (contents_host wc) as [rwh|]; [|done].
    unfold exec, events. rewrite assemble_run; [simpl; rewrite Hs'; eauto|].
    rewrite Hs'. by destruct rel. }
  destruct front; [|by apply Hfwd].
  rewrite exec_bind, events_bind, omap_app. destruct (bring_keeps wc s) as [Ha ->].
  exact (Hfwd _ Ha).
Qed.

Lemma insert_inv points p :
  touch_inv points → is_Some (points !! identifier p) ∨ (size points < kBlinkTouchPointsCap)%nat →
  touch_inv (<[identifier p := p]> points).
Proof.
  intros [Hsz Hid] Hor. split; [|by apply map_Forall_insert_2].
  rewrite map_size_insert. destruct (points !! identifier p) eqn:Hp; [done|].
  destruct Hor as [[? ?]|?]; [done|lia].
Qed.

Lemma delete_inv points id p :
  touch_inv points → points !! id = Some p →
  touch_inv (delete id points) ∧ (size (delete id points) < kBlinkTouchPointsCap)%nat ∧
  identifier p = id ∧ delete id points !! id = None.
Proof.
  intros [Hsz Hid] Hp. assert (0 < size points)%nat as Hpos.
  { destruct (size points) eqn:H0; [|lia]. apply map_size_empty_inv in H0. subst.
    by rewrite lookup_empty in Hp. }
  rewrite map_size_delete, Hp. split; [split|split; [lia|split]].
  - rewrite map_size_delete, Hp. lia.
  - by apply map_Forall_delete.
  - by apply Hid.
  - by rewrite lookup_delete_eq.
Qed.

(** One input. *)
Definition touch_step_ok (m : eff touch call unit) (i : ui_input) (s : touch) : Prop :=
  match touch_edge i (active_points_ s) with
  | Some (ty, id, points') => touch_inv points' ∧ delivers m i ty id points' s
  | None => active_points_ (exec m s) = active_points_ s ∧ omap touch_event (events m s) = []
  end.

Lemma delivers_mod g m i ty id s points' :
  delivers m i ty id points' (g s) → delivers (emod g;; m) i ty id points' s.
Proof. unfold delivers. by rewrite exec_mod, events_mod. Qed.

(** A finger that is down after the change. *)
Lemma delivers_down front i ty p s :
  touch_inv (<[identifier p := p]> (active_points_ s)) →
  delivers (emod (λ s, s <| active_points_ := <[identifier p := p]> (active_points_ s) |>);;
            tail front (resolver i) ty (identifier p) None (now i))
    i ty (identifier p) (<[identifier p := p]> (active_points_ s)) s.
Proof.
  intros Hinv. apply delivers_mod.
  refine (tail_run front i ty (identifier p) None
    (mkTouchState (<[identifier p := p]> (active_points_ s)) (brought_to_front_ s)
       (last_assembled_event_ s)) _ _).
  - simpl. rewrite Nat.add_0_r. apply Hinv.
  - intros rwh mv. apply coherent_down; [exact Hinv|]. simpl. rewrite lookup_insert_eq. by eexists.
Qed.

Lemma delivers_up i ty id p s :
  touch_inv (active_points_ s) → active_points_ s !! id = Some p →
  touch_inv (delete id (active_points_ s)) ∧
  delivers (emod (λ s, s <| active_points_ := delete id (active_points_ s) |>);;
            tail false (resolver i) ty id (Some p) (now i))
    i ty id (delete id (active_points_ s)) s.
Proof.
  intros Hinv Hp. destruct (delete_inv _ id p Hinv Hp) as (Hinv' & Hsz & Hid & Hno).
  split; [exact Hinv'|]. apply delivers_mod.
  refine (tail_run false i ty id (Some p)
    (mkTouchState (delete id (active_points_ s) : gmap Z CbActiveTouchPoint) (brought_to_front_ s) (last_assembled_event_ s)) _ _).
  - rewrite Nat.add_1_r. exact Hsz.
  - intros rwh mv. by apply coherent_up.
Qed.

Lemma end_step cancel i s :
  touch_inv (active_points_ s) →
  let ty := if cancel : bool then kTouchCancel else kTouchEnd in
  match (id ← FindInt "identifier" (data (env i)); _ ← active_points_ s !! id;
         Some (ty, id, delete id (active_points_ s))) with
  | Some (ty, id, points') =>
      touch_inv points' ∧ delivers (DispatchTouchEnd order (resolver i) (data (env i)) (now i) cancel)
        i ty id points' s
  | None =>
      active_points_ (exec (DispatchTouchEnd order (resolver i) (data (env i)) (now i) cancel) s) =
        active_points_ s ∧
      omap touch_event (events (DispatchTouchEnd order (resolver i) (data (env i)) (now i) cancel) s) = []
  end.
Proof.
  intros Hinv. cbv zeta. unfold DispatchTouchEnd, ParseTouchEndIdentifier.
  destruct (FindInt "identifier" (data (env i))) as [id|]; [|done]. simpl.
  destruct (active_points_ s !! id) as [p|] eqn:Hp; simpl.
  - destruct (delivers_up i (if cancel then kTouchCancel else kTouchEnd) id p s Hinv Hp) as [H Hd].
    split; [exact H|]. unfold delivers. rewrite exec_get, events_get, Hp.
    unfold tail in Hd. destruct cancel; exact Hd.
  - rewrite exec_get, events_get, Hp. done.
Qed.

Lemma touch_step i s :
  touch_inv (active_points_ s) → touch_step_ok (Touch_OnInputEvent order i) i s.
Proof.
  intros Hinv. unfold touch_step_ok, touch_edge, Touch_OnInputEvent.
  destruct (String.eqb (type (env i)) "touch_start").
  { unfold DispatchTouchStart. destruct (ParseTouchPointData _ _) as [p|]; [|done].
    cbn [mbind option_bind]. unfold delivers. rewrite exec_get, events_get.
    rewrite Nat.leb_antisym, <-negb_orb.
    destruct (bool_decide _ || _) eqn:Hok; simpl; [|done].
    assert (touch_inv (<[identifier p := p]> (active_points_ s))) as Hinv'.
    { apply insert_inv; [done|]. apply orb_true_iff in Hok as [H%bool_decide_eq_true|H%Nat.ltb_lt]; auto. }
    split; [exact Hinv'|]. exact (delivers_down true i kTouchStart p s Hinv'). }
  destruct (String.eqb (type (env i)) "touch_move").
  { unfold DispatchTouchMove. destruct (ParseTouchPointData _ _) as [p|]; [|done]. simpl.
    destruct (active_points_ s !! identifier p) as [q|] eqn:Hq; simpl.
    - assert (touch_inv (<[identifier p := p]> (active_points_ s))) as Hinv'
        by (apply insert_inv; [done|left; by eexists]).
      split; [exact Hinv'|]. unfold delivers. rewrite exec_get, events_get, Hq.
      exact (delivers_down false i kTouchMove p s Hinv').
    - rewrite exec_get, events_get, Hq. done. }
  destruct (String.eqb (type (env i)) "touch_end"); [exact (end_step false i s Hinv)|].
  destruct (String.eqb (type (env i)) "touch_cancel"); [exact (end_step true i s Hinv)|done].
Qed.

(** C24. Touch frames: in every execution at most sixteen fingers are down, each
    stored under its own identifier, and assembling a frame never fails: an
    input that changes the fingers is followed, when a page can take it, by
    exactly one frame, and no other input forwards any.  The frame lists each
    finger that is down once, plus the one that was lifted, and exactly the
    finger the input names has a state other than stationary, the one of the
    frame's type. *)
Theorem touch_frames pre i :
  let s := exec (run (Touch_OnInputEvent order) pre) CbInputDispatchTouch in
  let es := omap touch_event (events (Touch_OnInputEvent order i) s) in
  let s' := exec (Touch_OnInputEvent order i) s in
  touch_inv (active_points_ s) ∧
  match touch_edge i (active_points_ s) with
  | Some (ty, id, points') =>
      active_points_ s' = points' ∧
      match host (resolver i) with
      | Some _ => ∃ ev, es = [ev] ∧ coherent ty id (now i) points' ev
      | None => es = []
      end
  | None => active_points_ s' = active_points_ s ∧ es = []
  end.
Proof.
  cbv zeta.
  assert (touch_inv (active_points_ (exec (run (Touch_OnInputEvent order) pre) CbInputDispatchTouch)))
    as Hinv.
  { induction pre as [|j pre IH] using rev_ind; [split; [apply Nat.leb_le; reflexivity|apply map_Forall_empty]|].
    destruct (run_app (Touch_OnInputEvent order) pre [j] CbInputDispatchTouch) as [-> _].
    revert IH. generalize (exec (run (Touch_OnInputEvent order) pre) CbInputDispatchTouch). intros s IH.
    assert (exec (run (Touch_OnInputEvent order) [j]) s = exec (Touch_OnInputEvent order j) s) as ->
      by (unfold exec; by rewrite run_one).
    pose proof (touch_step j s IH) as H. unfold touch_step_ok in H.
    destruct (touch_edge j _) as [[[ty id] points']|]; [|by destruct H as [-> _]].
    by destruct H as [H [-> _]]. }
  revert Hinv. generalize (exec (run (Touch_OnInputEvent order) pre) CbInputDispatchTouch).
  intros s Hinv. split; [exact Hinv|].
  pose proof (touch_step i s Hinv) as H. unfold touch_step_ok in H.
  destruct (touch_edge i _) as [[[ty id] points']|]; [|exact H]. exact (proj2 H).
Qed.
End properties.

(** ** Witness *)

Definition page : WebContents := mkContents (Some (Some (mkRwh 0 None 7))) None None.
Definition touch_input (ty : string) (id px py : Z) : ui_input :=
  mkUi 0 (Some (Some page))
    (mkInput 1 ty 0 0 [("identifier", VInt id); ("x", VInt px); ("y", VInt py)]).

Lemma touch_frames_witness :
  let pre := [touch_input "touch_start" 3 10 10; touch_input "touch_start" 5 20 20] in
  let s := exec (run (Touch_OnInputEvent map_to_list) pre) CbInputDispatchTouch in
  touch_inv (active_points_ s) ∧
  ∃ ev, omap touch_event (events (Touch_OnInputEvent map_to_list (touch_input "touch_end" 3 0 0)) s) = [ev].
Proof.
  intros pre s.
  destruct (touch_frames map_to_list (λ m, reflexivity _) pre (touch_input "touch_end" 3 0 0)) as [Hi H].
  split; [exact Hi|].
  assert (∃ ty id points', touch_edge (touch_input "touch_end" 3 0 0) (active_points_ s) =
    Some (ty, id, points')) as (ty & id & points' & He)
    by (do 3 eexists; vm_compute; reflexivity).
  fold s in H. rewrite He in H. destruct H as [_ (ev & Hev & _)]. by exists ev.
Defined.
