(* ===== verification/InputDrag.v ===== *)
(** * The drag-and-drop dispatcher (capture/build-integration/cb_input_dispatch_drag.{h,cc}) *)

From Stdlib Require Import ZArith Lia String SpecFloat.
From stdpp Require Import base tactics sets list strings numbers gmap.
From S2P Require Import Prelude Values Numbers InputEnvelope InputWidget InputMouse InputKeyboard.
Open Scope string_scope.
Open Scope Z_scope.

(** ** Data *)

Record CbDragItem := mkItem {
  kind : string;
  item_type : string;
  item_data : string;
}.

Inductive CbDragPhase := kIdle | kActive | kAwaitingEnd.
#[export] Instance CbDragPhase_eq_dec : EqDecision CbDragPhase.
Proof. solve_decision. Defined.

Record drag := mkDragState {
  phase_ : CbDragPhase;
  cached_items_ : list CbDragItem;
  cached_types_ : list string;
  last_widget_pos_ : spec_float * spec_float;
  brought_to_front_ : bool;
}.
#[export] Instance eta_drag : Eta drag := λ s,
  mkDragState (phase_ s) (cached_items_ s) (cached_types_ s) (last_widget_pos_ s)
    (brought_to_front_ s).
Definition CbInputDispatchDrag : drag := mkDragState kIdle [] [] (float_zero, float_zero) false.

Definition kMimePlain : string := "text/plain".
Definition kMimeHtml : string := "text/html".
Definition kMimeUriList : string := "text/uri-list".
(** The operations mask, which no code changes after construction. *)
Definition drag_operations_mask_ : Z := 1.

Definition ParseItem (v : Value) : option CbDragItem :=
  match v with
  | VDict d =>
      match FindString "kind" d, FindString "type" d with
      | Some k, Some t =>
          Some (mkItem k t
            (if String.eqb k "string" then default "" (FindString "data" d) else ""))
      | _, _ => None
      end
  | _ => None
  end.
Definition ParseItems (items_list : option (list Value)) : list CbDragItem :=
  match items_list with None => [] | Some l => omap ParseItem l end.

Definition ParseTypes (types_list : option (list Value)) : list string :=
  match types_list with
  | None => []
  | Some l => omap (λ v, match v with VString s => Some s | _ => None end) l
  end.

Section drag.
Context {B : BlinkModifiers} {L : InputLib}.
(** The widget host's security filter. *)
Variable FilterDropData : DropData → DropData.

Definition empty_drop : DropData := mkDrop 0 0 None None [] ∅.

Definition add_item (out : DropData) (item : CbDragItem) : DropData :=
  if String.eqb (kind item) "file" then out <| filenames := S (filenames out) |>
  else
    let data16 := UTF8ToUTF16 (item_data item) in
    if String.eqb (item_type item) kMimePlain then out <| drop_text := Some data16 |>
    else if String.eqb (item_type item) kMimeHtml then out <| drop_html := Some data16 |>
    else if String.eqb (item_type item) kMimeUriList then
      out <| url_infos := (url_infos out ++ [item_data item])%list |>
          <| custom_data := <[UTF8ToUTF16 (item_type item) := data16]> (custom_data out) |>
    else out <| custom_data := <[UTF8ToUTF16 (item_type item) := data16]> (custom_data out) |>.

Definition BuildDropData (items : list CbDragItem) : DropData := fold_left add_item items empty_drop.

Abbreviation M := (eff drag call).

Definition EnsureBroughtToFront (wc : WebContents) : M unit :=
  s ← eget;
  if brought_to_front_ s then mret tt
  else
    eseq (emit <$> bring_to_front wc);;
    emod (λ s, s <| brought_to_front_ := true |>).

Definition ResolveRwhOrNull (r : option (option WebContents)) : option RenderWidgetHost :=
  GetActiveWebContents r ≫= contents_host.

(** The keyboard modifiers the mouse dispatcher knows of. *)
Definition CurrentModifiersBlink (mouse_ : option mouse) : Z :=
  match mouse_ with
  | None => 0
  | Some m =>
      Z.land (held_modifiers_blink_ m)
        (Z.lor (Z.lor (Z.lor (flag kShiftKey) (flag kControlKey)) (flag kAltKey)) (flag kMetaKey))
  end.

Definition clear_cache (s : drag) : drag := s <| cached_items_ := [] |> <| cached_types_ := [] |>.
Definition filtered (rwh : RenderWidgetHost) (items : list CbDragItem) : DropData :=
  FilterDropData ((BuildDropData items) <| view_id := routing_id rwh |>).

Definition DispatchDragStart (mouse_ : option mouse) (r : option (option WebContents)) (d : DictValue)
    : M unit :=
  match GetActiveWebContents r with
  | None => mret tt
  | Some wc =>
      match ResolveRwhOrNull r with
      | None => mret tt
      | Some rwh =>
          EnsureBroughtToFront wc;;
          match FindInt "x" d, FindInt "y" d with
          | Some x, Some y =>
              s ← eget;
              ewhen (negb (bool_decide (phase_ s = kIdle)))
                (emit (DragTargetDragLeave (rwh_id rwh) (last_widget_pos_ s));;
                 emod (λ s, clear_cache (s <| phase_ := kIdle |>)));;
              emod (λ s, s <| cached_items_ := ParseItems (FindList "items" d) |>
                           <| cached_types_ := ParseTypes (FindList "types" d) |>);;
              s ← eget;
              let widget := ContentToWidget rwh x y in
              emod (λ s, s <| last_widget_pos_ := widget |>);;
              emit (DragTargetDragEnter (rwh_id rwh) (filtered rwh (cached_items_ s)) widget
                      drag_operations_mask_ (wrap32 (CurrentModifiersBlink mouse_)));;
              emod (λ s, s <| phase_ := kActive |>)
          | _, _ => mret tt
          end
      end
  end.

Definition DispatchDragOver (mouse_ : option mouse) (r : option (option WebContents)) (d : DictValue)
    : M unit :=
  s ← eget;
  if negb (bool_decide (phase_ s = kActive)) then mret tt
  else
    match ResolveRwhOrNull r with
    | None => mret tt
    | Some rwh =>
        match FindInt "x" d, FindInt "y" d with
        | Some x, Some y =>
            let widget := ContentToWidget rwh x y in
            emod (λ s, s <| last_widget_pos_ := widget |>);;
            emit (DragTargetDragOver (rwh_id rwh) widget drag_operations_mask_
                    (wrap32 (CurrentModifiersBlink mouse_)))
        | _, _ => mret tt
        end
    end.

Definition DispatchDrop (mouse_ : option mouse) (r : option (option WebContents)) (d : DictValue)
    : M unit :=
  match GetActiveWebContents r with
  | None => mret tt
  | Some wc =>
      match ResolveRwhOrNull r with
      | None => mret tt
      | Some rwh =>
          EnsureBroughtToFront wc;;
          emod (λ s, s <| cached_items_ := ParseItems (FindList "items" d) |>
                       <| cached_types_ := ParseTypes (FindList "types" d) |>);;
          match FindInt "x" d, FindInt "y" d with
          | Some x, Some y =>
              s ← eget;
              let widget := ContentToWidget rwh x y in
              emod (λ s, s <| last_widget_pos_ := widget |>);;
              emit (DragTargetDrop (rwh_id rwh) (filtered rwh (cached_items_ s)) widget
                      (wrap32 (CurrentModifiersBlink mouse_)));;
              emod (λ s, s <| phase_ := kAwaitingEnd |>)
          | _, _ => mret tt
          end
      end
  end.

Definition DispatchDragEnd (r : option (option WebContents)) (d : DictValue) : M unit :=
  let success := default false (FindBool "success" d) in
  s ← eget;
  let leave :=
    match ResolveRwhOrNull r with
    | Some rwh => emit (DragTargetDragLeave (rwh_id rwh) (last_widget_pos_ s))
    | None => mret tt
    end in
  let release := emod (λ s, clear_cache (s <| phase_ := kIdle |>)) in
  match phase_ s with
  | kIdle => mret tt
  | kActive => leave;; release
  | kAwaitingEnd => ewhen (negb success) leave;; release
  end.

Definition Drag_OnInputEvent (mouse_ : option mouse) (i : ui_input) : M unit :=
  let t := type (env i) in
  if String.eqb t "drag_start" then DispatchDragStart mouse_ (resolver i) (data (env i))
  else if String.eqb t "drag_over" then DispatchDragOver mouse_ (resolver i) (data (env i))
  else if String.eqb t "drop" then DispatchDrop mouse_ (resolver i) (data (env i))
  else if String.eqb t "drag_end" then DispatchDragEnd (resolver i) (data (env i))
  else mret tt.

(** ** Properties *)

(** What one page must see: it is entered when no drag is in it, moved over and
    dropped on only when one is, and left only after it was entered or dropped
    on.  [None] is a call out of order; calls on other hosts do not count. *)
Inductive target := Outside | Inside | Dropped.
#[export] Instance target_eq_dec : EqDecision target.
Proof. solve_decision. Defined.
Definition target_step (g : nat) (t : target) (e : call) : option target :=
  match e with
  | DragTargetDragEnter h _ _ _ _ =>
      if bool_decide (h = g) then match t with Inside => None | _ => Some Inside end else Some t
  | DragTargetDragOver h _ _ _ =>
      if bool_decide (h = g) then match t with Inside => Some Inside | _ => None end else Some t
  | DragTargetDragLeave h _ =>
      if bool_decide (h = g) then match t with Outside => None | _ => Some Outside end else Some t
  | DragTargetDrop h _ _ _ =>
      if bool_decide (h = g) then match t with Inside => Some Dropped | _ => None end else Some t
  | _ => Some t
  end.
Fixpoint target_run (g : nat) (t : target) (es : list call) : option target :=
  match es with
  | [] => Some t
  | e :: es' => t' ← target_step g t e; target_run g t' es'
  end.

Lemma target_run_app g t es es' :
  target_run g t (es ++ es')%list = (t' ← target_run g t es; target_run g t' es').
Proof.
  revert t. induction es as [|e es IH]; intros t; simpl; [done|].
  destruct (target_step g t e); simpl; auto.
Qed.

(** The host an input finds, and the host of the last drag that was started. *)
Definition found (i : ui_input) : option nat := rwh_id <$> ResolveRwhOrNull (resolver i).
Definition is_type (ty : string) (i : ui_input) : bool := String.eqb (type (env i)) ty.
Definition entered (h : option nat) (i : ui_input) : option nat :=
  if is_type "drag_start" i && bool_decide (is_Some (found i)) then found i else h.

(** What a drag relies on.  The viewer drops only what it started to drag.  While
    a drag is in progress the page that is active stays the one it was started
    on; it may be missing for a while, but not when the drag is given up. *)
Definition undisturbed (h : option nat) (i : ui_input) (s : drag) : bool :=
  bool_decide (found i = None) && negb (is_type "drag_end" i && bool_decide (phase_ s = kActive)) ||
  match phase_ s with
  | kIdle => negb (is_type "drop" i)
  | kActive => bool_decide (found i = h)
  | kAwaitingEnd => bool_decide (found i = h) && negb (is_type "drop" i)
  end.
Abbreviation drag_input_handler := (λ x : option mouse * ui_input, Drag_OnInputEvent x.1 x.2) (only parsing).
Fixpoint undisturbed_run (h : option nat) (ins : list (option mouse * ui_input)) (s : drag) : bool :=
  match ins with
  | [] => true
  | x :: ins' => undisturbed h x.2 s &&
      undisturbed_run (entered h x.2) ins' (exec (Drag_OnInputEvent x.1 x.2) s)
  end.

(** The phase, the host of the drag and a page's view of it. *)
Definition agrees (g : nat) (p : CbDragPhase) (h : option nat) (t : target) : Prop :=
  match p with
  | kIdle => t ≠ Inside
  | kActive => t = Inside ↔ h = Some g
  | kAwaitingEnd => t ≠ Inside ∧ (h = Some g → t = Dropped)
  end.

Lemma drag_bring_run wc s :
  exec (EnsureBroughtToFront wc) s = s <| brought_to_front_ := true |> ∧
  ∀ g t, target_run g t (events (EnsureBroughtToFront wc) s) = Some t.
Proof.
  unfold EnsureBroughtToFront, bring_to_front. rewrite exec_get, events_get.
  destruct s as [? ? ? ? br]. by destruct br, (contents_view wc).
Qed.

(** A handler, from a phase and a drag's host on, shows the page a part of a
    well-formed drag. *)
Definition follows (g : nat) (h h' : option nat) (m : M unit) (s : drag) : Prop := ∀ t,
  agrees g (phase_ s) h t →
  ∃ t', target_run g t (events m s) = Some t' ∧ agrees g (phase_ (exec m s)) h' t'.

Lemma follows_bring g h h' wc m s :
  follows g h h' m (s <| brought_to_front_ := true |>) → follows g h h' (EnsureBroughtToFront wc;; m) s.
Proof.
  intros Hm t Ht. rewrite exec_bind, events_bind, target_run_app.
  destruct (drag_bring_run wc s) as [-> ->]. simpl. by apply Hm.
Qed.
Lemma follows_ret g h s : follows g h h (mret tt) s.
Proof. intros t Ht. by exists t. Qed.

(** Evaluate a handler that found the host [rwh] and look at the page [g]. *)
Ltac follow_run rwh g :=
  intros t Ht; simpl in *; run_eff; simpl in *;
  destruct (decide (rwh_id rwh = g)); subst; repeat case_bool_decide; simplify_eq/=;
  try (eexists; split; [reflexivity|]); destruct t; naive_solver.

Lemma start_follows mouse_ g h r rwh d s : ResolveRwhOrNull r = Some rwh →
  (phase_ s = kIdle ∨ h = Some (rwh_id rwh)) →
  follows g h (Some (rwh_id rwh)) (DispatchDragStart mouse_ r d) s.
Proof.
  intros Hr Hh. unfold DispatchDragStart. rewrite Hr. unfold ResolveRwhOrNull in Hr.
  destruct (GetActiveWebContents r) as [wc|]; [|done]. apply follows_bring.
  destruct s as [p ? ? ? ?], (FindInt "x" d), (FindInt "y" d); destruct Hh as [Hh|Hh]; simpl in Hh; subst;
    try destruct p; follow_run rwh g.
Qed.
Lemma over_follows mouse_ g h r rwh d s : ResolveRwhOrNull r = Some rwh →
  (phase_ s = kActive → h = Some (rwh_id rwh)) → follows g h h (DispatchDragOver mouse_ r d) s.
Proof.
  intros Hr Hh. unfold DispatchDragOver. rewrite Hr.
  destruct s as [[] ? ? ? ?], (FindInt "x" d), (FindInt "y" d); simpl in Hh; try (rewrite (Hh eq_refl));
    follow_run rwh g.
Qed.
Lemma drop_follows mouse_ g h r rwh d s : ResolveRwhOrNull r = Some rwh →
  phase_ s = kActive → h = Some (rwh_id rwh) → follows g h h (DispatchDrop mouse_ r d) s.
Proof.
  intros Hr Hp ->. unfold DispatchDrop. rewrite Hr. unfold ResolveRwhOrNull in Hr.
  destruct (GetActiveWebContents r) as [wc|]; [|done]. apply follows_bring.
  destruct s as [p ? ? ? ?], (FindInt "x" d), (FindInt "y" d); simpl in Hp; subst; follow_run rwh g.
Qed.
Lemma end_follows g h r d s :
  (phase_ s = kActive → h = rwh_id <$> ResolveRwhOrNull r) →
  (phase_ s = kAwaitingEnd → ResolveRwhOrNull r = None ∨ h = rwh_id <$> ResolveRwhOrNull r) →
  follows g h h (DispatchDragEnd r d) s.
Proof.
  intros H1 H2. unfold DispatchDragEnd. destruct (ResolveRwhOrNull r) as [rwh|].
  - destruct s as [[] ? ? ? ?], (default false (FindBool "success" d)); simpl in H1, H2;
      [| |rewrite (H1 eq_refl)|rewrite (H1 eq_refl)
      |destruct (H2 eq_refl) as [?| ->]; [done|]|destruct (H2 eq_refl) as [?| ->]; [done|]]; follow_run rwh g.
  - destruct s as [[] ? ? ? ?], (default false (FindBool "success" d)); simpl in H1, H2;
      try rewrite (H1 eq_refl); intros t Ht; simpl in *; exists t; naive_solver.
Qed.

(** What finds no host changes nothing, but a drag that is given up. *)
Lemma lost_follows mouse_ g h i s : found i = None →
  (type (env i) = "drag_end" → phase_ s = kActive → h = None) →
  follows g h h (Drag_OnInputEvent mouse_ i) s.
Proof.
  unfold found. intros Hf He. assert (Hr : ResolveRwhOrNull (resolver i) = None) by (by destruct (ResolveRwhOrNull _)).
  unfold Drag_OnInputEvent. destruct (String.eqb _ "drag_start").
  { unfold DispatchDragStart. rewrite Hr. destruct (GetActiveWebContents _); apply follows_ret. }
  destruct (String.eqb _ "drag_over").
  { unfold DispatchDragOver. rewrite Hr. intros t Ht. rewrite exec_get, events_get. destruct (negb _); by exists t. }
  destruct (String.eqb _ "drop").
  { unfold DispatchDrop. rewrite Hr. destruct (GetActiveWebContents _); apply follows_ret. }
  destruct (String.eqb_spec (type (env i)) "drag_end") as [E|]; [|apply follows_ret].
  apply end_follows; rewrite Hr; [intros Hp; by rewrite (He E Hp)|by left].
Qed.

Lemma drag_follows mouse_ g h i s : undisturbed h i s = true →
  follows g h (entered h i) (Drag_OnInputEvent mouse_ i) s.
Proof.
  unfold undisturbed, entered, is_type. intros Hu. destruct (found i) as [x|] eqn:Hf.
  2:{ rewrite bool_decide_false, andb_false_r by (by intros []). apply lost_follows; [done|]. intros E Hp.
      rewrite E, Hp, !bool_decide_true in Hu by done. by apply bool_decide_eq_true_1 in Hu. }
  assert (∃ rwh, ResolveRwhOrNull (resolver i) = Some rwh ∧ x = rwh_id rwh) as (rwh & Hr & ->).
  { unfold found in Hf. destruct (ResolveRwhOrNull _) as [rwh|]; [|done]. injection Hf as <-. by exists rwh. }
  rewrite bool_decide_false in Hu by done. rewrite bool_decide_true, andb_true_r by (by eexists). cbn [andb orb] in Hu.
  unfold Drag_OnInputEvent. destruct (String.eqb (type (env i)) "drag_start").
  { apply start_follows; [done|]. destruct (phase_ s); [by left|..]; right;
      [|apply andb_true_iff in Hu as [Hu _]]; by apply bool_decide_eq_true_1 in Hu. }
  destruct (String.eqb (type (env i)) "drag_over").
  { apply (over_follows _ _ _ _ rwh); [done|]. intros Hp. rewrite Hp in Hu. by apply bool_decide_eq_true_1 in Hu. }
  destruct (String.eqb (type (env i)) "drop").
  { rewrite andb_false_r in Hu. destruct (phase_ s) eqn:Hp; [done| |done].
    apply (drop_follows _ _ _ _ rwh); [done|done|]. by apply bool_decide_eq_true_1 in Hu. }
  destruct (String.eqb (type (env i)) "drag_end"); [|apply follows_ret].
  apply end_follows; intros Hp; rewrite Hp in Hu; rewrite Hr.
  - by apply bool_decide_eq_true_1 in Hu.
  - right. apply andb_true_iff in Hu as [Hu _]. by apply bool_decide_eq_true_1 in Hu.
Qed.

(** C25. Each page is shown well-formed drags: when the viewer drops only what it
    started to drag, and the page that is active while a drag is in progress is
    the one it was started on, a page is entered only when no drag is in it (a
    second start first leaves the old one), moved over and dropped on only when
    one is, and left only after it was entered or dropped on.  While the
    dispatcher is active the page the drag was started on, and no other, has a
    drag in it. *)
Theorem drag_well_formed ins g : undisturbed_run None ins CbInputDispatchDrag = true →
  let m := run drag_input_handler ins in
  ∃ t, target_run g Outside (events m CbInputDispatchDrag) = Some t ∧
    (t = Inside ↔ phase_ (exec m CbInputDispatchDrag) = kActive ∧
       fold_left (λ h x, entered h x.2) ins None = Some g).
Proof.
  intros Hu. cbv zeta.
  assert (H : ∀ ins h s t, undisturbed_run h ins s = true → agrees g (phase_ s) h t →
    ∃ t', target_run g t (events (run drag_input_handler ins) s) = Some t' ∧
      agrees g (phase_ (exec (run drag_input_handler ins) s)) (fold_left (λ h x, entered h x.2) ins h) t').
  { clear. intros ins. induction ins as [|x ins IH]; intros h s t Hu Ht; [by exists t|].
    cbn [undisturbed_run] in Hu. apply andb_true_iff in Hu as [Hu Hus].
    destruct (drag_follows x.1 g h x.2 s Hu t Ht) as (t1 & E1 & A1). destruct (IH _ _ _ Hus A1) as (t2 & E2 & A2).
    exists t2. unfold run in *. rewrite fmap_cons. cbn [eseq fold_left]. rewrite exec_bind, events_bind, target_run_app, E1.
    by split. }
  destruct (H ins None CbInputDispatchDrag Outside Hu) as (t & E & A); [done|]. exists t. split; [done|].
  unfold agrees in A. destruct (phase_ _); naive_solver.
Qed.

(** ** The payload *)

Definition is_string_of (ty : string) (item : CbDragItem) : Prop :=
  kind item ≠ "file" ∧ item_type item = ty.
#[export] Instance is_string_of_dec ty item : Decision (is_string_of ty item).
Proof. unfold is_string_of. apply _. Defined.

Definition is_custom (key : list Z) (item : CbDragItem) : Prop :=
  kind item ≠ "file" ∧ item_type item ≠ kMimePlain ∧ item_type item ≠ kMimeHtml ∧
  UTF8ToUTF16 (item_type item) = key.
#[export] Instance is_custom_dec key item : Decision (is_custom key item).
Proof. unfold is_custom. apply _. Defined.

Definition text_of (item : CbDragItem) : list Z := UTF8ToUTF16 (item_data item).

(** One more item, given whether it is of the kind. *)
Lemma filter_snoc (P : CbDragItem → Prop) `{Hd : ∀ x, Decision (P x)} b l x :
  (P x ↔ b = true) →
  filter P (l ++ [x])%list = (filter P l ++ if b then [x] else [])%list ∧
  last (filter P (l ++ [x])%list) = if b then Some x else last (filter P l).
Proof.
  intros Hb. rewrite filter_app, filter_cons, filter_nil. destruct b.
  - rewrite decide_True by tauto. split; [done|]. apply last_snoc.
  - rewrite decide_False by (rewrite Hb; done). by rewrite app_nil_r.
Qed.

Lemma filters_snoc l it (f p h u : bool) (c : list Z → bool) :
  (kind it = "file" ↔ f = true) → (is_string_of kMimePlain it ↔ p = true) →
  (is_string_of kMimeHtml it ↔ h = true) → (is_string_of kMimeUriList it ↔ u = true) →
  (∀ key, is_custom key it ↔ c key = true) →
  let out := BuildDropData l in let out' := add_item out it in
  (filenames out' = filenames out + if f then 1 else 0)%nat ∧
  url_infos out' = (url_infos out ++ if u then [item_data it] else [])%list ∧
  drop_text out' = (if p then Some (text_of it) else drop_text out) ∧
  drop_html out' = (if h then Some (text_of it) else drop_html out) ∧
  (∀ key, custom_data out' !! key = if c key then Some (text_of it) else custom_data out !! key) →
  (filenames out = List.length (filter (λ it, kind it = "file") l) ∧
   url_infos out = item_data <$> filter (is_string_of kMimeUriList) l ∧
   drop_text out = text_of <$> last (filter (is_string_of kMimePlain) l) ∧
   drop_html out = text_of <$> last (filter (is_string_of kMimeHtml) l) ∧
   ∀ key, custom_data out !! key = text_of <$> last (filter (is_custom key) l)) →
  filenames out' = List.length (filter (λ it, kind it = "file") (l ++ [it])%list) ∧
  url_infos out' = item_data <$> filter (is_string_of kMimeUriList) (l ++ [it])%list ∧
  drop_text out' = text_of <$> last (filter (is_string_of kMimePlain) (l ++ [it])%list) ∧
  drop_html out' = text_of <$> last (filter (is_string_of kMimeHtml) (l ++ [it])%list) ∧
  ∀ key, custom_data out' !! key = text_of <$> last (filter (is_custom key) (l ++ [it])%list).
Proof.
  intros Hf Hp Hh Hu Hc out out' (-> & -> & -> & -> & H5) (I1 & I2 & I3 & I4 & I5).
  destruct (filter_snoc (λ it, kind it = "file") f l it Hf) as [-> _],
    (filter_snoc (is_string_of kMimePlain) p l it Hp) as [_ ->],
    (filter_snoc (is_string_of kMimeHtml) h l it Hh) as [_ ->], (filter_snoc (is_string_of kMimeUriList) u l it Hu) as [-> _].
  rewrite length_app, fmap_app, I1, I2, I3, I4. split; [by destruct f|].
  split; [by destruct u|]. split; [by destruct p|]. split; [by destruct h|].
  intros key. rewrite H5. destruct (filter_snoc (is_custom key) (c key) l it (Hc key)) as [_ ->].
  rewrite I5. by destruct (c key).
Qed.

Lemma lookup_custom (m : gmap (list Z) (list Z)) k v key :
  <[k := v]> m !! key = if bool_decide (k = key) then Some v else m !! key.
Proof.
  case_bool_decide as H; [subst; apply lookup_insert_eq|by apply lookup_insert_ne].
Qed.

(** The payload of a drag is its items by kind: the page gets one empty file
    entry per file item, the URLs of all [text/uri-list] items in order, as
    text and as HTML the last item of that type, and under every other type
    (and the raw [text/uri-list]) the last item with that type, and nothing
    else. *)
Theorem drop_data_by_kind items :
  let out := BuildDropData items in
  filenames out = List.length (filter (λ it, kind it = "file") items) ∧
  url_infos out = item_data <$> filter (is_string_of kMimeUriList) items ∧
  drop_text out = text_of <$> last (filter (is_string_of kMimePlain) items) ∧
  drop_html out = text_of <$> last (filter (is_string_of kMimeHtml) items) ∧
  ∀ key, custom_data out !! key = text_of <$> last (filter (is_custom key) items).
Proof.
  cbv zeta. induction items as [|it items IH] using rev_ind; [done|].
  assert (BuildDropData (items ++ [it])%list = add_item (BuildDropData items) it) as ->
    by (unfold BuildDropData; by rewrite fold_left_app).
  assert (kMimePlain ≠ kMimeHtml ∧ kMimePlain ≠ kMimeUriList ∧ kMimeHtml ≠ kMimeUriList)
    as (Hm1 & Hm2 & Hm3) by done.
  destruct (String.eqb_spec (kind it) "file") as [Hk|Hk];
    [|destruct (String.eqb_spec (item_type it) kMimePlain) as [Hp|Hp];
      [|destruct (String.eqb_spec (item_type it) kMimeHtml) as [Hh|Hh];
        [|destruct (String.eqb_spec (item_type it) kMimeUriList) as [Hu|Hu]]]].
  - apply (filters_snoc items it true false false false (λ _, false)); try exact IH;
      unfold is_string_of, is_custom; [intuition congruence..|].
    unfold add_item. rewrite Hk. simpl. rewrite app_nil_r. split; [lia|done].
  - apply (filters_snoc items it false true false false (λ _, false)); try exact IH;
      unfold is_string_of, is_custom; [intuition congruence..|].
    unfold add_item. apply String.eqb_neq in Hk. rewrite Hk, Hp. simpl.
    rewrite app_nil_r. split; [lia|done].
  - apply (filters_snoc items it false false true false (λ _, false)); try exact IH;
      unfold is_string_of, is_custom; [intuition congruence..|].
    unfold add_item. apply String.eqb_neq in Hk. rewrite Hk, Hh. simpl.
    rewrite app_nil_r. split; [lia|done].
  - apply (filters_snoc items it false false false true
      (λ key, bool_decide (UTF8ToUTF16 kMimeUriList = key))); try exact IH;
      unfold is_string_of, is_custom; [intuition congruence..|intros; rewrite bool_decide_eq_true; intuition congruence|].
    unfold add_item. apply String.eqb_neq in Hk. rewrite Hk, Hu. simpl.
    split; [lia|]. split_and!; [done..|]. intros key. apply lookup_custom.
  - apply (filters_snoc items it false false false false
      (λ key, bool_decide (UTF8ToUTF16 (item_type it) = key))); try exact IH;
      unfold is_string_of, is_custom; [intuition congruence..|intros; rewrite bool_decide_eq_true; intuition congruence|].
    unfold add_item. apply String.eqb_neq in Hk, Hp, Hh, Hu. rewrite Hk, Hp, Hh, Hu. simpl.
    rewrite app_nil_r. split; [lia|]. split_and!; [done..|]. intros key. apply lookup_custom.
Qed.
End drag.

(** ** Witness *)

#[local] Existing Instance blink_modifiers.
#[local] Existing Instance ascii_lib.

(** An input for the page whose host is [h], if there is one. *)
Definition drag_input (h : option nat) (ty : string) (d : DictValue) : option mouse * ui_input :=
  (None, mkUi 0 (Some ((λ h, mkContents (Some (Some (mkRwh h None 7))) None None) <$> h)) (mkInput 1 ty 0 0 d)).
Definition at_xy : DictValue := [("x", VInt 3); ("y", VInt 4)].
Definition drag_session : list (option mouse * ui_input) :=
  [drag_input (Some 1%nat) "drag_start" at_xy; drag_input None "drag_over" at_xy; drag_input (Some 1%nat) "drag_start" at_xy;
   drag_input (Some 1%nat) "drop" at_xy; drag_input (Some 1%nat) "drag_end" [("success", VBool true)];
   drag_input (Some 2%nat) "drag_start" at_xy; drag_input (Some 2%nat) "drag_over" at_xy].
(** What the page [g] sees of a session. *)
Definition seen (g : nat) (ins : list (option mouse * ui_input)) : option target :=
  target_run g Outside (events (run (λ x, Drag_OnInputEvent (λ d, d) x.1 x.2) ins) CbInputDispatchDrag).

Lemma drag_well_formed_witness : seen 1 drag_session = Some Dropped ∧ seen 2 drag_session = Some Inside ∧
  ∃ t, seen 2 drag_session = Some t ∧
    (t = Inside ↔ phase_ (exec (run (λ x, Drag_OnInputEvent (λ d, d) x.1 x.2) drag_session) CbInputDispatchDrag) = kActive ∧
       fold_left (λ h x, entered h x.2) drag_session None = Some 2%nat).
Proof.
  split; [by vm_compute|]. split; [by vm_compute|].
  refine (drag_well_formed (λ d, d) drag_session 2 _). vm_compute. reflexivity.
Defined.

(** Without that it is not: a page that becomes active during a drag is moved
    over without having been entered, and the one the drag was started on is
    never left; a drop that was not started is delivered; and a drag that is
    given up while no page is active is entered again without being left. *)
Theorem disturbed_drags :
  let start h := drag_input (Some h) "drag_start" at_xy in
  seen 2 [start 1%nat; drag_input (Some 2%nat) "drag_over" at_xy] = None ∧
  seen 1 [start 1%nat; drag_input (Some 2%nat) "drag_end" []] = Some Inside ∧
  seen 1 [drag_input (Some 1%nat) "drop" at_xy] = None ∧
  seen 1 [start 1%nat; drag_input None "drag_end" []; start 1%nat] = None.
Proof. vm_compute. by split_and!. Qed.
