(* ===== verification/InputComposite.v ===== *)
(** * The composite dispatcher (capture/build-integration/cb_input_dispatch_composite.{h,cc})

    One delegate owns the six typed dispatchers and offers every envelope to
    each of them; the keyboard and the clipboard share the held modifiers, the
    drag dispatcher reads the mouse. *)

From Stdlib Require Import ZArith Lia String SpecFloat.
From stdpp Require Import base tactics sets list strings numbers gmap.
From S2P Require Import Prelude Values Numbers InputEnvelope InputWidget InputMouse InputKeyboard InputTouch InputDrag.
Open Scope string_scope.
Open Scope Z_scope.

Record composite := mkComposite {
  on_copy_gesture_ : bool;
  shared_modifiers_ : Z;
  mouse_ : mouse;
  ime_ : ime;
  touch_ : touch;
  drag_ : drag;
}.
#[export] Instance eta_composite : Eta composite := λ s,
  mkComposite (on_copy_gesture_ s) (shared_modifiers_ s) (mouse_ s) (ime_ s) (touch_ s) (drag_ s).

Definition CbInputDispatchCompositeDelegate : composite :=
  mkComposite false 0 CbInputDispatchMouse CbInputDispatchIme CbInputDispatchTouch CbInputDispatchDrag.

Section composite.
Context {B : BlinkModifiers} {U : Unspecified} {L : InputLib}.
Variable order : gmap Z CbActiveTouchPoint → list (Z * CbActiveTouchPoint).
Variable FilterDropData : DropData → DropData.

Abbreviation M := (eff composite call).

Definition IsCopyGesture (e : InputEnvelope) : bool :=
  if String.eqb (type e) "clipboard_copy_request" then true
  else if negb (String.eqb (type e) "key_down") then false
  else
    match FindString "code" (data e), FindInt "mods" (data e) with
    | Some code, Some mods =>
        String.eqb code "KeyC" && (negb (Z.land mods 2 =? 0) || negb (Z.land mods 8 =? 0))
    | _, _ => false
    end.

Definition with_mouse (m : eff mouse call unit) : M unit :=
  zoom mouse_ (λ t s, s <| mouse_ := t |>) m.
Definition with_modifiers (m : eff Z call unit) : M unit :=
  zoom shared_modifiers_ (λ t s, s <| shared_modifiers_ := t |>) m.
Definition with_ime (m : eff ime call unit) : M unit := zoom ime_ (λ t s, s <| ime_ := t |>) m.
Definition with_touch (m : eff touch call unit) : M unit :=
  zoom touch_ (λ t s, s <| touch_ := t |>) m.
Definition with_drag (m : eff drag call unit) : M unit :=
  zoom drag_ (λ t s, s <| drag_ := t |>) m.

Definition Composite_OnInputEvent (i : ui_input) : M unit :=
  s ← eget;
  ewhen (on_copy_gesture_ s && IsCopyGesture (env i)) (emit CopyGesture);;
  with_mouse (InputMouse.OnInputEvent i);;
  with_modifiers (Keyboard_OnInputEvent i);;
  with_ime (Ime_OnInputEvent i);;
  with_touch (Touch_OnInputEvent order i);;
  s ← eget;
  with_drag (Drag_OnInputEvent FilterDropData (Some (mouse_ s)) i);;
  with_modifiers (Clipboard_OnInputEvent i).

Definition SetOnCopyGesture (cb : bool) : M unit := emod (λ s, s <| on_copy_gesture_ := cb |>).

(** ** Properties *)

Inductive component := Mouse | Keyboard | Ime | Touch | Drag | Clipboard.

(** The one component that handles a type, if any. *)
Definition route (ty : string) : option component :=
  if one_of ty ["mouse_move"; "mouse_button"; "mouse_wheel"] then Some Mouse
  else if one_of ty ["key_down"; "key_up"] then Some Keyboard
  else if one_of ty ["composition_start"; "composition_update"; "composition_end"; "composition_cancel"]
  then Some Ime
  else if one_of ty ["touch_start"; "touch_move"; "touch_end"; "touch_cancel"] then Some Touch
  else if one_of ty ["drag_start"; "drag_over"; "drop"; "drag_end"] then Some Drag
  else if String.eqb ty "clipboard_copy_request" then Some Clipboard
  else None.

Definition handled_by (c : option component) (i : ui_input) (s : composite) : M unit :=
  match c with
  | None => mret tt
  | Some Mouse => with_mouse (InputMouse.OnInputEvent i)
  | Some Keyboard => with_modifiers (Keyboard_OnInputEvent i)
  | Some Ime => with_ime (Ime_OnInputEvent i)
  | Some Touch => with_touch (Touch_OnInputEvent order i)
  | Some Drag => with_drag (Drag_OnInputEvent FilterDropData (Some (mouse_ s)) i)
  | Some Clipboard => with_modifiers (Clipboard_OnInputEvent i)
  end.

Definition ty_of (i : ui_input) : string := type (env i).

(** A component leaves alone what is not routed to it. *)
Lemma one_of_false s l : one_of s l = false ↔ Forall (λ t, String.eqb s t = false) l.
Proof.
  unfold one_of. induction l as [|t l IH]; simpl; [by split|].
  rewrite orb_false_iff, Forall_cons, IH. done.
Qed.
Ltac not_mine :=
  match goal with H : one_of _ _ = false |- _ => apply one_of_false in H end;
  repeat match goal with H : Forall _ (_ :: _) |- _ => apply Forall_cons_1 in H as [? H] end;
  repeat match goal with H : String.eqb _ _ = false |- _ => rewrite H; clear H end; reflexivity.

Lemma mouse_idle i :
  one_of (type (env i)) ["mouse_move"; "mouse_button"; "mouse_wheel"] = false →
  InputMouse.OnInputEvent i = mret tt.
Proof. intros H. unfold InputMouse.OnInputEvent. not_mine. Qed.
Lemma keyboard_idle i :
  one_of (type (env i)) ["key_down"; "key_up"] = false → Keyboard_OnInputEvent i = mret tt.
Proof. intros H. unfold Keyboard_OnInputEvent. not_mine. Qed.
Lemma ime_idle i :
  one_of (type (env i)) ["composition_start"; "composition_update"; "composition_end";
    "composition_cancel"] = false → Ime_OnInputEvent i = mret tt.
Proof. intros H. unfold Ime_OnInputEvent. cbv zeta. not_mine. Qed.
Lemma touch_idle i :
  one_of (type (env i)) ["touch_start"; "touch_move"; "touch_end"; "touch_cancel"] = false →
  Touch_OnInputEvent order i = mret tt.
Proof. intros H. unfold Touch_OnInputEvent. cbv zeta. not_mine. Qed.
Lemma drag_idle m i :
  one_of (type (env i)) ["drag_start"; "drag_over"; "drop"; "drag_end"] = false →
  Drag_OnInputEvent FilterDropData m i = mret tt.
Proof. intros H. unfold Drag_OnInputEvent. cbv zeta. not_mine. Qed.
Lemma clipboard_idle i :
  String.eqb (type (env i)) "clipboard_copy_request" = false → Clipboard_OnInputEvent i = mret tt.
Proof. intros H. unfold Clipboard_OnInputEvent. by rewrite H. Qed.

Definition skip (m : M unit) : Prop := ∀ s, m s = (tt, s, []).
Lemma skip_l m (k : M unit) s : skip m → (m;; k) s = k s.
Proof. intros H. unfold mbind, eff_bind. rewrite H. by destruct (k s) as [[? ?] ?]. Qed.
Lemma skip_r m (k : M unit) s : skip k → (m;; k) s = m s.
Proof.
  intros H. unfold mbind, eff_bind. destruct (m s) as [[[] s'] es]. by rewrite H, app_nil_r.
Qed.
Lemma skip_mouse : skip (with_mouse (mret tt)).
Proof. by intros []. Qed.
Lemma skip_modifiers : skip (with_modifiers (mret tt)).
Proof. by intros []. Qed.
Lemma skip_ime : skip (with_ime (mret tt)).
Proof. by intros []. Qed.
Lemma skip_touch : skip (with_touch (mret tt)).
Proof. by intros []. Qed.
Lemma skip_drag : skip (with_drag (mret tt)).
Proof. by intros []. Qed.

Lemma one_of_other s l l' :
  one_of s l = true → forallb (λ t, negb (one_of t l')) l = true → one_of s l' = false.
Proof.
  unfold one_of at 1. intros (t & Ht & ->%String.eqb_eq)%existsb_exists Hl.
  rewrite forallb_forall in Hl. by apply negb_true_iff, Hl.
Qed.

Definition last_two (i : ui_input) : M unit :=
  s ← eget;
  with_drag (Drag_OnInputEvent FilterDropData (Some (mouse_ s)) i);;
  with_modifiers (Clipboard_OnInputEvent i).

Lemma last_two_skip i :
  one_of (type (env i)) ["drag_start"; "drag_over"; "drop"; "drag_end"; "clipboard_copy_request"] = false →
  skip (last_two i).
Proof.
  intros H s. apply one_of_false in H. repeat (apply Forall_cons_1 in H as [? H]).
  unfold last_two. rewrite get_run, drag_idle by (apply one_of_false; by repeat constructor).
  rewrite (skip_l _ _ _ skip_drag), clipboard_idle by done. apply skip_modifiers.
Qed.

Lemma skip_seq m k : skip m → skip k → skip (m;; k).
Proof. intros Hm Hk s. rewrite skip_l by done. apply Hk. Qed.

(** The six offers come down to the routed one. *)
Lemma offers_routed i s :
  (with_mouse (InputMouse.OnInputEvent i);; with_modifiers (Keyboard_OnInputEvent i);;
   with_ime (Ime_OnInputEvent i);; with_touch (Touch_OnInputEvent order i);; last_two i) s =
  handled_by (route (type (env i))) i s s.
Proof.
  unfold route.
  destruct (one_of _ ["mouse_move"; _; _]) eqn:Hm.
  { rewrite keyboard_idle, ime_idle, touch_idle by (by apply (one_of_other _ _ _ Hm)).
    apply skip_r. repeat apply skip_seq; eauto using skip_modifiers, skip_ime, skip_touch.
    apply last_two_skip. by apply (one_of_other _ _ _ Hm). }
  rewrite mouse_idle, skip_l by auto using skip_mouse.
  destruct (one_of _ ["key_down"; _]) eqn:Hk.
  { rewrite ime_idle, touch_idle by (by apply (one_of_other _ _ _ Hk)).
    apply skip_r. repeat apply skip_seq; eauto using skip_ime, skip_touch.
    apply last_two_skip. by apply (one_of_other _ _ _ Hk). }
  rewrite keyboard_idle, skip_l by auto using skip_modifiers.
  destruct (one_of _ ["composition_start"; _; _; _]) eqn:Hi.
  { rewrite touch_idle by (by apply (one_of_other _ _ _ Hi)).
    apply skip_r. repeat apply skip_seq; eauto using skip_touch.
    apply last_two_skip. by apply (one_of_other _ _ _ Hi). }
  rewrite ime_idle, skip_l by auto using skip_ime.
  destruct (one_of _ ["touch_start"; _; _; _]) eqn:Ht.
  { apply skip_r, last_two_skip. by apply (one_of_other _ _ _ Ht). }
  rewrite touch_idle, skip_l by auto using skip_touch. unfold last_two. rewrite get_run.
  destruct (one_of _ ["drag_start"; _; _; _]) eqn:Hd.
  { rewrite clipboard_idle; [apply skip_r, skip_modifiers|].
    assert (one_of (type (env i)) ["clipboard_copy_request"] = false) as Hc
      by (by apply (one_of_other _ _ _ Hd)). apply one_of_false in Hc. by apply Forall_cons_1 in Hc as [? _]. }
  rewrite drag_idle, skip_l by auto using skip_drag.
  destruct (String.eqb (type (env i)) "clipboard_copy_request") eqn:Hc; [done|].
  rewrite clipboard_idle by done. apply skip_modifiers.
Qed.

Lemma bind_after_emit b e (k k' : M unit) s :
  k s = k' s → (ewhen b (emit e);; k) s = (ewhen b (emit e);; k') s.
Proof. intros H. destruct b; unfold mbind, eff_bind, ewhen, emit, mret, eff_ret; by rewrite H. Qed.

(** Routing: every envelope is handled by exactly the component its type
    names, which runs as if it were alone, and changes nothing in the other
    five; of the types the decoder lets through exactly three are handled by
    nobody: [mouse_enter], [mouse_leave] and [clipboard_paste]. *)
Theorem input_routing i s :
  Composite_OnInputEvent i s =
    (ewhen (on_copy_gesture_ s && IsCopyGesture (env i)) (emit CopyGesture);;
     handled_by (route (type (env i))) i s) s ∧
  filter (λ ty, route ty = None) kKnownInputTypes = ["clipboard_paste"; "mouse_enter"; "mouse_leave"].
Proof.
  split; [|by vm_compute]. unfold Composite_OnInputEvent. rewrite get_run.
  apply bind_after_emit, offers_routed.
Qed.

(** The mouse runs on the viewer's inputs as if it were alone. *)
Lemma composite_mouse i s :
  mouse_ (exec (Composite_OnInputEvent i) s) = exec (InputMouse.OnInputEvent i) (mouse_ s).
Proof.
  unfold Composite_OnInputEvent. rewrite exec_get, exec_bind.
  assert (∀ b, exec (ewhen b (emit CopyGesture) : M unit) s = s) as -> by (by intros []).
  unfold with_mouse, with_modifiers, with_ime, with_touch, with_drag.
  rewrite !exec_bind, !zoom_exec. reflexivity.
Qed.

Lemma composite_mouse_run ins s :
  mouse_ (exec (run Composite_OnInputEvent ins) s) = exec (run InputMouse.OnInputEvent ins) (mouse_ s).
Proof.
  revert s. unfold run. induction ins as [|i ins IH]; intros s; [done|].
  rewrite !fmap_cons. cbn [eseq]. by rewrite !exec_bind, IH, composite_mouse.
Qed.

Lemma no_button_edge m ins :
  m ∈ key_modifiers → last_press m (button_edge <$> ins) = false.
Proof.
  intros Hm. unfold last_press. assert (m ∉ button_modifiers) as Hn.
  { unfold button_modifiers, key_modifiers in *. set_solver. }
  induction ins as [|i ins IH] using rev_ind; [done|].
  rewrite fmap_app, fold_left_app. simpl. destruct (button_edge i) as [[dn m']|] eqn:He; [|exact IH].
  apply button_edge_in in He. case_bool_decide; [by subst|exact IH].
Qed.

(** Keyboard modifiers never reach the mouse: in every execution of the six
    dispatchers together, whatever modifier keys the viewer holds, each mouse
    and wheel event that is forwarded says that no modifier key is down. *)
Theorem mouse_never_sees_modifiers pre i m :
  m ∈ key_modifiers → route (type (env i)) = Some Mouse →
  let s := exec (run Composite_OnInputEvent pre) CbInputDispatchCompositeDelegate in
  Forall (λ v, has m v = false) (omap call_modifiers (events (Composite_OnInputEvent i) s)).
Proof.
  intros Hm Hr s. destruct (input_routing i s) as [Hrun _]. rewrite Hr in Hrun.
  unfold events. rewrite Hrun. cbn [handled_by].
  change (((ewhen _ _;; ?k) s).2) with (events (ewhen (on_copy_gesture_ s && IsCopyGesture (env i)) (emit CopyGesture);; k) s).
  rewrite events_bind, omap_app.
  assert (∀ b, exec (ewhen b (emit CopyGesture) : M unit) s = s ∧
    omap call_modifiers (events (ewhen b (emit CopyGesture) : M unit) s) = []) as Hc by (by intros []).
  destruct (Hc (on_copy_gesture_ s && IsCopyGesture (env i))) as [-> ->]. simpl.
  unfold with_mouse. rewrite zoom_events. subst s. rewrite composite_mouse_run.
  destruct (held_buttons_exact pre i) as (_ & _ & H). eapply Forall_impl; [exact H|].
  intros v Hv. cbv beta in Hv. by rewrite Hv, no_button_edge.
Qed.
End composite.

(** ** Witness: Shift is held and the click is plain *)

#[local] Existing Instance blink_modifiers.
#[local] Existing Instance ascii_lib.
#[local] Existing Instance Numbers.defaults.

Lemma mouse_never_sees_modifiers_witness :
  let pre := [key_input "key_down" "Shift" "ShiftLeft"] in
  let click := button_input 1000 0 10 10 "down" in
  let s := exec (run (Composite_OnInputEvent map_to_list (λ d, d)) pre)
             CbInputDispatchCompositeDelegate in
  has kShiftKey (shared_modifiers_ s) = true ∧
  List.length (omap call_modifiers
    (events (Composite_OnInputEvent map_to_list (λ d, d) click) s)) = 1%nat ∧
  Forall (λ v, has kShiftKey v = false) (omap call_modifiers
    (events (Composite_OnInputEvent map_to_list (λ d, d) click) s)).
Proof.
  intros pre click s. split; [by vm_compute|]. split; [by vm_compute|].
  apply (mouse_never_sees_modifiers map_to_list (λ d, d) pre click kShiftKey); [|by vm_compute].
  unfold key_modifiers. left.
Defined.
