(* ===== verification/ControlChannel.v ===== *)
(** * The control channel (capture/build-integration/cb_control_channel.{h,cc})

    Requests to the viewer that need an answer.  A continuation of type [C]
    stands for the callback of a request; running it is the event [Run].  The
    frames of the viewer arrive on the signaling thread and are [posted] to the
    UI sequence; [in_flight] holds the sends whose completion has not come back.
    A callback that calls back into the channel is an input that follows. *)

From Stdlib Require Import ZArith Lia String.
From stdpp Require Import base tactics sets strings numbers pretty list.
From S2P Require Import Prelude Values Numbers.
Open Scope string_scope.
Open Scope Z_scope.

Definition kProtocolVersion : Z := 1.
Definition kTypeRequest : string := "ui_request".
Definition kTypeResponse : string := "ui_response".
Definition kTypeEvent : string := "ui_event".
Definition kMaxInboundFrameBytes : Z := 64 * 1024.

(** ** [std::map<std::string, PendingRequest>]: entries in key order *)

Section map.
Context {V : Type}.

Fixpoint find (k : string) (m : list (string * V)) : option V :=
  match m with
  | [] => None
  | (k', v) :: m' => if String.eqb k k' then Some v else find k m'
  end.

(** [emplace] keeps an entry that is there. *)
Fixpoint emplace (k : string) (v : V) (m : list (string * V)) : list (string * V) :=
  match m with
  | [] => [(k, v)]
  | (k', v') :: m' =>
      match String.compare k k' with
      | Lt => (k, v) :: (k', v') :: m'
      | Eq => (k', v') :: m'
      | Gt => (k', v') :: emplace k v m'
      end
  end.

Fixpoint erase (k : string) (m : list (string * V)) : list (string * V) :=
  match m with
  | [] => []
  | (k', v') :: m' => if String.eqb k k' then m' else (k', v') :: erase k m'
  end.

Lemma find_in k v m : find k m = Some v → (k, v) ∈ m.
Proof.
  induction m as [|[k' v'] m IH]; simpl; [done|].
  destruct (String.eqb_spec k k') as [->|]; [intros [= ->]; left|right; auto].
Qed.

Lemma find_none k m : find k m = None ↔ k ∉ m.*1.
Proof.
  induction m as [|[k' v'] m IH]; simpl; [by split; [set_solver|]|].
  destruct (String.eqb_spec k k') as [->|]; [split; [done|set_solver]|]. set_solver.
Qed.

Lemma emplace_perm k v m : k ∉ m.*1 → emplace k v m ≡ₚ (k, v) :: m.
Proof.
  induction m as [|[k' v'] m IH]; simpl; [done|]. intros Hk.
  destruct (String.compare k k') eqn:Hc; [|done|].
  - apply String.compare_eq_iff in Hc as ->. set_solver.
  - rewrite IH by set_solver. apply perm_swap.
Qed.

Lemma erase_perm k v m : find k m = Some v → m ≡ₚ (k, v) :: erase k m.
Proof.
  induction m as [|[k' v'] m IH]; simpl; [done|].
  destruct (String.eqb_spec k k') as [->|]; [by intros [= ->]|].
  intros H. rewrite perm_swap. by rewrite <-IH.
Qed.
End map.

Section channel.
Context {C : Type} {J : JsonCodec}.
Variable NumberToString : Z → string.

Record ctl := mkCtl {
  pending_ : list (string * (C * Z));   (* callback and deadline timer, ms *)
  next_seq_ : Z;
  next_request_id_ : Z;
  is_open : bool;
  wall : Z;
  in_flight : list string;
  posted : list (string * DictValue);
}.
#[export] Instance eta_ctl : Eta ctl := λ s,
  mkCtl (pending_ s) (next_seq_ s) (next_request_id_ s) (is_open s) (wall s) (in_flight s) (posted s).

Definition CbControlChannel : ctl := mkCtl [] 0 0 false 0 [] [].

Inductive event :=
| SendAsync (json : string)
| Run (c : C) (response : DictValue).
Abbreviation M := (eff ctl event).

(** [++counter] on [uint64_t]. *)
Definition next64 (n : Z) : Z := (n + 1) mod 2 ^ 64.

Definition envelope_of (ty : string) (t seq : Z) (data : DictValue) : Value :=
  VDict (Set_ "data" (VDict data) (Set_ "seq" (VDouble (double_of_Z seq))
    (Set_ "t" (VDouble (double_of_Z t)) (Set_ "type" (VString ty)
      (Set_ "v" (VInt kProtocolVersion) []))))).

Definition SendRequest (kind : string) (payload : DictValue) (deadline : Z) (callback : C) : M unit :=
  s ← eget;
  if negb (is_open s) then emit (Run callback [])
  else
    let n := next64 (next_request_id_ s) in
    let id := NumberToString n in
    let data := Set_ "deadline_ms" (VInt (wrap32 deadline))
                  (Set_ "kind" (VString kind) (Set_ "id" (VString id) payload)) in
    let seq := next64 (next_seq_ s) in
    emod (λ s, s <| next_request_id_ := n |> <| next_seq_ := seq |>);;
    match JSONWriter_Write (envelope_of kTypeRequest (wall s) seq data) with
    | None => emit (Run callback [])
    | Some json =>
        emod (λ s, s <| pending_ := emplace id (callback, deadline) (pending_ s) |>);;
        emit (SendAsync json);;
        emod (λ s, s <| in_flight := (in_flight s ++ [id])%list |>)
    end.

Definition SendEvent (kind : string) (payload : DictValue) : M unit :=
  s ← eget;
  if negb (is_open s) then mret tt
  else
    let data := Set_ "kind" (VString kind) payload in
    let seq := next64 (next_seq_ s) in
    emod (λ s, s <| next_seq_ := seq |>);;
    match JSONWriter_Write (envelope_of kTypeEvent (wall s) seq data) with
    | None => mret tt
    | Some json => emit (SendAsync json)
    end.

Definition CancelAllPending : M unit :=
  s ← eget;
  let drained := pending_ s in
  emod (λ s, s <| pending_ := [] |>);;
  eseq ((λ e, emit (Run e.2.1 [])) <$> drained).

Definition ResolvePending (id : string) (response : DictValue) : M unit :=
  s ← eget;
  match find id (pending_ s) with
  | None => mret tt
  | Some (callback, _) =>
      emod (λ s, s <| pending_ := erase id (pending_ s) |>);;
      emit (Run callback response)
  end.

(** The request id and the data of a frame that is a response. *)
Definition parse_response (raw : string) : option (string * DictValue) :=
  match JSONReader_Read raw with
  | Some (VDict envelope) =>
      match FindInt "v" envelope with
      | Some v =>
          if negb (v =? kProtocolVersion) then None
          else
            match FindString "type" envelope with
            | Some ty =>
                if negb (String.eqb ty kTypeResponse) then None
                else
                  match FindDict "data" envelope with
                  | None => None
                  | Some data =>
                      match FindString "id" data with
                      | Some id => if String.eqb id "" then None else Some (id, data)
                      | None => None
                      end
                  end
            | None => None
            end
      | None => None
      end
  | _ => None
  end.

Definition HandleInboundJson (raw : string) : M unit :=
  match parse_response raw with
  | None => mret tt
  | Some r => emod (λ s, s <| posted := (posted s ++ [r])%list |>)
  end.

Definition OnMessage (binary : bool) (raw : string) : M unit :=
  if binary then mret tt
  else if kMaxInboundFrameBytes <? Z.of_nat (String.length raw) then mret tt
  else HandleInboundJson raw.

(** The channel does not act on state changes or on the buffered amount. *)
Definition OnStateChange : M unit := mret tt.
Definition OnBufferedAmountChange : M unit := mret tt.
Definition IsOkToCallOnTheNetworkThread : bool := false.

Inductive input :=
| Request (kind : string) (payload : DictValue) (deadline : Z) (callback : C)
| Event (kind : string) (payload : DictValue)
| Cancel
| Message (binary : bool) (raw : string)
| RunPosted                          (* the UI sequence takes a posted response *)
| Deadline (id : string)             (* the timer of a pending request fires *)
| SendDone (id : string) (ok : bool) (* the completion of a send *)
| ChannelOpen (b : bool)
| StateChanged
| Tick (t : Z).

Definition handle (i : input) : M unit :=
  match i with
  | Request kind payload deadline callback => SendRequest kind payload deadline callback
  | Event kind payload => SendEvent kind payload
  | Cancel => CancelAllPending
  | Message binary raw => OnMessage binary raw
  | RunPosted =>
      s ← eget;
      match posted s with
      | [] => mret tt
      | (id, d) :: rest => emod (λ s, s <| posted := rest |>);; ResolvePending id d
      end
  | Deadline id => ResolvePending id []
  | SendDone id ok =>
      s ← eget;
      emod (λ s, s <| in_flight := filter (λ id', id' ≠ id) (in_flight s) |>);;
      ewhen (negb ok) (ResolvePending id [])
  | ChannelOpen b => emod (λ s, s <| is_open := b |>)
  | StateChanged => OnStateChange
  | Tick t => emod (λ s, s <| wall := t |>)
  end.

(** A timer runs while its entry is pending; a completion answers a send. *)
Definition enabled (i : input) (s : ctl) : bool :=
  match i with
  | RunPosted => match posted s with [] => false | _ => true end
  | Deadline id => match find id (pending_ s) with Some _ => true | None => false end
  | SendDone id _ => existsb (String.eqb id) (in_flight s)
  | _ => true
  end.

(** ** Where responses come from *)

Lemma Cancel_run (l : list (string * (C * Z))) s :
  eseq ((λ e, emit (Run e.2.1 []) : M unit) <$> l) s = (tt, s, (λ e, Run e.2.1 []) <$> l).
Proof.
  induction l as [|e l IH]; [done|]. rewrite !fmap_cons. cbn [eseq].
  unfold mbind at 1, eff_bind. unfold emit at 1. rewrite IH. done.
Qed.

Lemma CancelAllPending_run s :
  CancelAllPending s = (tt, s <| pending_ := [] |>, (λ e, Run e.2.1 []) <$> pending_ s).
Proof. unfold CancelAllPending. rewrite get_run, mod_run. apply Cancel_run. Qed.

Lemma run_step ins i s :
  exec (run handle (ins ++ [i])%list) s = exec (handle i) (exec (run handle ins) s) ∧
  events (run handle (ins ++ [i])%list) s =
    (events (run handle ins) s ++ events (handle i) (exec (run handle ins) s))%list.
Proof.
  destruct (run_app handle ins [i] s) as [-> ->]. by unfold exec, events; rewrite run_one.
Qed.

(** The responses the viewer has sent. *)
Definition answers (ins : list input) : list (string * DictValue) :=
  omap (λ i, match i with
    | Message false raw =>
        if kMaxInboundFrameBytes <? Z.of_nat (String.length raw) then None else parse_response raw
    | _ => None
    end) ins.

Lemma Resolve_runs id d s c r :
  Run c r ∈ events (ResolvePending id d) s → r = d.
Proof.
  unfold ResolvePending. rewrite events_get. destruct (find id (pending_ s)) as [[c' dl]|]; simpl; [|set_solver].
  intros H. apply list_elem_of_singleton in H. by injection H.
Qed.

Lemma Resolve_posted id d s : posted (exec (ResolvePending id d) s) = posted s.
Proof.
  unfold ResolvePending. rewrite exec_get. by destruct (find id (pending_ s)) as [[c dl]|].
Qed.

Ltac few_events :=
  split; [by intros; left|];
  intros ? ? Hin; repeat (apply elem_of_cons in Hin as [Hin|Hin];
    [first [discriminate Hin | injection Hin; by left]|]); by apply elem_of_nil in Hin.

Lemma step_answers i s :
  (∀ x, x ∈ posted (exec (handle i) s) → x ∈ posted s ∨ x ∈ answers [i]) ∧
  ∀ c d, Run c d ∈ events (handle i) s → d = [] ∨ ∃ id, (id, d) ∈ posted s.
Proof.
  destruct i as [kind payload dl c|kind payload| |b raw| |id|id ok|b| |t]; simpl.
  - unfold SendRequest. rewrite exec_get, events_get.
    destruct (is_open s); [destruct (JSONWriter_Write _)|]; run_eff; few_events.
  - unfold SendEvent. rewrite exec_get, events_get.
    destruct (is_open s); [destruct (JSONWriter_Write _)|]; run_eff; few_events.
  - unfold exec, events. rewrite CancelAllPending_run. simpl. split; [by left|].
    intros c d (e & He & _)%list_elem_of_fmap. left. by injection He.
  - unfold answers, OnMessage, HandleInboundJson. simpl.
    destruct b; [run_eff; few_events|]. destruct (kMaxInboundFrameBytes <? _); [run_eff; few_events|].
    destruct (parse_response raw) as [r|]; run_eff; [|few_events]. split.
    + intros x [?|?]%elem_of_app; [by left|by right].
    + by intros ? ? ?%elem_of_nil.
  - rewrite exec_get, events_get. destruct (posted s) as [|[id d] rest] eqn:Hp.
    { run_eff. rewrite Hp. few_events. }
    rewrite exec_mod, events_mod, Resolve_posted. simpl. split; [by left; right|].
    intros c r ->%Resolve_runs. right. exists id. left.
  - rewrite Resolve_posted. split; [by left|]. intros c d ->%Resolve_runs. by left.
  - rewrite exec_get, events_get, exec_mod, events_mod. destruct ok; simpl; [run_eff; few_events|].
    rewrite Resolve_posted. split; [by left|]. intros c d ->%Resolve_runs. by left.
  - run_eff; few_events.
  - run_eff; few_events.
  - run_eff; few_events.
Qed.

(** Every response a callback gets is empty or the viewer's. *)
Lemma posted_are_answers ins :
  (∀ x, x ∈ posted (exec (run handle ins) CbControlChannel) → x ∈ answers ins) ∧
  ∀ c d, Run c d ∈ events (run handle ins) CbControlChannel → d = [] ∨ ∃ id, (id, d) ∈ answers ins.
Proof.
  induction ins as [|i ins [IH1 IH2]] using rev_ind.
  { split; [by intros ? ?%elem_of_nil|by intros ? ? ?%elem_of_nil]. }
  destruct (run_step ins i CbControlChannel) as [-> ->].
  destruct (step_answers i (exec (run handle ins) CbControlChannel)) as [H1 H2].
  assert (answers (ins ++ [i])%list = (answers ins ++ answers [i])%list) as -> by apply omap_app.
  setoid_rewrite elem_of_app. split; [intros x [?|?]%H1; auto|]. intros c d [?|H].
  - destruct (IH2 c d) as [->|[id ?]]; [done|by left|]. right. exists id. by left.
  - destruct (H2 c d H) as [->|[id ?]]; [by left|]. right. exists id. auto.
Qed.

(** ** Exactly once *)

Hypothesis NumberToString_inj : ∀ a b, NumberToString a = NumberToString b → a = b.

Definition request_of (i : input) : option C :=
  match i with Request _ _ _ c => Some c | _ => None end.
Definition ran (e : event) : option C := match e with Run c _ => Some c | _ => None end.
Definition waiting (s : ctl) : list C := (λ e, e.2.1) <$> pending_ s.

(** The ids in use were minted from the counter. *)
Definition ids_ok (s : ctl) : Prop :=
  0 ≤ next_request_id_ s ∧ NoDup (pending_ s).*1 ∧
  ∀ k, k ∈ (pending_ s).*1 → ∃ m, 0 < m ≤ next_request_id_ s ∧ k = NumberToString m.

(** [n] more requests can be minted before the counter wraps around. *)
Definition step_rel (n : Z) (req : option C) (s : ctl) (es : list event) (s' : ctl) : Prop :=
  ids_ok s' ∧ next_request_id_ s' ≤ next_request_id_ s + n ∧
  option_list req ++ waiting s ≡ₚ omap ran es ++ waiting s'.

Lemma erase_keys {V} k (v : V) m : find k m = Some v → NoDup m.*1 →
  NoDup (erase k m).*1 ∧ ∀ k', k' ∈ (erase k m).*1 → k' ∈ m.*1.
Proof.
  intros Hf Hnd. pose proof (erase_perm _ _ _ Hf) as Hp.
  apply (fmap_Permutation fst) in Hp. rewrite Hp in Hnd. simpl in Hnd.
  apply NoDup_cons in Hnd as [_ Hnd]. split; [done|]. intros k' Hk'. rewrite Hp. by right.
Qed.

Lemma Resolve_step id d s : ids_ok s →
  step_rel 0 None s (events (ResolvePending id d) s) (exec (ResolvePending id d) s).
Proof.
  intros (H0 & Hnd & Hids). unfold ResolvePending. rewrite exec_get, events_get.
  destruct (find id (pending_ s)) as [[c dl]|] eqn:Hf; unfold step_rel, ids_ok, waiting; run_eff.
  - destruct (erase_keys _ _ _ Hf Hnd) as [Hnd' Hk].
    split; [split_and!; [done|done|]; intros k ?; by apply Hids, Hk|]. split; [lia|].
    by rewrite (erase_perm _ _ _ Hf) at 1.
  - split; [done|]. split; [lia|done].
Qed.

Lemma Resolve_after id d s s' :
  ids_ok s → pending_ s' = pending_ s → next_request_id_ s' = next_request_id_ s →
  step_rel 0 None s (events (ResolvePending id d) s') (exec (ResolvePending id d) s').
Proof.
  intros Hs Hp Hn. pose proof (Resolve_step id d s') as H.
  unfold step_rel, ids_ok, waiting in *. rewrite Hp, Hn in H. by apply H.
Qed.

Lemma ran_drained (l : list (string * (C * Z))) :
  omap ran ((λ e, Run e.2.1 []) <$> l) = (λ e, e.2.1) <$> l.
Proof. induction l as [|e l IH]; [done|]. rewrite !fmap_cons. cbn [omap list_omap ran]. by rewrite <-IH. Qed.

Lemma Request_step kind payload dl c s :
  ids_ok s → next_request_id_ s < 2 ^ 64 - 1 →
  step_rel 1 (Some c) s (events (SendRequest kind payload dl c) s)
    (exec (SendRequest kind payload dl c) s).
Proof.
  intros Hids Hn. pose proof Hids as (H0 & Hnd & Hk). unfold SendRequest.
  rewrite exec_get, events_get. destruct (is_open s); cbn [negb]; [|unfold step_rel; split; [done|]; split; [run_eff; lia|done]].
  assert (next64 (next_request_id_ s) = next_request_id_ s + 1) as ->
    by (unfold next64; rewrite Z.mod_small; lia).
  cbv zeta. destruct (JSONWriter_Write _) as [json|]; unfold step_rel, ids_ok, waiting; run_eff.
  - assert (NumberToString (next_request_id_ s + 1) ∉ (pending_ s).*1) as Hnew.
    { intros (m & Hm & He%NumberToString_inj)%Hk. lia. }
    pose proof (emplace_perm _ (c, dl) _ Hnew) as Hp.
    pose proof (fmap_Permutation fst _ _ Hp) as Hp1. simpl in Hp1.
    split; [split_and!; [lia| |]|split; [lia|]].
    + rewrite Hp1. by apply NoDup_cons.
    + intros k. rewrite Hp1, elem_of_cons. intros [->|(m & ? & ->)%Hk].
      * exists (next_request_id_ s + 1). split; [lia|done].
      * exists m. split; [lia|done].
    + by rewrite Hp.
  - split; [split_and!; [lia|done|]|split; [lia|done]].
    intros k (m & ? & ->)%Hk. exists m. split; [lia|done].
Qed.

Lemma channel_step i s :
  ids_ok s → next_request_id_ s < 2 ^ 64 - 1 →
  step_rel 1 (request_of i) s (events (handle i) s) (exec (handle i) s).
Proof.
  intros Hids Hn. assert (∀ s' es, step_rel 0 None s es s' → step_rel 1 None s es s') as Hweak.
  { intros s' es (? & ? & ?). split; [done|]. split; [lia|done]. }
  assert (step_rel 0 None s [] s) as Hrefl by (split; [done|]; split; [lia|done]).
  destruct i as [kind payload dl c|kind payload| |b raw| |id|id ok|b| |t]; simpl.
  - by apply Request_step.
  - apply Hweak. unfold SendEvent. rewrite exec_get, events_get.
    destruct (is_open s); [|exact Hrefl]. cbn [negb]. cbv zeta.
    destruct (JSONWriter_Write _); (split; [exact Hids|]; split; [run_eff; lia|done]).
  - apply Hweak. unfold exec, events. rewrite CancelAllPending_run. unfold step_rel, ids_ok. simpl.
    split; [split_and!; [apply Hids|constructor|set_solver]|]. split; [lia|].
    by rewrite app_nil_r, ran_drained.
  - apply Hweak. unfold OnMessage, HandleInboundJson. destruct b; [exact Hrefl|].
    destruct (kMaxInboundFrameBytes <? _); [exact Hrefl|]. by destruct (parse_response raw).
  - apply Hweak. rewrite exec_get, events_get. destruct (posted s) as [|[id d] rest]; [exact Hrefl|].
    rewrite exec_mod, events_mod. by apply Resolve_after.
  - by apply Hweak, Resolve_step.
  - apply Hweak. rewrite exec_get, events_get, exec_mod, events_mod.
    destruct ok; [by split; [|split; [simpl; lia|]]|]. simpl.
    by apply Resolve_after.
  - apply Hweak. split; [exact Hids|]. split; [run_eff; lia|done].
  - apply Hweak, Hrefl.
  - apply Hweak. split; [exact Hids|]. split; [run_eff; lia|done].
Qed.

Lemma channel_run ins :
  Z.of_nat (List.length ins) < 2 ^ 64 →
  let s := exec (run handle ins) CbControlChannel in
  ids_ok s ∧ next_request_id_ s ≤ Z.of_nat (List.length ins) ∧
  omap request_of ins ≡ₚ omap ran (events (run handle ins) CbControlChannel) ++ waiting s.
Proof.
  cbv zeta. induction ins as [|i ins IH] using rev_ind; intros Hlen.
  { split; [split_and!; [done|constructor|set_solver]|done]. }
  rewrite length_app in Hlen |- *. simpl in Hlen. destruct IH as (Hids & Hn & Hp); [lia|].
  destruct (run_step ins i CbControlChannel) as [-> ->].
  set (s := exec (run handle ins) CbControlChannel) in *.
  destruct (channel_step i s Hids) as (Hids' & Hn' & Hp'); [lia|].
  split; [exact Hids'|]. split; [simpl; lia|].
  assert (omap request_of (ins ++ [i])%list = (omap request_of ins ++ option_list (request_of i))%list) as ->.
  { rewrite omap_app. simpl. by destruct (request_of i). }
  rewrite omap_app, <-(assoc_L (++)), <-Hp', Hp, <-!(assoc_L (++)).
  apply Permutation_app_head, Permutation_app_comm.
Qed.

(** C5. Every request is resolved exactly once: in every execution of fewer than
    2^64 steps, whatever the viewer, the transport and the timers do, the
    callbacks that ran and the ones still waiting are exactly the ones that
    were handed over; and cancelling leaves none waiting. *)
Theorem request_resolved_once ins :
  Z.of_nat (List.length ins) < 2 ^ 64 →
  let s := exec (run handle ins) CbControlChannel in
  let tr := events (run handle ins) CbControlChannel in
  omap request_of ins ≡ₚ omap ran tr ++ waiting s ∧
  omap request_of ins ≡ₚ omap ran (tr ++ events CancelAllPending s)%list ∧
  pending_ (exec CancelAllPending s) = [].
Proof.
  intros Hlen. cbv zeta. destruct (channel_run ins Hlen) as (_ & _ & Hp).
  split; [exact Hp|]. unfold exec at 2, events at 2. rewrite CancelAllPending_run. simpl.
  split; [|done]. by rewrite omap_app, ran_drained.
Qed.

Lemma find_erase {V} k (m : list (string * V)) : NoDup m.*1 → find k (erase k m) = None.
Proof.
  intros Hnd. destruct (find k m) as [v|] eqn:Hf.
  - pose proof (erase_perm _ _ _ Hf) as Hp. apply (fmap_Permutation fst) in Hp. rewrite Hp in Hnd.
    apply find_none. simpl in Hnd. by apply NoDup_cons in Hnd as [? _].
  - assert (erase k m = m) as ->; [|done]. clear Hnd. induction m as [|[k' v'] m IH]; [done|].
    simpl in *. destruct (String.eqb k k'); [done|]. by rewrite IH.
Qed.

(** The viewer's first answer decides: while a request is waiting, a response
    frame that names it runs its callback with exactly the frame's data, and
    the same frame again, late timers and a failed send change nothing any
    more. *)
Theorem first_answer_decides ins raw id d c dl :
  let s := exec (run handle ins) CbControlChannel in
  Z.of_nat (List.length ins) < 2 ^ 64 →
  find id (pending_ s) = Some (c, dl) → posted s = [] →
  parse_response raw = Some (id, d) → Z.of_nat (String.length raw) ≤ kMaxInboundFrameBytes →
  events (run handle [Message false raw; RunPosted; Message false raw; RunPosted; Deadline id;
                      SendDone id false]) s = [Run c d].
Proof.
  cbv zeta. intros Hlen Hf Hp Hr Hsz. destruct (channel_run ins Hlen) as ((_ & Hnd & _) & _ & _).
  revert Hf Hp Hnd. generalize (exec (run handle ins) CbControlChannel). intros s Hf Hp Hnd.
  assert ((kMaxInboundFrameBytes <? Z.of_nat (String.length raw)) = false) as Hlt
    by (apply Z.ltb_ge; lia).
  pose proof (find_erase id (pending_ s) Hnd) as Hgone.
  unfold run. rewrite !fmap_cons, fmap_nil. unfold handle, OnMessage, HandleInboundJson, ResolvePending.
  rewrite Hlt, Hr. cbn [eseq]. run_eff. rewrite Hp. simpl. rewrite Hf. simpl. rewrite Hgone. simpl.
  rewrite Hgone. simpl. by rewrite Hgone.
Qed.
End channel.

(** ** Witnesses *)

#[local] Existing Instance BitsCodec.bits_codec.
Definition show (n : Z) : string := pretty n.
Lemma show_inj a b : show a = show b → a = b.
Proof. apply (inj pretty). Qed.

Definition reply : string :=
  BitsCodec.bits (BitsCodec.to_pos (VDict
    [("data", VDict [("id", VString "1")]); ("type", VString "ui_response"); ("v", VInt 1)])).
Definition two_requests : list (@input nat) :=
  [ChannelOpen true; Request "k" [] 5 10%nat; Request "k" [] 5 11%nat].

Lemma request_resolved_once_witness :
  omap ran (events (run (handle show) (two_requests ++ [Message false reply; RunPosted])%list)
    CbControlChannel) = [10%nat] ∧
  [10%nat; 11%nat] ≡ₚ omap ran (events (run (handle show) (two_requests ++ [Message false reply; RunPosted])%list)
    CbControlChannel ++ events CancelAllPending (exec (run (handle show)
      (two_requests ++ [Message false reply; RunPosted])%list) CbControlChannel))%list.
Proof.
  split; [by vm_compute|].
  refine (proj1 (proj2 (request_resolved_once show show_inj
    (two_requests ++ [Message false reply; RunPosted])%list _))). by vm_compute.
Defined.

Lemma first_answer_decides_witness :
  events (run (handle show) [Message false reply; RunPosted; Message false reply; RunPosted;
    Deadline "1"; SendDone "1" false]) (exec (run (handle show) two_requests) CbControlChannel) =
  [Run 10%nat [("id", VString "1")]].
Proof.
  apply (first_answer_decides show show_inj two_requests reply "1" _ 10%nat 5); by vm_compute.
Defined.
