(* ===== verification/Prompts.v ===== *)
(** * The questions a session asks its viewer
      (capture/build-integration/cb_javascript_dialog_manager.{h,cc},
       cb_permission_manager.{h,cc}, cb_login_delegate.{h,cc},
       content_browser_client.cc [AllowCertificateError],
       cb_web_contents_delegate.cc [SetSessionContext, RunFileChooser])

    The clients of the control channel.  A callback handed to the channel is a
    [prompt]; [answer] is its body: what the page or the network stack is told
    for a response of the viewer. *)

From Stdlib Require Import ZArith Lia String Ascii.
From stdpp Require Import base tactics sets strings numbers pretty list.
From S2P Require Import Prelude Values Numbers ControlChannel.
Open Scope string_scope.
Open Scope Z_scope.

Inductive JavaScriptDialogType := ALERT | CONFIRM | PROMPT.
Inductive PermissionStatus := GRANTED | DENIED | ASK.

(** The callbacks, with what they captured; [page] names the caller's own callback. *)
Inductive prompt :=
| JsDialog (page : nat) (default_accept : bool)
| BeforeUnload (page : nat)
| PermissionAsk (page : nat) (count : nat)
| LoginAsk (page : nat)
| CertError (page : nat)
| FileChooserAsk (page : nat).

(** What the asker is told. *)
Inductive outcome :=
| DialogClosed (accept : bool) (text : list Z)
| PermissionResults (l : list PermissionStatus)
| AuthRequired (credentials : option (list Z * list Z))
| CertificateResult (proceed : bool)
| ChooserCancelled
| UploadComing.

Definition kDialogDeadline : Z := 60000.
Definition kPermissionDeadline : Z := 90000.
Definition kLoginDeadline : Z := 120000.
Definition kFileChooserDeadline : Z := 300000.
Definition kCertDeadline : Z := 120000.
Definition kMaxMessageChars : nat := 4 * 1024.

Definition DialogTypeName (t : JavaScriptDialogType) : string :=
  match t with ALERT => "alert" | CONFIRM => "confirm" | PROMPT => "prompt" end.
Definition DefaultAcceptFor (t : JavaScriptDialogType) : bool :=
  match t with ALERT => true | CONFIRM | PROMPT => false end.
Definition AllDenied (n : nat) : list PermissionStatus := replicate n DENIED.

Section prompts.
Context {J : JsonCodec} {T : TextLib}.
Variable NumberToString : Z → string.

Definition ellipsis : string := String "226" (String "128" (String "166" "[truncated]")).
Definition TruncateUtf8 (s : list Z) : string :=
  if (List.length s <=? kMaxMessageChars)%nat then UTF16ToUTF8 s
  else (UTF16ToUTF8 (take kMaxMessageChars s) ++ ellipsis)%string.

(** The body of each callback. *)
Definition answer (p : prompt) (response : DictValue) : outcome :=
  match p with
  | JsDialog _ default_accept =>
      match FindBool "accept" response with
      | None => DialogClosed default_accept []
      | Some accept =>
          DialogClosed accept
            (match FindString "prompt_text" response with Some t => to_utf16 t | None => [] end)
      end
  | BeforeUnload _ => DialogClosed (default true (FindBool "accept" response)) []
  | PermissionAsk _ count =>
      PermissionResults
        (replicate count (if default false (FindBool "granted" response) then GRANTED else DENIED))
  | LoginAsk _ =>
      match FindString "username" response, FindString "password" response with
      | Some u, Some p => AuthRequired (Some (to_utf16 u, to_utf16 p))
      | _, _ => AuthRequired None
      end
  | CertError _ => CertificateResult (default false (FindBool "proceed" response))
  | FileChooserAsk _ =>
      if default false (FindBool "accept" response) then UploadComing else ChooserCancelled
  end.

(** ** State *)

Record prompts := mkPrompts {
  has_channel : bool;               (* [control_channel_] is set *)
  chan : @ctl prompt;
  posted_login : list nat;          (* answers posted by login delegates without a channel *)
}.
#[export] Instance eta_prompts : Eta prompts := λ s,
  mkPrompts (has_channel s) (chan s) (posted_login s).
Definition initial : prompts := mkPrompts false CbControlChannel [].

(** A frame for the viewer, or an asker's callback being run. *)
Inductive pevent :=
| Wire (json : string)
| Outcome (p : prompt) (o : outcome).
Abbreviation M := (eff prompts pevent).

Definition lift_event (e : @event prompt) : pevent :=
  match e with SendAsync json => Wire json | Run p d => Outcome p (answer p d) end.
Definition on_channel {A} (m : eff (@ctl prompt) event A) : M A := λ s,
  let '(a, c, es) := m (chan s) in (a, s <| chan := c |>, lift_event <$> es).

Definition SetSessionContext (control_channel : bool) : M unit :=
  emod (λ s, s <| has_channel := control_channel |>).

(** Ask the viewer, or take the default there and then. *)
Definition ask_or (no_channel : M unit) (kind : string) (payload : DictValue) (deadline : Z)
    (p : prompt) : M unit :=
  s ← eget;
  if negb (has_channel s) then no_channel
  else on_channel (SendRequest NumberToString kind payload deadline p).

(** ** JavaScript dialogs *)

Definition AskOrDefault (page : nat) (dialog_type_name : string) (message_text default_prompt_text : list Z)
    (origin : string) (default_accept : bool) : M unit :=
  let payload := Set_ "origin" (VString origin)
    (Set_ "default_prompt" (VString (TruncateUtf8 default_prompt_text))
      (Set_ "message" (VString (TruncateUtf8 message_text))
        (Set_ "dialog_type" (VString dialog_type_name) []))) in
  let p := JsDialog page default_accept in
  ask_or (emit (Outcome p (DialogClosed default_accept []))) "js_dialog" payload kDialogDeadline p.

Definition RunJavaScriptDialog (page : nat) (ty : JavaScriptDialogType)
    (message_text default_prompt_text : list Z) (origin : string) : M unit :=
  AskOrDefault page (DialogTypeName ty) message_text default_prompt_text origin (DefaultAcceptFor ty).

Definition RunBeforeUnloadDialog (page : nat) (is_reload : bool) (origin : string) : M unit :=
  let payload := Set_ "origin" (VString origin) (Set_ "default_prompt" (VString "")
    (Set_ "message" (VString "") (Set_ "dialog_type" (VString "beforeunload")
      (Set_ "is_reload" (VBool is_reload) [])))) in
  ask_or (emit (Outcome (BeforeUnload page) (DialogClosed true []))) "js_dialog" payload
    kDialogDeadline (BeforeUnload page).

Definition HandleJavaScriptDialog : bool := false.

Definition CancelDialogs : M unit :=
  s ← eget; if has_channel s then on_channel CancelAllPending else mret tt.

(** ** Permissions *)

Definition AskViewer (page : nat) (origin : string) (names : list string) : M unit :=
  let count := List.length names in
  let p := PermissionAsk page count in
  if Nat.eqb count 0 then emit (Outcome p (PermissionResults []))
  else
    let payload := Set_ "permissions" (VList (VString <$> names)) (Set_ "origin" (VString origin) []) in
    ask_or (emit (Outcome p (PermissionResults (AllDenied count)))) "permission" payload
      kPermissionDeadline p.

(** [requesting] is the described origin, [committed] the frame's, if there is a frame. *)
Definition RequestPermissions (page : nat) (requesting : string) (committed : option string)
    (names : list string) : M unit :=
  let origin := if String.eqb requesting "" then default requesting committed else requesting in
  AskViewer page origin names.
Definition RequestPermissionsFromCurrentDocument (page : nat) (requesting : string)
    (committed : option string) (names : list string) : M unit :=
  AskViewer page (default requesting committed) names.

Definition GetPermissionStatus : PermissionStatus := ASK.
Definition GetPermissionResultForOriginWithoutContext : PermissionStatus := ASK.
Definition GetPermissionResultForCurrentDocument : PermissionStatus := ASK.
Definition GetPermissionResultForWorker : PermissionStatus := DENIED.
Definition GetPermissionResultForEmbeddedRequester : PermissionStatus := ASK.

(** ** HTTP authentication *)

(** The constructor; without a channel it posts the empty answer. *)
Definition CbLoginDelegate (page : nat) (url realm scheme : string) (is_proxy first_auth_attempt : bool)
    : M unit :=
  let payload := Set_ "first_attempt" (VBool first_auth_attempt) (Set_ "is_proxy" (VBool is_proxy)
    (Set_ "scheme" (VString scheme) (Set_ "realm" (VString realm) (Set_ "url" (VString url) [])))) in
  ask_or (emod (λ s, s <| posted_login := (posted_login s ++ [page])%list |>)) "login" payload
    kLoginDeadline (LoginAsk page).

Definition RunPostedLogin : M unit :=
  s ← eget;
  match posted_login s with
  | [] => mret tt
  | page :: rest =>
      emod (λ s, s <| posted_login := rest |>);;
      emit (Outcome (LoginAsk page) (answer (LoginAsk page) []))
  end.

(** ** Certificate errors *)

Definition AllowCertificateError (page : nat) (cert_error : Z) (url : string) (is_main_frame : bool)
    (names : option (string * string)) (strict_enforcement : bool) : M unit :=
  let p := CertError page in
  let deny := emit (Outcome p (CertificateResult false)) in
  if strict_enforcement then deny
  else
    let payload := Set_ "is_main_frame" (VBool is_main_frame)
      (Set_ "cert_error" (VInt cert_error) (Set_ "url" (VString url) [])) in
    let payload := match names with
      | Some (subject, issuer) => Set_ "issuer" (VString issuer) (Set_ "subject" (VString subject) payload)
      | None => payload
      end in
    ask_or deny "cert_error" payload kCertDeadline p.

(** ** File choosers, once the receiver has parked the listener *)

Definition RunFileChooser (page : nat) (accept : list string) (multiple : bool) (title : string)
    : M unit :=
  let payload := Set_ "title" (VString title) (Set_ "multiple" (VBool multiple)
    (Set_ "accept" (VList (VString <$> accept)) [])) in
  ask_or (emit (Outcome (FileChooserAsk page) ChooserCancelled)) "file_chooser" payload
    kFileChooserDeadline (FileChooserAsk page).

(** ** The system *)

Inductive question :=
| QDialog (page : nat) (ty : JavaScriptDialogType) (message default_text : list Z) (origin : string)
| QBeforeUnload (page : nat) (is_reload : bool) (origin : string)
| QPermission (page : nat) (requesting : string) (committed : option string) (names : list string)
| QPermissionHere (page : nat) (requesting : string) (committed : option string) (names : list string)
| QLogin (page : nat) (url realm scheme : string) (is_proxy first : bool)
| QCert (page : nat) (err : Z) (url : string) (main : bool) (names : option (string * string)) (strict : bool)
| QFile (page : nat) (accept : list string) (multiple : bool) (title : string).

Definition ask (q : question) : M unit :=
  match q with
  | QDialog page ty m d o => RunJavaScriptDialog page ty m d o
  | QBeforeUnload page r o => RunBeforeUnloadDialog page r o
  | QPermission page r c n => RequestPermissions page r c n
  | QPermissionHere page r c n => RequestPermissionsFromCurrentDocument page r c n
  | QLogin page u r sc p f => CbLoginDelegate page u r sc p f
  | QCert page e u m n st => AllowCertificateError page e u m n st
  | QFile page a m t => RunFileChooser page a m t
  end.

(** The channel's own inputs: everything but a request. *)
Inductive channel_input :=
| Frame (binary : bool) (raw : string) | Posted | Timer (id : string) | Sent (id : string) (ok : bool)
| Opened (b : bool) | Clock (t : Z).
Definition to_input (i : channel_input) : @input prompt :=
  match i with
  | Frame b raw => Message b raw | Posted => RunPosted | Timer id => Deadline id
  | Sent id ok => SendDone id ok | Opened b => ChannelOpen b | Clock t => Tick t
  end.

Inductive sys_input :=
| Ask (q : question)
| Channel (i : channel_input)
| Context (control_channel : bool)
| CancelAll
| LoginTask.

Definition sys_handle (i : sys_input) : M unit :=
  match i with
  | Ask q => ask q
  | Channel i => on_channel (ControlChannel.handle NumberToString (to_input i))
  | Context b => SetSessionContext b
  | CancelAll => CancelDialogs
  | LoginTask => RunPostedLogin
  end.

(** ** Nothing is granted without the viewer *)

(** The default of each question. *)
Definition safe (p : prompt) : outcome :=
  match p with
  | JsDialog _ default_accept => DialogClosed default_accept []
  | BeforeUnload _ => DialogClosed true []
  | PermissionAsk _ count => PermissionResults (replicate count DENIED)
  | LoginAsk _ => AuthRequired None
  | CertError _ => CertificateResult false
  | FileChooserAsk _ => ChooserCancelled
  end.

(** An answer that lets the page do more than the default. *)
Definition permissive (p : prompt) (o : outcome) : Prop :=
  match p, o with
  | JsDialog _ false, DialogClosed accept _ => accept = true
  | PermissionAsk _ _, PermissionResults l => GRANTED ∈ l
  | LoginAsk _, AuthRequired credentials => credentials ≠ None
  | CertError _, CertificateResult proceed => proceed = true
  | FileChooserAsk _, o => o = UploadComing
  | _, _ => False
  end.
(** The explicit yes in a response. *)
Definition consents (p : prompt) (d : DictValue) : Prop :=
  match p with
  | JsDialog _ _ | FileChooserAsk _ => FindBool "accept" d = Some true
  | PermissionAsk _ _ => FindBool "granted" d = Some true
  | LoginAsk _ => is_Some (FindString "username" d) ∧ is_Some (FindString "password" d)
  | CertError _ => FindBool "proceed" d = Some true
  | BeforeUnload _ => True
  end.

Lemma answer_default p : answer p [] = safe p.
Proof. by destruct p. Qed.

Lemma safe_not_permissive p : ¬ permissive p (safe p).
Proof.
  intros H. destruct p as [? []| | | | |]; simpl in H; try done.
  by apply elem_of_replicate in H as [? _].
Qed.

Lemma permissive_consents p d : permissive p (answer p d) → consents p d.
Proof.
  destruct p as [page []|page|page n|page|page|page]; simpl; try done.
  - destruct (FindBool "accept" d) as [b|]; simpl; [by intros ->|done].
  - destruct (FindBool "granted" d) as [[]|]; simpl; [done|by intros [? _]%elem_of_replicate..].
  - destruct (FindString "username" d), (FindString "password" d); simpl; try done.
  - destruct (FindBool "proceed" d) as [[]|]; by simpl.
  - destruct (FindBool "accept" d) as [[]|]; by simpl.
Qed.

(** The channel inputs of a system input, once the questions are put aside. *)
Definition frames_of (ins : list sys_input) : list (@input prompt) :=
  omap (λ i, match i with Channel c => Some (to_input c) | _ => None end) ins.

(** What a step may tell an asker, and what it may leave posted. *)
Definition consent_rel (l : list (string * DictValue)) (s : prompts) (es : list pevent) (s' : prompts)
    : Prop :=
  (∀ x, x ∈ ControlChannel.posted (chan s') → x ∈ ControlChannel.posted (chan s) ∨ x ∈ l) ∧
  ∀ p o, Outcome p o ∈ es → o = safe p ∨
    ∃ id d, (id, d) ∈ ControlChannel.posted (chan s) ∧ o = answer p d.

Lemma on_channel_consent (i : @input prompt) s :
  consent_rel (answers [i]) s (events (on_channel (ControlChannel.handle NumberToString i)) s)
    (exec (on_channel (ControlChannel.handle NumberToString i)) s).
Proof.
  destruct (step_answers NumberToString i (chan s)) as [H1 H2].
  unfold exec, events, on_channel in *.
  destruct (ControlChannel.handle NumberToString i (chan s)) as [[[] c] es]. simpl in *.
  split; [exact H1|]. intros p o (e & He & Hin)%list_elem_of_fmap.
  destruct e as [json|p' d]; [done|]. injection He as -> ->.
  destruct (H2 p' d Hin) as [->|[id ?]]; [left; apply answer_default|]. right. by exists id, d.
Qed.

Lemma consent_quiet l s s' es :
  chan s' = chan s → (∀ p o, Outcome p o ∈ es → o = safe p) → consent_rel l s es s'.
Proof. intros Hc He. split; [rewrite Hc; by left|]. intros p o ?%He. by left. Qed.

Lemma ask_or_consent (m : M unit) kind payload dl p s :
  (∀ s, consent_rel [] s (events m s) (exec m s)) →
  consent_rel [] s (events (ask_or m kind payload dl p) s) (exec (ask_or m kind payload dl p) s).
Proof.
  intros Hm. unfold ask_or. rewrite exec_get, events_get. destruct (has_channel s); [|apply Hm].
  apply (on_channel_consent (Request kind payload dl p)).
Qed.

Lemma default_consent p o (s : prompts) :
  o = safe p → consent_rel [] s (events (emit (Outcome p o)) s) (exec (emit (Outcome p o)) s).
Proof.
  intros ->. apply consent_quiet; [done|]. intros p' o' [H|H%elem_of_nil]%elem_of_cons; [|done].
  by injection H as -> ->.
Qed.

Lemma ask_consent q s : consent_rel [] s (events (ask q) s) (exec (ask q) s).
Proof.
  destruct q as [page ty m d o|page r o|page rq c n|page rq c n|page u r sc px f|page e u mn n st|page a m t];
    simpl; try (by apply ask_or_consent; intros; apply default_consent).
  - unfold RequestPermissions, AskViewer. destruct (Nat.eqb_spec (List.length n) 0) as [->|];
      [by apply default_consent|]. by apply ask_or_consent; intros; apply default_consent.
  - unfold RequestPermissionsFromCurrentDocument, AskViewer.
    destruct (Nat.eqb_spec (List.length n) 0) as [->|]; [by apply default_consent|].
    by apply ask_or_consent; intros; apply default_consent.
  - apply ask_or_consent. intros. apply consent_quiet; [done|]. by intros ? ? ?%elem_of_nil.
  - unfold AllowCertificateError. destruct st; [by apply default_consent|].
    by apply ask_or_consent; intros; apply default_consent.
Qed.

Lemma sys_consent i s :
  consent_rel (answers (frames_of [i])) s (events (sys_handle i) s) (exec (sys_handle i) s).
Proof.
  destruct i as [q|c|b| |]; simpl.
  - apply ask_consent.
  - apply on_channel_consent.
  - apply consent_quiet; [done|]. by intros ? ? ?%elem_of_nil.
  - unfold CancelDialogs. rewrite exec_get, events_get. destruct (has_channel s).
    + apply (on_channel_consent Cancel).
    + apply consent_quiet; [done|]. by intros ? ? ?%elem_of_nil.
  - unfold RunPostedLogin. rewrite exec_get, events_get. destruct (posted_login s) as [|page rest].
    + apply consent_quiet; [done|]. by intros ? ? ?%elem_of_nil.
    + rewrite exec_mod, events_mod. apply consent_quiet; [done|].
      intros p o [H|H%elem_of_nil]%elem_of_cons; [|done]. by injection H as -> ->.
Qed.

Lemma sys_run ins i s :
  exec (run sys_handle (ins ++ [i])%list) s = exec (sys_handle i) (exec (run sys_handle ins) s) ∧
  events (run sys_handle (ins ++ [i])%list) s =
    (events (run sys_handle ins) s ++ events (sys_handle i) (exec (run sys_handle ins) s))%list.
Proof.
  destruct (run_app sys_handle ins [i] s) as [-> ->]. by unfold exec, events; rewrite run_one.
Qed.

(** C6. Nothing is granted without an explicit yes: in every execution of the
    dialogs, permissions, logins, certificate errors and file choosers over
    the control channel, an asker is told the safe default of its question (an
    alert is dismissed, a confirm or prompt declined, a permission denied, a
    login cancelled, a certificate refused, a chooser cancelled) or the answer
    to a frame the viewer has sent; and it is told more than the default only
    for a frame that says so explicitly. *)
Theorem nothing_granted_without_consent ins p o :
  Outcome p o ∈ events (run sys_handle ins) initial →
  (o = safe p ∨ ∃ id d, (id, d) ∈ answers (frames_of ins) ∧ o = answer p d) ∧
  (permissive p o → ∃ id d, (id, d) ∈ answers (frames_of ins) ∧ consents p d).
Proof.
  intros Hin. enough (o = safe p ∨ ∃ id d, (id, d) ∈ answers (frames_of ins) ∧ o = answer p d) as H.
  { split; [exact H|]. intros Hp. destruct H as [->|(id & d & Hd & ->)]; [by apply safe_not_permissive in Hp|].
    exists id, d. split; [done|]. by apply permissive_consents. }
  enough ((∀ x, x ∈ ControlChannel.posted (chan (exec (run sys_handle ins) initial)) →
      x ∈ answers (frames_of ins)) ∧
    ∀ p o, Outcome p o ∈ events (run sys_handle ins) initial →
      o = safe p ∨ ∃ id d, (id, d) ∈ answers (frames_of ins) ∧ o = answer p d) as [_ H] by auto.
  clear. induction ins as [|i ins [IH1 IH2]] using rev_ind.
  { split; [by intros ? ?%elem_of_nil|by intros ? ? ?%elem_of_nil]. }
  destruct (sys_run ins i initial) as [-> ->].
  destruct (sys_consent i (exec (run sys_handle ins) initial)) as [H1 H2].
  assert (answers (frames_of (ins ++ [i])) = (answers (frames_of ins) ++ answers (frames_of [i]))%list) as ->
    by (unfold frames_of, answers; by rewrite !omap_app).
  setoid_rewrite elem_of_app. split; [intros x [?|?]%H1; auto|]. intros p o [?|H].
  - destruct (IH2 p o) as [->|(id & d & ? & ->)]; [done|by left|]. right. exists id, d. auto.
  - destruct (H2 p o H) as [->|(id & d & ? & ->)]; [by left|]. right. exists id, d. auto.
Qed.

(** A login can be answered inside its own constructor: without a channel the
    empty answer is posted to a later task, as the network stack demands, but
    with a channel that is there and closed the channel runs the callback at
    once, before the delegate has been handed to anyone. *)
Theorem closed_channel_login_is_reentrant page url realm scheme is_proxy first s :
  is_open (chan s) = false →
  events (CbLoginDelegate page url realm scheme is_proxy first) s =
    (if has_channel s then [Outcome (LoginAsk page) (AuthRequired None)] else []) ∧
  posted_login (exec (CbLoginDelegate page url realm scheme is_proxy first) s) =
    (posted_login s ++ if has_channel s then [] else [page])%list.
Proof.
  intros Ho. unfold CbLoginDelegate, ask_or. rewrite exec_get, events_get.
  destruct s as [[] c l]; simpl in *; [|done].
  unfold exec, events, on_channel, SendRequest. simpl. rewrite get_run, Ho. simpl. by rewrite app_nil_r.
Qed.

(** ** Every question is answered once *)

Hypothesis NumberToString_inj : ∀ a b, NumberToString a = NumberToString b → a = b.

Definition prompt_of (q : question) : prompt :=
  match q with
  | QDialog page ty _ _ _ => JsDialog page (DefaultAcceptFor ty)
  | QBeforeUnload page _ _ => BeforeUnload page
  | QPermission page _ _ n | QPermissionHere page _ _ n => PermissionAsk page (List.length n)
  | QLogin page _ _ _ _ _ => LoginAsk page
  | QCert page _ _ _ _ _ => CertError page
  | QFile page _ _ _ => FileChooserAsk page
  end.
Definition asked (i : sys_input) : option prompt :=
  match i with Ask q => Some (prompt_of q) | _ => None end.
Definition told (e : pevent) : option prompt :=
  match e with Outcome p _ => Some p | Wire _ => None end.
Definition unanswered (s : prompts) : list prompt := (waiting (chan s) ++ (LoginAsk <$> posted_login s))%list.

Definition once_rel (req : option prompt) (s : prompts) (es : list pevent) (s' : prompts) : Prop :=
  ids_ok NumberToString (chan s') ∧
  next_request_id_ (chan s') ≤ next_request_id_ (chan s) + 1 ∧
  (option_list req ++ unanswered s ≡ₚ omap told es ++ unanswered s')%list.

Lemma told_lift (es : list (@event prompt)) : omap told (lift_event <$> es) = omap ran es.
Proof.
  induction es as [|e es IH]; [done|]. rewrite fmap_cons.
  destruct e; cbn [lift_event omap list_omap told ran]; by rewrite <-IH.
Qed.

Lemma on_channel_once (i : @input prompt) s :
  ids_ok NumberToString (chan s) → next_request_id_ (chan s) < 2 ^ 64 - 1 →
  once_rel (request_of i) s (events (on_channel (ControlChannel.handle NumberToString i)) s)
    (exec (on_channel (ControlChannel.handle NumberToString i)) s).
Proof.
  intros Hids Hn.
  destruct (channel_step NumberToString NumberToString_inj i (chan s) Hids Hn) as (H1 & H2 & H3).
  unfold exec, events, on_channel in *.
  destruct (ControlChannel.handle NumberToString i (chan s)) as [[[] c] es]. simpl in *.
  split; [exact H1|]. split; [exact H2|]. unfold unanswered. simpl.
  by rewrite told_lift, !(assoc_L (++)), H3.
Qed.

Lemma once_same req s s' es :
  ids_ok NumberToString (chan s) → chan s' = chan s →
  (option_list req ++ (LoginAsk <$> posted_login s) ≡ₚ omap told es ++ (LoginAsk <$> posted_login s'))%list →
  once_rel req s es s'.
Proof.
  intros Hids Hc Hp. unfold once_rel, unanswered. rewrite Hc. split; [done|]. split; [lia|].
  rewrite !(Permutation_app_comm (waiting _)), !(assoc_L (++)). by rewrite Hp.
Qed.

Lemma ask_or_once (m : M unit) kind payload dl p s :
  ids_ok NumberToString (chan s) → next_request_id_ (chan s) < 2 ^ 64 - 1 →
  once_rel (Some p) s (events m s) (exec m s) →
  once_rel (Some p) s (events (ask_or m kind payload dl p) s) (exec (ask_or m kind payload dl p) s).
Proof.
  intros Hids Hn Hm. unfold ask_or. rewrite exec_get, events_get. destruct (has_channel s); [|apply Hm].
  by apply (on_channel_once (Request kind payload dl p)).
Qed.

Lemma sys_once i s :
  ids_ok NumberToString (chan s) → next_request_id_ (chan s) < 2 ^ 64 - 1 →
  once_rel (asked i) s (events (sys_handle i) s) (exec (sys_handle i) s).
Proof.
  intros Hids Hn. destruct i as [q|c|b| |]; simpl.
  - destruct q as [page ty m d o|page r o|page rq c n|page rq c n|page u r sc px f|page e u mn n st|page a m t];
      simpl; try (by apply ask_or_once; [..|apply once_same]).
    + unfold RequestPermissions, AskViewer. destruct (Nat.eqb (List.length n) 0);
        [by apply once_same|by apply ask_or_once; [..|apply once_same]].
    + unfold RequestPermissionsFromCurrentDocument, AskViewer. destruct (Nat.eqb (List.length n) 0);
        [by apply once_same|by apply ask_or_once; [..|apply once_same]].
    + apply ask_or_once; [done..|]. apply once_same; [done..|]. simpl.
      rewrite fmap_app. apply Permutation_cons_append.
    + unfold AllowCertificateError. destruct st; [by apply once_same|].
      by apply ask_or_once; [..|apply once_same].
  - pose proof (on_channel_once (to_input c) s Hids Hn) as H. by destruct c.
  - by apply once_same.
  - unfold CancelDialogs. rewrite exec_get, events_get. destruct (has_channel s); [|by apply once_same].
    by apply (on_channel_once Cancel).
  - unfold RunPostedLogin. rewrite exec_get, events_get. destruct (posted_login s) as [|page rest] eqn:Hp.
    + by apply once_same.
    + rewrite exec_mod, events_mod. apply once_same; [done..|]. by rewrite Hp.
Qed.

(** No page is left waiting: in every execution of fewer than 2^64 steps the
    askers that were told something and the ones still waiting are exactly the
    ones that asked, none of them told twice; and once the dialogs are
    cancelled and the posted login answers have run, nobody is waiting. *)
Theorem every_question_answered_once ins :
  Z.of_nat (List.length ins) < 2 ^ 64 →
  let s := exec (run sys_handle ins) initial in
  let tr := events (run sys_handle ins) initial in
  (omap asked ins ≡ₚ omap told tr ++ unanswered s)%list ∧
  (has_channel s = true →
   unanswered (exec (run sys_handle (CancelAll :: replicate (List.length (posted_login s)) LoginTask)) s) = []).
Proof.
  intros Hlen. cbv zeta.
  enough (ids_ok NumberToString (chan (exec (run sys_handle ins) initial)) ∧
    next_request_id_ (chan (exec (run sys_handle ins) initial)) ≤ Z.of_nat (List.length ins) ∧
    (omap asked ins ≡ₚ omap told (events (run sys_handle ins) initial) ++
       unanswered (exec (run sys_handle ins) initial))%list) as (_ & _ & Hp).
  { split; [exact Hp|]. generalize (exec (run sys_handle ins) initial). clear. intros s Hc.
    unfold run. rewrite fmap_cons. cbn [eseq]. rewrite exec_bind. simpl.
    assert (∃ s', exec CancelDialogs s = s' ∧ waiting (chan s') = [] ∧ posted_login s' = posted_login s)
      as (s' & -> & Hw & Hl).
    { eexists. split; [done|]. unfold CancelDialogs. rewrite exec_get, Hc. unfold exec, on_channel.
      by rewrite CancelAllPending_run. }
    rewrite <-Hl. clear Hl Hc s. revert s' Hw.
    enough (∀ n s', n = List.length (posted_login s') → waiting (chan s') = [] →
      unanswered (exec (eseq (sys_handle <$> replicate n LoginTask)) s') = []) as H by eauto.
    induction n as [|n IH]; intros s' Hn Hw.
    - change (unanswered s' = []). unfold unanswered. rewrite Hw. by destruct (posted_login s').
    - cbn [replicate]. rewrite fmap_cons. cbn [eseq]. rewrite exec_bind. cbn [sys_handle].
      unfold RunPostedLogin at 1. rewrite exec_get. destruct (posted_login s') as [|page rest]; [done|].
      rewrite exec_mod. apply IH; [by injection Hn|done]. }
  induction ins as [|i ins IH] using rev_ind.
  { split; [split_and!; [done|constructor|by intros k ?%elem_of_nil]|done]. }
  rewrite length_app in Hlen |- *. simpl in Hlen. destruct IH as (Hids & Hn & Hp); [lia|].
  destruct (sys_run ins i initial) as [-> ->].
  destruct (sys_once i (exec (run sys_handle ins) initial) Hids) as (Hids' & Hn' & Hp'); [lia|].
  split; [exact Hids'|]. split; [simpl; lia|].
  assert (omap asked (ins ++ [i])%list = (omap asked ins ++ option_list (asked i))%list) as ->.
  { rewrite omap_app. simpl. by destruct (asked i). }
  rewrite omap_app, <-(assoc_L (++)), <-Hp', Hp, <-!(assoc_L (++)).
  apply Permutation_app_head, Permutation_app_comm.
Qed.
End prompts.

(** ** Witnesses *)

#[local] Existing Instance BitsCodec.bits_codec.
Definition raw_lib : TextLib := {| UTF16ToUTF8 _ := ""; to_utf16 _ := [] |}.
#[local] Existing Instance raw_lib.
Definition show (n : Z) : string := pretty n.

Definition grant_frame : string :=
  BitsCodec.bits (BitsCodec.to_pos (VDict
    [("data", VDict [("granted", VBool true); ("id", VString "1")]); ("type", VString "ui_response");
     ("v", VInt 1)])).
Definition grant_run : list sys_input :=
  [Context true; Channel (Opened true); Ask (QPermission 7 "https://a.test" None ["geolocation"]);
   Channel (Frame false grant_frame); Channel Posted; Channel (Opened false);
   Ask (QLogin 8 "https://b.test" "r" "basic" false true)].

Lemma nothing_granted_without_consent_witness :
  ∃ id d, (id, d) ∈ answers (frames_of grant_run) ∧ consents (PermissionAsk 7 1) d.
Proof.
  refine (proj2 (nothing_granted_without_consent show grant_run (PermissionAsk 7 1)
    (PermissionResults [GRANTED]) _) _).
  - apply (list_elem_of_lookup_2 _ 1). by vm_compute.
  - left.
Defined.

Lemma every_question_answered_once_witness :
  omap told (events (run (sys_handle show) grant_run) initial) = [PermissionAsk 7 1; LoginAsk 8] ∧
  unanswered (exec (run (sys_handle show) (CancelAll :: replicate 0 LoginTask))
    (exec (run (sys_handle show) grant_run) initial)) = [].
Proof.
  assert (∀ a b, show a = show b → a = b) as Hinj by (intros a b; apply (inj pretty)).
  split; [by vm_compute|].
  refine (proj2 (every_question_answered_once show Hinj grant_run _) _); by vm_compute.
Defined.

Lemma closed_channel_login_is_reentrant_witness :
  events (CbLoginDelegate show 8 "https://b.test" "r" "basic" false true)
    (mkPrompts true CbControlChannel []) = [Outcome (LoginAsk 8) (AuthRequired None)].
Proof.
  apply (closed_channel_login_is_reentrant show 8 "https://b.test" "r" "basic" false true
    (mkPrompts true CbControlChannel [])). reflexivity.
Defined.
