(* ===== verification/BeginFrame.v ===== *)
(** * The begin-frame driver
      (capture/build-integration/cb_begin_frame_driver.{h,cc})

    The capture has no display refreshing it, so the driver issues the frames:
    each frame's acknowledgement issues or schedules the next one.  What viz
    holds of the frames it has not acknowledged is [in_viz]; an input happens
    at a time, and a timer fires when it is due.  Times are in microseconds. *)

From Stdlib Require Import ZArith Lia.
From stdpp Require Import base tactics sets numbers list.
From S2P Require Import Prelude.
Open Scope Z_scope.

(** [base::Hertz], the period of a frequency. *)
Class BaseTime := {
  Hertz : Z → Z;
  Hertz_1 : Hertz 1 = 1000000;
  Hertz_60 : 0 < Hertz 60 ≤ Hertz 1;
}.

Definition Seconds (n : Z) : Z := n * 1000000.
Definition kDiagnosticInterval : Z := Seconds 5.
Definition kStallWatchdogTimeout : Z := Seconds 1.
Definition kWatchdogFiresBeforeReissue : Z := 15.
Definition kZeroProductionTicksBeforeDeath : Z := 6.
Definition kReconfigureNudge : Z := Seconds 1.

(** [++counter] on [uint64_t]. *)
Definition inc64 (n : Z) : Z := (n + 1) mod 2 ^ 64.

Section driver.
Context {T : BaseTime}.

Definition kFastestRateInterval : Z := Hertz 60.
Definition kSlowestRateInterval : Z := Hertz 1.

(** [std::clamp]. *)
Definition clamp (v lo hi : Z) : Z := if v <? lo then lo else if hi <? v then hi else v.
Definition ClampFrameInterval (requested : Z) : Z :=
  clamp requested kFastestRateInterval kSlowestRateInterval.

Inductive verdict := UNKNOWN | DRIVER_STALLED | RENDERER_STARVED | BURSTING | PRODUCING.

(** Timers are the times they are due; the counters of fires, nudges and ticks
    advance at most once a second. *)
Record driver := mkDriver {
  target_frame_interval_ : Z;
  running_ : bool;
  next_sequence_number_ : Z;
  issue_epoch_ : Z;
  first_ack_received_ : bool;
  watchdog_fires_without_ack_ : Z;
  last_issue_time_ : Z;
  next_frame_timer_ : option Z;
  stall_watchdog_timer_ : option Z;
  awaiting_reconfigure_ack_ : bool;
  reconfigure_nudge_timer_ : option Z;
  reconfigure_nudges_ : Z;
  diag_capturer_ : bool;
  diagnostic_timer_ : option Z;
  issued_since_report_ : Z;
  acked_since_report_ : Z;
  last_reported_frames_received_ : Z;
  consecutive_zero_production_ticks_ : Z;
  permanent_death_signaled_ : bool;
  on_permanent_death_ : bool;
  weak_generation : nat;              (* [weak_factory_] *)
  in_viz : list (nat * Z);            (* acks to come: weak pointer, captured epoch *)
  clock : Z;
}.
#[export] Instance eta_driver : Eta driver := λ s,
  mkDriver (target_frame_interval_ s) (running_ s) (next_sequence_number_ s) (issue_epoch_ s)
    (first_ack_received_ s) (watchdog_fires_without_ack_ s) (last_issue_time_ s)
    (next_frame_timer_ s) (stall_watchdog_timer_ s) (awaiting_reconfigure_ack_ s)
    (reconfigure_nudge_timer_ s) (reconfigure_nudges_ s) (diag_capturer_ s) (diagnostic_timer_ s)
    (issued_since_report_ s) (acked_since_report_ s) (last_reported_frames_received_ s)
    (consecutive_zero_production_ticks_ s) (permanent_death_signaled_ s) (on_permanent_death_ s)
    (weak_generation s) (in_viz s) (clock s).

Inductive event :=
| ScheduleFullRedraw
| IssueExternalBeginFrame (sequence_number frame_time deadline interval : Z)
| Diagnostic (issued acked captured_delta : Z) (v : verdict)
| PermanentDeath.
Abbreviation M := (eff driver event).

Definition CbBeginFrameDriver (interval : Z) : driver :=
  mkDriver (ClampFrameInterval interval) false 1 0 false 0 0 None None false None 0
    false None 0 0 0 0 false false 0 [] 0.

Definition IssueOneBeginFrame : M unit :=
  s ← eget;
  if negb (running_ s) then mret tt
  else
    let now := clock s in
    emod (λ s, s <| last_issue_time_ := now |>);;
    emit ScheduleFullRedraw;;
    let seq := next_sequence_number_ s in
    emod (λ s, s <| next_sequence_number_ := inc64 seq |>);;
    emit (IssueExternalBeginFrame seq now (now + target_frame_interval_ s)
            (target_frame_interval_ s));;
    emod (λ s, s <| in_viz := in_viz s ++ [(weak_generation s, issue_epoch_ s)] |>);;
    emod (λ s, s <| issued_since_report_ := inc64 (issued_since_report_ s) |>);;
    emod (λ s, s <| stall_watchdog_timer_ := Some (now + kStallWatchdogTimeout) |>).

Definition Start : M unit :=
  s ← eget;
  if running_ s then mret tt
  else
    emod (λ s, s <| running_ := true |>);;
    emod (λ s, s <| issued_since_report_ := 0 |> <| acked_since_report_ := 0 |>
                 <| last_reported_frames_received_ := 0 |>);;
    emod (λ s, s <| diagnostic_timer_ := Some (clock s + kDiagnosticInterval) |>);;
    IssueOneBeginFrame.

Definition Stop : M unit :=
  s ← eget;
  if negb (running_ s) then mret tt
  else
    emod (λ s, s <| running_ := false |> <| next_frame_timer_ := None |>
                 <| stall_watchdog_timer_ := None |> <| awaiting_reconfigure_ack_ := false |>
                 <| reconfigure_nudge_timer_ := None |> <| diagnostic_timer_ := None |>
                 <| weak_generation := S (weak_generation s) |>).

Definition SetDiagnosticSources (capturer : bool) : M unit :=
  emod (λ s, s <| diag_capturer_ := capturer |>).
Definition SetPermanentDeathCallback (set : bool) : M unit :=
  emod (λ s, s <| on_permanent_death_ := set |>).

Definition NotifyDisplayReconfigured : M unit :=
  s ← eget;
  if negb (running_ s) then mret tt
  else if awaiting_reconfigure_ack_ s then mret tt
  else
    emod (λ s, s <| awaiting_reconfigure_ack_ := true |> <| reconfigure_nudges_ := 0 |>
                 <| stall_watchdog_timer_ := None |> <| watchdog_fires_without_ack_ := 0 |>
                 <| reconfigure_nudge_timer_ := Some (clock s + kReconfigureNudge) |>).

Definition OnBeginFrameAck (issue_epoch : Z) : M unit :=
  s ← eget;
  if negb (running_ s) then mret tt
  else if negb (issue_epoch =? issue_epoch_ s) then mret tt
  else
    emod (λ s, s <| first_ack_received_ := true |>);;
    ewhen (awaiting_reconfigure_ack_ s)
      (emod (λ s, s <| awaiting_reconfigure_ack_ := false |> <| reconfigure_nudge_timer_ := None |>));;
    emod (λ s, s <| watchdog_fires_without_ack_ := 0 |>
                 <| acked_since_report_ := inc64 (acked_since_report_ s) |>
                 <| stall_watchdog_timer_ := None |>);;
    let elapsed := clock s - last_issue_time_ s in
    let residual := target_frame_interval_ s - elapsed in
    if 0 <? residual then emod (λ s, s <| next_frame_timer_ := Some (clock s + residual) |>)
    else IssueOneBeginFrame.

Definition OnReconfigureNudge : M unit :=
  s ← eget;
  if negb (running_ s) || negb (awaiting_reconfigure_ack_ s)
  then emod (λ s, s <| reconfigure_nudge_timer_ := None |>)
  else
    emod (λ s, s <| reconfigure_nudges_ := reconfigure_nudges_ s + 1 |>);;
    emit ScheduleFullRedraw.

Definition OnStallWatchdog : M unit :=
  s ← eget;
  if negb (running_ s) then mret tt
  else
    let fires := watchdog_fires_without_ack_ s + 1 in
    emod (λ s, s <| watchdog_fires_without_ack_ := fires |>);;
    let pre_first_ack := negb (first_ack_received_ s) in
    let within_wait_window := fires <? kWatchdogFiresBeforeReissue in
    if awaiting_reconfigure_ack_ s || pre_first_ack || within_wait_window
    then emod (λ s, s <| stall_watchdog_timer_ := Some (clock s + kStallWatchdogTimeout) |>)
    else
      emod (λ s, s <| issue_epoch_ := inc64 (issue_epoch_ s) |> <| next_frame_timer_ := None |>
                   <| watchdog_fires_without_ack_ := 0 |>);;
      IssueOneBeginFrame.

(** The number of frames captured since the last report. *)
Definition captured_delta (last now : Z) : Z := if last <=? now then now - last else 0.

Definition verdict_of (capturer_present : bool) (issued delta : Z) : verdict :=
  if negb capturer_present then UNKNOWN
  else if issued =? 0 then DRIVER_STALLED
  else if delta =? 0 then RENDERER_STARVED
  else if (4 * delta) mod 2 ^ 64 <=? issued then BURSTING
  else PRODUCING.

(** [frames_received] is what the capturer's statistics say, if there is one. *)
Definition EmitDiagnostic (frames_received : Z) : M unit :=
  s ← eget;
  let issued := issued_since_report_ s in
  let acked := acked_since_report_ s in
  emod (λ s, s <| issued_since_report_ := 0 |> <| acked_since_report_ := 0 |>);;
  let capturer_present := diag_capturer_ s in
  let delta := if capturer_present
               then captured_delta (last_reported_frames_received_ s) frames_received else 0 in
  ewhen capturer_present (emod (λ s, s <| last_reported_frames_received_ := frames_received |>));;
  emit (Diagnostic issued acked delta (verdict_of capturer_present issued delta));;
  if capturer_present && on_permanent_death_ s then
    let ticks := if delta =? 0 then consecutive_zero_production_ticks_ s + 1 else 0 in
    emod (λ s, s <| consecutive_zero_production_ticks_ := ticks |>);;
    ewhen ((kZeroProductionTicksBeforeDeath <=? ticks) && negb (permanent_death_signaled_ s))
      (emod (λ s, s <| permanent_death_signaled_ := true |>);; emit PermanentDeath)
  else emod (λ s, s <| consecutive_zero_production_ticks_ := 0 |>).

(** ** Executions *)

Inductive input :=
| DoStart
| DoStop
| Sources (capturer : bool)
| DeathCallback (set : bool)
| Reconfigured
| Ack (k : nat)                       (* viz acknowledges the [k]-th frame it holds *)
| NextFrameFires
| WatchdogFires
| NudgeFires
| DiagnosticFires (frames_received : Z).

Definition react (i : input) : M unit :=
  match i with
  | DoStart => Start
  | DoStop => Stop
  | Sources b => SetDiagnosticSources b
  | DeathCallback b => SetPermanentDeathCallback b
  | Reconfigured => NotifyDisplayReconfigured
  | Ack k =>
      s ← eget;
      match in_viz s !! k with
      | None => mret tt
      | Some (g, e) =>
          emod (λ s, s <| in_viz := delete k (in_viz s) |>);;
          ewhen (Nat.eqb g (weak_generation s)) (OnBeginFrameAck e)
      end
  | NextFrameFires => emod (λ s, s <| next_frame_timer_ := None |>);; IssueOneBeginFrame
  | WatchdogFires => emod (λ s, s <| stall_watchdog_timer_ := None |>);; OnStallWatchdog
  | NudgeFires =>
      emod (λ s, s <| reconfigure_nudge_timer_ := Some (clock s + kReconfigureNudge) |>);;
      OnReconfigureNudge
  | DiagnosticFires n =>
      emod (λ s, s <| diagnostic_timer_ := Some (clock s + kDiagnosticInterval) |>);;
      EmitDiagnostic n
  end.

Definition handle (i : Z * input) : M unit :=
  emod (λ s, s <| clock := i.1 |>);; react i.2.

Definition due (t : Z) (timer : option Z) : bool :=
  match timer with Some d => d <=? t | None => false end.
Definition enabled (i : Z * input) (s : driver) : bool :=
  (clock s <=? i.1) &&
  match i.2 with
  | Ack k => Nat.ltb k (length (in_viz s))
  | NextFrameFires => due i.1 (next_frame_timer_ s)
  | WatchdogFires => due i.1 (stall_watchdog_timer_ s)
  | NudgeFires => due i.1 (reconfigure_nudge_timer_ s)
  | DiagnosticFires n => due i.1 (diagnostic_timer_ s) && (0 <=? n)
  | _ => true
  end.
End driver.

(** ** One frame in flight *)

Section chain.
Context {T : BaseTime}.

(** The frames of the current chain that viz has not acknowledged. *)
Definition live (s : driver) : list (nat * Z) :=
  filter (λ c, c = (weak_generation s, issue_epoch_ s)) (in_viz s).
Definition scheduled (s : driver) : nat := if next_frame_timer_ s then 1 else 0.

(** A frame viz may hold was issued under the current weak pointer or an earlier one, in
    the current epoch or an earlier one. *)
Definition held (s : driver) (c : nat * Z) : Prop :=
  (c.1 < weak_generation s)%nat ∨ c.1 = weak_generation s ∧ c.2 ≤ issue_epoch_ s.

(** The invariant, [n] bounding the steps made. *)
Record chain (n : Z) (s : driver) : Prop := {
  chain_epoch : 0 ≤ issue_epoch_ s ≤ n;
  chain_held : Forall (held s) (in_viz s);
  chain_token : running_ s = true → (length (live s) + scheduled s = 1)%nat;
  chain_watch : running_ s = true → next_frame_timer_ s = None →
    awaiting_reconfigure_ack_ s = true ∨ stall_watchdog_timer_ s ≠ None;
  chain_armed : next_frame_timer_ s ≠ None → stall_watchdog_timer_ s = None;
  chain_nudge : awaiting_reconfigure_ack_ s = true → reconfigure_nudge_timer_ s ≠ None;
  chain_idle : running_ s = false →
    live s = [] ∧ next_frame_timer_ s = None ∧ stall_watchdog_timer_ s = None ∧
    awaiting_reconfigure_ack_ s = false ∧ diagnostic_timer_ s = None;
}.

(** The state in which a frame may be issued. *)
Definition ready (n : Z) (s : driver) : Prop :=
  running_ s = true ∧ live s = [] ∧ next_frame_timer_ s = None ∧ 0 ≤ issue_epoch_ s ≤ n ∧
  Forall (held s) (in_viz s) ∧
  (awaiting_reconfigure_ack_ s = true → reconfigure_nudge_timer_ s ≠ None).

Lemma Issue_run s : running_ s = true →
  IssueOneBeginFrame s =
    (tt, s <| last_issue_time_ := clock s |>
           <| next_sequence_number_ := inc64 (next_sequence_number_ s) |>
           <| in_viz := in_viz s ++ [(weak_generation s, issue_epoch_ s)] |>
           <| issued_since_report_ := inc64 (issued_since_report_ s) |>
           <| stall_watchdog_timer_ := Some (clock s + kStallWatchdogTimeout) |>,
     [ScheduleFullRedraw; IssueExternalBeginFrame (next_sequence_number_ s) (clock s)
        (clock s + target_frame_interval_ s) (target_frame_interval_ s)]).
Proof. intros Hr. unfold IssueOneBeginFrame. run_eff. by rewrite Hr. Qed.

Lemma Issue_chain n s : ready n s → chain n (exec IssueOneBeginFrame s).
Proof.
  intros (Hr & Hl & Ht & He & Hh & Hn). unfold exec. rewrite Issue_run by done.
  split; simpl; try done.
  - apply Forall_app. split; [done|]. constructor; [|done]. right. simpl. split; [done|lia].
  - intros _. unfold live, scheduled in *. simpl. rewrite Ht, filter_app, Hl.
    rewrite filter_cons_True by done. done.
  - intros _ _. by right.
  - congruence.
Qed.

(** Acknowledging a frame removes it. *)
Lemma live_delete k c s : in_viz s !! k = Some c →
  length (live s) = (length (live (s <| in_viz := delete k (in_viz s) |>)) +
    if decide (c = (weak_generation s, issue_epoch_ s)) then 1 else 0)%nat.
Proof.
  intros Hk. unfold live. simpl. rewrite (delete_Permutation _ _ _ Hk) at 1.
  rewrite filter_cons. destruct (decide _); simpl; lia.
Qed.

(** No frame of an older epoch is taken for a current one. *)
Lemma live_next_epoch s : 
  Forall (held s) (in_viz s) →
  filter (λ c, c = (weak_generation s, issue_epoch_ s + 1)) (in_viz s) = [].
Proof.
  intros H. induction H as [|c l Hc _ IH]; [done|]. rewrite filter_cons_False; [done|].
  intros ->. unfold held in Hc. simpl in Hc. lia.
Qed.

Lemma chain_mono n s : chain n s → chain (n + 1) s.
Proof. intros []. split; [lia|done..]. Qed.

Lemma Ack_chain n s : ready n s → chain n (exec (OnBeginFrameAck (issue_epoch_ s)) s).
Proof.
  intros (Hr & Hl & Hf & He & Hh & Hn). unfold OnBeginFrameAck.
  rewrite exec_get, Hr, Z.eqb_refl. simpl. rewrite exec_mod, exec_bind, exec_mod.
  set (s1 := exec (ewhen _ _) _).
  assert (s1 = s <| first_ack_received_ := true |> <| awaiting_reconfigure_ack_ := false |>
    <| reconfigure_nudge_timer_ := if awaiting_reconfigure_ack_ s then None
                                   else reconfigure_nudge_timer_ s |>) as ->.
  { subst s1. destruct s. simpl. destruct awaiting_reconfigure_ack_0; reflexivity. }
  destruct (0 <? _).
  - split; simpl; try done; [|congruence]. intros _. unfold live, scheduled in *. simpl. by rewrite Hl.
  - apply Issue_chain. repeat split; simpl; try done; lia.
Qed.

Lemma Watchdog_chain n s :
  n + 1 < 2 ^ 64 → running_ s = true → next_frame_timer_ s = None → length (live s) = 1%nat →
  0 ≤ issue_epoch_ s ≤ n → Forall (held s) (in_viz s) →
  (awaiting_reconfigure_ack_ s = true → reconfigure_nudge_timer_ s ≠ None) →
  chain (n + 1) (exec OnStallWatchdog s).
Proof.
  intros Hn Hr Hf Hl He Hh Hu. unfold OnStallWatchdog. rewrite exec_get, Hr. simpl.
  rewrite exec_mod. destruct (_ || _).
  - split; simpl; try done; [lia| |by intros; right|congruence].
    intros _. unfold live, scheduled in *. simpl. rewrite Hf. lia.
  - rewrite exec_mod. apply Issue_chain.
    assert (inc64 (issue_epoch_ s) = issue_epoch_ s + 1) as Hinc
      by (unfold inc64; apply Z.mod_small; lia).
    repeat split; simpl; rewrite ?Hinc; try done; try lia.
    + unfold live. simpl. rewrite ?Hinc. by apply live_next_epoch.
    + eapply Forall_impl; [exact Hh|]. intros c [?|[? ?]]; [by left|right].
      split; [done|]. simpl. rewrite ?Hinc. lia.
Qed.

Lemma Stop_chain n s : chain n s → chain n (exec Stop s).
Proof.
  intros Hc. unfold Stop. rewrite exec_get. destruct (running_ s) eqn:Hr; [|done].
  destruct Hc as [He Hh _ _ _ _ _]. split; simpl; try done.
  - eapply Forall_impl; [exact Hh|]. intros c [?|[? ?]]; left; simpl; lia.
  - intros _. split; [|done]. unfold live. simpl.
    induction Hh as [|c l Hc _ IH]; [done|]. rewrite filter_cons_False; [done|].
    intros ->. destruct Hc as [?|[? ?]]; simpl in *; lia.
Qed.

Lemma Start_chain n s : chain n s → chain n (exec Start s).
Proof.
  intros Hc. unfold Start. rewrite exec_get. destruct (running_ s) eqn:Hr; [done|].
  rewrite !exec_mod. apply Issue_chain. destruct Hc as [He Hh _ _ _ _ Hi].
  destruct (Hi Hr) as (Hl & Hf & _ & Ha & _). repeat split; simpl; try done; try lia; congruence.
Qed.

Lemma Ack_step n k s : chain n s → chain n (exec (react (Ack k)) s).
Proof.
  intros Hc. simpl. rewrite exec_get. destruct (in_viz s !! k) as [[g e]|] eqn:Hk; [|done].
  rewrite exec_mod. set (s1 := s <| in_viz := delete k (in_viz s) |>).
  pose proof (live_delete _ _ _ Hk) as Hlen. fold s1 in Hlen. destruct Hc as [He Hh Ht Hw Ha Hn Hi].
  assert (Forall (held s1) (in_viz s1)) as Hh1 by (by apply Forall_delete).
  destruct (decide ((g, e) = (weak_generation s, issue_epoch_ s))) as [[= -> ->]|Hne].
  - change (weak_generation s1) with (weak_generation s). rewrite Nat.eqb_refl. simpl.
    destruct (running_ s) eqn:Hr.
    + specialize (Ht eq_refl). assert (live s1 = []) as Hl by (apply length_zero_iff_nil; lia).
      assert (next_frame_timer_ s = None) as Hf
        by (unfold scheduled in Ht; destruct (next_frame_timer_ s); [lia|done]).
      exact (Ack_chain n s1 (conj Hr (conj Hl (conj Hf (conj He (conj Hh1 Hn)))))).
    + destruct (Hi eq_refl) as [Hl _]. rewrite Hl in Hlen. simpl in Hlen. lia.
  - rewrite Nat.add_0_r in Hlen.
    assert (chain n s1) as Hc1.
    { split; try done; [by rewrite <-Hlen|]. intros Hr. destruct (Hi Hr) as [Hl ?].
      split; [|done]. apply length_zero_iff_nil. by rewrite <-Hlen, Hl. }
    destruct (g =? _)%nat eqn:Hg; [|done]. apply Nat.eqb_eq in Hg as ->. simpl.
    unfold OnBeginFrameAck. rewrite exec_get.
    destruct (e =? issue_epoch_ s1) eqn:Heq; [|by destruct (running_ s1)].
    by apply Z.eqb_eq in Heq as ->.
Qed.

(** A timer that fires is armed. *)
Definition armed (i : input) (s : driver) : Prop :=
  match i with
  | NextFrameFires => next_frame_timer_ s ≠ None
  | WatchdogFires => stall_watchdog_timer_ s ≠ None
  | DiagnosticFires _ => diagnostic_timer_ s ≠ None
  | _ => True
  end.

Lemma due_armed t o : due t o = true → o ≠ None.
Proof. by destruct o. Qed.

Lemma Watchdog_step n s : n + 1 < 2 ^ 64 → chain n s → stall_watchdog_timer_ s ≠ None →
  chain (n + 1) (exec (react WatchdogFires) s).
Proof.
  intros Hn Hc Hw. simpl. rewrite exec_mod.
  destruct (running_ s) eqn:Hr; [|by destruct (chain_idle _ _ Hc Hr) as (_ & _ & ? & _)].
  pose proof (chain_armed _ _ Hc) as Ha. pose proof (chain_token _ _ Hc Hr) as Ht.
  unfold scheduled in Ht. destruct (next_frame_timer_ s) eqn:Hf; [by destruct Hw; apply Ha|].
  destruct Hc as [? ? ? ? ? ? ?]. apply Watchdog_chain; try done. unfold live in *. simpl. lia.
Qed.

Lemma NextFrame_step n s : chain n s → next_frame_timer_ s ≠ None →
  chain n (exec (react NextFrameFires) s).
Proof.
  intros Hc Hf. simpl. rewrite exec_mod. apply Issue_chain.
  destruct (running_ s) eqn:Hr; [|by destruct (chain_idle _ _ Hc Hr) as (_ & ? & _)].
  pose proof (chain_token _ _ Hc Hr) as Ht. unfold scheduled in Ht.
  destruct (next_frame_timer_ s); [|done]. destruct Hc as [? ? ? ? ? ? ?].
  repeat split; simpl; try done; try lia. apply length_zero_iff_nil. unfold live in *. simpl. lia.
Qed.

Lemma Nudge_step n s : chain n s → chain n (exec (react NudgeFires) s).
Proof.
  intros Hc. simpl. rewrite exec_mod. unfold OnReconfigureNudge. rewrite exec_get.
  set (s1 := s <| reconfigure_nudge_timer_ := _ |>).
  change (running_ s1) with (running_ s).
  change (awaiting_reconfigure_ack_ s1) with (awaiting_reconfigure_ack_ s).
  destruct (awaiting_reconfigure_ack_ s) eqn:Hq.
  - destruct (running_ s) eqn:Hr;
      [|by destruct (chain_idle _ _ Hc Hr) as (_ & _ & _ & ? & _); congruence].
    destruct Hc as [? ? ? ? ? ? ?]. by split.
  - rewrite orb_true_r. destruct Hc as [? ? ? ? ? ? ?]. split; try done. simpl. congruence.
Qed.

(** What a report computes. *)
Definition delta_of (m : Z) (s : driver) : Z :=
  if diag_capturer_ s then captured_delta (last_reported_frames_received_ s) m else 0.
Definition ticks_of (m : Z) (s : driver) : Z :=
  if diag_capturer_ s && on_permanent_death_ s
  then if delta_of m s =? 0 then consecutive_zero_production_ticks_ s + 1 else 0 else 0.
Definition dies (m : Z) (s : driver) : bool :=
  diag_capturer_ s && on_permanent_death_ s && (kZeroProductionTicksBeforeDeath <=? ticks_of m s) &&
  negb (permanent_death_signaled_ s).

Lemma Diagnostic_run m s : EmitDiagnostic m s =
  (tt, s <| issued_since_report_ := 0 |> <| acked_since_report_ := 0 |>
         <| last_reported_frames_received_ :=
              if diag_capturer_ s then m else last_reported_frames_received_ s |>
         <| consecutive_zero_production_ticks_ := ticks_of m s |>
         <| permanent_death_signaled_ := permanent_death_signaled_ s || dies m s |>,
   Diagnostic (issued_since_report_ s) (acked_since_report_ s) (delta_of m s)
     (verdict_of (diag_capturer_ s) (issued_since_report_ s) (delta_of m s)) ::
   if dies m s then [PermanentDeath] else []).
Proof.
  destruct s. unfold EmitDiagnostic, dies, ticks_of, delta_of. run_eff.
  destruct diag_capturer_0, on_permanent_death_0; simpl; rewrite ?orb_false_r; try done.
  destruct (_ <=? _), permanent_death_signaled_0; done.
Qed.

(** Every step keeps the chain. *)
Lemma react_chain n i s : n + 1 < 2 ^ 64 → chain n s → armed i s →
  chain (n + 1) (exec (react i) s).
Proof.
  intros Hn Hc Ha. destruct i as [| |b|b| |k| | | |m].
  - by apply chain_mono, Start_chain.
  - by apply chain_mono, Stop_chain.
  - apply chain_mono. destruct Hc; by split.
  - apply chain_mono. destruct Hc; by split.
  - apply chain_mono. simpl. unfold NotifyDisplayReconfigured. rewrite exec_get.
    destruct (running_ s) eqn:Hr, (awaiting_reconfigure_ack_ s); try done.
    destruct Hc as [? ? ? ? ? ? ?]. split; simpl; try done; [by left|congruence].
  - by apply chain_mono, Ack_step.
  - by apply chain_mono, NextFrame_step.
  - by apply Watchdog_step.
  - by apply chain_mono, Nudge_step.
  - apply chain_mono. simpl. rewrite exec_mod.
    set (s1 := s <| diagnostic_timer_ := _ |>).
    unfold exec. rewrite Diagnostic_run.
    destruct (running_ s) eqn:Hr; [|by destruct (chain_idle _ _ Hc Hr) as (_ & _ & _ & _ & ?)].
    destruct Hc as [? ? ? ? ? ? ?]. split; simpl; try done. congruence.
Qed.
End chain.

(** ** Pace *)

Section pace.
Context {T : BaseTime}.

Definition issue_of (e : event) : option (Z * Z) :=
  match e with IssueExternalBeginFrame seq t _ _ => Some (seq, t) | _ => None end.
(** The frames issued, with their sequence numbers and times. *)
Definition issues (es : list event) : list (Z * Z) := omap issue_of es.

(** The invariant of a driver started once that has issued [l]. *)
Record paced (I : Z) (s : driver) (l : list (Z * Z)) : Prop := {
  paced_interval : target_frame_interval_ s = I;
  paced_numbers : l.*1 = seqZ 1 (Z.of_nat (length l));
  paced_next : next_sequence_number_ s = 1 + Z.of_nat (length l);
  paced_last : last l.*2 = Some (last_issue_time_ s);
  paced_spaced k t t' : l.*2 !! k = Some t → l.*2 !! S k = Some t' → t + I ≤ t';
  paced_timer d : next_frame_timer_ s = Some d →
    last_issue_time_ s + I ≤ d ∧ watchdog_fires_without_ack_ s = 0;
  paced_fires : 0 ≤ watchdog_fires_without_ack_ s;
  paced_watchdog d : stall_watchdog_timer_ s = Some d →
    last_issue_time_ s + Seconds (watchdog_fires_without_ack_ s + 1) ≤ d;
}.

Lemma issues_app a b : issues (a ++ b) = issues a ++ issues b.
Proof. apply omap_app. Qed.

Lemma Issue_paced I s l :
  paced I s l → 1 + Z.of_nat (length l) < 2 ^ 64 - 1 → running_ s = true →
  next_frame_timer_ s = None → watchdog_fires_without_ack_ s = 0 →
  last_issue_time_ s + I ≤ clock s →
  paced I (exec IssueOneBeginFrame s) (l ++ issues (events IssueOneBeginFrame s)).
Proof.
  intros [Hi Hn Hx Hl Hs Ht Hf Hw] Hlen Hr Hnone H0 Hpace. unfold exec, events.
  rewrite Issue_run by done. unfold issues. simpl. split; simpl; try done.
  - rewrite fmap_app, length_app, Hn. simpl. rewrite Hx.
    replace (Z.of_nat (length l + 1)) with (Z.of_nat (length l) + 1) by lia.
    rewrite seqZ_app by lia. done.
  - rewrite length_app, Hx. simpl. unfold inc64. rewrite Z.mod_small; lia.
  - rewrite fmap_app. simpl. apply last_snoc.
  - intros k t t'. rewrite fmap_app. simpl. intros Hk Hk'.
    assert (length l.*2 = length l) as Hm by apply length_fmap.
    destruct (decide (S k < length l)%nat).
    { rewrite lookup_app_l in Hk, Hk' by (rewrite Hm; lia). by eapply Hs. }
    apply lookup_app_Some in Hk' as [Hk'|[Hge Hk']].
    { apply lookup_lt_Some in Hk'. lia. }
    assert (k = length l - 1 ∧ S k = length l)%nat as [-> HS].
    { apply lookup_lt_Some in Hk'. cbn [length] in Hk'. rewrite Hm in Hge, Hk'. split; lia. }
    rewrite HS, Hm, Nat.sub_diag in Hk'. injection Hk' as <-.
    rewrite lookup_app_l in Hk by (rewrite Hm; lia).
    rewrite last_lookup, Hm in Hl. replace (pred (length l)) with (length l - 1)%nat in Hl by lia.
    rewrite Hl in Hk. by injection Hk as <-.
  - intros d Hd. by rewrite Hnone in Hd.
  - intros d [= <-]. rewrite H0. unfold kStallWatchdogTimeout, Seconds. simpl. lia.
Qed.

(** A handler that issues nothing and keeps the fields of the pace. *)
Lemma paced_ext I s s' l :
  paced I s l →
  target_frame_interval_ s' = target_frame_interval_ s →
  next_sequence_number_ s' = next_sequence_number_ s →
  last_issue_time_ s' = last_issue_time_ s →
  (next_frame_timer_ s' = None ∨ next_frame_timer_ s' = next_frame_timer_ s) →
  (stall_watchdog_timer_ s' = None ∧ watchdog_fires_without_ack_ s' = 0 ∨
   stall_watchdog_timer_ s' = None ∧
     watchdog_fires_without_ack_ s' = watchdog_fires_without_ack_ s ∨
   stall_watchdog_timer_ s' = stall_watchdog_timer_ s ∧
     watchdog_fires_without_ack_ s' = watchdog_fires_without_ack_ s) →
  paced I s' l.
Proof.
  intros [Hi Hn Hx Hl Hs Ht Hf Hw] E1 E2 E3 E4 E5.
  split; rewrite ?E1, ?E2, ?E3; try done.
  - intros d Hd. destruct E4 as [E4|E4]; rewrite E4 in Hd; [done|].
    destruct (Ht d Hd) as [? H0]. split; [done|].
    destruct E5 as [[_ ?]|[[_ ->]|[_ ->]]]; done.
  - destruct E5 as [[_ ->]|[[_ ->]|[_ ->]]]; done.
  - intros d Hd. destruct E5 as [[E5 _]|[[E5 _]|[E5 ->]]]; rewrite E5 in Hd; [done..|]. by apply Hw.
Qed.

Lemma Ack_paced I e s l :
  paced I s l → 1 + Z.of_nat (length l) < 2 ^ 64 - 1 → next_frame_timer_ s = None →
  paced I (exec (OnBeginFrameAck e) s) (l ++ issues (events (OnBeginFrameAck e) s)).
Proof.
  intros Hp Hlen Hf. unfold OnBeginFrameAck. rewrite exec_get, events_get.
  destruct (running_ s) eqn:Hr; [|by rewrite app_nil_r].
  destruct (e =? issue_epoch_ s); [|by rewrite app_nil_r]. simpl.
  rewrite exec_mod, events_mod, exec_bind, events_bind, exec_mod, events_mod.
  set (s1 := exec (ewhen _ _) _).
  assert (s1 = s <| first_ack_received_ := true |> <| awaiting_reconfigure_ack_ := false |>
    <| reconfigure_nudge_timer_ := if awaiting_reconfigure_ack_ s then None
                                   else reconfigure_nudge_timer_ s |>) as ->.
  { subst s1. destruct s. simpl. destruct awaiting_reconfigure_ack_0; reflexivity. }
  rewrite issues_app. replace (issues (events (ewhen _ _) _)) with (@nil (Z * Z))
    by (by destruct (awaiting_reconfigure_ack_ s)).
  rewrite app_nil_l. set (s2 := set_field _ _).
  assert (paced I s2 l) as Hp2 by (eapply paced_ext; [exact Hp|done..|by right|by left]).
  destruct (Z.ltb_spec 0 (target_frame_interval_ s - (clock s - last_issue_time_ s))) as [Hres|Hres].
  - rewrite app_nil_r. destruct Hp2 as [Hi2 Hn2 Hx2 Hl2 Hs2 Ht2 Hf2 Hw2].
    split; try done. simpl. intros d [= <-]. split; [|done]. simpl in Hi2. lia.
  - apply Issue_paced; try done. destruct Hp2 as [Hi2 _ _ _ _ _ _ _]. simpl in *. lia.
Qed.

Lemma Watchdog_paced I d s l :
  paced I s l → I ≤ Seconds 1 → 1 + Z.of_nat (length l) < 2 ^ 64 - 1 →
  stall_watchdog_timer_ s = Some d → d ≤ clock s → next_frame_timer_ s = None →
  paced I (exec (react WatchdogFires) s) (l ++ issues (events (react WatchdogFires) s)).
Proof.
  intros Hp HI Hlen Hd Hdue Hnone. destruct Hp as [Hi Hn Hx Hl Hs Ht Hf Hw].
  specialize (Hw d Hd). unfold Seconds in Hw, HI. simpl. rewrite exec_mod, events_mod.
  unfold OnStallWatchdog.
  rewrite exec_get, events_get. set (s1 := s <| stall_watchdog_timer_ := None |>).
  change (running_ s1) with (running_ s). destruct (running_ s) eqn:Hr.
  2:{ rewrite app_nil_r. by split. }
  simpl. rewrite exec_mod, events_mod.
  match goal with |- context [?b1 || ?b2] => destruct (b1 || b2) end.
  - rewrite app_nil_r. split; simpl; try done.
    + intros d'. by rewrite Hnone.
    + lia.
    + intros d' [= <-]. unfold kStallWatchdogTimeout, Seconds. lia.
  - rewrite exec_mod, events_mod. apply Issue_paced; try done; simpl; lia.
Qed.

Lemma NextFrame_paced I d s l :
  paced I s l → 1 + Z.of_nat (length l) < 2 ^ 64 - 1 → running_ s = true →
  next_frame_timer_ s = Some d → d ≤ clock s →
  paced I (exec (react NextFrameFires) s) (l ++ issues (events (react NextFrameFires) s)).
Proof.
  intros Hp Hlen Hr Hd Hdue. destruct (paced_timer _ _ _ Hp d Hd) as [Hpace H0].
  simpl. rewrite exec_mod, events_mod. apply Issue_paced; try done; [|simpl; lia].
  eapply paced_ext; [exact Hp|done..|by left|]. by right; right.
Qed.

(** While a frame of the chain is unacknowledged, none is scheduled. *)
Lemma live_unscheduled n k s : chain n s → running_ s = true →
  in_viz s !! k = Some (weak_generation s, issue_epoch_ s) → next_frame_timer_ s = None.
Proof.
  intros Hc Hr Hk. pose proof (chain_token _ _ Hc Hr) as Ht. apply live_delete in Hk.
  rewrite decide_True in Hk by done. unfold scheduled in Ht.
  destruct (next_frame_timer_ s); [lia|done].
Qed.

Definition timely (i : input) (s : driver) : Prop :=
  match i with
  | NextFrameFires => ∃ d, next_frame_timer_ s = Some d ∧ d ≤ clock s
  | WatchdogFires => ∃ d, stall_watchdog_timer_ s = Some d ∧ d ≤ clock s
  | _ => True
  end.

(** Every step of a driver that is not started again keeps the pace. *)
Lemma react_paced I n i s l :
  chain n s → paced I s l → I ≤ Seconds 1 → 1 + Z.of_nat (length l) < 2 ^ 64 - 1 →
  timely i s → i ≠ DoStart →
  paced I (exec (react i) s) (l ++ issues (events (react i) s)).
Proof.
  intros Hc Hp HI Hlen Ht Hns. destruct i as [| |b|b| |k| | | |m]; [done| | | | | | | | |]; simpl in Ht.
  - simpl. unfold Stop. rewrite exec_get, events_get.
    destruct (running_ s); rewrite app_nil_r; [|done].
    eapply paced_ext; [exact Hp|done..|by left|by right; left].
  - simpl. rewrite app_nil_r. eapply paced_ext; [exact Hp|done..|by right|by right; right].
  - simpl. rewrite app_nil_r. eapply paced_ext; [exact Hp|done..|by right|by right; right].
  - simpl. unfold NotifyDisplayReconfigured. rewrite exec_get, events_get.
    destruct (running_ s), (awaiting_reconfigure_ack_ s); rewrite app_nil_r; try done.
    eapply paced_ext; [exact Hp|done..|by right|by left].
  - simpl. rewrite exec_get, events_get.
    destruct (in_viz s !! k) as [[g e]|] eqn:Hk; [|by rewrite app_nil_r].
    rewrite exec_mod, events_mod.
    assert (paced I (s <| in_viz := delete k (in_viz s) |>) l) as Hp1
      by (eapply paced_ext; [exact Hp|done..|by right|by right; right]).
    destruct (g =? _)%nat eqn:Hg; [|by rewrite app_nil_r]. apply Nat.eqb_eq in Hg as ->.
    simpl.
    destruct (decide (running_ s = true ∧ e = issue_epoch_ s)) as [[Hr ->]|Hno].
    + apply Ack_paced; try done. exact (live_unscheduled n k s Hc Hr Hk).
    + unfold OnBeginFrameAck. rewrite exec_get, events_get.
      change (running_ (s <| in_viz := delete k (in_viz s) |>)) with (running_ s).
      destruct (running_ s); [|by rewrite app_nil_r].
      change (issue_epoch_ (s <| in_viz := delete k (in_viz s) |>)) with (issue_epoch_ s).
      destruct (e =? issue_epoch_ s) eqn:Heq; [|by rewrite app_nil_r].
      apply Z.eqb_eq in Heq. by destruct Hno.
  - destruct Ht as (d & Hd & Hdue). eapply NextFrame_paced; try done.
    destruct (running_ s) eqn:Hr; [done|]. by destruct (chain_idle _ _ Hc Hr) as (_ & ? & _); congruence.
  - destruct Ht as (d & Hd & Hdue). eapply Watchdog_paced; try done.
    destruct (next_frame_timer_ s) eqn:Hf; [|done]. rewrite (chain_armed _ _ Hc) in Hd; [done|congruence].
  - simpl. rewrite exec_mod, events_mod. unfold OnReconfigureNudge. rewrite exec_get, events_get.
    destruct (_ || _); unfold issues; simpl; rewrite app_nil_r;
      (eapply paced_ext; [exact Hp|done..|by right|by right; right]).
  - simpl. rewrite exec_mod, events_mod. unfold exec, events. rewrite Diagnostic_run.
    unfold issues. simpl. destruct (dies _ _); simpl; rewrite app_nil_r;
      (eapply paced_ext; [exact Hp|done..|by right|by right; right]).
Qed.
End pace.

(** ** Properties *)

Section properties.
Context {T : BaseTime}.

(** Executions of a driver that is started once, at [t0]. *)
Definition started (interval t0 : Z) (rest : list (Z * input)) : list (Z * input) :=
  (t0, DoStart) :: rest.
Definition reached (interval t0 : Z) (rest : list (Z * input)) : driver :=
  exec (run handle (started interval t0 rest)) (CbBeginFrameDriver interval).
Definition trace (interval t0 : Z) (rest : list (Z * input)) : list event :=
  events (run handle (started interval t0 rest)) (CbBeginFrameDriver interval).
Definition once (interval t0 : Z) (rest : list (Z * input)) : Prop :=
  all_enabled enabled handle (started interval t0 rest) (CbBeginFrameDriver interval) = true ∧
  Forall (λ i, i.2 ≠ DoStart) rest ∧ Z.of_nat (length rest) < 2 ^ 64 - 3.

Lemma enabled_armed i s : enabled i s = true →
  armed i.2 (s <| clock := i.1 |>) ∧ timely i.2 (s <| clock := i.1 |>).
Proof.
  destruct i as [t i]. unfold enabled. simpl. intros [_ He]%andb_true_iff.
  destruct i; simpl; try done.
  - destruct (next_frame_timer_ s) as [d|]; [|done]. apply Z.leb_le in He. split; [done|]. by exists d.
  - destruct (stall_watchdog_timer_ s) as [d|]; [|done]. apply Z.leb_le in He. split; [done|]. by exists d.
  - apply andb_true_iff in He as [He _]. by destruct (diagnostic_timer_ s).
Qed.

Lemma ClampFrameInterval_range i :
  kFastestRateInterval ≤ ClampFrameInterval i ≤ kSlowestRateInterval.
Proof.
  pose proof Hertz_60. unfold ClampFrameInterval, clamp, kFastestRateInterval, kSlowestRateInterval.
  destruct (Z.ltb_spec i (Hertz 60)); [lia|]. destruct (Z.ltb_spec (Hertz 1) i); lia.
Qed.

(** A step issues one frame at most. *)
Lemma Issue_issues s : length (issues (events IssueOneBeginFrame s)) = if running_ s then 1%nat else 0%nat.
Proof.
  destruct (running_ s) eqn:Hr.
  - unfold events. by rewrite Issue_run.
  - unfold IssueOneBeginFrame. rewrite events_get, Hr. done.
Qed.

Lemma Ack_issues e s : (length (issues (events (OnBeginFrameAck e) s)) ≤ 1)%nat.
Proof.
  unfold OnBeginFrameAck. rewrite events_get.
  destruct (running_ s), (e =? issue_epoch_ s); simpl; try lia.
  rewrite events_mod, events_bind, events_mod. destruct (awaiting_reconfigure_ack_ s); simpl;
    (destruct (0 <? _); [simpl; lia|]; rewrite Issue_issues; case_match; lia).
Qed.

Lemma Watchdog_issues s : (length (issues (events OnStallWatchdog s)) ≤ 1)%nat.
Proof.
  unfold OnStallWatchdog. rewrite events_get. destruct (running_ s); simpl; [|lia].
  rewrite events_mod. destruct (_ || _); simpl; [lia|]. rewrite events_mod, Issue_issues.
  case_match; lia.
Qed.

Lemma react_issues i s : (length (issues (events (react i) s)) ≤ 1)%nat.
Proof.
  destruct i; simpl; try lia.
  - unfold Start. rewrite events_get. destruct (running_ s); [simpl; lia|].
    rewrite !events_mod, Issue_issues. case_match; lia.
  - unfold Stop. rewrite events_get. destruct (running_ s); simpl; lia.
  - unfold NotifyDisplayReconfigured. rewrite events_get.
    destruct (running_ s), (awaiting_reconfigure_ack_ s); simpl; lia.
  - rewrite events_get. destruct (in_viz s !! k) as [[g e]|]; simpl; [|lia].
    rewrite events_mod. destruct (_ =? _)%nat; simpl; [apply Ack_issues|lia].
  - rewrite events_mod, Issue_issues. case_match; lia.
  - rewrite events_mod. apply Watchdog_issues.
  - rewrite events_mod. unfold OnReconfigureNudge. rewrite events_get. destruct (_ || _); simpl; lia.
  - rewrite events_mod. unfold events. rewrite Diagnostic_run. unfold issues. simpl.
    destruct (dies _ _); simpl; lia.
Qed.

Lemma reached_snoc interval t0 rest i :
  reached interval t0 (rest ++ [i]) = exec (handle i) (reached interval t0 rest) ∧
  trace interval t0 (rest ++ [i]) = trace interval t0 rest ++ events (handle i) (reached interval t0 rest).
Proof.
  unfold reached, trace, started. rewrite app_comm_cons.
  destruct (run_app handle ((t0, DoStart) :: rest) [i] (CbBeginFrameDriver interval)) as [-> ->].
  by unfold exec, events; rewrite run_one.
Qed.

Lemma all_enabled_snoc ins (i : Z * input) s :
  all_enabled enabled handle (ins ++ [i]) s = true →
  all_enabled enabled handle ins s = true ∧ enabled i (exec (run handle ins) s) = true.
Proof.
  rewrite all_enabled_app. intros [H1 H2]%andb_true_iff. split; [done|].
  generalize dependent (exec (run handle ins) s). intros s2. simpl. by rewrite andb_true_r.
Qed.

Lemma once_snoc interval t0 rest i : once interval t0 (rest ++ [i]) →
  once interval t0 rest ∧ enabled i (reached interval t0 rest) = true ∧ i.2 ≠ DoStart ∧
  Z.of_nat (length rest) < 2 ^ 64 - 4.
Proof.
  intros (H1 & H2 & H3). rewrite length_app, Nat2Z.inj_add in H3.
  apply Forall_app in H2 as [H2 H2'%Forall_inv].
  unfold started in H1. rewrite app_comm_cons in H1. apply all_enabled_snoc in H1 as [H1 H1'].
  split; [split; [exact H1|split; [exact H2|]]|split; [exact H1'|split; [exact H2'|]]];
    clear - H3; cbn [length] in H3; lia.
Qed.

Lemma handle_chain n i s : n + 1 < 2 ^ 64 → chain n s → armed i.2 (s <| clock := i.1 |>) →
  chain (n + 1) (exec (handle i) s).
Proof.
  intros Hn Hc Ha. unfold handle. rewrite exec_mod. apply react_chain; [done| |done].
  destruct Hc. by split.
Qed.

Lemma start_run I t0 :
  handle (t0, DoStart) (mkDriver I false 1 0 false 0 0 None None false None 0 false None 0 0 0 0
    false false 0 [] 0) =
  (tt, mkDriver I true 2 0 false 0 t0 None (Some (t0 + Seconds 1)) false None 0 false
    (Some (t0 + Seconds 5)) 1 0 0 0 false false 0 [(0%nat, 0)] t0,
   [ScheduleFullRedraw; IssueExternalBeginFrame 1 t0 (t0 + I) I]).
Proof. vm_compute. reflexivity. Qed.

Lemma reached_start interval t0 :
  chain 1 (reached interval t0 []) ∧
  paced (ClampFrameInterval interval) (reached interval t0 []) (issues (trace interval t0 [])) ∧
  length (issues (trace interval t0 [])) = 1%nat.
Proof.
  unfold reached, trace, started, CbBeginFrameDriver, exec, events.
  generalize (ClampFrameInterval interval) as I. intros I. rewrite run_one, start_run. simpl.
  split; [|split; [|done]].
  - split; simpl; try done; [|by intros; right].
    apply Forall_singleton. right. simpl. lia.
  - split; simpl; try done. by intros d [= <-].
Qed.

Lemma step_inv I n i s l :
  chain n s → paced I s l → Z.of_nat (length l) ≤ n → n < 2 ^ 64 - 3 → I ≤ Seconds 1 →
  enabled i s = true → i.2 ≠ DoStart →
  chain (n + 1) (exec (handle i) s) ∧ paced I (exec (handle i) s) (l ++ issues (events (handle i) s)) ∧
  Z.of_nat (length (l ++ issues (events (handle i) s))) ≤ n + 1.
Proof.
  intros Hc Hp Hl Hn HI He Hns. destruct (enabled_armed _ _ He) as [Ha Ht].
  split; [apply handle_chain; [lia|done..]|].
  assert (chain n (s <| clock := i.1 |>)) as Hc1 by (destruct Hc; by split).
  assert (paced I (s <| clock := i.1 |>) l) as Hp1
    by (eapply paced_ext; [exact Hp|done..|by right|by right; right]).
  unfold handle. rewrite exec_mod, events_mod, length_app.
  pose proof (react_issues i.2 (s <| clock := i.1 |>)).
  split; [|lia]. eapply react_paced; try done. lia.
Qed.

(** What holds in every such execution. *)
Lemma once_inv interval t0 rest : once interval t0 rest →
  chain (Z.of_nat (length rest) + 1) (reached interval t0 rest) ∧
  paced (ClampFrameInterval interval) (reached interval t0 rest) (issues (trace interval t0 rest)) ∧
  Z.of_nat (length (issues (trace interval t0 rest))) ≤ Z.of_nat (length rest) + 1.
Proof.
  induction rest as [|i rest IH] using rev_ind.
  { intros _. destruct (reached_start interval t0) as (H1 & H2 & H3). rewrite H3.
    split; [exact H1|split; [exact H2|simpl; lia]]. }
  intros (Ho & He & Hns & Hlen)%once_snoc. destruct (IH Ho) as (Hc & Hp & Hl). clear IH.
  destruct (reached_snoc interval t0 rest i) as [-> ->]. rewrite issues_app, (length_app rest).
  replace (Z.of_nat (length rest + length [i]) + 1) with (Z.of_nat (length rest) + 1 + 1)
    by (cbn [length]; lia).
  apply step_inv; try assumption; [lia|].
  pose proof (ClampFrameInterval_range interval) as [_ Hslow].
  unfold kSlowestRateInterval in Hslow. by rewrite Hertz_1 in Hslow.
Qed.

(** C26. A driver that is started once issues frames 1, 2, 3, ... at least the
    frame interval apart, whatever the order of acknowledgements, timers,
    reconfigurations and reports; the interval is the one asked for, between
    one sixtieth of a second and one second; and as long as it runs the chain
    is not lost: there is exactly one frame of the chain that viz holds or is
    scheduled. *)
Theorem begin_frame_pacing interval t0 rest :
  once interval t0 rest →
  let s := reached interval t0 rest in
  let l := issues (trace interval t0 rest) in
  l.*1 = seqZ 1 (Z.of_nat (length l)) ∧
  (∀ k t t', l.*2 !! k = Some t → l.*2 !! S k = Some t' → t + ClampFrameInterval interval ≤ t') ∧
  kFastestRateInterval ≤ ClampFrameInterval interval ≤ kSlowestRateInterval ∧
  (running_ s = true → (length (live s) + scheduled s = 1)%nat).
Proof.
  intros (Hc & Hp & _)%once_inv. cbn zeta.
  split; [exact (paced_numbers _ _ _ Hp)|]. split; [exact (paced_spaced _ _ _ Hp)|].
  split; [apply ClampFrameInterval_range|]. exact (chain_token _ _ Hc).
Qed.

Lemma Ack_issues_live e s : issues (events (OnBeginFrameAck e) s) ≠ [] →
  running_ s = true ∧ e = issue_epoch_ s.
Proof.
  unfold OnBeginFrameAck. rewrite events_get.
  destruct (running_ s); [|done]. destruct (e =? issue_epoch_ s) eqn:He; [|done].
  by apply Z.eqb_eq in He.
Qed.

Lemma Watchdog_issues_late s : issues (events OnStallWatchdog s) ≠ [] →
  first_ack_received_ s = true ∧ awaiting_reconfigure_ack_ s = false ∧
  kWatchdogFiresBeforeReissue ≤ watchdog_fires_without_ack_ s + 1.
Proof.
  unfold OnStallWatchdog. rewrite events_get. destruct (running_ s); [|done].
  cbn [negb]. rewrite events_mod.
  destruct (awaiting_reconfigure_ack_ s); [done|]. destruct (first_ack_received_ s); [|done].
  destruct (Z.ltb_spec (watchdog_fires_without_ack_ s + 1) kWatchdogFiresBeforeReissue); [done|].
  done.
Qed.

(** No frame is issued over another: of a driver started once, a frame is
    issued when the timer fires and viz holds no frame of the chain, or when
    viz acknowledges the one it holds, or by the watchdog - and then fifteen
    seconds have passed since the last frame, an acknowledgement has been
    received before, and no reconfiguration of the display is being waited
    for. *)
Theorem no_double_issue interval t0 rest t i :
  once interval t0 (rest ++ [(t, i)]) →
  let s := reached interval t0 rest in
  issues (events (handle (t, i)) s) ≠ [] →
  (i = NextFrameFires ∧ live s = []) ∨
  (∃ k, i = Ack k ∧ in_viz s !! k = Some (weak_generation s, issue_epoch_ s) ∧
        length (live s) = 1%nat) ∨
  (i = WatchdogFires ∧ first_ack_received_ s = true ∧ awaiting_reconfigure_ack_ s = false ∧
   last_issue_time_ s + Seconds 15 ≤ t).
Proof.
  intros (Ho & He & Hns & _)%once_snoc. destruct (once_inv _ _ _ Ho) as (Hc & Hp & _).
  cbn zeta. revert Hc Hp He. generalize (reached interval t0 rest) as s. intros s Hc Hp He.
  destruct (enabled_armed _ _ He) as [Ha Ht]. unfold handle. rewrite events_mod.
  destruct i as [| |b|b| |k| | | |m]; cbn [fst snd] in *; try done.
  - simpl. unfold Stop. rewrite events_get. by destruct (running_ _).
  - simpl. unfold NotifyDisplayReconfigured. rewrite events_get.
    destruct (running_ _); [|done]. by destruct (awaiting_reconfigure_ack_ _).
  - simpl. rewrite events_get. cbn. destruct (in_viz s !! k) as [[g e]|] eqn:Hk; [|done].
    rewrite events_mod. destruct (g =? _)%nat eqn:Hg; [|done]. apply Nat.eqb_eq in Hg as ->.
    intros [Hr ->]%Ack_issues_live. right. left. exists k. split; [done|]. split; [done|].
    apply live_delete in Hk. rewrite decide_True in Hk by done.
    pose proof (chain_token _ _ Hc Hr). lia.
  - intros _. left. split; [done|].
    destruct (running_ s) eqn:Hr; [|by destruct (chain_idle _ _ Hc Hr)].
    pose proof (chain_token _ _ Hc Hr) as Htok. unfold scheduled in Htok. simpl in Ha.
    destruct (next_frame_timer_ s); [|done]. apply length_zero_iff_nil. lia.
  - intros Hi. right. right. split; [done|]. simpl in Hi. rewrite events_mod in Hi.
    apply Watchdog_issues_late in Hi as (H1 & H2 & H3). split; [done|]. split; [done|].
    destruct Ht as (d & Hd & Hdue). pose proof (paced_watchdog _ _ _ Hp d Hd).
    unfold kWatchdogFiresBeforeReissue, Seconds in *. simpl in *. lia.
  - simpl. rewrite events_mod. unfold OnReconfigureNudge. rewrite events_get. by destruct (_ || _).
  - simpl. rewrite events_mod. unfold events. rewrite Diagnostic_run. unfold issues. simpl.
    by destruct (dies _ _).
Qed.

(** The watchdog firing [n] times, each time as soon as it is due. *)
Fixpoint waits (n : nat) (d : Z) : list (Z * input) :=
  match n with
  | O => []
  | S n' => (d, WatchdogFires) :: waits n' (d + Seconds 1)
  end.

(** The state in which a frame has been lost. *)
Definition lost (d : Z) (s : driver) : Prop :=
  running_ s = true ∧ first_ack_received_ s = true ∧ awaiting_reconfigure_ack_ s = false ∧
  stall_watchdog_timer_ s = Some d ∧ clock s ≤ d.

Lemma lost_enabled d s : lost d s → enabled (d, WatchdogFires) s = true.
Proof.
  intros (_ & _ & _ & Hd & Hc). unfold enabled. simpl. rewrite Hd. simpl.
  apply andb_true_iff. split; apply Z.leb_le; [done|lia].
Qed.

Lemma wait_step d s : lost d s → watchdog_fires_without_ack_ s + 1 < kWatchdogFiresBeforeReissue →
  ∃ s2, handle (d, WatchdogFires) s = (tt, s2, []) ∧ lost (d + Seconds 1) s2 ∧
    watchdog_fires_without_ack_ s2 = watchdog_fires_without_ack_ s + 1 ∧
    next_sequence_number_ s2 = next_sequence_number_ s ∧ in_viz s2 = in_viz s ∧
    issue_epoch_ s2 = issue_epoch_ s ∧ weak_generation s2 = weak_generation s.
Proof.
  intros (Hr & Hf & Ha & Hd & Hc) Hlt%Z.ltb_lt. destruct s. simpl in *. subst.
  unfold handle, react, OnStallWatchdog. run_eff. rewrite Hlt. simpl.
  eexists. split; [reflexivity|]. repeat split. simpl. unfold Seconds. lia.
Qed.

Lemma run_silent (i : Z * input) l s s2 :
  handle i s = (tt, s2, []) → run handle (i :: l) s = run handle l s2.
Proof.
  intros Hi. unfold run. rewrite fmap_cons. cbn [eseq]. unfold mbind at 1, eff_bind.
  rewrite Hi. by destruct (eseq (handle <$> l) s2) as [[? ?] ?].
Qed.

Lemma reissue_step d s : lost d s → watchdog_fires_without_ack_ s + 1 = kWatchdogFiresBeforeReissue →
  issues (events (handle (d, WatchdogFires)) s) = [(next_sequence_number_ s, d)] ∧
  in_viz (exec (handle (d, WatchdogFires)) s) =
    in_viz s ++ [(weak_generation s, inc64 (issue_epoch_ s))] ∧
  issue_epoch_ (exec (handle (d, WatchdogFires)) s) = inc64 (issue_epoch_ s) ∧
  weak_generation (exec (handle (d, WatchdogFires)) s) = weak_generation s.
Proof.
  intros (Hr & Hf & Ha & Hd & Hc) He. destruct s. simpl in *. subst.
  unfold handle, react, OnStallWatchdog. run_eff. rewrite He. done.
Qed.

Lemma waits_reissue n d s : lost d s →
  watchdog_fires_without_ack_ s + 1 + Z.of_nat n = kWatchdogFiresBeforeReissue →
  all_enabled enabled handle (waits (S n) d) s = true ∧
  issues (events (run handle (waits (S n) d)) s) = [(next_sequence_number_ s, d + Seconds (Z.of_nat n))] ∧
  let s' := exec (run handle (waits (S n) d)) s in
  in_viz s' = in_viz s ++ [(weak_generation s, inc64 (issue_epoch_ s))] ∧
  issue_epoch_ s' = inc64 (issue_epoch_ s) ∧ weak_generation s' = weak_generation s.
Proof.
  revert d s. induction n as [|n IH]; intros d s Hl Hf.
  - cbn [waits all_enabled]. rewrite (lost_enabled _ _ Hl). split; [done|].
    unfold events, exec. rewrite run_one. replace (d + Seconds (Z.of_nat 0)) with d by (unfold Seconds; lia).
    apply reissue_step; [done|lia].
  - assert (watchdog_fires_without_ack_ s + 1 < kWatchdogFiresBeforeReissue) as Hlt by lia.
    change (waits (S (S n)) d) with ((d, WatchdogFires) :: waits (S n) (d + Seconds 1)).
    cbn [all_enabled]. rewrite (lost_enabled _ _ Hl). cbn [andb].
    destruct (wait_step d s Hl Hlt) as (s2 & Hs2 & Hl2 & Hf2 & Hq & Hv & He & Hg).
    destruct (IH (d + Seconds 1) s2 Hl2) as (H1 & H2 & H3); [lia|].
    unfold exec, events. rewrite Hs2. rewrite (run_silent _ (waits (S n) (d + Seconds 1)) _ _ Hs2).
    unfold exec, events in H1, H2, H3. rewrite Hq, Hv, He, Hg in *.
    split; [exact H1|]. split; [|exact H3]. rewrite H2. do 2 f_equal. unfold Seconds. lia.
Qed.

(** A lost acknowledgement is recovered from: when viz never acknowledges the
    frame it holds, and no reconfiguration is being waited for, the watchdog,
    firing whenever it is due, issues the next frame at its fifteenth fire
    without an acknowledgement - nothing before it - and the acknowledgement
    of the lost frame or of any earlier one, should it still come, is
    ignored. *)
Theorem lost_frame_reissued interval t0 rest d n :
  once interval t0 rest →
  let s := reached interval t0 rest in
  lost d s → watchdog_fires_without_ack_ s + 1 + Z.of_nat n = kWatchdogFiresBeforeReissue →
  let s' := exec (run handle (waits (S n) d)) s in
  all_enabled enabled handle (waits (S n) d) s = true ∧
  issues (events (run handle (waits (S n) d)) s) =
    [(next_sequence_number_ s, d + Seconds (Z.of_nat n))] ∧
  ∀ k t, (k < length (in_viz s))%nat → issues (events (handle (t, Ack k)) s') = [].
Proof.
  intros Ho. pose proof Ho as (_ & _ & Hlen). destruct (once_inv _ _ _ Ho) as (Hc & _ & _). clear Ho.
  cbn zeta. revert Hc. generalize (reached interval t0 rest) as s. intros s Hc Hl Hn.
  destruct (waits_reissue n d s Hl Hn) as (H1 & H2 & Hv & He & Hg).
  split; [exact H1|]. split; [exact H2|]. clear H1 H2. revert Hv He Hg.
  generalize (exec (run handle (waits (S n) d)) s) as s'. intros s' Hv He Hg k t Hk.
  destruct (issues (events (handle (t, Ack k)) s')) eqn:Hi; [done|]. exfalso.
  unfold handle in Hi. rewrite events_mod in Hi. simpl in Hi. rewrite events_get in Hi. simpl in Hi.
  destruct (in_viz s' !! k) as [[g e]|] eqn:Hk'; [|done].
  rewrite events_mod in Hi. destruct (g =? _)%nat eqn:Hge; [|done]. apply Nat.eqb_eq in Hge as ->.
  simpl in Hi. assert (e = issue_epoch_ s') as ->.
  { destruct (Ack_issues_live e (s' <| clock := t |> <| in_viz := delete k (in_viz s') |>)) as [_ ?];
      [|done]. intros Hn0. rewrite Hn0 in Hi. done. }
  rewrite Hv, lookup_app_l in Hk' by done. simpl in Hk'. rewrite Hg in Hk'.
  destruct Hc as [He0 Hh _ _ _ _ _]. eapply Forall_lookup_1 in Hh; [|exact Hk'].
  destruct Hh as [Hh|[_ Hh]]; simpl in Hh; [lia|].
  rewrite He in Hh. unfold inc64 in Hh. rewrite Z.mod_small in Hh; lia.
Qed.
End properties.

(** ** The end of a session whose renderer is dead *)

Section death.
Context {T : BaseTime}.

(** The frames captured between consecutive reports, of a capturer whose
    statistics read [m.2] at the time [m.1]. *)
Fixpoint deltas (last : Z) (ms : list (Z * Z)) : list Z :=
  match ms with
  | [] => []
  | m :: ms' => captured_delta last m.2 :: deltas m.2 ms'
  end.
Definition reports (ms : list (Z * Z)) : list (Z * input) := (λ m, (m.1, DiagnosticFires m.2)) <$> ms.
Definition deaths (es : list event) : list unit :=
  omap (λ e, match e with PermanentDeath => Some tt | _ => None end) es.

(** Thirty seconds without a frame. *)
Definition starved (ds : list Z) : Prop := ∃ a b, ds = a ++ replicate 6 0 ++ b.

Lemma starved_cons d ds n : (n < 6)%nat → d ≠ 0 →
  starved (replicate n 0 ++ d :: ds) ↔ starved ds.
Proof.
  intros Hn Hd. split.
  - intros (a & b & H). destruct (decide (length a ≤ n)%nat) as [Hle|Hgt].
    + assert ((replicate n 0 ++ d :: ds) !! n = Some d) as Hz.
      { rewrite lookup_app_r, length_replicate, Nat.sub_diag by (rewrite length_replicate; lia). done. }
      rewrite H, lookup_app_r, lookup_app_l in Hz by (rewrite ?length_replicate; lia).
      apply lookup_replicate in Hz as [Hz _]. done.
    + exists (drop (S n) a), b.
      assert (drop (S n) (replicate n 0 ++ d :: ds) = ds) as Hds.
      { rewrite drop_app_ge, length_replicate by (rewrite length_replicate; lia).
        by replace (S n - n)%nat with 1%nat by lia. }
      rewrite H, drop_app_le in Hds by lia. done.
  - intros (a & b & ->). exists (replicate n 0 ++ d :: a), b. by rewrite <-app_assoc.
Qed.

Lemma starved_short n : (n < 6)%nat → ¬ starved (replicate n 0).
Proof.
  intros Hn (a & b & H). apply (f_equal length) in H.
  rewrite !length_app, !length_replicate in H. lia.
Qed.

Lemma run_cons (i : Z * input) l s :
  events (run handle (i :: l)) s = events (handle i) s ++ events (run handle l) (exec (handle i) s).
Proof. unfold run. rewrite fmap_cons. cbn [eseq]. by rewrite events_bind. Qed.

(** One report of a driver that watches for the death of its renderer. *)
Definition watching (last ticks : Z) (signaled : bool) (s : driver) : Prop :=
  diag_capturer_ s = true ∧ on_permanent_death_ s = true ∧ last_reported_frames_received_ s = last ∧
  consecutive_zero_production_ticks_ s = ticks ∧ permanent_death_signaled_ s = signaled.

Lemma report_step last ticks signaled s t m : watching last ticks signaled s →
  let ticks' := if captured_delta last m =? 0 then ticks + 1 else 0 in
  let death := (kZeroProductionTicksBeforeDeath <=? ticks') && negb signaled in
  watching m ticks' (signaled || death) (exec (handle (t, DiagnosticFires m)) s) ∧
  deaths (events (handle (t, DiagnosticFires m)) s) = if death then [tt] else [].
Proof.
  intros (H1 & H2 & H3 & H4 & H5). cbn zeta. unfold handle. rewrite exec_mod, events_mod. simpl.
  rewrite exec_mod, events_mod. unfold exec, events. rewrite Diagnostic_run.
  unfold watching, dies, ticks_of, delta_of. simpl. rewrite H1, H2, H3, H4, H5. simpl.
  split; [done|]. by destruct (_ && _).
Qed.

Lemma reports_signaled ms last ticks s : watching last ticks true s →
  deaths (events (run handle (reports ms)) s) = [].
Proof.
  revert last ticks s. induction ms as [|[t m] ms IH]; intros last ticks s Hs; [done|].
  unfold reports. rewrite fmap_cons. rewrite run_cons. unfold deaths. rewrite omap_app.
  destruct (report_step _ _ _ _ t m Hs) as [H1 H2]. rewrite andb_false_r in H2.
  unfold deaths in H2, IH. cbn [fst snd]. rewrite H2. by eapply IH.
Qed.

Lemma reports_deaths ms last n s : watching last (Z.of_nat n) false s → (n < 6)%nat →
  (deaths (events (run handle (reports ms)) s) = [tt] ∧ starved (replicate n 0 ++ deltas last ms)) ∨
  (deaths (events (run handle (reports ms)) s) = [] ∧ ¬ starved (replicate n 0 ++ deltas last ms)).
Proof.
  revert last n s. induction ms as [|[t m] ms IH]; intros last n s Hs Hn.
  { right. rewrite app_nil_r. split; [done|]. by apply starved_short. }
  unfold reports. rewrite fmap_cons, run_cons. unfold deaths. rewrite omap_app. fold (reports ms).
  destruct (report_step _ _ _ _ t m Hs) as [H1 H2]. unfold deaths in H2, IH. cbn [fst snd deltas].
  rewrite H2. destruct (Z.eqb_spec (captured_delta last m) 0) as [Hz|Hz].
  - replace (Z.of_nat n + 1) with (Z.of_nat (S n)) in H1, H2 by lia. rewrite Hz.
    destruct (Z.leb_spec kZeroProductionTicksBeforeDeath (Z.of_nat n + 1)) as [Hge|Hlt];
      unfold kZeroProductionTicksBeforeDeath in *.
    + left. split.
      * simpl. pose proof (reports_signaled ms m (Z.of_nat (S n)) (exec (handle (t, DiagnosticFires m)) s)) as Hr.
        unfold deaths in Hr. rewrite Hr; [done|]. destruct (Z.leb_spec 6 (Z.of_nat (S n))); [done|lia].
      * assert (n = 5)%nat as -> by lia. by exists [], (deltas m ms).
    + destruct (Z.leb_spec 6 (Z.of_nat (S n))); [lia|]. simpl in H1.
      replace (replicate n 0 ++ 0 :: deltas m ms) with (replicate (S n) 0 ++ deltas m ms).
      2:{ rewrite replicate_S_end, <-app_assoc. done. }
      apply IH; [done|lia].
  - simpl in H1. rewrite starved_cons by done. apply (IH m 0%nat); [done|lia].
Qed.

(** The end of a session is signalled for a dead renderer only, and once: of
    a driver that has a capturer and a callback, starting from no idle report,
    the callback is run once if six consecutive reports found no captured
    frame, and never otherwise. *)
Theorem death_signalled_once ms s :
  diag_capturer_ s = true → on_permanent_death_ s = true →
  consecutive_zero_production_ticks_ s = 0 → permanent_death_signaled_ s = false →
  let ds := deltas (last_reported_frames_received_ s) ms in
  (deaths (events (run handle (reports ms)) s) = [tt] ∧ starved ds) ∨
  (deaths (events (run handle (reports ms)) s) = [] ∧ ¬ starved ds).
Proof. intros H1 H2 H3 H4. by apply (reports_deaths ms _ 0); [|lia]. Qed.
End death.

(** ** Witnesses *)

#[local] Instance microseconds : BaseTime.
Proof. refine {| Hertz n := 1000000 / n |}; [done|done]. Defined.

(** Two frames, acknowledged 10 ms after they were issued. *)
Definition two_frames : list (Z * input) :=
  [(10000, Ack 0); (33333, NextFrameFires); (40000, Ack 0)].
Lemma two_frames_once : once 33333 0 two_frames.
Proof. split; [by vm_compute|]. split; [by repeat constructor|done]. Qed.

Lemma begin_frame_pacing_witness :
  issues (trace 33333 0 two_frames) = [(1, 0); (2, 33333)] ∧
  (issues (trace 33333 0 two_frames)).*1 = seqZ 1 2.
Proof.
  split; [by vm_compute|].
  refine (proj1 (begin_frame_pacing 33333 0 two_frames _)). exact two_frames_once.
Defined.

Lemma no_double_issue_witness :
  issues (events (handle (66666, NextFrameFires)) (reached 33333 0 two_frames)) = [(3, 66666)] ∧
  live (reached 33333 0 two_frames) = [].
Proof.
  split; [by vm_compute|].
  destruct (no_double_issue 33333 0 two_frames 66666 NextFrameFires) as [[_ H]|[(k & H & _)|[H _]]].
  - split; [by vm_compute|]. split; [by repeat constructor|done].
  - by vm_compute.
  - exact H.
  - discriminate H.
  - discriminate H.
Defined.

Lemma lost_frame_reissued_witness :
  let s := reached 33333 0 (take 2 two_frames) in
  issues (events (run handle (waits 15 1033333)) s) = [(3, 15033333)].
Proof.
  refine (proj1 (proj2 (lost_frame_reissued 33333 0 (take 2 two_frames) 1033333 14 _ _ _))).
  - split; [by vm_compute|]. split; [by repeat constructor|done].
  - by vm_compute.
  - by vm_compute.
Defined.

Definition dead_renderer : list (Z * Z) :=
  (λ k, (5000000 * k, 7)) <$> seqZ 1 8.
Definition watched_driver : driver :=
  (CbBeginFrameDriver 33333) <| diag_capturer_ := true |> <| on_permanent_death_ := true |>.
Lemma death_signalled_once_witness :
  deaths (events (run handle (reports dead_renderer)) watched_driver) = [tt].
Proof.
  destruct (death_signalled_once dead_renderer watched_driver eq_refl eq_refl eq_refl eq_refl)
    as [[H _]|[_ H]]; [exact H|]. exfalso. apply H. by exists [7], [0].
Defined.
