(* ===== verification/AudioLifecycle.v ===== *)
(** * The audio lifecycle
      (capture/audio/cb_audio_lifecycle.{h,cc})

    [CbAudioLifecycle] sits between the offerer driver and the embedder: it is
    the driver's observer and passes every notification on, and it owns the
    audio source, track and transceiver of the session, which it must release
    in order and once.  Objects of libwebrtc are numbers; what is done to them
    is the trace. *)

From Stdlib Require Import ZArith Lia String.
From stdpp Require Import base tactics sets strings numbers list.
From S2P Require Import Prelude.
Open Scope string_scope.

Inductive AudioLifecycleState := kIdle | kArmed | kActive | kStopped.
#[export] Instance AudioLifecycleState_eq_dec : EqDecision AudioLifecycleState.
Proof. solve_decision. Defined.

(** [IceConnectionState::kIceConnectionConnected]. *)
Definition kIceConnectionConnected : Z := 2.

Section lifecycle.
(** The bindings of a session. *)
Context {Source Track Transceiver : Type}.

Record lifecycle := mkLifecycle {
  downstream_ : bool;
  observer_ : bool;
  adm_debug_ : bool;
  adm_worker_thread_ : bool;
  transceiver_ : option Transceiver;
  track_ : option Track;
  source_ : option Source;
  state_ : AudioLifecycleState;
  audio_activated_emitted_ : bool;
}.
#[export] Instance eta_lifecycle : Eta lifecycle := λ s,
  mkLifecycle (downstream_ s) (observer_ s) (adm_debug_ s) (adm_worker_thread_ s)
    (transceiver_ s) (track_ s) (source_ s) (state_ s) (audio_activated_emitted_ s).

Definition CbAudioLifecycle (downstream observer adm : bool) : lifecycle :=
  mkLifecycle downstream observer adm false None None None kIdle false.

(** What the driver says and the embedder is told. *)
Inductive notice :=
| IceConnectionStateChanged (state : Z)
| RenegotiationStarted (trigger : string)
| RenegotiationCompleted
| NewViewerNeedsOffer
| Closed (reason : string)
| Failed (reason : string).

Inductive event :=
| StopStandard (t : Transceiver)
| ReleaseTransceiver (t : Transceiver)
| ReleaseTrack (t : Track)
| ReleaseSource (s : Source)
| OnAudioActivated
| OnAudioStopped (graceful : bool) (reason : string)
| Forward (n : notice)
| AdmStopRecording | AdmInitRecording | AdmStartRecording.
Abbreviation M := (eff lifecycle event).

Definition observe (e : event) : M unit := s ← eget; ewhen (observer_ s) (emit e).
Definition forward (n : notice) : M unit := s ← eget; ewhen (downstream_ s) (emit (Forward n)).
Definition optional {A} (f : A → event) (x : option A) : M unit :=
  match x with Some a => emit (f a) | None => mret tt end.

Definition StopInternal (graceful : bool) (reason : string) : M unit :=
  s ← eget;
  match state_ s with
  | kStopped => mret tt
  | _ =>
      optional StopStandard (transceiver_ s);;
      emod (λ s, s <| transceiver_ := None |>);; optional ReleaseTransceiver (transceiver_ s);;
      emod (λ s, s <| track_ := None |>);; optional ReleaseTrack (track_ s);;
      emod (λ s, s <| source_ := None |>);; optional ReleaseSource (source_ s);;
      emod (λ s, s <| state_ := kStopped |>);;
      observe (OnAudioStopped graceful reason)
  end.

(** [~CbAudioLifecycle] *)
Definition destroy : M unit :=
  s ← eget;
  match state_ s with
  | kStopped | kIdle => mret tt
  | _ => StopInternal false "lifecycle destroyed"
  end.

Definition AdoptBindings (source : option Source) (track : option Track)
    (transceiver : option Transceiver) : M unit :=
  s ← eget;
  match state_ s with
  | kIdle =>
      match source, track, transceiver with
      | Some _, Some _, Some _ =>
          emod (λ s, s <| source_ := source |> <| track_ := track |>
                       <| transceiver_ := transceiver |> <| state_ := kArmed |>)
      | _, _, _ => mret tt
      end
  | _ => mret tt
  end.

Definition PrepareForTeardown (reason : string) : M unit :=
  s ← eget;
  match state_ s with
  | kStopped => mret tt
  | kIdle => emod (λ s, s <| state_ := kStopped |>);; observe (OnAudioStopped true reason)
  | kArmed | kActive => StopInternal true reason
  end.

Definition SetAdmWorkerThread (worker_thread : bool) : M unit :=
  emod (λ s, s <| adm_worker_thread_ := worker_thread |>).

Definition Rearm : M bool :=
  s ← eget;
  match state_ s with
  | kStopped =>
      ewhen (adm_debug_ s && adm_worker_thread_ s)
        (emit AdmStopRecording;; emit AdmInitRecording;; emit AdmStartRecording);;
      emod (λ s, s <| state_ := kIdle |> <| audio_activated_emitted_ := false |>);;
      mret true
  | _ => mret false
  end.

(** ICE connects. *)
Definition activate (state : Z) : M unit :=
  s ← eget;
  ewhen ((state =? kIceConnectionConnected)%Z && bool_decide (state_ s = kArmed))
    (emod (λ s, s <| state_ := kActive |>);;
     ewhen (negb (audio_activated_emitted_ s))
       (emod (λ s, s <| audio_activated_emitted_ := true |>);; observe OnAudioActivated)).
Definition OnIceConnectionStateChanged (state : Z) : M unit :=
  activate state;; forward (IceConnectionStateChanged state).

Definition OnRenegotiationStarted (trigger : string) : M unit := forward (RenegotiationStarted trigger).
Definition OnNewViewerNeedsOffer : M unit := forward NewViewerNeedsOffer.
Definition OnRenegotiationCompleted : M unit := forward RenegotiationCompleted.

(** The teardown the driver's end forces on a lifecycle that was not stopped. *)
Definition stop_late (reason : string) : M unit :=
  s ← eget;
  match state_ s with
  | kStopped => mret tt
  | kIdle => emod (λ s, s <| state_ := kStopped |>)
  | kArmed | kActive => StopInternal false reason
  end.
Definition OnClosed (reason : string) : M unit := stop_late reason;; forward (Closed reason).
Definition OnFailed (reason : string) : M unit := stop_late reason;; forward (Failed reason).

(** The observer of the driver. *)
Definition notify (n : notice) : M unit :=
  match n with
  | IceConnectionStateChanged st => OnIceConnectionStateChanged st
  | RenegotiationStarted t => OnRenegotiationStarted t
  | RenegotiationCompleted => OnRenegotiationCompleted
  | NewViewerNeedsOffer => OnNewViewerNeedsOffer
  | Closed reason => OnClosed reason
  | Failed reason => OnFailed reason
  end.

(** ** Executions *)

Inductive input :=
| Adopt (source : option Source) (track : option Track) (transceiver : option Transceiver)
| Prepare (reason : string)
| DoRearm
| AdmThread (set : bool)
| Notify (n : notice).

Definition handle (i : input) : M unit :=
  match i with
  | Adopt s t r => AdoptBindings s t r
  | Prepare reason => PrepareForTeardown reason
  | DoRearm => Rearm;; mret tt
  | AdmThread b => SetAdmWorkerThread b
  | Notify n => notify n
  end.
End lifecycle.
Arguments lifecycle : clear implicits.
Arguments event : clear implicits.
Arguments input : clear implicits.

(** ** What is owned, and released *)

Open Scope list_scope.

Section properties.
Context {Source Track Transceiver : Type}.
Abbreviation lifecycle := (lifecycle Source Track Transceiver).
Abbreviation event := (event Source Track Transceiver).
Abbreviation input := (input Source Track Transceiver).
Abbreviation bindings := (Source * Track * Transceiver)%type.

Definition holding (s : lifecycle) : list bindings :=
  match source_ s, track_ s, transceiver_ s with
  | Some a, Some b, Some c => [(a, b, c)]
  | _, _, _ => []
  end.
Definition live (s : lifecycle) : bool :=
  match state_ s with kArmed | kActive => true | _ => false end.

(** All three bindings are held while the lifecycle is armed or active, and
    none otherwise; activation has been reported of an active one only. *)
Definition inv (s : lifecycle) : Prop :=
  match state_ s with
  | kArmed | kActive =>
      source_ s ≠ None ∧ track_ s ≠ None ∧ transceiver_ s ≠ None ∧
      audio_activated_emitted_ s = bool_decide (state_ s = kActive)
  | kIdle => source_ s = None ∧ track_ s = None ∧ transceiver_ s = None ∧
      audio_activated_emitted_ s = false
  | kStopped => source_ s = None ∧ track_ s = None ∧ transceiver_ s = None
  end.

(** The bindings an input hands over and the lifecycle takes. *)
Definition accepts (i : input) (s : lifecycle) : list bindings :=
  match i with
  | Adopt (Some a) (Some b) (Some c) => if bool_decide (state_ s = kIdle) then [(a, b, c)] else []
  | _ => []
  end.
Fixpoint adopted (ins : list input) (s : lifecycle) : list bindings :=
  match ins with
  | [] => []
  | i :: ins' => accepts i s ++ adopted ins' (exec (handle i) s)
  end.

(** What is done to the bindings: an orderly teardown stops the transceiver
    and then lets go of transceiver, track and source. *)
Definition on_bindings (e : event) : bool :=
  match e with
  | StopStandard _ | ReleaseTransceiver _ | ReleaseTrack _ | ReleaseSource _ => true
  | _ => false
  end.
Definition teardown (b : bindings) : list event :=
  let '(s, k, t) := b in [StopStandard t; ReleaseTransceiver t; ReleaseTrack k; ReleaseSource s].

(** What the R5 observer and the embedder are told. *)
Definition note (e : event) : option event :=
  match e with OnAudioActivated | OnAudioStopped _ _ => Some e | _ => None end.
Definition forwarded (e : event) : option notice :=
  match e with Forward n => Some n | _ => None end.
Definition notice_of (i : input) : option notice :=
  match i with Notify n => Some n | _ => None end.

(** Tearing down what is held. *)
Definition tears (s : lifecycle) (es : list event) (s' : lifecycle) : Prop :=
  inv s → inv s' ∧ ∃ rel, filter on_bindings es = rel ≫= teardown ∧ rel ++ holding s' = holding s.
#[local] Instance tears_rel : TraceRel tears.
Proof.
  split.
  - intros s Hs. split; [done|]. by exists [].
  - intros s1 s2 s3 es1 es2 H1 H2 Hs. destruct (H1 Hs) as (Hs2 & r1 & Hf1 & Hh1).
    destruct (H2 Hs2) as (Hs3 & r2 & Hf2 & Hh2). split; [done|]. exists (r1 ++ r2).
    by rewrite filter_app, Hf1, Hf2, bind_app, <-app_assoc, Hh2.
Qed.

Lemma tears_emit e : on_bindings e = false → respects tears (emit e).
Proof.
  intros He. apply respects_emit. intros s Hs. split; [done|]. exists [].
  rewrite filter_cons_False; [done|]. rewrite He. by intros [].
Qed.
Lemma tears_observe e : on_bindings e = false → respects tears (observe e).
Proof. intros He. apply respects_get. intros s. apply respects_when; [apply tears_rel|by apply tears_emit]. Qed.
Lemma tears_forward n : respects tears (forward n).
Proof. apply respects_get. intros s. apply respects_when; [apply tears_rel|by apply tears_emit]. Qed.

Lemma Stop_run graceful reason s : inv s → live s = true → ∃ a b c,
  holding s = [(a, b, c)] ∧
  StopInternal graceful reason s =
    (tt, s <| transceiver_ := None |> <| track_ := None |> <| source_ := None |>
           <| state_ := kStopped |>,
     teardown (a, b, c) ++ if observer_ s then [OnAudioStopped graceful reason] else []).
Proof.
  destruct s as [ds ob adm wt tr tk sr st em]. unfold inv, live, holding. simpl.
  destruct st; [done| | |done]; intros (Ha & Hb & Hc & _) _;
    (destruct sr as [a|]; [|done]); (destruct tk as [b|]; [|done]); (destruct tr as [c|]; [|done]);
    exists a, b, c; (split; [done|]); unfold StopInternal, observe, optional; run_eff; by destruct ob.
Qed.

Lemma tears_stop graceful reason s : inv s → live s = true →
  tears s (events (StopInternal graceful reason) s) (exec (StopInternal graceful reason) s).
Proof.
  intros Hi Hl _. destruct (Stop_run graceful reason s Hi Hl) as (a & b & c & Hh & Hr).
  unfold events, exec. rewrite Hr. split; [done|]. exists [(a, b, c)]. rewrite Hh.
  split; [|done]. by destruct (observer_ s).
Qed.

Lemma tears_late reason : respects tears (stop_late reason).
Proof.
  intros s Hi. unfold stop_late. rewrite exec_get, events_get. pose proof Hi as Hi'. unfold inv in Hi'.
  destruct (state_ s) eqn:Hst.
  - destruct Hi' as (? & ? & ? & ?). split; [done|]. by exists [].
  - apply tears_stop; [done| |done]. unfold live. by rewrite Hst.
  - apply tears_stop; [done| |done]. unfold live. by rewrite Hst.
  - split; [done|]. by exists [].
Qed.

Lemma activate_run state s : inv s →
  activate state s = (tt,
    if (state =? kIceConnectionConnected)%Z && bool_decide (state_ s = kArmed)
    then s <| state_ := kActive |> <| audio_activated_emitted_ := true |> else s,
    if (state =? kIceConnectionConnected)%Z && bool_decide (state_ s = kArmed) && observer_ s
    then [OnAudioActivated] else []).
Proof.
  intros Hi. unfold activate. rewrite get_run. destruct (_ && _) eqn:Hb; [|done].
  apply andb_true_iff in Hb as [_ Hb%bool_decide_eq_true]. unfold inv in Hi. rewrite Hb in Hi.
  destruct Hi as (_ & _ & _ & He). simpl. rewrite mod_run, He. unfold observe. run_eff.
  by destruct (observer_ s).
Qed.

Lemma tears_activate state : respects tears (activate state).
Proof.
  intros s Hi. unfold events, exec. rewrite (activate_run _ _ Hi). simpl.
  destruct (_ && _) eqn:Hb.
  - apply andb_true_iff in Hb as [_ Hb%bool_decide_eq_true]. unfold inv in *. rewrite Hb in Hi.
    destruct Hi as (? & ? & ? & ?). split; [done|]. exists []. by destruct (observer_ s).
  - split; [done|]. by exists [].
Qed.

Lemma tears_notify n : respects tears (notify n).
Proof.
  destruct n as [st| | | |r|r]; simpl; try apply tears_forward.
  - apply respects_bind; [apply _|apply tears_activate|intros _; apply tears_forward].
  - apply respects_bind; [apply _|apply tears_late|intros _; apply tears_forward].
  - apply respects_bind; [apply _|apply tears_late|intros _; apply tears_forward].
Qed.

Lemma tears_prepare reason : respects tears (PrepareForTeardown reason).
Proof.
  intros s Hi. unfold PrepareForTeardown. rewrite exec_get, events_get.
  pose proof Hi as Hi'. unfold inv in Hi'. destruct (state_ s) eqn:Hst.
  - destruct Hi' as (? & ? & ? & ?). rewrite exec_mod, events_mod.
    destruct (tears_observe (OnAudioStopped true reason) eq_refl (s <| state_ := kStopped |>))
      as (H1' & rel & H2' & H3'); [done|]. split; [done|]. by exists rel.
  - apply tears_stop; [done| |done]. unfold live. by rewrite Hst.
  - apply tears_stop; [done| |done]. unfold live. by rewrite Hst.
  - split; [done|]. by exists [].
Qed.

Lemma tears_rearm : respects tears (Rearm;; mret tt).
Proof.
  intros s Hi. unfold Rearm. rewrite exec_bind, events_bind, exec_get, events_get, app_nil_r.
  pose proof Hi as Hi'. unfold inv in Hi'.
  destruct (state_ s) eqn:Hst; try (split; [done|by exists []]).
  destruct Hi' as (? & ? & ?).
  destruct (adm_debug_ s && adm_worker_thread_ s) eqn:Hb; simpl; rewrite ?Hb; (split; [done|by exists []]).
Qed.

Lemma adopt_spec a b c s : inv s →
  inv (exec (AdoptBindings a b c) s) ∧ events (AdoptBindings a b c) s = [] ∧
  holding (exec (AdoptBindings a b c) s) = holding s ++ accepts (Adopt a b c) s.
Proof.
  intros Hi. unfold AdoptBindings. rewrite exec_get, events_get. pose proof Hi as Hi'.
  unfold inv in Hi'. simpl. destruct (state_ s) eqn:Hst; simpl;
    try (destruct a, b, c; by rewrite app_nil_r).
  destruct Hi' as (Ha & Hb & Hc & He). destruct a, b, c; simpl; rewrite ?app_nil_r; try done.
  split; [done|]. split; [done|]. unfold holding. simpl. by rewrite Ha.
Qed.

(** One step of a lifecycle: it takes what it is handed when idle, and tears
    down what it holds. *)
Lemma step_spec i s : inv s →
  inv (exec (handle i) s) ∧
  ∃ rel, filter on_bindings (events (handle i) s) = rel ≫= teardown ∧
    rel ++ holding (exec (handle i) s) = holding s ++ accepts i s.
Proof.
  intros Hi. destruct i as [a b c|r| |t|n]; cbn [accepts handle]; rewrite ?app_nil_r.
  - destruct (adopt_spec a b c s Hi) as (H1 & H2 & H3). split; [done|]. exists []. by rewrite H2, H3.
  - by apply tears_prepare.
  - by apply tears_rearm.
  - split; [done|]. by exists [].
  - by apply tears_notify.
Qed.

Lemma run_spec ins s : inv s →
  inv (exec (run handle ins) s) ∧
  ∃ rel, filter on_bindings (events (run handle ins) s) = rel ≫= teardown ∧
    rel ++ holding (exec (run handle ins) s) = holding s ++ adopted ins s.
Proof.
  revert s. unfold run. induction ins as [|i ins IH]; intros s Hs.
  { split; [done|]. exists []. by rewrite app_nil_r. }
  rewrite fmap_cons. cbn [eseq adopted]. rewrite exec_bind, events_bind.
  destruct (step_spec i s Hs) as (H1 & r1 & H2 & H3).
  destruct (IH _ H1) as (H4 & r2 & H5 & H6). split; [done|]. exists (r1 ++ r2).
  by rewrite filter_app, H2, H5, bind_app, <-app_assoc, H6, !app_assoc, H3.
Qed.

(** C27. Nothing is leaked and nothing released twice: in every execution, whatever
    the order of adoptions, teardowns, re-arms and notifications of the driver,
    what is done to libwebrtc's objects is a sequence of complete teardowns -
    stop the transceiver, let go of it, of the track, of the source - of
    exactly the bindings the lifecycle has taken, in the order it took them,
    but for the one it still holds; and it holds one exactly when it is armed
    or active. *)
Theorem audio_bindings_released downstream observer adm ins :
  let s0 := CbAudioLifecycle downstream observer adm in
  let s := exec (run handle ins) s0 in
  (∃ released, filter on_bindings (events (run handle ins) s0) = released ≫= teardown ∧
     released ++ holding s = adopted ins s0) ∧
  (holding s = [] ↔ live s = false).
Proof.
  cbn zeta. destruct (run_spec ins (CbAudioLifecycle downstream observer adm)) as (Hi & H);
    [done|]. split; [exact H|]. revert Hi. generalize (exec (run handle ins) (CbAudioLifecycle downstream observer adm)) as s.
  intros s Hi. unfold inv, holding, live in *. destruct (state_ s).
  - by destruct Hi as (-> & _).
  - destruct Hi as (Ha & Hb & Hc & _). by destruct (source_ s), (track_ s), (transceiver_ s).
  - destruct Hi as (Ha & Hb & Hc & _). by destruct (source_ s), (track_ s), (transceiver_ s).
  - by destruct Hi as (-> & _).
Qed.

(** ** What is passed on *)

(** A computation that leaves the two observers in place and forwards nothing. *)
Definition quiet (s : lifecycle) (es : list event) (s' : lifecycle) : Prop :=
  downstream_ s' = downstream_ s ∧ observer_ s' = observer_ s ∧ omap forwarded es = [].
#[local] Instance quiet_rel : TraceRel quiet.
Proof.
  split; [done|]. intros s1 s2 s3 es1 es2 (H1 & H2 & H3) (H4 & H5 & H6).
  split; [congruence|]. split; [congruence|]. by rewrite omap_app, H3, H6.
Qed.

Ltac quiet := repeat first
  [ apply respects_get; intros ? | apply respects_bind; [apply _| |intros _]
  | apply respects_when; [apply _|] | apply respects_mod; by intros ?
  | apply respects_emit; by intros ? | apply respects_ret; apply _
  | progress unfold observe, optional, activate, stop_late, StopInternal, PrepareForTeardown,
      AdoptBindings, SetAdmWorkerThread, Rearm
  | case_match ].

Lemma quiet_late reason : respects quiet (stop_late reason).
Proof. quiet. Qed.
Lemma quiet_activate st : respects quiet (activate st).
Proof. quiet. Qed.
Lemma quiet_own i : match i with Notify _ => True | _ => respects quiet (handle i) end.
Proof. destruct i as [a b c|r| |t|n]; simpl; try done; quiet. Qed.

(** A notification is passed on once, after the lifecycle has acted on it; the
    end of the session finds every binding released. *)
Lemma notify_spec n s : downstream_ s = true → ∃ own,
  events (notify n) s = own ++ [Forward n] ∧ omap forwarded own = [] ∧
  downstream_ (exec (notify n) s) = true ∧ observer_ (exec (notify n) s) = observer_ s.
Proof.
  intros Hd.
  assert (∀ m : eff lifecycle event unit, respects quiet m → ∃ own,
    events (m;; forward n) s = own ++ [Forward n] ∧ omap forwarded own = [] ∧
    downstream_ (exec (m;; forward n) s) = true ∧ observer_ (exec (m;; forward n) s) = observer_ s) as Hm.
  { intros m Hm. destruct (Hm s) as (H1 & H2 & H3). exists (events m s).
    rewrite events_bind, exec_bind. unfold forward. rewrite events_get, exec_get, H1, Hd.
    cbn. by rewrite H1, H2, Hd. }
  assert (∃ own, events (forward n) s = own ++ [Forward n] ∧ omap forwarded own = [] ∧
    downstream_ (exec (forward n) s) = true ∧ observer_ (exec (forward n) s) = observer_ s) as Hf.
  { exists []. unfold forward. by rewrite events_get, exec_get, Hd. }
  destruct n; simpl; try exact Hf;
    (apply Hm; first [apply quiet_activate|apply quiet_late]).
Qed.

Lemma handle_forwards i s : downstream_ s = true →
  downstream_ (exec (handle i) s) = true ∧ observer_ (exec (handle i) s) = observer_ s ∧
  omap forwarded (events (handle i) s) = omap notice_of [i].
Proof.
  intros Hd. pose proof (quiet_own i) as Hq.
  destruct i; try (destruct (Hq s) as (H1 & H2 & H3); rewrite H1; done).
  destruct (notify_spec n s Hd) as (own & H1 & H2 & H3 & H4). cbn [handle].
  rewrite H1, omap_app, H2. done.
Qed.

(** The lifecycle is a transparent observer: the embedder is told exactly what
    the driver says, in the same order. *)
Lemma audio_forwards ins s : downstream_ s = true →
  omap forwarded (events (run handle ins) s) = omap notice_of ins.
Proof.
  revert s. unfold run. induction ins as [|i ins IH]; intros s Hd; [done|].
  rewrite fmap_cons. cbn [eseq]. rewrite events_bind, omap_app.
  destruct (handle_forwards i s Hd) as (H1 & _ & ->). rewrite IH by done.
  by rewrite <-omap_app.
Qed.

(** ** What the observer of the audio is told *)

(** The notes of a session so far, and whether bindings were taken, by state. *)
Definition session_ok (s : lifecycle) (notes : list event) (taken : list bindings) : Prop :=
  match state_ s with
  | kIdle => notes = [] ∧ taken = []
  | kArmed => notes = []
  | kActive => notes = [OnAudioActivated]
  | kStopped =>
      notes = [] ∧ taken = [] ∨
      ∃ g r, notes = [OnAudioStopped g r] ∨ notes = [OnAudioActivated; OnAudioStopped g r]
  end.

Lemma note_teardown b : omap note (teardown b) = [].
Proof. by destruct b as [[? ?] ?]. Qed.

Lemma stop_session graceful reason s l t : inv s → live s = true → observer_ s = true →
  session_ok s l t →
  session_ok (exec (StopInternal graceful reason) s)
    (l ++ omap note (events (StopInternal graceful reason) s)) t.
Proof.
  intros Hi Hl Ho Hs. destruct (Stop_run graceful reason s Hi Hl) as (a & b & c & _ & Hr).
  unfold exec, events. rewrite Hr. cbn [fst snd]. rewrite omap_app, note_teardown, Ho.
  unfold session_ok, live in *. simpl. right. exists graceful, reason.
  destruct (state_ s); try done; rewrite Hs; [by left|by right].
Qed.

Lemma forward_run n (s : lifecycle) : forward n s = (tt, s, if downstream_ s then [Forward n] else []).
Proof. unfold forward. run_eff. by destruct (downstream_ s). Qed.
Lemma observe_run e (s : lifecycle) : observer_ s = true → observe e s = (tt, s, [e]).
Proof. intros Ho. unfold observe. run_eff. by rewrite Ho. Qed.

Lemma forward_session n s l t : session_ok s l t →
  session_ok (exec (forward n) s) (l ++ omap note (events (forward n) s)) t.
Proof.
  intros Hs. unfold exec, events. rewrite forward_run. cbn [fst snd].
  by destruct (downstream_ s); simpl; rewrite app_nil_r.
Qed.

Lemma late_session reason s l t : inv s → observer_ s = true → session_ok s l t →
  session_ok (exec (stop_late reason) s) (l ++ omap note (events (stop_late reason) s)) t.
Proof.
  intros Hi Ho Hs. unfold stop_late. rewrite exec_get, events_get.
  destruct (state_ s) eqn:Hst.
  - simpl. rewrite app_nil_r. unfold session_ok in *. rewrite Hst in Hs. by left.
  - apply stop_session; try done. unfold live. by rewrite Hst.
  - apply stop_session; try done. unfold live. by rewrite Hst.
  - simpl. by rewrite app_nil_r.
Qed.

Lemma activate_session st s l t : inv s → observer_ s = true → session_ok s l t →
  session_ok (exec (activate st) s) (l ++ omap note (events (activate st) s)) t.
Proof.
  intros Hi Ho Hs. unfold exec, events. rewrite activate_run by done. cbn [fst snd]. rewrite Ho.
  destruct (_ && _) eqn:Hb; simpl; [|by rewrite app_nil_r].
  apply andb_true_iff in Hb as [_ Hb%bool_decide_eq_true]. unfold session_ok in *. rewrite Hb in Hs.
  by rewrite Hs.
Qed.

Lemma notify_session n s l t : inv s → observer_ s = true → session_ok s l t →
  session_ok (exec (notify n) s) (l ++ omap note (events (notify n) s)) t.
Proof.
  intros Hi Ho Hs. destruct n as [st| | | |r|r]; simpl; try by apply forward_session.
  - unfold OnIceConnectionStateChanged. rewrite exec_bind, events_bind, omap_app, app_assoc.
    by apply forward_session, activate_session.
  - unfold OnClosed. rewrite exec_bind, events_bind, omap_app, app_assoc.
    by apply forward_session, late_session.
  - unfold OnFailed. rewrite exec_bind, events_bind, omap_app, app_assoc.
    by apply forward_session, late_session.
Qed.

Lemma prepare_session reason s l t : inv s → observer_ s = true → session_ok s l t →
  session_ok (exec (PrepareForTeardown reason) s)
    (l ++ omap note (events (PrepareForTeardown reason) s)) t.
Proof.
  intros Hi Ho Hs. unfold PrepareForTeardown. rewrite exec_get, events_get.
  destruct (state_ s) eqn:Hst.
  - rewrite exec_mod, events_mod. unfold exec, events. rewrite observe_run by done. simpl.
    unfold session_ok in *. rewrite Hst in Hs. destruct Hs as [-> _]. right. exists true, reason. by left.
  - apply stop_session; try done. unfold live. by rewrite Hst.
  - apply stop_session; try done. unfold live. by rewrite Hst.
  - simpl. by rewrite app_nil_r.
Qed.

Lemma step_session i s l t : inv s → observer_ s = true → i ≠ DoRearm → session_ok s l t →
  session_ok (exec (handle i) s) (l ++ omap note (events (handle i) s)) (t ++ accepts i s).
Proof.
  intros Hi Ho Hn Hs. destruct i as [a b c|r| |b|n]; [| |done| |]; cbn [handle accepts]; rewrite ?app_nil_r.
  - destruct (adopt_spec a b c s Hi) as (_ & He & _). rewrite He, app_nil_r.
    unfold AdoptBindings. rewrite exec_get. unfold session_ok in *.
    destruct (state_ s) eqn:Hst, a, b, c; simpl; change (exec (mret tt) s) with s;
      rewrite ?Hst, ?app_nil_r; first [done|by destruct Hs].
  - by apply prepare_session.
  - unfold events. simpl. by rewrite ?app_nil_r.
  - by apply notify_session.
Qed.

(** A session of the audio is reported at most once as activated and then at
    most once as stopped: from an idle lifecycle with an observer, and until it
    is re-armed, the notes are none, [stopped], [activated], or [activated,
    stopped]; and when the lifecycle has been stopped, the stop was reported
    unless no bindings had been taken. *)
Theorem audio_notified_once ins s :
  state_ s = kIdle → inv s → observer_ s = true → downstream_ s = true →
  Forall (λ i, i ≠ DoRearm) ins →
  let s' := exec (run handle ins) s in
  session_ok s' (omap note (events (run handle ins) s)) (adopted ins s) ∧
  omap forwarded (events (run handle ins) s) = omap notice_of ins.
Proof.
  intros Hst Hi Ho Hd Hns. cbn zeta. split; [|by apply audio_forwards].
  assert (session_ok s [] []) as Hs by (unfold session_ok; by rewrite Hst).
  enough (∀ l t, session_ok s l t →
    session_ok (exec (run handle ins) s) (l ++ omap note (events (run handle ins) s)) (t ++ adopted ins s))
    as H by exact (H [] [] Hs).
  clear Hst Hs. revert s Hi Ho Hd. unfold run.
  induction Hns as [|i ins Hn _ IH]; intros s Hi Ho Hd l t Hs.
  { simpl. unfold exec, events. simpl. by rewrite !app_nil_r. }
  rewrite fmap_cons. cbn [eseq adopted]. rewrite exec_bind, events_bind, omap_app, !app_assoc.
  destruct (step_spec i s Hi) as [Hi' _]. destruct (handle_forwards i s Hd) as (Hd' & Ho' & _).
  apply IH; [done|congruence|done|]. by apply step_session.
Qed.
End properties.

(** ** Witness *)

(** A session that is connected, ends by the driver, and is armed again. *)
Definition one_session : list (input nat nat nat) :=
  [Adopt (Some 1%nat) (Some 2%nat) (Some 3%nat); Notify (IceConnectionStateChanged 2);
   Notify (Closed "bye")].
Lemma audio_notified_once_witness :
  omap note (events (run handle one_session) (CbAudioLifecycle true true true)) =
    [OnAudioActivated; OnAudioStopped false "bye"] ∧
  omap forwarded (events (run handle one_session) (CbAudioLifecycle true true true)) =
    [IceConnectionStateChanged 2; Closed "bye"].
Proof.
  split; [by vm_compute|].
  refine (proj2 (audio_notified_once one_session (CbAudioLifecycle true true true) _ _ _ _ _));
    try reflexivity; [by repeat split|by repeat constructor].
Defined.
