(* ===== verification/SessionSupervisor.v ===== *)
(** * The session supervisor
      (capture/build-integration/cloud_browser_browser_main_parts.{h,cc}:
       StartNativeSession, RebuildNativeDataChannels, RebuildSessionMedia,
       RearmOrShutdown, RearmSession, Shutdown, the session part of
       PostMainMessageLoopRun, and the observers of the driver and of the
       signaling client; capture/audio/cb_audio_track.cc)

    [CloudBrowserBrowserMainParts] owns the session: the offerer driver, the
    audio lifecycle that observes it, and the consumers of the data channels.
    It re-arms the session in place when a viewer leaves.  The driver and the
    lifecycle are the models of [OffererDriver] and [AudioLifecycle]; what the
    driver notifies goes through the lifecycle to the handlers here.  A driver
    operation notifies last, or, in [Rearm], a handler that only posts a task,
    so its notifications are delivered when it returns.  The queue of the main
    sequence is explicit. *)

From Stdlib Require Import ZArith Lia String.
From stdpp Require Import base tactics sets strings numbers list.
From S2P Require Import Prelude Values WireEnvelope Transport OffererDriver DcHost AudioLifecycle.
Open Scope string_scope.
Open Scope Z_scope.

Definition kIceFailedGraceSecs : Z := 20.
Definition kMaxRendererReloadsPerWindow : Z := 2.
Definition kRendererCrashWindow : Z := 5 * 60 * 1000000.
Definition kIceConnectionCompleted : Z := 3.
Definition kIceConnectionFailed : Z := 4.

(** The objects the session owns besides the driver and the lifecycle. *)
Inductive part :=
| ControlChannel | FileUploadReceiver | ClipboardRelay | CursorDcEmitter | CursorXyJoin
| CursorEmitPolicy | EnvelopeAssembler | InputDispatch | InputDelegate | DataChannelHost.
#[export] Instance part_eq_dec : EqDecision part.
Proof. solve_decision. Defined.

(** What libwebrtc and the embedder's environment answer. *)
Record world := mkWorld {
  factory : pc_result;
  CreateAudioSource : option nat;
  CreateAudioTrack : option nat;
  AddTransceiver_audio : option nat;
  CreateVideoTrack : bool;
  AddTransceiver_video : bool;
  cursor_client : bool;
  begin_frame_driver : bool;
  active_web_contents : bool;
}.

Inductive task := TaskRearmOrShutdown (announce_bye : bool) | TaskClearRearming.

(** [AddSendOnlyAudioTransceiver]: all three objects or none. *)
Definition AddSendOnlyAudioTransceiver (w : world) : option nat * option nat * option nat :=
  match CreateAudioSource w with
  | None => (None, None, None)
  | Some source =>
      match CreateAudioTrack w with
      | None => (None, None, None)
      | Some track =>
          match AddTransceiver_audio w with
          | None => (None, None, None)
          | Some transceiver => (Some source, Some track, Some transceiver)
          end
      end
  end.

Section supervisor.
Context {W : WebRtc} {T E : Type} {ST : SignalingTransport T E}.
Abbreviation driver := (@off W T).
Abbreviation devent := (@off_event W E).
Abbreviation audio := (lifecycle nat nat nat).

Record session := mkSession {
  offerer_driver_ : option driver;
  audio_lifecycle_ : option audio;
  parts : list part;
  video_track_ : bool;
  rtp_stats_timer_ : bool;
  rtp_stats_timer_armed_ : bool;
  ice_failed_teardown_timer_ : bool;
  native_session_started_ : bool;
  signaling_connected_once_ : bool;
  last_ice_state_ : Z;
  renderer_crash_window_start_ : Z;
  renderer_crashes_in_window_ : Z;
  renderer_crashes_total_ : Z;
  permanent_death_signaled_ : bool;
  quit_main_message_loop_ : bool;
  tearing_down_ : bool;
  rearming_ : bool;
  posted : list task;
}.
#[export] Instance eta_session : Eta session := λ s,
  mkSession (offerer_driver_ s) (audio_lifecycle_ s) (parts s) (video_track_ s) (rtp_stats_timer_ s)
    (rtp_stats_timer_armed_ s) (ice_failed_teardown_timer_ s) (native_session_started_ s)
    (signaling_connected_once_ s) (last_ice_state_ s) (renderer_crash_window_start_ s)
    (renderer_crashes_in_window_ s) (renderer_crashes_total_ s) (permanent_death_signaled_ s)
    (quit_main_message_loop_ s) (tearing_down_ s) (rearming_ s) (posted s).

(** [SetControlChannel] and [SetUploadReceiver] are the pointers of the
    process-wide web contents delegate; [NullPc] is the use of a null
    PeerConnection. *)
Inductive sevent :=
| DriverDid (e : devent)
| AudioDid (e : AudioLifecycle.event nat nat nat)
| SetControlChannel (set : bool)
| SetUploadReceiver (set : bool)
| CancelAllPending
| CancelChooser
| ResetForNewSession
| SetLastPointerSource (set : bool)
| Bind (l : CbDcLabel) (p : part)
| Unbind (l : CbDcLabel)
| Create (p : part)
| Destroy (p : part)
| ConnectSignaling
| SetPermanentDeathCallback
| DisconnectSignaling
| Reload
| Quit
| QuitDelayed
| NullPc.
Abbreviation M := (eff session sevent).

Definition post (t : task) : M unit := emod (λ s, s <| posted := (posted s ++ [t])%list |>).
Definition has (p : part) (s : session) : bool := bool_decide (p ∈ parts s).

(** [p.reset()] and [p = make_unique(...)]. *)
Definition reset (p : part) : M unit :=
  s ← eget;
  ewhen (has p s)
    (emod (λ s, s <| parts := filter (λ q, q ≠ p) (parts s) |>);;
     ewhen (bool_decide (p = CursorDcEmitter)) (emit (Unbind kCursor));;
     emit (Destroy p)).
Definition create (p : part) : M unit :=
  reset p;; emod (λ s, s <| parts := (parts s ++ [p])%list |>);; emit (Create p).
Definition unbind (l : CbDcLabel) : M unit :=
  s ← eget; ewhen (has DataChannelHost s) (emit (Unbind l)).

(** ** Calls into the driver and the lifecycle *)

(** The lifecycle runs, and what it forwards is handled by [h]. *)
Definition on_audio {A} (h : notice → M unit) (d : A)
    (m : eff audio (AudioLifecycle.event nat nat nat) A) : M A :=
  s ← eget;
  match audio_lifecycle_ s with
  | None => mret d
  | Some a =>
      let '(r, a', es) := m a in
      emod (λ s, s <| audio_lifecycle_ := Some a' |>);;
      eseq ((λ e, match e with Forward n => h n | _ => emit (AudioDid e) end) <$> es);;
      mret r
  end.

Definition notice_of (e : devent) : option notice :=
  match e with
  | ObsOnIceConnectionStateChanged st => Some (IceConnectionStateChanged st)
  | ObsOnRenegotiationStarted t => Some (RenegotiationStarted t)
  | ObsOnRenegotiationCompleted => Some RenegotiationCompleted
  | ObsOnNewViewerNeedsOffer => Some NewViewerNeedsOffer
  | ObsOnClosed r => Some (Closed r)
  | ObsOnFailed r => Some (Failed r)
  | _ => None
  end.
Definition deliver (h : notice → M unit) (e : devent) : M unit :=
  match notice_of e with
  | Some n => on_audio h tt (notify n)
  | None => emit (DriverDid e)
  end.

(** The driver, if there is one, runs, and what it notifies is delivered. *)
Definition on_driver {A} (h : notice → M unit) (d : A) (m : eff driver devent A) : M A :=
  s ← eget;
  match offerer_driver_ s with
  | None => mret d
  | Some o =>
      let '(r, o', es) := m o in
      emod (λ s, s <| offerer_driver_ := Some o' |>);;
      eseq (deliver h <$> es);;
      mret r
  end.

(** ** Observers *)

Definition PollOutboundRtpStats : M unit := on_driver (λ _, mret tt) tt (PollOutboundStats true).

Definition OnIceConnectionStateChanged (state : Z) : M unit :=
  emod (λ s, s <| last_ice_state_ := state |>);;
  s ← eget;
  ewhen (negb (rtp_stats_timer_armed_ s) &&
         ((state =? kIceConnectionConnected) || (state =? kIceConnectionCompleted)))
    (emod (λ s, s <| rtp_stats_timer_armed_ := true |>);;
     PollOutboundRtpStats;;
     emod (λ s, s <| rtp_stats_timer_ := true |>));;
  if state =? kIceConnectionFailed then
    s ← eget;
    ewhen (negb (tearing_down_ s) && negb (ice_failed_teardown_timer_ s))
      (emod (λ s, s <| ice_failed_teardown_timer_ := true |>))
  else if (state =? kIceConnectionConnected) || (state =? kIceConnectionCompleted) then
    emod (λ s, s <| ice_failed_teardown_timer_ := false |>)
  else mret tt.

Definition OnNewViewerNeedsOffer : M unit := post (TaskRearmOrShutdown false).

Definition OnClosed (reason : string) : M unit :=
  s ← eget;
  if tearing_down_ s then mret tt else post (TaskRearmOrShutdown true).

(** What is notified while the session is being torn down: [tearing_down_] is
    set, so the ends of the session return at their first test. *)
Definition notified_tearing_down (n : notice) : M unit :=
  match n with
  | IceConnectionStateChanged st => OnIceConnectionStateChanged st
  | NewViewerNeedsOffer => OnNewViewerNeedsOffer
  | _ => mret tt
  end.

Definition OnGpuPermanentDeath : M unit :=
  s ← eget;
  if permanent_death_signaled_ s then mret tt
  else
    emod (λ s, s <| permanent_death_signaled_ := true |>);;
    match offerer_driver_ s with
    | None => mret tt
    | Some _ =>
        on_audio notified_tearing_down tt (PrepareForTeardown "gpu-permanent-death");;
        emod (λ s, s <| tearing_down_ := true |>);;
        on_driver notified_tearing_down tt (CloseUnhealthy "gpu-permanent-death")
    end;;
    s ← eget;
    ewhen (quit_main_message_loop_ s)
      (emod (λ s, s <| quit_main_message_loop_ := false |>);; emit QuitDelayed).

Definition OnFailed (reason : string) : M unit :=
  s ← eget;
  if tearing_down_ s then mret tt else OnGpuPermanentDeath.

Definition notified (n : notice) : M unit :=
  match n with
  | IceConnectionStateChanged st => OnIceConnectionStateChanged st
  | RenegotiationStarted _ | RenegotiationCompleted => mret tt
  | NewViewerNeedsOffer => OnNewViewerNeedsOffer
  | Closed r => OnClosed r
  | Failed r => OnFailed r
  end.

(** ** Building a session *)

Definition RebuildNativeDataChannels (w : world) : M unit :=
  s ← eget;
  match offerer_driver_ s ≫= pc_ with
  | None => mret tt
  | Some _ =>
      create DataChannelHost;;
      create InputDelegate;;
      emit (SetLastPointerSource true);;
      create InputDispatch;;
      emit (Bind kInput InputDispatch);;
      ewhen (cursor_client w)
        (create CursorXyJoin;; create CursorEmitPolicy;; create EnvelopeAssembler;;
         create CursorDcEmitter;; emit (Bind kCursor CursorDcEmitter));;
      create ClipboardRelay;;
      emit (Bind kClipboard ClipboardRelay);;
      create FileUploadReceiver;;
      emit (Bind kFiles FileUploadReceiver);;
      create ControlChannel;;
      emit (Bind kControl ControlChannel);;
      emit (SetControlChannel true);;
      emit (SetUploadReceiver true)
  end.

Definition RebuildSessionMedia (w : world) : M unit :=
  s ← eget;
  let pc := offerer_driver_ s ≫= pc_ in
  match pc with
  | Some _ =>
      let '(source, track, transceiver) := AddSendOnlyAudioTransceiver w in
      on_audio notified tt (AdoptBindings source track transceiver)
  | None => mret tt
  end;;
  emod (λ s, s <| video_track_ := CreateVideoTrack w |>);;
  ewhen (CreateVideoTrack w)
    match pc with
    | None => emit NullPc
    | Some _ => ewhen (negb (AddTransceiver_video w)) (emod (λ s, s <| video_track_ := false |>))
    end.

(** [t] is the signaling client made for the session. *)
Definition StartNativeSession (w : world) (t : T) : M bool :=
  s ← eget;
  if native_session_started_ s then mret false
  else
    emod (λ s, s <| audio_lifecycle_ :=
      Some (AudioLifecycle.CbAudioLifecycle true false true) |>);;
    on_audio notified tt (SetAdmWorkerThread true);;
    emod (λ s, s <| offerer_driver_ := Some (CbOffererDriver t true) |>);;
    on_driver notified tt (OffererDriver.Start (factory w));;
    emit ConnectSignaling;;
    ewhen (begin_frame_driver w) (emit SetPermanentDeathCallback);;
    RebuildNativeDataChannels w;;
    RebuildSessionMedia w;;
    emod (λ s, s <| native_session_started_ := true |>);;
    mret true.

(** ** Ending one, and making it again *)

Definition Shutdown : M bool :=
  s ← eget;
  if negb (quit_main_message_loop_ s) then mret false
  else emod (λ s, s <| quit_main_message_loop_ := false |>);; emit Quit;; mret true.

(** Letting go of what is bound to the old PeerConnection. *)
Definition release_consumers : M unit :=
  emod (λ s, s <| video_track_ := false |>);;
  emit (SetControlChannel false);;
  s ← eget;
  ewhen (has ControlChannel s) (emit CancelAllPending);;
  unbind kControl;;
  reset ControlChannel;;
  emit (SetUploadReceiver false);;
  s ← eget;
  ewhen (has FileUploadReceiver s) (emit CancelChooser;; emit ResetForNewSession);;
  unbind kFiles;;
  reset CursorDcEmitter;; reset CursorXyJoin;; reset ClipboardRelay;; reset FileUploadReceiver;;
  reset InputDispatch;; reset InputDelegate;; reset DataChannelHost.

(** An answer of [None] is [RTCError::OK]. *)
Definition RearmSession (w : world) (announce_bye : bool) : M (option string) :=
  s ← eget;
  if negb (native_session_started_ s) || negb (bool_decide (is_Some (offerer_driver_ s)))
  then mret (Some "no session to re-arm")
  else if tearing_down_ s then mret (Some "process is shutting down")
  else
    on_audio notified tt (PrepareForTeardown "rearm for next viewer");;
    release_consumers;;
    emod (λ s, s <| rtp_stats_timer_ := false |> <| rtp_stats_timer_armed_ := false |>
                 <| ice_failed_teardown_timer_ := false |> <| last_ice_state_ := 0 |>);;
    on_audio notified false AudioLifecycle.Rearm;;
    emod (λ s, s <| rearming_ := true |>);;
    driver_rearmed ← on_driver notified false (OffererDriver.Rearm announce_bye);
    post TaskClearRearming;;
    if negb driver_rearmed then mret (Some "offerer driver refused to re-arm")
    else
      on_driver notified tt (OffererDriver.Start (factory w));;
      s ← eget;
      match offerer_driver_ s ≫= pc_ with
      | None => mret (Some "re-arm produced no PeerConnection")
      | Some _ => RebuildNativeDataChannels w;; RebuildSessionMedia w;; mret None
      end.

Definition RearmOrShutdown (w : world) (announce_bye : bool) : M unit :=
  s ← eget;
  if tearing_down_ s then mret tt
  else if rearming_ s then mret tt
  else
    err ← RearmSession w announce_bye;
    match err with
    | None => mret tt
    | Some _ => Shutdown;; mret tt
    end.

(** The consumers of the data channels, at the end of the process. *)
Definition teardown_consumers : M unit :=
  emit (SetControlChannel false);;
  s ← eget;
  ewhen (has ControlChannel s) (emit CancelAllPending);;
  unbind kControl;;
  reset ControlChannel;;
  emit (SetUploadReceiver false);;
  s ← eget;
  ewhen (has FileUploadReceiver s) (emit CancelChooser);;
  unbind kFiles;;
  reset FileUploadReceiver;;
  unbind kClipboard;;
  reset ClipboardRelay;;
  reset CursorDcEmitter;; reset EnvelopeAssembler;; reset CursorEmitPolicy;; reset CursorXyJoin;;
  unbind kInput;;
  reset InputDispatch;;
  emit (SetLastPointerSource false);;
  reset InputDelegate;; reset DataChannelHost.

(** The session part of [PostMainMessageLoopRun]. *)
Definition PostMainMessageLoopRun : M unit :=
  emod (λ s, s <| tearing_down_ := true |>);;
  teardown_consumers;;
  emod (λ s, s <| video_track_ := false |>);;
  s ← eget;
  match offerer_driver_ s with
  | None => mret tt
  | Some _ =>
      on_audio notified tt (PrepareForTeardown "session ended");;
      on_driver notified tt (OffererDriver.Close "session ended");;
      emod (λ s, s <| offerer_driver_ := None |>)
  end;;
  on_audio notified tt AudioLifecycle.destroy;;
  emod (λ s, s <| audio_lifecycle_ := None |>);;
  emit DisconnectSignaling.

(** ** The signaling client's observer, and the renderer's *)

(** What [offerer_driver_->state()] is, and whether media flows. *)
Definition media_live (s : session) : bool :=
  match offerer_driver_ s with
  | Some o => st_eq (OffererDriver.state_ o) kIceInFlight &&
      ((last_ice_state_ s =? kIceConnectionConnected) || (last_ice_state_ s =? kIceConnectionCompleted))
  | None => false
  end.
Definition driver_failed (s : session) : bool :=
  match offerer_driver_ s with Some o => st_eq (OffererDriver.state_ o) kFailed | None => false end.

Definition OnConnected : M unit :=
  s ← eget;
  match offerer_driver_ s with
  | None => mret tt
  | Some _ =>
      on_driver notified tt OffererDriver.OnConnected;;
      s ← eget;
      if negb (signaling_connected_once_ s)
      then emod (λ s, s <| signaling_connected_once_ := true |>)
      else if media_live s then mret tt
      else if driver_failed s || tearing_down_ s || rearming_ s then mret tt
      else post (TaskRearmOrShutdown false)
  end.

Definition OnGaveUp : M unit :=
  s ← eget;
  if tearing_down_ s then mret tt else Shutdown;; mret tt.

Definition OnEnvelope (env : Envelope) : M unit := on_driver notified tt (OffererDriver.OnEnvelope env).

Definition OnIceFailedGraceElapsed (w : world) : M unit :=
  s ← eget;
  if tearing_down_ s then mret tt else RearmOrShutdown w true.

(** [now] is the time, in microseconds. *)
Definition OnCapturedRendererGone (w : world) (now : Z) : M unit :=
  if negb (active_web_contents w) then mret tt
  else
    s ← eget;
    ewhen (kRendererCrashWindow <? now - renderer_crash_window_start_ s)
      (emod (λ s, s <| renderer_crash_window_start_ := now |>
                    <| renderer_crashes_in_window_ := 0 |>));;
    emod (λ s, s <| renderer_crashes_in_window_ := renderer_crashes_in_window_ s + 1 |>
                 <| renderer_crashes_total_ := renderer_crashes_total_ s + 1 |>);;
    s ← eget;
    if kMaxRendererReloadsPerWindow <? renderer_crashes_in_window_ s then OnGpuPermanentDeath
    else emit Reload.

(** ** The main sequence *)

Definition run_task (w : world) (t : task) : M unit :=
  match t with
  | TaskRearmOrShutdown announce_bye => RearmOrShutdown w announce_bye
  | TaskClearRearming => emod (λ s, s <| rearming_ := false |>)
  end.

(** The next task of the queue. *)
Definition RunTask (w : world) : M unit :=
  s ← eget;
  match posted s with
  | [] => mret tt
  | t :: rest => emod (λ s, s <| posted := rest |>);; run_task w t
  end.

(** Run the queue until it is empty, [fuel] tasks at most. *)
Fixpoint drain (w : world) (fuel : nat) : M unit :=
  match fuel with
  | O => mret tt
  | S fuel' =>
      s ← eget;
      match posted s with
      | [] => mret tt
      | _ => RunTask w;; drain w fuel'
      end
  end.

(** What the main sequence and the callbacks do, one after the other: the driver
    runs for whatever reaches it, the signaling client and the renderer call
    back, a timer fires, a posted task runs, a session is started or the end
    is asked for. *)
Inductive turn :=
| SessionStarts (t : T)
| DriverRuns (m : eff driver devent unit)
| SignalingConnected
| SignalingGaveUp
| GraceElapses
| CapturedRendererGone (now : Z)
| GpuDies
| TaskRuns
| ShutdownAsked.
Definition take_turn (x : world * turn) : M unit :=
  match x.2 with
  | SessionStarts t => StartNativeSession x.1 t;; mret tt
  | DriverRuns m => on_driver notified tt m
  | SignalingConnected => OnConnected
  | SignalingGaveUp => OnGaveUp
  | GraceElapses => OnIceFailedGraceElapsed x.1
  | CapturedRendererGone now => OnCapturedRendererGone x.1 now
  | GpuDies => OnGpuPermanentDeath
  | TaskRuns => RunTask x.1
  | ShutdownAsked => Shutdown;; mret tt
  end.
End supervisor.

(** ** What the driver's notifications do *)

Section properties.
Context {W : WebRtc} {T E : Type} {ST : SignalingTransport T E}.
Abbreviation driver := (@off W T).
Abbreviation audio := (lifecycle nat nat nat).
Abbreviation session := (@session W T).
Abbreviation devent := (@off_event W E).
Abbreviation M := (eff session (@sevent W E)).

(** The state after a list of notifications. *)
Lemma deliver_exec (h : notice → M unit) (es : list devent) (s : session) :
  exec (eseq (deliver h <$> es)) s =
  foldl (λ s n, exec (on_audio h tt (notify n)) s) s (omap notice_of es).
Proof.
  revert s. induction es as [|e es IH]; intros s; [done|].
  rewrite fmap_cons. cbn [eseq]. rewrite exec_bind, IH. unfold deliver. simpl.
  by destruct (notice_of e).
Qed.

(** Running computations whose result is dropped, and then returning. *)
Lemma then_ret {A} (m : M unit) (r : A) s : (m;; mret r) s = (r, exec m s, events m s).
Proof.
  unfold mbind, eff_bind, exec, events. destruct (m s) as [[u s1] es]. unfold mret, eff_ret. simpl.
  by rewrite app_nil_r.
Qed.

Lemma on_driver_run {A} (h : notice → M unit) (d : A) (m : eff driver devent A) (s : session) o r o' es :
  offerer_driver_ s = Some o → m o = (r, o', es) →
  result (on_driver h d m) s = r ∧
  exec (on_driver h d m) s =
    foldl (λ s n, exec (on_audio h tt (notify n)) s) (s <| offerer_driver_ := Some o' |>)
      (omap notice_of es).
Proof.
  intros Ho Hm. unfold on_driver, result, exec at 1. rewrite get_run, Ho, Hm, mod_run, then_ret.
  split; [done|]. apply deliver_exec.
Qed.

Lemma forward_exec (h : notice → M unit) (es : list (AudioLifecycle.event nat nat nat)) (s : session) :
  exec (eseq ((λ e, match e with Forward n => h n | _ => emit (AudioDid e) end) <$> es)) s =
  foldl (λ s n, exec (h n) s) s (omap forwarded es).
Proof.
  revert s. induction es as [|e es IH]; intros s; [done|].
  rewrite fmap_cons. cbn [eseq]. rewrite exec_bind, IH. by destruct e.
Qed.

Lemma on_audio_run {A} (h : notice → M unit) (d : A) m (s : session) (a a' : audio) r es :
  audio_lifecycle_ s = Some a → m a = (r, a', es) →
  result (on_audio h d m) s = r ∧
  exec (on_audio h d m) s =
    foldl (λ s n, exec (h n) s) (s <| audio_lifecycle_ := Some a' |>) (omap forwarded es).
Proof.
  intros Ha Hm. unfold on_audio, result, exec at 1. rewrite get_run, Ha, Hm, mod_run, then_ret.
  split; [done|]. apply forward_exec.
Qed.

(** A notification reaches its handler once, after the lifecycle has acted on it. *)
Lemma on_audio_notify (h : notice → M unit) (s : session) (a : audio) n :
  audio_lifecycle_ s = Some a → downstream_ a = true →
  exec (on_audio h tt (notify n)) s =
    exec (h n) (s <| audio_lifecycle_ := Some (exec (notify n) a) |>).
Proof.
  intros Ha Hd. destruct (notify n a) as [[r a'] es] eqn:Hm.
  destruct (on_audio_run h tt (notify n) s a a' r es Ha Hm) as [_ ->].
  destruct (handle_forwards (Notify n) a Hd) as (_ & _ & H). unfold events in H. simpl in H.
  rewrite Hm in H. simpl in H. rewrite H. simpl. unfold exec. by rewrite Hm.
Qed.

(** ** Re-arming the driver *)

Lemma omap_wire (l : list E) : omap notice_of (OffererDriver.Wire <$> l : list devent) = [].
Proof. by induction l. Qed.

Lemma SendBye_spec (o : driver) : ∃ t ok es,
  SendByeEnvelope o = (ok, o <| ws_client_ := t |>, es) ∧ omap notice_of (es : list devent) = [].
Proof.
  unfold SendByeEnvelope, ws_Send. do 3 eexists. split; [reflexivity|].
  by rewrite omap_app, omap_wire.
Qed.

(** Closing a session that is not over notifies its end, once. *)
Lemma driver_Close (o : driver) reason source :
  teardown_emitted_ o = false → OffererDriver.state_ o ≠ kFailed →
  ∃ o' es, CloseInternal reason source o = (tt, o', es) ∧
    OffererDriver.state_ o' = OffererDriver.kClosed ∧ pc_ o' = pc_ o ∧ pcs_made o' = pcs_made o ∧
    OffererDriver.observer_ o' = OffererDriver.observer_ o ∧
    omap notice_of (es : list devent) = if OffererDriver.observer_ o then [Closed reason] else [].
Proof.
  intros Ht Hf. unfold CloseInternal. rewrite get_run, Ht.
  assert (st_eq (OffererDriver.state_ o) kFailed = false) as -> by (by destruct (OffererDriver.state_ o)).
  cbn zeta. match goal with |- context [ewhen ?b _] => generalize b end. intros b.
  assert (∃ t es, ewhen b (SendByeEnvelope;; mret tt) o = (tt, o <| ws_client_ := t |>, es) ∧
    omap notice_of (es : list devent) = []) as (t & es & Hb & He).
  { destruct b.
    - destruct (SendBye_spec o) as (t & ok & es & Hs & He). exists t, es. split; [|done].
      unfold ewhen, mbind, eff_bind. rewrite Hs. unfold mret, eff_ret. by rewrite app_nil_r.
    - exists (ws_client_ o), []. split; [|done]. by destruct o. }
  unfold mbind at 1, eff_bind at 1. rewrite Hb. clear Hb.
  destruct o as [ws ob pc ice early st ini ren td once ans con pl w made].
  unfold ClosePcOnSignalingThread, OffererDriver.observe. run_eff.
  destruct pc, ob; simpl; do 2 eexists; (split; [reflexivity|]); repeat split;
    rewrite !omap_app, He; done.
Qed.

(** What a re-arm does to a driver that has a session. *)
Lemma driver_Rearm (o : driver) (announce_bye : bool) :
  OffererDriver.state_ o ≠ OffererDriver.kIdle → OffererDriver.state_ o ≠ kFailed →
  (OffererDriver.state_ o ≠ OffererDriver.kClosed → teardown_emitted_ o = false) →
  ∃ o' es, OffererDriver.Rearm announce_bye o = (true, o', es) ∧
    OffererDriver.state_ o' = OffererDriver.kIdle ∧ pc_ o' = None ∧ pcs_made o' = pcs_made o ∧
    OffererDriver.observer_ o' = OffererDriver.observer_ o ∧
    omap notice_of (es : list devent) =
      if bool_decide (OffererDriver.state_ o = OffererDriver.kClosed) || negb (OffererDriver.observer_ o)
      then [] else [Closed "rearm"].
Proof.
  intros H1 H2 H3. unfold OffererDriver.Rearm. rewrite get_run.
  assert (st_eq (OffererDriver.state_ o) OffererDriver.kIdle = false) as ->
    by (by destruct (OffererDriver.state_ o)).
  assert (st_eq (OffererDriver.state_ o) kFailed = false) as -> by (by destruct (OffererDriver.state_ o)).
  destruct (decide (OffererDriver.state_ o = OffererDriver.kClosed)) as [Hc|Hc].
  - rewrite Hc, bool_decide_eq_true_2 by done. cbn. 
    destruct o as [ws ob pc ice early st ini ren td once ans con pl w made]. run_eff.
    destruct pc; do 2 eexists; (split; [reflexivity|by repeat split]).
  - rewrite bool_decide_eq_false_2 by done.
    assert (st_eq (OffererDriver.state_ o) OffererDriver.kClosed = false) as ->
      by (by destruct (OffererDriver.state_ o)).
    destruct (driver_Close o "rearm" (if announce_bye then "rearm" else "remote") (H3 Hc) H2)
      as (o1 & es & Hr & Hs & Hp & Hm & Ho & He).
    cbn [negb ewhen]. unfold mbind at 1, eff_bind at 1. rewrite Hr. cbn [orb].
    destruct o1 as [ws ob pc ice early st ini ren td once ans con pl w made]. simpl in *. subst.
    run_eff. destruct (pc_ o); simpl; do 2 eexists; (split; [reflexivity|]); repeat split;
      rewrite ?omap_app, He; by destruct (OffererDriver.observer_ o).
Qed.

Lemma driver_Start (o : driver) :
  OffererDriver.state_ o = OffererDriver.kIdle → ∃ o',
    OffererDriver.Start PcOk o = (tt, o', [] : list devent) ∧
    OffererDriver.state_ o' = kCreatingPc ∧ pc_ o' = Some (pcs_made o) ∧
    pcs_made o' = S (pcs_made o) ∧ OffererDriver.observer_ o' = OffererDriver.observer_ o.
Proof.
  intros Hs. destruct o as [ws ob pc ice early st ini ren td once ans con pl w made].
  simpl in Hs. subst st. unfold OffererDriver.Start. run_eff. eexists. by split.
Qed.

(** ** What a re-arm does to the session *)

(** The driver, the lifecycle and the flags: what the consumers of the data
    channels and the video track do not touch. *)
Definition core (s : session) :=
  (offerer_driver_ s, audio_lifecycle_ s, native_session_started_ s, tearing_down_ s,
   rearming_ s, quit_main_message_loop_ s, posted s).
Definition same_core (s : session) (es : list (@sevent W E)) (s' : session) : Prop := core s' = core s.
#[local] Instance same_core_rel : TraceRel same_core.
Proof. split; unfold same_core; congruence. Qed.

Lemma core_emit e : respects same_core (emit e : M unit).
Proof. by intros s. Qed.
Lemma core_mod (f : session → session) : (∀ s, core (f s) = core s) → respects same_core (emod f).
Proof. intros H s. apply H. Qed.
#[local] Hint Resolve core_emit : eff.

Lemma core_reset p : respects same_core (reset p).
Proof.
  apply respects_get. intros s. apply respects_when; [apply _|].
  apply respects_bind; [apply _|by apply core_mod|]. intros _.
  apply respects_bind; [apply _| |intros _; apply core_emit].
  apply respects_when; [apply _|apply core_emit].
Qed.
Lemma core_create p : respects same_core (create p).
Proof.
  apply respects_bind; [apply _|apply core_reset|]. intros _.
  apply respects_bind; [apply _|by apply core_mod|]. intros _. apply core_emit.
Qed.
Lemma core_unbind l : respects same_core (unbind l).
Proof. apply respects_get. intros s. apply respects_when; [apply _|apply core_emit]. Qed.

(** Walk through a computation that leaves the core alone. *)
Ltac core_walk :=
  repeat match goal with
  | |- respects same_core (eget ≫= _) => apply respects_get; intros ?
  | |- respects same_core (_ ≫= _) => apply respects_bind; [apply _| |intros ?]
  | |- respects same_core (ewhen _ _) => apply respects_when; [apply _|]
  | |- respects same_core (mret _) => apply respects_ret, _
  | |- respects same_core (emit _) => apply core_emit
  | |- respects same_core (emod _) => by apply core_mod
  | |- respects same_core (create _) => apply core_create
  | |- respects same_core (reset _) => apply core_reset
  | |- respects same_core (unbind _) => apply core_unbind
  | |- respects same_core (match ?x with _ => _ end) => destruct x
  end.

Lemma core_release : respects same_core release_consumers.
Proof. unfold release_consumers. core_walk. Qed.
Lemma core_rebuild w : respects same_core (RebuildNativeDataChannels w).
Proof. unfold RebuildNativeDataChannels. core_walk. Qed.

(** A call into the lifecycle that forwards nothing changes the lifecycle. *)
Lemma core_on_audio {A} (h : notice → M unit) (d : A) m (s : session) (a a' : audio) r es o st td re q p :
  core s = (o, Some a, st, td, re, q, p) → m a = (r, a', es) → omap forwarded es = [] →
  result (on_audio h d m) s = r ∧ core (exec (on_audio h d m) s) = (o, Some a', st, td, re, q, p).
Proof.
  intros Hc Hm He. assert (audio_lifecycle_ s = Some a) as Ha by (unfold core in Hc; by simplify_eq).
  destruct (on_audio_run h d m s a a' r es Ha Hm) as [Hr ->]. split; [done|].
  rewrite He. unfold core in *. simpl. by simplify_eq.
Qed.

(** So does a call into the driver that notifies nothing. *)
Lemma core_on_driver {A} (h : notice → M unit) (d : A) m (s : session) (o o' : driver) r es a st td re q p :
  core s = (Some o, a, st, td, re, q, p) → m o = (r, o', es) → omap notice_of (es : list devent) = [] →
  result (on_driver h d m) s = r ∧ core (exec (on_driver h d m) s) = (Some o', a, st, td, re, q, p).
Proof.
  intros Hc Hm He. assert (offerer_driver_ s = Some o) as Ho by (unfold core in Hc; by simplify_eq).
  destruct (on_driver_run h d m s o r o' es Ho Hm) as [Hr ->]. split; [done|].
  rewrite He. unfold core in *. simpl. by simplify_eq.
Qed.

(** The end of the driver's session reaches the lifecycle, then the
    supervisor, which asks for a re-arm. *)
Lemma core_driver_closes {A} (d : A) m (s : session) (o o' : driver) r es (a : audio) reason st re q p :
  core s = (Some o, Some a, st, false, re, q, p) → downstream_ a = true →
  m o = (r, o', es) → omap notice_of (es : list devent) = [Closed reason] →
  result (on_driver notified d m) s = r ∧
  core (exec (on_driver notified d m) s) =
    (Some o', Some (exec (notify (Closed reason)) a), st, false, re, q,
     (p ++ [TaskRearmOrShutdown true])%list).
Proof.
  intros Hc Hd Hm He. assert (offerer_driver_ s = Some o) as Ho by (unfold core in Hc; by simplify_eq).
  destruct (on_driver_run notified d m s o r o' es Ho Hm) as [Hr ->]. split; [done|].
  rewrite He. cbn [foldl].
  rewrite (on_audio_notify notified _ a); [|unfold core in Hc; simpl; by simplify_eq|done].
  assert (tearing_down_ s = false) as Htd by (unfold core in Hc; by simplify_eq).
  cbn [notified]. unfold OnClosed, post. rewrite exec_get. simpl. rewrite Htd.
  unfold core in *. simpl. injection Hc. by intros -> -> -> -> -> _ _.
Qed.

Lemma Prepare_run (a : audio) reason : ∃ a' es,
  PrepareForTeardown reason a = (tt, a', es) ∧ AudioLifecycle.state_ a' = kStopped ∧
  downstream_ a' = downstream_ a ∧ omap forwarded es = [].
Proof.
  destruct a as [ds ob adm wt tr tk sr st em].
  destruct st, ob, sr, tk, tr; do 2 eexists; (split; [reflexivity|by repeat split]).
Qed.

Lemma audio_Rearm_run (a : audio) : AudioLifecycle.state_ a = kStopped → ∃ a' es,
  AudioLifecycle.Rearm a = (true, a', es) ∧ AudioLifecycle.state_ a' = kIdle ∧
  downstream_ a' = downstream_ a ∧ omap forwarded es = [].
Proof.
  destruct a as [ds ob adm wt tr tk sr st em]. simpl. intros ->.
  destruct adm, wt; do 2 eexists; (split; [reflexivity|by repeat split]).
Qed.

Lemma Adopt_run (a : audio) source track transceiver : ∃ a' es,
  AdoptBindings source track transceiver a = (tt, a', es) ∧
  AudioLifecycle.state_ a' =
    (match AudioLifecycle.state_ a, source, track, transceiver with
     | kIdle, Some _, Some _, Some _ => kArmed
     | st, _, _, _ => st
     end) ∧
  downstream_ a' = downstream_ a ∧ omap forwarded es = [].
Proof.
  destruct a as [ds ob adm wt tr tk sr st em].
  destruct st, source, track, transceiver; do 2 eexists; (split; [reflexivity|by repeat split]).
Qed.

Lemma closed_stops_idle (a : audio) reason :
  AudioLifecycle.state_ a = kIdle →
  AudioLifecycle.state_ (exec (notify (Closed reason)) a) = kStopped ∧
  downstream_ (exec (notify (Closed reason)) a) = downstream_ a.
Proof. destruct a as [ds ob adm wt tr tk sr st em]. simpl. intros ->. by destruct ds. Qed.

(** Rebuilding the media leaves the driver and the queue alone, and offers the
    audio bindings to the lifecycle. *)
Lemma core_media w (s : session) o pc (a : audio) st td re q p :
  core s = (Some o, Some a, st, td, re, q, p) → pc_ o = Some pc →
  ends (RebuildSessionMedia w) s (λ _ s', ∃ a', core s' = (Some o, Some a', st, td, re, q, p) ∧
    downstream_ a' = downstream_ a ∧
    AudioLifecycle.state_ a' =
      if bool_decide (AudioLifecycle.state_ a = kIdle ∧ (AddSendOnlyAudioTransceiver w).2 ≠ None)
      then kArmed else AudioLifecycle.state_ a).
Proof.
  intros Hc Hpc. assert (offerer_driver_ s = Some o) as Ho by (unfold core in Hc; by simplify_eq).
  unfold RebuildSessionMedia. apply ends_get. rewrite Ho. cbn [mbind option_bind]. rewrite Hpc.
  assert (∃ x y z, AddSendOnlyAudioTransceiver w = (x, y, z) ∧
    ((x ≠ None ∧ y ≠ None ∧ z ≠ None) ∨ (x = None ∧ y = None ∧ z = None))) as (x & y & z & Hw & Hxyz).
  { unfold AddSendOnlyAudioTransceiver. repeat case_match; eauto 10. }
  rewrite Hw. destruct (Adopt_run a x y z) as (a' & es & Hm & Hs & Hd & He).
  destruct (core_on_audio notified tt _ s a a' tt es _ _ _ _ _ _ Hc Hm He) as [_ Hx].
  eapply ends_cut with (P := λ _ s', core s' = (Some o, Some a', st, td, re, q, p)); [exact Hx|].
  intros _ s1 H1. unfold ends.
  match goal with |- context [exec ?m s1] => assert (respects same_core m) as Hr by core_walk end.
  exists a'. rewrite <-H1. split; [apply Hr|]. split; [done|]. rewrite Hs. cbn [snd].
  destruct Hxyz as [(? & ? & ?)|(-> & -> & ->)]; [|by destruct (AudioLifecycle.state_ a)].
  by destruct (AudioLifecycle.state_ a), x, y, z.
Qed.

(** Going on from a known core. *)
Lemma core_cut {A B} (m : M A) (f : A → M B) (s : session) c Q :
  core (exec m s) = c → (∀ s', core s' = c → ends (f (result m s)) s' Q) → ends (m ≫= f) s Q.
Proof. intros Hm Hf. apply ends_bind, Hf, Hm. Qed.

(** Re-arming a session that has a driver makes a new PeerConnection, and
    leaves the lifecycle as the driver's end left it. *)
Lemma RearmSession_core w announce_bye (s : session) (o : driver) (a : audio) re q p :
  core s = (Some o, Some a, true, false, re, q, p) → downstream_ a = true →
  OffererDriver.observer_ o = true →
  OffererDriver.state_ o ≠ OffererDriver.kIdle → OffererDriver.state_ o ≠ kFailed →
  (OffererDriver.state_ o ≠ OffererDriver.kClosed → teardown_emitted_ o = false) →
  factory w = PcOk →
  let over := bool_decide (OffererDriver.state_ o = OffererDriver.kClosed) in
  ends (RearmSession w announce_bye) s (λ r s', r = None ∧ ∃ o' a',
    core s' = (Some o', Some a', true, false, true, q,
      (p ++ (if over then [] else [TaskRearmOrShutdown true]) ++ [TaskClearRearming])%list) ∧
    OffererDriver.state_ o' = kCreatingPc ∧ pc_ o' = Some (pcs_made o) ∧ pcs_made o' = S (pcs_made o) ∧
    AudioLifecycle.state_ a' =
      if over && bool_decide ((AddSendOnlyAudioTransceiver w).2 ≠ None) then kArmed
      else if over then kIdle else kStopped).
Proof.
  intros Hc Hd Hob Hi Hf Ht Hw over.
  assert (native_session_started_ s = true ∧ offerer_driver_ s = Some o ∧ tearing_down_ s = false)
    as (H1 & H2 & H3) by (unfold core in Hc; by simplify_eq).
  unfold RearmSession. apply ends_get. rewrite H1, H2, H3. cbn [negb orb].
  rewrite bool_decide_eq_true_2 by done. cbn [negb].
  destruct (Prepare_run a "rearm for next viewer") as (a1 & es1 & Hm1 & Hs1 & Hd1 & He1).
  eapply core_cut; [exact (proj2 (core_on_audio notified tt _ s a a1 tt es1 _ _ _ _ _ _ Hc Hm1 He1))|].
  intros s1 Hc1. eapply core_cut; [exact (core_release s1)|]. rewrite Hc1. intros s2 Hc2.
  eapply core_cut; [exact Hc2|]. intros s3 Hc3.
  destruct (audio_Rearm_run a1 Hs1) as (a2 & es2 & Hm2 & Hs2 & Hd2 & He2).
  eapply core_cut; [exact (proj2 (core_on_audio notified false _ s3 a1 a2 true es2 _ _ _ _ _ _ Hc3 Hm2 He2))|].
  intros s4 Hc4.
  apply core_cut with (c := (Some o, Some a2, true, false, true, q, p)).
  { unfold core in *. cbn. injection Hc4. by intros -> -> _ -> -> -> ->. }
  intros s5 Hc5.
  destruct (driver_Rearm o announce_bye Hi Hf Ht) as (o1 & es3 & Hm3 & Hs3 & Hp3 & Hn3 & Ho3 & He3).
  rewrite Hob in He3. cbn [negb] in He3. rewrite orb_false_r in He3. fold over in He3.
  eapply ends_cut with (P := λ r s', r = true ∧ ∃ a3, core s' = (Some o1, Some a3, true, false, true, q,
      (p ++ if over then [] else [TaskRearmOrShutdown true])%list) ∧ downstream_ a3 = true ∧
      AudioLifecycle.state_ a3 = if over then kIdle else kStopped).
  { unfold ends. destruct over.
    - destruct (core_on_driver notified false _ s5 o o1 true es3 _ _ _ _ _ _ Hc5 Hm3 He3) as [-> ->].
      split; [done|]. exists a2. rewrite app_nil_r. split; [done|]. split; [congruence|done].
    - assert (downstream_ a2 = true) as Hd2' by congruence.
      destruct (core_driver_closes false _ s5 o o1 true es3 a2 "rearm" _ _ _ _ Hc5 Hd2' Hm3 He3) as [-> ->].
      split; [done|]. eexists. split; [done|].
      destruct (closed_stops_idle a2 "rearm" Hs2) as [-> ->]. by split. }
  intros r s6 (-> & a3 & Hc6 & Hd6 & Hs6).
  apply ends_bind. unfold ends at 1, post. cbn [exec result emod fst snd negb].
  match goal with |- ends _ ?x _ => set (s7 := x) end.
  assert (core s7 = (Some o1, Some a3, true, false, true, q,
    ((p ++ if over then [] else [TaskRearmOrShutdown true]) ++ [TaskClearRearming])%list)) as Hc7.
  { unfold s7, core in *. cbn. injection Hc6. by intros -> -> -> -> -> -> ->. }
  clearbody s7. rewrite Hw.
  destruct (driver_Start o1 Hs3) as (o2 & Hm4 & Hs4 & Hp4 & Hn4 & Ho4).
  destruct (core_on_driver notified tt _ s7 o1 o2 tt [] _ _ _ _ _ _ Hc7 Hm4 eq_refl) as [_ Hc8].
  eapply core_cut; [exact Hc8|]. intros s8 Hc9. apply ends_get.
  assert (offerer_driver_ s8 = Some o2) as -> by (unfold core in Hc9; by simplify_eq).
  cbn [mbind option_bind]. rewrite Hp4.
  eapply core_cut; [exact (core_rebuild w s8)|]. rewrite Hc9. intros s9 Hc10.
  eapply ends_cut; [exact (core_media w s9 o2 _ a3 _ _ _ _ _ Hc10 Hp4)|]. cbn beta.
  intros _ s10 (a4 & Hc11 & Hd11 & Hs11). split; [done|]. exists o2, a4.
  rewrite app_assoc. split; [exact Hc11|]. rewrite Hs4, Hp4, Hn4, Hn3. repeat split.
  rewrite Hs11, Hs6. destruct over; simpl; [|done].
  by destruct ((AddSendOnlyAudioTransceiver w).2).
Qed.

(** A started session whose driver can be re-armed. *)
Record rearmable (s : session) (o : driver) (a : audio) : Prop := {
  ra_started : native_session_started_ s = true;
  ra_up : tearing_down_ s = false;
  ra_driver : offerer_driver_ s = Some o;
  ra_audio : audio_lifecycle_ s = Some a;
  ra_downstream : downstream_ a = true;
  ra_observer : OffererDriver.observer_ o = true;
  ra_not_idle : OffererDriver.state_ o ≠ OffererDriver.kIdle;
  ra_not_failed : OffererDriver.state_ o ≠ kFailed;
  ra_not_ended : OffererDriver.state_ o ≠ OffererDriver.kClosed → teardown_emitted_ o = false;
}.

Lemma rearmable_core s o a : rearmable s o a →
  core s = (Some o, Some a, true, false, rearming_ s, quit_main_message_loop_ s, posted s).
Proof. intros []. unfold core. congruence. Qed.

(** ** The queue while a re-arm is in progress *)

Lemma drain_nil w n s : posted s = [] → exec (drain w n) s = s.
Proof. intros Hp. destruct n; [done|]. cbn [drain]. by rewrite exec_get, Hp. Qed.
Lemma drain_cons w n s t rest : posted s = t :: rest →
  exec (drain w (S n)) s = exec (drain w n) (exec (run_task w t) (s <| posted := rest |>)).
Proof.
  intros Hp. cbn [drain]. rewrite exec_get, Hp, exec_bind. f_equal. unfold RunTask.
  by rewrite exec_get, Hp, exec_mod.
Qed.

(** Requests that arrive during a re-arm are dropped until it is over. *)
Lemma drain_busy w bs (s : session) o a st q n :
  core s = (o, a, st, false, true, q, ((TaskRearmOrShutdown <$> bs) ++ [TaskClearRearming])%list) →
  (List.length bs + 1 ≤ n)%nat →
  core (exec (drain w n) s) = (o, a, st, false, false, q, []).
Proof.
  revert s n. induction bs as [|b bs IH]; intros s n Hc Hn;
    (destruct n as [|n]; [simpl in Hn; lia|]).
  - assert (posted s = [TaskClearRearming]) as Hp by (unfold core in Hc; injection Hc; intros Hp; intros; exact Hp).
    rewrite (drain_cons w n s _ _ Hp). rewrite drain_nil by done.
    unfold core in *. cbn. injection Hc. by intros _ -> _ -> -> -> ->.
  - assert (posted s = TaskRearmOrShutdown b :: ((TaskRearmOrShutdown <$> bs) ++ [TaskClearRearming])%list
      ∧ tearing_down_ s = false ∧ rearming_ s = true) as (Hp & Ht & Hr).
    { unfold core in Hc. injection Hc. intros Hp Hq Hr Ht _ _ _. by rewrite Hp, Hr, Ht. }
    rewrite (drain_cons w n s _ _ Hp). cbn [run_task]. unfold RearmOrShutdown. rewrite exec_get. cbn [ewhen].
    set (s1 := s <| posted := _ |>).
    assert (tearing_down_ s1 = false ∧ rearming_ s1 = true) as [-> ->] by done.
    apply IH; [|simpl in Hn; lia].
    unfold s1, core in *. cbn. injection Hc. by intros _ -> -> -> -> -> ->.
Qed.

(** The driver's own end asks for one more re-arm, which is dropped too. *)
Lemma rearm_core_once w (s : session) (o : driver) (a : audio) b announces :
  rearmable s o a → factory w = PcOk → rearming_ s = false →
  posted s = (TaskRearmOrShutdown <$> announces)%list →
  ∃ o' a' more, core (exec (RearmOrShutdown w b) s) =
      (Some o', Some a', true, false, true, quit_main_message_loop_ s,
       ((TaskRearmOrShutdown <$> announces ++ more) ++ [TaskClearRearming])%list) ∧
    (List.length more ≤ 1)%nat ∧ OffererDriver.state_ o' = kCreatingPc ∧
    pc_ o' = Some (pcs_made o) ∧ pcs_made o' = S (pcs_made o).
Proof.
  intros Hra Hw Hre Hp. pose proof (rearmable_core s o a Hra) as Hc. destruct Hra.
  rewrite Hp, Hre in Hc.
  destruct (RearmSession_core w b s o a _ _ _ Hc) as (Hr & o' & a' & Hc' & Hs & Hpc & Hn & _); [done..|].
  set (over := bool_decide _) in Hc'.
  exists o', a', (if over then [] else [true]). split_and!; [|destruct over; simpl; lia|done|done|done].
  unfold RearmOrShutdown. rewrite exec_get, ra_up0, Hre, exec_bind.
  rewrite Hr. transitivity (core (exec (RearmSession w b) s)); [reflexivity|]. rewrite Hc'.
  destruct over; [by rewrite !app_nil_r|]. by rewrite fmap_app, <-!app_assoc.
Qed.

(** ** Re-arming *)

(** C11. After a re-arm the lifecycle holds the bindings of the new session exactly
    when the driver had already reported its end.  A re-arm that itself ends a
    live session stops the lifecycle after it was made ready for the next
    bindings: the next session has no audio. *)
Theorem rearm_live_driver_loses_audio w announce_bye (s : session) (o : driver) (a : audio)
    source track transceiver :
  rearmable s o a → factory w = PcOk →
  AddSendOnlyAudioTransceiver w = (Some source, Some track, Some transceiver) →
  result (RearmSession w announce_bye) s = None ∧
  AudioLifecycle.state_ <$> audio_lifecycle_ (exec (RearmSession w announce_bye) s) =
    Some (if bool_decide (OffererDriver.state_ o = OffererDriver.kClosed) then kArmed else kStopped) ∧
  pcs_made <$> offerer_driver_ (exec (RearmSession w announce_bye) s) = Some (S (pcs_made o)).
Proof.
  intros Hra Hw Hau. pose proof (rearmable_core s o a Hra) as Hc. destruct Hra.
  destruct (RearmSession_core w announce_bye s o a _ _ _ Hc) as (Hr & o' & a' & Hc' & _ & _ & Hn & Hs);
    [done..|]. split; [done|].
  unfold core in Hc'. injection Hc'. intros _ _ _ _ _ -> ->. cbn. rewrite Hs, Hn, Hau. cbn [snd].
  rewrite (bool_decide_eq_true_2 (Some transceiver ≠ None)) by done. rewrite andb_true_r.
  by destruct (bool_decide _).
Qed.

(** C10. A viewer change makes one new PeerConnection, however many requests to
    re-arm are queued for it and whatever the re-arm itself posts: when the
    queue has drained the session is ready, and the process goes on. *)
Theorem viewer_change_rearms_once w b bs (s : session) (o : driver) (a : audio) n :
  rearmable s o a → factory w = PcOk → rearming_ s = false →
  posted s = (TaskRearmOrShutdown <$> (b :: bs))%list →
  (List.length bs + 3 ≤ n)%nat →
  let s' := exec (drain w n) s in
  posted s' = [] ∧ rearming_ s' = false ∧ tearing_down_ s' = false ∧
  quit_main_message_loop_ s' = quit_main_message_loop_ s ∧
  ∃ o', offerer_driver_ s' = Some o' ∧ OffererDriver.state_ o' = kCreatingPc ∧
    pc_ o' = Some (pcs_made o) ∧ pcs_made o' = S (pcs_made o).
Proof.
  intros Hra Hw Hre Hp Hn s'. destruct n as [|n]; [lia|].
  unfold s'. rewrite (drain_cons w n s _ _ Hp). cbn [run_task].
  set (s1 := s <| posted := _ |>).
  assert (rearmable s1 o a) as Hra1 by (destruct Hra; by split).
  destruct (rearm_core_once w s1 o a b bs Hra1 Hw Hre eq_refl) as (o' & a' & more & Hc & Hl & Ho).
  apply (drain_busy w (bs ++ more) _ _ _ _ _ n) in Hc; [|rewrite length_app; lia].
  unfold core in Hc. injection Hc. intros -> -> -> -> _ _ ->. split_and!; try done.
  by exists o'.
Qed.

(** ** A start that fails *)

Definition no_pc (s : session) : Prop := offerer_driver_ s ≫= pc_ = None.

Lemma no_pc_seq (ms : list (M unit)) : Forall (preserves no_pc) ms → preserves no_pc (eseq ms).
Proof.
  induction 1 as [|m ms Hm _ IH]; [by intros s|]. apply preserves_bind; [exact Hm|]. by intros _.
Qed.
Lemma no_pc_get {B} (f : session → M B) : (∀ s, preserves no_pc (f s)) → preserves no_pc (eget ≫= f).
Proof. intros Hf. apply preserves_bind; [apply preserves_get|done]. Qed.
Lemma no_pc_core (m : M unit) : respects same_core m → preserves no_pc m.
Proof.
  intros Hm s Hs. specialize (Hm s). unfold no_pc in *. unfold same_core, core in Hm.
  injection Hm. intros _ _ _ _ _ _ Hd. exact (eq_trans (f_equal (λ d, d ≫= pc_) Hd) Hs).
Qed.
Lemma no_pc_mod (f : session → session) :
  (∀ s, offerer_driver_ (f s) = offerer_driver_ s) → preserves no_pc (emod f : M unit).
Proof. intros H s. unfold no_pc. cbn. by rewrite H. Qed.

Lemma no_pc_on_audio {A} (h : notice → M unit) (d : A) m :
  (∀ n, preserves no_pc (h n)) → preserves no_pc (on_audio h d m).
Proof.
  intros Hh. unfold on_audio. apply no_pc_get. intros s. destruct (audio_lifecycle_ s) as [a|]; [|by intros ?].
  destruct (m a) as [[r a'] es]. apply preserves_bind; [by apply no_pc_mod|]. intros _.
  apply preserves_bind; [|by intros ? ?]. apply no_pc_seq, Forall_fmap, Forall_forall.
  intros e _. simpl. destruct e; try by intros ?. apply Hh.
Qed.
Lemma no_pc_on_driver {A} (h : notice → M unit) (d : A) (m : eff driver devent A) :
  (∀ n, preserves no_pc (h n)) → (∀ o, pc_ o = None → pc_ (exec m o) = None) →
  preserves no_pc (on_driver h d m).
Proof.
  intros Hh Hm s Hs. unfold on_driver. rewrite exec_get.
  destruct (offerer_driver_ s) as [o|] eqn:Ho; [|done]. unfold no_pc in Hs. rewrite Ho in Hs. cbn in Hs.
  specialize (Hm o Hs). unfold exec in Hm. destruct (m o) as [[r o'] es]. cbn in Hm.
  rewrite exec_mod, exec_bind.
  assert (preserves no_pc (eseq (deliver h <$> es))) as Hes; [|exact (Hes (s <| offerer_driver_ := Some o' |>) Hm)].
  apply no_pc_seq, Forall_fmap, Forall_forall. intros e _. simpl. unfold deliver.
  destruct (notice_of e); [|by intros ?]. by apply no_pc_on_audio.
Qed.

(** Only [Start] gives the driver a PeerConnection. *)
Lemma driver_no_pc_mod (f : driver → driver) :
  (∀ o, pc_ (f o) = pc_ o) → preserves (λ o, pc_ o = None) (emod f : eff driver devent unit).
Proof. intros H o. cbn. by rewrite H. Qed.
Lemma CloseUnhealthy_no_pc reason :
  preserves (λ o, pc_ o = None) (CloseUnhealthy reason : eff driver devent unit).
Proof.
  assert (∀ env, preserves (λ o, pc_ o = None) (ws_Send env : eff driver devent bool)) as Hws
    by (intros env o Ho; exact Ho).
  assert (∀ b r, preserves (λ o, pc_ o = None)
    (ewhen b (SendByeEnvelope;; mret tt);;
     emod (λ s, s <| OffererDriver.state_ := OffererDriver.kClosed |> <| teardown_emitted_ := true |>
                 <| pending_remote_ice_ := [] |>);;
     ClosePcOnSignalingThread;; OffererDriver.observe (ObsOnClosed r) : eff driver devent unit)) as Hend.
  { intros b r. apply preserves_bind.
    - apply preserves_when, preserves_bind; [apply Hws|by intros ? ?].
    - intros _. apply preserves_bind; [by apply driver_no_pc_mod|]. intros _ o Ho.
      unfold ClosePcOnSignalingThread. rewrite exec_bind, exec_get, Ho. cbn.
      unfold OffererDriver.observe. rewrite exec_get. by destruct (OffererDriver.observer_ o). }
  unfold CloseUnhealthy. apply preserves_bind; [apply Hws|]. intros _.
  unfold CloseInternal. intros o Ho. rewrite exec_get. destruct (teardown_emitted_ o); [done|].
  destruct (st_eq _ _); [done|]. by apply Hend.
Qed.

Lemma no_pc_ice st : preserves no_pc (OnIceConnectionStateChanged st : M unit).
Proof.
  unfold OnIceConnectionStateChanged. apply preserves_bind; [by apply no_pc_mod|]. intros _.
  apply no_pc_get. intros s. apply preserves_bind.
  - apply preserves_when, preserves_bind; [by apply no_pc_mod|]. intros _.
    apply preserves_bind; [|intros _; by apply no_pc_mod].
    apply no_pc_on_driver; [by intros ? ? ?|]. intros o Ho. unfold PollOutboundStats.
    by rewrite exec_get, Ho.
  - intros _. destruct (st =? kIceConnectionFailed).
    + apply no_pc_get. intros s'. by apply preserves_when, no_pc_mod.
    + destruct ((_ =? _) || _); [by apply no_pc_mod|by intros ? ?].
Qed.

Lemma no_pc_notified n : preserves no_pc (notified n : M unit).
Proof.
  assert (∀ n, preserves no_pc (notified_tearing_down n : M unit)) as Htd.
  { intros []; first [by apply no_pc_ice | by apply no_pc_mod | by intros ? ?]. }
  assert (preserves no_pc (OnGpuPermanentDeath : M unit)) as Hgpu.
  { apply no_pc_get. intros s. destruct (permanent_death_signaled_ s); [by intros ? ?|].
    apply preserves_bind; [by apply no_pc_mod|]. intros _. apply preserves_bind.
    - destruct (offerer_driver_ s); [|by intros ? ?].
      apply preserves_bind; [by apply no_pc_on_audio|]. intros _.
      apply preserves_bind; [by apply no_pc_mod|]. intros _.
      apply no_pc_on_driver; [done|]. apply CloseUnhealthy_no_pc.
    - intros _. apply no_pc_get. intros s'. apply preserves_when, preserves_bind; [by apply no_pc_mod|].
      intros _. by intros ? ?. }
  destruct n; [by apply no_pc_ice|by intros ? ?|by intros ? ?|by apply no_pc_mod| |].
  - apply no_pc_get. intros s. destruct (tearing_down_ s); [by intros ? ?|by apply no_pc_mod].
  - apply no_pc_get. intros s. by destruct (tearing_down_ s); [intros ? ?|].
Qed.

(** A PeerConnection that cannot be made leaves the driver without one, and
    the media step of the start uses it all the same. *)
Theorem start_failure_derefs_null w (t : T) (s : session) :
  native_session_started_ s = false → factory w ≠ PcOk → CreateVideoTrack w = true →
  NullPc ∈ events (StartNativeSession w t) s ∧
  native_session_started_ (exec (StartNativeSession w t) s) = true.
Proof.
  intros Hn Hf Hv. unfold StartNativeSession. rewrite exec_get, events_get, Hn.
  rewrite exec_mod, events_mod, exec_bind, events_bind. generalize (exec (on_audio notified tt
    (SetAdmWorkerThread true)) (s <| audio_lifecycle_ := Some (AudioLifecycle.CbAudioLifecycle true false true) |>)).
  intros s1. split; [|by rewrite !exec_bind].
  apply elem_of_app. right. rewrite events_mod. set (s2 := s1 <| offerer_driver_ := _ |>).
  rewrite events_bind. apply elem_of_app. right.
  assert (no_pc (exec (on_driver notified tt (OffererDriver.Start (factory w))) s2)) as Hpc.
  { apply no_pc_on_driver; [apply no_pc_notified| |done]. intros o Ho. unfold OffererDriver.Start.
    rewrite exec_get. destruct (negb _); [done|]. rewrite exec_mod.
    unfold FailWithReason, ClosePcOnSignalingThread, OffererDriver.observe.
    by destruct (factory w), o as [? [] ? ? ? ? ? ? ? ? ? ? ? ? ?]; cbn in Ho; subst. }
  revert Hpc. generalize (exec (on_driver notified tt (OffererDriver.Start (factory w))) s2).
  clear - Hv. intros s3 Hpc.
  do 3 (rewrite events_bind; apply elem_of_app; right).
  rewrite events_bind. apply elem_of_app. left.
  apply (no_pc_core _ (core_emit (ConnectSignaling : @sevent W E))) in Hpc.
  assert (respects same_core (ewhen (begin_frame_driver w) (emit SetPermanentDeathCallback) : M unit)) as Hb by core_walk.
  apply (no_pc_core _ Hb) in Hpc. apply (no_pc_core _ (core_rebuild w)) in Hpc. revert Hpc.
  match goal with |- no_pc ?x → _ => generalize x end. intros s5 Hpc.
  unfold RebuildSessionMedia. rewrite events_get. unfold no_pc in Hpc. rewrite Hpc, Hv.
  apply list_elem_of_here.
Qed.

(** ** Who points at what

    The slots of the data-channel host hold raw pointers to their consumers,
    the screen one to the input delegate, the page's delegate one to the
    control channel and one to the upload receiver.  A wiring says which
    consumers are alive and which pointers are set. *)

Record wiring := mkWiring {
  alive : list part;
  bound : list (CbDcLabel * part);
  last_pointer_source : bool;
  control_channel : bool;
  upload_receiver : bool;
}.
Definition unwired : wiring := mkWiring [] [] false false false.

Definition rewire (v : wiring) (e : @sevent W E) : wiring :=
  let 'mkWiring al bo lp cc ur := v in
  match e with
  | Create p => mkWiring (al ++ [p])%list bo lp cc ur
  | Destroy p =>
      mkWiring (filter (λ q, q ≠ p) al) (if bool_decide (p = DataChannelHost) then [] else bo) lp cc ur
  | Bind l p => mkWiring al ((l, p) :: filter (λ b, b.1 ≠ l) bo) lp cc ur
  | Unbind l => mkWiring al (filter (λ b, b.1 ≠ l) bo) lp cc ur
  | SetLastPointerSource b => mkWiring al bo b cc ur
  | SetControlChannel b => mkWiring al bo lp b ur
  | SetUploadReceiver b => mkWiring al bo lp cc b
  | _ => v
  end.

Definition is_alive (v : wiring) (p : part) : bool := bool_decide (p ∈ alive v).
(** Some pointer that is set points at a consumer that is gone. *)
Definition dangling (v : wiring) : bool :=
  existsb (λ b, negb (is_alive v b.2)) (bound v) ||
  (last_pointer_source v && negb (is_alive v InputDelegate)) ||
  (control_channel v && negb (is_alive v ControlChannel)) ||
  (upload_receiver v && negb (is_alive v FileUploadReceiver)).
Fixpoint safe_along (es : list (@sevent W E)) (v : wiring) : bool :=
  negb (dangling v) && match es with [] => true | e :: es' => safe_along es' (rewire v e) end.

Lemma safe_along_app a b v :
  safe_along a v = true → safe_along b (foldl rewire v a) = true → safe_along (a ++ b) v = true.
Proof.
  revert v. induction a as [|e a IH]; intros v Ha Hb; [done|].
  cbn [safe_along app foldl] in *. apply andb_true_iff in Ha as [-> Ha]. simpl. by apply IH.
Qed.

(** What has nothing to do with the wiring. *)
Definition neutral (e : @sevent W E) : Prop := ∀ v, rewire v e = v.
Lemma neutral_rewire es v : Forall neutral es → foldl rewire v es = v.
Proof. induction 1 as [|e es He _ IH]; [done|]. cbn. by rewrite He. Qed.
Lemma neutral_safe es v : Forall neutral es → dangling v = false → safe_along es v = true.
Proof.
  intros Hes Hv. induction Hes as [|e es He _ IH]; cbn; rewrite Hv; [done|]. by rewrite He.
Qed.

(** Computations that neither make nor free a consumer, nor move a pointer. *)
Definition quiet (s : session) (es : list (@sevent W E)) (s' : session) : Prop :=
  parts s' = parts s ∧ (quit_main_message_loop_ s = false → quit_main_message_loop_ s' = false) ∧ Forall neutral es.
#[local] Instance quiet_rel : TraceRel quiet.
Proof.
  split; [by intros s|]. intros s1 s2 s3 es1 es2 (H1 & Q1 & E1) (H2 & Q2 & E2).
  split_and!; [congruence|auto|]. by apply Forall_app.
Qed.

Lemma quiet_emit (e : @sevent W E) : neutral e → respects quiet (emit e : M unit).
Proof. intros He s. by repeat constructor. Qed.
Lemma quiet_mod (f : session → session) :
  (∀ s, parts (f s) = parts s ∧ (quit_main_message_loop_ s = false → quit_main_message_loop_ (f s) = false)) →
  respects quiet (emod f : M unit).
Proof. intros Hf s. split_and!; [apply Hf|apply Hf|constructor]. Qed.
Lemma quiet_on_audio {A} (h : notice → M unit) (d : A) m :
  (∀ n, respects quiet (h n)) → respects quiet (on_audio h d m).
Proof.
  intros Hh. apply respects_get. intros s.
  destruct (audio_lifecycle_ s) as [a|]; [|apply respects_ret, _].
  destruct (m a) as [[r a'] es]. apply respects_bind; [apply _|by apply quiet_mod|]. intros _.
  apply respects_bind; [apply _| |intros _; apply respects_ret, _].
  apply respects_seq, Forall_fmap, Forall_forall; [apply _|].
  intros e _. simpl. destruct e; try (apply quiet_emit; by intros []). apply Hh.
Qed.
Lemma quiet_on_driver {A} (h : notice → M unit) (d : A) (m : eff driver devent A) :
  (∀ n, respects quiet (h n)) → respects quiet (on_driver h d m).
Proof.
  intros Hh. apply respects_get. intros s.
  destruct (offerer_driver_ s) as [o|]; [|apply respects_ret, _].
  destruct (m o) as [[r o'] es]. apply respects_bind; [apply _|by apply quiet_mod|]. intros _.
  apply respects_bind; [apply _| |intros _; apply respects_ret, _].
  apply respects_seq, Forall_fmap, Forall_forall; [apply _|].
  intros e _. simpl. unfold deliver. destruct (notice_of e); [by apply quiet_on_audio|].
  apply quiet_emit. by intros [].
Qed.

Ltac quiet_walk :=
  repeat match goal with
  | |- ∀ _, _ => intros ?
  | |- respects quiet (eget ≫= _) => apply respects_get
  | |- respects quiet (on_audio _ _ _) => apply quiet_on_audio
  | |- respects quiet (on_driver _ _ _) => apply quiet_on_driver
  | |- respects quiet (_ ≫= _) => apply respects_bind; [apply _| |]
  | |- respects quiet (ewhen _ _) => apply respects_when; [apply _|]
  | |- respects quiet (mret _) => apply respects_ret, _
  | |- respects quiet (emod _) => by apply quiet_mod
  | |- respects quiet (emit _) => apply quiet_emit; by intros []
  | |- respects quiet (match ?x with _ => _ end) => destruct x
  end.

Lemma quiet_notified n : respects quiet (notified n : M unit).
Proof.
  assert (∀ st, respects quiet (OnIceConnectionStateChanged st : M unit)) as Hice.
  { intros st. unfold OnIceConnectionStateChanged, PollOutboundRtpStats. quiet_walk. }
  assert (respects quiet (OnNewViewerNeedsOffer : M unit)) as Hv by (by apply quiet_mod).
  destruct n; cbn [notified]; try done; unfold OnClosed, OnFailed, OnGpuPermanentDeath, post;
    quiet_walk; destruct n; cbn [notified_tearing_down]; by try apply respects_ret, _.
Qed.

(** The consumers of a session, in the order they are made, and the wiring of the
    three states a session rests in: all made, none made, or let go of by a
    re-arm that made no new ones, which leaves the screen's pointer. *)
Definition complete (cursor : bool) : list part :=
  ([DataChannelHost; InputDelegate; InputDispatch] ++
  (if cursor then [CursorXyJoin; CursorEmitPolicy; EnvelopeAssembler; CursorDcEmitter] else []) ++
  [ClipboardRelay; FileUploadReceiver; ControlChannel])%list.
Definition wired (cursor : bool) : wiring :=
  mkWiring (complete cursor)
    ([(kControl, ControlChannel); (kFiles, FileUploadReceiver); (kClipboard, ClipboardRelay)] ++
     (if cursor then [(kCursor, CursorDcEmitter)] else []) ++ [(kInput, InputDispatch)])%list
    true true true.
Definition leftover (cursor : bool) : list part := if cursor then [CursorEmitPolicy; EnvelopeAssembler] else [].
Definition let_go (cursor : bool) : wiring := mkWiring (leftover cursor) [] true false false.

Definition resting (cursor : bool) (s : session) (v : wiring) : Prop :=
  parts s = complete cursor ∧ v = wired cursor ∨
  parts s = leftover cursor ∧ v = let_go cursor ∨
  parts s = [] ∧ v = unwired.
(** Where a pointer dangles, the main loop has been ended. *)
Definition rests (cursor : bool) (s : session) (v : wiring) : Prop :=
  resting cursor s v ∧ (dangling v = true → quit_main_message_loop_ s = false).

(** What a computation does to the wiring, from a session at rest on. *)
Definition wires (I : session → wiring → Prop) (s : session) (es : list (@sevent W E)) (s' : session) : Prop :=
  ∀ v, I s v → I s' (foldl rewire v es).
#[local] Instance wires_rel I : TraceRel (wires I).
Proof. split; [by intros s v|]. intros s1 s2 s3 es1 es2 H1 H2 v Hv. rewrite foldl_app. by apply H2, H1. Qed.

Lemma quiet_resting cursor {A} (m : M A) : respects quiet m → respects (wires (resting cursor)) m.
Proof.
  intros H s v Hv. destruct (H s) as (Hp & _ & Hn). unfold exec, events in *. unfold resting in *.
  by rewrite (neutral_rewire _ _ Hn), Hp.
Qed.
Lemma quiet_rests cursor {A} (m : M A) : respects quiet m → respects (wires (rests cursor)) m.
Proof.
  intros H s v [Hv Hq]. split; [by apply (quiet_resting cursor m H)|]. destruct (H s) as (_ & Hm & Hn).
  unfold events in *. rewrite (neutral_rewire _ _ Hn). auto.
Qed.

(** Making the consumers, whatever there was. *)
Lemma rebuild_wires w (s : session) v :
  resting (cursor_client w) s v → offerer_driver_ s ≫= pc_ ≠ None →
  let es := events (RebuildNativeDataChannels w) s in
  parts (exec (RebuildNativeDataChannels w : M unit) s) = complete (cursor_client w) ∧
  foldl rewire v es = wired (cursor_client w) ∧ (v = unwired → parts s = [] → safe_along es v = true).
Proof.
  destruct s as [dr au ps vt rt ra it ns so li cw ci ct pd qu td re po]. intros Hv Hpc. unfold resting in Hv. cbn [parts cursor_client] in Hv. cbn in Hpc.
  destruct w as [f c1 c2 c3 v1 v2 cc b1 b2]. cbn. unfold RebuildNativeDataChannels.
  rewrite exec_get, events_get. cbn. destruct (dr ≫= pc_) as [pc|]; [|done]. clear Hpc.
  destruct Hv as [[-> ->]|[[-> ->]|[-> ->]]]; destruct cc; vm_compute; split_and!; done.
Qed.
Lemma rebuild_resting w : respects (wires (resting (cursor_client w))) (RebuildNativeDataChannels w : M unit).
Proof.
  intros s v Hv. destruct (decide (offerer_driver_ s ≫= pc_ = None)) as [Hn|Hpc].
  - unfold RebuildNativeDataChannels. rewrite exec_get, events_get, Hn. done.
  - destruct (rebuild_wires w s v Hv Hpc) as (H1 & H2 & _). left. by split.
Qed.
Lemma rebuild_rests w : respects (wires (rests (cursor_client w))) (RebuildNativeDataChannels w : M unit).
Proof.
  intros s v [Hv Hq]. destruct (decide (offerer_driver_ s ≫= pc_ = None)) as [Hn|Hpc].
  - unfold RebuildNativeDataChannels. rewrite exec_get, events_get, Hn. by split.
  - destruct (rebuild_wires w s v Hv Hpc) as (H1 & H2 & _). split; [left; by split|]. rewrite H2.
    by destruct (cursor_client w).
Qed.

Lemma release_resting cursor : respects (wires (resting cursor)) (release_consumers : M unit).
Proof.
  intros [dr au ps vt rt ra it ns so li cw ci ct pd qu td re po] v Hv. unfold resting in Hv. cbn [parts] in Hv.
  destruct Hv as [[-> ->]|[[-> ->]|[-> ->]]]; right; destruct cursor; vm_compute; auto.
Qed.

Lemma teardown_consumers_wires cursor (s : session) v :
  resting cursor s v →
  let es := events teardown_consumers s in
  foldl rewire v es = unwired ∧ (dangling v = false → safe_along es v = true).
Proof.
  destruct s as [dr au ps vt rt ra it ns so li cw ci ct pd qu td re po]. intros Hv. unfold resting in Hv. cbn [parts] in Hv.
  destruct Hv as [[-> ->]|[[-> ->]|[-> ->]]]; destruct cursor; vm_compute; split; done.
Qed.

(** Runs of which every part is at rest in between. *)
Ltac rest_walk quiet_rule :=
  repeat match goal with
  | |- respects _ (eget ≫= _) => apply respects_get; intros ?
  | |- respects _ (mret _) => apply respects_ret, _
  | |- respects _ (RebuildNativeDataChannels _ ≫= _) => apply respects_bind; [apply _| |intros _]
  | |- respects _ (release_consumers ≫= _) => apply respects_bind; [apply _| |intros _]
  | |- respects _ (_ ≫= _) => apply respects_bind; [apply _|apply quiet_rule; quiet_walk; apply quiet_notified|intros ?]
  | |- respects _ (if ?b then _ else _) => destruct b
  | |- respects _ (match ?x with None => _ | Some _ => _ end) => destruct x
  end.

Lemma quiet_media w : respects quiet (RebuildSessionMedia w : M unit).
Proof.
  unfold RebuildSessionMedia. quiet_walk; apply quiet_notified.
Qed.

(** A re-arm leaves the session at rest, and with its consumers when it succeeds. *)
Lemma RearmSession_resting w b : respects (wires (resting (cursor_client w))) (RearmSession w b : M (option string)).
Proof.
  unfold RearmSession, post. rest_walk (@quiet_resting).
  - apply release_resting.
  - apply rebuild_resting.
  - apply respects_bind; [apply _|apply quiet_resting, quiet_media|intros _; apply respects_ret, _].
Qed.

Definition made_at (cursor : bool) (m : M (option string)) (s : session) : Prop := ∀ v,
  resting cursor s v → result m s = None →
  parts (exec m s) = complete cursor ∧ foldl rewire v (events m s) = wired cursor.
Lemma made_bind cursor {A} (m : M A) (f : A → M (option string)) s : respects (wires (resting cursor)) m →
  (∀ a s', made_at cursor (f a) s') → made_at cursor (m ≫= f) s.
Proof.
  intros Hm Hf v Hv. rewrite result_bind, exec_bind, events_bind, foldl_app. intros Hr.
  apply (Hf _ _ _ (Hm s v Hv) Hr).
Qed.
Lemma made_get cursor (f : session → M (option string)) : (∀ s, made_at cursor (f s) s) → ∀ s, made_at cursor (eget ≫= f) s.
Proof. intros Hf s v Hv. rewrite result_bind, exec_get, events_get. by apply (Hf s). Qed.
Lemma RearmSession_made w b s : made_at (cursor_client w) (RearmSession w b : M (option string)) s.
Proof.
  assert (Hno : ∀ x s', made_at (cursor_client w) (mret (Some x)) s') by done.
  assert (Hq : ∀ {A} (m : M A) f s', respects quiet m → (∀ a s', made_at (cursor_client w) (f a) s') →
    made_at (cursor_client w) (m ≫= f) s') by (intros A m f s' Hm; apply made_bind, (quiet_resting _ _ Hm)).
  unfold RearmSession, post. revert s. apply made_get. intros s. destruct (_ || _); [apply Hno|].
  destruct (tearing_down_ s); [apply Hno|]. generalize s. clear s. intros s.
  apply Hq; [apply quiet_on_audio, quiet_notified|intros _ s1]. apply made_bind; [apply release_resting|intros _ s2].
  do 4 (apply Hq; [quiet_walk; apply quiet_notified|intros ? ?]).
  apply Hq; [quiet_walk|intros ? ?]. destruct (negb _); [apply Hno|].
  apply Hq; [quiet_walk; apply quiet_notified|intros _]. apply made_get. intros s3.
  destruct (offerer_driver_ s3 ≫= pc_) as [pc|] eqn:Hpc; [|apply Hno]. intros v Hv _.
  destruct (rebuild_wires w s3 v Hv ltac:(by rewrite Hpc)) as (H1 & H2 & _).
  rewrite exec_bind, events_bind, exec_bind, events_bind, !foldl_app, H2.
  destruct (quiet_media w (exec (RebuildNativeDataChannels w : M unit) s3)) as (Hp & _ & Hn).
  rewrite (neutral_rewire _ _ Hn). split; [|done]. change (exec (mret None) ?x) with x. by rewrite Hp.
Qed.

Lemma Shutdown_quits (s : session) : quit_main_message_loop_ (exec (Shutdown : M bool) s) = false.
Proof. unfold Shutdown. rewrite exec_get. by destruct (quit_main_message_loop_ s) eqn:H. Qed.
Lemma quiet_shutdown : respects quiet (Shutdown : M bool).
Proof. unfold Shutdown. quiet_walk. Qed.
Lemma quiet_gpu_death : respects quiet (OnGpuPermanentDeath : M unit).
Proof. unfold OnGpuPermanentDeath. quiet_walk; destruct n; cbn [notified_tearing_down]; try apply respects_ret, _;
  first [apply (quiet_notified (IceConnectionStateChanged _))|apply (quiet_notified NewViewerNeedsOffer)]. Qed.

Lemma RearmOrShutdown_rests w b : respects (wires (rests (cursor_client w))) (RearmOrShutdown w b : M unit).
Proof.
  unfold RearmOrShutdown. apply respects_get. intros s0. destruct (tearing_down_ s0); [apply respects_ret, _|].
  destruct (rearming_ s0); [apply respects_ret, _|]. intros s v [Hv _].
  rewrite exec_bind, events_bind, foldl_app. pose proof (RearmSession_resting w b s v Hv) as H1.
  destruct (result (RearmSession w b : M (option string)) s) as [err|] eqn:Hr.
  - assert (Hs : respects quiet (Shutdown;; mret tt : M unit)) by (quiet_walk; apply quiet_shutdown).
    split; [by apply (quiet_resting _ _ Hs)|]. intros _. rewrite exec_bind. apply Shutdown_quits.
  - destruct (RearmSession_made w b s v Hv Hr) as [H2 H3]. split; [exact H1|]. rewrite H3. by destruct (cursor_client w).
Qed.

Lemma StartNativeSession_rests w (t : T) : respects (wires (rests (cursor_client w))) (StartNativeSession w t : M bool).
Proof.
  unfold StartNativeSession. rest_walk (@quiet_rests).
  - apply rebuild_rests.
  - apply respects_bind; [apply _|apply quiet_rests, quiet_media|intros _].
    apply respects_bind; [apply _|apply quiet_rests; quiet_walk|intros _; apply respects_ret, _].
Qed.

(** The turns that make and free no consumer. *)
Definition steady (x : @turn W T E) : bool :=
  match x with SessionStarts _ | GraceElapses | TaskRuns => false | _ => true end.
Lemma steady_quiet w x : steady x = true → respects quiet (take_turn (w, x) : M unit).
Proof.
  destruct x; intros Hx; try done; unfold take_turn; cbn [fst snd].
  - apply quiet_on_driver, quiet_notified.
  - unfold OnConnected, post. quiet_walk; apply quiet_notified.
  - unfold OnGaveUp. quiet_walk. apply quiet_shutdown.
  - unfold OnCapturedRendererGone. quiet_walk; apply quiet_gpu_death.
  - apply quiet_gpu_death.
  - quiet_walk. apply quiet_shutdown.
Qed.
Lemma take_turn_rests w x : respects (wires (rests (cursor_client w))) (take_turn (w, x) : M unit).
Proof.
  destruct (steady x) eqn:Hx; [by apply quiet_rests, steady_quiet|].
  destruct x; try done; unfold take_turn; cbn [fst snd].
  - apply respects_bind; [apply _|apply StartNativeSession_rests|intros _; apply respects_ret, _].
  - unfold OnIceFailedGraceElapsed. apply respects_get. intros s. destruct (tearing_down_ s); [apply respects_ret, _|].
    apply RearmOrShutdown_rests.
  - unfold RunTask. apply respects_get. intros s. destruct (posted s) as [|tk rest]; [apply respects_ret, _|].
    apply respects_bind; [apply _|apply quiet_rests; quiet_walk|intros _].
    destruct tk; cbn [run_task]; [apply RearmOrShutdown_rests|apply quiet_rests; quiet_walk].
Qed.

(** What precedes the first consumer frees none. *)
Lemma safe_quiet_bind {A B} (m : M A) (f : A → M B) (s : session) : respects quiet m → parts s = [] →
  (∀ r s', parts s' = [] → safe_along (events (f r) s') unwired = true) → safe_along (events (m ≫= f) s) unwired = true.
Proof.
  intros Hm Hs Hf. rewrite events_bind. destruct (Hm s) as (Hp & _ & Hn). unfold events in Hn.
  apply safe_along_app; [by apply neutral_safe|]. rewrite (neutral_rewire _ _ Hn). apply Hf. by rewrite Hp.
Qed.
Lemma start_safe w (t : T) (s : session) : parts s = [] → safe_along (events (StartNativeSession w t) s) unwired = true.
Proof.
  intros Hs. unfold StartNativeSession. rewrite events_get. destruct (native_session_started_ s); [done|].
  do 6 (apply safe_quiet_bind; [quiet_walk; apply quiet_notified|done|clear s Hs; intros _ s Hs]).
  rewrite events_bind.
  match goal with |- context [events ?m (exec (RebuildNativeDataChannels w : M unit) s)] => assert (Hq : respects quiet m) end.
  { apply respects_bind; [apply _|apply quiet_media|intros _]. quiet_walk. }
  destruct (Hq (exec (RebuildNativeDataChannels w : M unit) s)) as (_ & _ & Hn).
  destruct (decide (offerer_driver_ s ≫= pc_ = None)) as [Hpc|Hpc].
  - assert (Hr : events (RebuildNativeDataChannels w : M unit) s = [])
      by (unfold RebuildNativeDataChannels; by rewrite events_get, Hpc).
    rewrite Hr. by apply neutral_safe.
  - destruct (rebuild_wires w s unwired) as (_ & H2 & H3); [by right; right|done|].
    apply safe_along_app; [by apply H3|]. rewrite H2. apply neutral_safe; [exact Hn|]. by destruct (cursor_client w).
Qed.

(** C12. In a process that starts a session, re-arms it any number of times and ends,
    with any turns in between: a pointer dangles between two turns only after a
    re-arm that failed, and then the main loop has been ended; the turns other
    than re-arms, the first start included, leave none dangling at any moment;
    and the end of the process takes every pointer away, before it frees what
    it points at when none dangled, so that none is left.  ([rearm_dangles]
    shows what happens during a re-arm.) *)
Theorem teardown_never_dangles cursor turns (s0 : session) :
  Forall (λ x : world * @turn W T E, cursor_client x.1 = cursor) turns → parts s0 = [] →
  let s := exec (run take_turn turns) s0 in
  let v := foldl rewire unwired (events (run take_turn turns) s0) in
  (dangling v = true → quit_main_message_loop_ s = false) ∧
  (∀ w t, safe_along (events (take_turn (w, SessionStarts t)) s0) unwired = true) ∧
  (∀ w x, steady x = true → dangling v = false → safe_along (events (take_turn (w, x)) s) v = true) ∧
  foldl rewire v (events PostMainMessageLoopRun s) = unwired ∧
  (dangling v = false → safe_along (events PostMainMessageLoopRun s) v = true).
Proof.
  intros Hc Hs0 s v.
  assert (rests cursor s v) as [Hv Hq].
  { assert (Hall : respects (wires (rests cursor)) (run take_turn turns)).
    { apply respects_seq; [apply _|]. apply Forall_fmap. eapply Forall_impl; [exact Hc|].
      intros [w x] Hw. simpl in Hw. subst cursor. apply take_turn_rests. }
    refine (Hall s0 unwired _). split; [right; right; by split|by intros ?]. }
  split; [exact Hq|]. split.
  { intros w t. cbn [take_turn fst snd]. unfold take_turn. cbn [fst snd]. rewrite events_bind, app_nil_r. by apply start_safe. }
  split; [intros w x Hx Hd; apply neutral_safe; [apply (steady_quiet w x Hx)|done]|].
  assert (∃ (s1 : session) rest, parts s1 = parts s ∧
    events PostMainMessageLoopRun s = (events teardown_consumers s1 ++ rest)%list ∧ Forall neutral rest)
    as (s1 & rest & Hp1 & He & Hn).
  { unfold PostMainMessageLoopRun. rewrite events_mod, events_bind. eexists _, _.
    split; [|split; [done|]]; [done|].
    match goal with |- Forall neutral (events ?m ?x) => assert (respects quiet m) as H; [|exact (proj2 (proj2 (H x)))] end.
    quiet_walk; apply quiet_notified. }
  destruct (teardown_consumers_wires cursor s1 v) as [Hf Hsafe]; [unfold resting in *; by rewrite Hp1|].
  rewrite He, foldl_app, Hf, (neutral_rewire _ _ Hn). split; [done|]. intros Hd.
  apply safe_along_app; [by apply Hsafe|]. rewrite Hf. by apply neutral_safe.
Qed.

Lemma release_wires cursor (s : session) :
  parts s = complete cursor →
  ∃ a, events release_consumers s = (a ++ [Destroy DataChannelHost])%list ∧
    foldl rewire (wired cursor) a = mkWiring
      (DataChannelHost :: if cursor then [CursorEmitPolicy; EnvelopeAssembler] else [])
      [(kClipboard, ClipboardRelay); (kInput, InputDispatch)] true false false.
Proof.
  destruct s as [dr au ps vt rt ra it ns so li cw ci ct pd qu td re po]. cbn. intros ->.
  match goal with |- context [events release_consumers ?x] =>
    exists (removelast (events release_consumers x)) end.
  destruct cursor; split; vm_compute; reflexivity.
Qed.

(** During a re-arm there is a moment at which the data-channel host is
    still there and its slots for the clipboard and for the input point at
    consumers that have been freed, as does the screen's pointer. *)
Theorem rearm_dangles w announce_bye cursor (s : session) :
  native_session_started_ s = true → tearing_down_ s = false → is_Some (offerer_driver_ s) →
  parts s = complete cursor →
  ∃ pre post, events (RearmSession w announce_bye) s = (pre ++ post)%list ∧
    let v := foldl rewire (wired cursor) pre in
    DataChannelHost ∈ alive v ∧
    (kClipboard, ClipboardRelay) ∈ bound v ∧ ClipboardRelay ∉ alive v ∧
    (kInput, InputDispatch) ∈ bound v ∧ InputDispatch ∉ alive v ∧
    last_pointer_source v = true ∧ InputDelegate ∉ alive v.
Proof.
  intros H1 H2 H3 Hp. unfold RearmSession. rewrite events_get, H1, H2, bool_decide_eq_true_2 by done.
  cbn [negb orb]. rewrite events_bind.
  destruct (quiet_on_audio notified tt (PrepareForTeardown "rearm for next viewer") quiet_notified s)
    as (Hp1 & _ & Hn).
  rewrite events_bind. set (s1 := exec _ s). rewrite Hp in Hp1.
  destruct (release_wires cursor s1 Hp1) as (a & -> & Hf).
  rewrite <-(app_assoc a), app_assoc. eexists _, _. split; [reflexivity|].
  cbv zeta. rewrite foldl_app, (neutral_rewire _ _ Hn), Hf. cbn.
  destruct cursor; split_and!;
    first [reflexivity | refine (bool_decide_eq_true_1 _ _); vm_compute; reflexivity].
Qed.

End properties.

(** ** Witnesses *)

(** Descriptions are their text; the transport is up or down. *)
#[local] Instance text_webrtc : WebRtc := {|
  SessionDescription := string;
  RemoteCandidate := string;
  SdpType := string;
  SdpType_kAnswer := "answer";
  SdpTypeFromString s := Some s;
  CreateSessionDescription _ text := Some text;
  DescriptionToString d := d;
  CreateIceCandidate _ _ c := Some c;
|}.
#[local] Instance up_transport : SignalingTransport bool unit := {|
  transport_Send _ := λ up : bool, (up, up, []);
  frame_of _ := None;
|}.

Definition good_world : world := mkWorld PcOk (Some 1%nat) (Some 2%nat) (Some 3%nat) true true true true true.
Definition bad_world : world := mkWorld PcNull (Some 1%nat) (Some 2%nat) (Some 3%nat) true true true true true.
Definition not_started : @session text_webrtc bool :=
  mkSession None None [] false false false false false false 0 0 0 0 false true false false [].
Definition started : session := exec (StartNativeSession (E := unit) good_world true) not_started.
Definition asked_twice : session := exec (post (E := unit) (TaskRearmOrShutdown false);;
  post (TaskRearmOrShutdown true)) started.

Lemma started_rearmable : rearmable started
  (default (CbOffererDriver true true) (offerer_driver_ started))
  (default (AudioLifecycle.CbAudioLifecycle true false true) (audio_lifecycle_ started)).
Proof. split; try (vm_compute; reflexivity); vm_compute; discriminate. Qed.

Lemma rearm_live_driver_loses_audio_witness :
  AudioLifecycle.state_ <$> audio_lifecycle_ started = Some kArmed ∧
  AudioLifecycle.state_ <$> audio_lifecycle_ (exec (RearmSession (E := unit) good_world true) started) =
    Some kStopped.
Proof.
  split; [vm_compute; reflexivity|].
  refine (proj1 (proj2 (rearm_live_driver_loses_audio (E := unit) good_world true started _ _ 1%nat 2%nat
    3%nat started_rearmable _ _))); vm_compute; reflexivity.
Defined.

Lemma viewer_change_rearms_once_witness :
  posted (exec (drain (E := unit) good_world 4) asked_twice) = [].
Proof.
  refine (proj1 (viewer_change_rearms_once (E := unit) good_world false [true] asked_twice
    (default (CbOffererDriver true true) (offerer_driver_ started))
    (default (AudioLifecycle.CbAudioLifecycle true false true) (audio_lifecycle_ started)) 4 _ _ _ _ _)).
  - destruct started_rearmable. by split.
  - reflexivity.
  - vm_compute. reflexivity.
  - vm_compute. reflexivity.
  - simpl. lia.
Defined.

Lemma start_failure_derefs_null_witness :
  native_session_started_ (exec (StartNativeSession (E := unit) bad_world true) not_started) = true.
Proof.
  refine (proj2 (start_failure_derefs_null (E := unit) bad_world true not_started _ _ _));
    [reflexivity | discriminate | reflexivity].
Defined.

(** A session that is started, re-armed for a new viewer, and ended. *)
Definition served : list (world * @turn text_webrtc bool unit) :=
  [(good_world, SessionStarts true); (good_world, GraceElapses); (good_world, TaskRuns); (good_world, TaskRuns)].
Lemma teardown_never_dangles_witness :
  let s := exec (run take_turn served) not_started in
  let v := foldl rewire unwired (events (run take_turn served) not_started) in
  v = wired true ∧ safe_along (events PostMainMessageLoopRun s) v = true.
Proof.
  split; [vm_compute; reflexivity|].
  refine (proj2 (proj2 (proj2 (proj2 (teardown_never_dangles (E := unit) true served not_started _ _)))) _);
    [by repeat constructor|reflexivity|vm_compute; reflexivity].
Defined.

Lemma rearm_dangles_witness : ∃ pre post,
  events (RearmSession (E := unit) good_world true) started = (pre ++ post)%list ∧
  InputDispatch ∉ alive (foldl rewire (wired true) pre).
Proof.
  destruct (rearm_dangles (E := unit) good_world true true started) as (pre & post & He & H).
  - vm_compute. reflexivity.
  - vm_compute. reflexivity.
  - vm_compute. by eexists.
  - vm_compute. reflexivity.
  - exists pre, post. split; [exact He|]. apply H.
Defined.
