(* ===== verification/ClipboardRelay.v ===== *)
(** * The clipboard relay
      (capture/build-integration/cb_clipboard_relay.{h,cc})

    Paste: an offer of the viewer is written to the guest's clipboard and a
    Ctrl+V is struck for the page.  Copy: a change of the guest's clipboard is
    forwarded to the viewer only within a window opened by a copy gesture.
    Offers arrive on the signaling thread and are [posted] to the UI sequence;
    reading the clipboard is asynchronous: [reads] counts the reads whose text
    has not come back.  Times are in microseconds. *)

From Stdlib Require Import ZArith Lia String SpecFloat.
From stdpp Require Import base tactics sets strings numbers list.
From S2P Require Import Prelude Values Numbers InputEnvelope InputWidget.
Open Scope string_scope.
Open Scope Z_scope.

Definition kMaxClipboardTextBytes : Z := Z.shiftl 1 20.
Definition kClipboardArmWindow : Z := 2 * 1000000.
Definition kProtocolVersion : Z := 1.
Definition kTypeClipboardOffer : string := "clipboard_offer".
Definition kDirectionToCloud : string := "client->cloud".
Definition kDirectionToClient : string := "cloud->client".
Definition kSourceUserAction : string := "user_action".
Definition kVkeyV : Z := 86.

(** [std::string::size()] *)
Definition size (s : string) : Z := Z.of_nat (String.length s).

Section relay.
Context {J : JsonCodec} {X : TextLib} {B : BlinkModifiers}.

Record relay := mkRelay {
  last_written_text_ : string;
  copy_armed_until_ : option Z;       (* a null TimeTicks is [None] *)
  next_seq_ : Z;
  pastes_applied_ : Z;
  copies_sent_ : Z;
  changes_ignored_ : Z;
  clock : Z;
  wall : Z;
  posted : list string;
  reads : nat;
}.
#[export] Instance eta_relay : Eta relay := λ s,
  mkRelay (last_written_text_ s) (copy_armed_until_ s) (next_seq_ s) (pastes_applied_ s)
    (copies_sent_ s) (changes_ignored_ s) (clock s) (wall s) (posted s) (reads s).

(** [ReadText] carries the time it is called at. *)
Inductive event :=
| WriteText (text : list Z)
| Page (c : call)
| ReadText (at_time : Z)
| SendAsync (json : string).
Abbreviation M := (eff relay event).

Definition CbClipboardRelay (now_ticks now_wall : Z) : relay :=
  mkRelay "" None 0 0 0 0 now_ticks now_wall [] 0.

(** ** Paste *)

(** The text of a frame that is an offer of the viewer. *)
Definition offer_of (raw : string) : option string :=
  match JSONReader_Read raw with
  | Some (VDict envelope) =>
      match FindInt "v" envelope, FindString "type" envelope, FindDict "data" envelope with
      | Some v, Some ty, Some data =>
          if negb (v =? kProtocolVersion) || negb (String.eqb ty kTypeClipboardOffer) then None
          else
            match FindString "direction" data with
            | Some direction =>
                if negb (String.eqb direction kDirectionToCloud) then None
                else
                  match FindString "source" data with
                  | Some source =>
                      if negb (String.eqb source kSourceUserAction) then None
                      else
                        match FindString "text" data with
                        | Some text => if kMaxClipboardTextBytes <? size text then None else Some text
                        | None => None
                        end
                  | None => None
                  end
            | None => None
            end
      | _, _, _ => None
      end
  | _ => None
  end.

Definition HandleInboundJson (raw : string) : M unit :=
  match offer_of raw with
  | None => mret tt
  | Some text => emod (λ s, s <| posted := (posted s ++ [text])%list |>)
  end.

Definition OnMessage (binary : bool) (raw : string) : M unit :=
  if binary then mret tt
  else if kMaxClipboardTextBytes + 512 <? size raw then mret tt
  else HandleInboundJson raw.

Definition SynthesizePaste (wc : WebContents) : M unit :=
  match contents_host wc with
  | None => mret tt
  | Some _ =>
      s ← eget;
      let modifiers := wrap32 (flag kControlKey) in
      let now := clock s in
      emit (Page (ForwardKeyboardEvent (mkKey kRawKeyDown modifiers now kVkeyV kVkeyV 0 0 [])));;
      emit (Page (ForwardKeyboardEvent (mkKey kKeyUp modifiers now kVkeyV kVkeyV 0 0 [])))
  end.

Definition ApplyPaste (r : option (option WebContents)) (text : string) : M unit :=
  emod (λ s, s <| last_written_text_ := text |>);;
  emit (WriteText (to_utf16 text));;
  match GetActiveWebContents r with
  | None => mret tt
  | Some wc =>
      SynthesizePaste wc;;
      emod (λ s, s <| pastes_applied_ := pastes_applied_ s + 1 |>)
  end.

(** The next paste of the UI sequence. *)
Definition RunPaste (r : option (option WebContents)) : M unit :=
  s ← eget;
  match posted s with
  | [] => mret tt
  | text :: rest => emod (λ s, s <| posted := rest |>);; ApplyPaste r text
  end.

(** ** Copy *)

Definition ArmCopyWindow : M unit :=
  emod (λ s, s <| copy_armed_until_ := Some (clock s + kClipboardArmWindow) |>).

(** [has_clipboard]: the UI thread has a clipboard. *)
Definition OnClipboardDataChanged (has_clipboard : bool) : M unit :=
  s ← eget;
  if match copy_armed_until_ s with None => true | Some u => u <? clock s end
  then emod (λ s, s <| changes_ignored_ := changes_ignored_ s + 1 |>)
  else
    emod (λ s, s <| copy_armed_until_ := None |>);;
    ewhen has_clipboard (emit (ReadText (clock s));; emod (λ s, s <| reads := S (reads s) |>)).

Definition copy_data (text : string) : DictValue :=
  Set_ "text" (VString text) (Set_ "source" (VString kSourceUserAction)
    (Set_ "direction" (VString kDirectionToClient) [])).
Definition copy_envelope (t seq : Z) (text : string) : Value :=
  VDict (Set_ "data" (VDict (copy_data text)) (Set_ "seq" (VDouble (double_of_Z seq))
    (Set_ "t" (VDouble (double_of_Z t)) (Set_ "type" (VString kTypeClipboardOffer)
      (Set_ "v" (VInt kProtocolVersion) []))))).

Definition SendCopy (text : string) : M unit :=
  s ← eget;
  emod (λ s, s <| next_seq_ := next_seq_ s + 1 |>);;
  match JSONWriter_Write (copy_envelope (wall s) (next_seq_ s) text) with
  | None => mret tt
  | Some json =>
      emod (λ s, s <| copies_sent_ := copies_sent_ s + 1 |>);;
      emit (SendAsync json)
  end.

Definition OnClipboardTextRead (text16 : list Z) : M unit :=
  s ← eget;
  let text := UTF16ToUTF8 text16 in
  if String.eqb text "" then mret tt
  else if String.eqb text (last_written_text_ s)
  then emod (λ s, s <| changes_ignored_ := changes_ignored_ s + 1 |>)
  else if kMaxClipboardTextBytes <? size text then mret tt
  else SendCopy text.

Definition OnStateChange : M unit := mret tt.
Definition OnBufferedAmountChange : M unit := mret tt.
Definition IsOkToCallOnTheNetworkThread : bool := false.

(** ** Executions *)

Inductive input :=
| Frame (binary : bool) (raw : string)
| Pasted (r : option (option WebContents))
| Gesture
| ClipboardChanged (has_clipboard : bool)
| TextRead (text16 : list Z)
| Later (ticks walls : nat).

Definition handle (i : input) : M unit :=
  match i with
  | Frame b raw => OnMessage b raw
  | Pasted r => RunPaste r
  | Gesture => ArmCopyWindow
  | ClipboardChanged h => OnClipboardDataChanged h
  | TextRead t => emod (λ s, s <| reads := pred (reads s) |>);; OnClipboardTextRead t
  | Later n m => emod (λ s, s <| clock := clock s + Z.of_nat n |> <| wall := wall s + Z.of_nat m |>)
  end.

(** A text comes back only for a read that is under way. *)
Definition enabled (i : input) (s : relay) : bool :=
  match i with TextRead _ => (0 <? reads s)%nat | _ => true end.
End relay.

(** ** Copies *)

Section properties.
Context {J : JsonCodec} {X : TextLib} {B : BlinkModifiers}.
Abbreviation relay := (@relay).
Abbreviation M := (eff relay event).

Definition sent (e : event) : option string := match e with SendAsync j => Some j | _ => None end.
Definition read_time (e : event) : option Z := match e with ReadText t => Some t | _ => None end.

(** The times of the copy gestures of an execution, and the time of the
    gesture whose window is open. *)
Fixpoint gestures (ins : list input) (s : relay) : list Z :=
  match ins with
  | [] => []
  | i :: ins' =>
      ((match i with Gesture => [clock s] | _ => [] end) ++ gestures ins' (exec (handle i) s))%list
  end.
Definition armed_by (s : relay) : list Z :=
  match copy_armed_until_ s with Some u => [u - kClipboardArmWindow] | None => [] end.
Definition armed_ok (s : relay) : Prop := Forall (λ g, g ≤ clock s) (armed_by s).

(** A read answers the gesture [g] if it happens within the window of [g]. *)
Definition answers (g t : Z) : Prop := g ≤ t ≤ g + kClipboardArmWindow.

(** One step: what it reads answers the gesture that was open, and what it
    sends was being read. *)
Definition step_ok (i : input) (s : relay) : Prop :=
  let s' := exec (handle i) s in
  let es := events (handle i) s in
  armed_ok s' ∧
  ∃ g, Forall2 answers g (omap read_time es) ∧
    (g ++ armed_by s' `sublist_of` armed_by s ++ match i with Gesture => [clock s] | _ => [] end)%list ∧
    (List.length (omap sent es) + reads s' ≤ reads s + List.length g)%nat.

Lemma silent_step i s s' es : handle i s = (tt, s', es) → armed_ok s →
  omap read_time es = [] → omap sent es = [] → copy_armed_until_ s' = copy_armed_until_ s →
  clock s ≤ clock s' → (reads s' ≤ reads s)%nat → i ≠ Gesture → step_ok i s.
Proof.
  intros Hm Ho Hr Hs Ha Hc Hn Hi. unfold step_ok, exec, events. rewrite Hm. cbn [fst snd].
  unfold armed_ok, armed_by in *. rewrite Ha, Hr, Hs.
  split; [eapply Forall_impl; [exact Ho|]; simpl; lia|]. exists [].
  split; [constructor|]. split; [|simpl; lia]. destruct i; try done; by rewrite app_nil_r.
Qed.

Lemma SynthesizePaste_run wc s : ∃ es, SynthesizePaste wc s = (tt, s, es) ∧
  omap read_time es = [] ∧ omap sent es = [].
Proof. unfold SynthesizePaste. destruct (contents_host wc); by eexists. Qed.

Lemma ApplyPaste_run r text s : ∃ s' es, ApplyPaste r text s = (tt, s', WriteText (to_utf16 text) :: es) ∧
  omap read_time es = [] ∧ omap sent es = [] ∧
  copy_armed_until_ s' = copy_armed_until_ s ∧ clock s' = clock s ∧ reads s' = reads s ∧
  posted s' = posted s ∧ next_seq_ s' = next_seq_ s ∧ last_written_text_ s' = text ∧
  changes_ignored_ s' = changes_ignored_ s.
Proof.
  unfold ApplyPaste. rewrite mod_run. set (s1 := s <| last_written_text_ := text |>).
  destruct (GetActiveWebContents r) as [wc|]; [|by do 2 eexists].
  destruct (SynthesizePaste_run wc s1) as (es & Hr & He1 & He2).
  unfold mbind, eff_bind. simpl. rewrite Hr. simpl. do 2 eexists. split; [reflexivity|].
  by rewrite app_nil_r.
Qed.

Lemma OnClipboardTextRead_run t s : ∃ s' es, OnClipboardTextRead t s = (tt, s', es) ∧
  omap read_time es = [] ∧ (List.length (omap sent es) ≤ 1)%nat ∧
  copy_armed_until_ s' = copy_armed_until_ s ∧ clock s' = clock s ∧ reads s' = reads s ∧
  last_written_text_ s' = last_written_text_ s ∧ posted s' = posted s.
Proof.
  unfold OnClipboardTextRead, SendCopy. rewrite get_run.
  destruct (String.eqb _ ""); [do 2 eexists; split_and!; first [reflexivity | simpl; lia]|].
  destruct (String.eqb _ _); [do 2 eexists; split_and!; first [reflexivity | simpl; lia]|].
  destruct (_ <? _); [do 2 eexists; split_and!; first [reflexivity | simpl; lia]|].
  rewrite get_run, mod_run.
  destruct (JSONWriter_Write _); do 2 eexists; split_and!; first [reflexivity | simpl; lia].
Qed.

Lemma handle_step i s : armed_ok s → enabled i s = true → step_ok i s.
Proof.
  intros Ho He. destruct i as [b raw|r| |h|t|n m].
  - cbn [handle]. unfold OnMessage, HandleInboundJson.
    assert (∃ s', handle (Frame b raw) s = (tt, s', []) ∧ copy_armed_until_ s' = copy_armed_until_ s ∧
      clock s' = clock s ∧ reads s' = reads s) as (s' & Hh & Ha & Hc & Hr).
    { cbn [handle]. unfold OnMessage, HandleInboundJson. destruct b; [by eexists|].
      destruct (_ <? _); [by eexists|]. destruct (offer_of raw); by eexists. }
    apply (silent_step _ s s' []); try done; lia.
  - destruct (posted s) as [|text rest] eqn:Hp.
    + apply (silent_step _ s s []); try done. cbn [handle]. unfold RunPaste. by rewrite get_run, Hp.
    + destruct (ApplyPaste_run r text (s <| posted := rest |>)) as (s' & es & Hr & H1 & H2 & H3 & H4 & H5 & _).
      apply (silent_step _ s s' (WriteText (to_utf16 text) :: es)); try done; simpl in *; [|lia..].
      unfold RunPaste. by rewrite get_run, Hp, mod_run, Hr.
  - unfold step_ok, armed_ok, armed_by. simpl. split; [constructor; [lia|constructor]|].
    exists []. split; [constructor|]. split; [|simpl; lia].
    replace (clock s + kClipboardArmWindow - kClipboardArmWindow) with (clock s) by lia.
    by apply sublist_inserts_l.
  - unfold step_ok. cbn [handle]. unfold OnClipboardDataChanged. rewrite exec_get, events_get, app_nil_r.
    destruct (copy_armed_until_ s) as [u|] eqn:Hu; [destruct (Z.ltb_spec u (clock s)) as [Hl|Hl]|].
    1,3: unfold armed_ok, armed_by in *; simpl; rewrite Hu in *; (split; [exact Ho|]);
      exists []; split_and!; [constructor|done|lia].
    unfold armed_ok, armed_by in *. rewrite Hu in *. apply Forall_inv in Ho.
    rewrite exec_mod, events_mod. destruct h; simpl; (split; [constructor|]).
    + exists [u - kClipboardArmWindow]. split_and!; [|done|simpl; lia].
      constructor; [unfold answers; lia|constructor].
    + exists []. split_and!; [constructor|apply sublist_nil_l|simpl; lia].
  - simpl in He. apply Nat.ltb_lt in He. unfold step_ok. cbn [handle]. rewrite exec_mod, events_mod.
    destruct (OnClipboardTextRead_run t (s <| reads := pred (reads s) |>))
      as (s' & es & Hr & H1 & H2 & H3 & H4 & H5 & _).
    unfold exec, events. rewrite Hr. simpl in *. unfold armed_ok, armed_by in *. rewrite H3, H4.
    split; [done|]. exists []. rewrite H1, app_nil_r. split_and!; [constructor|done|simpl; lia].
  - apply (silent_step _ s (s <| clock := clock s + Z.of_nat n |> <| wall := wall s + Z.of_nat m |>) []);
      simpl; try done; lia.
Qed.

Lemma copies_gestured ins s : armed_ok s → all_enabled enabled handle ins s = true →
  ∃ gs, (gs `sublist_of` armed_by s ++ gestures ins s)%list ∧
    Forall2 answers gs (omap read_time (events (run handle ins) s)) ∧
    (List.length (omap sent (events (run handle ins) s)) ≤ reads s + List.length gs)%nat.
Proof.
  revert s. induction ins as [|i ins IH]; intros s Ho He.
  { exists []. split_and!; [apply sublist_nil_l|constructor|simpl; lia]. }
  simpl in He. apply andb_true_iff in He as [Hi He].
  destruct (handle_step i s Ho Hi) as (Ho' & g & Hg1 & Hg2 & Hg3).
  destruct (IH _ Ho' He) as (gs & H1 & H2 & H3). exists (g ++ gs)%list.
  unfold run. rewrite fmap_cons. cbn [eseq]. rewrite events_bind, !omap_app. split_and!.
  - cbn [gestures]. rewrite app_assoc.
    trans (g ++ armed_by (exec (handle i) s) ++ gestures ins (exec (handle i) s))%list;
      [by apply sublist_app|]. rewrite app_assoc. by apply sublist_app.
  - by apply Forall2_app.
  - unfold run in H3. rewrite !length_app. lia.
Qed.

(** C30. Nothing is read from the guest's clipboard, and nothing leaves it, but on
    the viewer's gesture: every read of an execution answers a copy gesture of
    its own, made at most two seconds before, and the copies sent are at most
    as many. *)
Theorem copies_need_gestures t0 w0 ins :
  let s0 := CbClipboardRelay t0 w0 in
  all_enabled enabled handle ins s0 = true →
  ∃ gs, (gs `sublist_of` gestures ins s0) ∧
    Forall2 answers gs (omap read_time (events (run handle ins) s0)) ∧
    (List.length (omap sent (events (run handle ins) s0)) ≤ List.length gs)%nat.
Proof.
  intros s0 He. destruct (copies_gestured ins s0) as (gs & H1 & H2 & H3); [constructor|done|].
  by exists gs.
Qed.

(** ** What is sent *)

(** The copies of an execution: the [k]-th is written with the time and the
    text of [cs !! k] under the number [q + k]. *)
Definition written (q : Z) (cs : list (Z * string)) : list (option string) :=
  imap (λ k c, JSONWriter_Write (copy_envelope c.1 (q + Z.of_nat k) c.2)) cs.
Definition copy_ok (c : Z * string) : Prop := c.2 ≠ "" ∧ size c.2 ≤ kMaxClipboardTextBytes.

Lemma written_app q a b : written q (a ++ b)%list = (written q a ++ written (q + Z.of_nat (List.length a)) b)%list.
Proof.
  unfold written. rewrite imap_app. f_equal. apply imap_ext. intros i c _. simpl. do 2 f_equal. lia.
Qed.

Definition copying (s : relay) (es : list event) (s' : relay) : Prop :=
  ∃ cs, omap sent es = omap id (written (next_seq_ s) cs) ∧ Forall copy_ok cs ∧
    next_seq_ s' = next_seq_ s + Z.of_nat (List.length cs) ∧
    copies_sent_ s' = copies_sent_ s + Z.of_nat (List.length (omap sent es)).
#[local] Instance copying_rel : TraceRel copying.
Proof.
  split.
  - intros s. exists []. split_and!; [done|constructor|simpl; lia|simpl; lia].
  - intros s1 s2 s3 es1 es2 (c1 & H1 & H2 & H3 & H4) (c2 & K1 & K2 & K3 & K4). exists (c1 ++ c2)%list.
    rewrite written_app, !omap_app, H1, K1, H3. split_and!; [done|by apply Forall_app| |].
    + rewrite K3, H3, length_app. lia.
    + rewrite K4, H4, length_app, H1, K1, H3. lia.
Qed.

Lemma copying_silent s es s' : omap sent es = [] → next_seq_ s' = next_seq_ s →
  copies_sent_ s' = copies_sent_ s → copying s es s'.
Proof. intros He Hn Hc. exists []. rewrite He. split_and!; [done|constructor|simpl; lia|simpl; lia]. Qed.

Lemma SendCopy_copying text s : text ≠ "" → size text ≤ kMaxClipboardTextBytes →
  copying s (events (SendCopy text) s) (exec (SendCopy text) s).
Proof.
  intros Ht Hl. exists [(wall s, text)]. unfold SendCopy. rewrite exec_get, events_get, exec_mod, events_mod.
  unfold written. simpl. rewrite Z.add_0_r.
  destruct (JSONWriter_Write _); simpl; (split_and!; [done| |lia|lia]); by repeat constructor.
Qed.

Lemma copying_mod (f : relay → relay) : (∀ s, next_seq_ (f s) = next_seq_ s) →
  (∀ s, copies_sent_ (f s) = copies_sent_ s) → respects copying (emod f).
Proof. intros H1 H2 s. by apply copying_silent. Qed.

Lemma copying_handle i : respects copying (handle i).
Proof.
  assert (∀ c, sent c = None → respects copying (emit c)) as Hemit.
  { intros c Hc s. apply copying_silent; simpl; by rewrite ?Hc. }
  destruct i as [b raw|r| |h|t|n m]; cbn [handle].
  - unfold OnMessage, HandleInboundJson. destruct b; [apply respects_ret, _|].
    destruct (_ <? _); [apply respects_ret, _|].
    destruct (offer_of raw); [by apply copying_mod|apply respects_ret, _].
  - apply respects_get. intros s. destruct (posted s) as [|text rest]; [apply respects_ret, _|].
    apply respects_bind; [apply _|by apply copying_mod|]. intros _.
    apply respects_bind; [apply _|by apply copying_mod|]. intros _.
    apply respects_bind; [apply _|by apply Hemit|]. intros _.
    destruct (GetActiveWebContents r) as [wc|]; [|apply respects_ret, _].
    apply respects_bind; [apply _| |intros _; by apply copying_mod].
    intros s1. destruct (SynthesizePaste_run wc s1) as (es & Hr & _ & He).
    unfold exec, events. rewrite Hr. by apply copying_silent.
  - by apply copying_mod.
  - apply respects_get. intros s. case_match; [by apply copying_mod|].
    apply respects_bind; [apply _|by apply copying_mod|]. intros _. apply respects_when; [apply _|].
    apply respects_bind; [apply _|by apply Hemit|]. intros _. by apply copying_mod.
  - apply respects_bind; [apply _|by apply copying_mod|]. intros _. apply respects_get. intros s. cbv zeta.
    destruct (String.eqb_spec (UTF16ToUTF8 t) "") as [|Hne]; [apply respects_ret, _|].
    destruct (String.eqb _ _); [by apply copying_mod|].
    destruct (Z.ltb_spec kMaxClipboardTextBytes (size (UTF16ToUTF8 t))); [apply respects_ret, _|].
    intros s'. by apply SendCopy_copying.
  - by apply copying_mod.
Qed.

(** The copies sent are offers to the viewer, numbered one by one, of texts
    that are not empty and fit the cap, and they are counted; an offer that
    came back would not be taken for a paste. *)
Theorem copies_well_formed {L : JsonCodecLaws J} ins (s : relay) :
  (∀ t q text, json_ok (copy_envelope t q text)) →
  let es := events (run handle ins) s in
  copying s es (exec (run handle ins) s) ∧
  ∀ json, json ∈ omap sent es → offer_of json = None.
Proof.
  intros Hok es. assert (copying s es (exec (run handle ins) s)) as Hc.
  { unfold es, run. apply respects_seq; [apply _|]. apply Forall_fmap, Forall_forall.
    intros i _. apply copying_handle. }
  split; [done|]. intros json. destruct Hc as (cs & -> & _). unfold written.
  rewrite list_elem_of_omap. intros (o & Ho & Hid). unfold id in Hid. subst o.
  apply list_elem_of_lookup in Ho as (k & Hk). rewrite list_lookup_imap in Hk.
  destruct (cs !! k) as [c|]; [|done]. simpl in Hk. injection Hk as Hk.
  destruct (json_roundtrip _ (Hok c.1 (next_seq_ s + Z.of_nat k) c.2)) as (j & Hw & Hr).
  rewrite Hw in Hk. injection Hk as <-. unfold offer_of. rewrite Hr. reflexivity.
Qed.

(** ** Pastes *)

(** What the viewer's end writes. *)
Definition offer_envelope (t q : spec_float) (text : string) : Value :=
  VDict (Set_ "data" (VDict (Set_ "text" (VString text) (Set_ "source" (VString kSourceUserAction)
      (Set_ "direction" (VString kDirectionToCloud) []))))
    (Set_ "seq" (VDouble q) (Set_ "t" (VDouble t) (Set_ "type" (VString kTypeClipboardOffer)
      (Set_ "v" (VInt kProtocolVersion) []))))).

(** [raw] is the frame of an offer of [text], and neither is too long. *)
Definition offers {L : JsonCodecLaws J} (raw text : string) : Prop :=
  ∃ t q, json_ok (offer_envelope t q text) ∧ JSONWriter_Write (offer_envelope t q text) = Some raw ∧
    size text ≤ kMaxClipboardTextBytes ∧ size raw ≤ kMaxClipboardTextBytes + 512.

(** The text is on the clipboard before the page sees Ctrl+V. *)
Definition paste_of (at_time : Z) (text : string) : list event :=
  let key ty := Page (ForwardKeyboardEvent (mkKey ty (wrap32 (flag kControlKey)) at_time kVkeyV kVkeyV 0 0 [])) in
  [WriteText (to_utf16 text); key kRawKeyDown; key kKeyUp].

Lemma offers_read {L : JsonCodecLaws J} raw text : offers raw text → offer_of raw = Some text.
Proof.
  intros (t & q & Hok & Hw & Hl & _). destruct (json_roundtrip _ Hok) as (r & Hr & Hread).
  rewrite Hw in Hr. injection Hr as <-. unfold offer_of. rewrite Hread.
  change (match FindString "text" (Set_ "text" (VString text) [("direction", VString kDirectionToCloud);
    ("source", VString kSourceUserAction)]) with
    | Some text => if kMaxClipboardTextBytes <? size text then None else Some text | None => None end = Some text).
  unfold FindString. rewrite Find_Set_eq. destruct (Z.ltb_spec kMaxClipboardTextBytes (size text)); [lia|done].
Qed.

Lemma frames_post {L : JsonCodecLaws J} raws texts (s : relay) : Forall2 offers raws texts →
  run handle (Frame false <$> raws) s = (tt, s <| posted := (posted s ++ texts)%list |>, []).
Proof.
  intros H. revert s. induction H as [|raw text raws texts Ho _ IH]; intros s.
  { rewrite app_nil_r. by destruct s. }
  rewrite fmap_cons. pose proof (offers_read _ _ Ho) as Hr. destruct Ho as (t & q & _ & _ & _ & Hl).
  unfold run. rewrite fmap_cons. cbn [eseq handle]. unfold OnMessage, HandleInboundJson. rewrite Hr.
  destruct (Z.ltb_spec (kMaxClipboardTextBytes + 512) (size raw)); [lia|].
  rewrite mod_run. unfold run in IH. rewrite IH. destruct s. simpl. by rewrite <-app_assoc.
Qed.

Lemma pastes_run wc rwh texts (s : relay) : contents_host wc = Some rwh → posted s = texts →
  let m := run handle (replicate (List.length texts) (Pasted (Some (Some wc)))) in
  events m s = texts ≫= paste_of (clock s) ∧ posted (exec m s) = [] ∧
  last_written_text_ (exec m s) = default (last_written_text_ s) (last texts) ∧
  pastes_applied_ (exec m s) = pastes_applied_ s + Z.of_nat (List.length texts).
Proof.
  intros Hwc. revert s. induction texts as [|text texts IH]; intros s Hp; cbv zeta.
  { split_and!; [done|done|done|]. change (pastes_applied_ s = pastes_applied_ s + 0). lia. }
  set (s1 := s <| posted := texts |> <| last_written_text_ := text |>
               <| pastes_applied_ := pastes_applied_ s + 1 |>).
  assert (handle (Pasted (Some (Some wc))) s = (tt, s1, paste_of (clock s) text)) as Hh.
  { cbn [handle]. unfold RunPaste. rewrite get_run, Hp, mod_run. unfold ApplyPaste, SynthesizePaste.
    rewrite mod_run. cbn [GetActiveWebContents]. rewrite Hwc. by destruct s. }
  destruct (IH s1 eq_refl) as (H1 & H2 & H3 & H4). unfold run in *. cbn [List.length replicate].
  rewrite fmap_cons. cbn [eseq]. rewrite events_bind, !exec_bind.
  assert (exec (handle (Pasted (Some (Some wc)))) s = s1) as -> by (unfold exec; by rewrite Hh).
  assert (events (handle (Pasted (Some (Some wc)))) s = paste_of (clock s) text) as ->
    by (unfold events; by rewrite Hh).
  rewrite H1, H2, H3, H4. split_and!; [done|done| |unfold s1; simpl; lia].
  rewrite last_cons. by destruct (last texts).
Qed.

(** C31. A text the viewer offers reaches the page: the offers of a list of texts,
    and the pastes they post, write the texts to the clipboard in order, each
    followed by Ctrl+V. *)
Theorem paste_roundtrip {L : JsonCodecLaws J} raws texts wc rwh (s : relay) :
  Forall2 offers raws texts → contents_host wc = Some rwh → posted s = [] →
  let ins := ((Frame false <$> raws) ++ replicate (List.length texts) (Pasted (Some (Some wc))))%list in
  events (run handle ins) s = texts ≫= paste_of (clock s) ∧
  posted (exec (run handle ins) s) = [] ∧
  last_written_text_ (exec (run handle ins) s) = default (last_written_text_ s) (last texts) ∧
  pastes_applied_ (exec (run handle ins) s) = pastes_applied_ s + Z.of_nat (List.length texts).
Proof.
  intros Ho Hwc Hp. cbv zeta.
  destruct (run_app handle (Frame false <$> raws) (replicate (List.length texts) (Pasted (Some (Some wc)))) s)
    as [-> ->].
  assert (exec (run handle (Frame false <$> raws)) s = s <| posted := (posted s ++ texts)%list |>) as ->
    by (unfold exec; by rewrite (frames_post _ _ s Ho)).
  assert (events (run handle (Frame false <$> raws)) s = []) as ->
    by (unfold events; by rewrite (frames_post _ _ s Ho)).
  rewrite Hp. exact (pastes_run wc rwh texts (s <| posted := texts |>) Hwc eq_refl).
Qed.

(** A paste consumes the window of a copy: when the viewer pastes between the
    copy gesture and the page's change of the clipboard, the change the paste
    makes is the one the window is spent on, the relay recognises its own text
    and sends nothing, and the page's change that follows is ignored. *)
Theorem paste_consumes_copy_window (s : relay) u text rest r :
  copy_armed_until_ s = Some u → clock s ≤ u → posted s = text :: rest → text ≠ "" →
  UTF16ToUTF8 (to_utf16 text) = text → reads s = 0%nat →
  let ins := [Pasted r; ClipboardChanged true; TextRead (to_utf16 text); ClipboardChanged true] in
  all_enabled enabled handle ins s = true ∧
  omap sent (events (run handle ins) s) = [] ∧ reads (exec (run handle ins) s) = 0%nat ∧
  changes_ignored_ (exec (run handle ins) s) = changes_ignored_ s + 2.
Proof.
  intros Hu Hc Hp Ht Hx Hr. cbv zeta.
  destruct (ApplyPaste_run r text (s <| posted := rest |>)) as (s1 & es & Ha & H1 & H2 & H3 & H4 & H5 & _ & _ & H6 & H7).
  assert (handle (Pasted r) s = (tt, s1, WriteText (to_utf16 text) :: es)) as Hh.
  { cbn [handle]. unfold RunPaste. by rewrite get_run, Hp, mod_run, Ha. }
  simpl in H3, H4, H5. rewrite Hu in H3. rewrite Hr in H5. clear Ha.
  unfold run. rewrite !fmap_cons, fmap_nil. cbn [eseq all_enabled enabled andb].
  rewrite events_bind, exec_bind, omap_app.
  assert (exec (handle (Pasted r)) s = s1) as -> by (unfold exec; by rewrite Hh).
  assert (omap sent (events (handle (Pasted r)) s) = []) as -> by (unfold events; by rewrite Hh).
  clear Hh. destruct s1 as [lw ar sq pa cs ci ck wl po rd]. simpl in *. subst lw ar ck rd ci.
  destruct (Z.ltb_spec u (clock s)) as [|_]; [lia|]. 
  assert (String.eqb (UTF16ToUTF8 (to_utf16 text)) "" = false) as He by (rewrite Hx; by apply String.eqb_neq).
  unfold OnClipboardDataChanged, OnClipboardTextRead. run_eff.
  destruct (Z.ltb_spec u (clock s)) as [|_]; [lia|]. simpl.
  rewrite He, Hx, String.eqb_refl. simpl. split_and!; [done|done|done|lia].
Qed.
End properties.

(** ** Witnesses *)

Import BitsCodec.

#[local] Instance ascii_lib : TextLib := {|
  UTF16ToUTF8 l := String.string_of_list_ascii ((λ z, Ascii.ascii_of_N (Z.to_N z)) <$> l);
  to_utf16 t := (λ c, Z.of_N (Ascii.N_of_ascii c)) <$> String.list_ascii_of_string t;
|}.
#[local] Existing Instance blink_modifiers.

Definition a_page : WebContents := mkContents (Some (Some (mkRwh 0 None 7))) None None.
Definition fresh : relay := CbClipboardRelay 0 0.
Definition one_copy : list input :=
  [Gesture; Later 5 5; ClipboardChanged true; TextRead [65; 66]; ClipboardChanged true].

Lemma copies_need_gestures_witness : ∃ gs, gs `sublist_of` [0] ∧
  (List.length (omap sent (events (run handle one_copy) fresh)) ≤ List.length gs)%nat.
Proof.
  destruct (copies_need_gestures 0 0 one_copy) as (gs & H1 & _ & H2); [vm_compute; reflexivity|].
  exists gs. split; [exact H1|exact H2].
Defined.

Lemma copies_well_formed_witness :
  next_seq_ (exec (run handle one_copy) fresh) = 1 ∧
  ∀ json, json ∈ omap sent (events (run handle one_copy) fresh) → offer_of json = None.
Proof.
  split; [vm_compute; reflexivity|].
  exact (proj2 (copies_well_formed one_copy fresh (λ _ _ _, I))).
Defined.

Definition offer_ab : string :=
  default "" (JSONWriter_Write (offer_envelope (double_of_Z 1) (double_of_Z 0) "ab")).
Lemma paste_roundtrip_witness :
  last_written_text_ (exec (run handle [Frame false offer_ab; Pasted (Some (Some a_page))]) fresh) = "ab".
Proof.
  refine (proj1 (proj2 (proj2 (paste_roundtrip [offer_ab] ["ab"] a_page (mkRwh 0 None 7) fresh _ _ _))));
    [|reflexivity|reflexivity].
  constructor; [|constructor]. exists (double_of_Z 1), (double_of_Z 0). split; [exact I|].
  split; [reflexivity|]. vm_compute. by split.
Defined.

Definition armed_and_pasted : relay :=
  exec (ArmCopyWindow;; emod (λ s, s <| posted := ["ab"] |>)) fresh.
Lemma paste_consumes_copy_window_witness :
  changes_ignored_ (exec (run handle [Pasted None; ClipboardChanged true; TextRead [97; 98];
    ClipboardChanged true]) armed_and_pasted) = 2.
Proof.
  refine (proj2 (proj2 (proj2 (paste_consumes_copy_window armed_and_pasted 2000000 "ab" [] None _ _ _ _ _ _))));
    first [vm_compute; reflexivity | vm_compute; discriminate].
Defined.
