(* ===== verification/ClockRebase.v ===== *)
(** * Timestamps of captured frames
      (capture/framesink-capturer/video_frame_conversion.cc,
       RebaseMediaTimestampToWebrtcMicros)

    A captured frame carries a time of the media clock; libwebrtc wants one of
    its own clock.  The first call records the difference of the two clocks in
    process-wide atomics and the following ones add it.  The function is
    modelled twice: as it runs alone, and as the steps of the calls of several
    threads on the shared atomics.  Times are in microseconds and stay clear of
    the bounds of [int64_t]. *)

From Stdlib Require Import ZArith Lia.
From stdpp Require Import base tactics numbers list.
From S2P Require Import Prelude.
Open Scope Z_scope.

(** [g_clock_delta_us] and [g_clock_delta_set]. *)
Record atomics := mkAtomics {
  g_clock_delta_us : Z;
  g_clock_delta_set : bool;
}.
Definition initial : atomics := mkAtomics 0 false.

(** A call that runs alone; [now] is what [TimeMicros] answers. *)
Definition RebaseMediaTimestampToWebrtcMicros (media_us now : Z) (g : atomics) : Z * atomics :=
  if g_clock_delta_set g then (media_us + g_clock_delta_us g, g)
  else (now, mkAtomics (now - media_us) true).

(** ** The calls of several threads *)

(** Where a call is: before the load of the flag, before [TimeMicros], before
    the compare-exchange, before the store of the delta, before the final load
    of the delta, or returned. *)
Inductive pc :=
| AtLoad (media : Z)
| AtTime (media : Z)
| AtExchange (media now : Z)
| AtStore (media now : Z)
| AtRead (media : Z)
| Returned (media result : Z).

(** One step of a call; [now] is the time it happens. *)
Definition step (now : Z) (p : pc) (g : atomics) : pc * atomics :=
  match p with
  | AtLoad media => (if g_clock_delta_set g then AtRead media else AtTime media, g)
  | AtTime media => (AtExchange media now, g)
  | AtExchange media t =>
      if g_clock_delta_set g then (AtRead media, g)
      else (AtStore media t, mkAtomics (g_clock_delta_us g) true)
  | AtStore media t => (Returned media t, mkAtomics (t - media) (g_clock_delta_set g))
  | AtRead media => (Returned media (media + g_clock_delta_us g), g)
  | Returned _ _ => (p, g)
  end.

(** Thread [i] takes a step. *)
Definition move (i : nat) (now : Z) (s : list pc * atomics) : list pc * atomics :=
  match s.1 !! i with
  | Some p => let '(p', g') := step now p s.2 in (<[i:=p']> s.1, g')
  | None => s
  end.
Definition moves (l : list (nat * Z)) (s : list pc * atomics) : list pc * atomics :=
  fold_left (λ s m, move m.1 m.2 s) l s.
Definition calls (media : list Z) : list pc * atomics := (AtLoad <$> media, initial).

(** A call whose steps no other call comes between is the function. *)
Theorem lone_call_atomic media now g l1 l2 :
  (moves (replicate 4 (List.length l1, now)) (l1 ++ AtLoad media :: l2, g)) =
  (l1 ++ Returned media (RebaseMediaTimestampToWebrtcMicros media now g).1 :: l2,
   (RebaseMediaTimestampToWebrtcMicros media now g).2).
Proof.
  assert (∀ p g, move (List.length l1) now (l1 ++ p :: l2, g) =
    (l1 ++ (step now p g).1 :: l2, (step now p g).2)) as Hm.
  { intros p g'. unfold move. cbn [fst snd]. rewrite list_lookup_middle by done.
    destruct (step now p g') as [p' g'']. cbn [fst snd]. by rewrite insert_app_r_alt, Nat.sub_diag. }
  unfold moves. cbn [replicate fold_left fst snd]. rewrite !Hm. cbn [step fst snd].
  unfold RebaseMediaTimestampToWebrtcMicros. destruct g as [d b]. by destruct b.
Qed.

(** ** Calls one after the other *)

Fixpoint rebase_all (frames : list (Z * Z)) (g : atomics) : list Z :=
  match frames with
  | [] => []
  | (media, now) :: frames' =>
      let '(t, g') := RebaseMediaTimestampToWebrtcMicros media now g in t :: rebase_all frames' g'
  end.

(** The first frame of the process gets the time of libwebrtc's clock, and
    every frame is moved by the same difference: the order of the frames and
    the intervals between them are those of the media clock. *)
Theorem timestamps_shifted media now frames :
  rebase_all ((media, now) :: frames) initial = (λ f, f.1 + (now - media)) <$> ((media, now) :: frames).
Proof.
  assert (rebase_all frames (mkAtomics (now - media) true) = (λ f, f.1 + (now - media)) <$> frames) as H.
  { induction frames as [|[m n] frames IH]; [done|]. rewrite fmap_cons, <-IH. reflexivity. }
  rewrite fmap_cons, <-H. cbn [rebase_all]. unfold RebaseMediaTimestampToWebrtcMicros. cbn.
  f_equal. lia.
Qed.

(** ** Calls that overlap *)

(** Once a call has won the exchange with the delta [d]: either it has not
    stored it and whoever read has read zero, or it has, and a call returned
    the right time or had read before. *)
Definition ok_before (p : pc) : Prop :=
  match p with AtStore _ _ => False | Returned m r => r = m | _ => True end.
Definition ok_after (d : Z) (p : pc) : Prop :=
  match p with AtStore _ _ => False | Returned m r => r = m ∨ r = m + d | _ => True end.
Definition not_yet (p : pc) : Prop :=
  match p with AtLoad _ | AtTime _ | AtExchange _ _ => True | _ => False end.

Inductive phase : list pc * atomics → Prop :=
| unset ts : Forall not_yet ts → phase (ts, mkAtomics 0 false)
| storing l1 m t l2 : Forall ok_before l1 → Forall ok_before l2 →
    phase (l1 ++ AtStore m t :: l2, mkAtomics 0 true)
| stored d ts : Forall (ok_after d) ts → phase (ts, mkAtomics d true).

Lemma move_phase i now s : phase s → phase (move i now s).
Proof.
  intros Hs. unfold move. destruct (s.1 !! i) as [p|] eqn:Hp; [|done].
  destruct Hs as [ts Ht|l1 m t l2 H1 H2|d ts Ht]; cbn [fst snd] in *.
  - pose proof (Forall_lookup_1 _ _ _ _ Ht Hp) as Hn.
    destruct p as [media|media|media t|?|?|?]; try done; cbn [step g_clock_delta_set g_clock_delta_us];
      [apply unset; by apply Forall_insert..|].
    rewrite (insert_take_drop _ _ _ (lookup_lt_Some _ _ _ Hp)). apply storing.
    + apply Forall_take. eapply Forall_impl; [exact Ht|]. by intros [].
    + apply Forall_drop. eapply Forall_impl; [exact Ht|]. by intros [].
  - assert (Forall ok_before (l1 ++ l2)) as H12 by (by apply Forall_app).
    destruct (Nat.lt_trichotomy i (List.length l1)) as [Hi|[->|Hi]].
    + rewrite lookup_app_l in Hp by done.
      pose proof (Forall_lookup_1 _ _ _ _ H1 Hp) as Hn.
      destruct p; try done; cbn [step g_clock_delta_set g_clock_delta_us];
        rewrite insert_app_l by done; apply storing; try done;
        apply Forall_insert; try done; simpl; lia.
    + rewrite list_lookup_middle in Hp by done. simplify_eq. cbn [step g_clock_delta_set].
      rewrite insert_app_r_alt, Nat.sub_diag by done. simpl. apply stored.
      apply Forall_app. split; [|constructor; [simpl; lia|]].
      * eapply Forall_impl; [exact H1|]. intros []; simpl; auto.
      * eapply Forall_impl; [exact H2|]. intros []; simpl; auto.
    + rewrite lookup_app_r in Hp by lia.
      destruct (i - List.length l1)%nat as [|k] eqn:Hk; [lia|]. simpl in Hp.
      pose proof (Forall_lookup_1 _ _ _ _ H2 Hp) as Hn.
      destruct p; try done; cbn [step g_clock_delta_set g_clock_delta_us];
        rewrite insert_app_r_alt, Hk by lia; simpl; apply storing; try done;
        apply Forall_insert; try done; simpl; lia.
  - pose proof (Forall_lookup_1 _ _ _ _ Ht Hp) as Hn.
    destruct p; try done; cbn [step g_clock_delta_set g_clock_delta_us]; apply stored;
      apply Forall_insert; try done; simpl; auto.
Qed.

Definition media_of (p : pc) : Z :=
  match p with
  | AtLoad m | AtTime m | AtExchange m _ | AtStore m _ | AtRead m | Returned m _ => m
  end.
Lemma step_media now p g : media_of (step now p g).1 = media_of p.
Proof. by destruct p, g as [d []]. Qed.
Lemma move_media i now s : media_of <$> (move i now s).1 = media_of <$> s.1.
Proof.
  unfold move. destruct (s.1 !! i) as [p|] eqn:Hp; [|done].
  pose proof (step_media now p s.2) as Hs. destruct (step now p s.2) as [p' g']. cbn [fst] in *.
  rewrite list_fmap_insert. apply list_insert_id. rewrite list_lookup_fmap, Hp. simpl. by rewrite Hs.
Qed.

(** What holds of every interleaving of the steps. *)
Lemma moves_ind (P : list pc * atomics → Prop) l s :
  P s → (∀ i now s, P s → P (move i now s)) → P (moves l s).
Proof. intros H0 Hm. unfold moves. revert s H0. induction l as [|m l IH]; intros s H0; [done|]. by apply IH, Hm. Qed.

(** However the calls of several threads interleave, they agree on one
    difference [d] of the clocks: a call returns its time moved by [d], or,
    when it overlapped the first one, the bare media time; and [d] is what the
    atomics hold once it is stored. *)
Theorem rebase_interleaved media l :
  let s := moves l (calls media) in
  media_of <$> s.1 = media ∧
  ∃ d, (∀ i m r, s.1 !! i = Some (Returned m r) → r = m + d ∨ r = m) ∧
    (g_clock_delta_set s.2 = true → (∀ i m t, s.1 !! i ≠ Some (AtStore m t)) → d = g_clock_delta_us s.2).
Proof.
  intros s. split.
  { unfold s. apply (moves_ind (λ s, media_of <$> s.1 = media)).
    - unfold calls. cbn [fst]. rewrite <-list_fmap_compose. apply list_fmap_id.
    - intros i now s' <-. apply move_media. }
  assert (phase s) as Hs.
  { unfold s. apply moves_ind; [|intros; by apply move_phase].
    apply unset, Forall_fmap, Forall_true. by intros ?. }
  destruct Hs as [ts Ht|l1 m t l2 H1 H2|d ts Ht]; cbn [fst snd].
  - exists 0. split; [|done]. intros i m r Hi. by pose proof (Forall_lookup_1 _ _ _ _ Ht Hi).
  - exists 0. split.
    + intros i m' r Hi. right. destruct (Nat.lt_trichotomy i (List.length l1)) as [Hl|[->|Hl]].
      * rewrite lookup_app_l in Hi by done. exact (Forall_lookup_1 _ _ _ _ H1 Hi).
      * by rewrite list_lookup_middle in Hi.
      * rewrite lookup_app_r in Hi by lia. destruct (i - List.length l1)%nat as [|k] eqn:Hk; [lia|].
        exact (Forall_lookup_1 _ _ _ _ H2 Hi).
    + intros _ Hn. destruct (Hn (List.length l1) m t). by rewrite list_lookup_middle.
  - exists d. split; [|done]. intros i m r Hi. destruct (Forall_lookup_1 _ _ _ _ Ht Hi); auto.
Qed.

(** Calls that begin once the first one has returned all get their time moved
    by its difference, however they interleave. *)
Theorem later_calls_shifted media d l i m r :
  (moves l (AtLoad <$> media, mkAtomics d true)).1 !! i = Some (Returned m r) → r = m + d.
Proof.
  assert (∃ ts, moves l (AtLoad <$> media, mkAtomics d true) = (ts, mkAtomics d true) ∧
    Forall (λ p, match p with AtLoad _ | AtRead _ => True | Returned m r => r = m + d | _ => False end) ts)
    as (ts & -> & Ht).
  { apply (moves_ind (λ s, ∃ ts, s = (ts, mkAtomics d true) ∧ Forall _ ts)).
    - eexists. split; [done|]. apply Forall_fmap, Forall_true. by intros ?.
    - intros j now s (ts & -> & Ht). unfold move. cbn [fst snd].
      destruct (ts !! j) as [p|] eqn:Hp; [|by eexists].
      pose proof (Forall_lookup_1 _ _ _ _ Ht Hp) as Hn.
      destruct p; try done; eexists; (split; [reflexivity|]); by apply Forall_insert. }
  intros Hi. exact (Forall_lookup_1 _ _ _ _ Ht Hi).
Qed.

(** The overlap that goes wrong: a call that loads the flag between the
    exchange and the store of the first call returns the bare media time,
    whatever the difference of the clocks. *)
Theorem overlapping_call_unshifted m0 m1 now0 now1 :
  moves [(0%nat, now0); (0%nat, now0); (0%nat, now0); (1%nat, now1); (1%nat, now1); (0%nat, now0)] (calls [m0; m1]) =
    ([Returned m0 now0; Returned m1 m1], mkAtomics (now0 - m0) true).
Proof. unfold moves, move, calls. cbn. by rewrite Z.add_0_r. Qed.

(** ** Witnesses *)

Lemma later_calls_shifted_witness : 110 = 100 + 10.
Proof.
  exact (later_calls_shifted [50; 100] 10 [(1%nat, 0); (0%nat, 0); (1%nat, 0)] 1%nat 100 110 eq_refl).
Defined.
