(* ===== verification/FrameCapture.v ===== *)
(** * Frame capture
      (capture/framesink-capturer/capturer.{h,cc},
       cb_framesink_video_track_source.cc, video_frame_conversion.{h,cc})

    Frames of the captured page arrive at [CloudBrowserFrameSinkCapturer], which
    wraps them and hands them to the track source, which converts them and
    broadcasts them to the sinks of the encoder.  The buffer of a frame goes
    back to viz when the last reference to the frame is dropped, on whatever
    thread; [lent] are the buffers of frames the sinks still hold.  When the
    page is idle a deadline asks viz to deliver the last frame again.  Times are
    in microseconds; the counters are [uint64_t]. *)

From Stdlib Require Import ZArith Lia.
From stdpp Require Import base tactics sets numbers list.
From S2P Require Import Prelude ClockRebase.
Open Scope Z_scope.

(** A 64-bit counter that has been incremented [n] times. *)
Definition count64 (n : nat) : Z := Z.of_nat n mod 2 ^ 64.
Definition incr (c : Z) : Z := (c + 1) mod 2 ^ 64.
Lemma incr_count n : incr (count64 n) = count64 (S n).
Proof. unfold incr, count64. rewrite Nat2Z.inj_succ, Zplus_mod_idemp_l. done. Qed.

Inductive VideoPixelFormat := PIXEL_FORMAT_NV12 | PIXEL_FORMAT_I420 | PIXEL_FORMAT_OTHER.
#[export] Instance format_eq_dec : EqDecision VideoPixelFormat.
Proof. solve_decision. Defined.

(** [gfx::Size]; its width and height are not negative. *)
Abbreviation Size := (Z * Z)%type (only parsing).
Definition IsEmpty (r : Size) : bool := (r.1 =? 0) || (r.2 =? 0).

(** The buffer handle of a frame: null, a shared-memory region that can or
    cannot be mapped and wrapped, or another kind of handle. *)
Inductive VideoBufferHandle := NullData | ShmemRegion (mapping_valid wraps : bool) | OtherHandle.
Record VideoFrameInfo := mkInfo {
  pixel_format : VideoPixelFormat;
  visible_rect : Size;
  timestamp : Z;
}.
(** A [media::VideoFrame] and the number of its buffer. *)
Record MediaFrame := mkMedia { media_info : VideoFrameInfo; media_buffer : option nat }.
(** The buffer of a [webrtc::VideoFrame] keeps the captured frame. *)
Record FrameBuffer := mkBuffer { frame_ : MediaFrame; width_ : Z; height_ : Z }.
(** A [webrtc::VideoFrame]. *)
Record WebrtcFrame := mkWebrtc { video_frame_buffer : FrameBuffer; timestamp_us : Z }.

Inductive event :=
| SetFormat (f : VideoPixelFormat)
| SetMinCapturePeriod (p : Z)
| SetResolutionConstraints (r : Size)
| ChangeTarget (target : nat)
| ProducerStart (prefer_mappable : bool)
| ProducerStop
| RequestRefreshFrame (at_time : Z)
| ContentChanged
| Done (buffer : nat)
| Published (f : WebrtcFrame).

(** ** The capturer *)

Record capturer := mkCapturer {
  resolution_ : Size;
  format_ : VideoPixelFormat;
  min_capture_period_ : Z;
  idle_refresh_period_ : Z;
  idle_refresh_timer_ : option Z;     (* when it is due *)
  started_ : bool;
  consumer_bound : bool;
  on_content_changed_ : bool;
  frames_received : Z;
  frames_delivered : Z;
  frames_failed_to_wrap : Z;
  buffers_done : Z;
  idle_refreshes_requested : Z;
  clock : Z;
  next_buffer : nat;
  lent : list nat;
  done_posted : list nat;
}.
#[export] Instance eta_capturer : Eta capturer := λ s,
  mkCapturer (resolution_ s) (format_ s) (min_capture_period_ s) (idle_refresh_period_ s)
    (idle_refresh_timer_ s) (started_ s) (consumer_bound s) (on_content_changed_ s)
    (frames_received s) (frames_delivered s) (frames_failed_to_wrap s) (buffers_done s)
    (idle_refreshes_requested s) (clock s) (next_buffer s) (lent s) (done_posted s).
Abbreviation C := (eff capturer event).

Definition CloudBrowserFrameSinkCapturer (t0 : Z) : capturer :=
  mkCapturer (1280, 720) PIXEL_FORMAT_I420 16667 0 None false false false 0 0 0 0 0 t0 0 [] [].

Definition ArmIdleRefreshDeadline : C unit :=
  s ← eget;
  if negb (0 <? idle_refresh_period_ s) || negb (started_ s) then mret tt
  else emod (λ s, s <| idle_refresh_timer_ := Some (clock s + idle_refresh_period_ s) |>).

Definition Configure (resolution : Size) (format : VideoPixelFormat) (min_capture_period : Z) : C unit :=
  emod (λ s, s <| resolution_ := resolution |> <| format_ := format |>
               <| min_capture_period_ := min_capture_period |>).

Definition SetOnContentChangedCallback (set : bool) : C unit :=
  emod (λ s, s <| on_content_changed_ := set |>).
Definition RunContentChanged : C unit :=
  s ← eget; ewhen (on_content_changed_ s) (emit ContentChanged).

Definition SetIdleRefreshPeriod (period : Z) : C unit :=
  emod (λ s, s <| idle_refresh_period_ := if 0 <? period then period else 0 |>);;
  s ← eget;
  if negb (0 <? idle_refresh_period_ s)
  then emod (λ s, s <| idle_refresh_timer_ := None |>)
  else ArmIdleRefreshDeadline.

(** [n & ~1] *)
Definition align_even (n : Z) : Z := Z.land n (Z.lnot 1).

Definition SetCaptureResolution (resolution : Size) : C unit :=
  let aligned := (align_even resolution.1, align_even resolution.2) in
  if IsEmpty aligned then mret tt
  else
    s ← eget;
    if bool_decide (aligned = resolution_ s) then mret tt
    else
      emod (λ s, s <| resolution_ := aligned |>);;
      if negb (started_ s) then mret tt
      else
        emit (SetResolutionConstraints aligned);;
        emit (RequestRefreshFrame (clock s));;
        RunContentChanged.

Definition ApplyToProducer (target : nat) : C unit :=
  s ← eget;
  emit (SetFormat (format_ s));;
  emit (SetMinCapturePeriod (min_capture_period_ s));;
  emit (SetResolutionConstraints (resolution_ s));;
  emit (ChangeTarget target).

Definition Start (target : nat) : C unit :=
  s ← eget;
  if started_ s then
    ApplyToProducer target;;
    ArmIdleRefreshDeadline;;
    RunContentChanged
  else
    ApplyToProducer target;;
    emod (λ s, s <| consumer_bound := true |>);;
    emit (ProducerStart (bool_decide (format_ s = PIXEL_FORMAT_NV12)));;
    emod (λ s, s <| started_ := true |>);;
    ArmIdleRefreshDeadline.

Definition Stop : C unit :=
  s ← eget;
  if negb (started_ s) then mret tt
  else
    emit ProducerStop;;
    emod (λ s, s <| started_ := false |>);;
    emod (λ s, s <| idle_refresh_timer_ := None |>).

Definition OnStopped : C unit :=
  emod (λ s, s <| started_ := false |> <| idle_refresh_timer_ := None |>).

Definition OnIdleRefreshDeadline : C unit :=
  s ← eget;
  if negb (started_ s) || negb (0 <? idle_refresh_period_ s) then mret tt
  else
    emod (λ s, s <| idle_refreshes_requested := incr (idle_refreshes_requested s) |>);;
    emit (RequestRefreshFrame (clock s));;
    ArmIdleRefreshDeadline.

(** [RunDone] *)
Definition RunDone (b : nat) : C unit :=
  emit (Done b);; emod (λ s, s <| buffers_done := incr (buffers_done s) |>).

(** The last reference to a frame's buffer is dropped, on the capturer's
    sequence or on another; the callbacks of a buffer may be invalid. *)
Definition release (buffer : option nat) (same_sequence : bool) : C unit :=
  match buffer with
  | None => mret tt
  | Some b =>
      if same_sequence then RunDone b
      else emod (λ s, s <| done_posted := (done_posted s ++ [b])%list |>)
  end.

Definition WrapAsMediaFrame (data : VideoBufferHandle) (info : VideoFrameInfo) (buffer : option nat)
    : option MediaFrame :=
  match data with
  | NullData => None
  | ShmemRegion mapping_valid wraps =>
      if negb mapping_valid then None
      else if negb wraps then None
      else Some (mkMedia info buffer)
  | OtherHandle => None
  end.

(** The frame that is handed to [on_frame_], last. *)
Definition OnFrameCaptured (data : VideoBufferHandle) (info : option VideoFrameInfo)
    (callbacks_valid : bool) : C (option MediaFrame) :=
  emod (λ s, s <| frames_received := incr (frames_received s) |>);;
  ArmIdleRefreshDeadline;;
  s ← eget;
  let buffer := if callbacks_valid then Some (next_buffer s) else None in
  emod (λ s, s <| next_buffer := if callbacks_valid then S (next_buffer s) else next_buffer s |>);;
  match info with
  | None =>
      emod (λ s, s <| frames_failed_to_wrap := incr (frames_failed_to_wrap s) |>);;
      release buffer true;;
      mret None
  | Some info =>
      match WrapAsMediaFrame data info buffer with
      | None =>
          emod (λ s, s <| frames_failed_to_wrap := incr (frames_failed_to_wrap s) |>);;
          release buffer true;;
          mret None
      | Some frame =>
          emod (λ s, s <| frames_delivered := incr (frames_delivered s) |>);;
          mret (Some frame)
      end
  end.

(** ** The conversion *)

Record VideoFrameConversionStats := mkConversion {
  frames_wrapped_nv12 : Z;
  frames_wrapped_i420 : Z;
  frames_dropped_unknown_format : Z;
  frames_dropped_empty_visible_rect : Z;
}.
#[export] Instance eta_conversion : Eta VideoFrameConversionStats := λ s,
  mkConversion (frames_wrapped_nv12 s) (frames_wrapped_i420 s) (frames_dropped_unknown_format s)
    (frames_dropped_empty_visible_rect s).

Definition IsSupportedPixelFormat (f : VideoPixelFormat) : bool :=
  bool_decide (f = PIXEL_FORMAT_NV12) || bool_decide (f = PIXEL_FORMAT_I420).

Definition NV12Buffer_Create (frame : option MediaFrame) : option FrameBuffer :=
  match frame with
  | None => None
  | Some frame =>
      if negb (bool_decide (pixel_format (media_info frame) = PIXEL_FORMAT_NV12)) then None
      else
        let visible := visible_rect (media_info frame) in
        if IsEmpty visible then None else Some (mkBuffer frame visible.1 visible.2)
  end.
Definition I420Buffer_Create (frame : option MediaFrame) : option FrameBuffer :=
  match frame with
  | None => None
  | Some frame =>
      if negb (bool_decide (pixel_format (media_info frame) = PIXEL_FORMAT_I420)) then None
      else
        let visible := visible_rect (media_info frame) in
        if IsEmpty visible then None else Some (mkBuffer frame visible.1 visible.2)
  end.

(** The track source, its capturer, and the process-wide clock difference. *)
Record source := mkSource {
  capturer_ : option capturer;
  frames_received_from_capturer : Z;
  frames_published_to_sinks : Z;
  frames_dropped_conversion_failed : Z;
  conversion_stats_ : VideoFrameConversionStats;
  clock_delta : atomics;
}.
#[export] Instance eta_source : Eta source := λ s,
  mkSource (capturer_ s) (frames_received_from_capturer s) (frames_published_to_sinks s)
    (frames_dropped_conversion_failed s) (conversion_stats_ s) (clock_delta s).
Abbreviation T := (eff source event).

Definition CloudBrowserFrameSinkVideoTrackSource (c : option capturer) (g : atomics) : source :=
  mkSource c 0 0 0 (mkConversion 0 0 0 0) g.

Definition count (f : VideoFrameConversionStats → VideoFrameConversionStats) : T unit :=
  emod (λ s, s <| conversion_stats_ := f (conversion_stats_ s) |>).
Definition wrapped (b : option FrameBuffer) (f : VideoFrameConversionStats → VideoFrameConversionStats) :
    T (option FrameBuffer) :=
  ewhen (bool_decide (is_Some b)) (count f);; mret b.

(** [now] is [webrtc::TimeMicros]. *)
Definition WrapMediaVideoFrameAsWebrtcFrame (media_frame : option MediaFrame) (now : Z) : T (option WebrtcFrame) :=
  match media_frame with
  | None => mret None
  | Some frame =>
      if IsEmpty (visible_rect (media_info frame)) then
        count (λ c, c <| frames_dropped_empty_visible_rect := incr (frames_dropped_empty_visible_rect c) |>);;
        mret None
      else if negb (IsSupportedPixelFormat (pixel_format (media_info frame))) then
        count (λ c, c <| frames_dropped_unknown_format := incr (frames_dropped_unknown_format c) |>);;
        mret None
      else
        let media_ts := timestamp (media_info frame) in
        buffer ← match pixel_format (media_info frame) with
                 | PIXEL_FORMAT_NV12 =>
                     wrapped (NV12Buffer_Create media_frame)
                       (λ c, c <| frames_wrapped_nv12 := incr (frames_wrapped_nv12 c) |>)
                 | PIXEL_FORMAT_I420 =>
                     wrapped (I420Buffer_Create media_frame)
                       (λ c, c <| frames_wrapped_i420 := incr (frames_wrapped_i420 c) |>)
                 | PIXEL_FORMAT_OTHER => mret None   (* NOTREACHED *)
                 end;
        match buffer with
        | None =>
            count (λ c, c <| frames_dropped_unknown_format := incr (frames_dropped_unknown_format c) |>);;
            mret None
        | Some buffer =>
            s ← eget;
            let '(t, g) := RebaseMediaTimestampToWebrtcMicros media_ts now (clock_delta s) in
            emod (λ s, s <| clock_delta := g |>);;
            mret (Some (mkWebrtc buffer t))
        end
  end.

(** ** The track source *)

(** A frame of the capturer; the result tells whether it was published. *)
Definition OnCapturerFrame (media_frame : option MediaFrame) (now : Z) : T bool :=
  emod (λ s, s <| frames_received_from_capturer := incr (frames_received_from_capturer s) |>);;
  match media_frame with
  | None => mret false
  | Some _ =>
      wf ← WrapMediaVideoFrameAsWebrtcFrame media_frame now;
      match wf with
      | None =>
          emod (λ s, s <| frames_dropped_conversion_failed := incr (frames_dropped_conversion_failed s) |>);;
          mret false
      | Some wf =>
          emit (Published wf);;
          emod (λ s, s <| frames_published_to_sinks := incr (frames_published_to_sinks s) |>);;
          mret true
      end
  end.

(** A call on the capturer, when there is one. *)
Definition on_capturer {A} (m : C A) : T (option A) := λ s,
  match capturer_ s with
  | None => (None, s, [])
  | Some c => let '(a, c', es) := m c in (Some a, s <| capturer_ := Some c' |>, es)
  end.
Definition call (m : C unit) : T unit := on_capturer m;; mret tt.

Definition StartCapture (target : nat) : T unit := call (Start target).
Definition Source_SetOnContentChangedCallback (set : bool) : T unit := call (SetOnContentChangedCallback set).
Definition Source_SetCaptureResolution (resolution : Size) : T unit := call (SetCaptureResolution resolution).

(** A frame passes through the capturer and the source.  A published frame of
    which a sink keeps a copy keeps its buffer; in any other case the last
    reference to it is dropped when the callback returns. *)
Definition FrameArrives (data : VideoBufferHandle) (info : option VideoFrameInfo) (callbacks_valid : bool)
    (now : Z) (sinks_keep : bool) : T unit :=
  r ← on_capturer (OnFrameCaptured data info callbacks_valid);
  match mjoin r with
  | None => mret tt
  | Some frame =>
      published ← OnCapturerFrame (Some frame) now;
      call (if published && sinks_keep
            then emod (λ c, c <| lent := (lent c ++ option_list (media_buffer frame))%list |>)
            else release (media_buffer frame) true)
  end.

Inductive input :=
| ConfigureCalled (resolution : Size) (format : VideoPixelFormat) (min_capture_period : Z)
| ContentCallbackSet (set : bool)
| IdlePeriodSet (period : Z)
| Started (target : nat)
| Resized (resolution : Size)
| StopCalled
| Arrives (data : VideoBufferHandle) (info : option VideoFrameInfo) (callbacks_valid : bool)
    (now : Z) (sinks_keep : bool)
| ConsumerStopped
| DeadlineFires
| SinksDrop (buffer : nat) (same_sequence : bool)
| PostedDoneRuns
| Later (d : Z).

(** A timer that fires is no longer running when its task runs. *)
Definition handle (i : input) : T unit :=
  match i with
  | ConfigureCalled r f p => call (Configure r f p)
  | ContentCallbackSet b => Source_SetOnContentChangedCallback b
  | IdlePeriodSet p => call (SetIdleRefreshPeriod p)
  | Started t => StartCapture t
  | Resized r => Source_SetCaptureResolution r
  | StopCalled => call Stop
  | Arrives d i v n k => FrameArrives d i v n k
  | ConsumerStopped => call OnStopped
  | DeadlineFires => call (emod (λ c, c <| idle_refresh_timer_ := None |>);; OnIdleRefreshDeadline)
  | SinksDrop b same =>
      call (emod (λ c, c <| lent := filter (λ x, x ≠ b) (lent c) |>);; release (Some b) same)
  | PostedDoneRuns =>
      call (c ← eget;
            match done_posted c with
            | [] => mret tt
            | b :: bs => emod (λ c, c <| done_posted := bs |>);; RunDone b
            end)
  | Later d => call (emod (λ c, c <| clock := clock c + d |>))
  end.

(** [Configure] is for a capturer that is not started, a timer fires when it is
    due, and a sink drops a frame it holds. *)
Definition enabled (i : input) (s : source) : bool :=
  match capturer_ s with
  | None => true
  | Some c =>
      match i with
      | ConfigureCalled _ _ _ => negb (started_ c)
      | DeadlineFires => match idle_refresh_timer_ c with Some d => d <=? clock c | None => false end
      | SinksDrop b _ => bool_decide (b ∈ lent c)
      | Later d => 0 <=? d
      | _ => true
      end
  end.

(** ** The calls on the capturer *)

Definition start (t0 : Z) (g : atomics) : source :=
  CloudBrowserFrameSinkVideoTrackSource (Some (CloudBrowserFrameSinkCapturer t0)) g.

Definition published (e : event) : option WebrtcFrame :=
  match e with Published f => Some f | _ => None end.
Definition done (e : event) : option nat := match e with Done b => Some b | _ => None end.
Definition constraint (e : event) : option Size :=
  match e with SetResolutionConstraints r => Some r | _ => None end.
Definition refresh (e : event) : option Z := match e with RequestRefreshFrame t => Some t | _ => None end.

(** A call on a capturer that exists. *)
Definition with_capturer (s : source) (c : capturer) : source := s <| capturer_ := Some c |>.
Lemma call_run m s c c' es : capturer_ s = Some c → m c = (tt, c', es) →
  call m s = (tt, with_capturer s c', es).
Proof.
  intros Hc Hm. unfold call, on_capturer. unfold mbind, eff_bind. rewrite Hc, Hm.
  unfold mret, eff_ret. by rewrite app_nil_r.
Qed.

(** What a call keeps of the counters of frames. *)
Definition counts_kept (c : capturer) (es : list event) (c' : capturer) : Prop :=
  frames_received c' = frames_received c ∧ frames_delivered c' = frames_delivered c ∧
  frames_failed_to_wrap c' = frames_failed_to_wrap c ∧ omap published es = [].
#[local] Instance counts_rel : TraceRel counts_kept.
Proof.
  split; [done|]. intros c1 c2 c3 es1 es2 (H1 & H2 & H3 & H4) (K1 & K2 & K3 & K4).
  unfold counts_kept. rewrite K1, K2, K3, omap_app, H4, K4. by split_and!.
Qed.
(** What a call keeps of the buffers. *)
Definition buffers_kept (c : capturer) (es : list event) (c' : capturer) : Prop :=
  done_posted c' = done_posted c ∧ lent c' = lent c ∧ next_buffer c' = next_buffer c ∧
  omap done es = [].
#[local] Instance buffers_rel : TraceRel buffers_kept.
Proof.
  split; [done|]. intros c1 c2 c3 es1 es2 (H1 & H2 & H3 & H4) (K1 & K2 & K3 & K4).
  unfold buffers_kept. rewrite K1, K2, K3, omap_app, H4, K4. by split_and!.
Qed.

(** Walk through a computation made of calls that each keep what is kept. *)
Ltac keeps_tac :=
  repeat first
    [ apply respects_ret, _
    | apply respects_get; intros ?
    | apply respects_when; [apply _|]
    | apply respects_bind; [apply _| |intros ?]
    | apply respects_mod; intros ?; by split_and!
    | apply respects_emit; intros ?; by split_and!
    | case_match ].
Create HintDb frames.
Ltac unfold_calls :=
  unfold Configure, SetOnContentChangedCallback, SetIdleRefreshPeriod, SetCaptureResolution, Start, Stop,
    OnStopped, OnIdleRefreshDeadline, ApplyToProducer, ArmIdleRefreshDeadline, RunContentChanged.

(** The calls that neither bring a frame nor drop one. *)
Inductive plain : input → C unit → Prop :=
| plain_configure r f p : plain (ConfigureCalled r f p) (Configure r f p)
| plain_content b : plain (ContentCallbackSet b) (SetOnContentChangedCallback b)
| plain_period p : plain (IdlePeriodSet p) (SetIdleRefreshPeriod p)
| plain_start t : plain (Started t) (Start t)
| plain_resize r : plain (Resized r) (SetCaptureResolution r)
| plain_stop : plain StopCalled Stop
| plain_stopped : plain ConsumerStopped OnStopped
| plain_deadline : plain DeadlineFires (emod (λ c, c <| idle_refresh_timer_ := None |>);; OnIdleRefreshDeadline)
| plain_later d : plain (Later d) (emod (λ c, c <| clock := clock c + d |>)).

Lemma plain_handle i m : plain i m → handle i = call m.
Proof. by destruct 1. Qed.
Lemma plain_counts i m : plain i m → respects counts_kept m.
Proof. destruct 1; unfold_calls; cbv zeta; keeps_tac. Qed.
Lemma plain_buffers i m : plain i m → respects buffers_kept m.
Proof. destruct 1; unfold_calls; cbv zeta; keeps_tac. Qed.

(** A frame that arrives. *)
Definition arrival (v : bool) (c : capturer) (r : option MediaFrame) (c' : capturer) (es : list event) : Prop :=
  let b := if v then Some (next_buffer c) else None in
  frames_received c' = incr (frames_received c) ∧
  next_buffer c' = (next_buffer c + List.length (option_list b))%nat ∧
  lent c' = lent c ∧ done_posted c' = done_posted c ∧
  started_ c' = started_ c ∧ resolution_ c' = resolution_ c ∧ clock c' = clock c ∧
  idle_refresh_period_ c' = idle_refresh_period_ c ∧
  idle_refresh_timer_ c' = (if (0 <? idle_refresh_period_ c) && started_ c
    then Some (clock c + idle_refresh_period_ c) else idle_refresh_timer_ c) ∧
  match r with
  | Some f => es = [] ∧ media_buffer f = b ∧
      frames_delivered c' = incr (frames_delivered c) ∧ frames_failed_to_wrap c' = frames_failed_to_wrap c
  | None => es = (Done <$> option_list b) ∧
      frames_delivered c' = frames_delivered c ∧ frames_failed_to_wrap c' = incr (frames_failed_to_wrap c)
  end.

Lemma OnFrameCaptured_spec d i v c : ∃ r c' es,
  OnFrameCaptured d i v c = (r, c', es) ∧ arrival v c r c' es.
Proof.
  unfold OnFrameCaptured, ArmIdleRefreshDeadline, release, RunDone, WrapAsMediaFrame, arrival.
  destruct c as [r f p ip it st cb cc fr fd ff bd ir ck nb le dp].
  run_eff. destruct (0 <? ip), st, d as [|[] []|], i as [i|], v; simpl;
    (do 3 eexists; split; [reflexivity|]); simpl; split_and!; try reflexivity; lia.
Qed.

(** ** What becomes of a frame *)

Inductive verdict := AsNv12 | AsI420 | Unknown | Empty.
Definition verdict_of (frame : MediaFrame) : verdict :=
  if IsEmpty (visible_rect (media_info frame)) then Empty
  else match pixel_format (media_info frame) with
       | PIXEL_FORMAT_NV12 => AsNv12 | PIXEL_FORMAT_I420 => AsI420 | PIXEL_FORMAT_OTHER => Unknown
       end.
Definition tally (v : verdict) (c : VideoFrameConversionStats) : VideoFrameConversionStats :=
  match v with
  | AsNv12 => c <| frames_wrapped_nv12 := incr (frames_wrapped_nv12 c) |>
  | AsI420 => c <| frames_wrapped_i420 := incr (frames_wrapped_i420 c) |>
  | Unknown => c <| frames_dropped_unknown_format := incr (frames_dropped_unknown_format c) |>
  | Empty => c <| frames_dropped_empty_visible_rect := incr (frames_dropped_empty_visible_rect c) |>
  end.
Definition is_published (v : verdict) : bool := match v with AsNv12 | AsI420 => true | _ => false end.

(** The source publishes the frames it can convert, the size of their visible
    rectangle and at the shifted time, and counts every frame once. *)
Definition converted (frame : MediaFrame) (now : Z) (s : source) : bool * source * list event :=
  let v := verdict_of frame in
  let tg := RebaseMediaTimestampToWebrtcMicros (timestamp (media_info frame)) now (clock_delta s) in
  let s1 := s <| frames_received_from_capturer := incr (frames_received_from_capturer s) |>
              <| conversion_stats_ := tally v (conversion_stats_ s) |> in
  if is_published v then
    (true, s1 <| clock_delta := tg.2 |> <| frames_published_to_sinks := incr (frames_published_to_sinks s) |>,
     [Published (mkWebrtc (mkBuffer frame (visible_rect (media_info frame)).1 (visible_rect (media_info frame)).2)
        tg.1)])
  else (false, s1 <| frames_dropped_conversion_failed := incr (frames_dropped_conversion_failed s) |>, []).

Lemma OnCapturerFrame_spec frame now s : OnCapturerFrame (Some frame) now s = converted frame now s.
Proof.
  unfold OnCapturerFrame, WrapMediaVideoFrameAsWebrtcFrame, converted, verdict_of, wrapped, NV12Buffer_Create,
    I420Buffer_Create.
  destruct frame as [[[] r t] b], s as [c nr np nd st g]; destruct (IsEmpty r) eqn:Hr; simpl; rewrite ?Hr;
    unfold count; run_eff; rewrite ?Hr; simpl; try reflexivity;
    by destruct (RebaseMediaTimestampToWebrtcMicros t now g).
Qed.

(** A frame from its arrival to the drop of the references the callback has. *)
Lemma FrameArrives_spec d i v now k s c : capturer_ s = Some c → ∃ r c1 es1 s' es,
  arrival v c r c1 es1 ∧ FrameArrives d i v now k s = (tt, s', es) ∧
  match r with
  | None => s' = with_capturer s c1 ∧ es = es1
  | Some frame =>
      let q := converted frame now (with_capturer s c1) in
      let keep := q.1.1 && k in
      s' = with_capturer q.1.2
        (if keep then c1 <| lent := (lent c1 ++ option_list (media_buffer frame))%list |>
         else exec (release (media_buffer frame) true) c1) ∧
      es = (q.2 ++ if keep then [] else Done <$> option_list (media_buffer frame))%list
  end.
Proof.
  intros Hc. destruct (OnFrameCaptured_spec d i v c) as (r & c1 & es1 & Ho & Ha). exists r, c1, es1.
  unfold FrameArrives. unfold mbind, eff_bind. unfold on_capturer at 1. rewrite Hc, Ho. destruct r as [frame|].
  - simpl. rewrite OnCapturerFrame_spec. change (s <| capturer_ := Some c1 |>) with (with_capturer s c1).
    assert (es1 = []) as -> by apply Ha. 
    set (q := converted frame now (with_capturer s c1)).
    assert (capturer_ q.1.2 = Some c1) as Hq.
    { unfold q, converted. cbv zeta. by destruct (is_published _). }
    destruct q as [[pub s1] es]. cbn [fst snd] in *.
    destruct (pub && k).
    + rewrite (call_run _ _ _ _ [] Hq eq_refl). do 2 eexists. by split_and!.
    + destruct (media_buffer frame) as [b|].
      * rewrite (call_run _ _ _ _ [Done b] Hq eq_refl). do 2 eexists. by split_and!.
      * rewrite (call_run _ _ _ _ [] Hq eq_refl). do 2 eexists. by split_and!.
  - simpl. unfold mret, eff_ret. rewrite app_nil_r. do 2 eexists. by split_and!.
Qed.

(** A step is a call on the capturer, or a frame that arrives. *)
Definition dropped (i : input) (m : C unit) : Prop :=
  match i with
  | SinksDrop b same =>
      m = (emod (λ c, c <| lent := filter (λ x, x ≠ b) (lent c) |>);; release (Some b) same)
  | PostedDoneRuns =>
      m = (c ← eget;
           match done_posted c with
           | [] => mret tt
           | b :: bs => emod (λ c, c <| done_posted := bs |>);; RunDone b
           end)
  | _ => False
  end.
Lemma step_cases i : (∃ d v n k fi, i = Arrives d fi v n k) ∨ (∃ m, plain i m ∧ handle i = call m) ∨
  (∃ m, dropped i m ∧ handle i = call m).
Proof.
  destruct i; try (right; left; eexists; split; [by constructor|done]);
    first [left; by do 5 eexists | right; right; by eexists].
Qed.
Lemma dropped_counts i m : dropped i m → respects counts_kept m.
Proof. destruct i; try done; intros ->; unfold release, RunDone; cbv zeta; keeps_tac. Qed.

Lemma call_exec m s c : capturer_ s = Some c → call m s = (tt, with_capturer s (exec m c), events m c).
Proof. intros Hc. apply (call_run _ _ c); [done|]. unfold exec, events. by destruct (m c) as [[[] ?] ?]. Qed.

Lemma run_of (m : T unit) s s' es (P : source → list event → Prop) : m s = (tt, s', es) →
  P (exec m s) (events m s) = P s' es.
Proof. intros H. unfold exec, events. by rewrite H. Qed.

(** [n] frames published as NV12, [i] as I420, [u] dropped as of an unknown
    format, [e] as empty, [f] that could not be wrapped. *)
Definition accounted (s : source) (tr : list event) : Prop :=
  ∃ (c : capturer) (n i u e f : nat), capturer_ s = Some c ∧
    frames_received c = count64 (n + i + u + e + f) ∧
    frames_failed_to_wrap c = count64 f ∧
    frames_delivered c = count64 (n + i + u + e) ∧
    frames_received_from_capturer s = count64 (n + i + u + e) ∧
    frames_dropped_conversion_failed s = count64 (u + e) ∧
    frames_published_to_sinks s = count64 (n + i) ∧
    conversion_stats_ s = mkConversion (count64 n) (count64 i) (count64 u) (count64 e) ∧
    List.length (omap published tr) = (n + i)%nat.

Lemma counts_step s tr c c' es : accounted s tr → capturer_ s = Some c → counts_kept c es c' →
  accounted (with_capturer s c') (tr ++ es).
Proof.
  intros (c0 & n & i & u & e & f & Hc & H) Hc' (K1 & K2 & K3 & K4). rewrite Hc' in Hc. injection Hc as <-.
  exists c', n, i, u, e, f. rewrite omap_app, K4, app_nil_r, K1, K2, K3. by split.
Qed.

Lemma release_counts b c : counts_kept c (events (release b true) c) (exec (release b true) c).
Proof. unfold release, RunDone. by destruct b. Qed.
Lemma published_done (l : list nat) : omap published (Done <$> l) = [].
Proof. by induction l. Qed.

Lemma accounted_step i s tr : accounted s tr → accounted (exec (handle i) s) (tr ++ events (handle i) s).
Proof.
  intros Ha. pose proof Ha as (c & n & j & u & e & f & Hc & H1 & H2 & H3 & H4 & H5 & H6 & H7 & H8).
  destruct (step_cases i) as [(d & v & now & k & fi & ->)|[(m & Hm & Hh)|(m & Hm & Hh)]].
  - destruct (FrameArrives_spec d fi v now k s c Hc) as (r & c1 & es1 & s' & es & Har & Hf & Hr).
    cbn [handle]. rewrite (run_of _ _ _ _ (λ s es, accounted s (tr ++ es)) Hf).
    destruct Har as (A1 & _ & _ & _ & _ & _ & _ & _ & _ & A2). destruct r as [frame|].
    + destruct A2 as (_ & _ & A2 & A3). destruct Hr as [-> ->]. rewrite app_assoc.
      eapply (counts_step (with_capturer _ c1) _ c1); [|reflexivity|].
      * unfold converted. destruct (verdict_of frame); cbn [is_published fst snd tally];
          [exists c1, (S n), j, u, e, f|exists c1, n, (S j), u, e, f|exists c1, n, j, (S u), e, f
          |exists c1, n, j, u, (S e), f]; destruct s as [? r0 p0 d0 q0 g0]; simpl in *; subst r0 p0 d0 q0;
          rewrite ?A1, ?A2, ?A3, ?H1, ?H2, ?H3, ?incr_count, ?omap_app, ?length_app, ?H8; simpl;
          split_and!; try reflexivity; try (f_equal; lia); try lia; by rewrite <-incr_count.
      * destruct (_ && k); [by split_and!|]. unfold release, RunDone. by destruct (media_buffer frame).
    + destruct A2 as (-> & A2 & A3). destruct Hr as [-> ->].
      exists c1, n, j, u, e, (S f). rewrite omap_app, published_done, app_nil_r, A1, A2, A3, H1, H2, !incr_count.
      split_and!; try done. f_equal. lia.
  - rewrite Hh. rewrite (run_of _ _ _ _ (λ s es, accounted s (tr ++ es)) (call_exec m s c Hc)).
    apply (counts_step s tr c); [done|done|]. exact (plain_counts i m Hm c).
  - rewrite Hh. rewrite (run_of _ _ _ _ (λ s es, accounted s (tr ++ es)) (call_exec m s c Hc)).
    apply (counts_step s tr c); [done|done|]. exact (dropped_counts i m Hm c).
Qed.

(** C28. Every frame that arrives is counted in exactly one place: it is published,
    or dropped for a reason, and the counters of the capturer, of the source
    and of the conversion agree. *)
Theorem frames_accounted t0 g s tr : reachable enabled handle (start t0 g) s tr → accounted s tr.
Proof.
  apply reachable_trace_inv; [|by intros; apply accounted_step].
  by exists (CloudBrowserFrameSinkCapturer t0), 0%nat, 0%nat, 0%nat, 0%nat, 0%nat.
Qed.

(** ** Buffers *)

(** Every buffer viz has lent is held by a sink, is being given back, or was
    given back, once. *)
Definition buffers (s : source) (tr : list event) : Prop :=
  ∃ c, capturer_ s = Some c ∧ omap done tr ++ done_posted c ++ lent c ≡ₚ seq 0 (next_buffer c).

Lemma done_done (l : list nat) : omap done (Done <$> l) = l.
Proof. induction l as [|x l IH]; [done|]. simpl. f_equal. exact IH. Qed.

Lemma without_one (b : nat) l : NoDup l → b ∈ l → l ≡ₚ b :: filter (λ x, x ≠ b) l.
Proof.
  intros Hn Hb. apply NoDup_Permutation; [done| |].
  - constructor; [|by apply NoDup_filter]. rewrite list_elem_of_filter. by intros [? _].
  - intros x. rewrite elem_of_cons, list_elem_of_filter. destruct (decide (x = b)) as [->|]; naive_solver.
Qed.

Lemma buffers_step i s tr : buffers s tr → enabled i s = true →
  buffers (exec (handle i) s) (tr ++ events (handle i) s).
Proof.
  intros (c & Hc & Hb) He.
  destruct (step_cases i) as [(d & v & now & k & fi & ->)|[(m & Hm & Hh)|(m & Hm & Hh)]].
  - destruct (FrameArrives_spec d fi v now k s c Hc) as (r & c1 & es1 & s' & es & Har & Hf & Hr).
    cbn [handle]. rewrite (run_of _ _ _ _ (λ s es, buffers s (tr ++ es)) Hf).
    destruct Har as (_ & A1 & A2 & A3 & _ & _ & _ & _ & _ & A4).
    assert (seq 0 (next_buffer c1) = seq 0 (next_buffer c) ++
      option_list (if v then Some (next_buffer c) else None)) as Hs.
    { rewrite A1. destruct v; simpl; [by rewrite seq_app|by rewrite Nat.add_0_r, app_nil_r]. }
    set (b := option_list _) in Hs.
    destruct r as [frame|].
    + destruct A4 as (_ & A4 & _). destruct Hr as [-> ->]. eexists; split; [reflexivity|].
      assert (omap done (converted frame now (with_capturer s c1)).2 = []) as Hq
        by (unfold converted; by destruct (is_published _)).
      rewrite A4. fold b. rewrite !omap_app, Hq. cbn [app].
      destruct (_ && k); simpl; rewrite ?A2, ?A3, ?done_done.
      * rewrite Hs, <-Hb, app_nil_r. apply reflexive_eq. by rewrite <-!app_assoc.
      * assert (∀ o, next_buffer (exec (release o true) c1) = next_buffer c1 ∧
          done_posted (exec (release o true) c1) = done_posted c1 ∧
          lent (exec (release o true) c1) = lent c1) as Hrel by by intros [].
        destruct (Hrel (if v then Some (next_buffer c) else None)) as (-> & -> & ->).
        rewrite Hs, A2, A3, <-Hb. solve_Permutation.
    + destruct A4 as (-> & _). destruct Hr as [-> ->]. exists c1; split; [done|].
      rewrite omap_app, done_done, Hs, A2, A3, <-Hb. fold b. solve_Permutation.
  - rewrite Hh. rewrite (run_of _ _ _ _ (λ s es, buffers s (tr ++ es)) (call_exec m s c Hc)).
    destruct (plain_buffers i m Hm c) as (K1 & K2 & K3 & K4). eexists; split; [reflexivity|].
    by rewrite omap_app, K4, app_nil_r, K1, K2, K3.
  - rewrite Hh. rewrite (run_of _ _ _ _ (λ s es, buffers s (tr ++ es)) (call_exec m s c Hc)).
    eexists; split; [reflexivity|]. rewrite omap_app. destruct i as [| | | | | | | | |b same| |]; try done.
    + simpl in Hm. subst m. unfold enabled in He. rewrite Hc in He. apply bool_decide_eq_true in He.
      assert (NoDup (lent c)) as Hn.
      { assert (NoDup (omap done tr ++ done_posted c ++ lent c)) as Hn by (rewrite Hb; apply NoDup_seq).
        by apply NoDup_app in Hn as (_ & _ & (_ & _ & Hn)%NoDup_app). }
      rewrite exec_mod, events_mod. rewrite (without_one b (lent c) Hn He) in Hb.
      destruct same; run_eff; rewrite <-Hb; solve_Permutation.
    + simpl in Hm. subst m. rewrite exec_get, events_get.
      destruct (done_posted c) as [|b bs] eqn:Hd; run_eff; rewrite <-Hb; [by rewrite app_nil_r, Hd|].
      by rewrite <-app_assoc.
Qed.

(** C29. The buffers viz lends are given back exactly once: at every moment each of
    them is held by a sink, waits in a posted task, or its [Done] was sent. *)
Theorem buffers_returned_once t0 g s tr : reachable enabled handle (start t0 g) s tr → buffers s tr.
Proof. apply reachable_trace_inv; [by exists (CloudBrowserFrameSinkCapturer t0)|by intros; apply buffers_step]. Qed.

(** ** The deadline and the constraints *)

(** What the refresh deadline and the constraints depend on. *)
Definition timing : Type := (option Z * bool * Z * Z * Size).
Definition view (c : capturer) : timing :=
  (idle_refresh_timer_ c, started_ c, idle_refresh_period_ c, clock c, resolution_ c).

Lemma dropped_view i m c : dropped i m → view (exec m c) = view c ∧ omap constraint (events m c) = [] ∧
  omap refresh (events m c) = [].
Proof.
  destruct i; try done; intros ->; unfold release, RunDone; [by destruct same_sequence|].
  rewrite exec_get, events_get. by destruct (done_posted c).
Qed.

Definition armed (c : capturer) : timing :=
  (if (0 <? idle_refresh_period_ c) && started_ c then Some (clock c + idle_refresh_period_ c)
   else idle_refresh_timer_ c, started_ c, idle_refresh_period_ c, clock c, resolution_ c).
Lemma arrival_view d i v now k s c : capturer_ s = Some c → ∃ c', 
  capturer_ (exec (FrameArrives d i v now k) s) = Some c' ∧ view c' = armed c ∧
  omap constraint (events (FrameArrives d i v now k) s) = [] ∧
  omap refresh (events (FrameArrives d i v now k) s) = [].
Proof.
  intros Hc. destruct (FrameArrives_spec d i v now k s c Hc) as (r & c1 & es1 & s' & es & Ha & Hf & Hr).
  assert (exec (FrameArrives d i v now k) s = s') as -> by (unfold exec; by rewrite Hf).
  assert (events (FrameArrives d i v now k) s = es) as -> by (unfold events; by rewrite Hf).
  destruct Ha as (_ & _ & _ & _ & A1 & A2 & A3 & A4 & A5 & A6).
  assert (view c1 = armed c) as Hv by (unfold view, armed; by rewrite A1, A2, A3, A4, A5).
  assert (∀ l : list nat, omap constraint (Done <$> l) = [] ∧ omap refresh (Done <$> l) = []) as Hd
    by (intros l; by induction l).
  destruct r as [frame|]; destruct Hr as [-> ->].
  - eexists; split; [reflexivity|]. rewrite !omap_app. unfold converted. split.
    + destruct (_ && k); [exact Hv|]. by destruct (media_buffer frame).
    + destruct (_ && k), (is_published _); simpl; apply Hd || done.
  - exists c1. split; [done|]. split; [done|]. destruct A6 as (-> & _). apply Hd.
Qed.

(** An invariant of the deadline and of the constraints sent. *)
Lemma timing_inv (P : timing → list Size → Prop) t0 g :
  P (view (CloudBrowserFrameSinkCapturer t0)) [] →
  (∀ i m s c cs, plain i m → capturer_ s = Some c → enabled i s = true → P (view c) cs →
    P (view (exec m c)) (cs ++ omap constraint (events m c))) →
  (∀ c cs, P (view c) cs → P (armed c) cs) →
  ∀ s tr, reachable enabled handle (start t0 g) s tr →
    ∃ c, capturer_ s = Some c ∧ P (view c) (omap constraint tr).
Proof.
  intros H0 Hplain Harm. apply reachable_trace_inv; [by exists (CloudBrowserFrameSinkCapturer t0)|].
  intros i s tr _ (c & Hc & Hp) He. rewrite omap_app.
  destruct (step_cases i) as [(d & v & now & k & fi & ->)|[(m & Hm & Hh)|(m & Hm & Hh)]].
  - destruct (arrival_view d fi v now k s c Hc) as (c' & H1 & H2 & H3 & _). exists c'. split; [done|].
    cbn [handle]. rewrite H3, app_nil_r, H2. by apply Harm.
  - rewrite Hh. unfold exec at 1, events at 1. rewrite (call_exec m s c Hc). eexists; split; [done|].
    by apply (Hplain i m s).
  - rewrite Hh. unfold exec at 1, events at 1. rewrite (call_exec m s c Hc). eexists; split; [done|].
    cbn [snd]. destruct (dropped_view i m c Hm) as (-> & -> & _). by rewrite app_nil_r.
Qed.

Definition pending (v : timing) (_ : list Size) : Prop :=
  let '(t, started, p, now, _) := v in
  match t with
  | Some d => started = true ∧ 0 < p ∧ d ≤ now + p
  | None => started = false ∨ p ≤ 0
  end.
Ltac open_plain :=
  unfold_calls; cbv zeta; run_eff;
  repeat match goal with
  | |- context [0 <? ?p] => destruct (Z.ltb_spec 0 p); simpl in *
  | |- context [if ?b then _ else _] => destruct b eqn:?; simpl in *
  | b : bool |- _ => destruct b; simpl in *
  end.

(** While the capture runs and refreshing is on, and only then, a deadline is
    pending, at most one period ahead. *)
Theorem deadline_pending t0 g s tr : reachable enabled handle (start t0 g) s tr →
  ∃ c, capturer_ s = Some c ∧ pending (view c) (omap constraint tr).
Proof.
  apply timing_inv; [by left| |].
  - intros i m s1 c cs Hm Hc He Hp. unfold enabled in He. rewrite Hc in He.
    destruct c as [r f p ip it st cb cc fr fd ff bd ir ck nb le dp]; destruct Hm; simpl in Hp;
      open_plain; destruct it; simpl in *; try naive_solver lia.
  - intros c cs Hp. unfold pending, view, armed in *. destruct (Z.ltb_spec 0 (idle_refresh_period_ c)),
      (started_ c); simpl; naive_solver lia.
Qed.

Definition in_force (v : timing) (cs : list Size) : Prop :=
  let '(_, started, _, _, r) := v in started = true → last cs = Some r.

(** While the capture runs, the constraints viz was last given are the
    resolution of the capturer. *)
Theorem constraints_follow t0 g s tr : reachable enabled handle (start t0 g) s tr →
  ∃ c, capturer_ s = Some c ∧ in_force (view c) (omap constraint tr).
Proof.
  apply timing_inv; [done| |done].
  intros i m s1 c cs Hm Hc He Hp. unfold enabled in He. rewrite Hc in He.
  destruct c as [r f p ip it st cb cc fr fd ff bd ir ck nb le dp]; destruct Hm; simpl in Hp, He;
    open_plain; rewrite ?app_nil_r; rewrite ?last_snoc; done.
Qed.

(** ** The animated page and the idle page *)

(** Frames arrive, sinks drop them and time passes; the deadline is [left]
    away at first, and never reached. *)
Fixpoint steady (p left : Z) (ins : list input) : Prop :=
  match ins with
  | [] => 0 < left
  | Later d :: ins' => d < left ∧ steady p (left - d) ins'
  | Arrives _ _ _ _ _ :: ins' => steady p p ins'
  | (SinksDrop _ _ | PostedDoneRuns) :: ins' => steady p left ins'
  | _ => False
  end.

(** The deadline is [left] away. *)
Definition due_in (p left : Z) (s : source) : Prop :=
  ∃ c, capturer_ s = Some c ∧ started_ c = true ∧ 0 < p ∧ idle_refresh_period_ c = p ∧
    idle_refresh_timer_ c = Some (clock c + left).

Lemma due_view p left s c c' : capturer_ s = Some c → view c' = view c → due_in p left s →
  due_in p left (with_capturer s c').
Proof.
  intros Hc Hv (c0 & Hc0 & H). rewrite Hc in Hc0. injection Hc0 as <-.
  injection Hv as H1 H2 H3 H4 H5. exists c'. rewrite H1, H2, H3, H4. by split.
Qed.

(** When the frames are less than a period apart, no refresh is asked for:
    the deadline does not expire. *)
Theorem animated_page_untouched p left ins s : due_in p left s → steady p left ins →
  enabled DeadlineFires (exec (run handle ins) s) = false ∧
  omap refresh (events (run handle ins) s) = [].
Proof.
  revert left s. unfold run. induction ins as [|i ins IH]; intros left s Hd Hs.
  { destruct Hd as (c & Hc & _ & _ & _ & Ht). unfold enabled, exec. simpl in *. rewrite Hc, Ht.
    split; [|done]. apply Z.leb_gt. lia. }
  rewrite fmap_cons. cbn [eseq]. rewrite exec_bind, events_bind, omap_app.
  assert (∃ left', due_in p left' (exec (handle i) s) ∧ steady p left' ins ∧
    omap refresh (events (handle i) s) = []) as (left' & H1 & H2 & ->); [|by apply (IH left')].
  pose proof Hd as (c & Hc & Hst & Hp & Hper & Ht).
  destruct i as [| | | | | |d fi v now k| | |b same| |d]; try done; cbn [steady] in Hs.
  - exists p. destruct (arrival_view d fi v now k s c Hc) as (c' & H1 & H2 & _ & H4). split_and!; [|done..].
    exists c'. unfold armed in H2. rewrite Hper, Hst, (proj2 (Z.ltb_lt 0 p) Hp) in H2.
    injection H2 as K1 K2 K3 K4 K5. simpl in K1. cbn [handle]. rewrite K1, K2, K3, K4. by split_and!.
  - exists left. destruct (step_cases (SinksDrop b same)) as [?|[(m & Hm & _)|(m & Hm & ->)]];
      [naive_solver|inversion Hm|].
    unfold exec at 1, events at 1. rewrite (call_exec m s c Hc). cbn [fst snd].
    destruct (dropped_view _ m c Hm) as (H1 & _ & H2). split_and!; [|done..]. by apply (due_view p left s c).
  - exists left. destruct (step_cases PostedDoneRuns) as [?|[(m & Hm & _)|(m & Hm & ->)]];
      [naive_solver|inversion Hm|].
    unfold exec at 1, events at 1. rewrite (call_exec m s c Hc). cbn [fst snd].
    destruct (dropped_view _ m c Hm) as (H1 & _ & H2). split_and!; [|done..]. by apply (due_view p left s c).
  - exists (left - d). destruct Hs as [_ Hs]. cbn [handle].
    unfold exec at 1, events at 1. rewrite (call_exec _ s c Hc). cbn [fst snd]. split_and!; [|done..].
    eexists; split; [reflexivity|]. simpl. split_and!; [done..|]. rewrite Ht. f_equal. lia.
Qed.

(** When the page is idle, viz is asked for its last frame once per period,
    for as long as the page stays idle. *)
Theorem idle_page_repeats p s c n : due_in p p s → capturer_ s = Some c →
  let idle := concat (replicate n [Later p; DeadlineFires]) in
  all_enabled enabled handle idle s = true ∧
  events (run handle idle) s = (λ k, RequestRefreshFrame (clock c + Z.of_nat k * p)) <$> seq 1 n ∧
  due_in p p (exec (run handle idle) s).
Proof.
  intros Hd Hc. cbv zeta.
  enough (∀ j s c, due_in p p s → capturer_ s = Some c →
    let idle := concat (replicate n [Later p; DeadlineFires]) in
    all_enabled enabled handle idle s = true ∧
    events (run handle idle) s =
      (λ k, RequestRefreshFrame (clock c + (Z.of_nat k - Z.of_nat j) * p)) <$> seq (S j) n ∧
    due_in p p (exec (run handle idle) s)) as H.
  { destruct (H 0%nat s c Hd Hc) as (H1 & H2 & H3). split_and!; [done| |done]. rewrite H2.
    apply list_fmap_ext. intros ? k _. f_equal. lia. }
  clear. induction n as [|n IH]; intros j s c Hd Hc; [by split_and!|].
  destruct Hd as (c0 & Hc0 & Hst & Hp & Hper & Ht). rewrite Hc in Hc0. injection Hc0 as <-.
  set (c1 := c <| idle_refresh_timer_ := Some (clock c + p + p) |> <| clock := clock c + p |>
               <| idle_refreshes_requested := incr (idle_refreshes_requested c) |>).
  assert (run handle [Later p; DeadlineFires] s =
    (tt, with_capturer s c1, [RequestRefreshFrame (clock c + p)])) as Hr.
  { rewrite run_two. cbn [handle]. unfold mbind, eff_bind. rewrite (call_exec _ s c Hc).
    set (c2 := exec _ c). rewrite (call_exec _ (with_capturer s c2) c2 eq_refl).
    unfold OnIdleRefreshDeadline, ArmIdleRefreshDeadline. subst c1 c2.
    destruct c as [r f mp ip it st cb cc fr fd ff bd ir ck nb le dp]; simpl in *; subst.
    run_eff. rewrite (proj2 (Z.ltb_lt 0 p) Hp). simpl. rewrite (proj2 (Z.ltb_lt 0 p) Hp). by destruct s. }
  assert (all_enabled enabled handle [Later p; DeadlineFires] s = true) as He.
  { cbn [all_enabled handle]. unfold exec at 1. rewrite (call_exec _ s c Hc). unfold enabled at 1 2. simpl.
    rewrite Hc, Ht, (proj2 (Z.leb_le 0 p)), Z.leb_refl by lia. done. }
  assert (due_in p p (with_capturer s c1)) as Hd1.
  { exists c1. subst c1. simpl. by split_and!. }
  cbn [replicate concat]. rewrite all_enabled_app, He.
  destruct (run_app handle [Later p; DeadlineFires] (concat (replicate n [Later p; DeadlineFires])) s) as [-> ->].
  assert (exec (run handle [Later p; DeadlineFires]) s = with_capturer s c1) as -> by (unfold exec; by rewrite Hr).
  assert (events (run handle [Later p; DeadlineFires]) s = [RequestRefreshFrame (clock c + p)]) as ->
    by (unfold events; by rewrite Hr).
  destruct (IH (S j) _ c1 Hd1 eq_refl) as (-> & -> & H3). split_and!; [done| |done].
  cbn [seq]. rewrite fmap_cons. cbn [app]. f_equal; [f_equal; lia|].
  apply list_fmap_ext. intros ? k _. f_equal. subst c1. simpl. lia.
Qed.

(** ** Witnesses *)

Definition an_nv12 (t : Z) : VideoFrameInfo := mkInfo PIXEL_FORMAT_NV12 (640, 360) t.
Definition good : VideoBufferHandle := ShmemRegion true true.
(** Capture starts, a frame is kept by a sink, one is empty, one cannot be
    mapped, and the sink drops its frame on another thread. *)
Definition short_capture : list input :=
  [ConfigureCalled (640, 360) PIXEL_FORMAT_NV12 16667; IdlePeriodSet 100; Started 1;
   Arrives good (Some (an_nv12 0)) true 1000 true; Later 50;
   Arrives good (Some (mkInfo PIXEL_FORMAT_NV12 (0, 0) 50)) true 1050 true;
   Arrives NullData (Some (an_nv12 60)) true 1060 true;
   SinksDrop 0 false; Resized (321, 181); PostedDoneRuns].
Definition after_short : source := exec (run handle short_capture) (start 0 initial).

Lemma short_reachable : reachable enabled handle (start 0 initial) after_short
  (events (run handle short_capture) (start 0 initial)).
Proof. apply run_reachable. vm_compute. reflexivity. Qed.

Lemma frames_accounted_witness :
  accounted after_short (events (run handle short_capture) (start 0 initial)) ∧
  frames_published_to_sinks after_short = 1.
Proof. split; [exact (frames_accounted 0 initial _ _ short_reachable)|vm_compute; reflexivity]. Defined.

Lemma buffers_returned_once_witness :
  buffers after_short (events (run handle short_capture) (start 0 initial)) ∧
  omap done (events (run handle short_capture) (start 0 initial)) = [1%nat; 2%nat; 0%nat].
Proof. split; [exact (buffers_returned_once 0 initial _ _ short_reachable)|vm_compute; reflexivity]. Defined.

Lemma deadline_pending_witness : ∃ c, capturer_ after_short = Some c ∧
  pending (view c) (omap constraint (events (run handle short_capture) (start 0 initial))) ∧
  idle_refresh_timer_ c = Some 150.
Proof.
  destruct (deadline_pending 0 initial _ _ short_reachable) as (c & Hc & Hp). exists c. split_and!; [done..|].
  vm_compute in Hc. by injection Hc as <-.
Defined.

Lemma constraints_follow_witness : ∃ c, capturer_ after_short = Some c ∧
  in_force (view c) (omap constraint (events (run handle short_capture) (start 0 initial))) ∧
  resolution_ c = (320, 180).
Proof.
  destruct (constraints_follow 0 initial _ _ short_reachable) as (c & Hc & Hp). exists c. split_and!; [done..|].
  vm_compute in Hc. by injection Hc as <-.
Defined.

Definition just_started : source :=
  exec (run handle [IdlePeriodSet 100; Started 1]) (start 0 initial).
Lemma just_started_due : due_in 100 100 just_started.
Proof. eexists; split; [vm_compute; reflexivity|]. by split_and!. Qed.

Definition sixty_hertz : list input :=
  concat (replicate 3 [Later 17; Arrives good (Some (an_nv12 0)) true 1000 false]).
Lemma animated_page_untouched_witness :
  enabled DeadlineFires (exec (run handle sixty_hertz) just_started) = false.
Proof.
  refine (proj1 (animated_page_untouched 100 100 sixty_hertz just_started just_started_due _)).
  vm_compute. by split_and!.
Defined.

Lemma idle_page_repeats_witness :
  events (run handle (concat (replicate 2 [Later 100; DeadlineFires]))) just_started =
    [RequestRefreshFrame 100; RequestRefreshFrame 200].
Proof.
  destruct just_started_due as (c & Hc & Hd).
  rewrite (proj1 (proj2 (idle_page_repeats 100 just_started c 2 just_started_due Hc))).
  vm_compute in Hc. by injection Hc as <-.
Defined.
