(* ===== verification/VideoEncoder.v ===== *)
(** * The interface of the video encoders
      (capture/encoder: the [webrtc::VideoEncoder] that H264Encoder, Vp9Encoder,
       SvtAv1Encoder, NvencEncoder, VaapiEncoder, SimulcastEncoder and the
       bandwidth wrapper implement and call)

    [VideoEncoder] is the virtual interface; an encoder is a state and an
    instance.  [EncoderLaws] is the contract of an encoder of one resolution, as
    an abstract machine whose state is the configured resolution and the
    registered callback: the codec encoders implement it, and the wrappers are
    proved against it.  What libwebrtc provides is the parameter [WebrtcLib]. *)

From Stdlib Require Import ZArith Lia SpecFloat.
From stdpp Require Import base tactics numbers list.
From S2P Require Import Prelude Numbers.
Open Scope Z_scope.

Class WebrtcLib := {
  VideoBitrateAllocation : Type;
  no_bitrates : VideoBitrateAllocation;
  SetBitrate : nat → nat → Z → VideoBitrateAllocation → VideoBitrateAllocation;
  GetBitrate : VideoBitrateAllocation → nat → nat → Z;
  get_sum_bps : VideoBitrateAllocation → Z;
  kMaxTemporalStreams : nat;
  kMaxSimulcastStreams : nat;
  I420Buffer : Type;
  (** [libyuv::I420Scale] to a width and a height *)
  I420Scale : I420Buffer → Z → Z → I420Buffer;
}.
(** An allocation of one rate. *)
Class WebrtcLaws (W : WebrtcLib) := {
  get_bitrate_set si tl b : (0 < kMaxTemporalStreams)%nat → 0 ≤ b < 2 ^ 32 →
    GetBitrate (SetBitrate si tl b no_bitrates) si tl = b;
  sum_set si tl b : 0 ≤ b < 2 ^ 32 → get_sum_bps (SetBitrate si tl b no_bitrates) = b;
}.

(** The codes the encoders answer. *)
Inductive code :=
| WEBRTC_VIDEO_CODEC_OK
| WEBRTC_VIDEO_CODEC_ERROR
| WEBRTC_VIDEO_CODEC_ERR_PARAMETER
| WEBRTC_VIDEO_CODEC_UNINITIALIZED.
#[export] Instance code_eq_dec : EqDecision code.
Proof. solve_decision. Defined.

Inductive VideoFrameType := kVideoFrameKey | kVideoFrameDelta.
#[export] Instance frame_type_eq_dec : EqDecision VideoFrameType.
Proof. solve_decision. Defined.
Inductive VideoCodecType := kVideoCodecH264 | kVideoCodecH265 | kVideoCodecVP9 | kVideoCodecAV1.
#[export] Instance codec_type_eq_dec : EqDecision VideoCodecType.
Proof. solve_decision. Defined.

Record SimulcastStream := mkStream {
  stream_width : Z; stream_height : Z; stream_maxFramerate : Z; targetBitrate : Z }.
Record VideoCodec := mkCodec {
  codec_width : Z;
  codec_height : Z;
  maxFramerate : Z;
  maxBitrate : Z;
  startBitrate : Z;
  numberOfSimulcastStreams : Z;
  simulcastStream : list SimulcastStream;
}.
#[export] Instance eta_codec : Eta VideoCodec := λ s,
  mkCodec (codec_width s) (codec_height s) (maxFramerate s) (maxBitrate s) (startBitrate s)
    (numberOfSimulcastStreams s) (simulcastStream s).
(** [webrtc::VideoCodec settings{}] with a width and a height. *)
Definition codec_of (w h : Z) : VideoCodec := mkCodec w h 0 0 0 0 [].

Record Settings := mkSettings { number_of_cores : Z; encoder_thread_limit : option Z }.
(** [Settings(Capabilities(false), 1, 1200)] *)
Definition one_core : Settings := mkSettings 1 None.

Section types.
Context {W : WebrtcLib}.

Record VideoFrame := mkFrame {
  frame_width : Z;
  frame_height : Z;
  rtp_timestamp : Z;
  render_time_ms : Z;
  rotation : Z;
  ToI420 : option I420Buffer;       (* of its buffer; the conversion can fail *)
}.
Record RateControlParameters := mkRates {
  bitrate : VideoBitrateAllocation;
  framerate_fps : spec_float;
  bandwidth_allocation : Z;
}.

Record Vp9Info := mkVp9 { inter_pic_predicted : bool; ss_data_available : bool; vp9_size : option (Z * Z) }.
Record CodecSpecificInfo := mkInfo {
  codecType : VideoCodecType;
  non_interleaved : bool;          (* H264 *)
  VP9 : option Vp9Info;
}.
Record EncodedImage := mkImage {
  EncodedData : list Z;
  _frameType : VideoFrameType;
  _encodedWidth : Z;
  _encodedHeight : Z;
  RtpTimestamp : Z;
  capture_time_ms_ : Z;
  rotation_ : Z;
  SpatialIndex : option Z;
  SimulcastIndex : option Z;
  codec_specific : CodecSpecificInfo;
}.

(** What an encoder does to the outside: it opens, feeds, tunes and closes the
    handles of its codec library, and gives images to its callback.  [Layer]
    is what an inner encoder does. *)
Inductive event :=
| Opened (handle : nat) (width height : Z)
| Fed (handle : nat) (pts : Z) (key : bool)
| Tuned (handle : nat) (rate fps : Z)
| Closed (handle : nat)
| OnEncodedImage (image : EncodedImage)
| Layer (i : nat) (e : event).

Definition image (e : event) : option EncodedImage :=
  match e with OnEncodedImage i => Some i | _ => None end.

(** A callback is a number; [answer c i] is what it says when it gets [i]. *)
Definition answers : Type := nat → EncodedImage → bool.

Class VideoEncoder (E : Type) := {
  InitEncode : option VideoCodec → Settings → eff E event code;
  Encode : answers → VideoFrame → option (list VideoFrameType) → eff E event code;
  RegisterEncodeCompleteCallback : option nat → eff E event code;
  Release : eff E event code;
  SetRates : RateControlParameters → eff E event unit;
}.

(** [frame_types] asks for a key frame. *)
Definition wants_key (frame_types : option (list VideoFrameType)) : bool :=
  match frame_types with
  | None => false
  | Some l => existsb (λ t, bool_decide (t = kVideoFrameKey)) l
  end.

(** ** The contract *)

(** The settings an encoder refuses. *)
Definition bad_settings (codec_settings : option VideoCodec) : bool :=
  match codec_settings with
  | None => true
  | Some cs => (codec_width cs =? 0) || (codec_height cs =? 0)
  end.

(** The configured resolution and the callback. *)
Definition view : Type := option (Z * Z) * option nat.

(** An image of a frame. *)
Definition image_of (frame : VideoFrame) (i : EncodedImage) : Prop :=
  _encodedWidth i = frame_width frame ∧ _encodedHeight i = frame_height frame ∧
  RtpTimestamp i = rtp_timestamp frame ∧ capture_time_ms_ i = render_time_ms frame ∧
  rotation_ i = rotation frame.

Class EncoderLaws (E : Type) {V : VideoEncoder E} := {
  configured : E → view;
  init_refuses cs st e : bad_settings cs = true →
    InitEncode cs st e = (WEBRTC_VIDEO_CODEC_ERR_PARAMETER, e, []);
  init_answers cs st e : bad_settings (Some cs) = false → (configured e).1 = None →
    let e' := exec (InitEncode (Some cs) st) e in
    omap image (events (InitEncode (Some cs) st) e) = [] ∧
    (result (InitEncode (Some cs) st) e = WEBRTC_VIDEO_CODEC_OK ∧
       configured e' = (Some (codec_width cs, codec_height cs), (configured e).2) ∨
     result (InitEncode (Some cs) st) e ≠ WEBRTC_VIDEO_CODEC_OK ∧ (configured e').1 = None);
  encode_refuses a f ft e : (configured e).1 = None ∨ (configured e).2 = None →
    Encode a f ft e = (WEBRTC_VIDEO_CODEC_UNINITIALIZED, e, []);
  encode_answers a f ft e s cb : configured e = (Some s, Some cb) →
    0 < frame_width f → 0 < frame_height f →
    let e' := exec (Encode a f ft) e in
    let images := omap image (events (Encode a f ft) e) in
    Forall (image_of f) images ∧
    (result (Encode a f ft) e = WEBRTC_VIDEO_CODEC_OK → Forall (λ i, a cb i = true) images) ∧
    (configured e' = (Some (frame_width f, frame_height f), Some cb) ∨
     result (Encode a f ft) e = WEBRTC_VIDEO_CODEC_ERROR ∧ images = [] ∧ (configured e').1 = None);
  register_answers c e : ∃ r e', RegisterEncodeCompleteCallback c e = (r, e', []) ∧
    configured e' = ((configured e).1, c);
  release_answers e :
    result Release e = WEBRTC_VIDEO_CODEC_OK ∧ omap image (events Release e) = [] ∧
    configured (exec Release e) = (None, None);
  rates_answers p e :
    configured (exec (SetRates p) e) = configured e ∧ omap image (events (SetRates p) e) = [];
}.
End types.

(** ** Handles

    A trace uses the codec library well when a handle is opened before it is
    used, fed increasing timestamps, and closed once, and one is open at a
    time. *)
Section handles.
Context {W : WebrtcLib}.

(** The open handle and the least timestamp it may be fed. *)
Definition library : Type := option (nat * Z).
Definition library_step (l : library) (e : event) : option library :=
  match e, l with
  | Opened h _ _, None => Some (Some (h, 0))
  | Fed h pts _, Some (h', next) => if bool_decide (h = h') && (next <=? pts) then Some (Some (h, pts + 1)) else None
  | Tuned h _ _, Some (h', _) => if bool_decide (h = h') then Some l else None
  | Closed h, Some (h', _) => if bool_decide (h = h') then Some None else None
  | OnEncodedImage _, _ => Some l
  | Layer _ _, _ => Some l
  | _, _ => None
  end.
Fixpoint library_run (l : library) (es : list event) : option library :=
  match es with
  | [] => Some l
  | e :: es' => match library_step l e with Some l' => library_run l' es' | None => None end
  end.

Lemma library_app l es1 es2 :
  library_run l (es1 ++ es2) = library_run l es1 ≫= λ l', library_run l' es2.
Proof.
  revert l. induction es1 as [|e es1 IH]; intros l; [done|]. simpl. destruct (library_step l e); [apply IH|done].
Qed.
Lemma library_cut l l1 es1 es2 : library_run l es1 = Some l1 → library_run l (es1 ++ es2) = library_run l1 es2.
Proof. intros H. by rewrite library_app, H. Qed.
End handles.

(** The inputs of an encoder, as libwebrtc calls it. *)
Section calls.
Context {W : WebrtcLib} {E : Type} {V : VideoEncoder E}.
Variable a : answers.

Inductive call :=
| CallInit (codec_settings : option VideoCodec) (settings : Settings)
| CallEncode (frame : VideoFrame) (frame_types : option (list VideoFrameType))
| CallRegister (callback : option nat)
| CallRelease
| CallRates (parameters : RateControlParameters).
Definition handle_call (c : call) : eff E event unit :=
  match c with
  | CallInit cs st => InitEncode cs st;; mret tt
  | CallEncode f ft => Encode a f ft;; mret tt
  | CallRegister cb => RegisterEncodeCompleteCallback cb;; mret tt
  | CallRelease => Release;; mret tt
  | CallRates p => SetRates p
  end.
End calls.

(** A libwebrtc to evaluate with: an allocation is a list of rates. *)
Definition sample_webrtc : WebrtcLib := {|
  VideoBitrateAllocation := list (nat * nat * Z);
  no_bitrates := [];
  SetBitrate si tl b l := (si, tl, b) :: l;
  GetBitrate l si tl := foldr Z.add 0 ((λ x, x.2) <$> filter (λ x, x.1 = (si, tl)) l);
  get_sum_bps l := foldr Z.add 0 ((λ x, x.2) <$> l);
  kMaxTemporalStreams := 4;
  kMaxSimulcastStreams := 3;
  I420Buffer := unit;
  I420Scale _ _ _ := tt;
|}.
#[export] Instance sample_webrtc_laws : WebrtcLaws sample_webrtc.
Proof.
  split.
  - intros si tl b _ _. simpl. rewrite filter_cons_True by done. simpl. lia.
  - intros si tl b _. simpl. lia.
Qed.
