(* ===== verification/H264Encoder.v ===== *)
(** * The H.264 encoder (capture/encoder/h264_encoder.{h,cc}, with x264)

    [X264] is the library: [x264_encoder_open] may fail, a picture may be
    encoded to nothing, and the parameters the code does not set are
    [x264_rest].  The encoder numbers the handles it opens. *)

From Stdlib Require Import ZArith Lia Ascii String SpecFloat.
From stdpp Require Import base tactics numbers option list.
From S2P Require Import Prelude Numbers VideoEncoder.
Open Scope Z_scope.

Inductive x264_type := X264_TYPE_AUTO | X264_TYPE_IDR.

Section params.
Variable rest : Type.
(** [x264_param_t]: what the encoder sets, and the rest of it. *)
Record x264_param_t := mkParam {
  i_width : Z;
  i_height : Z;
  i_fps_num : Z;
  i_fps_den : Z;
  b_vfr_input : bool;
  i_timebase_num : Z;
  i_timebase_den : Z;
  i_keyint_max : Z;
  i_keyint_min : Z;
  b_intra_refresh : bool;
  i_bframe : Z;
  i_sync_lookahead : Z;
  rc_i_lookahead : Z;
  rc_abr : bool;
  rc_i_bitrate : Z;
  rc_i_vbv_max_bitrate : Z;
  rc_i_vbv_buffer_size : Z;
  b_repeat_headers : bool;
  b_annexb : bool;
  i_threads : Z;
  i_lookahead_threads : Z;
  b_sliced_threads : bool;
  i_level_idc : Z;
  others : rest;
}.
End params.
Arguments mkParam {_}.
Arguments others {_}.

Class X264 {W : WebrtcLib} := {
  x264_rest : Type;
  x264_t : Type;
  x264_param_default_preset : string → string → option (x264_param_t x264_rest);
  x264_param_apply_profile : x264_param_t x264_rest → string → bool * x264_param_t x264_rest;
  x264_encoder_open : x264_param_t x264_rest → option x264_t;
  x264_encoder_parameters : x264_t → x264_param_t x264_rest;
  x264_encoder_reconfig : x264_t → x264_param_t x264_rest → bool * x264_t;
  (** the size, the number of NAL units, the memory their payloads start at,
      whether it is a key frame; a negative size is a failure *)
  x264_encoder_encode : x264_t → I420Buffer → x264_type → Z → (Z * nat * list Z * bool) * x264_t;
}.

(** ** The profile and level of the SDP *)

Open Scope string_scope.
Definition is_space (c : ascii) : bool :=
  let n := N_of_ascii c in (N.eqb n 32 || (N.leb 9 n && N.leb n 13))%bool.
Definition hex_digit (c : ascii) : option Z :=
  let n := Z.of_N (N_of_ascii c) in
  if (48 <=? n)%Z && (n <=? 57)%Z then Some (n - 48)%Z
  else if (97 <=? n)%Z && (n <=? 102)%Z then Some (n - 87)%Z
  else if (65 <=? n)%Z && (n <=? 70)%Z then Some (n - 55)%Z
  else None.
Fixpoint hex_value (acc : Z) (s : string) : Z :=
  match s with
  | EmptyString => acc
  | String c s' => match hex_digit c with Some d => hex_value (16 * acc + d)%Z s' | None => acc end
  end.
(** A [0x] is a prefix when a hexadecimal digit follows. *)
Definition skip_0x (s : string) : string :=
  match s with
  | String "0" (String x (String d s')) =>
      if ((x =? "x") || (x =? "X"))%char && bool_decide (is_Some (hex_digit d)) then String d s' else s
  | _ => s
  end.
Fixpoint skip_space (s : string) : string :=
  match s with String c s' => if is_space c then skip_space s' else s | EmptyString => s end.
(** [std::strtol(s, &end, 16)] of a short string: the value. *)
Definition strtol16 (s : string) : Z :=
  match skip_space s with
  | String "-" s' => - hex_value 0 (skip_0x s')
  | String "+" s' => hex_value 0 (skip_0x s')
  | s' => hex_value 0 (skip_0x s')
  end.

(** The test of [end] compares a pointer into a temporary string with one into
    [s]; they differ. *)
Definition ParseProfileLevelId (s : string) : option (string * Z) :=
  if negb (String.length s =? 6)%nat then None
  else
    let prefix := substring 0 4 s in
    let level := strtol16 (substring 4 2 s) in
    if prefix =? "42e0" then Some ("baseline", level)
    else if (prefix =? "4d40") || (prefix =? "4d00") then Some ("main", level)
    else if (prefix =? "640c") || (prefix =? "6400") then Some ("high", level)
    else None.
Close Scope string_scope.

Definition kMaxEncoderThreads : Z := 16.
Definition int_max : Z := 2 ^ 31 - 1.

Record H264EncoderConfig := mkConfig {
  target_bitrate_bps : Z;
  framerate : Z;
  intra_refresh_period_frames : Z;
  profile_level_id : string;
  preset : string;
  tune : string;
  num_threads : Z;
  low_latency_tag : bool;
}.
#[export] Instance eta_config : Eta H264EncoderConfig := λ s,
  mkConfig (target_bitrate_bps s) (framerate s) (intra_refresh_period_frames s) (profile_level_id s)
    (preset s) (tune s) (num_threads s) (low_latency_tag s).
Definition default_config : H264EncoderConfig :=
  mkConfig 4000000 30 60 "42e01f" "ultrafast" "zerolatency" 0 true.

Section encoder.
Context {U : Unspecified} {W : WebrtcLib} {X : X264}.
Abbreviation param := (x264_param_t x264_rest).

Record H264Encoder := mkEncoder {
  config_ : H264EncoderConfig;
  callback_ : option nat;
  initialized_ : bool;
  encoder_ : option (nat * x264_t);
  frames_in_ : Z;
  width_ : Z;
  height_ : Z;
  next_handle : nat;
}.
#[export] Instance eta_encoder : Eta H264Encoder := λ s,
  mkEncoder (config_ s) (callback_ s) (initialized_ s) (encoder_ s) (frames_in_ s) (width_ s) (height_ s)
    (next_handle s).
Definition new_H264Encoder (c : H264EncoderConfig) : H264Encoder := mkEncoder c None false None 0 0 0 0.

(** [i_bitrate], from the target in bits per second. *)
Definition kbps (bps : Z) : Z := Z.max 1 (Z.quot bps 1000).

Definition thread_count (config : H264EncoderConfig) (settings : Settings) : Z :=
  let n_threads := if 0 <? num_threads config then num_threads config else number_of_cores settings in
  let n_threads := match encoder_thread_limit settings with
                   | Some limit => Z.min n_threads limit | None => n_threads end in
  Z.max 1 (Z.min n_threads kMaxEncoderThreads).

(** The parameters, from the preset's. *)
Definition encoder_params (config : H264EncoderConfig) (settings : Settings) (w h : Z) (p : param) : param :=
  let rate := kbps (target_bitrate_bps config) in
  mkParam w h (Z.max 1 (framerate config)) 1 false 1 90000 int_max int_max true 0 0 0 true
    rate rate (Z.max 1 rate) true true (thread_count config settings) 1 true (i_level_idc _ p) (others p).

Definition with_level (level : Z) (p : param) : param :=
  mkParam (i_width _ p) (i_height _ p) (i_fps_num _ p) (i_fps_den _ p) (b_vfr_input _ p) (i_timebase_num _ p)
    (i_timebase_den _ p) (i_keyint_max _ p) (i_keyint_min _ p) (b_intra_refresh _ p) (i_bframe _ p)
    (i_sync_lookahead _ p) (rc_i_lookahead _ p) (rc_abr _ p) (rc_i_bitrate _ p) (rc_i_vbv_max_bitrate _ p)
    (rc_i_vbv_buffer_size _ p) (b_repeat_headers _ p) (b_annexb _ p) (i_threads _ p) (i_lookahead_threads _ p)
    (b_sliced_threads _ p) level (others p).
Definition apply_profile (config : H264EncoderConfig) (p : param) : param :=
  match ParseProfileLevelId (profile_level_id config) with
  | Some (profile, level) => with_level level (x264_param_apply_profile p profile).2
  | None => p
  end.

Definition H264_InitEncode (codec_settings : option VideoCodec) (settings : Settings) : eff H264Encoder event code :=
  match codec_settings with
  | None => mret WEBRTC_VIDEO_CODEC_ERR_PARAMETER
  | Some cs =>
      if (codec_width cs =? 0) || (codec_height cs =? 0) then mret WEBRTC_VIDEO_CODEC_ERR_PARAMETER
      else
        emod (λ s, s <| width_ := codec_width cs |> <| height_ := codec_height cs |>);;
        s ← eget;
        match x264_param_default_preset (preset (config_ s)) (tune (config_ s)) with
        | None => mret WEBRTC_VIDEO_CODEC_ERROR
        | Some p =>
            let params := apply_profile (config_ s) (encoder_params (config_ s) settings (width_ s) (height_ s) p) in
            match x264_encoder_open params with
            | None => emod (λ s, s <| encoder_ := None |>);; mret WEBRTC_VIDEO_CODEC_ERROR
            | Some x =>
                emit (Opened (next_handle s) (width_ s) (height_ s));;
                emod (λ s, s <| encoder_ := Some (next_handle s, x) |> <| next_handle := S (next_handle s) |>
                             <| initialized_ := true |> <| frames_in_ := 0 |>);;
                mret WEBRTC_VIDEO_CODEC_OK
            end
        end
  end.

Definition H264_Release : eff H264Encoder event code :=
  s ← eget;
  match encoder_ s with
  | Some (h, _) => emit (Closed h);; emod (λ s, s <| encoder_ := None |>)
  | None => mret tt
  end;;
  emod (λ s, s <| initialized_ := false |> <| callback_ := None |>);;
  mret WEBRTC_VIDEO_CODEC_OK.

Definition csi_h264 : CodecSpecificInfo := mkInfo kVideoCodecH264 true None.
Definition encoded_image (s : H264Encoder) (frame : VideoFrame) (bytes : list Z) (key : bool) : EncodedImage :=
  mkImage bytes (if key then kVideoFrameKey else kVideoFrameDelta) (width_ s) (height_ s)
    (rtp_timestamp frame) (render_time_ms frame) (rotation frame) None None csi_h264.

(** The frame changed its size: the encoder starts again, and keeps its
    callback.  Whether it did. *)
Definition H264_resize (frame : VideoFrame) : eff H264Encoder event bool :=
  s ← eget;
  if negb (frame_width frame =? width_ s) || negb (frame_height frame =? height_ s) then
    let saved_callback := callback_ s in
    H264_Release;;
    r ← H264_InitEncode (Some (codec_of (frame_width frame) (frame_height frame))) one_core;
    if bool_decide (r = WEBRTC_VIDEO_CODEC_OK)
    then emod (λ s, s <| callback_ := saved_callback |>);; mret true
    else mret false
  else mret true.

(** The picture is encoded and its bytes go to the callback. *)
Definition H264_encode_picture (answer : answers) (frame : VideoFrame)
    (frame_types : option (list VideoFrameType)) : eff H264Encoder event code :=
  match ToI420 frame with
  | None => mret WEBRTC_VIDEO_CODEC_ERROR
  | Some i420 =>
      s ← eget;
      match encoder_ s, callback_ s with
      | Some (h, x), Some cb =>
          let pts := frames_in_ s in
          let '((frame_size, num_nals, payload, key), x') :=
            x264_encoder_encode x i420 (if wants_key frame_types then X264_TYPE_IDR else X264_TYPE_AUTO) pts in
          emod (λ s, s <| frames_in_ := frames_in_ s + 1 |> <| encoder_ := Some (h, x') |>);;
          emit (Fed h pts (wants_key frame_types));;
          if frame_size <? 0 then mret WEBRTC_VIDEO_CODEC_ERROR
          else if (frame_size =? 0) || (num_nals =? 0)%nat then mret WEBRTC_VIDEO_CODEC_OK
          else
            let i := encoded_image s frame (firstn (Z.to_nat frame_size) payload) key in
            emit (OnEncodedImage i);;
            mret (if answer cb i then WEBRTC_VIDEO_CODEC_OK else WEBRTC_VIDEO_CODEC_ERROR)
      | _, _ => mret WEBRTC_VIDEO_CODEC_ERROR   (* excluded by the caller's test *)
      end
  end.

Definition H264_Encode (answer : answers) (frame : VideoFrame) (frame_types : option (list VideoFrameType))
    : eff H264Encoder event code :=
  s ← eget;
  if negb (initialized_ s) || negb (bool_decide (is_Some (encoder_ s)))
     || negb (bool_decide (is_Some (callback_ s)))
  then mret WEBRTC_VIDEO_CODEC_UNINITIALIZED
  else
    ok ← H264_resize frame;
    if negb ok then mret WEBRTC_VIDEO_CODEC_ERROR
    else H264_encode_picture answer frame frame_types.

Definition H264_RegisterEncodeCompleteCallback (callback : option nat) : eff H264Encoder event code :=
  emod (λ s, s <| callback_ := callback |>);; mret WEBRTC_VIDEO_CODEC_OK.

Definition reconfigured (config : H264EncoderConfig) (p : param) : param :=
  let rate := kbps (target_bitrate_bps config) in
  mkParam (i_width _ p) (i_height _ p) (framerate config) 1 (b_vfr_input _ p) (i_timebase_num _ p)
    (i_timebase_den _ p) (i_keyint_max _ p) (i_keyint_min _ p) (b_intra_refresh _ p) (i_bframe _ p)
    (i_sync_lookahead _ p) (rc_i_lookahead _ p) (rc_abr _ p) rate rate (Z.max 1 rate) (b_repeat_headers _ p)
    (b_annexb _ p) (i_threads _ p) (i_lookahead_threads _ p) (b_sliced_threads _ p) (i_level_idc _ p) (others p).

(** [config_] after an update of the rates. *)
Definition retuned (config : H264EncoderConfig) (parameters : RateControlParameters) : H264EncoderConfig :=
  config <| target_bitrate_bps := wrap32 (get_sum_bps (bitrate parameters)) |>
         <| framerate := Z.max 1 (cast_int (framerate_fps parameters)) |>.
Definition H264_SetRates (parameters : RateControlParameters) : eff H264Encoder event unit :=
  s ← eget;
  match encoder_ s with
  | None => mret tt
  | Some (h, x) =>
      let config := retuned (config_ s) parameters in
      let x' := (x264_encoder_reconfig x (reconfigured config (x264_encoder_parameters x))).2 in
      emit (Tuned h (kbps (target_bitrate_bps config)) (framerate config));;
      emod (λ s, s <| config_ := config |> <| encoder_ := Some (h, x') |>)
  end.

#[export] Instance H264 : VideoEncoder H264Encoder := {|
  InitEncode := H264_InitEncode;
  Encode := H264_Encode;
  RegisterEncodeCompleteCallback := H264_RegisterEncodeCompleteCallback;
  Release := H264_Release;
  SetRates := H264_SetRates;
|}.

(** ** The contract *)

Definition H264_configured (s : H264Encoder) : view :=
  (if initialized_ s && bool_decide (is_Some (encoder_ s)) then Some (width_ s, height_ s) else None, callback_ s).

(** The fields that matter after [InitEncode]. *)
Lemma init_run cs st e : bad_settings (Some cs) = false → ∃ r e' es,
  H264_InitEncode (Some cs) st e = (r, e', es) ∧ callback_ e' = callback_ e ∧ config_ e' = config_ e ∧
  width_ e' = codec_width cs ∧ height_ e' = codec_height cs ∧
  ((∃ p x, r = WEBRTC_VIDEO_CODEC_OK ∧ es = [Opened (next_handle e) (codec_width cs) (codec_height cs)] ∧
     x264_encoder_open (apply_profile (config_ e)
       (encoder_params (config_ e) st (codec_width cs) (codec_height cs) p)) = Some x ∧
     initialized_ e' = true ∧ encoder_ e' = Some (next_handle e, x) ∧ frames_in_ e' = 0 ∧
     next_handle e' = S (next_handle e)) ∨
   (r = WEBRTC_VIDEO_CODEC_ERROR ∧ es = [] ∧ initialized_ e' = initialized_ e ∧ frames_in_ e' = frames_in_ e ∧
     next_handle e' = next_handle e ∧ (encoder_ e' = encoder_ e ∨ encoder_ e' = None))).
Proof.
  intros Hb. unfold H264_InitEncode. simpl in Hb. rewrite Hb. run_eff.
  destruct (x264_param_default_preset _ _) as [p|].
  - destruct (x264_encoder_open _) as [x|] eqn:Ho; simpl; do 3 eexists; (split; [reflexivity|]); simpl;
      (split_and!; [done..|]).
    + left. eexists _, x. split_and!; try done.
    + right. split_and!; try done. by right.
  - do 3 eexists; split; [reflexivity|]. split_and!; [done..|]. right. split_and!; try done. by left.
Qed.

Lemma release_run e : ∃ e', H264_Release e =
    (WEBRTC_VIDEO_CODEC_OK, e', match encoder_ e with Some (h, _) => [Closed h] | None => [] end) ∧
  initialized_ e' = false ∧ callback_ e' = None ∧ encoder_ e' = None ∧ config_ e' = config_ e ∧
  next_handle e' = next_handle e.
Proof.
  unfold H264_Release. run_eff. destruct e as [c cb i [[h x]|] f w he n]; simpl;
    (eexists; split; [reflexivity|]); by split_and!.
Qed.

(** The encoder is open for frames of one size. *)
Definition ready (e : H264Encoder) (w h : Z) (n : nat) (cb : option nat) : Prop :=
  initialized_ e = true ∧ width_ e = w ∧ height_ e = h ∧ callback_ e = cb ∧ ∃ x, encoder_ e = Some (n, x).

Lemma resize_run frame e w h n cb : ready e w h n cb → 0 < frame_width frame → 0 < frame_height frame →
  ∃ b e' es, H264_resize frame e = (b, e', es) ∧ omap image es = [] ∧ config_ e' = config_ e ∧
  (if b then ∃ n', ready e' (frame_width frame) (frame_height frame) n' cb ∧
    ((w, h) = (frame_width frame, frame_height frame) ∧ e' = e ∧ es = [] ∧ n' = n ∨
     es = [Closed n; Opened n' (frame_width frame) (frame_height frame)] ∧ frames_in_ e' = 0 ∧
       n' = next_handle e ∧ next_handle e' = S (next_handle e) ∧
       ∃ p x, encoder_ e' = Some (n', x) ∧ x264_encoder_open (apply_profile (config_ e)
         (encoder_params (config_ e) one_core (frame_width frame) (frame_height frame) p)) = Some x)
   else es = [Closed n] ∧ initialized_ e' = false ∧ encoder_ e' = None ∧ next_handle e' = next_handle e).
Proof.
  intros (Hi & Hw & Hh & Hcb & x & Hx) Hfw Hfh. unfold H264_resize. rewrite get_run.
  destruct (negb (frame_width frame =? width_ e) || negb (frame_height frame =? height_ e)) eqn:Hd.
  - destruct (release_run e) as (e1 & He1 & R1 & R2 & R3 & R4 & R5). rewrite Hx in He1.
    assert (bad_settings (Some (codec_of (frame_width frame) (frame_height frame))) = false) as Hb.
    { simpl. destruct (Z.eqb_spec (frame_width frame) 0), (Z.eqb_spec (frame_height frame) 0); lia || done. }
    destruct (init_run _ one_core e1 Hb) as (r & e2 & es & He2 & I1 & I2 & I3 & I4 & Hcase).
    unfold mbind, eff_bind. rewrite He1, He2. simpl in I3, I4.
    destruct Hcase as [(p & x' & -> & -> & H1 & H2 & H3 & H4 & H5)|(-> & -> & H1 & H2 & H3 & H4)].
    + rewrite bool_decide_true by done. unfold emod, mret, eff_ret. do 3 eexists; split; [reflexivity|]. simpl.
      split_and!; [done|congruence|]. exists (next_handle e1). split.
      { split_and!; try done. by exists x'. }
      right. rewrite R5. split_and!; try done; [simpl; congruence|]. exists p, x'. rewrite <-R5, <-R4. by split.
    + rewrite bool_decide_false by done. unfold mret, eff_ret. do 3 eexists; split; [reflexivity|].
      split_and!; try done; try congruence. destruct H4 as [-> | ->]; done.
  - apply orb_false_iff in Hd as [H1%negb_false_iff%Z.eqb_eq H2%negb_false_iff%Z.eqb_eq].
    unfold mret, eff_ret. do 3 eexists; split; [reflexivity|]. split_and!; try done. exists n.
    rewrite H1, H2, Hw, Hh. split; [by split_and!; [..|exists x]|]. left. by split_and!.
Qed.

(** A picture is fed, and its image goes to the callback. *)
Lemma encode_picture_run a frame ft e w h n cb : ready e w h n (Some cb) → ∃ r e' es,
  H264_encode_picture a frame ft e = (r, e', es) ∧ ready e' w h n (Some cb) ∧
  next_handle e' = next_handle e ∧ config_ e' = config_ e ∧
  ((es = [] ∧ frames_in_ e' = frames_in_ e) ∨
   (frames_in_ e' = frames_in_ e + 1 ∧
    (es = [Fed n (frames_in_ e) (wants_key ft)] ∨ ∃ i, es = [Fed n (frames_in_ e) (wants_key ft); OnEncodedImage i] ∧
      ((w, h) = (frame_width frame, frame_height frame) → image_of frame i) ∧
      (r = WEBRTC_VIDEO_CODEC_OK → a cb i = true)))).
Proof.
  intros (Hi & Hw & Hh & Hcb & x & Hx). unfold H264_encode_picture.
  destruct (ToI420 frame) as [i420|].
  2:{ do 3 eexists; split; [reflexivity|]. split_and!; try done; [by split_and!; [..|exists x]|]. by left. }
  rewrite get_run, Hx, Hcb.
  destruct (x264_encoder_encode x i420 _ _) as [[[[size nals] payload] key] x'].
  unfold mbind, eff_bind, emod, emit.
  destruct (size <? 0); [|destruct ((size =? 0) || (nals =? 0)%nat)];
    unfold mret, eff_ret; (do 3 eexists; split; [reflexivity|]); simpl; (split_and!; [|done..|]);
    try (split_and!; [done..|by exists x']); right; split; try done; [by left|by left|].
  right. eexists; split; [reflexivity|]. split.
  - intros [= -> ->]. unfold image_of, encoded_image. simpl. by rewrite Hw, Hh.
  - by destruct (a cb _).
Qed.

Lemma configured_ready e s cb : H264_configured e = (Some s, Some cb) → ∃ n, ready e s.1 s.2 n (Some cb).
Proof.
  unfold H264_configured. destruct (initialized_ e) eqn:Hi; [|done]. destruct (encoder_ e) as [[n x]|] eqn:Hx; [|done].
  rewrite bool_decide_true by done. cbn [andb]. intros [= <- Hc]. exists n. split_and!; try done. by exists x.
Qed.
Lemma ready_configured e w h n cb : ready e w h n cb → H264_configured e = (Some (w, h), cb).
Proof. intros (Hi & <- & <- & <- & x & Hx). unfold H264_configured. by rewrite Hi, Hx. Qed.

(** A frame goes through the encoder. *)
Lemma encode_run a frame ft e w h n cb : ready e w h n (Some cb) → 0 < frame_width frame → 0 < frame_height frame →
  ∃ b e1 es1, H264_resize frame e = (b, e1, es1) ∧
  H264_Encode a frame ft e =
    (if b then (result (H264_encode_picture a frame ft) e1, exec (H264_encode_picture a frame ft) e1,
                (es1 ++ events (H264_encode_picture a frame ft) e1)%list)
     else (WEBRTC_VIDEO_CODEC_ERROR, e1, es1)).
Proof.
  intros Hr Hw Hh. destruct (resize_run frame e w h n _ Hr Hw Hh) as (b & e1 & es1 & H1 & _).
  exists b, e1, es1. split; [done|]. destruct Hr as (Hi & _ & _ & Hcb & x & Hx). unfold H264_Encode.
  rewrite get_run, Hi, Hx, Hcb. simpl. unfold mbind, eff_bind. rewrite H1. destruct b; simpl.
  - unfold result, exec, events. by destruct (H264_encode_picture a frame ft e1) as [[? ?] ?].
  - unfold mret, eff_ret. by rewrite app_nil_r.
Qed.

(** The H.264 encoder implements the contract. *)
#[export] Instance H264_laws : EncoderLaws H264Encoder.
Proof.
  refine {| configured := H264_configured |}.
  - intros cs st e Hb. cbn [InitEncode H264]. unfold H264_InitEncode. destruct cs as [cs|]; [|done]. simpl in Hb. by rewrite Hb.
  - intros cs st e Hb Hn. cbn [InitEncode H264]. destruct (init_run cs st e Hb) as (r & e' & es & H1 & H2 & _ & H3 & H4 & Hc).
    unfold exec, events, result. rewrite H1. simpl. unfold H264_configured in *.
    destruct Hc as [(p & x & -> & -> & _ & K1 & K2 & _)|(-> & -> & K1 & _ & _ & K2)].
    + split; [done|]. left. split; [done|]. by rewrite K1, K2, H2, H3, H4.
    + split; [done|]. right. split; [done|]. simpl in *. rewrite K1. destruct (initialized_ e); [|done].
      destruct K2 as [-> | ->]; [|done]. by destruct (encoder_ e).
  - intros a f ft e Hn. cbn [Encode H264]. unfold H264_Encode. rewrite get_run. unfold H264_configured in Hn. simpl in Hn.
    destruct (initialized_ e), (encoder_ e), (callback_ e); try done; naive_solver.
  - intros a f ft e s cb Hc Hw Hh. cbv zeta. cbn [Encode H264]. destruct (configured_ready _ _ _ Hc) as (n & Hr).
    destruct (encode_run a f ft e _ _ _ _ Hr Hw Hh) as (b & e1 & es1 & H1 & H2).
    destruct (resize_run f e _ _ _ _ Hr Hw Hh) as (b' & e1' & es1' & H1' & Hi & _ & Hb). rewrite H1 in H1'.
    injection H1' as <- <- <-. unfold exec, events, result. rewrite H2. destruct b; simpl.
    + destruct Hb as (n' & Hr' & _).
      destruct (encode_picture_run a f ft e1 _ _ _ _ Hr') as (r & e' & es & K1 & K2 & _ & _ & K3).
      unfold exec, events, result. rewrite K1. simpl. rewrite omap_app, Hi. split_and!.
      * destruct K3 as [[-> _]|(_ & [-> |(i & -> & Him & _)])]; constructor; [by apply Him|constructor].
      * intros ->. destruct K3 as [[-> _]|(_ & [-> |(i & -> & _ & Ha)])]; constructor; [by apply Ha|constructor].
      * left. by rewrite (ready_configured _ _ _ _ _ K2).
    + rewrite Hi. split_and!; [constructor|done|]. right. destruct Hb as (_ & K1 & K2 & _).
      unfold H264_configured. by rewrite K1.
  - intros c e. do 2 eexists; split; [reflexivity|]. done.
  - intros e. destruct (release_run e) as (e' & H1 & H2 & H3 & H4 & _). unfold exec, events, result. cbn [Release H264]. rewrite H1.
    simpl. unfold H264_configured. rewrite H2, H3. split_and!; try done. by destruct (encoder_ e) as [[? ?]|].
  - intros p e. cbn [SetRates H264]. unfold H264_SetRates, exec, events. rewrite get_run. unfold H264_configured.
    destruct (encoder_ e) as [[h x]|] eqn:He; [|unfold mret, eff_ret; simpl; by rewrite He].
    by simpl.
Defined.

(** ** Handles and timestamps *)

(** The open handle and its next timestamp. *)
Definition in_hand (e : H264Encoder) : library :=
  match encoder_ e with Some (h, _) => Some (h, frames_in_ e) | None => None end.
(** libwebrtc releases an encoder before it initialises it again. *)
Definition H264_allowed (c : call) (e : H264Encoder) : bool :=
  match c with
  | CallInit _ _ => bool_decide (encoder_ e = None)
  | CallEncode f _ => (0 <? frame_width f) && (0 <? frame_height f)
  | _ => true
  end.

(** A call that [allowed] lets through keeps the library in step. *)
Lemma allowed_step a c e : H264_allowed c e = true → (encoder_ e = None ∨ initialized_ e = true) →
  library_run (in_hand e) (events (handle_call a c) e) = Some (in_hand (exec (handle_call a c) e)) ∧
  (encoder_ (exec (handle_call a c) e) = None ∨ initialized_ (exec (handle_call a c) e) = true).
Proof.
  intros Hc Hi. assert (∀ {A} (m : eff H264Encoder event A),
    events (m;; mret tt) e = events m e ∧ exec (m;; mret tt) e = exec m e) as Hret.
  { intros A m. unfold events, exec, mbind, eff_bind. destruct (m e) as [[r e'] es]. unfold mret, eff_ret. simpl.
    by rewrite app_nil_r. }
  destruct c as [cs st|f ft|cb| |p]; cbn [handle_call InitEncode Encode RegisterEncodeCompleteCallback Release SetRates H264];
    rewrite ?(proj1 (Hret _ _)), ?(proj2 (Hret _ _)).
  - simpl in Hc. apply bool_decide_eq_true in Hc. unfold in_hand at 1. rewrite Hc.
    destruct (bad_settings cs) eqn:Hb.
    { assert (H264_InitEncode cs st e = (WEBRTC_VIDEO_CODEC_ERR_PARAMETER, e, [])) as H
        by (pose proof (init_refuses cs st e Hb) as H; exact H).
      unfold events, exec, in_hand. rewrite H. simpl. rewrite Hc. split; [done|by left]. }
    destruct cs as [cs|]; [|done]. destruct (init_run cs st e Hb) as (r & e' & es & H1 & _ & _ & _ & _ & Hcase).
    unfold events, exec, in_hand. rewrite H1. simpl.
    destruct Hcase as [(p & x & _ & -> & _ & K1 & K2 & K3 & _)|(_ & -> & K1 & _ & _ & K2)].
    + rewrite K2, K3. split; [done|by right].
    + assert (encoder_ e' = None) as -> by (destruct K2 as [-> | ->]; done). split; [done|by left].
  - simpl in Hc. apply andb_true_iff in Hc as [Hw%Z.ltb_lt Hh%Z.ltb_lt].
    destruct (decide ((H264_configured e).1 = None ∨ (H264_configured e).2 = None)) as [Hn|Hn].
    { assert (H264_Encode a f ft e = (WEBRTC_VIDEO_CODEC_UNINITIALIZED, e, [])) as H
        by (pose proof (encode_refuses a f ft e Hn) as H; exact H).
      unfold events, exec. rewrite H. by split. }
    destruct (H264_configured e) as [[sz|] [cb|]] eqn:He; try (exfalso; apply Hn; simpl; tauto).
    destruct (configured_ready _ _ _ He) as (n & Hr).
    destruct (encode_run a f ft e _ _ _ _ Hr Hw Hh) as (b & e1 & es1 & H1 & H2).
    destruct (resize_run f e _ _ _ _ Hr Hw Hh) as (b' & e1' & es1' & H1' & _ & _ & Hb). rewrite H1 in H1'.
    injection H1' as <- <- <-. unfold events, exec. rewrite H2.
    assert (in_hand e = Some (n, frames_in_ e)) as -> by (destruct Hr as (_ & _ & _ & _ & x & Hx); unfold in_hand; by rewrite Hx).
    destruct b; simpl.
    + destruct Hb as (n' & Hr' & Hes). destruct (encode_picture_run a f ft e1 _ _ _ _ Hr') as (r & e' & es & K1 & K2 & _ & _ & K3).
      unfold events, exec. rewrite K1. simpl. split; [|right; by destruct K2].
      rewrite library_app. assert (library_run (Some (n, frames_in_ e)) es1 = Some (Some (n', frames_in_ e1))) as ->.
      { destruct Hes as [(_ & -> & -> & ->)|(-> & K4 & _)]; [done|]. simpl. rewrite bool_decide_true by done. simpl. by rewrite K4. }
      destruct K2 as (_ & _ & _ & _ & x & Hx). unfold in_hand. rewrite Hx. simpl.
      destruct K3 as [[-> ->]|(-> & [-> |(i & -> & _)])]; simpl; [done|..];
        rewrite bool_decide_true, Z.leb_refl by done; done.
    + destruct Hb as (-> & K1 & K2 & _). simpl. rewrite bool_decide_true by done. unfold in_hand. rewrite K2.
      split; [done|by left].
  - by split.
  - destruct (release_run e) as (e' & H1 & _ & _ & H2 & _). unfold events, exec. rewrite H1. simpl.
    unfold in_hand. rewrite H2. split; [|by left]. destruct (encoder_ e) as [[h x]|]; [|done]. simpl.
    by rewrite bool_decide_true.
  - unfold H264_SetRates. rewrite exec_get, events_get. unfold in_hand. destruct (encoder_ e) as [[h x]|] eqn:Hx.
    + run_eff. rewrite bool_decide_true by done. split; [done|]. right. destruct Hi; [congruence|done].
    + run_eff. rewrite Hx. by split.
Qed.

(** Whatever libwebrtc calls, in its order: handles of x264 are opened, fed
    consecutive timestamps and closed one after the other, and after the last
    release none is open. *)
Theorem h264_handles_released config a calls :
  let e0 := new_H264Encoder config in
  all_enabled H264_allowed (handle_call a) calls e0 = true →
  library_run None (events (run (handle_call a) calls) e0) = Some (in_hand (exec (run (handle_call a) calls) e0)) ∧
  library_run None (events (run (handle_call a) (calls ++ [CallRelease])) e0) = Some None.
Proof.
  intros e0 Hok.
  assert (∀ calls e, (encoder_ e = None ∨ initialized_ e = true) →
    all_enabled H264_allowed (handle_call a) calls e = true →
    library_run (in_hand e) (events (run (handle_call a) calls) e) =
      Some (in_hand (exec (run (handle_call a) calls) e))) as H.
  { clear. intros calls. unfold run. induction calls as [|c calls IH]; intros e Hi Hok; [done|].
    simpl in Hok. apply andb_true_iff in Hok as [Hc Hok]. rewrite fmap_cons. cbn [eseq].
    rewrite exec_bind, events_bind, library_app. destruct (allowed_step a c e Hc Hi) as [-> Hi']. simpl. by apply IH. }
  split; [apply (H calls e0); [by left|done]|].
  pose proof (H (calls ++ [CallRelease]) e0 (or_introl eq_refl)) as H'.
  rewrite all_enabled_app, Hok in H'. specialize (H' eq_refl). change (in_hand e0) with (@None (nat * Z)) in H'. rewrite H'.
  destruct (run_app (handle_call a) calls [CallRelease] e0) as [-> _].
  unfold exec at 1. rewrite run_one. cbn [handle_call Release H264].
  destruct (release_run (exec (run (handle_call a) calls) e0)) as (e' & H1 & _ & _ & H2 & _).
  unfold mbind, eff_bind. rewrite H1. unfold mret, eff_ret. simpl. unfold in_hand. by rewrite H2.
Qed.

(** ** Two divergences *)

(** A frame of another size makes the encoder start again for one core: unless
    the configuration names a number of threads, the new handle has one. *)
Theorem h264_resize_single_threaded frame e s cb : H264_configured e = (Some s, Some cb) →
  num_threads (config_ e) ≤ 0 → 0 < frame_width frame → 0 < frame_height frame →
  s ≠ (frame_width frame, frame_height frame) →
  encoder_ (exec (H264_resize frame) e) = None ∨
  ∃ n x p q, encoder_ (exec (H264_resize frame) e) = Some (n, x) ∧
    x264_encoder_open (apply_profile (config_ e) q) = Some x ∧ i_threads _ q = 1 ∧
    q = encoder_params (config_ e) one_core (frame_width frame) (frame_height frame) p.
Proof.
  intros Hc Ht Hw Hh Hs. destruct (configured_ready _ _ _ Hc) as (n & Hr).
  destruct (resize_run frame e _ _ _ _ Hr Hw Hh) as (b & e1 & es1 & H1 & _ & _ & Hb).
  unfold exec. rewrite H1. simpl. destruct b; [|left; apply Hb]. right.
  destruct Hb as (n' & _ & [(Heq & _)|(_ & _ & _ & _ & p & x & K1 & K2)]).
  { destruct s; by simplify_eq/=. }
  eexists n', x, p, _. split_and!; [done|exact K2| |done]. simpl. unfold thread_count.
  destruct (Z.ltb_spec 0 (num_threads (config_ e))); [lia|]. reflexivity.
Qed.
End encoder.

(** The two digits of the level are not checked: a malformed level is level 0. *)
Theorem malformed_level_accepted : ParseProfileLevelId "42e0zz" = Some ("baseline"%string, 0) ∧
  ParseProfileLevelId "42e01f" = Some ("baseline"%string, 31).
Proof. by split. Qed.

(** ** Witnesses *)

Section witnesses.
#[local] Existing Instance sample_webrtc.
#[local] Existing Instance defaults.
(** A library whose pictures are one byte, the first of them a key frame. *)
#[local] Instance sample_x264 : X264 := {|
  x264_rest := unit;
  x264_t := x264_param_t unit;
  x264_param_default_preset _ _ :=
    Some (mkParam 0 0 0 0 true 0 0 0 0 false 3 0 40 false 0 0 0 false true 0 0 false 0 tt);
  x264_param_apply_profile p _ := (true, p);
  x264_encoder_open p := Some p;
  x264_encoder_parameters p := p;
  x264_encoder_reconfig _ p := (true, p);
  x264_encoder_encode x _ t pts := ((1, 1%nat, [pts], bool_decide (pts = 0)), x);
|}.
Definition a_frame (w h : Z) : VideoFrame := mkFrame w h 7 8 0 (Some tt).
Definition resized_calls : list call :=
  [CallInit (Some (codec_of 640 360)) (mkSettings 8 None); CallRegister (Some 0%nat);
   CallEncode (a_frame 640 360) None; CallEncode (a_frame 320 180) (Some [kVideoFrameKey]);
   CallRates (mkRates (SetBitrate 0 0 500000 no_bitrates) (double_of_Z 30) 500000);
   CallEncode (a_frame 320 180) None].
Definition yes : answers := λ _ _, true.

Lemma h264_handles_released_witness :
  library_run None (events (run (handle_call yes) (resized_calls ++ [CallRelease])) (new_H264Encoder default_config)) =
    Some None ∧
  List.length (omap image (events (run (handle_call yes) resized_calls) (new_H264Encoder default_config))) = 3%nat.
Proof.
  split; [|vm_compute; reflexivity].
  refine (proj2 (h264_handles_released default_config yes resized_calls _)). vm_compute. reflexivity.
Defined.

Definition eight_threads : H264Encoder :=
  exec (run (handle_call yes) (take 2 resized_calls)) (new_H264Encoder default_config).
Lemma h264_resize_single_threaded_witness :
  (∃ n x, encoder_ eight_threads = Some (n, x) ∧ i_threads _ x = 8) ∧
  ∃ n x, encoder_ (exec (H264_resize (a_frame 320 180)) eight_threads) = Some (n, x) ∧ i_threads _ x = 1.
Proof.
  split; [do 2 eexists; split; vm_compute; reflexivity|].
  assert (0 < 320 ∧ 0 < 180 ∧ (640, 360) ≠ (320, 180)) as (H1 & H2 & H3) by done.
  assert (H264_configured eight_threads = (Some (640, 360), Some 0%nat)) as Hc by (vm_compute; reflexivity).
  assert (num_threads (config_ eight_threads) ≤ 0) as Ht by (vm_compute; discriminate).
  destruct (h264_resize_single_threaded (a_frame 320 180) eight_threads (640, 360) 0 Hc Ht H1 H2 H3)
    as [Hn|(n & x & p & q & He & Ho & Hq & _)].
  - vm_compute in Hn. discriminate.
  - exists n, x. split; [exact He|]. vm_compute in He. injection He as <- <-. vm_compute. reflexivity.
Defined.
End witnesses.
