(* ===== verification/Vp9Encoder.v ===== *)
(** * The VP9 encoder (capture/encoder/vp9_encoder.{h,cc}, with libvpx)

    [Vpx] is the library: its default configuration, its context, and the
    packets an encoded picture gives.  The buffer of [raw_image_] is borrowed
    from the frame; only its existence is kept. *)

From Stdlib Require Import ZArith Lia SpecFloat.
From stdpp Require Import base tactics numbers option list.
From S2P Require Import Prelude Numbers VideoEncoder.
Open Scope Z_scope.

Inductive kf_mode_t := VPX_KF_DISABLED | VPX_KF_AUTO.

(** [vpx_codec_enc_cfg_t]: the fields the encoder sets, of one pass and
    constant bit rate when [cbr]. *)
Record vpx_codec_enc_cfg_t := mkCfg {
  g_w : Z;
  g_h : Z;
  g_timebase_num : Z;
  g_timebase_den : Z;
  g_lag_in_frames : Z;
  one_pass : bool;
  cbr : bool;
  rc_target_bitrate : Z;
  rc_min_quantizer : Z;
  rc_max_quantizer : Z;
  rc_undershoot_pct : Z;
  rc_overshoot_pct : Z;
  rc_buf_initial_sz : Z;
  rc_buf_optimal_sz : Z;
  rc_buf_sz : Z;
  rc_dropframe_thresh : Z;
  rc_resize_allowed : Z;
  kf_mode : kf_mode_t;
  kf_min_dist : Z;
  kf_max_dist : Z;
  g_threads : Z;
  error_resilient : bool;
}.
#[export] Instance eta_cfg : Eta vpx_codec_enc_cfg_t := λ s,
  mkCfg (g_w s) (g_h s) (g_timebase_num s) (g_timebase_den s) (g_lag_in_frames s) (one_pass s) (cbr s)
    (rc_target_bitrate s) (rc_min_quantizer s) (rc_max_quantizer s) (rc_undershoot_pct s) (rc_overshoot_pct s)
    (rc_buf_initial_sz s) (rc_buf_optimal_sz s) (rc_buf_sz s) (rc_dropframe_thresh s) (rc_resize_allowed s)
    (kf_mode s) (kf_min_dist s) (kf_max_dist s) (g_threads s) (error_resilient s).

Inductive control :=
| VP8E_SET_CPUUSED | VP9E_SET_TUNE_CONTENT_SCREEN | VP9E_SET_AQ_MODE | VP9E_SET_NOISE_SENSITIVITY
| VP9E_SET_FRAME_PARALLEL_DECODING | VP9E_SET_ROW_MT.

(** A packet of the encoder: a frame and whether it is a key frame, or another
    kind. *)
Inductive packet := FramePacket (bytes : list Z) (is_key : bool) | OtherPacket.

Class Vpx {W : WebrtcLib} := {
  vpx_codec_ctx : Type;
  vpx_codec_enc_config_default : option vpx_codec_enc_cfg_t;
  vpx_codec_enc_init : vpx_codec_enc_cfg_t → option vpx_codec_ctx;
  vpx_img_alloc : Z → Z → bool;
  vpx_codec_control_ : vpx_codec_ctx → control → Z → bool * vpx_codec_ctx;
  (** picture, timestamp, duration, whether a key frame is forced, deadline *)
  vpx_codec_encode : vpx_codec_ctx → I420Buffer → Z → Z → bool → Z → bool * vpx_codec_ctx;
  vpx_codec_get_cx_data : vpx_codec_ctx → list packet * vpx_codec_ctx;
  vpx_codec_enc_config_set : vpx_codec_ctx → vpx_codec_enc_cfg_t → bool * vpx_codec_ctx;
  (** [std::thread::hardware_concurrency()] *)
  hardware_concurrency : Z;
}.

Record Vp9EncoderConfig := mkConfig {
  target_bitrate_bps : Z;
  framerate : Z;
  intra_refresh_period_frames : Z;
  keyframe_interval : Z;
  deadline : Z;
  num_threads : Z;
  low_latency_tag : bool;
}.
#[export] Instance eta_config : Eta Vp9EncoderConfig := λ s,
  mkConfig (target_bitrate_bps s) (framerate s) (intra_refresh_period_frames s) (keyframe_interval s)
    (deadline s) (num_threads s) (low_latency_tag s).
Definition default_config : Vp9EncoderConfig := mkConfig 4000000 30 60 (-1) 1 0 true.

Section encoder.
Context {U : Unspecified} {W : WebrtcLib} {X : Vpx}.

Record Vp9Encoder := mkEncoder {
  config_ : Vp9EncoderConfig;
  codec_ : option (nat * vpx_codec_ctx);
  raw_image_ : bool;
  callback_ : option nat;
  frames_in_ : Z;
  width_ : Z;
  height_ : Z;
  initialized_ : bool;
  next_handle : nat;
}.
#[export] Instance eta_encoder : Eta Vp9Encoder := λ s,
  mkEncoder (config_ s) (codec_ s) (raw_image_ s) (callback_ s) (frames_in_ s) (width_ s) (height_ s)
    (initialized_ s) (next_handle s).
Definition new_Vp9Encoder (c : Vp9EncoderConfig) : Vp9Encoder := mkEncoder c None false None 0 0 0 false 0.

Definition kbps (bps : Z) : Z := Z.max 1 (Z.quot bps 1000).
Definition thread_count (config : Vp9EncoderConfig) : Z :=
  if 0 <? num_threads config then num_threads config
  else Z.max 1 ((hardware_concurrency - 1) mod 2 ^ 32).

(** The configuration a context is opened with, from the library's default. *)
Definition init_cfg (config : Vp9EncoderConfig) (w h : Z) (cfg : vpx_codec_enc_cfg_t) : vpx_codec_enc_cfg_t :=
  let cfg :=
    cfg <| g_w := w |> <| g_h := h |> <| g_timebase_num := 1 |> <| g_timebase_den := 90000 |>
        <| g_lag_in_frames := 0 |> <| one_pass := true |> <| cbr := true |>
        <| rc_target_bitrate := kbps (target_bitrate_bps config) |>
        <| rc_min_quantizer := 2 |> <| rc_max_quantizer := 56 |>
        <| rc_undershoot_pct := 50 |> <| rc_overshoot_pct := 50 |>
        <| rc_buf_initial_sz := 500 |> <| rc_buf_optimal_sz := 600 |> <| rc_buf_sz := 1000 |>
        <| rc_dropframe_thresh := 0 |> <| rc_resize_allowed := 0 |> <| kf_mode := VPX_KF_DISABLED |> in
  let cfg :=
    if 0 <? keyframe_interval config
    then cfg <| kf_mode := VPX_KF_AUTO |> <| kf_min_dist := keyframe_interval config |>
             <| kf_max_dist := keyframe_interval config |>
    else cfg in
  cfg <| g_threads := thread_count config |> <| error_resilient := true |>.

(** [ok &= VpxControl(...)]: every control is set, whatever the others answer. *)
Fixpoint apply_controls (l : list (control * Z)) (ok : bool) (x : vpx_codec_ctx) : bool * vpx_codec_ctx :=
  match l with
  | [] => (ok, x)
  | (c, v) :: l' => let '(b, x') := vpx_codec_control_ x c v in apply_controls l' (ok && b) x'
  end.
Definition vp9_controls : list (control * Z) :=
  [(VP8E_SET_CPUUSED, 8); (VP9E_SET_TUNE_CONTENT_SCREEN, 1); (VP9E_SET_AQ_MODE, 3);
   (VP9E_SET_NOISE_SENSITIVITY, 0); (VP9E_SET_FRAME_PARALLEL_DECODING, 0); (VP9E_SET_ROW_MT, 1)].
Definition ApplyVp9Controls : eff Vp9Encoder event bool :=
  s ← eget;
  match codec_ s with
  | None => mret false
  | Some (h, x) =>
      let '(ok, x') := apply_controls vp9_controls true x in
      emod (λ s, s <| codec_ := Some (h, x') |>);; mret ok
  end.

Definition Vp9_Release : eff Vp9Encoder event code :=
  s ← eget;
  match codec_ s with
  | Some (h, _) => emit (Closed h);; emod (λ s, s <| codec_ := None |>)
  | None => mret tt
  end;;
  emod (λ s, s <| raw_image_ := false |> <| initialized_ := false |> <| callback_ := None |>);;
  mret WEBRTC_VIDEO_CODEC_OK.

(** The part of [InitEncode] after the context is open. *)
Definition finish_init : eff Vp9Encoder event code :=
  s ← eget;
  match codec_ s with
  | None => mret WEBRTC_VIDEO_CODEC_ERROR   (* excluded by the caller *)
  | Some (h, _) =>
      if negb (vpx_img_alloc (width_ s) (height_ s)) then
        emit (Closed h);;
        emod (λ s, s <| raw_image_ := true |> <| codec_ := None |>);;
        mret WEBRTC_VIDEO_CODEC_ERROR
      else
        emod (λ s, s <| raw_image_ := true |>);;
        ok ← ApplyVp9Controls;
        if negb ok then Vp9_Release;; mret WEBRTC_VIDEO_CODEC_ERROR
        else
          emod (λ s, s <| initialized_ := true |> <| frames_in_ := 0 |>);;
          mret WEBRTC_VIDEO_CODEC_OK
  end.

Definition Vp9_InitEncode (codec_settings : option VideoCodec) (settings : Settings) : eff Vp9Encoder event code :=
  match codec_settings with
  | None => mret WEBRTC_VIDEO_CODEC_ERR_PARAMETER
  | Some cs =>
      if (codec_width cs =? 0) || (codec_height cs =? 0) then mret WEBRTC_VIDEO_CODEC_ERR_PARAMETER
      else
        emod (λ s, s <| width_ := codec_width cs |> <| height_ := codec_height cs |>);;
        s ← eget;
        match vpx_codec_enc_config_default with
        | None => mret WEBRTC_VIDEO_CODEC_ERROR
        | Some cfg =>
            match vpx_codec_enc_init (init_cfg (config_ s) (width_ s) (height_ s) cfg) with
            | None => emod (λ s, s <| codec_ := None |>);; mret WEBRTC_VIDEO_CODEC_ERROR
            | Some x =>
                emit (Opened (next_handle s) (width_ s) (height_ s));;
                emod (λ s, s <| codec_ := Some (next_handle s, x) |> <| next_handle := S (next_handle s) |>);;
                finish_init
            end
        end
  end.

Definition csi_vp9 (s : Vp9Encoder) (key : bool) : CodecSpecificInfo :=
  mkInfo kVideoCodecVP9 false
    (Some (mkVp9 (negb key) key (if key then Some (width_ s, height_ s) else None))).
Definition encoded_image (s : Vp9Encoder) (frame : VideoFrame) (bytes : list Z) (key : bool) : EncodedImage :=
  mkImage bytes (if key then kVideoFrameKey else kVideoFrameDelta) (width_ s) (height_ s)
    (rtp_timestamp frame) (render_time_ms frame) (rotation frame) None None (csi_vp9 s key).

Definition Vp9_resize (frame : VideoFrame) : eff Vp9Encoder event bool :=
  s ← eget;
  if negb (frame_width frame =? width_ s) || negb (frame_height frame =? height_ s) then
    let saved_callback := callback_ s in
    Vp9_Release;;
    r ← Vp9_InitEncode (Some (codec_of (frame_width frame) (frame_height frame))) one_core;
    if bool_decide (r = WEBRTC_VIDEO_CODEC_OK)
    then emod (λ s, s <| callback_ := saved_callback |>);; mret true
    else mret false
  else mret true.

(** The packets go to the callback until it refuses one. *)
Fixpoint deliver (answer : answers) (cb : nat) (frame : VideoFrame) (packets : list packet)
    : eff Vp9Encoder event code :=
  match packets with
  | [] => mret WEBRTC_VIDEO_CODEC_OK
  | OtherPacket :: packets' => deliver answer cb frame packets'
  | FramePacket bytes key :: packets' =>
      s ← eget;
      let i := encoded_image s frame bytes key in
      emit (OnEncodedImage i);;
      if answer cb i then deliver answer cb frame packets' else mret WEBRTC_VIDEO_CODEC_ERROR
  end.

(** In units of a 90 kHz clock. *)
Definition frame_duration (config : Vp9EncoderConfig) : Z :=
  if 0 <? framerate config then Z.quot 90000 (framerate config) else 3000.

Definition Vp9_encode_picture (answer : answers) (frame : VideoFrame)
    (frame_types : option (list VideoFrameType)) : eff Vp9Encoder event code :=
  match ToI420 frame with
  | None => mret WEBRTC_VIDEO_CODEC_ERROR
  | Some i420 =>
      s ← eget;
      match codec_ s, callback_ s with
      | Some (h, x), Some cb =>
          let duration := frame_duration (config_ s) in
          let pts := frames_in_ s * duration in
          let '(ok, x') := vpx_codec_encode x i420 pts duration (wants_key frame_types) (deadline (config_ s)) in
          if negb ok then emod (λ s, s <| codec_ := Some (h, x') |>);; mret WEBRTC_VIDEO_CODEC_ERROR
          else
            emit (Fed h pts (wants_key frame_types));;
            let '(packets, x'') := vpx_codec_get_cx_data x' in
            emod (λ s, s <| codec_ := Some (h, x'') |> <| frames_in_ := frames_in_ s + 1 |>);;
            deliver answer cb frame packets
      | _, _ => mret WEBRTC_VIDEO_CODEC_ERROR   (* excluded by the caller's test *)
      end
  end.

Definition Vp9_Encode (answer : answers) (frame : VideoFrame) (frame_types : option (list VideoFrameType))
    : eff Vp9Encoder event code :=
  s ← eget;
  if negb (initialized_ s) || negb (bool_decide (is_Some (callback_ s)))
     || negb (bool_decide (is_Some (codec_ s))) || negb (raw_image_ s)
  then mret WEBRTC_VIDEO_CODEC_UNINITIALIZED
  else
    ok ← Vp9_resize frame;
    if negb ok then mret WEBRTC_VIDEO_CODEC_ERROR
    else Vp9_encode_picture answer frame frame_types.

Definition Vp9_RegisterEncodeCompleteCallback (callback : option nat) : eff Vp9Encoder event code :=
  emod (λ s, s <| callback_ := callback |>);; mret WEBRTC_VIDEO_CODEC_OK.

Definition retuned (config : Vp9EncoderConfig) (parameters : RateControlParameters) : Vp9EncoderConfig :=
  config <| target_bitrate_bps := wrap32 (get_sum_bps (bitrate parameters)) |>
         <| framerate := Z.max 1 (cast_int (framerate_fps parameters)) |>.
(** The configuration a change of the rates sets, from the library's default. *)
Definition rates_cfg (config : Vp9EncoderConfig) (w h : Z) (cfg : vpx_codec_enc_cfg_t) : vpx_codec_enc_cfg_t :=
  cfg <| g_w := w |> <| g_h := h |> <| g_timebase_num := 1 |> <| g_timebase_den := 90000 |>
      <| g_lag_in_frames := 0 |> <| one_pass := true |> <| cbr := true |>
      <| rc_target_bitrate := kbps (target_bitrate_bps config) |> <| kf_mode := VPX_KF_DISABLED |>.

Definition Vp9_SetRates (parameters : RateControlParameters) : eff Vp9Encoder event unit :=
  s ← eget;
  match codec_ s with
  | None => mret tt
  | Some (h, x) =>
      let config := retuned (config_ s) parameters in
      emod (λ s, s <| config_ := config |>);;
      match vpx_codec_enc_config_default with
      | None => mret tt
      | Some cfg =>
          emit (Tuned h (kbps (target_bitrate_bps config)) (framerate config));;
          let x' := (vpx_codec_enc_config_set x (rates_cfg config (width_ s) (height_ s) cfg)).2 in
          emod (λ s, s <| codec_ := Some (h, x') |>)
      end
  end.

#[export] Instance Vp9 : VideoEncoder Vp9Encoder := {|
  InitEncode := Vp9_InitEncode;
  Encode := Vp9_Encode;
  RegisterEncodeCompleteCallback := Vp9_RegisterEncodeCompleteCallback;
  Release := Vp9_Release;
  SetRates := Vp9_SetRates;
|}.

(** ** The contract *)

Definition Vp9_configured (s : Vp9Encoder) : view :=
  (if initialized_ s && bool_decide (is_Some (codec_ s)) && raw_image_ s then Some (width_ s, height_ s) else None,
   callback_ s).

Lemma vp9_release_run e : ∃ e', Vp9_Release e =
    (WEBRTC_VIDEO_CODEC_OK, e', match codec_ e with Some (h, _) => [Closed h] | None => [] end) ∧
  initialized_ e' = false ∧ callback_ e' = None ∧ codec_ e' = None ∧ config_ e' = config_ e ∧
  frames_in_ e' = frames_in_ e.
Proof.
  unfold Vp9_Release. run_eff. destruct e as [c [[h x]|] r cb f w he i n]; simpl;
    (eexists; split; [reflexivity|]); by split_and!.
Qed.

#[local] Arguments apply_controls : simpl never.
Lemma vp9_init_run cs st e : bad_settings (Some cs) = false → ∃ r e' es,
  Vp9_InitEncode (Some cs) st e = (r, e', es) ∧ config_ e' = config_ e ∧
  (frames_in_ e' = 0 ∨ frames_in_ e' = frames_in_ e) ∧
  ((r = WEBRTC_VIDEO_CODEC_OK ∧ es = [Opened (next_handle e) (codec_width cs) (codec_height cs)] ∧
     callback_ e' = callback_ e ∧ width_ e' = codec_width cs ∧ height_ e' = codec_height cs ∧
     initialized_ e' = true ∧ raw_image_ e' = true ∧ frames_in_ e' = 0 ∧ (∃ x, codec_ e' = Some (next_handle e, x)) ∧
     next_handle e' = S (next_handle e)) ∨
   (r = WEBRTC_VIDEO_CODEC_ERROR ∧ next_handle e' = next_handle e ∧ es = [] ∧
     initialized_ e' = initialized_ e ∧ raw_image_ e' = raw_image_ e ∧ (codec_ e' = codec_ e ∨ codec_ e' = None)) ∨
   (r = WEBRTC_VIDEO_CODEC_ERROR ∧ codec_ e' = None ∧
     es = [Opened (next_handle e) (codec_width cs) (codec_height cs); Closed (next_handle e)])).
Proof.
  intros Hb. unfold Vp9_InitEncode, finish_init, ApplyVp9Controls, Vp9_Release. simpl in Hb. rewrite Hb. run_eff.
  destruct vpx_codec_enc_config_default as [cfg|]; simpl.
  - destruct (vpx_codec_enc_init _) as [x|]; simpl.
    + destruct (vpx_img_alloc _ _); simpl.
      * destruct (apply_controls vp9_controls true x) as [[] x'] eqn:Ha; simpl; (do 3 eexists; split; [reflexivity|]); simpl;
          (split; [done|]); [split; [by left|]; left; split_and!; try done; by exists x'
                            |split; [by right|]; right; right; by split_and!].
      * do 3 eexists; split; [reflexivity|]. split; [done|]. split; [by right|]. right; right. by split_and!.
    + do 3 eexists; split; [reflexivity|]. split; [done|]. split; [by right|]. right; left. split_and!; try done. by right.
  - do 3 eexists; split; [reflexivity|]. split; [done|]. split; [by right|]. right; left. split_and!; try done. by left.
Qed.

Definition vp9_ready (e : Vp9Encoder) (w h : Z) (n : nat) (cb : option nat) : Prop :=
  initialized_ e = true ∧ raw_image_ e = true ∧ width_ e = w ∧ height_ e = h ∧ callback_ e = cb ∧
  ∃ x, codec_ e = Some (n, x).

Lemma vp9_configured_ready e s cb : Vp9_configured e = (Some s, Some cb) → ∃ n, vp9_ready e s.1 s.2 n (Some cb).
Proof.
  unfold Vp9_configured. destruct (initialized_ e) eqn:Hi; [|done]. destruct (codec_ e) as [[n x]|] eqn:Hx; [|done].
  rewrite bool_decide_true by done. destruct (raw_image_ e) eqn:Hr; [|done].
  cbn [andb]. intros [= <- Hc]. exists n. split_and!; try done. by exists x.
Qed.
Lemma vp9_ready_configured e w h n cb : vp9_ready e w h n cb → Vp9_configured e = (Some (w, h), cb).
Proof. intros (Hi & Hr & <- & <- & <- & x & Hx). unfold Vp9_configured. by rewrite Hi, Hr, Hx. Qed.

Lemma vp9_resize_run frame e w h n cb : vp9_ready e w h n cb → 0 < frame_width frame → 0 < frame_height frame →
  ∃ b e' es, Vp9_resize frame e = (b, e', es) ∧ omap image es = [] ∧ config_ e' = config_ e ∧
  (if b then ∃ n', vp9_ready e' (frame_width frame) (frame_height frame) n' cb ∧
    ((w, h) = (frame_width frame, frame_height frame) ∧ e' = e ∧ es = [] ∧ n' = n ∨
     es = [Closed n; Opened n' (frame_width frame) (frame_height frame)] ∧ frames_in_ e' = 0)
   else (Vp9_configured e').1 = None ∧ codec_ e' = None ∧ (frames_in_ e' = 0 ∨ frames_in_ e' = frames_in_ e) ∧
     ∀ next, library_run (Some (n, next)) es = Some None).
Proof.
  intros (Hi & Hri & Hw & Hh & Hcb & x & Hx) Hfw Hfh. unfold Vp9_resize. rewrite get_run.
  destruct (negb (frame_width frame =? width_ e) || negb (frame_height frame =? height_ e)) eqn:Hd.
  - destruct (vp9_release_run e) as (e1 & He1 & R1 & R2 & R3 & R4 & R5). rewrite Hx in He1.
    assert (bad_settings (Some (codec_of (frame_width frame) (frame_height frame))) = false) as Hb.
    { simpl. destruct (Z.eqb_spec (frame_width frame) 0), (Z.eqb_spec (frame_height frame) 0); lia || done. }
    destruct (vp9_init_run _ one_core e1 Hb) as (r & e2 & es & He2 & I2 & I3 & Hcase).
    unfold mbind, eff_bind. rewrite He1, He2.
    destruct Hcase as [(-> & -> & K1 & K2 & K3 & K4 & K5 & K6 & [x' K7] & _)|Hcase].
    + rewrite bool_decide_true by done. unfold emod, mret, eff_ret. do 3 eexists; split; [reflexivity|]. simpl.
      split_and!; [done|congruence|]. exists (next_handle e1). split; [|by right].
      split_and!; try done. by exists x'.
    + assert (r ≠ WEBRTC_VIDEO_CODEC_OK) as Hr by (destruct Hcase as [(-> & _)|(-> & _)]; done).
      rewrite bool_decide_false by done. unfold mret, eff_ret. do 3 eexists; split; [reflexivity|].
      assert (codec_ e2 = None) as Hc2.
      { destruct Hcase as [(_ & _ & _ & _ & _ & [-> | ->])|(_ & -> & _)]; done. }
      split_and!.
      * destruct Hcase as [(_ & _ & -> & _)|(_ & _ & ->)]; done.
      * congruence.
      * unfold Vp9_configured. rewrite Hc2. simpl. by rewrite andb_false_r.
      * done.
      * by rewrite <-R5.
      * intros next. destruct Hcase as [(_ & _ & -> & _)|(_ & _ & ->)]; simpl;
          repeat (rewrite bool_decide_true by done; simpl); done.
  - apply orb_false_iff in Hd as [H1%negb_false_iff%Z.eqb_eq H2%negb_false_iff%Z.eqb_eq].
    unfold mret, eff_ret. do 3 eexists; split; [reflexivity|]. split_and!; try done. exists n.
    rewrite H1, H2, Hw, Hh. split; [by split_and!; [..|exists x]|]. left. by split_and!.
Qed.

Lemma deliver_run a cb frame packets e w h n : vp9_ready e w h n (Some cb) → ∃ r imgs,
  deliver a cb frame packets e = (r, e, OnEncodedImage <$> imgs) ∧
  ((w, h) = (frame_width frame, frame_height frame) → Forall (image_of frame) imgs) ∧
  (r = WEBRTC_VIDEO_CODEC_OK → Forall (λ i, a cb i = true) imgs).
Proof.
  intros Hr. induction packets as [|[bytes key|] packets IH]; cbn [deliver].
  - exists WEBRTC_VIDEO_CODEC_OK, []. by split_and!.
  - rewrite get_run. set (i := encoded_image e frame bytes key).
    assert ((w, h) = (frame_width frame, frame_height frame) → image_of frame i) as Hi.
    { destruct Hr as (_ & _ & Hw & Hh & _). intros [= -> ->]. unfold image_of, i, encoded_image. simpl. by rewrite Hw, Hh. }
    unfold mbind, eff_bind, emit. destruct (a cb i) eqn:Ha.
    + destruct IH as (r & imgs & -> & H1 & H2). exists r, (i :: imgs). split_and!; [done| |].
      * intros Hwh. constructor; auto.
      * intros Hok. constructor; auto.
    + exists WEBRTC_VIDEO_CODEC_ERROR, [i]. unfold mret, eff_ret. split_and!; try done.
      intros Hwh. constructor; [auto|constructor].
  - exact IH.
Qed.

Lemma images_omap (imgs : list EncodedImage) : omap image (OnEncodedImage <$> imgs) = imgs.
Proof. induction imgs as [|i imgs IH]; [done|]. simpl. f_equal. exact IH. Qed.

Lemma vp9_picture_run a frame ft e w h n cb : vp9_ready e w h n (Some cb) → ∃ r e' es imgs,
  Vp9_encode_picture a frame ft e = (r, e', (es ++ (OnEncodedImage <$> imgs))%list) ∧
  vp9_ready e' w h n (Some cb) ∧ config_ e' = config_ e ∧
  ((w, h) = (frame_width frame, frame_height frame) → Forall (image_of frame) imgs) ∧
  (r = WEBRTC_VIDEO_CODEC_OK → Forall (λ i, a cb i = true) imgs) ∧
  let pts := frames_in_ e * frame_duration (config_ e) in
  (es = [] ∧ frames_in_ e' = frames_in_ e ∨
   es = [Fed n pts (wants_key ft)] ∧ frames_in_ e' = frames_in_ e + 1) ∧
  ((∀ x p t d k l, (vpx_codec_encode x p t d k l).1 = true) → is_Some (ToI420 frame) → es ≠ []).
Proof.
  intros Hr. pose proof Hr as (Hi & Hri & Hw & Hh & Hcb & x & Hx). unfold Vp9_encode_picture.
  destruct (ToI420 frame) as [i420|].
  2:{ exists WEBRTC_VIDEO_CODEC_ERROR, e, [], []. split_and!; try done. by left. }
  rewrite get_run, Hx, Hcb. cbv zeta. destruct (vpx_codec_encode x i420 _ _ _ _) as [ok x'] eqn:Hok. destruct ok.
  - unfold mbind, eff_bind. destruct (vpx_codec_get_cx_data x') as [packets x'']. unfold emod, emit. simpl.
    set (e' := e <| codec_ := Some (n, x'') |> <| frames_in_ := frames_in_ e + 1 |>).
    assert (vp9_ready e' w h n (Some cb)) as Hr' by (split_and!; try done; by exists x'').
    destruct (deliver_run a cb frame packets e' w h n Hr') as (r & imgs & -> & H1 & H2).
    exists r, e', [Fed n (frames_in_ e * frame_duration (config_ e)) (wants_key ft)], imgs.
    split_and!; try done. by right.
  - unfold mbind, eff_bind, emod, mret, eff_ret. simpl.
    exists WEBRTC_VIDEO_CODEC_ERROR, (e <| codec_ := Some (n, x') |>), [], [].
    split_and!; try done; [split_and!; try done; by exists x'|by left|].
    intros Hall _. specialize (Hall x i420 (frames_in_ e * frame_duration (config_ e)) (frame_duration (config_ e))
      (wants_key ft) (deadline (config_ e))). by rewrite Hok in Hall.
Qed.

Lemma vp9_encode_run a frame ft e w h n cb :
  vp9_ready e w h n (Some cb) → 0 < frame_width frame → 0 < frame_height frame →
  ∃ b e1 es1, Vp9_resize frame e = (b, e1, es1) ∧
  Vp9_Encode a frame ft e =
    (if b then (result (Vp9_encode_picture a frame ft) e1, exec (Vp9_encode_picture a frame ft) e1,
                (es1 ++ events (Vp9_encode_picture a frame ft) e1)%list)
     else (WEBRTC_VIDEO_CODEC_ERROR, e1, es1)).
Proof.
  intros Hr Hw Hh. destruct (vp9_resize_run frame e w h n _ Hr Hw Hh) as (b & e1 & es1 & H1 & _).
  exists b, e1, es1. split; [done|]. destruct Hr as (Hi & Hri & _ & _ & Hcb & x & Hx). unfold Vp9_Encode.
  rewrite get_run, Hi, Hri, Hx, Hcb. simpl. unfold mbind, eff_bind. rewrite H1. destruct b; simpl.
  - unfold result, exec, events. by destruct (Vp9_encode_picture a frame ft e1) as [[? ?] ?].
  - unfold mret, eff_ret. by rewrite app_nil_r.
Qed.

(** The VP9 encoder implements the contract. *)
#[export] Instance Vp9_laws : EncoderLaws Vp9Encoder.
Proof.
  refine {| configured := Vp9_configured |}.
  - intros cs st e Hb. cbn [InitEncode Vp9]. unfold Vp9_InitEncode. destruct cs as [cs|]; [|done]. simpl in Hb. by rewrite Hb.
  - intros cs st e Hb Hn. cbn [InitEncode Vp9]. destruct (vp9_init_run cs st e Hb) as (r & e' & es & H1 & _ & _ & Hc).
    unfold exec, events, result. rewrite H1. simpl. unfold Vp9_configured in *.
    destruct Hc as [(-> & -> & K1 & K2 & K3 & K4 & K5 & _ & [x K6] & _)|[(-> & _ & -> & K1 & K2 & K3)|(-> & K1 & ->)]].
    + split; [done|]. left. split; [done|]. by rewrite K1, K2, K3, K4, K5, K6.
    + split; [done|]. right. split; [done|]. simpl in *. rewrite K1, K2.
      destruct (initialized_ e); [|done]. destruct K3 as [-> | ->]; [|done]. by destruct (codec_ e), (raw_image_ e).
    + split; [done|]. right. split; [done|]. rewrite K1. simpl. by rewrite andb_false_r.
  - intros a f ft e Hn. cbn [Encode Vp9]. unfold Vp9_Encode. rewrite get_run. unfold Vp9_configured in Hn. simpl in Hn.
    destruct (initialized_ e), (codec_ e), (callback_ e), (raw_image_ e); try done; naive_solver.
  - intros a f ft e s cb Hc Hw Hh. cbv zeta. cbn [Encode Vp9]. destruct (vp9_configured_ready _ _ _ Hc) as (n & Hr).
    destruct (vp9_encode_run a f ft e _ _ _ _ Hr Hw Hh) as (b & e1 & es1 & H1 & H2).
    destruct (vp9_resize_run f e _ _ _ _ Hr Hw Hh) as (b' & e1' & es1' & H1' & Hi & _ & Hb). rewrite H1 in H1'.
    injection H1' as <- <- <-. unfold exec, events, result. rewrite H2. destruct b; simpl.
    + destruct Hb as (n' & Hr' & _).
      destruct (vp9_picture_run a f ft e1 _ _ _ _ Hr') as (r & e' & es & imgs & K1 & K2 & _ & K3 & K4 & K5 & _).
      unfold exec, events, result. rewrite K1. simpl.
      assert (omap image es = []) as Hes by (destruct K5 as [[-> _]|[-> _]]; done).
      rewrite !omap_app, Hi, Hes, images_omap. split_and!; [by apply K3|exact K4|].
      left. by rewrite (vp9_ready_configured _ _ _ _ _ K2).
    + rewrite Hi. split_and!; [constructor|done|]. right. by destruct Hb.
  - intros c e. do 2 eexists; split; [reflexivity|]. done.
  - intros e. destruct (vp9_release_run e) as (e' & H1 & H2 & H3 & H4 & _). unfold exec, events, result.
    cbn [Release Vp9]. rewrite H1. simpl. unfold Vp9_configured. rewrite H2, H3. split_and!; try done.
    by destruct (codec_ e) as [[? ?]|].
  - intros p e. cbn [SetRates Vp9]. unfold Vp9_SetRates, exec, events. rewrite get_run. unfold Vp9_configured.
    destruct (codec_ e) as [[h x]|] eqn:He; [|unfold mret, eff_ret; simpl; by rewrite He].
    destruct vpx_codec_enc_config_default as [cfg|]; simpl; by rewrite ?He.
Defined.

(** ** Timestamps *)

(** The open context and the least timestamp it may be fed, of pictures of one
    duration. *)
Definition in_hand (e : Vp9Encoder) : library :=
  match codec_ e with
  | Some (h, _) =>
      Some (h, if frames_in_ e =? 0 then 0 else (frames_in_ e - 1) * frame_duration (config_ e) + 1)
  | None => None
  end.
(** The library's pace: the frame rate does not change. *)
Definition same_pace (c : call) (e : Vp9Encoder) : bool :=
  match c with
  | CallInit _ _ => bool_decide (codec_ e = None)
  | CallEncode f _ => (0 <? frame_width f) && (0 <? frame_height f)
  | CallRates p => framerate (retuned (config_ e) p) =? framerate (config_ e)
  | _ => true
  end.

(** The state between calls: a context that is open is initialised. *)
Definition settled (e : Vp9Encoder) : Prop :=
  0 ≤ frames_in_ e ∧ 1 ≤ frame_duration (config_ e) ∧ (codec_ e = None ∨ initialized_ e = true).

Lemma fed_in_hand n k d key : 0 ≤ k → 1 ≤ d →
  library_run (Some (n, if k =? 0 then 0 else (k - 1) * d + 1)) [Fed n (k * d) key] = Some (Some (n, k * d + 1)).
Proof.
  intros Hk Hd. simpl. rewrite bool_decide_true by done.
  destruct (Z.eqb_spec k 0) as [->|]; [done|]. destruct (Z.leb_spec ((k - 1) * d + 1) (k * d)); [done|lia].
Qed.
Lemma images_ignored l (imgs : list EncodedImage) : library_run l (OnEncodedImage <$> imgs) = Some l.
Proof. induction imgs as [|i imgs IH]; [done|]. simpl. destruct l as [[]|]; apply IH. Qed.

Lemma vp9_frame_step a f ft e : settled e → 0 < frame_width f → 0 < frame_height f →
  let e' := exec (Vp9_Encode a f ft) e in
  library_run (in_hand e) (events (Vp9_Encode a f ft) e) = Some (in_hand e') ∧ settled e'.
Proof.
  intros Hs Hw Hh. cbv zeta. pose proof Hs as (Hf & Hd & _).
  destruct (decide ((Vp9_configured e).1 = None ∨ (Vp9_configured e).2 = None)) as [Hn|Hn].
  { pose proof (encode_refuses a f ft e Hn) as H. change (Encode a f ft e) with (Vp9_Encode a f ft e) in H.
    unfold events, exec. rewrite H. by split. }
  destruct (Vp9_configured e) as [[sz|] [cb|]] eqn:He; try (exfalso; apply Hn; simpl; tauto).
  destruct (vp9_configured_ready _ _ _ He) as (n & Hr).
  destruct (vp9_encode_run a f ft e _ _ _ _ Hr Hw Hh) as (b & e1 & es1 & H1 & H2).
  destruct (vp9_resize_run f e _ _ _ _ Hr Hw Hh) as (b' & e1' & es1' & H1' & _ & Hcfg & Hb). rewrite H1 in H1'.
  injection H1' as <- <- <-. unfold events, exec. rewrite H2.
  assert (in_hand e = Some (n, if frames_in_ e =? 0 then 0 else (frames_in_ e - 1) * frame_duration (config_ e) + 1)) as Hin
    by (destruct Hr as (_ & _ & _ & _ & _ & x & Hx); unfold in_hand; by rewrite Hx).
  destruct b; simpl.
  - destruct Hb as (n' & Hr' & Hes).
    destruct (vp9_picture_run a f ft e1 _ _ _ _ Hr') as (r & e' & es & imgs & K1 & K2 & K3 & _ & _ & K4 & _).
    unfold events, exec. rewrite K1. simpl.
    assert (0 ≤ frames_in_ e1 ∧ library_run (in_hand e) es1 =
      Some (Some (n', if frames_in_ e1 =? 0 then 0 else (frames_in_ e1 - 1) * frame_duration (config_ e1) + 1))) as [Hf1 Hl1].
    { rewrite Hin, Hcfg. destruct Hes as [(_ & -> & -> & ->)|(-> & ->)]; [by split|]. simpl.
      rewrite bool_decide_true by done. by split. }
    rewrite (library_cut _ _ _ _ Hl1).
    assert (library_run (Some (n', if frames_in_ e1 =? 0 then 0 else (frames_in_ e1 - 1) * frame_duration (config_ e1) + 1)) es =
      Some (in_hand e') ∧ 0 ≤ frames_in_ e') as [Hl Hf'].
    { destruct K2 as (_ & _ & _ & _ & _ & x & Hx). unfold in_hand. rewrite Hx, K3.
      destruct K4 as [[-> ->]|[-> ->]]; [by split|]. rewrite fed_in_hand by (rewrite ?Hcfg; done).
      destruct (Z.eqb_spec (frames_in_ e1 + 1) 0); [lia|]. split; [do 3 f_equal; lia|lia]. }
    rewrite (library_cut _ _ _ _ Hl). split; [apply images_ignored|].
    split_and!; [done|by rewrite K3, Hcfg|]. right. by destruct K2.
  - destruct Hb as (_ & Hc & Hf1 & Hlib). rewrite Hin, Hlib. unfold in_hand. rewrite Hc. split; [done|].
    split_and!; [destruct Hf1 as [-> | ->]; lia|by rewrite Hcfg|by left].
Qed.

Lemma vp9_call_step a c e : settled e → same_pace c e = true →
  library_run (in_hand e) (events (handle_call a c) e) = Some (in_hand (exec (handle_call a c) e)) ∧
  settled (exec (handle_call a c) e).
Proof.
  intros Hs Hc. pose proof Hs as (Hf & Hd & Hi).
  assert (∀ {A} (m : eff Vp9Encoder event A),
    events (m;; mret tt) e = events m e ∧ exec (m;; mret tt) e = exec m e) as Hret.
  { intros A m. unfold events, exec, mbind, eff_bind. destruct (m e) as [[r e'] es]. unfold mret, eff_ret. simpl.
    by rewrite app_nil_r. }
  destruct c as [cs st|f ft|cb| |p];
    cbn [handle_call InitEncode Encode RegisterEncodeCompleteCallback Release SetRates Vp9];
    rewrite ?(proj1 (Hret _ _)), ?(proj2 (Hret _ _)).
  - simpl in Hc. apply bool_decide_eq_true in Hc. assert (in_hand e = None) as -> by (unfold in_hand; by rewrite Hc).
    destruct (bad_settings cs) eqn:Hb.
    { pose proof (init_refuses cs st e Hb) as H. change (InitEncode cs st e) with (Vp9_InitEncode cs st e) in H.
      unfold events, exec, in_hand. rewrite H. simpl. by rewrite Hc. }
    destruct cs as [cs|]; [|done]. destruct (vp9_init_run cs st e Hb) as (r & e' & es & H1 & H2 & H3 & Hcase).
    assert (0 ≤ frames_in_ e') as Hf' by (destruct H3 as [-> | ->]; lia).
    unfold events, exec, in_hand, settled. rewrite H1. simpl. rewrite H2.
    destruct Hcase as [(_ & -> & _ & _ & _ & K1 & _ & K2 & [x K3] & _)|[(_ & _ & -> & _ & _ & K1)|(_ & K1 & ->)]].
    + rewrite K2, K3. simpl. split; [done|]. split_and!; try done. by right.
    + assert (codec_ e' = None) as -> by (destruct K1 as [-> | ->]; done). split; [done|]. split_and!; try done. by left.
    + rewrite K1. simpl. rewrite bool_decide_true by done. split; [done|]. split_and!; try done. by left.
  - simpl in Hc. apply andb_true_iff in Hc as [Hw%Z.ltb_lt Hh%Z.ltb_lt]. by apply vp9_frame_step.
  - by split.
  - destruct (vp9_release_run e) as (e' & H1 & _ & _ & H2 & H3 & H4). unfold events, exec, in_hand, settled. rewrite H1.
    simpl. rewrite H2, H3, H4. split; [|split_and!; try done; by left].
    destruct (codec_ e) as [[h x]|]; [|done]. simpl. by rewrite bool_decide_true.
  - simpl in Hc. apply Z.eqb_eq in Hc. unfold Vp9_SetRates. rewrite exec_get, events_get. unfold in_hand, settled.
    destruct (codec_ e) as [[h x]|] eqn:Hx; [|run_eff; by rewrite Hx].
    assert (frame_duration (retuned (config_ e) p) = frame_duration (config_ e)) as Hfd
      by (assert (framerate (retuned (config_ e) p) = framerate (config_ e)) as Hc' by exact Hc;
          unfold frame_duration; by rewrite Hc').
    destruct vpx_codec_enc_config_default as [cfg|]; run_eff; rewrite ?Hx, Hfd; simpl;
      rewrite ?bool_decide_true by done; (split; [done|]); split_and!; try done; destruct Hi; done || by right.
Qed.

(** As long as the frame rate is not changed, whatever else libwebrtc calls:
    contexts of libvpx are opened, fed increasing timestamps and closed one
    after the other, and after the last release none is open. *)
Theorem vp9_handles_released config a calls : 1 ≤ frame_duration config →
  let e0 := new_Vp9Encoder config in
  all_enabled same_pace (handle_call a) calls e0 = true →
  library_run None (events (run (handle_call a) (calls ++ [CallRelease])) e0) = Some None.
Proof.
  intros Hd e0 Hok.
  assert (∀ calls e, settled e → all_enabled same_pace (handle_call a) calls e = true →
    library_run (in_hand e) (events (run (handle_call a) calls) e) =
      Some (in_hand (exec (run (handle_call a) calls) e))) as H.
  { clear. intros calls. unfold run. induction calls as [|c calls IH]; intros e Hs Hok; [done|].
    simpl in Hok. apply andb_true_iff in Hok as [Hc Hok]. rewrite fmap_cons. cbn [eseq].
    destruct (vp9_call_step a c e Hs Hc) as [Hl Hs']. rewrite exec_bind, events_bind, (library_cut _ _ _ _ Hl). by apply IH. }
  pose proof (H (calls ++ [CallRelease]) e0) as H'. rewrite all_enabled_app, Hok in H'.
  change (in_hand e0) with (@None (nat * Z)) in H'. rewrite H'; [|split_and!; [done|done|by left]|done].
  destruct (run_app (handle_call a) calls [CallRelease] e0) as [-> _].
  unfold exec at 1. rewrite run_one. cbn [handle_call Release Vp9].
  destruct (vp9_release_run (exec (run (handle_call a) calls) e0)) as (e' & H1 & _ & _ & H2 & _).
  unfold mbind, eff_bind. rewrite H1. unfold mret, eff_ret. simpl. unfold in_hand. by rewrite H2.
Qed.

(** A higher frame rate moves the clock of the timestamps back: a timestamp is
    the number of frames times the duration of one, so the next one is below
    the last when the duration has shrunk enough. *)
Theorem vp9_timestamps_go_back a e n s cb f p :
  (∃ x, codec_ e = Some (n, x)) → Vp9_configured e = (Some s, Some cb) → s = (frame_width f, frame_height f) →
  0 < frame_width f → 0 < frame_height f → is_Some (ToI420 f) →
  (∀ x i t d k l, (vpx_codec_encode x i t d k l).1 = true) →
  0 < frames_in_ e →
  frames_in_ e * frame_duration (retuned (config_ e) p) ≤ (frames_in_ e - 1) * frame_duration (config_ e) →
  library_run (in_hand e) (events (run (handle_call a) [CallRates p; CallEncode f None]) e) = None.
Proof.
  intros [x Hx] Hc Hs Hw Hh Hi Hall Hk Hback.
  assert (∃ x', Vp9_SetRates p e = (tt, e <| config_ := retuned (config_ e) p |> <| codec_ := Some (n, x') |>,
    if bool_decide (is_Some vpx_codec_enc_config_default)
    then [Tuned n (kbps (target_bitrate_bps (retuned (config_ e) p))) (framerate (retuned (config_ e) p))] else [])) as [x' Hr].
  { unfold Vp9_SetRates. rewrite get_run, Hx, mod_run. destruct vpx_codec_enc_config_default as [cfg|].
    - eexists. run_eff. reflexivity.
    - exists x. run_eff. destruct e; simpl in *. by subst. }
  set (e1 := e <| config_ := retuned (config_ e) p |> <| codec_ := Some (n, x') |>) in Hr.
  assert (Vp9_configured e1 = (Some s, Some cb)) as Hc1.
  { rewrite <-Hc. unfold Vp9_configured, e1. simpl. by rewrite Hx. }
  destruct (vp9_configured_ready _ _ _ Hc1) as (n' & Hr1). rewrite Hs in Hr1. simpl in Hr1.
  assert (Vp9_resize f e1 = (true, e1, [])) as Hres.
  { destruct Hr1 as (_ & _ & Hw1 & Hh1 & _). unfold Vp9_resize. rewrite get_run, Hw1, Hh1, !Z.eqb_refl. done. }
  destruct (vp9_encode_run a f None e1 _ _ _ _ Hr1 Hw Hh) as (b & e2 & es2 & H1 & H2). rewrite Hres in H1.
  injection H1 as <- <- <-.
  destruct (vp9_picture_run a f None e1 _ _ _ _ Hr1) as (r & e' & es & imgs & K1 & _ & _ & _ & _ & K2 & K3).
  assert (events (run (handle_call a) [CallRates p; CallEncode f None]) e =
    events (Vp9_SetRates p;; (Vp9_Encode a f None;; mret tt)) e) as -> by (unfold events; by rewrite run_two).
  rewrite events_bind.
  assert (events (Vp9_SetRates p) e = if bool_decide (is_Some vpx_codec_enc_config_default)
    then [Tuned n (kbps (target_bitrate_bps (retuned (config_ e) p))) (framerate (retuned (config_ e) p))] else []) as ->
    by (unfold events; by rewrite Hr).
  assert (exec (Vp9_SetRates p) e = e1) as -> by (unfold exec; by rewrite Hr).
  rewrite events_bind. change (events (mret tt) (exec (Vp9_Encode a f None) e1)) with (@nil event).
  rewrite app_nil_r. assert (events (Vp9_Encode a f None) e1 = es ++ (OnEncodedImage <$> imgs)) as ->.
  { unfold events. rewrite H2. simpl. unfold events. by rewrite K1. }
  destruct K2 as [[-> _]|[-> _]]; [by destruct (K3 Hall Hi)|].
  assert (n' = n) as -> by (destruct Hr1 as (_ & _ & _ & _ & _ & y & Hy); unfold e1 in Hy; simpl in Hy; congruence).
  assert (library_run (in_hand e) (if bool_decide (is_Some vpx_codec_enc_config_default)
    then [Tuned n (kbps (target_bitrate_bps (retuned (config_ e) p))) (framerate (retuned (config_ e) p))] else []) =
    Some (in_hand e)) as Hl.
  { unfold in_hand. rewrite Hx. case_bool_decide; [|done]. simpl. by rewrite bool_decide_true. }
  rewrite (library_cut _ _ _ _ Hl). unfold in_hand. rewrite Hx. unfold e1. simpl.
  rewrite bool_decide_true by done. destruct (Z.eqb_spec (frames_in_ e) 0); [lia|].
  destruct (Z.leb_spec ((frames_in_ e - 1) * frame_duration (config_ e) + 1)
    (frames_in_ e * frame_duration (retuned (config_ e) p))); [lia|done].
Qed.

(** A change of the rates gives libvpx its default tuning back: of what
    [InitEncode] configured, only the size, the clock and the rate control mode
    stay; the quantizers, buffers, threads and error resilience are the
    defaults, and automatic key frames are off. *)
Theorem vp9_rates_forget_tuning config w h cfg :
  let new := rates_cfg config w h cfg in
  rc_min_quantizer new = rc_min_quantizer cfg ∧ rc_max_quantizer new = rc_max_quantizer cfg ∧
  rc_undershoot_pct new = rc_undershoot_pct cfg ∧ rc_overshoot_pct new = rc_overshoot_pct cfg ∧
  rc_buf_sz new = rc_buf_sz cfg ∧ g_threads new = g_threads cfg ∧ error_resilient new = error_resilient cfg ∧
  (0 < keyframe_interval config → kf_mode (init_cfg config w h cfg) = VPX_KF_AUTO ∧ kf_mode new = VPX_KF_DISABLED).
Proof.
  cbv zeta. split_and!; try done. intros Hk. unfold init_cfg. by rewrite (proj2 (Z.ltb_lt 0 _) Hk).
Qed.
End encoder.

(** ** Witnesses *)

Section witnesses.
#[local] Existing Instance sample_webrtc.
#[local] Existing Instance defaults.
(** A library that accepts everything; a picture is one packet. *)
#[local] Instance sample_vpx : Vpx := {|
  vpx_codec_ctx := list Z;
  vpx_codec_enc_config_default :=
    Some (mkCfg 320 240 1 30 25 false false 256 0 63 25 25 4000 5000 6000 0 0 VPX_KF_AUTO 0 128 0 false);
  vpx_codec_enc_init _ := Some [];
  vpx_img_alloc _ _ := true;
  vpx_codec_control_ x _ _ := (true, x);
  vpx_codec_encode x _ pts _ _ _ := (true, pts :: x);
  vpx_codec_get_cx_data x := ([FramePacket [hd 0 x] (bool_decide (List.length x = 1%nat))], x);
  vpx_codec_enc_config_set x _ := (true, x);
  hardware_concurrency := 4;
|}.
Definition a_frame (w h : Z) : VideoFrame := mkFrame w h 7 8 0 (Some tt).
Definition rate (kbps fps : Z) : RateControlParameters :=
  mkRates (SetBitrate 0 0 (1000 * kbps) no_bitrates) (double_of_Z fps) (1000 * kbps).
Definition steady_calls : list call :=
  [CallInit (Some (codec_of 640 360)) one_core; CallRegister (Some 0%nat); CallEncode (a_frame 640 360) None;
   CallRates (rate 500 30); CallEncode (a_frame 640 360) None; CallEncode (a_frame 320 180) None].
Definition yes : answers := λ _ _, true.

Lemma vp9_handles_released_witness :
  library_run None (events (run (handle_call yes) (steady_calls ++ [CallRelease])) (new_Vp9Encoder default_config)) =
    Some None ∧
  List.length (omap image (events (run (handle_call yes) steady_calls) (new_Vp9Encoder default_config))) = 3%nat.
Proof.
  split; [|vm_compute; reflexivity].
  refine (vp9_handles_released default_config yes steady_calls _ _); [vm_compute; discriminate|vm_compute; reflexivity].
Defined.

Definition two_frames : Vp9Encoder :=
  exec (run (handle_call yes) (take 5 steady_calls)) (new_Vp9Encoder default_config).
Lemma vp9_timestamps_go_back_witness :
  library_run (in_hand two_frames)
    (events (run (handle_call yes) [CallRates (rate 500 60); CallEncode (a_frame 640 360) None]) two_frames) = None.
Proof.
  refine (vp9_timestamps_go_back yes two_frames 0 (640, 360) 0 (a_frame 640 360) (rate 500 60) _ _ _ _ _ _ _ _ _);
    first [eexists; vm_compute; reflexivity | vm_compute; reflexivity | vm_compute; discriminate | done].
Defined.
End witnesses.
