(* ===== verification/ShellEncoder.v ===== *)
(** * The encoders that wrap a backend
      (capture/encoder/svtav1_encoder.cc, nvenc_encoder.cc, vaapi_encoder.cc)

    SvtAv1Encoder, NvencEncoder and VaapiEncoder are the same shell around a
    private class [Impl], which owns the session of the codec library.
    [Backend] is that class; the shell is written, and proved to implement the
    contract and to use the library well, once for all of them. *)

From Stdlib Require Import ZArith Lia SpecFloat.
From stdpp Require Import base tactics numbers option list.
From S2P Require Import Prelude Numbers VideoEncoder.
Open Scope Z_scope.

Section shell.
Context {U : Unspecified} {W : WebrtcLib}.

(** The configuration [C] and the class [Impl] of an encoder.  [Encode] gives
    the bytes, none when the codec needs more pictures, and whether they are a
    key frame. *)
Class Backend (C I : Type) := {
  codec_type_of : C → option VideoCodecType;
  with_rates : Z → Z → C → C;
  Initialize : C → Z → Z → VideoCodecType → eff I event bool;
  impl_Encode : I420Buffer → Z → Z → Z → bool → eff I event (option (list Z * bool));
  Reconfigure : C → eff I event bool;
  Destroy : eff I event unit;
}.

Context {C I : Type} {B : Backend C I}.

Record shell := mkShell {
  config_ : C;
  impl_ : I;
  callback_ : option nat;
  initialized_ : bool;
  frames_in_ : Z;
  width_ : Z;
  height_ : Z;
}.
#[export] Instance eta_shell : Eta shell := λ s,
  mkShell (config_ s) (impl_ s) (callback_ s) (initialized_ s) (frames_in_ s) (width_ s) (height_ s).
Definition new_shell (c : C) (i : I) : shell := mkShell c i None false 0 0 0.

(** A call on the backend. *)
Definition on_impl {A} (m : eff I event A) : eff shell event A :=
  zoom impl_ (λ i s, s <| impl_ := i |>) m.

Definition Shell_InitEncode (codec_settings : option VideoCodec) (settings : Settings) : eff shell event code :=
  match codec_settings with
  | None => mret WEBRTC_VIDEO_CODEC_ERR_PARAMETER
  | Some cs =>
      if (codec_width cs =? 0) || (codec_height cs =? 0) then mret WEBRTC_VIDEO_CODEC_ERR_PARAMETER
      else
        emod (λ s, s <| width_ := codec_width cs |> <| height_ := codec_height cs |>);;
        s ← eget;
        match codec_type_of (config_ s) with
        | None => mret WEBRTC_VIDEO_CODEC_ERR_PARAMETER
        | Some ty =>
            ok ← on_impl (Initialize (config_ s) (width_ s) (height_ s) ty);
            if negb ok then mret WEBRTC_VIDEO_CODEC_ERROR
            else
              emod (λ s, s <| initialized_ := true |> <| frames_in_ := 0 |>);;
              mret WEBRTC_VIDEO_CODEC_OK
        end
  end.

Definition Shell_Release : eff shell event code :=
  on_impl Destroy;;
  emod (λ s, s <| initialized_ := false |> <| callback_ := None |>);;
  mret WEBRTC_VIDEO_CODEC_OK.

Definition shell_image (s : shell) (frame : VideoFrame) (bytes : list Z) (key : bool) (ty : VideoCodecType)
    : EncodedImage :=
  mkImage bytes (if key then kVideoFrameKey else kVideoFrameDelta) (width_ s) (height_ s)
    (rtp_timestamp frame) (render_time_ms frame) (rotation frame) None None
    (mkInfo ty (bool_decide (ty = kVideoCodecH264)) None).

Definition Shell_resize (frame : VideoFrame) : eff shell event bool :=
  s ← eget;
  if negb (frame_width frame =? width_ s) || negb (frame_height frame =? height_ s) then
    let saved_callback := callback_ s in
    Shell_Release;;
    r ← Shell_InitEncode (Some (codec_of (frame_width frame) (frame_height frame))) one_core;
    if bool_decide (r = WEBRTC_VIDEO_CODEC_OK)
    then emod (λ s, s <| callback_ := saved_callback |>);; mret true
    else mret false
  else mret true.

Definition Shell_encode_picture (answer : answers) (frame : VideoFrame)
    (frame_types : option (list VideoFrameType)) : eff shell event code :=
  match ToI420 frame with
  | None => mret WEBRTC_VIDEO_CODEC_ERROR
  | Some i420 =>
      s ← eget;
      emod (λ s, s <| frames_in_ := frames_in_ s + 1 |>);;
      out ← on_impl (impl_Encode i420 (width_ s) (height_ s) (frames_in_ s) (wants_key frame_types));
      match out with
      | None => mret WEBRTC_VIDEO_CODEC_ERROR
      | Some (bytes, key) =>
          if bool_decide (bytes = []) then mret WEBRTC_VIDEO_CODEC_OK
          else
            match codec_type_of (config_ s), callback_ s with
            | Some ty, Some cb =>
                let i := shell_image s frame bytes key ty in
                emit (OnEncodedImage i);;
                mret (if answer cb i then WEBRTC_VIDEO_CODEC_OK else WEBRTC_VIDEO_CODEC_ERROR)
            | _, _ => mret WEBRTC_VIDEO_CODEC_ERROR   (* excluded: initialised, with a callback *)
            end
      end
  end.

Definition Shell_Encode (answer : answers) (frame : VideoFrame) (frame_types : option (list VideoFrameType))
    : eff shell event code :=
  s ← eget;
  if negb (initialized_ s) || negb (bool_decide (is_Some (callback_ s)))
  then mret WEBRTC_VIDEO_CODEC_UNINITIALIZED
  else
    ok ← Shell_resize frame;
    if negb ok then mret WEBRTC_VIDEO_CODEC_ERROR
    else Shell_encode_picture answer frame frame_types.

Definition Shell_RegisterEncodeCompleteCallback (callback : option nat) : eff shell event code :=
  emod (λ s, s <| callback_ := callback |>);; mret WEBRTC_VIDEO_CODEC_OK.

Definition Shell_SetRates (parameters : RateControlParameters) : eff shell event unit :=
  s ← eget;
  if negb (initialized_ s) then mret tt
  else
    let config := with_rates (wrap32 (get_sum_bps (bitrate parameters)))
                    (Z.max 1 (cast_int (framerate_fps parameters))) (config_ s) in
    emod (λ s, s <| config_ := config |>);;
    on_impl (Reconfigure config);;
    mret tt.

#[export] Instance Shell : VideoEncoder shell := {|
  InitEncode := Shell_InitEncode;
  Encode := Shell_Encode;
  RegisterEncodeCompleteCallback := Shell_RegisterEncodeCompleteCallback;
  Release := Shell_Release;
  SetRates := Shell_SetRates;
|}.

(** What the shell relies on.  [session] is the session of the library a backend
    has open.  A backend opens one when it had none, feeds it in order, and
    closes it; it sends no image itself. *)
Definition in_session (h : option nat) (bound : Z) (l : library) : Prop :=
  match h with
  | None => l = None
  | Some h => ∃ next, l = Some (h, next) ∧ next ≤ bound
  end.
Class BackendLaws := {
  session : I → option nat;
  initialize_law c w h ty i : session i = None →
    ∃ b i' es, Initialize c w h ty i = (b, i', es) ∧ omap image es = [] ∧
      ∃ l, library_run None es = Some l ∧ in_session (session i') 0 l;
  initialize_quiet c w h ty i : omap image (events (Initialize c w h ty) i) = [];
  encode_law p w h pts key i l : in_session (session i) pts l →
    ∃ r i' es, impl_Encode p w h pts key i = (r, i', es) ∧ omap image es = [] ∧
      session i' = session i ∧ ∃ l', library_run l es = Some l' ∧ in_session (session i') (pts + 1) l';
  encode_quiet p w h pts key i : omap image (events (impl_Encode p w h pts key) i) = [];
  reconfigure_law c i l bound : in_session (session i) bound l →
    ∃ b i' es, Reconfigure c i = (b, i', es) ∧ omap image es = [] ∧ session i' = session i ∧
      library_run l es = Some l;
  reconfigure_quiet c i : omap image (events (Reconfigure c) i) = [];
  destroy_law i l bound : in_session (session i) bound l →
    ∃ i' es, Destroy i = (tt, i', es) ∧ session i' = None ∧ library_run l es = Some None;
  destroy_quiet i : omap image (events Destroy i) = [];
  rates_keep_codec r f c : codec_type_of (with_rates r f c) = codec_type_of c;
}.
End shell.
Arguments shell : clear implicits.
Arguments BackendLaws {W} C I {B}.

(** A backend whose calls each do at most one thing to its session is lawful. *)
Definition simple_backend {W : WebrtcLib} {C I : Type} {B : Backend C I} (session : I → option nat)
    (Hinit : ∀ c w h ty i, ∃ b i' es, Initialize c w h ty i = (b, i', es) ∧
      (es = [] ∧ (session i = None → session i' = None) ∨ ∃ n, es = [Opened n w h] ∧ session i' = Some n))
    (Hencode : ∀ p w h pts key i, ∃ r i' es, impl_Encode p w h pts key i = (r, i', es) ∧ session i' = session i ∧
      (es = [] ∨ ∃ n, session i = Some n ∧ es = [Fed n pts key]))
    (Hreconf : ∀ c i, ∃ b i' es, Reconfigure c i = (b, i', es) ∧ session i' = session i ∧
      (es = [] ∨ ∃ n r f, session i = Some n ∧ es = [Tuned n r f]))
    (Hdestroy : ∀ i, ∃ i' es, Destroy i = (tt, i', es) ∧ session i' = None ∧
      es = match session i with Some n => [Closed n] | None => [] end)
    (Hrates : ∀ r f c, codec_type_of (with_rates r f c) = codec_type_of c) : BackendLaws C I.
Proof.
  refine {| ShellEncoder.session := session; rates_keep_codec := Hrates |}.
  - intros c w h ty i Hs. destruct (Hinit c w h ty i) as (b & i' & es & H1 & [(-> & H2)|(n & -> & H2)]);
      do 3 eexists; (split; [exact H1|]); (split; [done|]).
    + exists None. split; [done|]. by rewrite (H2 Hs).
    + eexists. split; [done|]. rewrite H2. by exists 0.
  - intros c w h ty i. destruct (Hinit c w h ty i) as (b & i' & es & H1 & H2). unfold events. rewrite H1.
    by destruct H2 as [(-> & _)|(n & -> & _)].
  - intros p w h pts key i l Hl. destruct (Hencode p w h pts key i) as (r & i' & es & H1 & H2 & H3).
    do 3 eexists; split; [exact H1|]. split; [by destruct H3 as [-> |(n & _ & ->)]|]. split; [done|]. rewrite H2.
    destruct H3 as [-> |(n & Hn & ->)].
    + exists l. split; [done|]. destruct (session i) as [h0|]; [|done]. destruct Hl as (next & -> & ?).
      exists next. split; [done|lia].
    + rewrite Hn in Hl |- *. destruct Hl as (next & -> & Hle). simpl.
      rewrite bool_decide_true, (proj2 (Z.leb_le _ _) Hle) by done. eexists; split; [done|]. by eexists.
  - intros p w h pts key i. destruct (Hencode p w h pts key i) as (r & i' & es & H1 & H2 & H3). unfold events.
    rewrite H1. by destruct H3 as [-> |(n & _ & ->)].
  - intros c i l bound Hl. destruct (Hreconf c i) as (b & i' & es & H1 & H2 & H3).
    do 3 eexists; split; [exact H1|]. split; [by destruct H3 as [-> |(n & r & f & _ & ->)]|]. split; [done|].
    destruct H3 as [-> |(n & r & f & Hn & ->)]; [done|]. rewrite Hn in Hl. destruct Hl as (next & -> & _). simpl.
    by rewrite bool_decide_true.
  - intros c i. destruct (Hreconf c i) as (b & i' & es & H1 & H2 & H3). unfold events. rewrite H1.
    by destruct H3 as [-> |(n & r & f & _ & ->)].
  - intros i l bound Hl. destruct (Hdestroy i) as (i' & es & H1 & H2 & ->). do 2 eexists; split; [exact H1|].
    split; [by rewrite H2|]. destruct (session i) as [n|]; simpl in Hl.
    + destruct Hl as (next & -> & _). simpl. by rewrite bool_decide_true.
    + by rewrite Hl.
  - intros i. destruct (Hdestroy i) as (i' & es & H1 & H2 & ->). unfold events. rewrite H1.
    by destruct (session i) as [n|].
Defined.

Section contract.
Context {U : Unspecified} {W : WebrtcLib} {C I : Type} {B : Backend C I} {L : BackendLaws C I}.
Implicit Types e : shell C I.

Definition shell_configured (e : shell C I) : view :=
  (if initialized_ e then Some (width_ e, height_ e) else None, callback_ e).

Lemma on_impl_run {A} (m : eff I event A) e : on_impl m e =
  (result m (impl_ e), e <| impl_ := exec m (impl_ e) |>, events m (impl_ e)).
Proof. unfold on_impl, zoom, result, exec, events. by destruct (m (impl_ e)) as [[? ?] ?]. Qed.

Lemma shell_release_run e : Shell_Release e =
  (WEBRTC_VIDEO_CODEC_OK,
   e <| impl_ := exec Destroy (impl_ e) |> <| initialized_ := false |> <| callback_ := None |>,
   events Destroy (impl_ e)).
Proof. unfold Shell_Release, mbind, eff_bind. rewrite on_impl_run. run_eff. by rewrite !app_nil_r. Qed.

(** [InitEncode] with good settings. *)
Lemma shell_init_run cs st e : bad_settings (Some cs) = false →
  let w := codec_width cs in
  let h := codec_height cs in
  Shell_InitEncode (Some cs) st e =
    match codec_type_of (config_ e) with
    | None => (WEBRTC_VIDEO_CODEC_ERR_PARAMETER, e <| width_ := w |> <| height_ := h |>, [])
    | Some ty =>
        let m := Initialize (config_ e) w h ty in
        let e1 := e <| width_ := w |> <| height_ := h |> <| impl_ := exec m (impl_ e) |> in
        if result m (impl_ e)
        then (WEBRTC_VIDEO_CODEC_OK, e1 <| initialized_ := true |> <| frames_in_ := 0 |>, events m (impl_ e))
        else (WEBRTC_VIDEO_CODEC_ERROR, e1, events m (impl_ e))
    end.
Proof.
  intros Hb. cbv zeta. unfold Shell_InitEncode. simpl in Hb. rewrite Hb, mod_run, get_run.
  change (config_ (e <| width_ := codec_width cs |> <| height_ := codec_height cs |>)) with (config_ e).
  destruct (codec_type_of (config_ e)) as [ty|]; [|done]. unfold mbind, eff_bind. rewrite on_impl_run. simpl.
  destruct (result _ _); simpl; unfold mret, eff_ret; by rewrite app_nil_r.
Qed.

(** A frame of a new size: the encoder starts again and keeps its callback. *)
Definition same_size (frame : VideoFrame) (e : shell C I) : bool :=
  (frame_width frame =? width_ e) && (frame_height frame =? height_ e).
Lemma shell_resize_run frame e : 0 < frame_width frame → 0 < frame_height frame →
  let w := frame_width frame in
  let h := frame_height frame in
  Shell_resize frame e =
    if same_size frame e then (true, e, [])
    else
      let i1 := exec Destroy (impl_ e) in
      match codec_type_of (config_ e) with
      | None => (false, e <| impl_ := i1 |> <| initialized_ := false |> <| callback_ := None |>
                           <| width_ := w |> <| height_ := h |>, events Destroy (impl_ e))
      | Some ty =>
          let m := Initialize (config_ e) w h ty in
          let e1 := e <| impl_ := exec m i1 |> <| initialized_ := false |> <| callback_ := None |>
                      <| width_ := w |> <| height_ := h |> in
          if result m i1
          then (true, e1 <| initialized_ := true |> <| frames_in_ := 0 |> <| callback_ := callback_ e |>,
                (events Destroy (impl_ e) ++ events m i1)%list)
          else (false, e1, (events Destroy (impl_ e) ++ events m i1)%list)
      end.
Proof.
  intros Hw Hh. cbv zeta. unfold Shell_resize, same_size. rewrite get_run, <-negb_andb.
  destruct ((frame_width frame =? width_ e) && (frame_height frame =? height_ e)); [done|]. cbn [negb].
  assert (bad_settings (Some (codec_of (frame_width frame) (frame_height frame))) = false) as Hb.
  { simpl. destruct (Z.eqb_spec (frame_width frame) 0), (Z.eqb_spec (frame_height frame) 0); lia || done. }
  unfold mbind, eff_bind. rewrite shell_release_run, (shell_init_run _ one_core _ Hb). simpl.
  destruct (codec_type_of (config_ e)) as [ty|]; simpl; [|unfold mret, eff_ret; by rewrite app_nil_r].
  destruct (result _ _); simpl; unfold mret, eff_ret; rewrite !app_nil_r; done.
Qed.

(** A picture goes through the backend, and its image to the callback. *)
Lemma shell_picture_run a frame ft e : ∃ r imgs,
  let m p := impl_Encode p (width_ e) (height_ e) (frames_in_ e) (wants_key ft) in
  Shell_encode_picture a frame ft e =
    match ToI420 frame with
    | None => (WEBRTC_VIDEO_CODEC_ERROR, e, [])
    | Some p => (r, e <| frames_in_ := frames_in_ e + 1 |> <| impl_ := exec (m p) (impl_ e) |>,
                 (events (m p) (impl_ e) ++ (OnEncodedImage <$> imgs))%list)
    end ∧
  (width_ e = frame_width frame → height_ e = frame_height frame → Forall (image_of frame) imgs) ∧
  (r = WEBRTC_VIDEO_CODEC_OK → ∀ cb, callback_ e = Some cb → Forall (λ i, a cb i = true) imgs) ∧
  (imgs = [] ∨ ∃ i p b k, imgs = [i] ∧ ToI420 frame = Some p ∧ result (m p) (impl_ e) = Some (b, k) ∧
     EncodedData i = b ∧ _frameType i = if k then kVideoFrameKey else kVideoFrameDelta).
Proof.
  unfold Shell_encode_picture. destruct (ToI420 frame) as [p|].
  2:{ exists WEBRTC_VIDEO_CODEC_ERROR, []. split_and!; try done. by left. }
  rewrite get_run, mod_run. unfold mbind, eff_bind. rewrite on_impl_run. simpl.
  set (m := impl_Encode p (width_ e) (height_ e) (frames_in_ e) (wants_key ft)).
  destruct (result m (impl_ e)) as [[b k]|] eqn:Hm.
  2:{ exists WEBRTC_VIDEO_CODEC_ERROR, []. simpl. unfold mret, eff_ret. split_and!; try done. by left. }
  case_bool_decide as Hb.
  { exists WEBRTC_VIDEO_CODEC_OK, []. simpl. unfold mret, eff_ret. split_and!; try done. by left. }
  destruct (codec_type_of (config_ e)) as [ty|].
  2:{ exists WEBRTC_VIDEO_CODEC_ERROR, []. simpl. unfold mret, eff_ret. split_and!; try done. by left. }
  destruct (callback_ e) as [cb|].
  2:{ exists WEBRTC_VIDEO_CODEC_ERROR, []. simpl. unfold mret, eff_ret. split_and!; try done. by left. }
  exists (if a cb (shell_image e frame b k ty) then WEBRTC_VIDEO_CODEC_OK else WEBRTC_VIDEO_CODEC_ERROR),
    [shell_image e frame b k ty]. split_and!; [done| | |].
  - intros H1 H2. constructor; [|constructor]. by split_and!.
  - intros Hr cb' [= <-]. constructor; [|constructor]. by destruct (a cb _).
  - right. by exists (shell_image e frame b k ty), p, b, k.
Qed.

Lemma shell_images_omap (imgs : list EncodedImage) : omap image (OnEncodedImage <$> imgs) = imgs.
Proof. induction imgs as [|i imgs IH]; [done|]. simpl. f_equal. exact IH. Qed.

(** A shell around any backend implements the contract. *)
#[export] Instance Shell_laws : EncoderLaws (shell C I).
Proof.
  refine {| configured := shell_configured |}.
  - intros cs st e Hb. cbn [InitEncode Shell]. unfold Shell_InitEncode. destruct cs as [cs|]; [|done].
    simpl in Hb. by rewrite Hb.
  - intros cs st e Hb Hn. cbn [InitEncode Shell]. unfold exec, events, result.
    rewrite (shell_init_run cs st e Hb). unfold shell_configured in *. simpl in Hn.
    destruct (codec_type_of (config_ e)) as [ty|]; simpl.
    + destruct (initialized_ e) eqn:Hi; [done|]. pose proof (initialize_quiet (config_ e) (codec_width cs) (codec_height cs) ty (impl_ e)) as Hq.
      destruct (result _ _); simpl; rewrite ?Hi; split; [exact Hq|left; by split|exact Hq|right; by split].
    + split; [done|]. right. split; [done|]. by destruct (initialized_ e).
  - intros a f ft e Hn. cbn [Encode Shell]. unfold Shell_Encode. rewrite get_run. unfold shell_configured in Hn.
    simpl in Hn. destruct (initialized_ e), (callback_ e); try done; naive_solver.
  - intros a f ft e s cb Hc Hw Hh. cbv zeta. cbn [Encode Shell]. unfold shell_configured in *.
    destruct (initialized_ e) eqn:Hi; [|done]. injection Hc as <- Hcb.
    assert (∀ e1, width_ e1 = frame_width f → height_ e1 = frame_height f → initialized_ e1 = true →
      callback_ e1 = Some cb →
      let m := Shell_encode_picture a f ft in
      Forall (image_of f) (omap image (events m e1)) ∧
      (result m e1 = WEBRTC_VIDEO_CODEC_OK → Forall (λ i, a cb i = true) (omap image (events m e1))) ∧
      shell_configured (exec m e1) = (Some (frame_width f, frame_height f), Some cb)) as Hpic.
    { intros e1 Hw1 Hh1 Hi1 Hcb1. cbv zeta.
      destruct (shell_picture_run a f ft e1) as (r & imgs & Hrun & H1 & H2 & _). unfold exec, events, result, shell_configured.
      rewrite Hrun. destruct (ToI420 f) as [p|]; simpl; rewrite Hi1, Hw1, Hh1, Hcb1; [|by split_and!].
      pose proof (encode_quiet p (frame_width f) (frame_height f) (frames_in_ e1) (wants_key ft) (impl_ e1)) as Hq.
      rewrite omap_app, Hq, shell_images_omap. split_and!; [by apply H1|by intros Hr; apply H2|done]. }
    unfold Shell_Encode, exec, events, result. rewrite get_run, Hi, Hcb. simpl. unfold mbind, eff_bind.
    rewrite (shell_resize_run f e Hw Hh). unfold same_size.
    destruct ((frame_width f =? width_ e) && (frame_height f =? height_ e)) eqn:Hsz.
    { apply andb_true_iff in Hsz as [H1%Z.eqb_eq H2%Z.eqb_eq].
      destruct (Hpic e (eq_sym H1) (eq_sym H2) Hi Hcb) as (P1 & P2 & P3). unfold exec, events, result in *.
      simpl. destruct (Shell_encode_picture a f ft e) as [[r e'] es]. simpl in *. split_and!; [done..|]. left. exact P3. }
    pose proof (destroy_quiet (impl_ e)) as Hd.
    destruct (codec_type_of (config_ e)) as [ty|]; simpl.
    2:{ unfold mret, eff_ret. simpl. rewrite app_nil_r. split_and!; [by rewrite Hd|done|]. right. by split_and!. }
    set (i1 := exec Destroy (impl_ e)).
    pose proof (initialize_quiet (config_ e) (frame_width f) (frame_height f) ty i1) as Hq.
    destruct (result (Initialize _ _ _ _) i1).
    2:{ simpl. unfold mret, eff_ret. simpl. rewrite app_nil_r, omap_app, Hd, Hq. split_and!; [done|done|]. right. by split_and!. }
    simpl. set (e1 := _ <| callback_ := callback_ e |>).
    destruct (Hpic e1) as (P1 & P2 & P3); [done..|]. unfold exec, events, result in P1, P2, P3.
    destruct (Shell_encode_picture a f ft e1) as [[r e'] es]. simpl in *.
    unfold exec, events in Hd, Hq. unfold events. rewrite !omap_app, Hd, Hq. split_and!; [done..|]. left. exact P3.
  - intros c e. do 2 eexists; split; [reflexivity|]. done.
  - intros e. cbn [Release Shell]. unfold exec, events, result. rewrite shell_release_run. simpl.
    split_and!; [done|apply destroy_quiet|done].
  - intros p e. cbn [SetRates Shell]. unfold Shell_SetRates, exec, events. rewrite get_run. unfold shell_configured.
    destruct (initialized_ e) eqn:Hi; simpl; [|by rewrite Hi]. rewrite mod_run. unfold mbind, eff_bind. rewrite on_impl_run.
    unfold mret, eff_ret. simpl. rewrite app_nil_r, Hi. split; [done|]. apply reconfigure_quiet.
Defined.

(** ** Sessions *)

(** The library is as the shell left it. *)
Definition in_hand (e : shell C I) (l : library) : Prop :=
  0 ≤ frames_in_ e ∧ in_session (session (impl_ e)) (frames_in_ e) l.
(** libwebrtc releases an encoder before it initialises it again. *)
Definition shell_allowed (c : call) (e : shell C I) : bool :=
  match c with
  | CallInit _ _ => bool_decide (session (impl_ e) = None)
  | CallEncode f _ => (0 <? frame_width f) && (0 <? frame_height f)
  | _ => true
  end.

Lemma in_session_le h b b' l : b ≤ b' → in_session h b l → in_session h b' l.
Proof. destruct h as [h|]; [|done]. intros Hb (next & -> & Hn). exists next. split; [done|lia]. Qed.

(** Runs that go from one library state to the next. *)
Definition advances (l : library) (es : list event) (e' : shell C I) : Prop :=
  ∃ l', library_run l es = Some l' ∧ in_hand e' l'.

Lemma destroy_advances e l : in_hand e l →
  session (exec Destroy (impl_ e)) = None ∧ library_run l (events Destroy (impl_ e)) = Some None.
Proof.
  intros [_ Hs]. destruct (destroy_law (impl_ e) l _ Hs) as (i' & es & H1 & H2 & H3).
  unfold exec, events. by rewrite H1.
Qed.
Lemma initialize_advances c w h ty i : session i = None →
  ∃ l, library_run None (events (Initialize c w h ty) i) = Some l ∧
    in_session (session (exec (Initialize c w h ty) i)) 0 l.
Proof.
  intros Hs. destruct (initialize_law c w h ty i Hs) as (b & i' & es & H1 & _ & l & H2 & H3).
  exists l. unfold exec, events. by rewrite H1.
Qed.

Lemma picture_advances a f ft e l : in_hand e l →
  advances l (events (Shell_encode_picture a f ft) e) (exec (Shell_encode_picture a f ft) e).
Proof.
  intros [Hf Hs]. destruct (shell_picture_run a f ft e) as (r & imgs & Hrun & _).
  unfold exec, events. rewrite Hrun. destruct (ToI420 f) as [p|]; [|by exists l]. simpl.
  destruct (encode_law p (width_ e) (height_ e) (frames_in_ e) (wants_key ft) (impl_ e) l Hs)
    as (r' & i' & es & H1 & _ & H2 & l' & H3 & H4).
  exists l'. unfold exec, events. rewrite H1. simpl. rewrite (library_cut _ _ _ _ H3). split; [|split; simpl; [lia|done]].
  clear. induction imgs as [|i imgs IH]; [done|]. simpl. destruct l' as [[]|]; exact IH.
Qed.

Lemma resize_advances f e l : in_hand e l → 0 < frame_width f → 0 < frame_height f →
  advances l (events (Shell_resize f) e) (exec (Shell_resize f) e).
Proof.
  intros Hl Hw Hh. unfold exec, events. rewrite (shell_resize_run f e Hw Hh). cbv zeta.
  destruct (same_size f e); [by exists l|]. destruct (destroy_advances e l Hl) as [Hd Hdl]. destruct Hl as [Hf _].
  destruct (codec_type_of (config_ e)) as [ty|].
  - set (i1 := exec Destroy (impl_ e)) in *.
    destruct (initialize_advances (config_ e) (frame_width f) (frame_height f) ty i1 Hd) as (l' & H1 & H2).
    destruct (result _ i1); exists l'; simpl; rewrite (library_cut _ _ _ _ Hdl); (split; [done|]); split; simpl; try done.
    by apply (in_session_le _ 0).
  - exists None. simpl. split; [done|]. split; [done|]. simpl. by rewrite Hd.
Qed.

Lemma advances_then l es1 es2 e1 e2 : advances l es1 e1 → (∀ l1, in_hand e1 l1 → advances l1 es2 e2) →
  advances l (es1 ++ es2) e2.
Proof. intros (l1 & H1 & Hin) H2. destruct (H2 l1 Hin) as (l2 & H3 & H4). exists l2. by rewrite (library_cut _ _ _ _ H1). Qed.

Lemma shell_call_step a c e l : shell_allowed c e = true → in_hand e l →
  advances l (events (handle_call a c) e) (exec (handle_call a c) e).
Proof.
  intros Hc Hl. pose proof Hl as [Hf Hs].
  assert (∀ {A} (m : eff (shell C I) event A),
    events (m;; mret tt) e = events m e ∧ exec (m;; mret tt) e = exec m e) as Hret.
  { intros A m. unfold events, exec, mbind, eff_bind. destruct (m e) as [[r e'] es]. unfold mret, eff_ret. simpl.
    by rewrite app_nil_r. }
  destruct c as [cs st|f ft|cb| |p];
    cbn [handle_call InitEncode Encode RegisterEncodeCompleteCallback Release SetRates Shell];
    rewrite ?(proj1 (Hret _ _)), ?(proj2 (Hret _ _)).
  - simpl in Hc. apply bool_decide_eq_true in Hc. destruct (bad_settings cs) eqn:Hb.
    { pose proof (init_refuses cs st e Hb) as H. change (InitEncode cs st e) with (Shell_InitEncode cs st e) in H.
      unfold events, exec. rewrite H. by exists l. }
    destruct cs as [cs|]; [|done]. unfold exec, events. rewrite (shell_init_run cs st e Hb). cbv zeta.
    rewrite Hc in Hs. simpl in Hs. subst l.
    destruct (codec_type_of (config_ e)) as [ty|]; [|exists None; split; [done|]; split; [done|]; simpl; by rewrite Hc].
    destruct (initialize_advances (config_ e) (codec_width cs) (codec_height cs) ty (impl_ e) Hc) as (l' & H1 & H2).
    destruct (result _ (impl_ e)); exists l'; simpl; (split; [done|]); split; simpl; try done.
    by apply (in_session_le _ 0).
  - simpl in Hc. apply andb_true_iff in Hc as [Hw%Z.ltb_lt Hh%Z.ltb_lt]. unfold Shell_Encode.
    rewrite exec_get, events_get. destruct (_ || _); [by exists l|]. rewrite exec_bind, events_bind.
    eapply advances_then; [by apply resize_advances|]. intros l1 Hl1.
    destruct (negb _); [by exists l1|]. by apply picture_advances.
  - by exists l.
  - unfold exec, events. rewrite shell_release_run. destruct (destroy_advances e l Hl) as [Hd Hdl]. exists None.
    split; [exact Hdl|]. split; [done|]. simpl. by rewrite Hd.
  - unfold Shell_SetRates. rewrite exec_get, events_get. destruct (negb _); [by exists l|].
    cbv zeta. rewrite exec_mod, events_mod. unfold exec, events, mbind, eff_bind. rewrite on_impl_run.
    unfold mret, eff_ret. simpl. set (config := with_rates _ _ _).
    destruct (reconfigure_law config (impl_ e) l _ Hs) as (b & i' & es & H1 & _ & H2 & H3).
    exists l. unfold exec, events. rewrite H1. simpl. rewrite app_nil_r. split; [done|]. split; [done|]. simpl. by rewrite H2.
Qed.

(** *** Images *)

(** An encoder that is initialised knows its codec. *)
Definition codec_known (e : shell C I) : Prop := initialized_ e = true → is_Some (codec_type_of (config_ e)).

Lemma release_codec : preserves codec_known (Shell_Release : eff (shell C I) event code).
Proof. intros e _. unfold exec. rewrite shell_release_run. done. Qed.
Lemma init_codec cs st : preserves codec_known (Shell_InitEncode cs st : eff (shell C I) event code).
Proof.
  intros e He. destruct (bad_settings cs) eqn:Hb.
  { pose proof (init_refuses cs st e Hb) as H. change (InitEncode cs st e) with (Shell_InitEncode cs st e) in H.
    unfold exec. by rewrite H. }
  destruct cs as [cs|]; [|done]. unfold exec. rewrite (shell_init_run cs st e Hb). cbv zeta. unfold codec_known in *.
  destruct (codec_type_of (config_ e)) as [ty|] eqn:Hc; [|by simpl; rewrite Hc].
  destruct (result _ _); simpl; rewrite Hc; by eexists.
Qed.
Lemma picture_codec a f ft : preserves codec_known (Shell_encode_picture a f ft : eff (shell C I) event code).
Proof.
  intros e He. destruct (shell_picture_run a f ft e) as (r & imgs & Hrun & _). unfold exec. rewrite Hrun.
  by destruct (ToI420 f).
Qed.
Lemma resize_codec f : preserves codec_known (Shell_resize f : eff (shell C I) event bool).
Proof.
  apply preserves_bind; [apply preserves_get|]. intros e. case_match; [|apply preserves_ret].
  apply preserves_bind; [apply release_codec|intros _]. apply preserves_bind; [apply init_codec|intros r].
  case_match; [|apply preserves_ret]. apply preserves_bind; [by intros x|intros _; apply preserves_ret].
Qed.
Lemma call_codec a c : preserves codec_known (handle_call a c : eff (shell C I) event unit).
Proof.
  destruct c; cbn [handle_call InitEncode Encode RegisterEncodeCompleteCallback Release SetRates Shell];
    try (apply preserves_bind; [|intros _; apply preserves_ret]).
  - apply init_codec.
  - apply preserves_bind; [apply preserves_get|]. intros e. case_match; [apply preserves_ret|].
    apply preserves_bind; [apply resize_codec|intros ok]. case_match; [apply preserves_ret|]. apply picture_codec.
  - by intros e.
  - apply release_codec.
  - intros e He. unfold Shell_SetRates. rewrite exec_get. destruct (negb _); [exact He|]. cbv zeta. rewrite exec_mod.
    unfold exec, mbind, eff_bind. rewrite on_impl_run. unfold mret, eff_ret, codec_known in *. simpl.
    by rewrite rates_keep_codec.
Qed.
Lemma run_codec a calls : preserves codec_known (run (handle_call a) calls : eff (shell C I) event unit).
Proof.
  unfold run. induction calls as [|c calls IH]; [apply preserves_ret|]. rewrite fmap_cons. cbn [eseq].
  apply preserves_bind; [apply call_codec|by intros _].
Qed.

(** What the backend gives for a picture is handed to the callback, whose answer
    is the encoder's. *)
Definition sends (a : answers) (e : shell C I) : Prop := ∀ f ft cb p b k,
  initialized_ e = true → callback_ e = Some cb → 0 < frame_width f → 0 < frame_height f →
  result (Shell_resize f) e = true → ToI420 f = Some p →
  let e1 := exec (Shell_resize f) e in
  result (impl_Encode p (frame_width f) (frame_height f) (frames_in_ e1) (wants_key ft)) (impl_ e1) = Some (b, k) →
  b ≠ [] →
  ∃ img, omap image (events (Shell_Encode a f ft) e) = [img] ∧ image_of f img ∧ EncodedData img = b ∧
    _frameType img = (if k then kVideoFrameKey else kVideoFrameDelta) ∧
    result (Shell_Encode a f ft) e = if a cb img then WEBRTC_VIDEO_CODEC_OK else WEBRTC_VIDEO_CODEC_ERROR.

(** What a picture's frame is encoded with after a possible restart. *)
Lemma resized f e : 0 < frame_width f → 0 < frame_height f → initialized_ e = true →
  result (Shell_resize f) e = true →
  let e1 := exec (Shell_resize f) e in
  width_ e1 = frame_width f ∧ height_ e1 = frame_height f ∧ callback_ e1 = callback_ e ∧ initialized_ e1 = true ∧
  omap image (events (Shell_resize f) e) = [].
Proof.
  intros Hw Hh Hi. unfold result, exec, events. rewrite (shell_resize_run f e Hw Hh). cbv zeta. unfold same_size.
  destruct (_ && _) eqn:Hsz.
  { apply andb_true_iff in Hsz as [H1%Z.eqb_eq H2%Z.eqb_eq]. by rewrite H1, H2. }
  destruct (codec_type_of (config_ e)) as [ty|]; [|done].
  pose proof (destroy_quiet (impl_ e)) as Hd.
  pose proof (initialize_quiet (config_ e) (frame_width f) (frame_height f) ty (exec Destroy (impl_ e))) as Hq.
  unfold result, exec, events in *. destruct (Initialize _ _ _ _ _) as [[[] ?] ?]; [|done]. simpl in *.
  by rewrite omap_app, Hd, Hq.
Qed.

Lemma known_sends a e : codec_known e → sends a e.
Proof.
  intros He f ft cb p b k Hi Hcb Hw Hh Hok Hp. cbv zeta. intros Hb Hne.
  destruct (resized f e Hw Hh Hi Hok) as (R1 & R2 & R3 & R4 & R5).
  pose proof (resize_codec f e He) as [ty Hty]; [done|]. set (e1 := exec (Shell_resize f) e) in *.
  assert (Hpic : Shell_encode_picture a f ft e1 =
    let m := impl_Encode p (frame_width f) (frame_height f) (frames_in_ e1) (wants_key ft) in
    let e2 := e1 <| frames_in_ := frames_in_ e1 + 1 |> <| impl_ := exec m (impl_ e1) |> in
    let img := shell_image e2 f b k ty in
    (if a cb img then WEBRTC_VIDEO_CODEC_OK else WEBRTC_VIDEO_CODEC_ERROR, e2,
     (events m (impl_ e1) ++ [OnEncodedImage img])%list)).
  { unfold Shell_encode_picture. rewrite Hp, get_run, mod_run. unfold mbind, eff_bind. rewrite on_impl_run. simpl.
    rewrite R1, R2, Hb, bool_decide_false by done. rewrite Hty, R3, Hcb.
    unfold emit, mret, eff_ret, shell_image. simpl. by rewrite R1, R2. }
  cbv zeta in Hpic. eexists. unfold Shell_Encode. rewrite events_get, Hi, Hcb. cbn [negb orb].
  rewrite bool_decide_true by done. cbn [negb]. rewrite events_bind, Hok. cbn [negb]. fold e1.
  assert (Hr : result (Shell_Encode a f ft) e = result (Shell_encode_picture a f ft) e1).
  { unfold Shell_Encode. rewrite result_bind. change (result eget e) with e. change (exec eget e) with e.
    rewrite Hi, Hcb, bool_decide_true by done. cbn [negb orb]. by rewrite result_bind, Hok. }
  unfold Shell_Encode in Hr. rewrite Hr. unfold result, events at 2. rewrite Hpic. cbn [fst snd].
  rewrite !omap_app, R5, encode_quiet. split; [reflexivity|]. split_and!; try done.
Qed.

(** C32. When libwebrtc initialises an encoder only while it has no session, as it
    does by releasing it before, and gives it frames that are not empty, a
    shell opens the sessions of its library one after the other, feeds each one
    increasing timestamps and closes each before the next, so that after the
    last release none is open; and whenever the backend gives bytes for a frame
    it is sent, exactly one image with these bytes is handed to the callback. *)
Theorem shell_sessions_closed config i a calls : session i = None →
  let e0 := new_shell config i in
  all_enabled shell_allowed (handle_call a) calls e0 = true →
  library_run None (events (run (handle_call a) (calls ++ [CallRelease])) e0) = Some None ∧
  session (impl_ (exec (run (handle_call a) (calls ++ [CallRelease])) e0)) = None ∧
  sends a (exec (run (handle_call a) calls) e0).
Proof.
  intros Hi e0 Hok.
  assert (∀ calls e l, in_hand e l → all_enabled shell_allowed (handle_call a) calls e = true →
    advances l (events (run (handle_call a) calls) e) (exec (run (handle_call a) calls) e)) as H.
  { clear. intros calls. unfold run. induction calls as [|c calls IH]; intros e l Hl Hok; [by exists l|].
    simpl in Hok. apply andb_true_iff in Hok as [Hc Hok]. rewrite fmap_cons. cbn [eseq].
    rewrite exec_bind, events_bind. eapply advances_then; [by apply shell_call_step|]. intros l1 Hl1. by apply IH. }
  destruct (H calls e0 None) as (l & H1 & H2); [split; [done|]; simpl; by rewrite Hi|done|].
  destruct (run_app (handle_call a) calls [CallRelease] e0) as [-> ->].
  rewrite (library_cut _ _ _ _ H1). set (e := exec (run (handle_call a) calls) e0) in *.
  destruct (destroy_advances e l H2) as [Hd Hdl].
  assert (run (handle_call a) [CallRelease] e = (tt, (e <| impl_ := exec Destroy (impl_ e) |>
    <| initialized_ := false |> <| callback_ := None |>), events Destroy (impl_ e))) as Hr.
  { rewrite run_one. cbn [handle_call Release Shell]. unfold mbind, eff_bind. rewrite shell_release_run.
    unfold mret, eff_ret. by rewrite app_nil_r. }
  unfold exec at 1, events at 1. rewrite Hr. split_and!; [exact Hdl|exact Hd|]. by apply known_sends, run_codec.
Qed.
End contract.
