(* ===== verification/SvtAv1Encoder.v ===== *)
(** * The AV1 encoder (capture/encoder/svtav1_encoder.{h,cc}, with SVT-AV1)

    The class [SvtAv1Encoder::Impl] as a backend of the shell of
    [ShellEncoder].  [SvtAv1] is the library.  Draining the last packets of a
    session, which are discarded, is left to it. *)

From Stdlib Require Import ZArith Lia Ascii String SpecFloat.
From stdpp Require Import base tactics numbers option list.
From S2P Require Import Prelude Numbers VideoEncoder ShellEncoder.
Open Scope Z_scope.

(** [EbSvtAv1EncConfiguration]: the fields the encoder sets, and the rest. *)
Record EbSvtAv1EncConfiguration (rest : Type) := mkSvt {
  source_width : Z;
  source_height : Z;
  frame_rate_numerator : Z;
  frame_rate_denominator : Z;
  enc_mode : Z;
  encoder_bit_depth : Z;
  profile : Z;
  hierarchical_levels : Z;
  pred_structure : Z;
  look_ahead_distance : Z;
  enable_tpl_la : Z;
  scene_change_detection : Z;
  rate_control_mode : Z;
  target_bit_rate : Z;
  max_bit_rate : Z;
  maximum_buffer_size_ms : Z;
  starting_buffer_level_ms : Z;
  optimal_buffer_level_ms : Z;
  max_qp_allowed : Z;
  min_qp_allowed : Z;
  intra_period_length : Z;
  forward_key_frames : bool;       (* intra_refresh_type *)
  screen_content_mode : Z;
  svt_tune : Z;
  logical_processors : Z;
  tile_rows : Z;
  tile_columns : Z;
  others : rest;
}.
Arguments mkSvt {_}.
Arguments others {_}.
Arguments target_bit_rate {_}.
Arguments frame_rate_numerator {_}.

(** What [svt_av1_enc_get_packet] gives. *)
Inductive packet_result :=
| Packet (bytes : list Z) (is_key : bool)
| EmptyQueue
| NoPacket.

Class SvtAv1 {W : WebrtcLib} := {
  svt_rest : Type;
  EbComponentType : Type;
  svt_av1_enc_init_handle : option (EbComponentType * EbSvtAv1EncConfiguration svt_rest);
  svt_av1_enc_set_parameter : EbComponentType → EbSvtAv1EncConfiguration svt_rest → bool * EbComponentType;
  svt_av1_enc_init : EbComponentType → bool * EbComponentType;
  (** picture, size, timestamp, whether a key picture is asked *)
  svt_av1_enc_send_picture : EbComponentType → I420Buffer → Z → Z → Z → bool → bool * EbComponentType;
  svt_av1_enc_get_packet : EbComponentType → packet_result * EbComponentType;
  (** [std::thread::hardware_concurrency()] *)
  hardware_concurrency : Z;
}.

Record SvtAv1EncoderConfig := mkConfig {
  target_bitrate_bps : Z;
  framerate : Z;
  intra_refresh_period_frames : Z;
  config_profile : Z;
  preset_m : Z;
  tune : string;
  num_threads : Z;
  low_latency_tag : bool;
}.
#[export] Instance eta_config : Eta SvtAv1EncoderConfig := λ s,
  mkConfig (target_bitrate_bps s) (framerate s) (intra_refresh_period_frames s) (config_profile s) (preset_m s)
    (tune s) (num_threads s) (low_latency_tag s).
Definition default_config : SvtAv1EncoderConfig := mkConfig 4000000 30 60 0 8 "VQ" 0 true.

Definition ResolveTune (tune : string) : Z :=
  if String.eqb tune "PSNR" then 1 else if String.eqb tune "SSIM" then 2 else 0.

(** [static_cast<uint32_t>] *)
Definition uint32 (z : Z) : Z := z mod 2 ^ 32.

Section backend.
Context {W : WebrtcLib} {X : SvtAv1}.
Abbreviation svt_cfg := (EbSvtAv1EncConfiguration svt_rest).

Record Impl := mkImpl {
  handle_ : option (nat * EbComponentType);
  svt_cfg_ : option svt_cfg;         (* what the library initialised it to, then *)
  running_ : bool;
  next_handle : nat;
}.
#[export] Instance eta_impl : Eta Impl := λ s, mkImpl (handle_ s) (svt_cfg_ s) (running_ s) (next_handle s).
Definition new_Impl : Impl := mkImpl None None false 0.

Definition processors (config : SvtAv1EncoderConfig) : Z :=
  if 0 <? num_threads config then uint32 (num_threads config)
  else Z.max 1 (if 1 <? hardware_concurrency then hardware_concurrency - 1 else hardware_concurrency).

Definition configured_for (config : SvtAv1EncoderConfig) (width height : Z) (c : svt_cfg) : svt_cfg :=
  let rate := uint32 (target_bitrate_bps config) in
  mkSvt (uint32 width) (uint32 height) (uint32 (Z.max 1 (framerate config))) 1
    (Z.max 0 (Z.min (preset_m config) 13)) 8 (config_profile config) 0 0 0 0 0 2 rate rate 1000 1000 600 63 1
    (-1) true 1 (ResolveTune (tune config)) (processors config) 0 0 (others c).

Definition Impl_Initialize (config : SvtAv1EncoderConfig) (width height : Z) (_ : VideoCodecType)
    : eff Impl event bool :=
  match svt_av1_enc_init_handle with
  | None => mret false
  | Some (x, c) =>
      let c := configured_for config width height c in
      s ← eget;
      emit (Opened (next_handle s) width height);;
      emod (λ s, s <| handle_ := Some (next_handle s, x) |> <| svt_cfg_ := Some c |>
                   <| next_handle := S (next_handle s) |>);;
      let '(ok, x) := svt_av1_enc_set_parameter x c in
      emod (λ s', s' <| handle_ := Some (next_handle s, x) |>);;
      if negb ok then mret false
      else
        let '(ok, x) := svt_av1_enc_init x in
        emod (λ s', s' <| handle_ := Some (next_handle s, x) |>);;
        if negb ok then mret false
        else emod (λ s, s <| running_ := true |>);; mret true
  end.

Definition Impl_Encode (i420 : I420Buffer) (width height pts : Z) (force_idr : bool)
    : eff Impl event (option (list Z * bool)) :=
  s ← eget;
  match handle_ s with
  | Some (h, x) =>
      if negb (running_ s) then mret None
      else
        let '(ok, x) := svt_av1_enc_send_picture x i420 (uint32 width) (uint32 height) pts force_idr in
        emod (λ s, s <| handle_ := Some (h, x) |>);;
        emit (Fed h pts force_idr);;
        if negb ok then mret None
        else
          let '(r, x) := svt_av1_enc_get_packet x in
          emod (λ s, s <| handle_ := Some (h, x) |>);;
          match r with
          | EmptyQueue => mret (Some ([], false))
          | NoPacket => mret None
          | Packet bytes key => mret (Some (bytes, key))
          end
  | None => mret None   (* not running without a handle *)
  end.

Definition Impl_Reconfigure (config : SvtAv1EncoderConfig) : eff Impl event bool :=
  s ← eget;
  match handle_ s, svt_cfg_ s with
  | Some (h, x), Some c =>
      if negb (running_ s) then mret false
      else
        let rate := uint32 (target_bitrate_bps config) in
        let fps := uint32 (Z.max 1 (framerate config)) in
        let c := mkSvt (source_width _ c) (source_height _ c) fps (frame_rate_denominator _ c) (enc_mode _ c)
          (encoder_bit_depth _ c) (profile _ c) (hierarchical_levels _ c) (pred_structure _ c)
          (look_ahead_distance _ c) (enable_tpl_la _ c) (scene_change_detection _ c) (rate_control_mode _ c)
          rate rate (maximum_buffer_size_ms _ c) (starting_buffer_level_ms _ c) (optimal_buffer_level_ms _ c)
          (max_qp_allowed _ c) (min_qp_allowed _ c) (intra_period_length _ c) (forward_key_frames _ c)
          (screen_content_mode _ c) (svt_tune _ c) (logical_processors _ c) (tile_rows _ c) (tile_columns _ c)
          (others c) in
        let '(ok, x) := svt_av1_enc_set_parameter x c in
        emit (Tuned h rate fps);;
        emod (λ s, s <| svt_cfg_ := Some c |> <| handle_ := Some (h, x) |>);;
        mret ok
  | _, _ => mret false
  end.

Definition Impl_Destroy : eff Impl event unit :=
  s ← eget;
  match handle_ s with
  | None => mret tt
  | Some (h, _) =>
      ewhen (running_ s) (emod (λ s, s <| running_ := false |>));;
      emit (Closed h);;
      emod (λ s, s <| handle_ := None |>)
  end.

#[export] Instance SvtAv1_backend : Backend SvtAv1EncoderConfig Impl := {|
  codec_type_of _ := Some kVideoCodecAV1;
  with_rates r f c := c <| target_bitrate_bps := r |> <| framerate := f |>;
  Initialize := Impl_Initialize;
  impl_Encode := Impl_Encode;
  Reconfigure := Impl_Reconfigure;
  Destroy := Impl_Destroy;
|}.

(** [ProbeAvailable]: a handle can be made; it is unmade. *)
Definition ProbeAvailable : bool := bool_decide (is_Some svt_av1_enc_init_handle).

#[export] Instance SvtAv1_backend_laws : BackendLaws SvtAv1EncoderConfig Impl.
Proof.
  apply (simple_backend (λ i : Impl, fst <$> handle_ i));
    cbn [Initialize impl_Encode Reconfigure Destroy with_rates codec_type_of SvtAv1_backend].
  - intros c w h ty i. unfold Impl_Initialize. destruct svt_av1_enc_init_handle as [[x cfg]|].
    + run_eff. destruct (svt_av1_enc_set_parameter x _) as [[] x1]; simpl; [destruct (svt_av1_enc_init x1) as [[] x2]|];
        (do 3 eexists; split; [reflexivity|]); right; by eexists.
    + do 3 eexists; split; [reflexivity|]. by left.
  - intros p w h pts key i. unfold Impl_Encode. rewrite get_run.
    destruct (handle_ i) as [[n x]|] eqn:Hx; [destruct (negb (running_ i))|].
    + do 3 eexists; split; [reflexivity|]. rewrite Hx. split; [done|by left].
    + destruct (svt_av1_enc_send_picture x p _ _ pts key) as [[] x1]; run_eff;
        [destruct (svt_av1_enc_get_packet x1) as [[] x2]|];
        (do 3 eexists; split; [reflexivity|]); simpl; (split; [done|]); right; by exists n.
    + do 3 eexists; split; [reflexivity|]. rewrite Hx. split; [done|by left].
  - intros c i. unfold Impl_Reconfigure. rewrite get_run.
    destruct (handle_ i) as [[n x]|] eqn:Hx, (svt_cfg_ i) as [cfg|];
      try (do 3 eexists; split; [reflexivity|]; rewrite Hx; split; [done|by left]).
    destruct (negb (running_ i)); [do 3 eexists; split; [reflexivity|]; rewrite Hx; split; [done|by left]|].
    cbv zeta. destruct (svt_av1_enc_set_parameter x _) as [ok x1]. run_eff.
    do 3 eexists; split; [reflexivity|]. simpl. split; [done|]. right. by do 3 eexists.
  - intros i. unfold Impl_Destroy. rewrite get_run. destruct (handle_ i) as [[n x]|] eqn:Hx.
    + destruct (running_ i); run_eff; (do 2 eexists; split; [reflexivity|]); by split.
    + do 2 eexists; split; [reflexivity|]. by rewrite Hx.
  - done.
Defined.
End backend.
