(* ===== verification/NvencEncoder.v ===== *)
(** * The NVENC encoder (capture/encoder/nvenc_encoder.{h,cc}, with CUDA and NVENC)

    The class [NvencEncoder::Impl] as a backend of the shell of [ShellEncoder].
    [Nvenc] is the driver.  [live] are the things it has made and not unmade:
    CUDA contexts and the buffers of a session. *)

From Stdlib Require Import ZArith Lia Ascii String SpecFloat.
From stdpp Require Import base tactics numbers option sets list.
From S2P Require Import Prelude Numbers VideoEncoder ShellEncoder.
Open Scope Z_scope.

Inductive tuning_info := ULTRA_LOW_LATENCY | LOW_LATENCY | HIGH_QUALITY | LOSSLESS.

(** The parts of [NV_ENC_CONFIG] and [NV_ENC_INITIALIZE_PARAMS] the encoder
    sets, with the rest of the preset's configuration; the lengths of groups of
    pictures are infinite. *)
Record nv_params (rest : Type) := mkParams {
  frameIntervalP : Z;
  rc_cbr : bool;
  averageBitRate : Z;
  maxBitRate : Z;
  vbvBufferSize : Z;
  vbvInitialDelay : Z;
  intraRefreshPeriod : Z;
  intraRefreshCnt : Z;
  encodeCodec : VideoCodecType;
  preset_number : Z;
  tuningInfo : tuning_info;
  encodeWidth : Z;
  encodeHeight : Z;
  frameRateNum : Z;
  others : rest;
}.
Arguments mkParams {_}.
Arguments others {_}.

Inductive picture_status := NV_ENC_SUCCESS | NV_ENC_ERR_NEED_MORE_INPUT | NV_ENC_FAILED.

Class Nvenc {W : WebrtcLib} := {
  nv_rest : Type;
  nv_session : Type;
  cuInit : bool;
  cuDeviceGet : bool;
  cuCtxCreate : bool;
  NvEncodeAPICreateInstance : bool;
  nvEncOpenEncodeSessionEx : option nv_session;
  nvEncGetEncodePresetConfigEx : nv_session → VideoCodecType → Z → tuning_info → option nv_rest;
  nvEncInitializeEncoder : nv_session → nv_params nv_rest → bool * nv_session;
  nvEncCreateInputBuffer : nv_session → bool * nv_session;
  nvEncCreateBitstreamBuffer : nv_session → bool * nv_session;
  nvEncLockInputBuffer : nv_session → bool * nv_session;
  (** picture, size, timestamp, whether an IDR picture is forced *)
  nvEncEncodePicture : nv_session → I420Buffer → Z → Z → Z → bool → picture_status * nv_session;
  (** the bytes, and whether they are an IDR or I picture *)
  nvEncLockBitstream : nv_session → option (list Z * bool) * nv_session;
  nvEncReconfigureEncoder : nv_session → nv_params nv_rest → bool * nv_session;
}.

Record NvencEncoderConfig := mkConfig {
  codec_type : string;
  target_bitrate_bps : Z;
  framerate : Z;
  intra_refresh_period_frames : Z;
  profile_level_id : string;
  preset : string;
  tuning : string;
  low_latency_tag : bool;
}.
#[export] Instance eta_config : Eta NvencEncoderConfig := λ s,
  mkConfig (codec_type s) (target_bitrate_bps s) (framerate s) (intra_refresh_period_frames s)
    (profile_level_id s) (preset s) (tuning s) (low_latency_tag s).
Definition default_config : NvencEncoderConfig :=
  mkConfig "H264" 4000000 30 60 "42e01f" "P3" "LOW_LATENCY" true.

Definition ResolveCodecType (codec_type : string) : option VideoCodecType :=
  if String.eqb codec_type "H264" then Some kVideoCodecH264
  else if String.eqb codec_type "HEVC" then Some kVideoCodecH265
  else if String.eqb codec_type "AV1" then Some kVideoCodecAV1
  else None.

Definition ResolvePresetGuid (preset : string) : option Z :=
  if String.eqb preset "P1" then Some 1
  else if String.eqb preset "P2" then Some 2
  else if String.eqb preset "P3" then Some 3
  else if String.eqb preset "P4" then Some 4
  else if String.eqb preset "P5" then Some 5
  else if String.eqb preset "P6" then Some 6
  else if String.eqb preset "P7" then Some 7
  else None.

Definition ResolveTuning (tuning : string) : tuning_info :=
  if String.eqb tuning "ULTRA_LOW_LATENCY" then ULTRA_LOW_LATENCY
  else if String.eqb tuning "HIGH_QUALITY" then HIGH_QUALITY
  else if String.eqb tuning "LOSSLESS" then LOSSLESS
  else LOW_LATENCY.

Definition uint32 (z : Z) : Z := z mod 2 ^ 32.

Inductive resource := CudaContext (n : nat) | InputBuffer (n : nat) | BitstreamBuffer (n : nat).
#[export] Instance resource_eq_dec : EqDecision resource.
Proof. solve_decision. Defined.

Definition kPoolDepth : nat := 4.

Section backend.
Context {W : WebrtcLib} {X : Nvenc}.

Record Impl := mkImpl {
  encoder_ : option (nat * nv_session);
  cu_context_ : option nat;
  params_ : option (nv_params nv_rest);
  output_buffers_ : list nat;
  input_buffers_ : list nat;
  buffer_index_ : Z;
  live : list resource;
  fresh : nat;
}.
#[export] Instance eta_impl : Eta Impl := λ s,
  mkImpl (encoder_ s) (cu_context_ s) (params_ s) (output_buffers_ s) (input_buffers_ s) (buffer_index_ s)
    (live s) (fresh s).
(** An [Impl] in a process where [live] is alive. *)
Definition new_Impl (live : list resource) (fresh : nat) : Impl := mkImpl None None None [] [] 0 live fresh.

Definition make (r : nat → resource) : eff Impl event nat :=
  s ← eget;
  emod (λ s, s <| live := r (fresh s) :: live s |> <| fresh := S (fresh s) |>);;
  mret (fresh s).
Definition unmake (r : resource) : eff Impl event unit :=
  emod (λ s, s <| live := filter (λ x, x ≠ r) (live s) |>).
(** The session after a call on it. *)
Definition session_is (x : nv_session) : eff Impl event unit :=
  emod (λ s, s <| encoder_ := match encoder_ s with Some (h, _) => Some (h, x) | None => None end |>).

Definition nv_params_for (config : NvencEncoderConfig) (ty : VideoCodecType) (p : Z) (width height : Z)
    (rest : nv_rest) : nv_params nv_rest :=
  let rate := uint32 (target_bitrate_bps config) in
  mkParams 1 true rate rate rate rate (uint32 (intra_refresh_period_frames config))
    (Z.max 1 (uint32 (intra_refresh_period_frames config) / 4)) ty p (ResolveTuning (tuning config))
    (uint32 width) (uint32 height) (uint32 (Z.max 1 (framerate config))) rest.

(** The pool of input and output buffers; false at the first failure. *)
Fixpoint create_buffers (n : nat) (x : nv_session) : eff Impl event bool :=
  match n with
  | O => mret true
  | S n' =>
      let '(ok, x) := nvEncCreateInputBuffer x in
      session_is x;;
      if negb ok then mret false
      else
        b ← make InputBuffer;
        emod (λ s, s <| input_buffers_ := (input_buffers_ s ++ [b])%list |>);;
        let '(ok, x) := nvEncCreateBitstreamBuffer x in
        session_is x;;
        if negb ok then mret false
        else
          b ← make BitstreamBuffer;
          emod (λ s, s <| output_buffers_ := (output_buffers_ s ++ [b])%list |>);;
          create_buffers n' x
  end.

(** [Initialize], once the session is open. *)
Definition setup_session (config : NvencEncoderConfig) (width height : Z) (x : nv_session) : eff Impl event bool :=
  match ResolveCodecType (codec_type config), ResolvePresetGuid (preset config) with
  | Some ty, Some p =>
      match nvEncGetEncodePresetConfigEx x ty p (ResolveTuning (tuning config)) with
      | None => mret false
      | Some rest =>
          let params := nv_params_for config ty p width height rest in
          emod (λ s, s <| params_ := Some params |>);;
          let '(ok, x) := nvEncInitializeEncoder x params in
          session_is x;;
          if negb ok then mret false else create_buffers kPoolDepth x
      end
  | _, _ => mret false
  end.

Definition Impl_Initialize (config : NvencEncoderConfig) (width height : Z) (_ : VideoCodecType)
    : eff Impl event bool :=
  if negb cuInit then mret false
  else if negb cuDeviceGet then mret false
  else if negb cuCtxCreate then mret false
  else
    c ← make CudaContext;
    emod (λ s, s <| cu_context_ := Some c |>);;
    if negb NvEncodeAPICreateInstance then mret false
    else
      match nvEncOpenEncodeSessionEx with
      | None => mret false
      | Some x =>
          s ← eget;
          emit (Opened (fresh s) width height);;
          emod (λ s, s <| encoder_ := Some (fresh s, x) |> <| fresh := S (fresh s) |>);;
          setup_session config width height x
      end.

Definition Impl_Encode (i420 : I420Buffer) (width height pts : Z) (force_idr : bool)
    : eff Impl event (option (list Z * bool)) :=
  s ← eget;
  match encoder_ s with
  | None => mret None
  | Some (h, x) =>
      emod (λ s, s <| buffer_index_ := (buffer_index_ s + 1) mod 2 ^ 64 |>);;
      let '(ok, x) := nvEncLockInputBuffer x in
      session_is x;;
      if negb ok then mret None
      else
        emit (Fed h pts force_idr);;
        let '(status, x) := nvEncEncodePicture x i420 width height pts force_idr in
        session_is x;;
        match status with
        | NV_ENC_FAILED => mret None
        | NV_ENC_ERR_NEED_MORE_INPUT => mret (Some ([], false))
        | NV_ENC_SUCCESS =>
            let '(bs, x) := nvEncLockBitstream x in
            session_is x;;
            mret bs
        end
  end.

Definition Impl_Reconfigure (config : NvencEncoderConfig) : eff Impl event bool :=
  s ← eget;
  match encoder_ s, params_ s with
  | Some (h, x), Some c =>
      let rate := uint32 (target_bitrate_bps config) in
      let fps := uint32 (Z.max 1 (framerate config)) in
      let c := mkParams (frameIntervalP _ c) (rc_cbr _ c) rate rate rate rate (intraRefreshPeriod _ c)
        (intraRefreshCnt _ c) (encodeCodec _ c) (preset_number _ c) (tuningInfo _ c) (encodeWidth _ c)
        (encodeHeight _ c) fps (others c) in
      let '(ok, x) := nvEncReconfigureEncoder x c in
      emit (Tuned h rate fps);;
      emod (λ s, s <| params_ := Some c |> <| encoder_ := Some (h, x) |>);;
      mret ok
  | _, _ => mret false
  end.

Definition Impl_Destroy : eff Impl event unit :=
  s ← eget;
  match encoder_ s with
  | None => mret tt
  | Some (h, _) =>
      eseq ((λ b, unmake (InputBuffer b)) <$> input_buffers_ s);;
      eseq ((λ b, unmake (BitstreamBuffer b)) <$> output_buffers_ s);;
      emod (λ s, s <| input_buffers_ := [] |> <| output_buffers_ := [] |>);;
      emit (Closed h);;
      emod (λ s, s <| encoder_ := None |>);;
      match cu_context_ s with
      | Some c => unmake (CudaContext c);; emod (λ s, s <| cu_context_ := None |>)
      | None => mret tt
      end
  end.

#[export] Instance Nvenc_backend : Backend NvencEncoderConfig Impl := {|
  codec_type_of c := ResolveCodecType (codec_type c);
  with_rates r f c := c <| target_bitrate_bps := r |> <| framerate := f |>;
  Initialize := Impl_Initialize;
  impl_Encode := Impl_Encode;
  Reconfigure := Impl_Reconfigure;
  Destroy := Impl_Destroy;
|}.

(** The encoder itself: the shell over this [Impl]. *)
Definition NvencEncoder : Type := shell NvencEncoderConfig Impl.
Definition Nvenc_InitEncode (codec_settings : option VideoCodec) (settings : Settings)
    : eff NvencEncoder event code := Shell_InitEncode codec_settings settings.
Definition Nvenc_Encode (answer : answers) (frame : VideoFrame) (frame_types : option (list VideoFrameType))
    : eff NvencEncoder event code := Shell_Encode answer frame frame_types.
Definition Nvenc_RegisterEncodeCompleteCallback (callback : option nat) : eff NvencEncoder event code :=
  Shell_RegisterEncodeCompleteCallback callback.
Definition Nvenc_Release : eff NvencEncoder event code := Shell_Release.
Definition Nvenc_SetRates {U : Unspecified} (parameters : RateControlParameters) : eff NvencEncoder event unit :=
  Shell_SetRates parameters.

(** [NvencEncoder::ProbeAvailable], in a process where [live] is alive: a
    session is opened and destroyed by an [Impl] of its own. *)
Definition ProbeAvailable (codec_type : string) (process : list resource * nat) : bool * (list resource * nat) :=
  match ResolveCodecType codec_type with
  | None => (false, process)
  | Some ty =>
      let m := ok ← Impl_Initialize (mkConfig codec_type 4000000 30 60 "42e01f" "P3" "LOW_LATENCY" true) 160 120 ty;
               Impl_Destroy;;
               mret ok in
      let i := exec m (new_Impl process.1 process.2) in
      (result m (new_Impl process.1 process.2), (live i, fresh i))
  end.

(** ** Sessions *)

(** Calls that emit nothing and keep the session that is open. *)
Definition keeps_session (i : Impl) (es : list event) (i' : Impl) : Prop :=
  es = [] ∧ fst <$> encoder_ i' = fst <$> encoder_ i.
#[local] Instance keeps_session_rel : TraceRel keeps_session.
Proof. split; [done|]. intros i1 i2 i3 es1 es2 [-> H1] [-> H2]. split; [done|congruence]. Qed.

Ltac session_tac :=
  repeat first
    [ apply respects_ret, _
    | apply respects_get; intros ?
    | apply respects_bind; [apply _| |intros ?]
    | apply respects_mod; intros ?; by split
    | case_match ].
Lemma session_is_keeps x : respects keeps_session (session_is x).
Proof. apply respects_mod. intros i. split; [done|]. simpl. by destruct (encoder_ i) as [[? ?]|]. Qed.
Lemma make_keeps r : respects keeps_session (make r).
Proof. unfold make. session_tac. Qed.
Lemma create_buffers_keeps n x : respects keeps_session (create_buffers n x).
Proof.
  revert x. induction n as [|n IH]; intros x; [apply respects_ret, _|]. cbn [create_buffers].
  repeat first [ apply session_is_keeps | apply make_keeps | apply IH
    | apply respects_ret, _ | apply respects_bind; [apply _| |intros ?]
    | apply respects_mod; intros ?; by split | case_match ].
Qed.
Lemma setup_session_keeps config w h x : respects keeps_session (setup_session config w h x).
Proof.
  unfold setup_session. repeat first [ apply session_is_keeps | apply create_buffers_keeps
    | apply respects_ret, _ | apply respects_bind; [apply _| |intros ?]
    | apply respects_mod; intros ?; by split | case_match ].
Qed.

Lemma initialize_shape config w h ty i : ∃ b i' es, Impl_Initialize config w h ty i = (b, i', es) ∧
  (es = [] ∧ fst <$> encoder_ i' = fst <$> encoder_ i ∨ ∃ n, es = [Opened n w h] ∧ fst <$> encoder_ i' = Some n).
Proof.
  unfold Impl_Initialize.
  destruct (negb cuInit); [do 3 eexists; split; [reflexivity|by left]|].
  destruct (negb cuDeviceGet); [do 3 eexists; split; [reflexivity|by left]|].
  destruct (negb cuCtxCreate); [do 3 eexists; split; [reflexivity|by left]|].
  destruct (negb NvEncodeAPICreateInstance); [do 3 eexists; split; [reflexivity|by left]|].
  destruct nvEncOpenEncodeSessionEx as [x|]; [|do 3 eexists; split; [reflexivity|by left]].
  unfold make. run_eff.
  set (i1 := set_field _ _). destruct (setup_session_keeps config w h x i1) as [Hes Hs].
  unfold events, exec in *. destruct (setup_session config w h x i1) as [[b i'] es]. simpl in *. subst es.
  do 3 eexists; split; [reflexivity|]. right. eexists; split; [reflexivity|]. by rewrite Hs.
Qed.

Lemma unmake_all_run rs i : eseq (unmake <$> rs) i =
  (tt, i <| live := filter (λ x, x ∉ rs) (live i) |>, []).
Proof.
  revert i. induction rs as [|r rs IH]; intros i.
  - cbn [fmap list_fmap eseq]. unfold mret, eff_ret. f_equal. f_equal. destruct i. cbv [set_field]. simpl. f_equal.
    symmetry. apply (filter_every (λ x, x ∉ [])). intros x _. set_solver.
  - rewrite fmap_cons. cbn [eseq]. 
    etransitivity; [apply (mod_run (λ s, s <| live := filter (λ x, x ≠ r) (live s) |>))|].
    cbv beta. rewrite IH. f_equal. f_equal. destruct i. cbv [set_field]. simpl. f_equal.
    rewrite list_filter_filter. apply list_filter_iff. set_solver.
Qed.

(** What [Destroy] unmakes. *)
Definition held (i : Impl) : list resource :=
  (InputBuffer <$> input_buffers_ i) ++ (BitstreamBuffer <$> output_buffers_ i) ++
  (CudaContext <$> option_list (cu_context_ i)).
Lemma destroy_run i : ∃ i', Impl_Destroy i =
    (tt, i', match fst <$> encoder_ i with Some n => [Closed n] | None => [] end) ∧
  match encoder_ i with
  | None => i' = i
  | Some _ => encoder_ i' = None ∧ cu_context_ i' = None ∧ input_buffers_ i' = [] ∧ output_buffers_ i' = [] ∧
      fresh i' = fresh i ∧ live i' = filter (λ x, x ∉ held i) (live i)
  end.
Proof.
  unfold Impl_Destroy. rewrite get_run. destruct (encoder_ i) as [[n x]|] eqn:Hx; [|by eexists].
  assert (∀ (f : nat → resource) l, (λ b, unmake (f b)) <$> l = unmake <$> (f <$> l)) as Hf
    by (intros f l; by rewrite <-list_fmap_compose).
  rewrite (Hf InputBuffer), (Hf BitstreamBuffer). unfold mbind, eff_bind. rewrite !unmake_all_run.
  destruct i as [e c p o b bi l k]; simpl in *.
  assert (∀ (ctx : list resource), filter (λ y, y ∉ ctx) (filter (λ y, y ∉ BitstreamBuffer <$> o)
    (filter (λ y, y ∉ InputBuffer <$> b) l)) =
    filter (λ y, y ∉ (InputBuffer <$> b) ++ (BitstreamBuffer <$> o) ++ ctx) l) as Hl.
  { intros ctx. rewrite !list_filter_filter. apply list_filter_iff. intros y. rewrite !not_elem_of_app. tauto. }
  destruct c as [c|]; unfold emod, emit, unmake, mret, eff_ret; simpl; (eexists; split; [reflexivity|]);
    simpl; split_and!; try done; unfold held; simpl; rewrite <-Hl.
  - rewrite !list_filter_filter. apply list_filter_iff. intros y. rewrite list_elem_of_singleton. tauto.
  - symmetry. apply filter_every. intros y _. set_solver.
Qed.

#[export] Instance Nvenc_backend_laws : BackendLaws NvencEncoderConfig Impl.
Proof.
  apply (simple_backend (λ i : Impl, fst <$> encoder_ i));
    cbn [Initialize impl_Encode Reconfigure Destroy with_rates codec_type_of Nvenc_backend].
  - intros c w h ty i. destruct (initialize_shape c w h ty i) as (b & i' & es & H & [[-> Hs]|Hs]);
      (do 3 eexists; split; [exact H|]); [left; split; [done|by rewrite Hs]|by right].
  - intros p w h pts key i. unfold Impl_Encode. rewrite get_run. destruct (encoder_ i) as [[n x]|] eqn:Hx.
    2:{ do 3 eexists; split; [reflexivity|]. rewrite Hx. split; [done|by left]. }
    rewrite mod_run. unfold session_is.
    destruct (nvEncLockInputBuffer x) as [[] x1]; run_eff; rewrite ?Hx; simpl;
      [destruct (nvEncEncodePicture x1 p w h pts key) as [[] x2]; simpl; [destruct (nvEncLockBitstream x2) as [bs x3]|..]|];
      simpl; (do 3 eexists; split; [reflexivity|]); simpl; rewrite ?Hx; (split; [done|]);
      first [by left|right; by exists n].
  - intros c i. unfold Impl_Reconfigure. rewrite get_run. destruct (encoder_ i) as [[n x]|] eqn:Hx, (params_ i) as [cfg|];
      try (do 3 eexists; split; [reflexivity|]; rewrite Hx; split; [done|by left]).
    cbv zeta. destruct (nvEncReconfigureEncoder x _) as [ok x1]. run_eff.
    do 3 eexists; split; [reflexivity|]. simpl. split; [done|]. right. by do 3 eexists.
  - intros i. destruct (destroy_run i) as (i' & H1 & H2). do 2 eexists; split; [exact H1|]. split; [|done].
    destruct (encoder_ i) eqn:Hx; [by destruct H2 as [-> _]|]. subst i'. by rewrite Hx.
  - done.
Defined.

(** ** The contexts of probes *)

(** Everything alive is older than the next number, and different. *)
Definition number (r : resource) : nat :=
  match r with CudaContext n | InputBuffer n | BitstreamBuffer n => n end.

(** What setting up a session makes is held, and new. *)
Definition grows (i : Impl) (_ : list event) (i' : Impl) : Prop :=
  ∃ added, live i' = added ++ live i ∧ (∀ r, r ∈ added → r ∈ held i') ∧ (∀ r, r ∈ held i → r ∈ held i') ∧
    (fresh i ≤ fresh i')%nat ∧ ∀ r, r ∈ held i' → r ∈ held i ∨ (fresh i ≤ number r)%nat.
#[local] Instance grows_rel : TraceRel grows.
Proof.
  split.
  - intros i. exists []. split_and!; [done|set_solver|done|done|by left].
  - intros i1 i2 i3 es1 es2 (a1 & H1 & H2 & H3 & H4 & H5) (a2 & K1 & K2 & K3 & K4 & K5). exists (a2 ++ a1).
    rewrite K1, H1, app_assoc. split_and!; [done| |auto|lia|].
    + intros r [Hr|Hr]%elem_of_app; auto.
    + intros r [Hr|Hr]%K5; [|right; lia]. apply H5 in Hr. naive_solver lia.
Qed.

Lemma grows_same i es i' : live i' = live i → input_buffers_ i' = input_buffers_ i →
  output_buffers_ i' = output_buffers_ i → cu_context_ i' = cu_context_ i → (fresh i ≤ fresh i')%nat → grows i es i'.
Proof.
  intros H1 H2 H3 H4 H5. exists []. unfold held. rewrite H1, H2, H3, H4.
  split_and!; [done|set_solver|done|done|by left].
Qed.
Lemma session_is_grows x : respects grows (session_is x).
Proof. intros i. by apply grows_same. Qed.
Lemma make_input_grows :
  respects grows (b ← make InputBuffer; emod (λ s, s <| input_buffers_ := (input_buffers_ s ++ [b])%list |>)).
Proof.
  intros i. exists [InputBuffer (fresh i)]. unfold held. run_eff. rewrite fmap_app. split_and!; [done|set_solver..|lia|].
  intros r. rewrite !elem_of_app. set_solver.
Qed.
Lemma make_bitstream_grows :
  respects grows (b ← make BitstreamBuffer; emod (λ s, s <| output_buffers_ := (output_buffers_ s ++ [b])%list |>)).
Proof.
  intros i. exists [BitstreamBuffer (fresh i)]. unfold held. run_eff. rewrite fmap_app. split_and!; [done|set_solver..|lia|].
  intros r. rewrite !elem_of_app. set_solver.
Qed.
Lemma bind_grouped {A B D} (m : eff Impl event A) (f : A → eff Impl event B) (k : eff Impl event D) i :
  (a ← m; f a;; k) i = ((a ← m; f a);; k) i.
Proof.
  unfold mbind, eff_bind. destruct (m i) as [[a i1] es1]. destruct (f a i1) as [[b i2] es2].
  destruct (k i2) as [[c i3] es3]. by rewrite app_assoc.
Qed.
Lemma grouped_grows {A B D} (m : eff Impl event A) (f : A → eff Impl event B) (k : eff Impl event D) :
  respects grows (a ← m; f a) → respects grows k → respects grows (a ← m; f a;; k).
Proof.
  intros H1 H2 i. unfold events, exec. rewrite bind_grouped. by apply (respects_bind grows).
Qed.
Lemma create_buffers_grows n x : respects grows (create_buffers n x).
Proof.
  revert x. induction n as [|n IH]; intros x; [apply respects_ret, _|]. cbn [create_buffers].
  destruct (nvEncCreateInputBuffer x) as [ok x1]. apply respects_bind; [apply _|apply session_is_grows|]. intros _.
  destruct (negb ok); [apply respects_ret, _|]. apply grouped_grows; [apply make_input_grows|].
  destruct (nvEncCreateBitstreamBuffer x1) as [ok2 x2]. apply respects_bind; [apply _|apply session_is_grows|]. intros _.
  destruct (negb ok2); [apply respects_ret, _|]. apply grouped_grows; [apply make_bitstream_grows|apply IH].
Qed.
Lemma setup_session_grows config w h x : respects grows (setup_session config w h x).
Proof.
  unfold setup_session. case_match; [|apply respects_ret, _]. case_match; [|apply respects_ret, _].
  case_match; [|apply respects_ret, _].
  apply respects_bind; [apply _|intros i; by apply grows_same|]. intros _.
  destruct (nvEncInitializeEncoder _ _) as [ok x1]. apply respects_bind; [apply _|apply session_is_grows|]. intros _.
  destruct (negb ok); [apply respects_ret, _|]. apply create_buffers_grows.
Qed.

(** A driver with CUDA whose sessions cannot be opened: no NVENC on the card. *)
Definition no_session : Prop :=
  cuInit = true ∧ cuDeviceGet = true ∧ cuCtxCreate = true ∧
  (NvEncodeAPICreateInstance = false ∨ nvEncOpenEncodeSessionEx = None).
Lemma failed_probe codec (p : list resource * nat) : is_Some (ResolveCodecType codec) → no_session →
  ProbeAvailable codec p = (false, (CudaContext p.2 :: p.1, S p.2)).
Proof.
  intros [ty Hty] (H1 & H2 & H3 & H4). destruct p as [l k]. unfold ProbeAvailable, Impl_Initialize.
  rewrite Hty, H1, H2, H3. cbn [negb]. destruct NvEncodeAPICreateInstance; cbn [negb]; [|reflexivity].
  destruct H4 as [?|H4]; [done|]. rewrite H4. reflexivity.
Qed.
Lemma failed_probes codec n (p : list resource * nat) : is_Some (ResolveCodecType codec) → no_session →
  Nat.iter n (λ p, (ProbeAvailable codec p).2) p = ((CudaContext <$> rev (seq p.2 n)) ++ p.1, (p.2 + n)%nat).
Proof.
  intros Hc Hs. induction n as [|n IH]; [destruct p; simpl; by rewrite Nat.add_0_r|].
  change (Nat.iter (S n) ?f p) with (f (Nat.iter n f p)). cbv beta. rewrite failed_probe, IH by done. cbn [fst snd].
  rewrite seq_S, rev_app_distr. simpl. f_equal. lia.
Qed.

(** When CUDA works and a session cannot be opened, the context made for it is
    never destroyed: [Destroy] returns at once without a session.  A probe for a
    codec leaves one more context each time. *)
Theorem probes_leak_contexts codec n process : is_Some (ResolveCodecType codec) → no_session →
  let after := Nat.iter n (λ p, (ProbeAvailable codec p).2) process in
  (ProbeAvailable codec after).1 = false ∧
  live (new_Impl after.1 after.2) = (CudaContext <$> rev (seq process.2 n)) ++ process.1 ∧
  after.2 = (process.2 + n)%nat.
Proof. intros Hc Hs. cbv zeta. by rewrite failed_probe, failed_probes. Qed.

(** When the session opens, a probe leaves nothing behind, whatever fails after
    that. *)
Theorem opened_probe_leaves_nothing codec process ty x :
  ResolveCodecType codec = Some ty → cuInit = true → cuDeviceGet = true → cuCtxCreate = true →
  NvEncodeAPICreateInstance = true → nvEncOpenEncodeSessionEx = Some x →
  Forall (λ r, number r < process.2)%nat process.1 →
  (ProbeAvailable codec process).2.1 = process.1.
Proof.
  intros Hty H1 H2 H3 H4 H5 Hl. destruct process as [l k]. unfold ProbeAvailable. rewrite Hty. cbv zeta. cbn [fst snd].
  set (config := mkConfig _ _ _ _ _ _ _ _).
  assert (∃ i1, exec (Impl_Initialize config 160 120 ty) (new_Impl l k) = i1 ∧ is_Some (encoder_ i1) ∧
    ∃ added, live i1 = added ++ l ∧ (∀ r, r ∈ added → r ∈ held i1) ∧ (∀ r, r ∈ held i1 → (k ≤ number r)%nat))
    as (i1 & He & [[m y] Hsome] & added & Hadd & Hheld & Hnew).
  { eexists; split; [reflexivity|]. unfold Impl_Initialize. rewrite H1, H2, H3, H4, H5. cbn [negb].
    unfold make. set (i0 := mkImpl (Some (S k, x)) (Some k) None [] [] 0 (CudaContext k :: l) (S (S k))).
    match goal with |- context [exec ?m (new_Impl l k)] =>
      assert (exec m (new_Impl l k) = exec (setup_session config 160 120 x) i0) as -> end.
    { run_eff. match goal with |- context [setup_session config 160 120 x ?i] => change i with i0 end.
      by destruct (setup_session config 160 120 x i0) as [[? ?] ?]. }
    destruct (setup_session_keeps config 160 120 x i0) as [_ Hs].
    destruct (setup_session_grows config 160 120 x i0) as (added & G1 & G2 & G3 & G4 & G5).
    split; [destruct (encoder_ (exec _ i0)) as [[m y]|]; [by eexists|by simpl in Hs]|].
    exists (added ++ [CudaContext k]). rewrite G1. split; [by rewrite <-app_assoc|]. split.
    - intros r [Hr|Hr]%elem_of_app; [auto|]. apply G3. unfold held. simpl. done.
    - intros r [Hr|Hr]%G5; [|simpl in Hr; lia]. unfold held in Hr. simpl in Hr.
      apply list_elem_of_singleton in Hr as ->. simpl. lia. }
  rewrite exec_bind, He, exec_bind. destruct (destroy_run i1) as (i2 & Hd & Hi2). rewrite Hsome in Hd, Hi2.
  assert (exec Impl_Destroy i1 = i2) as -> by (unfold exec; by rewrite Hd).
  change (exec (mret ?b) i2) with i2. destruct Hi2 as (_ & _ & _ & _ & _ & ->). rewrite Hadd, filter_app.
  assert (filter (λ x, x ∉ held i1) added = []) as ->.
  { clear -Hheld. induction added as [|r added IH]; [done|].
    rewrite filter_cons_False; [apply IH; set_solver|]. intros Hn. apply Hn, Hheld. set_solver. }
  apply filter_every. intros r Hr Hin. rewrite Forall_forall in Hl. specialize (Hl r Hr). specialize (Hnew r Hin).
  simpl in Hl. lia.
Qed.
End backend.

(** ** Witnesses *)

Section witnesses.
#[local] Existing Instance sample_webrtc.
#[local] Existing Instance defaults.
(** A driver with CUDA; NVENC is there when [nvenc]. *)
Definition sample_nvenc (nvenc : bool) : Nvenc := {|
  nv_rest := unit;
  nv_session := unit;
  cuInit := true;
  cuDeviceGet := true;
  cuCtxCreate := true;
  NvEncodeAPICreateInstance := true;
  nvEncOpenEncodeSessionEx := if nvenc then Some tt else None;
  nvEncGetEncodePresetConfigEx _ _ _ _ := Some tt;
  nvEncInitializeEncoder x _ := (true, x);
  nvEncCreateInputBuffer x := (true, x);
  nvEncCreateBitstreamBuffer x := (true, x);
  nvEncLockInputBuffer x := (true, x);
  nvEncEncodePicture x _ _ _ _ _ := (NV_ENC_SUCCESS, x);
  nvEncLockBitstream x := (Some ([1], true), x);
  nvEncReconfigureEncoder x _ := (true, x);
|}.

Lemma probes_leak_contexts_witness :
  let probe p := (@ProbeAvailable _ (sample_nvenc false) "H264" p).2 in
  (Nat.iter 3 probe ([], 0%nat)).1 = [CudaContext 2; CudaContext 1; CudaContext 0].
Proof.
  assert (@no_session _ (sample_nvenc false)) as Hs by (repeat split; by right).
  refine (proj1 (proj2 (@probes_leak_contexts _ (sample_nvenc false) "H264" 3 ([], 0%nat) _ Hs))).
  by eexists.
Defined.

Lemma opened_probe_leaves_nothing_witness :
  (@ProbeAvailable _ (sample_nvenc true) "H264" ([CudaContext 0], 1%nat)).2.1 = [CudaContext 0].
Proof.
  refine (@opened_probe_leaves_nothing _ (sample_nvenc true) "H264" ([CudaContext 0], 1%nat) kVideoCodecH264 tt
    eq_refl eq_refl eq_refl eq_refl eq_refl eq_refl _).
  repeat constructor.
Defined.

#[local] Instance with_nvenc : Nvenc := sample_nvenc true.
Definition a_frame (w h : Z) : VideoFrame := mkFrame w h 7 8 0 (Some tt).
Definition some_calls : list call :=
  [CallInit (Some (codec_of 640 360)) one_core; CallRegister (Some 0%nat); CallEncode (a_frame 640 360) None;
   CallEncode (a_frame 320 180) (Some [kVideoFrameKey]);
   CallRates (mkRates (SetBitrate 0 0 500000 no_bitrates) (double_of_Z 30) 500000); CallEncode (a_frame 320 180) None].
Definition yes : answers := λ _ _, true.
Lemma shell_sessions_closed_witness :
  library_run None (events (run (handle_call yes) (some_calls ++ [CallRelease]))
    (new_shell default_config (new_Impl [] 0))) = Some None ∧
  List.length (omap image (events (run (handle_call yes) some_calls) (new_shell default_config (new_Impl [] 0)))) = 3%nat.
Proof.
  split; [|vm_compute; reflexivity].
  refine (proj1 (shell_sessions_closed default_config (new_Impl [] 0) yes some_calls eq_refl _)).
  vm_compute. reflexivity.
Defined.
End witnesses.
