(* ===== verification/SimulcastEncoder.v ===== *)
(** * The simulcast encoder (capture/encoder/simulcast_factory.{h,cc})

    [SimulcastEncoder] drives one inner encoder per layer of the ladder, each at
    its own resolution, and stamps the images of each with the index of its
    layer.  The inner encoders are any implementation [E] of the interface; the
    theorems about their images use its contract only.  Their destructors
    release them. *)

From Stdlib Require Import ZArith Lia Ascii String SpecFloat.
From stdpp Require Import base tactics numbers option pretty list.
From S2P Require Import Prelude Numbers VideoEncoder H264Encoder.
Open Scope Z_scope.

Record SimulcastLayer := mkLayer {
  rid : string;
  scale_resolution_down_by : Z;
  max_framerate_fps : Z;
  max_bitrate_bps : Z;
}.
#[export] Instance eta_layer : Eta SimulcastLayer := λ s,
  mkLayer (rid s) (scale_resolution_down_by s) (max_framerate_fps s) (max_bitrate_bps s).

Definition IsSimulcast (codec_settings : VideoCodec) : bool := 2 <=? numberOfSimulcastStreams codec_settings.

Section ladder.
Context {U : Unspecified} {W : WebrtcLib}.

(** [simulcastStream[i]], of an array that is zero where it is not filled. *)
Definition stream (cs : VideoCodec) (i : nat) : SimulcastStream :=
  default (mkStream 0 0 0 0) (simulcastStream cs !! i).

(** The layer of stream [i], of [n] streams. *)
Definition layer_of_stream (cs : VideoCodec) (n i : nat) : SimulcastLayer :=
  let top_w := stream_width (stream cs (n - 1)) in
  let s := stream cs i in
  mkLayer ("layer" +:+ pretty (n - 1 - i)%nat)
    (if 0 <? stream_width s then Z.max 1 (Z.quot top_w (stream_width s)) else 1)
    (stream_maxFramerate s) (int_result (targetBitrate s * 1000)).

Definition stream_count (cs : VideoCodec) : nat :=
  Z.to_nat (Z.min (numberOfSimulcastStreams cs) (Z.of_nat kMaxSimulcastStreams)).
(** For at least one stream; the top layer first. *)
Definition SimulcastLayersFromCodec (cs : VideoCodec) : list SimulcastLayer :=
  let n := stream_count cs in
  let top := stream cs (n - 1) in
  let out := layer_of_stream cs n <$> reverse (seq 0 n) in
  let out := match out with
             | l :: out' => l <| scale_resolution_down_by := 1 |> :: out'
             | [] => [] end in
  if (stream_width top =? 0) || (stream_height top =? 0) then [] else out.

(** The ladder of [InitEncode], when it has none. *)
Definition derive_ladder (cs : VideoCodec) : list SimulcastLayer :=
  match (if IsSimulcast cs then SimulcastLayersFromCodec cs else []) with
  | [] => [mkLayer "layer0" 1 (maxFramerate cs) (int_result (maxBitrate cs * 1000))]
  | l => l
  end.

(** [& ~1] *)
Definition even (n : Z) : Z := Z.land n (Z.lnot 1).
(** The size of a layer, from one of the source. *)
Definition layer_size (source : Z) (l : SimulcastLayer) : Z :=
  even (Z.max 2 (Z.quot source (Z.max 1 (scale_resolution_down_by l)))).

(** The settings of a layer's encoder. *)
Definition layer_codec (cs : VideoCodec) (l : SimulcastLayer) (w h : Z) : VideoCodec :=
  let c := cs <| codec_width := w |> <| codec_height := h |> in
  let c := if 0 <? max_framerate_fps l then c <| maxFramerate := max_framerate_fps l |> else c in
  let c := if 0 <? max_bitrate_bps l
           then c <| maxBitrate := Z.quot (max_bitrate_bps l) 1000 |>
                  <| startBitrate := Z.min (Z.quot (max_bitrate_bps l) 1000) (startBitrate c) |>
           else c in
  c <| numberOfSimulcastStreams := 0 |>.
End ladder.

Section encoder.
Context {U : Unspecified} {W : WebrtcLib} {E : Type} {V : VideoEncoder E}.
(** Builds the encoder of a layer; it may fail. *)
Variable build_inner_ : SimulcastLayer → option E.

Record LayerState := mkState {
  config : SimulcastLayer;
  inner : E;
  scratch_buffer : bool;       (* there is one; it is overwritten by each frame *)
  layer_width : Z;
  layer_height : Z;
}.
Record SimulcastEncoder := mkEncoder {
  layers_ : list SimulcastLayer;
  states_ : list LayerState;
  outer_callback_ : option nat;
  source_width_ : Z;
  source_height_ : Z;
  initialized_ : bool;
}.
#[export] Instance eta_encoder : Eta SimulcastEncoder := λ s,
  mkEncoder (layers_ s) (states_ s) (outer_callback_ s) (source_width_ s) (source_height_ s) (initialized_ s).
Definition new_SimulcastEncoder (layers : list SimulcastLayer) : SimulcastEncoder :=
  mkEncoder layers [] None 0 0 false.
Abbreviation M := (eff SimulcastEncoder event).

(** Say nothing of the encoder: what inner encoders do is an event of theirs. *)
Definition say (es : list event) : M unit := λ s, (tt, s, es).

(** [TaggingCallback], in front of the outer callback. *)
Definition tag (i : nat) (img : EncodedImage) : EncodedImage :=
  mkImage (EncodedData img) (_frameType img) (_encodedWidth img) (_encodedHeight img) (RtpTimestamp img)
    (capture_time_ms_ img) (rotation_ img) (Some (Z.of_nat i)) (Some (Z.of_nat i)) (codec_specific img).
Definition tagging_answer (answer : answers) (outer : option nat) (i : nat) : answers := λ _ img,
  match outer with None => false | Some cb => answer cb (tag i img) end.
(** What the outside sees of what the encoder of layer [i] does. *)
Definition seen (outer : option nat) (i : nat) (e : event) : list event :=
  match e with
  | OnEncodedImage img => match outer with Some _ => [OnEncodedImage (tag i img)] | None => [] end
  | e => [Layer i e]
  end.

(** [states_.clear()]: the inner encoders are destroyed. *)
Definition clear_states : M unit :=
  s ← eget;
  say (concat (imap (λ i st, Layer i <$> events Release (inner st)) (states_ s)));;
  emod (λ s, s <| states_ := [] |>).

(** The loop of [InitEncode], from layer [i]. *)
Fixpoint init_layers (cs : VideoCodec) (settings : Settings) (i : nat) (layers : list SimulcastLayer) : M code :=
  match layers with
  | [] => emod (λ s, s <| initialized_ := true |>);; mret WEBRTC_VIDEO_CODEC_OK
  | l :: layers' =>
      s ← eget;
      let w := layer_size (source_width_ s) l in
      let h := layer_size (source_height_ s) l in
      match build_inner_ l with
      | None => clear_states;; mret WEBRTC_VIDEO_CODEC_ERROR
      | Some e =>
          let '(r, e1, es1) := InitEncode (Some (layer_codec cs l w h)) settings e in
          say (Layer i <$> es1);;
          if negb (bool_decide (r = WEBRTC_VIDEO_CODEC_OK)) then
            clear_states;; say (Layer i <$> events Release e1);; mret r
          else
            let scratch := negb (scale_resolution_down_by l =? 1) in
            let '(_, e2, es2) := RegisterEncodeCompleteCallback (Some i) e1 in
            say (Layer i <$> es2);;
            emod (λ s, s <| states_ := (states_ s ++ [mkState l e2 scratch w h])%list |>);;
            init_layers cs settings (1 + i)%nat layers'
      end
  end.

Definition Simulcast_InitEncode (codec_settings : option VideoCodec) (settings : Settings) : M code :=
  match codec_settings with
  | None => mret WEBRTC_VIDEO_CODEC_ERR_PARAMETER
  | Some cs =>
      if (codec_width cs =? 0) || (codec_height cs =? 0) then mret WEBRTC_VIDEO_CODEC_ERR_PARAMETER
      else
        emod (λ s, s <| layers_ := match layers_ s with [] => derive_ladder cs | l => l end |>
                     <| source_width_ := codec_width cs |> <| source_height_ := codec_height cs |>);;
        clear_states;;
        s ← eget;
        init_layers cs settings 0 (layers_ s)
  end.

Definition Simulcast_Release : M code :=
  clear_states;;
  emod (λ s, s <| outer_callback_ := None |> <| initialized_ := false |>);;
  mret WEBRTC_VIDEO_CODEC_OK.

(** The frame of a layer. *)
Definition layer_frame (frame : VideoFrame) (source : I420Buffer) (st : LayerState) : VideoFrame :=
  if scale_resolution_down_by (config st) =? 1
  then mkFrame (frame_width frame) (frame_height frame) (rtp_timestamp frame) (render_time_ms frame)
         (rotation frame) (Some source)
  else mkFrame (layer_width st) (layer_height st) (rtp_timestamp frame) (render_time_ms frame)
         (rotation frame) (Some (I420Scale source (layer_width st) (layer_height st))).

(** Every layer encodes its frame; what it answers is logged only. *)
Fixpoint encode_layers (answer : answers) (outer : option nat) (frame : VideoFrame) (source : I420Buffer)
    (frame_types : option (list VideoFrameType)) (i : nat) (states : list LayerState)
    : list LayerState * list event :=
  match states with
  | [] => ([], [])
  | st :: states' =>
      let '(_, e, es) :=
        Encode (tagging_answer answer outer i) (layer_frame frame source st) frame_types (inner st) in
      let '(rest, es') := encode_layers answer outer frame source frame_types (1 + i)%nat states' in
      (mkState (config st) e (scratch_buffer st) (layer_width st) (layer_height st) :: rest,
       ((es ≫= seen outer i) ++ es')%list)
  end.

(** The settings a frame of another size starts the encoder again with. *)
Definition resize_codec (frame : VideoFrame) (n : nat) : VideoCodec :=
  (codec_of (frame_width frame) (frame_height frame))
    <| numberOfSimulcastStreams := Z.of_nat n mod 256 |>.
Definition Simulcast_resize (frame : VideoFrame) : M bool :=
  s ← eget;
  if negb (frame_width frame =? source_width_ s) || negb (frame_height frame =? source_height_ s) then
    Simulcast_Release;;
    s ← eget;
    r ← Simulcast_InitEncode (Some (resize_codec frame (List.length (layers_ s)))) one_core;
    mret (bool_decide (r = WEBRTC_VIDEO_CODEC_OK))
  else mret true.

Definition Simulcast_Encode (answer : answers) (frame : VideoFrame) (frame_types : option (list VideoFrameType))
    : M code :=
  s ← eget;
  if negb (initialized_ s) || negb (bool_decide (is_Some (outer_callback_ s)))
  then mret WEBRTC_VIDEO_CODEC_UNINITIALIZED
  else
    ok ← Simulcast_resize frame;
    if negb ok then mret WEBRTC_VIDEO_CODEC_ERROR
    else
      match ToI420 frame with
      | None => mret WEBRTC_VIDEO_CODEC_ERROR
      | Some source =>
          s ← eget;
          let '(states, es) :=
            encode_layers answer (outer_callback_ s) frame source frame_types 0 (states_ s) in
          say es;;
          emod (λ s, s <| states_ := states |>);;
          mret WEBRTC_VIDEO_CODEC_OK
      end.

Definition Simulcast_RegisterEncodeCompleteCallback (callback : option nat) : M code :=
  emod (λ s, s <| outer_callback_ := callback |>);; mret WEBRTC_VIDEO_CODEC_OK.

(** The rates of layer [i] of [n]. *)
Definition layer_sum (b : VideoBitrateAllocation) (si : nat) : Z :=
  foldl (λ sum tl, (sum + GetBitrate b si tl) mod 2 ^ 32) 0 (seq 0 kMaxTemporalStreams).
Definition layer_rate (p : RateControlParameters) (n i : nat) (l : SimulcastLayer) : Z :=
  let sum := layer_sum (bitrate p) ((n - 1) - i) in
  if (sum =? 0) && (0 <? max_bitrate_bps l) then max_bitrate_bps l mod 2 ^ 32 else sum.
Definition layer_fps (p : RateControlParameters) (l : SimulcastLayer) : spec_float :=
  if 0 <? max_framerate_fps l
  then let cap := double_of_Z (max_framerate_fps l) in
       if SFltb cap (framerate_fps p) then cap else framerate_fps p
  else framerate_fps p.
Definition layer_params (p : RateControlParameters) (n i : nat) (l : SimulcastLayer) : RateControlParameters :=
  let sum := layer_rate p n i l in
  mkRates (SetBitrate 0 0 sum no_bitrates) (layer_fps p l) sum.

Definition Simulcast_SetRates (parameters : RateControlParameters) : M unit :=
  s ← eget;
  let n := List.length (states_ s) in
  say (concat (imap (λ i st, Layer i <$> events (SetRates (layer_params parameters n i (config st))) (inner st))
    (states_ s)));;
  emod (λ s, s <| states_ := imap (λ i st,
    mkState (config st) (exec (SetRates (layer_params parameters n i (config st))) (inner st))
      (scratch_buffer st) (layer_width st) (layer_height st)) (states_ s) |>).

#[export] Instance Simulcast : VideoEncoder SimulcastEncoder := {|
  InitEncode := Simulcast_InitEncode;
  Encode := Simulcast_Encode;
  RegisterEncodeCompleteCallback := Simulcast_RegisterEncodeCompleteCallback;
  Release := Simulcast_Release;
  SetRates := Simulcast_SetRates;
|}.

(** ** No image without the outer callback *)

Lemma layer_silent (i : nat) es : omap image (Layer i <$> es) = [].
Proof. by induction es. Qed.
Lemma layers_silent {A} (f : nat → A → list event) (l : list A) :
  (∀ i x, omap image (f i x) = []) → omap image (concat (imap f l)) = [].
Proof.
  revert f. induction l as [|x l IH]; intros f Hf; [done|].
  rewrite imap_cons. cbn [concat]. rewrite omap_app, Hf, IH; [done|]. intros i y. apply Hf.
Qed.

(** Calls that give no image and leave the callback and the ladder alone. *)
Definition silent (s : SimulcastEncoder) (es : list event) (s' : SimulcastEncoder) : Prop :=
  omap image es = [] ∧ outer_callback_ s' = outer_callback_ s ∧ (layers_ s ≠ [] → layers_ s' = layers_ s).
#[local] Instance silent_rel : TraceRel silent.
Proof.
  split; [done|]. intros s1 s2 s3 es1 es2 (H1 & H2 & H3) (K1 & K2 & K3).
  split_and!; [by rewrite omap_app, H1, K1|congruence|]. intros Hn. specialize (H3 Hn). rewrite <-H3. apply K3. congruence.
Qed.

Lemma say_silent es : omap image es = [] → respects silent (say es).
Proof. intros H s. by split_and!. Qed.
Lemma clear_silent : respects silent clear_states.
Proof.
  apply respects_get. intros s. apply respects_bind; [apply _| |].
  - apply say_silent, layers_silent. intros i st. apply layer_silent.
  - intros _. by apply respects_mod.
Qed.
Lemma init_layers_silent cs st i ls : respects silent (init_layers cs st i ls).
Proof.
  revert i. induction ls as [|l ls IH]; intros i; cbn [init_layers].
  { apply respects_bind; [apply _|by apply respects_mod|]. intros _. apply respects_ret, _. }
  apply respects_get. intros s. destruct (build_inner_ l) as [e|].
  2:{ apply respects_bind; [apply _|apply clear_silent|]. intros _. apply respects_ret, _. }
  cbv zeta. destruct (InitEncode _ _ e) as [[r e1] es1].
  apply respects_bind; [apply _|apply say_silent, layer_silent|]. intros _. destruct (negb _).
  - apply respects_bind; [apply _|apply clear_silent|]. intros _.
    apply respects_bind; [apply _|apply say_silent, layer_silent|]. intros _. apply respects_ret, _.
  - destruct (RegisterEncodeCompleteCallback _ e1) as [[r2 e2] es2].
    apply respects_bind; [apply _|apply say_silent, layer_silent|]. intros _.
    apply respects_bind; [apply _|by apply respects_mod|]. intros _. apply IH.
Qed.
Lemma init_silent cs st : respects silent (Simulcast_InitEncode cs st).
Proof.
  unfold Simulcast_InitEncode. destruct cs as [cs|]; [|apply respects_ret, _]. destruct (_ || _); [apply respects_ret, _|].
  apply respects_bind; [apply _| |].
  { apply respects_mod. intros s. split_and!; [done..|]. intros Hn. simpl. by destruct (layers_ s). }
  intros _. apply respects_bind; [apply _|apply clear_silent|]. intros _. apply respects_get. intros s. apply init_layers_silent.
Qed.

Lemma encode_layers_unheard a frame source ft i states :
  omap image (encode_layers a None frame source ft i states).2 = [].
Proof.
  revert i. induction states as [|st states IH]; intros i; [done|]. cbn [encode_layers].
  destruct (Encode _ _ ft (inner st)) as [[r e] es]. specialize (IH (1 + i)%nat).
  destruct (encode_layers a None frame source ft (1 + i) states) as [rest es']. cbn [snd] in *.
  rewrite omap_app, IH, app_nil_r. induction es as [|e' es IHe]; [done|].
  rewrite bind_cons, omap_app, IHe, app_nil_r. by destruct e'.
Qed.

(** A frame of another size makes the encoder start again, and forget its
    callback: no image of that frame reaches it, and the frames that follow are
    refused until libwebrtc registers it again. *)
Theorem simulcast_resize_loses_callback a frame ft s :
  initialized_ s = true → is_Some (outer_callback_ s) →
  (frame_width frame, frame_height frame) ≠ (source_width_ s, source_height_ s) →
  let s' := exec (Simulcast_Encode a frame ft) s in
  omap image (events (Simulcast_Encode a frame ft) s) = [] ∧ outer_callback_ s' = None ∧
  ∀ frame' ft', Simulcast_Encode a frame' ft' s' = (WEBRTC_VIDEO_CODEC_UNINITIALIZED, s', []).
Proof.
  intros Hi [cb Hcb] Hsize.
  assert (∀ s', outer_callback_ s' = None → ∀ frame' ft',
    Simulcast_Encode a frame' ft' s' = (WEBRTC_VIDEO_CODEC_UNINITIALIZED, s', [])) as Hrefuse.
  { intros s' Hs' f' ft'. unfold Simulcast_Encode. rewrite get_run, Hs'. by destruct (initialized_ s'). }
  cbv zeta. enough (omap image (events (Simulcast_Encode a frame ft) s) = [] ∧
    outer_callback_ (exec (Simulcast_Encode a frame ft) s) = None) as [? ?] by eauto.
  set (m := Simulcast_resize frame).
  assert (omap image (events m s) = [] ∧ outer_callback_ (exec m s) = None) as [Hm Hcb'].
  { unfold m, Simulcast_resize. rewrite events_get, exec_get.
    assert (negb (frame_width frame =? source_width_ s) || negb (frame_height frame =? source_height_ s) = true) as ->.
    { destruct (Z.eqb_spec (frame_width frame) (source_width_ s)), (Z.eqb_spec (frame_height frame) (source_height_ s));
        try done. exfalso. by apply Hsize; f_equal. }
    rewrite events_bind, exec_bind. set (s1 := exec Simulcast_Release s).
    assert (omap image (events Simulcast_Release s) = [] ∧ outer_callback_ s1 = None) as [H1 H2].
    { unfold s1, Simulcast_Release. rewrite events_bind, exec_bind. destruct (clear_silent s) as [H1 _].
      by rewrite omap_app, H1. }
    rewrite omap_app, H1, events_get, exec_get, events_bind, exec_bind.
    destruct (init_silent (Some (resize_codec frame (List.length (layers_ s1)))) one_core s1) as (H3 & H4 & _).
    rewrite omap_app, H3. split; [done|]. by rewrite <-H2, <-H4. }
  unfold Simulcast_Encode. fold m. rewrite events_get, exec_get, Hi, Hcb.
  replace (bool_decide (is_Some (Some cb))) with true by (symmetry; by apply bool_decide_eq_true).
  cbn [negb orb]. rewrite events_bind, exec_bind.
  destruct (negb (result m s)); [by rewrite omap_app, Hm|].
  destruct (ToI420 frame) as [source|]; [|by rewrite omap_app, Hm].
  rewrite omap_app, Hm, events_get, exec_get, Hcb'.
  pose proof (encode_layers_unheard a frame source ft 0 (states_ (exec m s))) as Hun.
  destruct (encode_layers a None frame source ft 0 (states_ (exec m s))) as [states es]. cbn [snd] in Hun.
  split; [|exact Hcb']. unfold events, say, emod, mbind, eff_bind, mret, eff_ret. simpl. by rewrite app_nil_r, Hun.
Qed.

(** ** The images of the layers *)

Section images.
Context {L : EncoderLaws E}.
Hypothesis build_fresh : ∀ l e, build_inner_ l = Some e → (configured e).1 = None.

(** The encoder of a layer is closed, or open with the tagging callback. *)
Definition wired (i : nat) (st : LayerState) : Prop :=
  2 ≤ layer_width st ∧ 2 ≤ layer_height st ∧
  ((configured (inner st)).1 = None ∨ ∃ size, configured (inner st) = (Some size, Some i)).
Definition all_wired (states : list LayerState) : Prop :=
  ∀ i st, states !! i = Some st → wired i st.

(** An image the outer callback gets of [frame] comes from one layer: it
    carries the layer's index, and the size of the layer's frame. *)
Definition layer_image (frame : VideoFrame) (states : list LayerState) (k : nat) (img : EncodedImage) : Prop :=
  ∃ i st source img', states !! i = Some st ∧ ToI420 frame = Some source ∧ img = tag (k + i) img' ∧
    image_of (layer_frame frame source st) img'.

Lemma even_half n : even n = 2 * (n / 2).
Proof.
  unfold even. rewrite <-Z.ldiff_land. change 1 with (Z.ones 1).
  rewrite Z.ldiff_ones_r, Z.shiftl_mul_pow2, Z.shiftr_div_pow2 by lia. change (2 ^ 1) with 2. lia.
Qed.
Lemma layer_size_bounds n l : 2 ≤ layer_size n l ∧ layer_size n l mod 2 = 0 ∧
  layer_size n l ≤ Z.max 2 (Z.quot n (Z.max 1 (scale_resolution_down_by l))).
Proof.
  unfold layer_size. rewrite even_half. set (m := Z.max 2 _). assert (2 ≤ m) by (unfold m; lia).
  split_and!; [|rewrite Z.mul_comm; apply Z_mod_mult|]; pose proof (Z.div_mod m 2); pose proof (Z.mod_pos_bound m 2); lia.
Qed.

Lemma wired_step i st e : wired i st → configured e = configured (inner st) ∨ (configured e).1 = None ∨
    (∃ size, configured e = (Some size, Some i)) →
  wired i (mkState (config st) e (scratch_buffer st) (layer_width st) (layer_height st)).
Proof. intros (H1 & H2 & H3) He. split_and!; try done. simpl. destruct He as [-> |[|]]; auto. Qed.

Lemma init_layers_wired cs st ls s :
  all_wired (states_ s) → 0 < source_width_ s → 0 < source_height_ s →
  all_wired (states_ (exec (init_layers cs st (List.length (states_ s)) ls) s)).
Proof.
  revert s. induction ls as [|l ls IH]; intros s Hs Hw Hh; cbn [init_layers]; [done|].
  assert (∀ {A} (m : M A) s0, states_ (exec (clear_states;; m) s0) = states_ (exec m (s0 <| states_ := [] |>))) as Hclear.
  { intros A m s0. rewrite exec_bind. unfold clear_states. by rewrite exec_get. }
  rewrite exec_get. destruct (build_inner_ l) as [e|] eqn:He; [|by rewrite Hclear].
  cbv zeta. set (w := layer_size _ l). set (h := layer_size _ l).
  destruct (layer_size_bounds (source_width_ s) l) as [Hw2 _]. destruct (layer_size_bounds (source_height_ s) l) as [Hh2 _].
  assert (codec_width (layer_codec cs l w h) = w ∧ codec_height (layer_codec cs l w h) = h) as [Hcw Hch].
  { unfold layer_codec. by destruct (0 <? max_framerate_fps l), (0 <? max_bitrate_bps l). }
  assert (bad_settings (Some (layer_codec cs l w h)) = false) as Hb.
  { unfold bad_settings. rewrite Hcw, Hch. destruct (Z.eqb_spec w 0), (Z.eqb_spec h 0); lia || done. }
  pose proof (init_answers (layer_codec cs l w h) st e Hb (build_fresh l e He)) as [_ Hinit].
  unfold exec at 1, result in Hinit. destruct (InitEncode (Some (layer_codec cs l w h)) st e) as [[r e1] es1].
  cbn [fst snd] in Hinit. rewrite exec_bind. destruct (negb (bool_decide (r = WEBRTC_VIDEO_CODEC_OK))) eqn:Hr.
  { by rewrite Hclear. }
  apply negb_false_iff, bool_decide_eq_true in Hr. destruct Hinit as [[_ Hc]|[Hne _]]; [|done].
  destruct (register_answers (Some (List.length (states_ s))) e1) as (r2 & e2 & -> & Hc2).
  rewrite exec_bind, exec_mod.
  set (s1 := set_field _ (exec (say _) _)).
  assert (List.length (states_ s1) = (1 + List.length (states_ s))%nat) as Hlen.
  { subst s1. unfold exec, say. simpl. rewrite length_app. simpl. lia. }
  rewrite <-Hlen. apply IH; [|done|done]. subst s1. intros i st' Hi. unfold exec, say in Hi. simpl in Hi.
  apply lookup_app_Some in Hi as [Hi|[Hge Hi]]; [by apply Hs|].
  apply list_lookup_singleton_Some in Hi as [Hi <-].
  assert (i = List.length (states_ s)) as -> by lia. split_and!; [done|done|]. right. simpl. rewrite Hc2, Hc. by eexists.
Qed.

Lemma encode_layers_wired a outer frame source ft k states :
  ToI420 frame = Some source → 0 < frame_width frame → 0 < frame_height frame →
  (∀ i st, states !! i = Some st → wired (k + i) st) →
  let r := encode_layers a outer frame source ft k states in
  (∀ i st, r.1 !! i = Some st → wired (k + i) st) ∧ Forall (layer_image frame states k) (omap image r.2).
Proof.
  intros Hsrc Hfw Hfh. revert k. induction states as [|st states IH]; intros k Hs; [by split|].
  cbv zeta. cbn [encode_layers]. pose proof (Hs 0%nat st eq_refl) as Hst. rewrite Nat.add_0_r in Hst.
  pose proof Hst as (Hw & Hh & Hconf). set (f := layer_frame frame source st).
  set (ans := tagging_answer a outer k).
  assert (0 < frame_width f ∧ 0 < frame_height f) as [Hlw Hlh].
  { unfold f, layer_frame. destruct (_ =? 1); simpl; lia. }
  assert (∃ r e es, Encode ans f ft (inner st) = (r, e, es) ∧ Forall (image_of f) (omap image es) ∧
    (configured e = configured (inner st) ∨ (configured e).1 = None ∨ (∃ size, configured e = (Some size, Some k))))
    as (r & e & es & Hrun & Himg & He).
  { destruct Hconf as [Hn|[size Hc]].
    - do 3 eexists; split; [apply encode_refuses; by left|]. split; [constructor|by left].
    - destruct (encode_answers ans f ft _ _ _ Hc Hlw Hlh) as (H1 & _ & H2). unfold exec, events, result in H1, H2.
      destruct (Encode ans f ft (inner st)) as [[r e] es]. do 3 eexists; split; [reflexivity|]. split; [done|].
      right. destruct H2 as [H2|(_ & _ & H2)]; [|by left]. right. eexists. exact H2. }
  rewrite Hrun. specialize (IH (1 + k)%nat). destruct IH as [IH1 IH2].
  { intros i st' Hi. replace (1 + k + i)%nat with (k + S i)%nat by lia. by apply Hs. }
  destruct (encode_layers a outer frame source ft (1 + k) states) as [rest es']. cbn [fst snd] in *. split.
  - intros [|i] st' Hi; simpl in Hi.
    + injection Hi as <-. rewrite Nat.add_0_r. by apply wired_step.
    + replace (k + S i)%nat with (1 + k + i)%nat by lia. by apply IH1.
  - rewrite omap_app. apply Forall_app. split.
    + assert (Forall (λ img, ∃ img', img = tag k img' ∧ image_of f img') (omap image (es ≫= seen outer k))) as Hf.
      { clear -Himg. induction es as [|ev es IH]; [constructor|]. rewrite bind_cons, omap_app. apply Forall_app. split.
        - destruct ev as [| | | |img|]; try constructor. simpl. destruct outer; simpl; constructor; [|constructor].
          exists img. split; [done|]. simpl in Himg. by apply Forall_cons in Himg as [? _].
        - apply IH. simpl in Himg. destruct (image ev); [by apply Forall_cons in Himg as [_ ?]|done]. }
      eapply Forall_impl; [exact Hf|]. intros img (img' & -> & Hi). exists 0%nat, st, source, img'.
      by rewrite Nat.add_0_r.
    + eapply Forall_impl; [exact IH2|]. intros img (i & st' & source' & img' & Hi & H1 & -> & H2).
      exists (S i), st', source', img'. split_and!; try done. by replace (k + S i)%nat with (1 + k + i)%nat by lia.
Qed.

(** Sizes are not negative, and frames are not empty. *)
Definition simulcast_allowed (c : call) (_ : SimulcastEncoder) : bool :=
  match c with
  | CallInit (Some cs) _ => (0 <=? codec_width cs) && (0 <=? codec_height cs)
  | CallEncode f _ => (0 <? frame_width f) && (0 <? frame_height f)
  | _ => true
  end.

Lemma exec_ret {A B} (m : M A) (f : A → B) s : exec (a ← m; mret (f a)) s = exec m s.
Proof. rewrite exec_bind. done. Qed.
Lemma states_cleared s : exec clear_states s = s <| states_ := [] |>.
Proof. unfold clear_states. rewrite exec_get, exec_bind. done. Qed.

Lemma init_wired cs st s :
  match cs with Some cs => 0 ≤ codec_width cs ∧ 0 ≤ codec_height cs | None => True end →
  all_wired (states_ s) → all_wired (states_ (exec (Simulcast_InitEncode cs st) s)).
Proof.
  intros Hcs Hs. unfold Simulcast_InitEncode. destruct cs as [cs|]; [|done]. destruct Hcs as [Hw Hh].
  destruct (Z.eqb_spec (codec_width cs) 0), (Z.eqb_spec (codec_height cs) 0); try done.
  cbn [orb]. rewrite exec_mod, exec_bind, states_cleared, exec_get.
  set (s1 := set_field _ _). change 0%nat with (List.length (states_ s1)). by apply init_layers_wired; [|simpl; lia..].
Qed.

Lemma simulcast_frame_wired a f ft s : 0 < frame_width f → 0 < frame_height f → all_wired (states_ s) →
  all_wired (states_ (exec (Simulcast_Encode a f ft) s)) ∧
  Forall (layer_image f (states_ s) 0) (omap image (events (Simulcast_Encode a f ft) s)).
Proof.
  intros Hw Hh Hs.
  assert (∀ s1, all_wired (states_ s1) → ∀ source, ToI420 f = Some source →
    let r := encode_layers a (outer_callback_ s1) f source ft 0 (states_ s1) in
    all_wired r.1 ∧ Forall (layer_image f (states_ s1) 0) (omap image r.2)) as Hlayers.
  { intros s1 Hs1 source Hsrc. exact (encode_layers_wired a _ f source ft 0 (states_ s1) Hsrc Hw Hh Hs1). }
  destruct (decide (initialized_ s = true ∧ is_Some (outer_callback_ s))) as [[Hi Hcb]|Hn].
  2:{ assert (Simulcast_Encode a f ft s = (WEBRTC_VIDEO_CODEC_UNINITIALIZED, s, [])) as H.
      { unfold Simulcast_Encode. rewrite get_run. destruct (initialized_ s); [|done].
        rewrite bool_decide_false by tauto. done. }
      unfold exec, events. rewrite H. split; [done|constructor]. }
  split.
  - unfold Simulcast_Encode. rewrite exec_get. destruct (_ || _); [done|]. rewrite exec_bind.
    set (s1 := exec (Simulcast_resize f) s).
    assert (all_wired (states_ s1)) as Hs1.
    { unfold s1, Simulcast_resize. rewrite exec_get. destruct (_ || _); [|done].
      rewrite exec_bind, exec_get, exec_ret. apply init_wired; [simpl; lia|].
      unfold Simulcast_Release. rewrite exec_bind, states_cleared. done. }
    destruct (negb _); [done|]. destruct (ToI420 f) as [source|] eqn:Hsrc; [|done].
    rewrite exec_get. pose proof (Hlayers s1 Hs1 source eq_refl) as [H1 _].
    by destruct (encode_layers a (outer_callback_ s1) f source ft 0 (states_ s1)) as [states es].
  - destruct (decide ((frame_width f, frame_height f) = (source_width_ s, source_height_ s))) as [Heq|Hne].
    2:{ destruct (simulcast_resize_loses_callback a f ft s Hi Hcb Hne) as [-> _]. constructor. }
    injection Heq as Hsw Hsh. unfold Simulcast_Encode. rewrite events_get, Hi, bool_decide_true by done. cbn [negb orb].
    rewrite events_bind. assert (Simulcast_resize f s = (true, s, [])) as Hres.
    { unfold Simulcast_resize. by rewrite get_run, Hsw, Hsh, !Z.eqb_refl. }
    unfold events at 1, exec, result. rewrite Hres. cbn [fst snd negb app].
    destruct (ToI420 f) as [source|] eqn:Hsrc; [|constructor]. rewrite events_get.
    pose proof (Hlayers s Hs source eq_refl) as [_ H2].
    destruct (encode_layers a (outer_callback_ s) f source ft 0 (states_ s)) as [states es]. cbn [snd] in H2.
    unfold events, say, emod, mbind, eff_bind, mret, eff_ret. simpl. by rewrite app_nil_r.
Qed.

Lemma simulcast_call_wired a c s : simulcast_allowed c s = true → all_wired (states_ s) →
  all_wired (states_ (exec (handle_call a c) s)).
Proof.
  intros Hc Hs. destruct c as [cs st|f ft|cb| |p];
    cbn [handle_call InitEncode Encode RegisterEncodeCompleteCallback Release SetRates Simulcast].
  - rewrite (exec_ret _ (λ _, tt)). apply init_wired; [|done]. destruct cs as [cs|]; [|done]. simpl in Hc.
    apply andb_true_iff in Hc as [?%Z.leb_le ?%Z.leb_le]. done.
  - rewrite (exec_ret _ (λ _, tt)). simpl in Hc. apply andb_true_iff in Hc as [Hw%Z.ltb_lt Hh%Z.ltb_lt].
    by apply simulcast_frame_wired.
  - done.
  - rewrite (exec_ret _ (λ _, tt)). unfold Simulcast_Release. rewrite exec_bind, states_cleared. done.
  - unfold Simulcast_SetRates. rewrite exec_get. intros i st Hi. unfold exec in Hi. simpl in Hi.
    rewrite list_lookup_imap in Hi. destruct (states_ s !! i) as [st0|] eqn:Hst; [|done]. injection Hi as <-.
    apply wired_step; [by apply Hs|]. left. apply rates_answers.
Qed.

(** Whatever libwebrtc calls: an image that reaches it is stamped with the
    index of the layer that made it, and has the resolution of that layer and
    the timestamp of the frame. *)
Theorem simulcast_images_tagged layers a calls frame ft :
  let s0 := new_SimulcastEncoder layers in
  all_enabled simulcast_allowed (handle_call a) calls s0 = true →
  0 < frame_width frame → 0 < frame_height frame →
  let s := exec (run (handle_call a) calls) s0 in
  Forall (layer_image frame (states_ s) 0) (omap image (events (Simulcast_Encode a frame ft) s)).
Proof.
  intros s0 Hok Hw Hh s. apply simulcast_frame_wired; [done|done|].
  assert (∀ calls s, all_wired (states_ s) → all_enabled simulcast_allowed (handle_call a) calls s = true →
    all_wired (states_ (exec (run (handle_call a) calls) s))) as H.
  { clear -build_fresh L. intros calls. unfold run. induction calls as [|c calls IH]; intros s Hs Hok; [done|].
    simpl in Hok. apply andb_true_iff in Hok as [Hc Hok]. rewrite fmap_cons. cbn [eseq]. rewrite exec_bind.
    apply IH; [by apply simulcast_call_wired|done]. }
  by apply H.
Qed.
End images.

(** ** The ladder *)

(** A stream to which nothing is allocated, as libwebrtc does to pause it, is
    encoded at its maximum. *)
Theorem paused_layer_runs_at_max p n i l : layer_sum (bitrate p) (n - 1 - i) = 0 →
  0 < max_bitrate_bps l < 2 ^ 32 → layer_rate p n i l = max_bitrate_bps l.
Proof.
  intros H0 Hmax. unfold layer_rate. rewrite H0. destruct (Z.ltb_spec 0 (max_bitrate_bps l)); [|lia].
  simpl. by rewrite Z.mod_small by lia.
Qed.

(** The rate of a layer is the one allocated to its own stream: layer [i] is
    made from stream [n - 1 - i], and is given the rate of that index. *)
Theorem rates_follow_streams cs i l : SimulcastLayersFromCodec cs !! i = Some l →
  let n := List.length (SimulcastLayersFromCodec cs) in
  max_bitrate_bps l = int_result (targetBitrate (stream cs (n - 1 - i)) * 1000) ∧
  max_framerate_fps l = stream_maxFramerate (stream cs (n - 1 - i)) ∧
  ∀ p, layer_sum (bitrate p) (n - 1 - i) ≠ 0 → layer_rate p n i l = layer_sum (bitrate p) (n - 1 - i).
Proof.
  unfold SimulcastLayersFromCodec. cbv zeta. set (k := stream_count cs). set (top := stream cs (k - 1)).
  destruct (_ || _); [done|]. intros Hl.
  set (out := match layer_of_stream cs k <$> reverse (seq 0 k) with
    | [] => [] | l :: out' => l <| scale_resolution_down_by := 1 |> :: out' end) in *.
  assert (List.length out = k) as Hlen.
  { assert (List.length (layer_of_stream cs k <$> reverse (seq 0 k)) = k) as Hk
      by (rewrite length_fmap, length_reverse; apply length_seq).
    unfold out. destruct (layer_of_stream cs k <$> reverse (seq 0 k)); exact Hk. }
  rewrite Hlen.
  assert (∃ l0, (layer_of_stream cs k <$> reverse (seq 0 k)) !! i = Some l0 ∧ max_bitrate_bps l = max_bitrate_bps l0 ∧
    max_framerate_fps l = max_framerate_fps l0) as (l0 & Hl0 & H1 & H2).
  { unfold out in Hl. destruct (layer_of_stream cs k <$> reverse (seq 0 k)) as [|x xs]; [done|].
    destruct i as [|i]; simpl in Hl |- *; [injection Hl as <-; by exists x|by exists l]. }
  assert (i < k)%nat as Hik by (rewrite <-Hlen; by eapply lookup_lt_Some).
  rewrite list_lookup_fmap in Hl0. destruct (reverse (seq 0 k) !! i) as [j|] eqn:Hj; [|done]. injection Hl0 as <-.
  assert (j = k - 1 - i)%nat as ->.
  { rewrite reverse_lookup, length_seq in Hj by (by rewrite length_seq). apply lookup_seq in Hj as [-> _]. lia. }
  rewrite H1, H2. split_and!; [done..|]. intros p Hp. unfold layer_rate.
  destruct (Z.eqb_spec (layer_sum (bitrate p) (k - 1 - i)) 0); done.
Qed.

(** The ladder derived from the first settings stays: neither a release nor
    settings with other streams change it. *)
Theorem ladder_survives_release s cs st : layers_ s ≠ [] →
  layers_ (exec (Simulcast_Release;; Simulcast_InitEncode (Some cs) st) s) = layers_ s.
Proof.
  intros Hn. rewrite exec_bind. set (s1 := exec Simulcast_Release s).
  assert (layers_ s1 = layers_ s) as Hs1.
  { unfold s1, Simulcast_Release. rewrite exec_bind. destruct (clear_silent s) as (_ & _ & H). exact (H Hn). }
  destruct (init_silent (Some cs) st s1) as (_ & _ & H). rewrite H; congruence.
Qed.
End encoder.

(** ** Witnesses *)

Section witnesses.
#[local] Existing Instance sample_webrtc.
#[local] Existing Instance defaults.
#[local] Existing Instance sample_x264.
Definition build_h264 (_ : SimulcastLayer) : option H264Encoder := Some (new_H264Encoder default_config).
Definition two_streams : VideoCodec :=
  mkCodec 640 360 30 2000 500 2 [mkStream 320 180 15 300; mkStream 640 360 30 1200].
Definition simulcast_calls : list call :=
  [CallInit (Some two_streams) one_core; CallRegister (Some 7%nat)].
Definition always : answers := λ _ _, true.
Abbreviation simulcast_handle := (@handle_call _ _ (Simulcast build_h264) always).
Definition ready_simulcast : SimulcastEncoder :=
  exec (run simulcast_handle simulcast_calls) (new_SimulcastEncoder []).

Lemma simulcast_images_tagged_witness :
  Forall (layer_image (a_frame 640 360) (states_ ready_simulcast) 0)
    (omap image (events (Simulcast_Encode build_h264 always (a_frame 640 360) None) ready_simulcast)) ∧
  ((λ i, (SimulcastIndex i, _encodedWidth i)) <$>
    omap image (events (Simulcast_Encode build_h264 always (a_frame 640 360) None) ready_simulcast)) =
    [(Some 0, 640); (Some 1, 320)].
Proof.
  split; [|vm_compute; reflexivity].
  refine (simulcast_images_tagged build_h264 _ [] always simulcast_calls (a_frame 640 360) None _ eq_refl eq_refl).
  - intros l e [= <-]. reflexivity.
  - vm_compute. reflexivity.
Defined.

Lemma simulcast_resize_loses_callback_witness :
  outer_callback_ (exec (Simulcast_Encode build_h264 always (a_frame 320 180) None) ready_simulcast) = None.
Proof.
  refine (proj1 (proj2 (simulcast_resize_loses_callback build_h264 always (a_frame 320 180) None ready_simulcast _ _ _))).
  - vm_compute. reflexivity.
  - exists 7%nat. vm_compute. reflexivity.
  - vm_compute. discriminate.
Defined.

Definition rates_of (low top : Z) : RateControlParameters :=
  mkRates (SetBitrate 0 0 low (SetBitrate 1 0 top no_bitrates)) (double_of_Z 30) (low + top).
Definition top_layer : SimulcastLayer := default (mkLayer "" 0 0 0) (SimulcastLayersFromCodec two_streams !! 0%nat).
Lemma rates_follow_streams_witness :
  layer_rate (rates_of 300000 900000) 2 0 top_layer = 900000 ∧ max_bitrate_bps top_layer = 1200000.
Proof.
  assert (SimulcastLayersFromCodec two_streams !! 0%nat = Some top_layer) as Hl by (vm_compute; reflexivity).
  destruct (rates_follow_streams two_streams 0 top_layer Hl) as (H1 & _ & H2).
  split; [|exact H1]. refine (H2 (rates_of 300000 900000) _). vm_compute. discriminate.
Defined.

Lemma paused_layer_runs_at_max_witness : layer_rate (rates_of 300000 0) 2 0 top_layer = 1200000.
Proof.
  refine (paused_layer_runs_at_max (rates_of 300000 0) 2 0 top_layer _ _); vm_compute; [reflexivity|].
  split; [reflexivity|reflexivity].
Defined.

Lemma ladder_survives_release_witness :
  layers_ (exec (Simulcast_Release;; Simulcast_InitEncode build_h264 (Some (codec_of 640 360)) one_core) ready_simulcast) =
    layers_ ready_simulcast.
Proof.
  refine (ladder_survives_release build_h264 ready_simulcast (codec_of 640 360) one_core _). vm_compute. discriminate.
Defined.
End witnesses.
