(* ===== verification/BweAdapter.v ===== *)
(** * The bandwidth adapter (capture/encoder/bwe_adapter.{h,cc})

    [BweAdapter] is a registry of encoders that hands
    every bandwidth update to each of them; [BweRegisteringEncoder] is the
    decorator that keeps an encoder registered between InitEncode and Release.
    The registry is under a lock, but an update works on a copy of it, so an
    update in flight is part of the state ([calls]) and its deliveries are
    steps that anything may come between.  A pointer is a number; [objects] are
    the decorators that are alive. *)

From Stdlib Require Import ZArith Lia SpecFloat.
From stdpp Require Import base tactics numbers option gmap sets list.
From S2P Require Import Prelude Numbers VideoEncoder H264Encoder.
Open Scope Z_scope.

Record BweUpdate := mkUpdate {
  total_bitrate_bps : Z;
  stable_bitrate_bps : Z;
  link_capacity_bps : Z;
  fraction_loss : Z;
  rtt_ms : Z;
  framerate : spec_float;
  active_encoder_count : Z;
}.
Definition no_update : BweUpdate := mkUpdate 0 0 0 0 0 (S754_zero false) 0.

Section adapter.
Context {W : WebrtcLib} {E : Type} {V : VideoEncoder E}.
Variable a : answers.

(** A decorator and the encoder it owns. *)
Record object := mkObject { inner_ : E; registered_ : bool; layer_index_ : Z }.
#[export] Instance eta_object : Eta object := λ s, mkObject (inner_ s) (registered_ s) (layer_index_ s).

Record world := mkWorld {
  encoders_ : list (nat * Z);
  last_update_ : BweUpdate;
  objects : gmap nat object;
  calls : list (RateControlParameters * list nat);   (* updates in flight: what is left of the copy *)
}.
#[export] Instance eta_world : Eta world := λ s,
  mkWorld (encoders_ s) (last_update_ s) (objects s) (calls s).
Definition empty_world : world := mkWorld [] no_update ∅ [].

Inductive bwe_event :=
| Inner (p : nat) (e : event)
| SinkCalled (u : BweUpdate)
| UseAfterFree (p : nat).

Notation M := (eff world bwe_event).

(** A call on the encoder behind a pointer. *)
Definition on_inner {A} (dflt : A) (p : nat) (m : eff E event A) : M A := λ s,
  match objects s !! p with
  | Some o =>
      let '(x, e, es) := m (inner_ o) in
      (x, s <| objects := <[p := o <| inner_ := e |>]> (objects s) |>, Inner p <$> es)
  | None => (dflt, s, [UseAfterFree p])
  end.

(** ** The registry *)

Definition RegisterEncoder (encoder : nat) (layer_index : Z) : M unit :=
  s ← eget;
  if existsb (λ e, (e.1 =? encoder)%nat) (encoders_ s) then mret tt
  else emod (λ s, s <| encoders_ := encoders_ s ++ [(encoder, layer_index)] |>).

Definition UnregisterEncoder (encoder : nat) : M unit :=
  emod (λ s, s <| encoders_ := filter (λ e, e.1 ≠ encoder) (encoders_ s) |>).

Definition update_of (target stable : Z) (link : option Z) (loss rtt : Z) (fps : spec_float) (n : nat) : BweUpdate :=
  mkUpdate (wrap32 target) (wrap32 stable) (match link with Some l => wrap32 l | None => -1 end) loss rtt fps
    (Z.of_nat n).
Definition params_of (target : Z) (fps : spec_float) : RateControlParameters :=
  mkRates (SetBitrate 0 0 (target mod 2 ^ 32) no_bitrates) fps target.

(** [OnBitrateUpdated] up to its loop, which [Deliver] takes one round of. *)
Definition OnBitrateUpdated (target stable : Z) (link : option Z) (loss rtt : Z) (fps : spec_float) : M unit :=
  s ← eget;
  let update := update_of target stable link loss rtt fps (List.length (encoders_ s)) in
  emod (λ s, s <| last_update_ := update |>);;
  emit (SinkCalled update);;
  emod (λ s, s <| calls := calls s ++ [(params_of target fps, (encoders_ s).*1)] |>).

Definition Deliver (k : nat) : M unit :=
  s ← eget;
  match calls s !! k with
  | Some (params, p :: rest) =>
      emod (λ s, s <| calls := <[k := (params, rest)]> (calls s) |>);;
      on_inner tt p (SetRates params)
  | _ => mret tt
  end.

Definition encoder_count (s : world) : nat := List.length (encoders_ s).

(** ** The decorator *)

(** An assignment to a member of decorator [p]. *)
Definition set_registered (p : nat) (b : bool) : M unit :=
  emod (λ s, s <| objects := alter (λ o, o <| registered_ := b |>) p (objects s) |>).

Definition Bwe_InitEncode (p : nat) (cs : option VideoCodec) (st : Settings) : M code :=
  r ← on_inner WEBRTC_VIDEO_CODEC_ERROR p (InitEncode cs st);
  s ← eget;
  match objects s !! p with
  | Some o =>
      ewhen (bool_decide (r = WEBRTC_VIDEO_CODEC_OK) && negb (registered_ o))
        (RegisterEncoder p (layer_index_ o);; set_registered p true);;
      mret r
  | None => mret r
  end.

(** [if (registered_) adapter_->UnregisterEncoder(inner_.get())] *)
Definition drop_registration (p : nat) : M unit :=
  s ← eget;
  match objects s !! p with
  | Some o => ewhen (registered_ o) (UnregisterEncoder p)
  | None => mret tt
  end.

Definition Bwe_Release (p : nat) : M code :=
  drop_registration p;;
  set_registered p false;;
  on_inner WEBRTC_VIDEO_CODEC_ERROR p Release.

Definition Bwe_Encode (p : nat) (frame : VideoFrame) (frame_types : option (list VideoFrameType)) : M code :=
  on_inner WEBRTC_VIDEO_CODEC_ERROR p (Encode a frame frame_types).
Definition Bwe_RegisterEncodeCompleteCallback (p : nat) (callback : option nat) : M code :=
  on_inner WEBRTC_VIDEO_CODEC_ERROR p (RegisterEncodeCompleteCallback callback).
Definition Bwe_SetRates (p : nat) (parameters : RateControlParameters) : M unit :=
  on_inner tt p (SetRates parameters).

(** The destructor of the decorator; that of the encoder it owns releases it. *)
Definition Bwe_destroy (p : nat) : M unit :=
  drop_registration p;;
  on_inner WEBRTC_VIDEO_CODEC_ERROR p Release;;
  emod (λ s, s <| objects := delete p (objects s) |>).

(** [WrapWithBweAdapter] with an adapter: a decorator at a free address. *)
Definition WrapWithBweAdapter (p : nat) (inner : E) (layer_index : Z) : M unit :=
  emod (λ s, s <| objects := <[p := mkObject inner false layer_index]> (objects s) |>).

(** ** Executions *)

Inductive input :=
| Wrap (p : nat) (inner : E) (layer_index : Z)
| Call (p : nat) (c : call)
| Destroy (p : nat)
| Update (target stable : Z) (link : option Z) (loss rtt : Z) (fps : spec_float)
| Continue (k : nat).

Definition decorated (p : nat) (c : call) : M unit :=
  match c with
  | CallInit cs st => Bwe_InitEncode p cs st;; mret tt
  | CallEncode f ft => Bwe_Encode p f ft;; mret tt
  | CallRegister cb => Bwe_RegisterEncodeCompleteCallback p cb;; mret tt
  | CallRelease => Bwe_Release p;; mret tt
  | CallRates ps => Bwe_SetRates p ps
  end.

Definition handle (i : input) : M unit :=
  match i with
  | Wrap p e l => WrapWithBweAdapter p e l
  | Call p c => decorated p c
  | Destroy p => Bwe_destroy p
  | Update t st link loss rtt fps => OnBitrateUpdated t st link loss rtt fps
  | Continue k => Deliver k
  end.

Definition alive (p : nat) (s : world) : bool := bool_decide (is_Some (objects s !! p)).
(** The next encoder of an update in flight. *)
Definition next_of (k : nat) (s : world) : option (RateControlParameters * nat) :=
  match calls s !! k with Some (params, p :: _) => Some (params, p) | _ => None end.

Definition enabled (i : input) (s : world) : bool :=
  match i with
  | Wrap p _ _ => negb (alive p s)
  | Call p _ | Destroy p => alive p s
  | Update _ _ _ _ _ _ => true
  | Continue k => bool_decide (is_Some (next_of k s))
  end.

Lemma on_inner_run {A} (dflt : A) p (m : eff E event A) s o : objects s !! p = Some o →
  on_inner dflt p m s = (result m (inner_ o),
    s <| objects := <[p := o <| inner_ := exec m (inner_ o) |>]> (objects s) |>,
    Inner p <$> events m (inner_ o)).
Proof. intros Ho. unfold on_inner, result, exec, events. rewrite Ho. by destruct (m (inner_ o)) as [[x e] es]. Qed.
Lemma alive_object p s : alive p s = true ↔ ∃ o, objects s !! p = Some o.
Proof. unfold alive. rewrite bool_decide_eq_true. done. Qed.

(** ** The registry is exact *)

Definition flags (s : world) : gmap nat (bool * Z) := (λ o, (registered_ o, layer_index_ o)) <$> objects s.

(** The encoders registered are those of the decorators that say so, once each. *)
Definition exact (encoders : list (nat * Z)) (fl : gmap nat (bool * Z)) : Prop :=
  NoDup encoders.*1 ∧ ∀ p l, (p, l) ∈ encoders ↔ fl !! p = Some (true, l).
Definition registry_ok (s : world) : Prop := exact (encoders_ s) (flags s).

Lemma exact_add encoders fl p l : exact encoders fl → fl !! p = Some (false, l) →
  exact (encoders ++ [(p, l)]) (<[p := (true, l)]> fl).
Proof.
  intros [Hn Hx] Hp. split.
  - rewrite fmap_app. apply NoDup_app. split; [done|]. split; [|apply NoDup_singleton].
    intros q Hq Hin. apply list_elem_of_singleton in Hin as ->.
    apply list_elem_of_fmap in Hq as ([q l'] & Heq & Hq). apply Hx in Hq. simpl in Heq. subst. congruence.
  - intros q l'. rewrite elem_of_app, Hx, list_elem_of_singleton.
    destruct (decide (q = p)) as [->|Hne].
    + rewrite Hp, lookup_insert_eq. naive_solver.
    + rewrite lookup_insert_ne by done. naive_solver.
Qed.
Lemma exact_drop encoders fl p : exact encoders fl → exact (filter (λ e, e.1 ≠ p) encoders) (delete p fl).
Proof.
  intros [Hn Hx]. split.
  - eapply sublist_NoDup; [exact Hn|]. apply fmap_sublist, sublist_filter.
  - intros q l. rewrite list_elem_of_filter, Hx. simpl. destruct (decide (q = p)) as [->|Hne].
    + rewrite lookup_delete_eq. naive_solver.
    + rewrite lookup_delete_ne by done. naive_solver.
Qed.
(** Flags that agree on who is registered. *)
Lemma exact_same encoders fl fl' : exact encoders fl →
  (∀ q l, fl' !! q = Some (true, l) ↔ fl !! q = Some (true, l)) → exact encoders fl'.
Proof. intros [Hn Hx] H. split; [done|]. intros q l. by rewrite Hx, H. Qed.

(** What [on_inner] leaves alone. *)
Definition registry (s : world) := (encoders_ s, flags s).
Lemma on_inner_registry {A} (dflt : A) p m s :
  registry (exec (on_inner dflt p m) s) = registry s ∧ calls (exec (on_inner dflt p m) s) = calls s.
Proof.
  unfold exec, on_inner. destruct (objects s !! p) as [o|] eqn:Ho; [|done].
  destruct (m (inner_ o)) as [[x e] es]. simpl. split; [|done]. unfold registry, flags. simpl.
  rewrite fmap_insert. simpl. f_equal. apply insert_id. by rewrite lookup_fmap, Ho.
Qed.

Lemma not_registered p l encs fl : exact encs fl → fl !! p = Some (false, l) →
  existsb (λ e : nat * Z, (e.1 =? p)%nat) encs = false.
Proof.
  intros [_ Hx] Hp. apply not_true_is_false. intros ([q l'] & Hin & Hq)%existsb_exists.
  apply Nat.eqb_eq in Hq. simpl in Hq. subst q. apply list_elem_of_In, Hx in Hin. congruence.
Qed.

Lemma flags_set p b s o : objects s !! p = Some o →
  flags (exec (set_registered p b) s) = <[p := (b, layer_index_ o)]> (flags s).
Proof.
  intros Ho. unfold set_registered, exec, emod, flags. simpl. apply map_eq. intros q.
  rewrite lookup_fmap. destruct (decide (q = p)) as [->|Hne].
  - by rewrite lookup_alter_eq, Ho, lookup_insert_eq.
  - by rewrite lookup_alter_ne, lookup_insert_ne, lookup_fmap by done.
Qed.
Lemma flags_alive p s b l : flags s !! p = Some (b, l) ↔
  ∃ o, objects s !! p = Some o ∧ registered_ o = b ∧ layer_index_ o = l.
Proof.
  unfold flags. rewrite lookup_fmap. destruct (objects s !! p); simpl; [|naive_solver].
  split; [intros H; simplify_eq; eauto|intros (o' & ? & <- & <-); by simplify_eq].
Qed.

Lemma on_inner_ok {A} (dflt : A) p m s : registry_ok s → registry_ok (exec (on_inner dflt p m) s).
Proof.
  intros H. destruct (on_inner_registry dflt p m s) as [Hr _]. unfold registry in Hr. unfold registry_ok.
  by injection Hr as -> ->.
Qed.

Lemma init_ok p cs st s : registry_ok s → registry_ok (exec (Bwe_InitEncode p cs st) s).
Proof.
  intros Hok. unfold Bwe_InitEncode. rewrite exec_bind. set (s1 := exec (on_inner _ p _) s). set (r := result _ s).
  assert (registry_ok s1) as H1 by apply on_inner_ok, Hok.
  rewrite exec_get. destruct (objects s1 !! p) as [o|] eqn:Ho; [|exact H1].
  rewrite exec_bind. change (registry_ok (exec (mret ?x) ?y)) with (registry_ok y).
  destruct (bool_decide (r = WEBRTC_VIDEO_CODEC_OK) && negb (registered_ o)) eqn:Hb; [|exact H1].
  apply andb_true_iff in Hb as [_ Hb]. apply negb_true_iff in Hb. cbn [ewhen].
  assert (flags s1 !! p = Some (false, layer_index_ o)) as Hf by (apply flags_alive; eauto).
  rewrite exec_bind. unfold RegisterEncoder. rewrite exec_get, (not_registered _ _ _ _ H1 Hf).
  unfold registry_ok. rewrite (flags_set _ _ _ o) by done. by apply exact_add.
Qed.

Lemma drop_ok p s : registry_ok s → let s1 := exec (drop_registration p) s in
  objects s1 = objects s ∧ exact (encoders_ s1) (delete p (flags s)).
Proof.
  intros Hok. unfold drop_registration. rewrite exec_get.
  assert ((∀ l, flags s !! p ≠ Some (true, l)) → exact (encoders_ s) (delete p (flags s))) as Hkeep.
  { intros Hp. eapply exact_same; [exact Hok|]. intros q l. destruct (decide (q = p)) as [->|Hne].
    - rewrite lookup_delete_eq. specialize (Hp l). naive_solver.
    - by rewrite lookup_delete_ne. }
  destruct (objects s !! p) as [o|] eqn:Ho.
  - destruct (registered_ o) eqn:Hr; cbn [ewhen]; [split; [done|by apply exact_drop]|].
    split; [done|]. apply Hkeep. intros l (o' & Ho' & Hr' & _)%flags_alive. congruence.
  - split; [done|]. apply Hkeep. intros l (o' & Ho' & _)%flags_alive. congruence.
Qed.

Lemma release_ok p s : registry_ok s → registry_ok (exec (Bwe_Release p) s).
Proof.
  intros Hok. unfold Bwe_Release. rewrite !exec_bind. apply on_inner_ok.
  destruct (drop_ok p s Hok) as [Ho He]. set (s1 := exec (drop_registration p) s) in *.
  eapply exact_same; [exact He|]. intros q l. unfold flags. simpl. rewrite Ho, lookup_fmap.
  destruct (decide (q = p)) as [->|Hne].
  - rewrite lookup_alter_eq, lookup_delete_eq. destruct (objects s !! p); simpl; naive_solver.
  - by rewrite lookup_alter_ne, lookup_delete_ne, lookup_fmap by done.
Qed.

Lemma destroy_ok p s : registry_ok s → registry_ok (exec (Bwe_destroy p) s).
Proof.
  intros Hok. unfold Bwe_destroy. rewrite !exec_bind. destruct (drop_ok p s Hok) as [Ho He].
  set (s1 := exec (drop_registration p) s) in *.
  destruct (on_inner_registry WEBRTC_VIDEO_CODEC_ERROR p Release s1) as [Hr _].
  unfold registry in Hr. injection Hr as Hen Hf. unfold registry_ok, flags. simpl. rewrite fmap_delete.
  fold (flags (exec (on_inner WEBRTC_VIDEO_CODEC_ERROR p Release) s1)). rewrite Hen, Hf. unfold flags. by rewrite Ho.
Qed.

Lemma wrap_ok p e l s : registry_ok s → objects s !! p = None → registry_ok (exec (WrapWithBweAdapter p e l) s).
Proof.
  intros Hok Hp. eapply exact_same; [exact Hok|]. intros q l'. unfold flags. simpl. rewrite fmap_insert.
  destruct (decide (q = p)) as [->|Hne]; [|by rewrite lookup_insert_ne].
  rewrite lookup_insert_eq, lookup_fmap, Hp. simpl. naive_solver.
Qed.

Lemma deliver_ok k s : registry_ok s → registry_ok (exec (Deliver k) s).
Proof.
  intros Hok. unfold Deliver. rewrite exec_get. destruct (calls s !! k) as [[ps [|p rest]]|]; [exact Hok| |exact Hok].
  rewrite exec_bind. by apply on_inner_ok.
Qed.

Lemma registry_step i s : registry_ok s → enabled i s = true → registry_ok (exec (handle i) s).
Proof.
  intros Hok Hen. destruct i as [p e l|p c|p|t st link loss rtt fps|k]; cbn [handle].
  - apply wrap_ok; [done|]. cbn [enabled] in Hen. destruct (objects s !! p) eqn:Hp; [|done].
    assert (alive p s = true) as Ha by (apply alive_object; eauto). by rewrite Ha in Hen.
  - destruct c; cbn [decorated]; try (rewrite exec_bind; apply on_inner_ok, Hok).
    + rewrite exec_bind. by apply init_ok.
    + rewrite exec_bind. by apply release_ok.
    + by apply on_inner_ok.
  - by apply destroy_ok.
  - exact Hok.
  - by apply deliver_ok.
Qed.
Lemma empty_ok : registry_ok empty_world.
Proof. split; [constructor|]. intros p l. rewrite elem_of_nil. by split. Qed.

(** C34. In every execution, whatever is destroyed without Release and however
    updates interleave, the registry holds exactly the encoders of the
    decorators that are alive and registered, once each, with their layers. *)
Theorem registry_exact s tr : reachable enabled handle empty_world s tr →
  NoDup (encoders_ s).*1 ∧
  ∀ p l, (p, l) ∈ encoders_ s ↔ ∃ o, objects s !! p = Some o ∧ registered_ o = true ∧ layer_index_ o = l.
Proof.
  intros Hr. assert (registry_ok s) as [Hn Hx].
  { revert s tr Hr. apply reachable_inv; [exact empty_ok|]. intros i s. apply registry_step. }
  split; [done|]. intros p l. by rewrite Hx, flags_alive.
Qed.

(** ** The decorator is transparent *)

Definition inner_at (p : nat) (e : bwe_event) : option event :=
  match e with Inner q e => if (q =? p)%nat then Some e else None | _ => None end.

(** What the encoder behind [p] is told by an input. *)
Definition received (p : nat) (i : input) (s : world) : list call :=
  match i with
  | Call q c => if (q =? p)%nat then [c] else []
  | Continue k =>
      match next_of k s with
      | Some (ps, q) => if (q =? p)%nat then [CallRates ps] else []
      | None => []
      end
  | _ => []
  end.
Fixpoint all_received (p : nat) (ins : list input) (s : world) : list call :=
  match ins with
  | [] => []
  | i :: ins' => received p i s ++ all_received p ins' (exec (handle i) s)
  end.

(** To the encoder behind [p], [m] is [n]. *)
Definition tracks {A B} (p : nat) (m : M A) (n : eff E event B) : Prop := ∀ s o, objects s !! p = Some o →
  ∃ o', objects (exec m s) !! p = Some o' ∧ inner_ o' = exec n (inner_ o) ∧
    omap (inner_at p) (events m s) = events n (inner_ o).
Notation silent p m := (tracks p m (mret tt)).

Lemma omap_inner p (es : list event) : omap (inner_at p) (Inner p <$> es) = es.
Proof. induction es as [|e es IH]; [done|]. csimpl. by rewrite Nat.eqb_refl, IH. Qed.
Lemma omap_other p q (es : list event) : q ≠ p → omap (inner_at p) (Inner q <$> es) = [].
Proof. intros H. induction es as [|e es IH]; [done|]. csimpl. apply Nat.eqb_neq in H. by rewrite H. Qed.

Lemma tracks_inner {A} (d : A) p m : tracks p (on_inner d p m) m.
Proof.
  intros s o Ho. unfold exec at 1, events at 1. rewrite (on_inner_run _ _ _ _ _ Ho). simpl.
  eexists. rewrite lookup_insert_eq, omap_inner. done.
Qed.
Lemma silent_other {A} (d : A) p q m : q ≠ p → silent p (on_inner d q m).
Proof.
  intros Hq s o Ho. exists o. destruct (objects s !! q) as [o2|] eqn:Ho2.
  - unfold exec at 1, events at 1. rewrite (on_inner_run _ _ _ _ _ Ho2). simpl.
    by rewrite lookup_insert_ne, omap_other by done.
  - unfold on_inner, exec, events. rewrite Ho2. done.
Qed.
Lemma tracks_then {A B C} p (m : M A) (f : A → M B) (n : eff E event C) :
  tracks p m n → (∀ x, silent p (f x)) → tracks p (m ≫= f) n.
Proof.
  intros Hm Hf s o Ho. destruct (Hm s o Ho) as (o1 & H1 & H2 & H3).
  destruct (Hf (result m s) (exec m s) o1 H1) as (o2 & H4 & H5 & H6). exists o2.
  rewrite exec_bind, events_bind, omap_app, H3, H6, H5. by rewrite app_nil_r.
Qed.
Lemma silent_then {A B C} p (m : M A) (f : A → M B) (n : eff E event C) :
  silent p m → (∀ x, tracks p (f x) n) → tracks p (m ≫= f) n.
Proof.
  intros Hm Hf s o Ho. destruct (Hm s o Ho) as (o1 & H1 & H2 & H3).
  destruct (Hf (result m s) (exec m s) o1 H1) as (o2 & H4 & H5 & H6). exists o2.
  rewrite exec_bind, events_bind, omap_app, H3, H6, H5, H2. done.
Qed.
Lemma silent_same {A} p (m : M A) : (∀ s, objects (exec m s) = objects s) →
  (∀ s, omap (inner_at p) (events m s) = []) → silent p m.
Proof. intros H1 H2 s o Ho. exists o. by rewrite H1, H2. Qed.
Lemma silent_set p q b : silent p (set_registered q b).
Proof.
  intros s o Ho. unfold set_registered, exec, emod. simpl. destruct (decide (q = p)) as [->|Hq].
  - rewrite lookup_alter_eq, Ho. by eexists.
  - rewrite lookup_alter_ne, Ho by done. by eexists.
Qed.
Lemma silent_drop p q : silent p (drop_registration q).
Proof.
  apply silent_same; intros s; unfold drop_registration; rewrite ?exec_get, ?events_get;
    (destruct (objects s !! q) as [o|]; [destruct (registered_ o)|]); done.
Qed.

(** A call on decorator [q] is the call itself to its encoder and nothing to
    another. *)
Lemma tracks_init p q cs st {B} (n : eff E event B) :
  tracks p (on_inner WEBRTC_VIDEO_CODEC_ERROR q (InitEncode cs st)) n → tracks p (Bwe_InitEncode q cs st) n.
Proof.
  intros H. unfold Bwe_InitEncode. apply tracks_then; [exact H|]. intros r. intros s o Ho. rewrite exec_get, events_get.
  destruct (objects s !! q) as [o2|]; [|by exists o]. revert s o Ho. apply silent_then; [|intros _; apply silent_same; done].
  destruct (_ && _); [|apply silent_same; done]. cbn [ewhen]. apply silent_then; [|intros _; apply silent_set].
  apply silent_same; intros s; unfold RegisterEncoder; rewrite ?exec_get, ?events_get; by case_match.
Qed.
Lemma tracks_release p q {B} (n : eff E event B) :
  tracks p (on_inner WEBRTC_VIDEO_CODEC_ERROR q Release) n → tracks p (Bwe_Release q) n.
Proof.
  intros H. unfold Bwe_Release. apply silent_then; [apply silent_drop|]. intros _.
  apply silent_then; [apply silent_set|]. by intros _.
Qed.
Lemma tracks_call p c : tracks p (decorated p c) (handle_call a c).
Proof.
  assert (∀ {A} (m : M A) (n : eff E event A), tracks p m n → tracks p (m;; mret tt) (n;; mret tt)) as Hret.
  { intros A m n H s o Ho. destruct (H s o Ho) as (o' & H1 & H2 & H3). exists o'.
    rewrite !exec_bind, !events_bind, omap_app, H3. change (exec (mret ?x) ?y) with y. by rewrite !app_nil_r. }
  destruct c; cbn [decorated handle_call]; first [apply Hret|idtac].
  - apply tracks_init, tracks_inner.
  - apply tracks_inner.
  - apply tracks_inner.
  - apply tracks_release, tracks_inner.
  - apply tracks_inner.
Qed.
Lemma silent_call p q c : q ≠ p → silent p (decorated q c).
Proof.
  intros Hq. destruct c; cbn [decorated];
    try (apply tracks_then; [|intros _; apply silent_same; done]).
  - apply tracks_init, silent_other, Hq.
  - by apply silent_other.
  - by apply silent_other.
  - apply tracks_release, silent_other, Hq.
  - by apply silent_other.
Qed.

Lemma track_step p i s o : objects s !! p = Some o → enabled i s = true → i ≠ Destroy p →
  ∃ o', objects (exec (handle i) s) !! p = Some o' ∧
    inner_ o' = exec (run (handle_call a) (received p i s)) (inner_ o) ∧
    omap (inner_at p) (events (handle i) s) = events (run (handle_call a) (received p i s)) (inner_ o).
Proof.
  intros Ho Hen Hd. destruct i as [q e l|q c|q|t st link loss rtt fps|k]; cbn [handle received enabled] in *.
  - assert (q ≠ p) as Hq by (intros ->; apply negb_true_iff in Hen; assert (alive p s = true) by (apply alive_object; eauto);
      congruence).
    exists o. unfold WrapWithBweAdapter, exec at 1, emod. simpl. by rewrite lookup_insert_ne.
  - destruct (q =? p)%nat eqn:Hq.
    + apply Nat.eqb_eq in Hq as ->. unfold exec at 2, events at 2. rewrite run_one. by apply tracks_call.
    + apply Nat.eqb_neq in Hq. by apply silent_call.
  - assert (q ≠ p) as Hq by congruence. revert s o Ho Hen. intros s o Ho _. revert s o Ho.
    unfold Bwe_destroy. apply silent_then; [apply silent_drop|]. intros _.
    apply silent_then; [by apply silent_other|]. intros _ s o Ho. exists o. simpl. by rewrite lookup_delete_ne.
  - exists o. done.
  - unfold Deliver. rewrite exec_get, events_get. unfold next_of.
    destruct (calls s !! k) as [[ps [|q rest]]|]; [by exists o| |by exists o].
    destruct (q =? p)%nat eqn:Hq.
    + apply Nat.eqb_eq in Hq as ->. unfold exec at 2, events at 2. rewrite run_one. revert s o Ho Hen.
      intros s o Ho _. revert s o Ho. apply silent_then; [by apply silent_same|]. intros _. apply tracks_inner.
    + apply Nat.eqb_neq in Hq. revert s o Ho Hen. intros s o Ho _. revert s o Ho.
      apply silent_then; [by apply silent_same|]. intros _. by apply silent_other.
Qed.

(** However calls on the decorators and updates interleave, an encoder that is
    not destroyed does exactly what it would do, alone, with the calls made on
    its decorator and the rates of the updates that reach it. *)
Theorem wrapping_is_transparent p ins s o : objects s !! p = Some o →
  all_enabled enabled handle ins s = true → Destroy p ∉ ins →
  let alone := run (handle_call a) (all_received p ins s) in
  ∃ o', objects (exec (run handle ins) s) !! p = Some o' ∧ inner_ o' = exec alone (inner_ o) ∧
    omap (inner_at p) (events (run handle ins) s) = events alone (inner_ o).
Proof.
  cbv zeta. revert s o. induction ins as [|i ins IH]; intros s o Ho Hen Hd; [by exists o|].
  cbn [all_enabled] in Hen. apply andb_true_iff in Hen as [Hi Hen]. apply not_elem_of_cons in Hd as [Hd1 Hd2].
  destruct (track_step p i s o Ho Hi) as (o1 & H1 & H2 & H3); [congruence|].
  destruct (IH _ _ H1 Hen Hd2) as (o2 & H4 & H5 & H6). exists o2.
  destruct (run_first handle i ins s) as [-> ->]. cbn [all_received].
  destruct (run_app (handle_call a) (received p i s) (all_received p ins (exec (handle i) s)) (inner_ o))
    as [-> ->]. by rewrite <-H2, omap_app, H3, H6.
Qed.

(** ** Updates in flight *)

Definition dangling (e : bwe_event) : option nat := match e with UseAfterFree p => Some p | _ => None end.
Definition sunk (e : bwe_event) : option BweUpdate := match e with SinkCalled u => Some u | _ => None end.

Lemma on_inner_keeps_alive {A} (d : A) p q m s : alive q s = true → alive q (exec (on_inner d p m) s) = true.
Proof.
  rewrite !alive_object. intros [o Ho]. unfold exec, on_inner. destruct (objects s !! p) as [o2|] eqn:Ho2; [|by exists o].
  destruct (m (inner_ o2)) as [[x e] es]. simpl. destruct (decide (q = p)) as [->|Hq].
  - rewrite lookup_insert_eq. by eexists.
  - rewrite lookup_insert_ne by done. by exists o.
Qed.
Lemma on_inner_quiet {A} (d : A) p m s : alive p s = true →
  omap dangling (events (on_inner d p m) s) = [] ∧ omap sunk (events (on_inner d p m) s) = [].
Proof.
  intros [o Ho]%alive_object. unfold events at 1 2. rewrite (on_inner_run _ _ _ _ _ Ho). simpl.
  induction (events m (inner_ o)) as [|e es [IH1 IH2]]; [done|]. csimpl. done.
Qed.

Lemma deliver_one k s ps p rest : calls s !! k = Some (ps, p :: rest) → alive p s = true →
  let s' := exec (Deliver k) s in
  calls s' !! k = Some (ps, rest) ∧ (∀ q, alive q s = true → alive q s' = true) ∧
  omap dangling (events (Deliver k) s) = [] ∧ omap sunk (events (Deliver k) s) = [].
Proof.
  intros Hk Hp. cbv zeta. unfold Deliver. rewrite !exec_get, !events_get, Hk. rewrite !exec_bind, !events_bind.
  set (s1 := exec (emod _) s). assert (alive p s1 = true) as Hp1 by done.
  destruct (on_inner_quiet tt p (SetRates ps) s1 Hp1) as [H1 H2].
  destruct (on_inner_registry tt p (SetRates ps) s1) as [_ Hc]. rewrite Hc.
  change (events (emod ?f) s) with (@nil bwe_event). cbn [app]. split; [|split; [|done]].
  - unfold s1, exec, emod. simpl. apply list_lookup_insert_eq. by eapply lookup_lt_Some.
  - intros q Hq. by apply on_inner_keeps_alive.
Qed.

(** The rounds of an update whose encoders are alive. *)
Lemma deliver_all k ps ptrs s : calls s !! k = Some (ps, ptrs) → Forall (λ q, alive q s = true) ptrs →
  let ins := replicate (List.length ptrs) (Continue k) in
  all_enabled enabled handle ins s = true ∧ calls (exec (run handle ins) s) !! k = Some (ps, []) ∧
  (∀ p, all_received p ins s = (λ _, CallRates ps) <$> filter (λ q, q = p) ptrs) ∧
  omap dangling (events (run handle ins) s) = [] ∧ omap sunk (events (run handle ins) s) = [].
Proof.
  cbv zeta. revert s. induction ptrs as [|p ptrs IH]; intros s Hk Ha; [by repeat split|].
  apply Forall_cons in Ha as [Hp Ha]. cbn [List.length replicate all_enabled all_received].
  destruct (run_first handle (Continue k) (replicate (List.length ptrs) (Continue k)) s) as [-> ->].
  destruct (deliver_one k s ps p ptrs Hk Hp) as (H1 & H2 & H3 & H4). cbn [handle] in *.
  destruct (IH (exec (Deliver k) s) H1) as (I1 & I2 & I3 & I4 & I5); [by eapply Forall_impl|].
  assert (next_of k s = Some (ps, p)) as Hn by (unfold next_of; by rewrite Hk).
  rewrite I1, andb_true_r, !omap_app, H3, H4, I4, I5. cbn [enabled received]. rewrite Hn.
  split; [by apply bool_decide_eq_true; eexists|]. split; [done|]. split; [|done].
  intros q. rewrite I3, filter_cons. destruct (p =? q)%nat eqn:Hq.
  - apply Nat.eqb_eq in Hq. by rewrite decide_True.
  - apply Nat.eqb_neq in Hq. by rewrite decide_False.
Qed.

(** In every state that can be reached, an update that nothing comes between
    tells its sink the number of encoders, and gives the target once to every
    registered encoder and to no other. *)
Theorem update_reaches_registered s tr target stable link loss rtt fps : reachable enabled handle empty_world s tr →
  let n := List.length (encoders_ s) in
  let ins := Update target stable link loss rtt fps :: replicate n (Continue (List.length (calls s))) in
  all_enabled enabled handle ins s = true ∧
  omap sunk (events (run handle ins) s) = [update_of target stable link loss rtt fps n] ∧
  omap dangling (events (run handle ins) s) = [] ∧
  ∀ p o, objects s !! p = Some o →
    all_received p ins s = if registered_ o then [CallRates (params_of target fps)] else [].
Proof.
  intros Hr. destruct (registry_exact s tr Hr) as [Hn Hx]. cbv zeta. cbn [all_enabled all_received enabled received].
  set (i := Update _ _ _ _ _ _). set (s1 := exec (handle i) s).
  destruct (run_first handle i (replicate (List.length (encoders_ s)) (Continue (List.length (calls s)))) s) as [_ ->].
  destruct (deliver_all (List.length (calls s)) (params_of target fps) (encoders_ s).*1 s1) as (H1 & _ & H3 & H4 & H5).
  - unfold s1. simpl. by apply list_lookup_middle.
  - apply Forall_forall. intros q ([q' l] & -> & Hq)%list_elem_of_fmap. apply Hx in Hq as (o & Ho & _).
    apply alive_object. by exists o.
  - fold s1. rewrite length_fmap in *. rewrite !omap_app, H1, H4, H5. split; [done|]. split; [done|]. split; [done|].
    intros p o Ho. rewrite H3. simpl. destruct (registered_ o) eqn:Hreg.
    + assert ((p, layer_index_ o) ∈ encoders_ s) as Hin by (apply Hx; eauto).
      assert (p ∈ (encoders_ s).*1) as Hp by (apply list_elem_of_fmap; by exists (p, layer_index_ o)).
      apply list_elem_of_split in Hp as (l1 & l2 & Hl). rewrite Hl in *.
      apply NoDup_app in Hn as (N1 & N2 & N3). apply NoDup_cons in N3 as [N3 _].
      rewrite filter_app, filter_cons_True by done.
      rewrite (filter_none _ l1), (filter_none _ l2); [done|..]; apply Forall_forall; intros q Hq ->.
      * done.
      * apply (N2 p Hq). set_solver.
    + rewrite filter_none; [done|]. apply Forall_forall. intros q ([q' l] & -> & Hq)%list_elem_of_fmap Hqp.
      apply Hx in Hq as (o2 & Ho2 & Hreg2 & _). simpl in Hqp. congruence.
Qed.

(** Nothing in flight points at an encoder that is gone. *)
Definition in_flight_ok (s : world) : Prop := Forall (λ c, Forall (λ p, alive p s = true) c.2) (calls s).
(** The process destroys no encoder that an update in flight still has to reach. *)
Definition careful (i : input) (s : world) : bool :=
  enabled i s &&
  match i with Destroy p => forallb (λ c, negb (bool_decide (p ∈ c.2))) (calls s) | _ => true end.

(** What a call on a living decorator does to the others: nothing. *)
Definition aside (p : nat) (s : world) (es : list bwe_event) (s' : world) : Prop := alive p s = true →
  calls s' = calls s ∧ (∀ q, alive q s = true → alive q s' = true) ∧ omap dangling es = [].
#[local] Instance aside_rel p : TraceRel (aside p).
Proof.
  split; [by intros s _|]. intros s1 s2 s3 es1 es2 H1 H2 Hp. destruct (H1 Hp) as (C1 & A1 & D1).
  destruct (H2 (A1 p Hp)) as (C2 & A2 & D2). rewrite C2, C1, omap_app, D1, D2. by split; [|split; [auto|]].
Qed.
Lemma inner_aside {A} (d : A) p m : respects (aside p) (on_inner d p m).
Proof.
  intros s Hp. destruct (on_inner_registry d p m s) as [_ ->]. split; [done|].
  split; [intros q; apply on_inner_keeps_alive|by apply on_inner_quiet].
Qed.
Lemma same_aside {A} p (m : M A) : (∀ s, calls (exec m s) = calls s) → (∀ s, objects (exec m s) = objects s) →
  (∀ s, events m s = []) → respects (aside p) m.
Proof. intros H1 H2 H3 s _. rewrite H1, H3. split; [done|]. split; [|done]. intros q. unfold alive. by rewrite H2. Qed.
Lemma set_aside p q b : respects (aside p) (set_registered q b).
Proof.
  intros s _. split; [done|]. split; [|done]. intros r. rewrite !alive_object. intros [o Ho].
  unfold set_registered, exec, emod. simpl. destruct (decide (r = q)) as [->|Hr].
  - rewrite lookup_alter_eq, Ho. by eexists.
  - rewrite lookup_alter_ne by done. by exists o.
Qed.
Lemma drop_aside p q : respects (aside p) (drop_registration q).
Proof.
  apply respects_get. intros s0. destruct (objects s0 !! q) as [o|]; [|apply respects_ret, _].
  destruct (registered_ o); [|apply respects_ret, _]. by apply same_aside.
Qed.
Lemma init_aside p cs st : respects (aside p) (Bwe_InitEncode p cs st).
Proof.
  apply respects_bind; [apply _|apply inner_aside|]. intros r. apply respects_get. intros s.
  destruct (objects s !! p) as [o|]; [|apply respects_ret, _].
  apply respects_bind; [apply _| |intros _; apply respects_ret, _]. destruct (_ && _); [|apply respects_ret, _].
  apply respects_bind; [apply _| |intros _; apply set_aside].
  apply respects_get. intros s1. destruct (existsb _ _); [apply respects_ret, _|]. by apply same_aside.
Qed.
Lemma release_aside p : respects (aside p) (Bwe_Release p).
Proof.
  apply respects_bind; [apply _|apply drop_aside|]. intros _.
  apply respects_bind; [apply _|apply set_aside|]. intros _. apply inner_aside.
Qed.
Lemma decorated_aside p c : respects (aside p) (decorated p c).
Proof.
  destruct c; cbn [decorated]; try (apply respects_bind; [apply _| |intros _; apply respects_ret, _]).
  - apply init_aside.
  - apply inner_aside.
  - apply inner_aside.
  - apply release_aside.
  - apply inner_aside.
Qed.

Lemma in_flight_mono s s' : in_flight_ok s → calls s' = calls s →
  (∀ c q, c ∈ calls s → q ∈ c.2 → alive q s = true → alive q s' = true) → in_flight_ok s'.
Proof.
  unfold in_flight_ok. intros Hok -> Hal. rewrite Forall_forall in *. intros c Hc. specialize (Hok c Hc).
  rewrite Forall_forall in *. intros q Hq. eauto.
Qed.

Lemma destroy_step p s : in_flight_ok s → careful (Destroy p) s = true →
  in_flight_ok (exec (Bwe_destroy p) s) ∧ omap dangling (events (Bwe_destroy p) s) = [].
Proof.
  intros Hok [Hp Hc]%andb_true_iff. cbn [enabled] in Hp. unfold Bwe_destroy.
  set (m := drop_registration p;; on_inner WEBRTC_VIDEO_CODEC_ERROR p Release).
  assert (respects (aside p) m) as Hm.
  { apply respects_bind; [apply _|apply drop_aside|]. intros _. apply inner_aside. }
  destruct (Hm s Hp) as (C & A & D). unfold m in C, A, D.
  rewrite exec_bind in C, A. rewrite events_bind in D.
  set (s1 := exec (drop_registration p) s) in *. rewrite !exec_bind, !events_bind.
  set (s2 := exec (on_inner _ p Release) s1) in *. split;
    [|change (events (emod ?f) ?x) with (@nil bwe_event); by rewrite app_nil_r].
  eapply in_flight_mono; [exact Hok|exact C|]. intros c q Hin Hq Ha. apply A in Ha.
  assert (q ≠ p) as Hne.
  { intros ->. rewrite forallb_forall in Hc. apply list_elem_of_In in Hin. specialize (Hc c Hin).
    by rewrite bool_decide_eq_true_2 in Hc. }
  unfold alive, exec, emod in *. simpl. by rewrite lookup_delete_ne.
Qed.

Lemma in_flight_step i s : registry_ok s → in_flight_ok s → careful i s = true →
  in_flight_ok (exec (handle i) s) ∧ omap dangling (events (handle i) s) = [].
Proof.
  intros Hreg Hok Hc. destruct i as [p e l|p c|p|t st link loss rtt fps|k]; cbn [handle];
    [| |by apply destroy_step|..]; apply andb_true_iff in Hc as [Hen _]; cbn [enabled] in Hen.
  - split; [|done]. eapply in_flight_mono; [exact Hok|done|]. intros c q _ _. rewrite !alive_object. intros [o Ho].
    simpl. destruct (decide (q = p)) as [->|Hq]; [rewrite lookup_insert_eq; by eexists|].
    rewrite lookup_insert_ne by done. by exists o.
  - destruct (decorated_aside p c s Hen) as (C & A & D). split; [|done]. eapply in_flight_mono; [exact Hok|exact C|auto].
  - split; [|done]. unfold in_flight_ok. simpl. apply Forall_app. split; [exact Hok|].
    apply Forall_cons. split; [|constructor]. simpl. apply Forall_forall.
    intros q ([q' l] & -> & Hq)%list_elem_of_fmap. apply Hreg in Hq. apply flags_alive in Hq as (o & Ho & _).
    apply alive_object. by exists o.
  - apply bool_decide_eq_true in Hen as [[ps p] Hn]. unfold next_of in Hn.
    destruct (calls s !! k) as [[ps' [|p' rest]]|] eqn:Hk; simplify_eq.
    assert (Forall (λ q, alive q s = true) (p :: rest)) as Hf.
    { unfold in_flight_ok in Hok. rewrite Forall_lookup in Hok. exact (Hok _ _ Hk). }
    apply Forall_cons in Hf as [Hp Hf]. destruct (deliver_one k s ps p rest Hk Hp) as (H1 & H2 & H3 & _).
    split; [|exact H3]. unfold Deliver, in_flight_ok. rewrite exec_get, Hk, exec_bind.
    set (s1 := exec (emod _) s). destruct (on_inner_registry tt p (SetRates ps) s1) as [_ ->].
    apply Forall_insert; [|simpl].
    + eapply Forall_impl; [exact Hok|]. intros c Hfc. eapply Forall_impl; [exact Hfc|]. intros q Hq.
      by apply on_inner_keeps_alive.
    + eapply Forall_impl; [exact Hf|]. intros q Hq. by apply on_inner_keeps_alive.
Qed.

(** As long as no encoder is destroyed while an update in flight has yet to
    reach it, no update reaches an encoder that is gone. *)
Theorem careful_updates_never_dangle s tr : reachable careful handle empty_world s tr → omap dangling tr = [].
Proof.
  intros Hr. assert (registry_ok s ∧ in_flight_ok s ∧ omap dangling tr = []) as (_ & _ & H); [|done].
  revert s tr Hr. apply reachable_trace_inv.
  - split; [exact empty_ok|by split; [constructor|]].
  - intros i s tr _ (H1 & H2 & H3) Hc. pose proof (in_flight_step i s H1 H2 Hc) as [H4 H5].
    apply andb_true_iff in Hc as [Hen _]. split; [by apply registry_step|]. split; [done|].
    by rewrite omap_app, H3, H5.
Qed.

(** The lock does not cover the update itself: an encoder destroyed between the
    copy and its turn is called after it is freed. *)
Theorem stale_snapshot_dangles s p l rest o target stable link loss rtt fps :
  encoders_ s = (p, l) :: rest → objects s !! p = Some o → registered_ o = true →
  let k := List.length (calls s) in
  let ins := [Update target stable link loss rtt fps; Destroy p; Continue k] in
  all_enabled enabled handle ins s = true ∧ omap dangling (events (run handle ins) s) = [p].
Proof.
  intros Hs Ho Hr. cbv zeta. set (i := Update _ _ _ _ _ _). set (k := List.length (calls s)).
  set (s1 := exec (handle i) s). assert (calls s1 !! k = Some (params_of target fps, p :: rest.*1)) as Hk.
  { unfold s1. simpl. rewrite Hs. by apply list_lookup_middle. }
  assert (objects s1 !! p = Some o) as Ho1 by exact Ho. assert (alive p s1 = true) as Hp by (apply alive_object; eauto).
  assert (calls (exec (Bwe_destroy p) s1) = calls s1 ∧ omap dangling (events (Bwe_destroy p) s1) = [] ∧
    objects (exec (Bwe_destroy p) s1) !! p = None) as (H1 & H2 & H3).
  { destruct (drop_aside p p s1 Hp) as (C1 & A1 & D1). unfold Bwe_destroy. rewrite !exec_bind, !events_bind.
    destruct (inner_aside WEBRTC_VIDEO_CODEC_ERROR p Release (exec (drop_registration p) s1) (A1 p Hp)) as (C2 & _ & D2).
    change (events (emod ?f) ?x) with (@nil bwe_event). rewrite !omap_app, D1, D2. split; [by rewrite <-C1, <-C2|].
    split; [done|]. unfold exec at 1, emod. simpl. apply lookup_delete_eq. }
  destruct (run_first handle i [Destroy p; Continue k] s) as [_ ->]. fold s1.
  destruct (run_first handle (Destroy p) [Continue k] s1) as [_ ->]. cbn [handle all_enabled enabled].
  set (s2 := exec (Bwe_destroy p) s1) in *. unfold next_of, events at 3. rewrite run_one. fold s1 s2. rewrite H1, Hk.
  rewrite Hp. split; [by rewrite bool_decide_eq_true_2 by (by eexists)|].
  rewrite !omap_app, H2. cbn [handle]. fold (events (Deliver k) s2).
  unfold Deliver. rewrite events_get, H1, Hk, events_bind.
  unfold events, on_inner. simpl. by rewrite H3.
Qed.
End adapter.

(** ** Witnesses: two H.264 encoders *)

Section witnesses.
#[local] Existing Instance sample_webrtc.
#[local] Existing Instance defaults.
#[local] Existing Instance sample_x264.
Definition fine : answers := λ _ _, true.
Definition fresh_h264 : H264Encoder := new_H264Encoder default_config.
Definition start_of (p : nat) : list (@input _ H264Encoder) :=
  [Wrap p fresh_h264 (Z.of_nat p); Call p (CallInit (Some (codec_of 640 360)) one_core);
   Call p (CallRegister (Some 0%nat))].
Definition fps30 : spec_float := double_of_Z 30.
Definition an_update : @input _ H264Encoder := Update 900000 800000 None 0 20 fps30.
Definition two_encoders : world := exec (run (handle fine) (start_of 0 ++ start_of 1)) empty_world.

Lemma two_encoders_reachable : reachable enabled (handle fine) empty_world two_encoders
  (events (run (handle fine) (start_of 0 ++ start_of 1)) empty_world).
Proof. apply run_reachable. vm_compute. reflexivity. Qed.

Lemma registry_exact_witness : encoders_ two_encoders = [(0%nat, 0); (1%nat, 1)] ∧ NoDup (encoders_ two_encoders).*1.
Proof.
  split; [vm_compute; reflexivity|].
  exact (proj1 (registry_exact fine _ _ two_encoders_reachable)).
Defined.

Lemma wrapping_is_transparent_witness :
  ∃ o, objects (exec (run (handle fine) [an_update; Continue 0; Call 1 CallRelease]) two_encoders) !! 0%nat = Some o ∧
    inner_ o = exec (run (handle_call fine) [CallRates (params_of 900000 fps30)])
      (exec (run (handle_call fine) [CallInit (Some (codec_of 640 360)) one_core; CallRegister (Some 0%nat)]) fresh_h264).
Proof.
  assert (∃ o, objects two_encoders !! 0%nat = Some o) as [o Ho] by (eexists; vm_compute; reflexivity).
  destruct (wrapping_is_transparent fine 0 [an_update; Continue 0; Call 1 CallRelease] two_encoders o Ho)
    as (o' & H1 & H2 & _); [vm_compute; reflexivity| |].
  - intros H. apply list_elem_of_In in H. simpl in H. destruct H as [H|[H|[H|[]]]]; discriminate H.
  - exists o'. split; [exact H1|]. rewrite H2. vm_compute in Ho. injection Ho as <-. vm_compute. reflexivity.
Defined.

Lemma update_reaches_registered_witness :
  omap sunk (events (run (handle fine) [an_update; Continue 0; Continue 0]) two_encoders) =
    [update_of 900000 800000 None 0 20 fps30 2].
Proof.
  exact (proj1 (proj2 (update_reaches_registered fine _ _ 900000 800000 None 0 20 fps30 two_encoders_reachable))).
Defined.

Definition cautious : list (@input _ H264Encoder) :=
  (start_of 0 ++ start_of 1 ++ [an_update; Continue 0; Destroy 0; Continue 0; Destroy 1])%list.
Lemma careful_updates_never_dangle_witness :
  omap dangling (events (run (handle fine) cautious) empty_world) = [].
Proof.
  refine (careful_updates_never_dangle fine (exec (run (handle fine) cautious) empty_world) _ _).
  apply run_reachable. vm_compute. reflexivity.
Defined.

Lemma stale_snapshot_dangles_witness :
  omap dangling (events (run (handle fine) [an_update; Destroy 0; Continue 0]) two_encoders) = [0%nat].
Proof.
  assert (∃ o, objects two_encoders !! 0%nat = Some o ∧ registered_ o = true) as (o & Ho & Hr)
    by (eexists; split; vm_compute; reflexivity).
  refine (proj2 (stale_snapshot_dangles fine two_encoders 0 0 [(1%nat, 1)] o 900000 800000 None 0 20 fps30 _ Ho Hr)).
  vm_compute. reflexivity.
Defined.
End witnesses.
