(* ===== verification/VaapiEncoder.v ===== *)
(** * The VAAPI encoder (capture/encoder/vaapi_encoder.{h,cc}, with libva)

    The class [VaapiEncoder::Impl] as a backend of the shell of [ShellEncoder].
    [Vaapi] is libva and its driver, which may fail at every call.  [live] are
    the things made and not unmade: the file of the render node, the display,
    and what was made on it.  Terminating a display unmakes all that was made on
    it; whether rendering a picture unmakes its buffers depends on the version
    of the library ([render_frees]). *)

From Stdlib Require Import ZArith Lia Ascii String SpecFloat.
From stdpp Require Import base tactics numbers option strings sets list.
From S2P Require Import Prelude Numbers VideoEncoder ShellEncoder.
Open Scope Z_scope.

Inductive VAProfile :=
| VAProfileH264ConstrainedBaseline | VAProfileH264Main | VAProfileH264High
| VAProfileHEVCMain | VAProfileAV1Profile0 | VAProfileVP9Profile0.
Inductive VAEntrypoint := VAEntrypointEncSliceLP | VAEntrypointEncSlice | OtherEntrypoint (n : Z).
#[export] Instance entrypoint_eq_dec : EqDecision VAEntrypoint.
Proof. solve_decision. Defined.
Inductive rate_control_mode := VA_RC_CBR | VA_RC_VBR | VA_RC_CQP.

(** What the encoder writes into the buffers it sends. *)
Inductive va_buffer :=
| SequenceH264 (level_idc intra_period ip_period bits_per_second max_num_ref_frames width_in_mbs height_in_mbs
    time_scale num_units_in_tick : Z)
| SequenceHEVC (general_level_idc intra_period ip_period bits_per_second width height : Z)
| SequenceAV1 (intra_period ip_period bits_per_second : Z)
| SequenceVP9 (intra_period bits_per_second max_width max_height : Z)
| MiscRateControl (bits_per_second target_percentage window_size initial_qp min_qp : Z)
| MiscFrameRate (framerate : Z)
| MiscRIR (intra_insert_size : Z)
| CodedBuffer (size : Z)
| PictureH264 (coded_buf frame_num pic_init_qp : Z) (idr : bool) (surface : Z)
| PictureHEVC (coded_buf pic_init_qp : Z) (idr : bool) (surface : Z)
| PictureAV1 (coded_buf width_minus_1 height_minus_1 : Z) (key : bool)
| PictureVP9 (coded_buf width height : Z) (key : bool)
| SliceH264 (num_macroblocks slice_type : Z)
| SliceHEVC (num_ctu slice_type : Z)
| TileGroupAV1.

(** A segment of a coded buffer: its bytes, and whether they are bad. *)
Definition segment : Type := list Z * bool.

Class Vaapi {W : WebrtcLib} := {
  va : Type;
  open_render_node : bool;
  vaGetDisplayDRM : option va;
  vaSetDriverName : va → string → va;
  vaInitialize : va → bool * va;
  vaQueryVendorString : va → option string;
  (** none when there are none, or the query fails *)
  vaQueryConfigEntrypoints : va → VAProfile → option (list VAEntrypoint);
  vaCreateConfig : va → VAProfile → VAEntrypoint → rate_control_mode → bool * va;
  vaCreateSurfaces : va → Z → Z → bool * va;
  vaCreateContext : va → Z → Z → bool * va;
  vaCreateBuffer : va → va_buffer → bool * va;
  vaBeginPicture : va → Z → bool * va;
  vaRenderPicture : va → list nat → bool * va;
  vaEndPicture : va → bool * va;
  render_frees : bool;
  vaDeriveImage : va → Z → bool * va;
  vaMapImage : va → bool * va;
  (** the copy of the planes into the mapped image, row by row *)
  copy_planes : va → I420Buffer → Z → Z → va;
  vaSyncSurface : va → Z → bool * va;
  vaMapCoded : va → nat → option (list segment) * va;
}.

Record VaapiEncoderConfig := mkConfig {
  codec_type : string;
  target_bitrate_bps : Z;
  framerate : Z;
  intra_refresh_period_frames : Z;
  profile_level_id : string;
  rate_control : string;
  gop_size : Z;
  driver_override : string;
  low_latency_tag : bool;
}.
#[export] Instance eta_config : Eta VaapiEncoderConfig := λ s,
  mkConfig (codec_type s) (target_bitrate_bps s) (framerate s) (intra_refresh_period_frames s)
    (profile_level_id s) (rate_control s) (gop_size s) (driver_override s) (low_latency_tag s).
Definition default_config : VaapiEncoderConfig := mkConfig "H264" 4000000 30 60 "42e01f" "CBR" (-1) "" true.

Record CodecMapping := mkMapping {
  webrtc_type : VideoCodecType;
  mapped_profile : VAProfile;
  preferred_entrypoint : VAEntrypoint;
  fallback_entrypoint : VAEntrypoint;
}.
Definition starts_with (p s : string) : bool := String.eqb (str_take 4 s) p.
Definition h264_profile (profile_level_id : string) : VAProfile :=
  if starts_with "42e0" profile_level_id then VAProfileH264ConstrainedBaseline
  else if starts_with "4d40" profile_level_id || starts_with "4d00" profile_level_id then VAProfileH264Main
  else if starts_with "640c" profile_level_id || starts_with "6400" profile_level_id then VAProfileH264High
  else VAProfileH264ConstrainedBaseline.
Definition ResolveCodecType (codec_type profile_level_id : string) : option CodecMapping :=
  let mapping ty p := Some (mkMapping ty p VAEntrypointEncSliceLP VAEntrypointEncSlice) in
  if String.eqb codec_type "H264" then mapping kVideoCodecH264 (h264_profile profile_level_id)
  else if String.eqb codec_type "HEVC" then mapping kVideoCodecH265 VAProfileHEVCMain
  else if String.eqb codec_type "AV1" then mapping kVideoCodecAV1 VAProfileAV1Profile0
  else if String.eqb codec_type "VP9" then mapping kVideoCodecVP9 VAProfileVP9Profile0
  else None.

Definition ResolveRateControl (rc : string) : rate_control_mode :=
  if String.eqb rc "VBR" then VA_RC_VBR else if String.eqb rc "CQP" then VA_RC_CQP else VA_RC_CBR.

Definition uint32 (z : Z) : Z := z mod 2 ^ 32.
Definition uint16 (z : Z) : Z := z mod 2 ^ 16.

(** ** What is alive *)

Inductive va_object := AConfig (n : nat) | Surfaces (n : nat) | AContext (n : nat) | ABuffer (n : nat) | AnImage (n : nat).
Inductive resource := RenderNode (n : nat) | Display (n : nat) | OnDisplay (d : nat) (o : va_object).
#[export] Instance va_object_eq_dec : EqDecision va_object.
Proof. solve_decision. Defined.
#[export] Instance va_resource_eq_dec : EqDecision resource.
Proof. solve_decision. Defined.
Definition of_display (d : nat) (r : resource) : bool :=
  match r with RenderNode _ => false | Display n | OnDisplay n _ => (n =? d)%nat end.

Section backend.
Context {U : Unspecified} {W : WebrtcLib} {X : Vaapi}.

(** [surfaces_] is the vector: empty, four invalid ids, or the pool made. *)
Inductive surface_pool := NoSurfaces | InvalidSurfaces | Pool (n : nat).
Record Impl := mkImpl {
  drm_fd_ : option nat;
  display_ : option (nat * va);
  config_id_ : option nat;
  context_id_ : option nat;
  surfaces_ : surface_pool;
  surface_index_ : Z;
  profile_ : option VAProfile;
  entrypoint_ : VAEntrypoint;
  webrtc_type_ : option VideoCodecType;
  rate_control_mode_ : rate_control_mode;
  width_ : Z;
  height_ : Z;
  framerate_ : Z;
  target_bitrate_bps_ : Z;
  intra_period_ : Z;
  intra_refresh_period_ : Z;
  vendor_string_ : string;      (* of the encoder, which Initialize fills in *)
  live : list resource;
  fresh : nat;
}.
#[export] Instance eta_impl : Eta Impl := λ s,
  mkImpl (drm_fd_ s) (display_ s) (config_id_ s) (context_id_ s) (surfaces_ s) (surface_index_ s) (profile_ s)
    (entrypoint_ s) (webrtc_type_ s) (rate_control_mode_ s) (width_ s) (height_ s) (framerate_ s)
    (target_bitrate_bps_ s) (intra_period_ s) (intra_refresh_period_ s) (vendor_string_ s) (live s) (fresh s).
(** An [Impl] in a process where [live] is alive. *)
Definition new_Impl (live : list resource) (fresh : nat) : Impl :=
  mkImpl None None None None NoSurfaces 0 None VAEntrypointEncSlice None VA_RC_CBR 0 0 30 4000000 0 60 "" live fresh.

Notation M := (eff Impl event).

(** ** Calls on libva *)

Definition make (r : nat → resource) : M nat :=
  s ← eget;
  emod (λ s, s <| live := r (fresh s) :: live s |> <| fresh := S (fresh s) |>);;
  mret (fresh s).
Definition unmake (r : resource) : M unit := emod (λ s, s <| live := filter (λ x, x ≠ r) (live s) |>).

(** A call on the display, which the caller has checked is there. *)
Definition on_va {A} (dflt : A) (f : va → A * va) : M A := λ s,
  match display_ s with
  | Some (d, x) => let '(r, x) := f x in (r, s <| display_ := Some (d, x) |>, [])
  | None => (dflt, s, [])
  end.
(** The number of an object. *)
Definition object_id (o : va_object) : nat :=
  match o with AConfig n | Surfaces n | AContext n | ABuffer n | AnImage n => n end.
(** A call that makes an object of the display. *)
Definition create (o : nat → va_object) (f : va → bool * va) : M (option nat) :=
  ok ← on_va false f;
  s ← eget;
  match display_ s with
  | Some (d, _) => if (ok : bool) then n ← make (λ n, OnDisplay d (o n)); mret (Some n) else mret None
  | None => mret None
  end.
Definition destroy (o : va_object) : M unit :=
  s ← eget;
  match display_ s with Some (d, _) => unmake (OnDisplay d o) | None => mret tt end.
Definition render (bufs : list nat) : M bool :=
  ok ← on_va false (λ x, vaRenderPicture x bufs);
  ewhen ((ok : bool) && render_frees) (eseq (destroy ∘ ABuffer <$> bufs));;
  mret ok.

(** [if (m() != VA_STATUS_SUCCESS) return dflt;] and the same for what makes an id. *)
Definition need {A} (dflt : A) (m : M bool) (k : M A) : M A := ok ← m; if (ok : bool) then k else mret dflt.
Definition have {A B} (dflt : A) (m : M (option B)) (k : B → M A) : M A :=
  r ← m; match r with Some b => k b | None => mret dflt end.

(** ** Initialisation *)

Definition EntrypointSupported (x : va) (profile : VAProfile) (want : VAEntrypoint) : bool :=
  match vaQueryConfigEntrypoints x profile with Some l => bool_decide (want ∈ l) | None => false end.
Definition entrypoint_for (x : va) (cm : CodecMapping) : option VAEntrypoint :=
  if EntrypointSupported x (mapped_profile cm) (preferred_entrypoint cm) then Some (preferred_entrypoint cm)
  else if EntrypointSupported x (mapped_profile cm) (fallback_entrypoint cm) then Some (fallback_entrypoint cm)
  else None.

(** The sequence parameters of the codec. *)
Definition sequence_buffer (s : Impl) : option va_buffer :=
  let period := if 0 <? intra_period_ s then intra_period_ s else 2 ^ 32 - 1 in
  let bits := uint32 (target_bitrate_bps_ s) in
  match webrtc_type_ s with
  | Some kVideoCodecH264 =>
      Some (SequenceH264 31 period 1 bits 1 (Z.quot (width_ s + 15) 16) (Z.quot (height_ s + 15) 16) 90000
        (Z.quot 90000 (framerate_ s)))
  | Some kVideoCodecH265 => Some (SequenceHEVC 93 period 1 bits (uint16 (width_ s)) (uint16 (height_ s)))
  | Some kVideoCodecAV1 => Some (SequenceAV1 period 1 bits)
  | Some kVideoCodecVP9 => Some (SequenceVP9 period bits (uint16 (width_ s)) (uint16 (height_ s)))
  | None => None
  end.
Definition has_rir (s : Impl) : bool :=
  bool_decide (webrtc_type_ s = Some kVideoCodecH264) || bool_decide (webrtc_type_ s = Some kVideoCodecH265).
Definition intra_insert_size (s : Impl) : Z :=
  Z.max 1 (Z.quot (Z.quot (width_ s) 16) (Z.max 1 (intra_refresh_period_ s))).

Definition SubmitSequenceParams : M bool :=
  s ← eget;
  match sequence_buffer s with
  | None => mret false
  | Some seq =>
      have false (create ABuffer (λ x, vaCreateBuffer x seq)) (λ seq_buf,
      have false (create ABuffer (λ x, vaCreateBuffer x (MiscRateControl (uint32 (target_bitrate_bps_ s)) 100 1000 26 0)))
        (λ rc_buf,
      have false (create ABuffer (λ x, vaCreateBuffer x (MiscFrameRate (uint32 (framerate_ s))))) (λ fr_buf,
      rir_buf ← (if has_rir s then create ABuffer (λ x, vaCreateBuffer x (MiscRIR (intra_insert_size s))) else mret None);
      need false (on_va false (λ x, vaBeginPicture x 0)) (
      need false (render ([seq_buf; rc_buf; fr_buf] ++ option_list rir_buf)) (
      on_va false vaEndPicture)))))
  end.

(** [Initialize], once the display is there. *)
Definition setup_display (config : VaapiEncoderConfig) (width height : Z) : M bool :=
  (if bool_decide (driver_override config = "") then mret tt
   else on_va tt (λ x, (tt, vaSetDriverName x (driver_override config))));;
  need false (on_va false vaInitialize) (
  vendor ← on_va None (λ x, (vaQueryVendorString x, x));
  match vendor with Some v => emod (λ s, s <| vendor_string_ := v |>) | None => mret tt end;;
  match ResolveCodecType (codec_type config) (profile_level_id config) with
  | None => mret false
  | Some cm =>
      emod (λ s, s <| profile_ := Some (mapped_profile cm) |>);;
      have false (on_va None (λ x, (entrypoint_for x cm, x))) (λ entrypoint,
      emod (λ s, s <| entrypoint_ := entrypoint |>);;
      s ← eget;
      have false (create AConfig (λ x, vaCreateConfig x (mapped_profile cm) entrypoint (rate_control_mode_ s))) (λ config_id,
      emod (λ s, s <| config_id_ := Some config_id |> <| surfaces_ := InvalidSurfaces |>);;
      have false (create Surfaces (λ x, vaCreateSurfaces x width height)) (λ pool,
      emod (λ s, s <| surfaces_ := Pool pool |>);;
      have false (create AContext (λ x, vaCreateContext x width height)) (λ context_id,
      emod (λ s, s <| context_id_ := Some context_id |>);;
      SubmitSequenceParams))))
  end).

Definition Impl_Initialize (config : VaapiEncoderConfig) (width height : Z) (ty : VideoCodecType) : M bool :=
  emod (λ s, s <| webrtc_type_ := Some ty |> <| width_ := width |> <| height_ := height |>
    <| framerate_ := Z.max 1 (framerate config) |> <| target_bitrate_bps_ := target_bitrate_bps config |>
    <| intra_period_ := if 0 <? gop_size config then gop_size config else 0 |>
    <| intra_refresh_period_ := Z.max 1 (intra_refresh_period_frames config) |>
    <| rate_control_mode_ := ResolveRateControl (rate_control config) |>);;
  if negb open_render_node then emod (λ s, s <| drm_fd_ := None |>);; mret false
  else
    fd ← make RenderNode;
    emod (λ s, s <| drm_fd_ := Some fd |>);;
    match vaGetDisplayDRM with
    | None => emod (λ s, s <| display_ := None |>);; mret false
    | Some x =>
        d ← make Display;
        emod (λ s, s <| display_ := Some (d, x) |>);;
        emit (Opened d width height);;
        setup_display config width height
    end.

(** ** A picture *)

Definition finish_picture (h : nat) (pts : Z) (force_idr : bool) (coded_buf : nat) (bufs : list nat) : M (option nat) :=
  s ← eget;
  emit (Fed h pts force_idr);;
  need None (on_va false (λ x, vaBeginPicture x (surface_index_ s))) (
  need None (render bufs) (
  need None (on_va false vaEndPicture) (
  mret (Some coded_buf)))).

(** The picture parameters of the codec, and those of its slice or tiles, if it
    has any. *)
Definition picture_buffers (s : Impl) (pts : Z) (idr : bool) (coded_buf : Z) : option (va_buffer * option va_buffer) :=
  let w := width_ s in
  let h := height_ s in
  match webrtc_type_ s with
  | Some kVideoCodecH264 =>
      Some (PictureH264 coded_buf (Z.land pts 65535) 26 idr (surface_index_ s),
            Some (SliceH264 (int_result (Z.quot w 16 * Z.quot h 16)) (if idr then 7 else 5)))
  | Some kVideoCodecH265 =>
      Some (PictureHEVC coded_buf 26 idr (surface_index_ s),
            Some (SliceHEVC (int_result (Z.quot (w + 31) 32 * Z.quot (h + 31) 32)) (if idr then 2 else 1)))
  | Some kVideoCodecAV1 => Some (PictureAV1 coded_buf (uint16 (w - 1)) (uint16 (h - 1)) idr, Some TileGroupAV1)
  | Some kVideoCodecVP9 => Some (PictureVP9 coded_buf (uint16 w) (uint16 h) idr, None)
  | None => None
  end.

Definition SubmitPictureAndSlice (h : nat) (pts : Z) (force_idr : bool) : M (option nat) :=
  s ← eget;
  let coded_size := uint32 (Z.quot (int_result (width_ s * height_ s * 3)) 2) in
  have None (create ABuffer (λ x, vaCreateBuffer x (CodedBuffer coded_size))) (λ coded_buf,
  match picture_buffers s pts force_idr (Z.of_nat coded_buf) with
  | None => mret None
  | Some (picture, slice) =>
      have None (create ABuffer (λ x, vaCreateBuffer x picture)) (λ pic_buf,
      match slice with
      | None => finish_picture h pts force_idr coded_buf [pic_buf]
      | Some slice =>
          have None (create ABuffer (λ x, vaCreateBuffer x slice)) (λ slice_buf,
          finish_picture h pts force_idr coded_buf [pic_buf; slice_buf])
      end)
  end).

(** The bytes of the segments; none when one of them is bad. *)
Fixpoint collect (segments : list segment) : option (list Z) :=
  match segments with
  | [] => Some []
  | (bytes, bad) :: rest => if (bad : bool) then None else app bytes <$> collect rest
  end.

(** [Encode] from the moment the picture is in the surface. *)
Definition drain_picture (h : nat) (pts : Z) (force_idr : bool) : M (option (list Z * bool)) :=
  s ← eget;
  have None (SubmitPictureAndSlice h pts force_idr) (λ coded_buf,
  need None (on_va false (λ x, vaSyncSurface x (surface_index_ s))) (
  segments ← on_va None (λ x, vaMapCoded x coded_buf);
  destroy (ABuffer coded_buf);;
  match segments ≫= collect with
  | None => mret None
  | Some bytes =>
      emod (λ s, s <| surface_index_ := (surface_index_ s + 1) mod 4 |>);;
      mret (Some (bytes, force_idr))
  end)).

Definition Impl_Encode (i420 : I420Buffer) (width height pts : Z) (force_idr : bool) : M (option (list Z * bool)) :=
  s ← eget;
  match display_ s with
  | None => mret None
  | Some (h, _) =>
      have None (create AnImage (λ x, vaDeriveImage x (surface_index_ s))) (λ image,
      mapped ← on_va false vaMapImage;
      (if (mapped : bool) then on_va tt (λ x, (tt, copy_planes x i420 width height)) else mret tt);;
      destroy (AnImage image);;
      if negb mapped then mret None else drain_picture h pts force_idr)
  end.

Definition Impl_Reconfigure (config : VaapiEncoderConfig) : M bool :=
  s ← eget;
  match display_ s with
  | None => mret false
  | Some (h, _) =>
      emod (λ s, s <| target_bitrate_bps_ := target_bitrate_bps config |> <| framerate_ := Z.max 1 (framerate config) |>);;
      emit (Tuned h (target_bitrate_bps config) (Z.max 1 (framerate config)));;
      SubmitSequenceParams
  end.

(** The context, the configuration and the surfaces. *)
Definition drop_objects (s : Impl) : M unit :=
  match context_id_ s with
  | Some c => destroy (AContext c);; emod (λ s, s <| context_id_ := None |>)
  | None => mret tt
  end;;
  match config_id_ s with
  | Some c => destroy (AConfig c);; emod (λ s, s <| config_id_ := None |>)
  | None => mret tt
  end;;
  match surfaces_ s with
  | Pool p => destroy (Surfaces p);; emod (λ s, s <| surfaces_ := NoSurfaces |>)
  | InvalidSurfaces => emod (λ s, s <| surfaces_ := NoSurfaces |>)
  | NoSurfaces => mret tt
  end.
Definition vaTerminate (d : nat) : M unit :=
  emit (Closed d);;
  emod (λ s, s <| live := filter (λ r, of_display d r = false) (live s) |> <| display_ := None |>).
Definition close_node (fd : option nat) : M unit :=
  match fd with
  | Some fd => unmake (RenderNode fd);; emod (λ s, s <| drm_fd_ := None |>)
  | None => mret tt
  end.
Definition Impl_Destroy : M unit :=
  s ← eget;
  match display_ s with
  | Some (d, _) => drop_objects s;; vaTerminate d
  | None => mret tt
  end;;
  close_node (drm_fd_ s).

#[export] Instance Vaapi_backend : Backend VaapiEncoderConfig Impl := {|
  codec_type_of c := webrtc_type <$> ResolveCodecType (codec_type c) (profile_level_id c);
  with_rates r f c := c <| target_bitrate_bps := r |> <| framerate := f |>;
  Initialize := Impl_Initialize;
  impl_Encode := Impl_Encode;
  Reconfigure := Impl_Reconfigure;
  Destroy := Impl_Destroy;
|}.

(** The encoder itself: the shell over this [Impl]. *)
Definition VaapiEncoder : Type := shell VaapiEncoderConfig Impl.
Definition Vaapi_InitEncode (codec_settings : option VideoCodec) (settings : Settings)
    : eff VaapiEncoder event code := Shell_InitEncode codec_settings settings.
Definition Vaapi_Encode (answer : answers) (frame : VideoFrame) (frame_types : option (list VideoFrameType))
    : eff VaapiEncoder event code := Shell_Encode answer frame frame_types.
Definition Vaapi_RegisterEncodeCompleteCallback (callback : option nat) : eff VaapiEncoder event code :=
  Shell_RegisterEncodeCompleteCallback callback.
Definition Vaapi_Release : eff VaapiEncoder event code := Shell_Release.
Definition Vaapi_SetRates (parameters : RateControlParameters) : eff VaapiEncoder event unit :=
  Shell_SetRates parameters.

(** [VaapiEncoder::ProbeAvailable], in a process where [live] is alive: what an
    [Impl] of its own finds. *)
Definition probe_config (codec : string) : VaapiEncoderConfig := default_config <| codec_type := codec |>.
Definition ProbeAvailable (codec : string) (process : list resource * nat) : bool * (list resource * nat) :=
  match ResolveCodecType codec "42e01f" with
  | None => (false, process)
  | Some cm =>
      let m := ok ← Impl_Initialize (probe_config codec) 160 120 (webrtc_type cm);
               Impl_Destroy;;
               mret ok in
      let i := exec m (new_Impl process.1 process.2) in
      (result m (new_Impl process.1 process.2), (live i, fresh i))
  end.

(** The name [GetEncoderInfo] gives: the vendor in lower case, without spaces. *)
Fixpoint squeeze (s : string) : string :=
  match s with
  | EmptyString => EmptyString
  | String c s => if (c =? " ")%char then squeeze s else String (ascii_lower c) (squeeze s)
  end.
Definition implementation_name (config : VaapiEncoderConfig) (vendor : string) : string :=
  ("cloud-browser-vaapi-" ++ codec_type config ++
   (if String.eqb vendor "" then "" else "-" ++ squeeze vendor) ++
   (if low_latency_tag config then "-lowlatency" else ""))%string.

(** ** What every operation is made of *)

Definition core (i : Impl) := (live i, fresh i, display_ i, drm_fd_ i, webrtc_type_ i).
(** A relation that calls on the display respect, and assignments to members
    that hold nothing. *)
Class Atomic (R : Impl → list event → Impl → Prop) := {
  atomic_rel :: TraceRel R;
  atomic_va {A} (d : A) f : respects R (on_va d f);
  atomic_create o f : (∀ n, object_id (o n) = n) → respects R (create o f);
  atomic_destroy o : respects R (destroy o);
  atomic_mod g : (∀ s, core (g s) = core s) → respects R (emod g);
}.

Section atomic.
Context (R : Impl → list event → Impl → Prop) {HR : Atomic R}.

Lemma need_respects {A} (d : A) m k : respects R m → respects R k → respects R (need d m k).
Proof. intros Hm Hk. apply respects_bind; [apply _|exact Hm|]. intros []; [exact Hk|apply respects_ret, _]. Qed.
Lemma have_respects {A B} (d : A) (m : M (option B)) k :
  respects R m → (∀ b, respects R (k b)) → respects R (have d m k).
Proof. intros Hm Hk. apply respects_bind; [apply _|exact Hm|]. intros [b|]; [apply Hk|apply respects_ret, _]. Qed.
Lemma render_respects bufs : respects R (render bufs).
Proof.
  apply respects_bind; [apply _|apply atomic_va|]. intros ok.
  apply respects_bind; [apply _| |intros _; apply respects_ret, _].
  apply respects_when; [apply _|]. apply respects_seq; [apply _|]. apply Forall_fmap, Forall_forall.
  intros b _. apply atomic_destroy.
Qed.
Lemma submit_sequence_respects : respects R SubmitSequenceParams.
Proof.
  apply respects_get. intros s. destruct (sequence_buffer s); [|apply respects_ret, _].
  do 3 (apply have_respects; [by apply atomic_create|intros ?]).
  apply respects_bind; [apply _|destruct (has_rir s); [by apply atomic_create|apply respects_ret, _]|]. intros rir.
  apply need_respects; [apply atomic_va|]. apply need_respects; [apply render_respects|apply atomic_va].
Qed.
Lemma setup_display_respects config w h : respects R (setup_display config w h).
Proof.
  apply respects_bind; [apply _|destruct (bool_decide _); [apply respects_ret, _|apply atomic_va]|]. intros _.
  apply need_respects; [apply atomic_va|]. apply respects_bind; [apply _|apply atomic_va|]. intros vendor.
  apply respects_bind; [apply _|destruct vendor; [by apply atomic_mod|apply respects_ret, _]|]. intros _.
  destruct (ResolveCodecType _ _) as [cm|]; [|apply respects_ret, _].
  apply respects_bind; [apply _|by apply atomic_mod|]. intros _. apply have_respects; [apply atomic_va|]. intros e.
  apply respects_bind; [apply _|by apply atomic_mod|]. intros _. apply respects_get. intros s.
  do 3 (apply have_respects; [by apply atomic_create|]; intros ?; apply respects_bind; [apply _|by apply atomic_mod|]; intros _).
  apply submit_sequence_respects.
Qed.
Lemma finish_picture_respects h pts key coded bufs :
  (∀ s, R s [Fed h pts key] s) → respects R (finish_picture h pts key coded bufs).
Proof.
  intros Hfed. apply respects_get. intros s. apply respects_bind; [apply _|by apply respects_emit|]. intros _.
  apply need_respects; [apply atomic_va|]. apply need_respects; [apply render_respects|].
  apply need_respects; [apply atomic_va|apply respects_ret, _].
Qed.
Lemma drain_picture_respects h pts key :
  (∀ s, R s [Fed h pts key] s) → respects R (drain_picture h pts key).
Proof.
  intros Hfed. apply respects_get. intros s. apply have_respects.
  - apply respects_get. intros s1. apply have_respects; [by apply atomic_create|]. intros coded.
    destruct (picture_buffers _ _ _ _) as [[pic [slice|]]|]; [..|apply respects_ret, _];
      (apply have_respects; [by apply atomic_create|]); intros b; [|by apply finish_picture_respects].
    apply have_respects; [by apply atomic_create|]. intros b2. by apply finish_picture_respects.
  - intros coded. apply need_respects; [apply atomic_va|]. apply respects_bind; [apply _|apply atomic_va|]. intros segs.
    apply respects_bind; [apply _|apply atomic_destroy|]. intros _. destruct (segs ≫= collect); [|apply respects_ret, _].
    apply respects_bind; [apply _|by apply atomic_mod|]. intros _. apply respects_ret, _.
Qed.
Lemma encode_respects p w h pts key :
  (∀ s n, R s [Fed n pts key] s) → respects R (Impl_Encode p w h pts key).
Proof.
  intros Hfed. apply respects_get. intros s. destruct (display_ s) as [[n x]|]; [|apply respects_ret, _].
  apply have_respects; [by apply atomic_create|]. intros image. apply respects_bind; [apply _|apply atomic_va|]. intros mapped.
  apply respects_bind; [apply _|destruct mapped; [apply atomic_va|apply respects_ret, _]|]. intros _.
  apply respects_bind; [apply _|apply atomic_destroy|]. intros _.
  destruct mapped; [by apply drain_picture_respects|apply respects_ret, _].
Qed.
Lemma reconfigure_respects c :
  (∀ s n r f, R s [Tuned n r f] s) → respects R (Impl_Reconfigure c).
Proof.
  intros Ht. apply respects_get. intros s. destruct (display_ s) as [[n x]|]; [|apply respects_ret, _].
  apply respects_bind; [apply _|by apply atomic_mod|]. intros _.
  apply respects_bind; [apply _|by apply respects_emit|]. intros _. apply submit_sequence_respects.
Qed.
Lemma drop_objects_respects i : respects R (drop_objects i).
Proof.
  assert (∀ o g, (∀ s, core (g s) = core s) → respects R (destroy o;; emod g)) as H.
  { intros o g Hg. apply respects_bind; [apply _|apply atomic_destroy|]. intros _. by apply atomic_mod. }
  apply respects_bind; [apply _|destruct (context_id_ i); [by apply H|apply respects_ret, _]|]. intros _.
  apply respects_bind; [apply _|destruct (config_id_ i); [by apply H|apply respects_ret, _]|]. intros _.
  destruct (surfaces_ i); [apply respects_ret, _|by apply atomic_mod|by apply H].
Qed.
End atomic.

(** ** Sessions *)

Definition session_of (i : Impl) : option nat := fst <$> display_ i.

(** The display stays and nothing is done to the session. *)
Definition quiet (s : Impl) (es : list event) (s' : Impl) : Prop := session_of s' = session_of s ∧ es = [].
#[local] Instance quiet_atomic : Atomic quiet.
Proof.
  assert (TraceRel quiet) as HT.
  { split; [done|]. intros s1 s2 s3 es1 es2 [H1 ->] [H2 ->]. split; [congruence|done]. }
  assert (∀ {A} (d : A) f, respects quiet (on_va d f)) as Hva.
  { intros A d f s. unfold on_va, exec, events, quiet, session_of. destruct (display_ s) as [[n x]|] eqn:Hd; [|simpl; by rewrite Hd].
    by destruct (f x). }
  split; [exact HT|exact @Hva|..].
  - intros o f _. apply respects_bind; [exact HT|apply Hva|]. intros ok. apply respects_get. intros s.
    destruct (display_ s) as [[n x]|]; [|apply respects_ret, HT]. by destruct ok.
  - intros o. apply respects_get. intros s. by destruct (display_ s) as [[n x]|].
  - intros g Hg s. specialize (Hg s). unfold core in Hg. split; [|done]. unfold exec, emod, session_of. simpl.
    by injection Hg as _ _ -> _ _.
Qed.

(** The display stays, and at most [e] is done to the session. *)
Definition at_most (e : event) (s : Impl) (es : list event) (s' : Impl) : Prop :=
  session_of s' = session_of s ∧ (es = [] ∨ es = [e]).
Definition is_at_most {A} (e : event) (m : M A) : Prop := ∀ s, at_most e s (events m s) (exec m s).
Lemma quiet_at_most {A} e (m : M A) : respects quiet m → is_at_most e m.
Proof. intros H s. destruct (H s) as [H1 H2]. split; [exact H1|by left]. Qed.
Lemma at_most_then {A B} e (m : M A) (f : A → M B) : respects quiet m → (∀ x, is_at_most e (f x)) → is_at_most e (m ≫= f).
Proof.
  intros Hm Hf s. unfold at_most. rewrite exec_bind, events_bind. destruct (Hm s) as [H1 ->].
  destruct (Hf (result m s) (exec m s)) as [H2 H3]. split; [congruence|done].
Qed.
Lemma then_quiet {A B} e (m : M A) (f : A → M B) : is_at_most e m → (∀ x, respects quiet (f x)) → is_at_most e (m ≫= f).
Proof.
  intros Hm Hf s. unfold at_most. rewrite exec_bind, events_bind. destruct (Hm s) as [H1 H2].
  destruct (Hf (result m s) (exec m s)) as [H3 ->]. rewrite app_nil_r. split; [congruence|done].
Qed.
Lemma at_most_have {A B} e (d : A) (m : M (option B)) k :
  respects quiet m → (∀ b, is_at_most e (k b)) → is_at_most e (have d m k).
Proof. intros Hm Hk. apply at_most_then; [exact Hm|]. intros [b|]; [apply Hk|by apply quiet_at_most]. Qed.
Lemma at_most_get {A} e (f : Impl → M A) : (∀ s, is_at_most e (f s)) → is_at_most e (eget ≫= f).
Proof. intros H. apply at_most_then; [|exact H]. by intros s. Qed.

Lemma finish_picture_at_most h pts key coded bufs : is_at_most (Fed h pts key) (finish_picture h pts key coded bufs).
Proof.
  apply at_most_get. intros s. apply then_quiet; [by intros s0; split; [done|right]|]. intros _.
  apply (need_respects quiet); [apply atomic_va|]. apply (need_respects quiet); [apply (render_respects quiet)|].
  apply (need_respects quiet); [apply atomic_va|done].
Qed.
Lemma drain_picture_at_most h pts key : is_at_most (Fed h pts key) (drain_picture h pts key).
Proof.
  apply at_most_get. intros s. apply then_quiet.
  - apply at_most_get. intros s1. apply at_most_have; [by apply atomic_create|]. intros coded.
    destruct (picture_buffers _ _ _ _) as [[pic [slice|]]|]; [..|by apply quiet_at_most];
      (apply at_most_have; [by apply atomic_create|]); intros b; [|apply finish_picture_at_most].
    apply at_most_have; [by apply atomic_create|]. intros b2. apply finish_picture_at_most.
  - intros [coded|]; [|done]. apply (need_respects quiet); [apply atomic_va|].
    apply respects_bind; [apply _|apply atomic_va|]. intros segs.
    apply respects_bind; [apply _|apply atomic_destroy|]. intros _. by destruct (segs ≫= collect).
Qed.

Lemma initialize_run config w h ty i : ∃ b i' es, Impl_Initialize config w h ty i = (b, i', es) ∧
  (es = [] ∧ (session_of i = None → session_of i' = None) ∨ ∃ n, es = [Opened n w h] ∧ session_of i' = Some n).
Proof.
  unfold Impl_Initialize. rewrite mod_run. set (i0 := set_field _ _).
  assert (session_of i0 = session_of i) as H0 by done.
  destruct (negb open_render_node); [do 3 eexists; split; [reflexivity|]; left; split; [done|]; intros H; exact H|].
  unfold make. destruct vaGetDisplayDRM as [x|]; [|do 3 eexists; split; [reflexivity|]; by left].
  run_eff. match goal with |- context [setup_display config w h ?s] => set (i1 := s) end.
  destruct (setup_display_respects quiet config w h i1) as [Hs Hes].
  unfold events, exec in *. destruct (setup_display config w h i1) as [[b i'] es]. simpl in *. subst es.
  do 3 eexists; split; [reflexivity|]. right. eexists; split; [reflexivity|]. by rewrite Hs.
Qed.

Lemma destroy_session i : ∃ i', Impl_Destroy i = (tt, i', match session_of i with Some d => [Closed d] | None => [] end) ∧
  session_of i' = None.
Proof.
  unfold Impl_Destroy, session_of. destruct i as [fd [[d x]|] cfg ctx pool idx p e ty rc w h f r ip irp v l k].
  - destruct ctx, cfg, pool, fd; eexists; (split; [reflexivity|]); done.
  - destruct fd; eexists; (split; [reflexivity|]); done.
Qed.

Lemma run_eq {A} (m : M A) i : m i = (result m i, exec m i, events m i).
Proof. unfold result, exec, events. by destruct (m i) as [[? ?] ?]. Qed.

#[export] Instance Vaapi_backend_laws : BackendLaws VaapiEncoderConfig Impl.
Proof.
  apply (simple_backend session_of);
    cbn [Initialize impl_Encode Reconfigure Destroy with_rates codec_type_of Vaapi_backend].
  - intros c w h ty i. apply initialize_run.
  - intros p w h pts key i. do 3 eexists. split; [apply run_eq|]. unfold Impl_Encode.
    rewrite exec_get, events_get. destruct (display_ i) as [[n x]|] eqn:Hd; [|by split; [|left]].
    assert (is_at_most (Fed n pts key) (have None (create AnImage (λ x, vaDeriveImage x (surface_index_ i))) (λ image,
      mapped ← on_va false vaMapImage;
      (if (mapped : bool) then on_va tt (λ x, (tt, copy_planes x p w h)) else mret tt);;
      destroy (AnImage image);;
      if negb mapped then mret None else drain_picture n pts key))) as H.
    { apply at_most_have; [by apply atomic_create|]. intros image. apply at_most_then; [apply atomic_va|]. intros mapped.
      apply at_most_then; [destruct mapped; [apply atomic_va|apply respects_ret, _]|]. intros _.
      apply at_most_then; [apply atomic_destroy|]. intros _.
      destruct mapped; [apply drain_picture_at_most|by apply quiet_at_most]. }
    destruct (H i) as [H1 H2]. split; [exact H1|]. destruct H2 as [H2|H2]; [by left|]. right. exists n.
    split; [unfold session_of; by rewrite Hd|exact H2].
  - intros c i. do 3 eexists. split; [apply run_eq|]. unfold Impl_Reconfigure.
    rewrite exec_get, events_get. destruct (display_ i) as [[n x]|] eqn:Hd; [|by split; [|left]].
    rewrite exec_mod, events_mod. set (i1 := set_field _ _). rewrite exec_bind, events_bind.
    change (exec (emit ?e) i1) with i1.
    destruct (submit_sequence_respects quiet i1) as [H1 ->]. rewrite H1. split; [done|]. right.
    do 3 eexists. split; [unfold session_of; by rewrite Hd|reflexivity].
  - intros i. destruct (destroy_session i) as (i' & H1 & H2). do 2 eexists; split; [exact H1|]. done.
  - done.
Defined.

(** ** What is left alive *)

Lemma on_va_run {A} (dflt : A) f s d x : display_ s = Some (d, x) →
  on_va dflt f s = ((f x).1, s <| display_ := Some (d, (f x).2) |>, []).
Proof. intros Hd. unfold on_va. rewrite Hd. by destruct (f x). Qed.
Lemma create_run o f s d x : display_ s = Some (d, x) →
  create o f s =
    (if (f x).1 then (Some (fresh s), s <| display_ := Some (d, (f x).2) |>
                       <| live := OnDisplay d (o (fresh s)) :: live s |> <| fresh := S (fresh s) |>, [])
     else (None, s <| display_ := Some (d, (f x).2) |>, [])).
Proof.
  intros Hd. unfold create, mbind, eff_bind. rewrite (on_va_run _ _ _ _ _ Hd). simpl. by destruct (f x).1.
Qed.
Lemma destroy_open_run o s d x : display_ s = Some (d, x) →
  destroy o s = (tt, s <| live := filter (λ r, r ≠ OnDisplay d o) (live s) |>, []).
Proof. intros Hd. unfold destroy. rewrite get_run, Hd. reflexivity. Qed.
Lemma no_display_run s : display_ s = None →
  (∀ A (dflt : A) f, on_va dflt f s = (dflt, s, [])) ∧ (∀ o f, create o f s = (None, s, [])) ∧
  (∀ o, destroy o s = (tt, s, [])).
Proof.
  intros Hd. unfold create, destroy, on_va, mbind, eff_bind, eget, mret, eff_ret. rewrite Hd. simpl. by rewrite Hd.
Qed.

Definition number (r : resource) : nat := match r with RenderNode n | Display n | OnDisplay n _ => n end.

(** What is alive beside [l] is the node and the display in hand and what was
    made on it; all of [l] is older. *)
Definition mine (fd d : option nat) (r : resource) : Prop :=
  match r with RenderNode n => fd = Some n | Display n | OnDisplay n _ => d = Some n end.
Definition owns (k : nat) (l : list resource) (fd : option nat) (i : Impl) : Prop :=
  drm_fd_ i = fd ∧ (k ≤ fresh i)%nat ∧ (∀ n, fd = Some n ∨ session_of i = Some n → (k ≤ n)%nat) ∧
  ∃ added, live i = added ++ l ∧ Forall (mine fd (session_of i)) added.

Section owned.
Context (k : nat) (l : list resource) (Hl : Forall (λ r, number r < k)%nat l).

Lemma filter_young (P : resource → Prop) `{!∀ x, Decision (P x)} added :
  (∀ r, (number r < k)%nat → P r) → filter P (added ++ l) = filter P added ++ l.
Proof.
  intros HP. rewrite filter_app. f_equal. apply filter_every. intros r Hr. apply HP. rewrite Forall_forall in Hl. auto.
Qed.
Lemma mine_filter (P : resource → Prop) `{!∀ x, Decision (P x)} fd d added :
  Forall (mine fd d) added → Forall (mine fd d) (filter P added).
Proof. rewrite !Forall_forall. intros Hm r [_ Hr]%list_elem_of_filter. auto. Qed.

(** Handing the display's state on, making and unmaking things on it. *)
Lemma owns_state fd i d x x' : display_ i = Some (d, x) → owns k l fd i → owns k l fd (i <| display_ := Some (d, x') |>).
Proof. intros Hd. unfold owns, session_of. rewrite Hd. done. Qed.
Lemma owns_make fd i d o : session_of i = Some d → owns k l fd i →
  owns k l fd (i <| live := OnDisplay d o :: live i |> <| fresh := S (fresh i) |>).
Proof.
  intros Hd (H0 & H1 & H2 & added & H3 & H4). split; [exact H0|]. split; [simpl; lia|]. split; [exact H2|].
  exists (OnDisplay d o :: added). simpl. rewrite H3. split; [done|]. by constructor.
Qed.
Lemma owns_unmake fd i r : (k ≤ number r)%nat → owns k l fd i → owns k l fd (i <| live := filter (λ x, x ≠ r) (live i) |>).
Proof.
  intros Hd (H0 & H1 & H2 & added & H3 & H4). split; [exact H0|]. split; [exact H1|]. split; [exact H2|].
  exists (filter (λ x, x ≠ r) added). simpl. rewrite H3. split; [|by apply mine_filter].
  apply filter_young. intros x Hx ->. lia.
Qed.

#[local] Instance owns_atomic fd : Atomic (keeping (owns k l fd) (λ _, True)).
Proof.
  split; [apply _|..].
  - intros A dflt f s Hs. unfold exec, events. destruct (display_ s) as [[d x]|] eqn:Hd.
    + rewrite (on_va_run _ _ _ _ _ Hd). simpl. split; [by eapply owns_state|constructor].
    + rewrite (proj1 (no_display_run s Hd)). by split; [|constructor].
  - intros o f _ s Hs. unfold exec, events. destruct (display_ s) as [[d x]|] eqn:Hd.
    + rewrite (create_run _ _ _ _ _ Hd). destruct (f x).1; simpl; (split; [|constructor]); [|by eapply owns_state].
      exact (owns_make fd (s <| display_ := Some (d, (f x).2) |>) d (o (fresh s)) eq_refl (owns_state fd s d x _ Hd Hs)).
    + rewrite (proj1 (proj2 (no_display_run s Hd))). by split; [|constructor].
  - intros o s Hs. unfold exec, events. destruct (display_ s) as [[d x]|] eqn:Hd.
    + rewrite (destroy_open_run _ _ _ _ Hd). simpl. split; [|constructor]. apply owns_unmake; [|done]. simpl.
      apply Hs. right. unfold session_of. by rewrite Hd.
    + rewrite (proj2 (proj2 (no_display_run s Hd))). by split; [|constructor].
  - intros g Hg. apply keeping_mod. intros s Hs. specialize (Hg s). unfold core in Hg. injection Hg as G1 G2 G3 G4 _.
    unfold owns, session_of in *. by rewrite G1, G2, G3, G4.
Qed.

Lemma initialize_owns config w h ty : ∃ fd, owns k l fd (exec (Impl_Initialize config w h ty) (new_Impl l k)).
Proof.
  unfold Impl_Initialize. rewrite exec_mod. set (i0 := set_field _ _).
  destruct (negb open_render_node).
  { exists None. split; [done|]. split; [done|]. split; [by intros n [?|?]|]. exists []. by split; [|constructor]. }
  exists (Some k). destruct vaGetDisplayDRM as [x|].
  - set (i1 := i0 <| fresh := S (S k) |> <| drm_fd_ := Some k |> <| display_ := Some (S k, x) |>
      <| live := Display (S k) :: RenderNode k :: l |>).
    match goal with |- owns k l _ (exec ?m i0) => assert (exec m i0 = exec (setup_display config w h) i1) as -> end.
    { unfold make. run_eff. match goal with |- context [setup_display config w h ?s] => change s with i1 end.
      by destruct (setup_display config w h i1) as [[? ?] ?]. }
    apply (setup_display_respects (keeping (owns k l (Some k)) (λ _, True)) config w h i1).
    split; [done|]. split; [simpl; lia|]. split; [intros n [Hn|Hn]; simpl in Hn; injection Hn as <-; lia|].
    exists [Display (S k); RenderNode k]. split; [done|]. by repeat constructor.
  - split; [done|]. split; [simpl; lia|]. split; [intros n [Hn|Hn]; simpl in Hn; [injection Hn as <-; lia|done]|].
    exists [RenderNode k]. split; [done|]. by repeat constructor.
Qed.

(** Terminating the display, then closing the node. *)
Lemma terminate_owns fd i d : session_of i = Some d → owns k l fd i →
  owns k l fd (i <| live := filter (λ r, of_display d r = false) (live i) |> <| display_ := None |>).
Proof.
  intros Hs (H0 & H1 & H2 & added & H3 & H4). split; [exact H0|]. split; [exact H1|].
  split; [intros n [Hn|Hn]; [by apply H2; left|done]|].
  exists (filter (λ r, of_display d r = false) added). simpl. rewrite H3. split.
  - apply filter_young. intros r Hr. pose proof (H2 d (or_intror Hs)). destruct r; simpl in *; try done; apply Nat.eqb_neq; lia.
  - apply Forall_forall. intros r [Hr Hin]%list_elem_of_filter. rewrite Forall_forall in H4. specialize (H4 r Hin).
    rewrite Hs in H4. destruct r; simpl in *; simplify_eq; [done|by rewrite Nat.eqb_refl in Hr..].
Qed.
Lemma close_owns fd i : session_of i = None → owns k l fd i → live (exec (close_node fd) i) = l.
Proof.
  intros Hs (H0 & H1 & H2 & added & H3 & H4). rewrite Hs in H4. destruct fd as [n|].
  - unfold close_node. rewrite exec_bind. simpl. pose proof (H2 n (or_introl eq_refl)).
    rewrite H3, filter_young by (intros r Hr ->; simpl in Hr; lia).
    rewrite filter_none; [done|]. eapply Forall_impl; [exact H4|]. intros r Hr Hne. by destruct r; simpl in Hr; simplify_eq.
  - change (live i = l). rewrite H3. destruct added as [|r added]; [done|]. apply Forall_cons in H4 as [Hr _].
    by destruct r.
Qed.

Lemma destroy_owned fd i : owns k l fd i → live (exec Impl_Destroy i) = l.
Proof.
  intros Hi. unfold Impl_Destroy. rewrite exec_get, exec_bind, (proj1 Hi).
  destruct (display_ i) as [[d x]|] eqn:Hd; [|apply close_owns; [change (session_of i = None); unfold session_of; by rewrite Hd|exact Hi]].
  rewrite exec_bind. set (i1 := exec (drop_objects i) i).
  assert (owns k l fd i1) as Ho by (by apply (drop_objects_respects (keeping (owns k l fd) (λ _, True)))).
  assert (session_of i1 = Some d) as Hs.
  { unfold i1. rewrite (proj1 (drop_objects_respects quiet i i)). unfold session_of. by rewrite Hd. }
  apply close_owns; [done|]. by apply (terminate_owns fd i1 d).
Qed.

(** The calls made on an [Impl] that has been initialised. *)
Inductive op :=
| OpEncode (i420 : I420Buffer) (width height pts : Z) (force_idr : bool)
| OpReconfigure (config : VaapiEncoderConfig).
Definition op_run (o : op) : M unit :=
  match o with
  | OpEncode p w h pts key => Impl_Encode p w h pts key;; mret tt
  | OpReconfigure c => Impl_Reconfigure c;; mret tt
  end.
Lemma op_owns fd o : respects (keeping (owns k l fd) (λ _, True)) (op_run o).
Proof.
  destruct o; (apply respects_bind; [apply _| |intros _; apply respects_ret, _]).
  - apply encode_respects; [apply _|]. intros s n. by apply keeping_emit.
  - apply reconfigure_respects; [apply _|]. intros s n r f. by apply keeping_emit.
Qed.
End owned.

(** C33. Whatever libva refuses and whenever, after Initialize, any calls and Destroy
    nothing is alive that was not alive before: not the node, not the display
    and nothing made on it. *)
Theorem vaapi_destroy_releases config w h ty ops l k : Forall (λ r, number r < k)%nat l →
  live (exec (Impl_Initialize config w h ty;; eseq (op_run <$> ops);; Impl_Destroy) (new_Impl l k)) = l.
Proof.
  intros Hl. rewrite !exec_bind. destruct (initialize_owns k l Hl config w h ty) as [fd Hi].
  eapply (destroy_owned k l Hl fd).
  assert (respects (keeping (owns k l fd) (λ _, True)) (eseq (op_run <$> ops))) as H.
  { apply respects_seq; [apply _|]. apply Forall_fmap, Forall_forall. intros o _. by apply op_owns. }
  by apply H.
Qed.

(** ** The buffers of a picture *)

Definition object_number (r : resource) : nat :=
  match r with RenderNode n | Display n => n | OnDisplay _ o => object_id o end.
(** Numbers are given once. *)
Definition numbered (i : Impl) : Prop := Forall (λ r, object_number r < fresh i)%nat (live i).

(** What the leak is about; the rest of the state is as it was. *)
Definition st (i : Impl) := (live i, fresh i, session_of i, webrtc_type_ i).

#[local] Instance numbered_atomic ty : Atomic (keeping (λ i, numbered i ∧ webrtc_type_ i = ty) (λ _, True)).
Proof.
  split; [apply _|..].
  - intros A dflt f s Hs. unfold exec, events, on_va. destruct (display_ s) as [[d x]|]; [|by split; [|constructor]].
    destruct (f x) as [r x']. by split; [|constructor].
  - intros o f Ho s [Hs Ht]. unfold exec, events. destruct (display_ s) as [[d x]|] eqn:Hd.
    + rewrite (create_run _ _ _ _ _ Hd). destruct (f x).1; simpl; (split; [|constructor]); [|done]. split; [|done].
      constructor; [simpl; rewrite Ho; lia|]. eapply Forall_impl; [exact Hs|]. simpl. lia.
    + rewrite (proj1 (proj2 (no_display_run s Hd))). by split; [|constructor].
  - intros o s [Hs Ht]. unfold exec, events. destruct (display_ s) as [[d x]|] eqn:Hd.
    + rewrite (destroy_open_run _ _ _ _ Hd). simpl. split; [|constructor]. split; [|done].
      apply Forall_forall. simpl. intros r [_ Hr]%list_elem_of_filter. unfold numbered in Hs. rewrite Forall_forall in Hs. auto.
    + rewrite (proj2 (proj2 (no_display_run s Hd))). by split; [|constructor].
  - intros g Hg. apply keeping_mod. intros s [Hs Ht]. specialize (Hg s). unfold core in Hg. injection Hg as G1 G2 _ _ G5.
    unfold numbered. by rewrite G1, G2, G5.
Qed.

Section leak.
Context (Hkeeps : render_frees = false).

Lemma ends_va {A B} (dflt : A) f (k : A → M B) i Q :
  (∀ r i', st i' = st i → ends (k r) i' Q) → ends (on_va dflt f ≫= k) i Q.
Proof.
  intros H. apply ends_bind. unfold ends, on_va, exec, result. destruct (display_ i) as [[d x]|] eqn:Hd; [|by apply H].
  destruct (f x) as [r x']. simpl. apply H. unfold st, session_of. simpl. by rewrite Hd.
Qed.
Lemma ends_need_va {A} f (k : M (option A)) i Q :
  (∀ i', st i' = st i → ends k i' Q) → (∀ i', Q None i') → ends (need None (on_va false f) k) i Q.
Proof. intros Hk Hn. apply ends_va. intros [] i' Hi; [by apply Hk|apply Hn]. Qed.
Lemma ends_need_render {A} bufs (k : M (option A)) i Q :
  (∀ i', st i' = st i → ends k i' Q) → (∀ i', Q None i') → ends (need None (render bufs) k) i Q.
Proof.
  intros Hk Hn. unfold need. apply ends_bind. unfold render. apply ends_va. intros ok i' Hi. rewrite Hkeeps, andb_false_r.
  destruct ok; [by apply Hk|apply Hn].
Qed.
Lemma ends_create {A} o f (k : nat → M (option A)) i d Q : session_of i = Some d →
  (∀ i', st i' = (OnDisplay d (o (fresh i)) :: live i, S (fresh i), Some d, webrtc_type_ i) → ends (k (fresh i)) i' Q) →
  (∀ i', Q None i') → ends (have None (create o f) k) i Q.
Proof.
  intros Hs Hk Hn. apply ends_bind. unfold session_of in Hs. destruct (display_ i) as [[d' x]|] eqn:Hd; [|done].
  injection Hs as ->. unfold ends at 1, exec, result. rewrite (create_run _ _ _ _ _ Hd).
  destruct (f x).1; simpl; [by apply Hk|apply Hn].
Qed.
Lemma ends_destroy {A} o (k : unit → M A) i d Q : session_of i = Some d →
  (∀ i', st i' = (filter (λ r, r ≠ OnDisplay d o) (live i), fresh i, Some d, webrtc_type_ i) → ends (k tt) i' Q) →
  ends (destroy o ≫= k) i Q.
Proof.
  intros Hs Hk. apply ends_bind. pose proof Hs as Hs'. unfold session_of in Hs. destruct (display_ i) as [[d' x]|] eqn:Hd; [|done].
  injection Hs as ->. unfold ends at 1, exec, result. rewrite (destroy_open_run _ _ _ _ Hd). simpl. apply Hk.
  unfold st, session_of in *. simpl. by rewrite Hd.
Qed.

(** A picture leaves its parameters behind, and its coded buffer until that is
    drained. *)
Definition left_by (ty : VideoCodecType) (n : nat) : list nat :=
  if bool_decide (ty = kVideoCodecVP9) then [n] else [S n; n].
Definition on_display (d : nat) : list nat → list resource := fmap (OnDisplay d ∘ ABuffer).


Lemma finish_picture_ends h pts key coded bufs i :
  ends (finish_picture h pts key coded bufs) i (λ r i', is_Some r → r = Some coded ∧ st i' = st i).
Proof.
  apply ends_get, ends_bind. change (ends (need None (on_va false (λ x, vaBeginPicture x (surface_index_ i)))
    (need None (render bufs) (need None (on_va false vaEndPicture) (mret (Some coded))))) i
    (λ r i', is_Some r → r = Some coded ∧ st i' = st i)).
  apply ends_need_va; [|by intros ? [? ?]]. intros i1 H1. apply ends_need_render; [|by intros ? [? ?]]. intros i2 H2.
  apply ends_need_va; [|by intros ? [? ?]]. intros i3 H3. intros _. split; [done|]. change (st i3 = st i). congruence.
Qed.

Lemma submit_picture_ends h pts key i d ty : session_of i = Some d → webrtc_type_ i = Some ty →
  ends (SubmitPictureAndSlice h pts key) i (λ r i', is_Some r → r = Some (fresh i) ∧
    let bufs := left_by ty (S (fresh i)) in
    st i' = (on_display d (bufs ++ [fresh i]) ++ live i, (S (fresh i) + List.length bufs)%nat, Some d, Some ty)).
Proof.
  intros Hs Ht. apply ends_get. apply (ends_create _ _ _ _ d); [done| |by intros ? [? ?]]. intros i1 H1.
  unfold picture_buffers. rewrite Ht. unfold st in H1. injection H1 as L1 F1 S1 T1.
  assert (∀ pic slice Q, (∀ i', Q None i') →
    (∀ i', st i' = (on_display d [S (S (fresh i)); S (fresh i); fresh i] ++ live i, S (S (S (fresh i))), Some d, Some ty) →
      ends (finish_picture h pts key (fresh i) [S (fresh i); S (S (fresh i))]) i' Q) →
    ends (have None (create ABuffer (λ x, vaCreateBuffer x pic)) (λ pic_buf,
      have None (create ABuffer (λ x, vaCreateBuffer x slice)) (λ slice_buf,
        finish_picture h pts key (fresh i) [pic_buf; slice_buf]))) i1 Q) as Htwo.
  { intros pic slice Q HQ Hk. apply (ends_create _ _ _ _ d); [done| |done]. intros i2 H2.
    unfold st in H2. injection H2 as L2 F2 S2 T2. apply (ends_create _ _ _ _ d); [done| |done]. intros i3 H3.
    rewrite F2, F1. apply Hk. rewrite H3, L2, L1, T2, T1, F2, F1, Ht. done. }
  assert (∀ pic slice, ends (have None (create ABuffer (λ x, vaCreateBuffer x pic)) (λ pic_buf,
      have None (create ABuffer (λ x, vaCreateBuffer x slice)) (λ slice_buf,
        finish_picture h pts key (fresh i) [pic_buf; slice_buf]))) i1
    (λ r i', is_Some r → r = Some (fresh i) ∧
      st i' = (on_display d ([S (S (fresh i)); S (fresh i)] ++ [fresh i]) ++ live i, (S (fresh i) + 2)%nat, Some d, Some ty)))
    as Hslice.
  { intros pic slice. apply Htwo; [by intros ? [? ?]|]. intros i' Hi'.
    eapply ends_mono; [apply finish_picture_ends|]. intros r i'' Hr Hsome. destruct (Hr Hsome) as [-> ->].
    split; [done|]. rewrite Hi'. do 3 f_equal. lia. }
  destruct ty; [apply Hslice|apply Hslice| |apply Hslice].
  apply (ends_create _ _ _ _ d); [done| |by intros ? [? ?]]. intros i2 H2.
  eapply ends_mono; [apply finish_picture_ends|]. intros r i' Hr Hsome. destruct (Hr Hsome) as [-> ->]. split; [done|].
  rewrite H2, L1, F1, T1, Ht. simpl. do 3 f_equal. lia.
Qed.

Lemma filter_older (L : list resource) r n : Forall (λ x, object_number x < n)%nat L → (n ≤ object_number r)%nat →
  filter (λ x, x ≠ r) L = L.
Proof. intros HL Hr. apply filter_all. eapply Forall_impl; [exact HL|]. intros x Hx ->. lia. Qed.

(** Where rendering keeps the buffers it is given, a picture that is encoded
    leaves its parameters alive. *)
Lemma encode_leaves p w h pts key i d ty :
  session_of i = Some d → webrtc_type_ i = Some ty → numbered i →
  ends (Impl_Encode p w h pts key) i (λ r i', is_Some r →
    let bufs := left_by ty (S (S (fresh i))) in
    st i' = (on_display d bufs ++ live i, (S (S (fresh i)) + List.length bufs)%nat, Some d, Some ty)).
Proof.
  intros Hs Ht Hn. apply ends_get. pose proof Hs as Hs0. unfold session_of in Hs0.
  destruct (display_ i) as [[d' x]|] eqn:Hd; [|done]. injection Hs0 as ->.
  apply (ends_create _ _ _ _ d); [done| |by intros ? [? ?]]. intros i1 H1. unfold st in H1. injection H1 as L1 F1 S1 T1.
  apply ends_va. intros mapped i2 H2. unfold st in H2. rewrite L1, F1, S1, T1 in H2.
  assert (∀ A (k : unit → M A) Q, (∀ i', st i' = st i2 → ends (k tt) i' Q) →
    ends ((if (mapped : bool) then on_va tt (λ x, (tt, copy_planes x p w h)) else mret tt) ≫= k) i2 Q) as Hcopy.
  { intros A k Q Hk. destruct mapped; [apply ends_va; intros [] i' Hi'; by apply Hk|]. apply ends_bind. by apply Hk. }
  apply Hcopy. intros i3 H3. unfold st in H3, H2. rewrite H2 in H3. injection H3 as L3 F3 S3 T3.
  apply (ends_destroy _ _ _ d); [done|]. intros i4 H4. rewrite L3, F3, T3 in H4.
  rewrite filter_cons_False in H4 by (intros H; by apply H).
  rewrite (filter_older (live i) (OnDisplay d (AnImage (fresh i))) (fresh i)) in H4 by done.
  unfold st in H4. injection H4 as L4 F4 S4 T4.
  destruct mapped; cbn [negb]; [|by intros [? ?]]. apply ends_get, ends_bind.
  eapply ends_mono; [apply (submit_picture_ends _ _ _ i4 d ty); [done|congruence]|].
  intros [coded|] i5 H5; [|by intros [? ?]]. destruct H5 as [[= ->] H5]; [by eexists|]. cbv zeta in H5.
  rewrite L4, F4 in H5. unfold st in H5. injection H5 as L5 F5 S5 T5.
  apply ends_need_va; [|by intros ? [? ?]]. intros i6 H6. unfold st in H6. rewrite L5, F5, S5, T5 in H6. injection H6 as L6 F6 S6 T6.
  apply ends_va. intros segs i7 H7. unfold st in H7. rewrite L6, F6, S6, T6 in H7. injection H7 as L7 F7 S7 T7.
  apply (ends_destroy _ _ _ d); [done|]. intros i8 H8. rewrite L7, F7, T7 in H8. unfold st in H8. injection H8 as L8 F8 S8 T8.
  destruct (segs ≫= collect) as [bytes|]; [|by intros [? ?]]. intros _. cbv zeta.
  change (st i8 = (on_display d (left_by ty (S (S (fresh i)))) ++ live i,
    (S (S (fresh i)) + List.length (left_by ty (S (S (fresh i)))))%nat, Some d, Some ty)).
  unfold st. rewrite L8, F8, S8, T8. f_equal. f_equal. f_equal. rewrite F4. unfold on_display.
  rewrite fmap_app, <-app_assoc, filter_app. rewrite filter_all.
  - f_equal. simpl. rewrite filter_cons_False by (intros H; by apply H).
    apply (filter_older _ _ (fresh i)); [done|simpl; lia].
  - apply Forall_fmap, Forall_forall. intros n Hin. simpl. intros [= ->]. unfold left_by in Hin.
    case_bool_decide; set_unfold; lia.
Qed.

(** The buffers alive. *)
Definition is_buffer (r : resource) : bool := match r with OnDisplay _ (ABuffer _) => true | _ => false end.
Definition buffers_alive (i : Impl) : nat := List.length (filter (λ r, is_buffer r = true) (live i)).

(** Encoding a list of pictures: their planes, timestamps and whether a key
    frame is asked for; false when one of them fails. *)
Fixpoint encode_all (w h : Z) (pictures : list (I420Buffer * Z * bool)) : M bool :=
  match pictures with
  | [] => mret true
  | (p, pts, key) :: rest =>
      r ← Impl_Encode p w h pts key;
      match r with Some _ => encode_all w h rest | None => mret false end
  end.

Lemma left_behind ty d n L :
  List.length (filter (λ r, is_buffer r = true) (on_display d (left_by ty n) ++ L)) =
    (List.length (left_by ty n) + List.length (filter (λ r, is_buffer r = true) L))%nat.
Proof. rewrite filter_app, length_app. f_equal. unfold left_by. by case_bool_decide. Qed.

Lemma encode_all_leaves w h pictures i d ty :
  session_of i = Some d → webrtc_type_ i = Some ty → numbered i →
  ends (encode_all w h pictures) i (λ ok i', ok = true →
    buffers_alive i' = (buffers_alive i + List.length (left_by ty 0) * List.length pictures)%nat).
Proof.
  revert i. induction pictures as [|[[p pts] key] rest IH]; intros i Hs Ht Hn.
  { intros _. change (buffers_alive i = (buffers_alive i + List.length (left_by ty 0) * 0)%nat). lia. }
  cbn [encode_all]. eapply ends_cut; [by apply (encode_leaves p w h pts key i d ty)|].
  intros [bytes|] i1 H1; [|by intros ?]. cbv zeta in H1. unfold st in H1. injection (H1 (mk_is_Some _ _ eq_refl)) as L1 F1 S1 T1.
  assert (List.length (left_by ty (S (S (fresh i)))) = List.length (left_by ty 0)) as Hlen by (unfold left_by; by case_bool_decide).
  assert (numbered i1) as N1.
  { unfold numbered. rewrite L1, F1. apply Forall_app. split.
    - apply Forall_fmap, Forall_forall. intros n Hin. simpl. unfold left_by in *. case_bool_decide; set_unfold; simpl; lia.
    - eapply Forall_impl; [exact Hn|]. simpl. lia. }
  eapply ends_mono; [by apply IH|]. intros ok i2 H2 Hok. rewrite (H2 Hok).
  unfold buffers_alive at 1. rewrite L1, left_behind, Hlen. unfold buffers_alive. simpl List.length. lia.
Qed.

(** Where rendering a picture does not destroy its buffers, as in current
    versions of libva, the encoder, which never destroys them, leaves two more
    alive with every picture (one for VP9) as long as the session lasts. *)
Theorem vaapi_leaks_parameters config w h ty pictures l k : Forall (λ r, object_number r < k)%nat l →
  let i := exec (Impl_Initialize config w h ty) (new_Impl l k) in
  result (Impl_Initialize config w h ty) (new_Impl l k) = true →
  result (encode_all w h pictures) i = true →
  buffers_alive (exec (encode_all w h pictures) i) =
    (buffers_alive i + (if bool_decide (ty = kVideoCodecVP9) then 1 else 2) * List.length pictures)%nat.
Proof.
  intros Hl i Hok Hall. subst i. unfold Impl_Initialize in *. rewrite exec_mod in Hall |- *.
  rewrite result_bind in Hok. change (exec (emod ?f) ?s) with (f s) in Hok. cbv beta in Hok.
  set (i0 := set_field _ _) in *. destruct (negb open_render_node); [discriminate Hok|].
  destruct vaGetDisplayDRM as [x|]; [|discriminate Hok].
  set (i1 := i0 <| fresh := S (S k) |> <| drm_fd_ := Some k |> <| display_ := Some (S k, x) |>
    <| live := Display (S k) :: RenderNode k :: l |>).
  match type of Hall with result _ (exec ?m i0) = true => assert (exec m i0 = exec (setup_display config w h) i1) as He end.
  { unfold make. run_eff. match goal with |- context [setup_display config w h ?s] => change s with i1 end.
    by destruct (setup_display config w h i1) as [[? ?] ?]. }
  rewrite He in Hall |- *. clear He Hok.
  destruct (setup_display_respects (keeping (λ i, numbered i ∧ webrtc_type_ i = Some ty) (λ _, True)) config w h i1)
    as [[Hn Ht] _].
  { split; [|done]. unfold numbered. simpl. do 2 (apply Forall_cons; split; [simpl; lia|]). eapply Forall_impl; [exact Hl|]. simpl. lia. }
  destruct (setup_display_respects quiet config w h i1) as [Hs _].
  pose proof (encode_all_leaves w h pictures _ (S k) ty Hs Ht Hn Hall) as H. rewrite H. unfold left_by. by case_bool_decide.
Qed.
End leak.

End backend.

(** ** Witnesses *)

Section witnesses.
#[local] Existing Instance sample_webrtc.
#[local] Existing Instance defaults.
(** A driver that refuses what [refuses] says, counting its calls. *)
Definition sample_vaapi (frees : bool) (refuses : nat → bool) : Vaapi := {|
  va := nat;
  open_render_node := true;
  vaGetDisplayDRM := Some 0%nat;
  vaSetDriverName x _ := x;
  vaInitialize x := (negb (refuses x), S x);
  vaQueryVendorString _ := Some "Intel iHD"%string;
  vaQueryConfigEntrypoints _ _ := Some [VAEntrypointEncSlice];
  vaCreateConfig x _ _ _ := (negb (refuses x), S x);
  vaCreateSurfaces x _ _ := (negb (refuses x), S x);
  vaCreateContext x _ _ := (negb (refuses x), S x);
  vaCreateBuffer x _ := (negb (refuses x), S x);
  vaBeginPicture x _ := (negb (refuses x), S x);
  vaRenderPicture x _ := (negb (refuses x), S x);
  vaEndPicture x := (negb (refuses x), S x);
  render_frees := frees;
  vaDeriveImage x _ := (negb (refuses x), S x);
  vaMapImage x := (negb (refuses x), S x);
  copy_planes x _ _ _ := x;
  vaSyncSurface x _ := (negb (refuses x), S x);
  vaMapCoded x _ := (Some [([1; 2], false); ([3], false)], S x);
|}.

(** The twentieth call fails, in the second picture. *)
Lemma vaapi_destroy_releases_witness :
  let _ := sample_vaapi false (λ n, (n =? 20)%nat) in
  live (exec (Impl_Initialize default_config 640 360 kVideoCodecH264;;
    eseq (op_run <$> [OpEncode tt 640 360 0 true; OpEncode tt 640 360 1 false; OpReconfigure default_config]);;
    Impl_Destroy) (new_Impl [RenderNode 0] 1)) = [RenderNode 0].
Proof.
  intros X. refine (@vaapi_destroy_releases _ _ X default_config 640 360 kVideoCodecH264 _ [RenderNode 0] 1 _).
  constructor; [simpl; lia|constructor].
Defined.

Lemma vaapi_leaks_parameters_witness :
  let X := sample_vaapi false (λ _, false) in
  let i := exec (Impl_Initialize default_config 640 360 kVideoCodecH264) (new_Impl [] 0) in
  buffers_alive i = 4%nat ∧
  buffers_alive (exec (encode_all 640 360 [(tt, 0, true); (tt, 1, false); (tt, 2, false)]) i) = 10%nat.
Proof.
  intros X i. split; [vm_compute; reflexivity|].
  refine (@vaapi_leaks_parameters _ _ X eq_refl default_config 640 360 kVideoCodecH264
    [(tt, 0, true); (tt, 1, false); (tt, 2, false)] [] 0 (Forall_nil_2 _) _ _); vm_compute; reflexivity.
Defined.
End witnesses.
