(* ===== verification/EncoderFactory.v ===== *)
(** * The encoder factory (capture/encoder/encoder_factory.h, encoder_factory_stub.cc)

    What the process offers to the session description, and which encoder it
    makes for a format: hardware when it is preferred and a probe finds it,
    software otherwise.  A probe makes and unmakes driver objects, so the
    process is the state: what of each driver is alive, and the caches of the
    probes that are cached. *)

From Stdlib Require Import ZArith Lia Ascii String SpecFloat.
From stdpp Require Import base tactics numbers option strings gmap sets list.
From S2P Require Import Prelude Numbers VideoEncoder ShellEncoder H264Encoder Vp9Encoder SvtAv1Encoder NvencEncoder VaapiEncoder SimulcastEncoder.
Open Scope Z_scope.

Record SdpVideoFormat := mkFormat { format_name : string; parameters : gmap string string }.

Record Config := mkFactoryConfig {
  enable_vp9 : bool;
  enable_h264 : bool;
  enable_vp8 : bool;
  zero_latency : bool;
  disable_b_frames : bool;
  intra_refresh : bool;
  gop_length_frames : Z;
  bwe_adapter : bool;            (* whether there is one *)
  prefer_nvenc_h264 : bool;
  prefer_nvenc_hevc : bool;
  prefer_nvenc_av1 : bool;
  prefer_vaapi_h264 : bool;
  prefer_vaapi_hevc : bool;
  prefer_vaapi_av1 : bool;
  prefer_vaapi_vp9 : bool;
  enable_svt_av1 : bool;
  enable_simulcast : bool;
}.
#[export] Instance eta_factory : Eta Config := λ s,
  mkFactoryConfig (enable_vp9 s) (enable_h264 s) (enable_vp8 s) (zero_latency s) (disable_b_frames s)
    (intra_refresh s) (gop_length_frames s) (bwe_adapter s) (prefer_nvenc_h264 s) (prefer_nvenc_hevc s)
    (prefer_nvenc_av1 s) (prefer_vaapi_h264 s) (prefer_vaapi_hevc s) (prefer_vaapi_av1 s) (prefer_vaapi_vp9 s)
    (enable_svt_av1 s) (enable_simulcast s).
Definition factory_defaults : Config :=
  mkFactoryConfig true true false true true true 240 false false false false false false false false true false.

(** The encoders, by the configuration they are made with. *)
Inductive encoder :=
| SoftwareVp9 (c : Vp9EncoderConfig)
| SoftwareH264 (c : H264EncoderConfig)
| SoftwareAv1 (c : SvtAv1EncoderConfig)
| HardwareNvenc (c : NvencEncoderConfig)
| HardwareVaapi (c : VaapiEncoderConfig)
| UnimplementedEncoder (codec_name : string).
Definition is_software (e : encoder) : bool :=
  match e with SoftwareVp9 _ | SoftwareH264 _ | SoftwareAv1 _ => true | _ => false end.

(** The caches of the probes, by codec name. *)
Record process := mkProcess {
  nvenc_alive : list NvencEncoder.resource * nat;
  vaapi_alive : list VaapiEncoder.resource * nat;
  NvencCache : gmap string bool;
  VaapiCache : gmap string bool;
}.
#[export] Instance eta_process : Eta process := λ s,
  mkProcess (nvenc_alive s) (vaapi_alive s) (NvencCache s) (VaapiCache s).

Section factory.
Context {U : Unspecified} {W : WebrtcLib} {XS : SvtAv1} {XN : Nvenc} {XV : Vaapi}.

Inductive hardware := NVENC | VAAPI.
#[export] Instance hardware_eq_dec : EqDecision hardware.
Proof. solve_decision. Defined.
(** The probes of the process. *)
Inductive factory_event := Probed (h : hardware) (codec : string).
Notation M := (eff process factory_event).

(** What is handed back: one encoder, or the simulcast encoder with what it
    builds its layers with; wrapped by the bandwidth adapter or not. *)
Inductive video_encoder :=
| Single (e : encoder)
| Simulcasting (build : SimulcastLayer → M encoder) (codec_type : string).
Record created := mkCreated { adapted : bool; made : video_encoder }.

(** ** Probes *)

Definition nvenc_probe (codec : string) : M bool := λ s,
  let '(ok, p) := NvencEncoder.ProbeAvailable codec (nvenc_alive s) in
  (ok, s <| nvenc_alive := p |>, [Probed NVENC codec]).
Definition vaapi_probe (codec : string) : M bool := λ s,
  let '(ok, p) := VaapiEncoder.ProbeAvailable codec (vaapi_alive s) in
  (ok, s <| vaapi_alive := p |>, [Probed VAAPI codec]).

(** The codecs that have a slot in the cache. *)
Definition nvenc_slot (codec : string) : bool :=
  String.eqb codec "H264" || String.eqb codec "HEVC" || String.eqb codec "AV1".
Definition vaapi_slot (codec : string) : bool := nvenc_slot codec || String.eqb codec "VP9".

Definition NvencAvailable (codec : string) : M bool :=
  if negb (nvenc_slot codec) then mret false
  else
    s ← eget;
    match NvencCache s !! codec with
    | Some b => mret b
    | None => b ← nvenc_probe codec; emod (λ s, s <| NvencCache := <[codec := b]> (NvencCache s) |>);; mret b
    end.
Definition VaapiAvailable (codec : string) : M bool :=
  if negb (vaapi_slot codec) then mret false
  else
    s ← eget;
    match VaapiCache s !! codec with
    | Some b => mret b
    | None => b ← vaapi_probe codec; emod (λ s, s <| VaapiCache := <[codec := b]> (VaapiCache s) |>);; mret b
    end.

(** ** The formats *)

Definition av1_advertise (c : Config) : bool := enable_svt_av1 c || prefer_nvenc_av1 c || prefer_vaapi_av1 c.
Definition h264_parameters : gmap string string :=
  <["level-asymmetry-allowed" := "1"]> (<["packetization-mode" := "1"]> (<["profile-level-id" := "42e01f"]> ∅)).

Definition GetSupportedFormats (c : Config) : list SdpVideoFormat :=
  ((if enable_vp9 c then [mkFormat "VP9" ∅] else []) ++
   (if enable_h264 c then [mkFormat "H264" h264_parameters] else []) ++
   (if enable_vp8 c then [mkFormat "VP8" ∅] else []) ++
   (if av1_advertise c then [mkFormat "AV1" ∅] else []))%list.

Definition QueryCodecSupport (c : Config) (format : SdpVideoFormat) : bool :=
  existsb (λ f, String.eqb (format_name f) (format_name format)) (GetSupportedFormats c).

(** ** Making an encoder *)

Definition refresh_period (c : Config) : Z :=
  if intra_refresh c then Z.max 1 (Z.quot (gop_length_frames c) 4) else 60.
Definition gop_of (c : Config) : Z := if intra_refresh c then -1 else gop_length_frames c.
(** [if (!profile_level_id.empty()) cfg.profile_level_id = profile_level_id;] *)
Definition profile_or_default (profile : string) : string := if String.eqb profile "" then "42e01f" else profile.

Definition vaapi_config (c : Config) (codec profile : string) (gop : Z) : VaapiEncoderConfig :=
  VaapiEncoder.mkConfig codec 4000000 30 (refresh_period c) (profile_or_default profile) "CBR" gop "" (zero_latency c).
Definition nvenc_config (c : Config) (codec profile : string) : NvencEncoderConfig :=
  NvencEncoder.mkConfig codec 4000000 30 (refresh_period c) (profile_or_default profile) "P3" "LOW_LATENCY" (zero_latency c).
Definition vp9_config (c : Config) : Vp9EncoderConfig :=
  Vp9Encoder.mkConfig 4000000 30 (refresh_period c) (gop_of c) 1 0 (zero_latency c).
Definition h264_config (c : Config) (profile : string) : H264EncoderConfig :=
  H264Encoder.mkConfig 4000000 30 (refresh_period c) (profile_or_default profile) "ultrafast" "zerolatency" 0 (zero_latency c).
Definition svt_config (c : Config) : SvtAv1EncoderConfig :=
  SvtAv1Encoder.mkConfig 4000000 30 (refresh_period c) 0 8 "VQ" 0 (zero_latency c).

(** [prefer && Probe()] *)
Definition preferred (prefer : bool) (probe : M bool) : M bool := if prefer then probe else mret false.

Definition build_inner_vp9 (c : Config) (_ : SimulcastLayer) : M encoder :=
  hw ← preferred (prefer_vaapi_vp9 c) (vaapi_probe "VP9");
  if (hw : bool) then mret (HardwareVaapi (vaapi_config c "VP9" "" (gop_of c)))
  else mret (SoftwareVp9 (vp9_config c)).

Definition build_inner_h264 (c : Config) (profile : string) (_ : SimulcastLayer) : M encoder :=
  nv ← preferred (prefer_nvenc_h264 c) (nvenc_probe "H264");
  if (nv : bool) then mret (HardwareNvenc (nvenc_config c "H264" profile))
  else
    va ← preferred (prefer_vaapi_h264 c) (vaapi_probe "H264");
    if (va : bool) then mret (HardwareVaapi (vaapi_config c "H264" profile (gop_of c)))
    else mret (SoftwareH264 (h264_config c profile)).

Definition build_av1 (c : Config) : M (option encoder) :=
  nv ← preferred (prefer_nvenc_av1 c) (NvencAvailable "AV1");
  if (nv : bool) then mret (Some (HardwareNvenc (nvenc_config c "AV1" "")))
  else
    va ← preferred (prefer_vaapi_av1 c) (VaapiAvailable "AV1");
    if (va : bool) then mret (Some (HardwareVaapi (vaapi_config c "AV1" "" (gop_of c))))
    else if enable_svt_av1 c && SvtAv1Encoder.ProbeAvailable then mret (Some (SoftwareAv1 (svt_config c)))
    else mret None.

(** The profile of the remote, when it has six characters. *)
Definition negotiated_profile (format : SdpVideoFormat) : string :=
  match parameters format !! "profile-level-id" with
  | Some p => if (String.length p =? 6)%nat then p else ""
  | None => ""
  end.

(** [WrapWithBweAdapter] of a simulcast encoder, or of the encoder built. *)
Definition wrapped_build (c : Config) (build : SimulcastLayer → M encoder) (codec_type : string) : M (option created) :=
  if enable_simulcast c then mret (Some (mkCreated (bwe_adapter c) (Simulcasting build codec_type)))
  else e ← build (mkLayer "" 1 0 0); mret (Some (mkCreated (bwe_adapter c) (Single e))).

Definition Create (c : Config) (format : SdpVideoFormat) : M (option created) :=
  if String.eqb (format_name format) "VP9" && enable_vp9 c then wrapped_build c (build_inner_vp9 c) "vp9"
  else if String.eqb (format_name format) "H264" && enable_h264 c then
    wrapped_build c (build_inner_h264 c (negotiated_profile format)) "h264"
  else if String.eqb (format_name format) "AV1" then
    e ← build_av1 c;
    mret ((λ e, mkCreated (bwe_adapter c) (Single e)) <$> (e : option encoder))
  else if String.eqb (format_name format) "VP8" && enable_vp8 c then
    mret (Some (mkCreated false (Single (UnimplementedEncoder "vp8"))))
  else mret None.

(** ** What is advertised and what is made *)

Lemma supported_iff c format : QueryCodecSupport c format = true ↔
  (format_name format = "VP9"%string ∧ enable_vp9 c = true) ∨ (format_name format = "H264"%string ∧ enable_h264 c = true) ∨
  (format_name format = "VP8"%string ∧ enable_vp8 c = true) ∨ (format_name format = "AV1"%string ∧ av1_advertise c = true).
Proof.
  unfold QueryCodecSupport, GetSupportedFormats. rewrite !existsb_app, !orb_true_iff.
  assert (∀ (b : bool) name ps, existsb (λ f, String.eqb (format_name f) (format_name format))
    (if b then [mkFormat name ps] else []) = true ↔ format_name format = name ∧ b = true) as H.
  { intros [] name ps; simpl; [|by split; [|intros [_ ?]]]. rewrite orb_false_r, String.eqb_eq. naive_solver. }
  by rewrite !H.
Qed.

(** An encoder is made only for a format that is advertised. *)
Theorem created_is_advertised c format s e : result (Create c format) s = Some e → QueryCodecSupport c format = true.
Proof.
  rewrite supported_iff. unfold Create.
  destruct (String.eqb (format_name format) "VP9" && enable_vp9 c) eqn:H1.
  { apply andb_true_iff in H1 as [H1%String.eqb_eq ->]. by left. }
  destruct (String.eqb (format_name format) "H264" && enable_h264 c) eqn:H2.
  { apply andb_true_iff in H2 as [H2%String.eqb_eq ->]. by right; left. }
  destruct (String.eqb (format_name format) "AV1") eqn:H3.
  - apply String.eqb_eq in H3. rewrite result_bind. intros He. right; right; right. split; [done|].
    destruct (av1_advertise c) eqn:Ha; [done|]. exfalso.
    unfold av1_advertise in Ha. apply orb_false_iff in Ha as [[Ha1 Ha2]%orb_false_iff Ha3].
    unfold build_av1 in He. rewrite Ha1, Ha2, Ha3 in He. discriminate He.
  - destruct (String.eqb (format_name format) "VP8" && enable_vp8 c) eqn:H4; [|discriminate].
    apply andb_true_iff in H4 as [H4%String.eqb_eq ->]. by right; right; left.
Qed.

(** No preferred probe finds hardware, nor has one found any. *)
Definition no_hardware (s : process) : Prop :=
  (∀ codec p, (NvencEncoder.ProbeAvailable codec p).1 = false) ∧
  (∀ codec p, (VaapiEncoder.ProbeAvailable codec p).1 = false) ∧
  (∀ codec, NvencCache s !! codec ≠ Some true ∧ VaapiCache s !! codec ≠ Some true).


Definition misses (m : M bool) : Prop := ∀ s, no_hardware s → ends m s (λ r s', r = false ∧ no_hardware s').
Lemma nvenc_misses codec : misses (nvenc_probe codec).
Proof.
  intros s (H1 & H2 & H3). unfold ends, nvenc_probe, result, exec. pose proof (H1 codec (nvenc_alive s)) as H.
  destruct (NvencEncoder.ProbeAvailable codec (nvenc_alive s)) as [ok p]. simpl in *. done.
Qed.
Lemma vaapi_misses codec : misses (vaapi_probe codec).
Proof.
  intros s (H1 & H2 & H3). unfold ends, vaapi_probe, result, exec. pose proof (H2 codec (vaapi_alive s)) as H.
  destruct (VaapiEncoder.ProbeAvailable codec (vaapi_alive s)) as [ok p]. simpl in *. done.
Qed.
Lemma insert_misses (m : gmap string bool) codec : (∀ c, m !! c ≠ Some true) → ∀ c, <[codec := false]> m !! c ≠ Some true.
Proof. intros H c. rewrite lookup_insert. case_decide; [by intros [=]|apply H]. Qed.
Lemma nvenc_cached_misses codec : misses (NvencAvailable codec).
Proof.
  intros s H. unfold NvencAvailable. destruct (negb _); [done|]. apply ends_get.
  destruct (NvencCache s !! codec) as [[]|] eqn:Hc; [by destruct (proj2 (proj2 H) codec)|done|].
  eapply ends_cut; [by apply nvenc_misses|]. intros r s1 [-> (N1 & N2 & N3)]. split; [done|]. split; [done|]. split; [done|].
  intros c. split; [|apply N3]. apply insert_misses. intros c'. apply N3.
Qed.
Lemma vaapi_cached_misses codec : misses (VaapiAvailable codec).
Proof.
  intros s H. unfold VaapiAvailable. destruct (negb _); [done|]. apply ends_get.
  destruct (VaapiCache s !! codec) as [[]|] eqn:Hc; [by destruct (proj2 (proj2 H) codec)|done|].
  eapply ends_cut; [by apply vaapi_misses|]. intros r s1 [-> (N1 & N2 & N3)]. split; [done|]. split; [done|]. split; [done|].
  intros c. split; [apply N3|]. apply insert_misses. intros c'. apply N3.
Qed.
Lemma preferred_misses prefer probe : misses probe → misses (preferred prefer probe).
Proof. intros H s Hs. destruct prefer; [by apply H|done]. Qed.

(** The outcome of a build when no hardware is found. *)
Lemma software_vp9 c layer s : no_hardware s → is_software (result (build_inner_vp9 c layer) s) = true.
Proof.
  intros H. change (ends (build_inner_vp9 c layer) s (λ e _, is_software e = true)).
  eapply ends_cut; [apply preferred_misses; [apply vaapi_misses|exact H]|]. by intros r s1 [-> _].
Qed.
Lemma software_h264 c profile layer s : no_hardware s → is_software (result (build_inner_h264 c profile layer) s) = true.
Proof.
  intros H. change (ends (build_inner_h264 c profile layer) s (λ e _, is_software e = true)).
  eapply ends_cut; [apply preferred_misses; [apply nvenc_misses|exact H]|]. intros r s1 [-> H1].
  eapply ends_cut; [apply preferred_misses; [apply vaapi_misses|exact H1]|]. by intros r s2 [-> _].
Qed.
Lemma software_av1 c s e : no_hardware s → result (build_av1 c) s = Some e → is_software e = true.
Proof.
  intros H. change (ends (build_av1 c) s (λ r _, r = Some e → is_software e = true)).
  eapply ends_cut; [apply preferred_misses; [apply nvenc_cached_misses|exact H]|]. intros r s1 [-> H1].
  eapply ends_cut; [apply preferred_misses; [apply vaapi_cached_misses|exact H1]|]. intros r s2 [-> _].
  destruct (_ && _); [by intros [= <-]|by intros [=]].
Qed.
Lemma av1_made c s : enable_svt_av1 c = true → SvtAv1Encoder.ProbeAvailable = true → is_Some (result (build_av1 c) s).
Proof.
  intros H1 H2. unfold build_av1. rewrite result_bind. destruct (result (preferred _ _) s); [by eexists|].
  rewrite result_bind. destruct (result (preferred _ _) _); [by eexists|]. rewrite H1, H2. by eexists.
Qed.

(** The header's contract, where software backs the format: every advertised
    format gets an encoder, VP9, H.264 and VP8 always, AV1 when SVT-AV1 is
    enabled and linked; and where no hardware is found, a single encoder is a
    software one, or the stub for VP8. *)
Theorem advertised_is_created c format s : QueryCodecSupport c format = true →
  (format_name format = "AV1"%string → enable_svt_av1 c = true ∧ SvtAv1Encoder.ProbeAvailable = true) →
  ∃ e, result (Create c format) s = Some e ∧
    (no_hardware s → ∀ v, made e = Single v → is_software v = true ∨ v = UnimplementedEncoder "vp8").
Proof.
  intros Hq Hav1. apply supported_iff in Hq.
  assert (∀ build ty, (no_hardware s → ∀ l, is_software (result (build l) s) = true) →
    ∃ e, result (wrapped_build c build ty) s = Some e ∧
      (no_hardware s → ∀ v, made e = Single v → is_software v = true ∨ v = UnimplementedEncoder "vp8")) as Hw.
  { intros build ty Hb. unfold wrapped_build. destruct (enable_simulcast c); [by eexists|]. rewrite result_bind.
    eexists. split; [reflexivity|]. intros Hn v [= <-]. left. by apply Hb. }
  unfold Create. destruct Hq as [[-> ->]|[[-> ->]|[[-> ->]|[H _]]]]; cbn [String.eqb Ascii.eqb Bool.eqb andb].
  - apply Hw. intros Hn l. by apply software_vp9.
  - apply Hw. intros Hn l. by apply software_h264.
  - eexists. split; [reflexivity|]. intros _ v [= <-]. by right.
  - rewrite H. cbn [String.eqb Ascii.eqb Bool.eqb andb]. destruct (Hav1 H) as [H1 H2]. rewrite result_bind.
    destruct (av1_made c s H1 H2) as [e He]. rewrite He. eexists. split; [reflexivity|]. intros Hn v [= <-]. left.
    by eapply software_av1.
Qed.

(** Without SVT-AV1 the contract is broken: AV1 is advertised by the default
    configuration, and no encoder is made for it. *)
Theorem advertised_av1_refused s : SvtAv1Encoder.ProbeAvailable = false →
  QueryCodecSupport factory_defaults (mkFormat "AV1" ∅) = true ∧
  Create factory_defaults (mkFormat "AV1" ∅) s = (None, s, []).
Proof.
  intros H. split; [done|]. unfold Create, build_av1, preferred. simpl. unfold mbind, eff_bind, mret, eff_ret. simpl.
  by rewrite H.
Qed.

(** ** Probes and their caches *)

Definition probed (h : hardware) (codec : string) (e : factory_event) : option unit :=
  match e with Probed h' c' => if bool_decide (h = h') && String.eqb codec c' then Some tt else None end.
Definition cache (h : hardware) (s : process) : gmap string bool :=
  match h with NVENC => NvencCache s | VAAPI => VaapiCache s end.
Definition cached (h : hardware) (codec : string) (s : process) : nat :=
  if bool_decide (is_Some (cache h s !! codec)) then 1 else 0.

(** A probe of [codec] fills its slot, and is not made when it is full. *)
Definition once (h : hardware) (codec : string) (s : process) (es : list factory_event) (s' : process) : Prop :=
  (List.length (omap (probed h codec) es) + cached h codec s ≤ cached h codec s')%nat.
#[local] Instance once_rel h codec : TraceRel (once h codec).
Proof.
  unfold once. split; [simpl; lia|]. intros s1 s2 s3 es1 es2 H1 H2. rewrite omap_app, length_app. lia.
Qed.

Lemma once_silent {A} h codec (m : M A) : (∀ s, NvencCache (exec m s) = NvencCache s ∧ VaapiCache (exec m s) = VaapiCache s) →
  (∀ s, omap (probed h codec) (events m s) = []) → respects (once h codec) m.
Proof.
  intros H1 H2 s. unfold once, cached, cache. rewrite H2. destruct (H1 s) as [-> ->]. simpl. lia.
Qed.
Lemma nvenc_probe_silent h codec codec' : codec ≠ codec' → respects (once h codec) (nvenc_probe codec').
Proof.
  intros Hne. assert (String.eqb codec codec' = false) as Hb by (by apply String.eqb_neq).
  apply once_silent; intros s; unfold nvenc_probe, exec, events;
    destruct (NvencEncoder.ProbeAvailable codec' (nvenc_alive s)) as [ok p]; [done|].
  csimpl. rewrite Hb, andb_false_r. done.
Qed.
Lemma vaapi_probe_silent h codec codec' : codec ≠ codec' → respects (once h codec) (vaapi_probe codec').
Proof.
  intros Hne. assert (String.eqb codec codec' = false) as Hb by (by apply String.eqb_neq).
  apply once_silent; intros s; unfold vaapi_probe, exec, events;
    destruct (VaapiEncoder.ProbeAvailable codec' (vaapi_alive s)) as [ok p]; [done|].
  csimpl. rewrite Hb, andb_false_r. done.
Qed.
Lemma nvenc_available_once h codec : respects (once h codec) (NvencAvailable codec).
Proof.
  unfold NvencAvailable. destruct (negb _); [apply respects_ret, _|]. intros s. rewrite exec_get, events_get.
  destruct (NvencCache s !! codec) as [b|] eqn:Hc; [apply (respects_ret (once h codec) b s)|].
  unfold nvenc_probe, exec, events, mbind, eff_bind.
  destruct (NvencEncoder.ProbeAvailable codec (nvenc_alive s)) as [ok p]. unfold once, cached, cache. simpl.
  rewrite String.eqb_refl, andb_true_r. destruct h; simpl.
  - rewrite Hc, lookup_insert_eq. simpl. lia.
  - lia.
Qed.
Lemma vaapi_available_once h codec : respects (once h codec) (VaapiAvailable codec).
Proof.
  unfold VaapiAvailable. destruct (negb _); [apply respects_ret, _|]. intros s. rewrite exec_get, events_get.
  destruct (VaapiCache s !! codec) as [b|] eqn:Hc; [apply (respects_ret (once h codec) b s)|].
  unfold vaapi_probe, exec, events, mbind, eff_bind.
  destruct (VaapiEncoder.ProbeAvailable codec (vaapi_alive s)) as [ok p]. unfold once, cached, cache. simpl.
  rewrite String.eqb_refl, andb_true_r. destruct h; simpl.
  - lia.
  - rewrite Hc, lookup_insert_eq. simpl. lia.
Qed.
Lemma preferred_once h codec prefer probe : respects (once h codec) probe → respects (once h codec) (preferred prefer probe).
Proof. intros H. destruct prefer; [exact H|apply respects_ret, _]. Qed.

(** What uses the factory: libwebrtc asks for encoders, and simulcast encoders
    made before build their layers. *)
Inductive factory_input :=
| Creates (format : SdpVideoFormat)
| BuildsVp9 (layer : SimulcastLayer)
| BuildsH264 (profile : string) (layer : SimulcastLayer).
Definition handle_factory (c : Config) (i : factory_input) : M unit :=
  match i with
  | Creates format => Create c format;; mret tt
  | BuildsVp9 layer => build_inner_vp9 c layer;; mret tt
  | BuildsH264 profile layer => build_inner_h264 c profile layer;; mret tt
  end.

Lemma handle_once c h i : respects (once h "AV1") (handle_factory c i).
Proof.
  assert (∀ layer, respects (once h "AV1") (build_inner_vp9 c layer)) as Hvp9.
  { intros layer. apply respects_bind; [apply _|by apply preferred_once, vaapi_probe_silent|].
    intros []; apply respects_ret, _. }
  assert (∀ profile layer, respects (once h "AV1") (build_inner_h264 c profile layer)) as Hh264.
  { intros profile layer. apply respects_bind; [apply _|by apply preferred_once, nvenc_probe_silent|].
    intros []; [apply respects_ret, _|]. apply respects_bind; [apply _|by apply preferred_once, vaapi_probe_silent|].
    intros []; apply respects_ret, _. }
  assert (respects (once h "AV1") (build_av1 c)) as Hav1.
  { apply respects_bind; [apply _|apply preferred_once, nvenc_available_once|]. intros []; [apply respects_ret, _|].
    apply respects_bind; [apply _|apply preferred_once, vaapi_available_once|]. intros []; [apply respects_ret, _|].
    destruct (_ && _); apply respects_ret, _. }
  assert (∀ build ty, (∀ l, respects (once h "AV1") (build l)) → respects (once h "AV1") (wrapped_build c build ty)) as Hw.
  { intros build ty Hb. unfold wrapped_build. destruct (enable_simulcast c); [apply respects_ret, _|].
    apply respects_bind; [apply _|apply Hb|]. intros e. apply respects_ret, _. }
  destruct i; cbn [handle_factory]; (apply respects_bind; [apply _| |intros _; apply respects_ret, _]); auto.
  unfold Create. destruct (_ && _); [by apply Hw|]. destruct (_ && _); [by apply Hw|]. destruct (String.eqb _ _).
  - apply respects_bind; [apply _|exact Hav1|]. intros e. apply respects_ret, _.
  - destruct (_ && _); apply respects_ret, _.
Qed.

(** However many encoders are asked for, the hardware of each kind is probed for
    AV1 at most once in the life of the process, and not at all when an earlier
    probe is in the cache. *)
Theorem av1_probed_once c h ins s :
  (List.length (omap (probed h "AV1") (events (run (handle_factory c) ins) s)) + cached h "AV1" s ≤ 1)%nat.
Proof.
  assert (respects (once h "AV1") (run (handle_factory c) ins)) as H.
  { apply respects_seq; [apply _|]. apply Forall_fmap, Forall_forall. intros i _. apply handle_once. }
  specialize (H s). unfold once in H. unfold cached in *. repeat case_bool_decide; lia.
Qed.

(** Not so for H.264, whose probes are not cached: on a machine with CUDA and no
    NVENC every layer a simulcast encoder builds leaves one more CUDA context
    alive, for a software encoder each time. *)
Theorem h264_layers_leak c profile layers s :
  prefer_nvenc_h264 c = true → prefer_vaapi_h264 c = false → NvencEncoder.no_session →
  let ins := BuildsH264 profile <$> layers in
  let n := List.length layers in
  (∀ l, is_software (result (build_inner_h264 c profile l) s) = true) ∧
  (nvenc_alive (exec (run (handle_factory c) ins) s)).1 =
    ((CudaContext <$> rev (seq (nvenc_alive s).2 n)) ++ (nvenc_alive s).1)%list.
Proof.
  intros Hnv Hva Hs. cbv zeta.
  assert (is_Some (NvencEncoder.ResolveCodecType "H264")) as Hty by (by eexists).
  assert (∀ l s, build_inner_h264 c profile l s = (SoftwareH264 (h264_config c profile),
    s <| nvenc_alive := (NvencEncoder.ProbeAvailable "H264" (nvenc_alive s)).2 |>, [Probed NVENC "H264"])) as Hb.
  { intros l s0. unfold build_inner_h264. rewrite Hnv, Hva. unfold preferred, nvenc_probe, mbind, eff_bind.
    rewrite failed_probe by done. done. }
  split; [intros l; unfold result; by rewrite Hb|].
  assert (nvenc_alive (exec (run (handle_factory c) (BuildsH264 profile <$> layers)) s) =
    Nat.iter (List.length layers) (λ p, (NvencEncoder.ProbeAvailable "H264" p).2) (nvenc_alive s)) as ->.
  { clear Hs. revert s. induction layers as [|l layers IH]; intros s; [done|]. rewrite fmap_cons.
    destruct (run_first (handle_factory c) (BuildsH264 profile l) (BuildsH264 profile <$> layers) s) as [-> _].
    rewrite IH. cbn [handle_factory]. rewrite exec_bind. unfold exec at 2. rewrite Hb.
    simpl List.length. rewrite Nat.iter_succ_r. done. }
  by rewrite failed_probes.
Qed.
End factory.

(** ** Witnesses: a machine with CUDA but no NVENC, no render node, and no SVT-AV1 *)

Section witnesses.
#[local] Existing Instance sample_webrtc.
#[local] Existing Instance defaults.
#[local] Instance no_nvenc : Nvenc := sample_nvenc false.
#[local] Instance no_node : Vaapi := {|
  va := unit;
  open_render_node := false;
  vaGetDisplayDRM := None;
  vaSetDriverName x _ := x;
  vaInitialize x := (false, x);
  vaQueryVendorString _ := None;
  vaQueryConfigEntrypoints _ _ := None;
  vaCreateConfig x _ _ _ := (false, x);
  vaCreateSurfaces x _ _ := (false, x);
  vaCreateContext x _ _ := (false, x);
  vaCreateBuffer x _ := (false, x);
  vaBeginPicture x _ := (false, x);
  vaRenderPicture x _ := (false, x);
  vaEndPicture x := (false, x);
  render_frees := false;
  vaDeriveImage x _ := (false, x);
  vaMapImage x := (false, x);
  copy_planes x _ _ _ := x;
  vaSyncSurface x _ := (false, x);
  vaMapCoded x _ := (None, x);
|}.
#[local] Instance no_svt : SvtAv1 := {|
  svt_rest := unit;
  EbComponentType := unit;
  svt_av1_enc_init_handle := None;
  svt_av1_enc_set_parameter x _ := (false, x);
  svt_av1_enc_init x := (false, x);
  svt_av1_enc_send_picture x _ _ _ _ _ := (false, x);
  svt_av1_enc_get_packet x := (EmptyQueue, x);
  hardware_concurrency := 4;
|}.
Definition fresh_process : process := mkProcess ([], 0%nat) ([], 0%nat) ∅ ∅.
Definition eager : Config := factory_defaults <| prefer_nvenc_h264 := true |>.
Definition remote_h264 : SdpVideoFormat := mkFormat "H264" (<["profile-level-id" := "640c1f"%string]> ∅).

Lemma created_is_advertised_witness : QueryCodecSupport eager remote_h264 = true.
Proof.
  refine (created_is_advertised eager remote_h264 fresh_process
    (mkCreated false (Single (SoftwareH264 (h264_config eager "640c1f")))) _).
  vm_compute. reflexivity.
Defined.

Lemma advertised_is_created_witness :
  ∃ e, result (Create eager remote_h264) fresh_process = Some e ∧ ∀ v, made e = Single v →
    is_software v = true ∨ v = UnimplementedEncoder "vp8".
Proof.
  destruct (advertised_is_created eager remote_h264 fresh_process) as (e & H1 & H2); [vm_compute; reflexivity|discriminate|].
  exists e. split; [exact H1|]. apply H2. split; [|split].
  - intros codec p. destruct (NvencEncoder.ResolveCodecType codec) as [ty|] eqn:Hty.
    + rewrite failed_probe; [reflexivity|by eexists|]. repeat split. by right.
    + unfold NvencEncoder.ProbeAvailable. by rewrite Hty.
  - intros codec p. unfold VaapiEncoder.ProbeAvailable. by destruct (VaapiEncoder.ResolveCodecType codec "42e01f").
  - intros codec. split; exact (lookup_empty_Some (M := gmap string) codec true).
Defined.

Lemma advertised_av1_refused_witness :
  QueryCodecSupport factory_defaults (mkFormat "AV1" ∅) = true ∧
  result (Create factory_defaults (mkFormat "AV1" ∅)) fresh_process = None.
Proof.
  destruct (advertised_av1_refused fresh_process) as [H1 H2]; [vm_compute; reflexivity|].
  split; [exact H1|]. unfold result. by rewrite H2.
Defined.

Lemma h264_layers_leak_witness :
  (nvenc_alive (exec (run (handle_factory eager) (BuildsH264 "" <$> replicate 3 (mkLayer "" 1 0 0))) fresh_process)).1 =
    [CudaContext 2; CudaContext 1; CudaContext 0].
Proof.
  assert (NvencEncoder.no_session) as Hs by (repeat split; by right).
  exact (proj2 (h264_layers_leak eager "" (replicate 3 (mkLayer "" 1 0 0)) fresh_process eq_refl eq_refl Hs)).
Defined.
End witnesses.
