(* ===== verification/Viewport.v ===== *)
(** * The viewport
      (capture/build-integration/cb_viewport_controller.{h,cc},
       cb_headless_screen.{h,cc}; SetViewport of cloud_browser_browser_main_parts.cc)

    The size of the page is held in five places: the display of the headless
    screen, the bounds of the aura host, the view of the page, the resolution of
    the capturer and the controller itself.  [world] holds the objects; the
    controller points to them, to the pages by number.  A call through a pointer
    whose object is gone is the event [UseAfterFree].  The display arithmetic of
    Chromium is the class [DisplayLib]. *)

From Stdlib Require Import ZArith Lia SpecFloat.
From stdpp Require Import base tactics sets numbers gmap list.
From S2P Require Import Prelude Numbers LastPointer ClockRebase BeginFrame FrameCapture.
Open Scope Z_scope.

(** ** Geometry *)

(** [gfx::Size(w, h)]: a negative dimension is 0. *)
Definition mkSize (w h : Z) : Size := (Z.max 0 w, Z.max 0 h).
Record Rect := mkRect { rect_x : Z; rect_y : Z; rect_size : Size }.
#[export] Instance rect_eq_dec : EqDecision Rect.
Proof. solve_decision. Defined.
(** [gfx::Rect(size)] *)
Definition at_origin (s : Size) : Rect := mkRect 0 0 s.
(** [gfx::Rect::Contains] *)
Definition Contains (r : Rect) (p : Z * Z) : bool :=
  (rect_x r <=? p.1) && (p.1 <? rect_x r + (rect_size r).1) &&
  (rect_y r <=? p.2) && (p.2 <? rect_y r + (rect_size r).2).

Record Display := mkDisplay { bounds : Rect; display_scale : spec_float }.

(** [display::Display::SetScaleAndBounds]: bounds in pixels to bounds in DIPs. *)
Class DisplayLib := {
  SetScaleAndBounds : spec_float → Rect → Display → Display;
  scale_one r d : SetScaleAndBounds float_one r d = mkDisplay r float_one;
}.

(** ** The screen *)

Record CbHeadlessScreen := mkScreen {
  primary : Display;
  last_pointer_state_ : bool;
  root_window_ : bool;
}.
#[export] Instance eta_screen : Eta CbHeadlessScreen := λ s,
  mkScreen (primary s) (last_pointer_state_ s) (root_window_ s).

(** ** The pages *)

(** A widget and its frame sink; an invalid id is [None]. *)
Record widget := mkWidget { widget_id : nat; frame_sink_id : option nat }.
(** The view of a page: its size, whether its window and each of the window's
    ancestors has been shown, and its widget. *)
Record view := mkView { view_size : Size; windows : list bool; widget_host : option widget }.
#[export] Instance eta_view : Eta view := λ v, mkView (view_size v) (windows v) (widget_host v).
(** A page: the view of its main frame, and of its focused frame the widget. *)
Record page := mkPage {
  main_view : option view;
  focused_frame : option (option (option widget));
}.
#[export] Instance eta_page : Eta page := λ p, mkPage (main_view p) (focused_frame p).

(** ** The controller *)

Definition kMinViewportDimension : Z := 200.
Definition kMaxViewportDimension : Z := 2560.
Definition kMaxDeviceScaleFactor : spec_float := float_one.
Definition kViewportKeepCurrentScale : spec_float := float_zero.

Record CbViewportSpec := mkSpec { size_dip : Size; device_scale_factor : spec_float }.
#[export] Instance eta_spec : Eta CbViewportSpec := λ s, mkSpec (size_dip s) (device_scale_factor s).

Record controller := mkController {
  screen_ : bool;
  aura_ : bool;
  track_source_ : bool;
  begin_frame_driver_ : bool;
  web_contents_ : option nat;
  current_ : CbViewportSpec;
}.
#[export] Instance eta_controller : Eta controller := λ c,
  mkController (screen_ c) (aura_ c) (track_source_ c) (begin_frame_driver_ c) (web_contents_ c) (current_ c).

(** The objects.  [viewport] is the controller, when main_parts has one. *)
Record world := mkWorld {
  the_screen : option CbHeadlessScreen;
  host : option Size;                  (* the bounds of the aura host *)
  the_driver : option driver;
  the_source : option source;
  pages : gmap nat page;
  viewport : option controller;
}.
#[export] Instance eta_world : Eta world := λ w,
  mkWorld (the_screen w) (host w) (the_driver w) (the_source w) (pages w) (viewport w).

Inductive object := OScreen | OHost | ODriver | OSource | OPage (p : nat).
Inductive event :=
| FromDriver (e : BeginFrame.event)
| DisplayMetricsChanged (d : Display)
| HostBounds (s : Size)
| ViewSize (p : nat) (s : Size)
| FromSource (e : FrameCapture.event)
| ShowWindow (p depth : nat)
| ShowView (p : nat)
| Focus (p : nat)
| WasShown (p : nat)
| UseAfterFree (o : object).
Abbreviation M := (eff world event).

(** A call on a part of the world, whose events are wrapped. *)
Definition on {A R} (get : world → option A) (put : A → world → world) {E} (wrap : E → event)
    (o : object) (m : eff A E R) : M unit := λ w,
  match get w with
  | None => (tt, w, [UseAfterFree o])
  | Some a => (tt, put (exec m a) w, wrap <$> events m a)
  end.

Definition on_screen {R} : eff CbHeadlessScreen event R → M unit :=
  on the_screen (λ s w, w <| the_screen := Some s |>) id OScreen.
Definition on_driver {R} : eff driver BeginFrame.event R → M unit :=
  on the_driver (λ d w, w <| the_driver := Some d |>) FromDriver ODriver.
Definition on_source {R} : eff source FrameCapture.event R → M unit :=
  on the_source (λ s w, w <| the_source := Some s |>) FromSource OSource.
Definition on_page {R} (p : nat) : eff page event R → M unit :=
  on (λ w, pages w !! p) (λ x w, w <| pages := <[p := x]> (pages w) |>) id (OPage p).

Section viewport.
Context {D : DisplayLib} {U : Unspecified}.

(** *** CbHeadlessScreen *)

Definition SetLastPointerSource (set : bool) : eff CbHeadlessScreen event unit :=
  emod (λ s, s <| last_pointer_state_ := set |>).
Definition SetRootWindow (set : bool) : eff CbHeadlessScreen event unit :=
  emod (λ s, s <| root_window_ := set |>).

Definition UpdatePrimaryDisplay (bounds_in_pixel : Rect) (scale : spec_float) : eff CbHeadlessScreen event unit :=
  s ← eget;
  let updated := SetScaleAndBounds scale bounds_in_pixel (primary s) in
  if bool_decide (bounds updated = bounds (primary s)) &&
     SFeqb (display_scale updated) (display_scale (primary s)) then mret tt
  else
    emod (λ s, s <| primary := updated |>);;
    emit (DisplayMetricsChanged updated).

Definition IsWindowUnderCursor (window : bool) : bool := window.

(** [snap] is what the pointer source holds, when there is one. *)
Definition GetCursorScreenPoint (snap : CbLastPointerSnapshot) (s : CbHeadlessScreen) : Z * Z :=
  if last_pointer_state_ s && (negb (p_at snap =? 0) && in_widget snap)
  then (cast_int (px snap), cast_int (py snap))
  else
    let b := bounds (primary s) in
    if negb (IsEmpty (rect_size b))
    then (rect_x b + Z.quot (rect_size b).1 2, rect_y b + Z.quot (rect_size b).2 2)
    else (0, 0).

Definition GetWindowAtScreenPoint (point : Z * Z) (s : CbHeadlessScreen) : bool :=
  if negb (root_window_ s) then false
  else if negb (Contains (bounds (primary s)) point) then false
  else root_window_ s.

Definition GetDisplayNearestWindow (s : CbHeadlessScreen) : Display := primary s.

(** *** CbViewportController *)

(** [v & ~1] *)
Definition EvenAlignDown (v : Z) : Z := Z.land v (Z.lnot 1).

(** [std::clamp] on floats. *)
Definition fclamp (v lo hi : spec_float) : spec_float :=
  if SFltb v lo then lo else if SFltb hi v then hi else v.

Definition Clamp (spec : CbViewportSpec) : CbViewportSpec :=
  let w := BeginFrame.clamp (size_dip spec).1 kMinViewportDimension kMaxViewportDimension in
  let h := BeginFrame.clamp (size_dip spec).2 kMinViewportDimension kMaxViewportDimension in
  mkSpec (mkSize (EvenAlignDown w) (EvenAlignDown h))
    (fclamp (device_scale_factor spec) float_one kMaxDeviceScaleFactor).

(** The constructor; the pointers may be null. *)
Definition CbViewportController (screen : option CbHeadlessScreen) (aura track_source : bool) : controller :=
  mkController (bool_decide (is_Some screen)) aura track_source false None
    match screen with
    | Some s => mkSpec (rect_size (bounds (primary s))) (display_scale (primary s))
    | None => mkSpec (0, 0) float_one
    end.

Definition on_controller (f : controller → controller) : M unit :=
  emod (λ w, w <| viewport := f <$> viewport w |>).
Definition SetBeginFrameDriver (set : bool) : M unit := on_controller (λ c, c <| begin_frame_driver_ := set |>).
Definition SetTrackSource (set : bool) : M unit := on_controller (λ c, c <| track_source_ := set |>).
Definition SetTargetWebContents (p : option nat) : M unit := on_controller (λ c, c <| web_contents_ := p |>).

Definition SetSize (p : nat) (s : Size) : eff page event unit :=
  x ← eget;
  match main_view x with
  | None => mret tt
  | Some v => emod (λ x, x <| main_view := Some (v <| view_size := s |>) |>);; emit (ViewSize p s)
  end.

Definition resolve (spec : CbViewportSpec) (c : controller) : CbViewportSpec :=
  if SFeqb (device_scale_factor spec) kViewportKeepCurrentScale
  then spec <| device_scale_factor := device_scale_factor (current_ c) |> else spec.

(** [static_cast<int>(dimension * scale)], the product of a float and an [int]. *)
Definition in_pixels (t : CbViewportSpec) : Size :=
  mkSize (cast_int (fmul (float_of_Z (size_dip t).1) (device_scale_factor t)))
         (cast_int (fmul (float_of_Z (size_dip t).2) (device_scale_factor t))).

Definition same_spec (a b : CbViewportSpec) : bool :=
  bool_decide (size_dip a = size_dip b) && SFeqb (device_scale_factor a) (device_scale_factor b).

Definition Apply (c : controller) (spec : CbViewportSpec) : M CbViewportSpec :=
  let target := Clamp (resolve spec c) in
  if same_spec target (current_ c) then mret target
  else
    let size_px := in_pixels target in
    ewhen (begin_frame_driver_ c) (on_driver NotifyDisplayReconfigured);;
    ewhen (screen_ c) (on_screen (UpdatePrimaryDisplay (at_origin size_px) (device_scale_factor target)));;
    w ← eget;
    ewhen (aura_ c && bool_decide (is_Some (host w)))
      (emod (λ w, w <| host := Some size_px |>);; emit (HostBounds size_px));;
    match web_contents_ c with
    | None => mret tt
    | Some p => on_page p (SetSize p (size_dip target))
    end;;
    ewhen (track_source_ c) (on_source (Source_SetCaptureResolution size_px));;
    on_controller (λ c, c <| current_ := target |>);;
    mret target.

(** [CloudBrowserBrowserMainParts::SetViewport] *)
Definition SetViewport (spec : CbViewportSpec) : M CbViewportSpec :=
  w ← eget;
  match viewport w with
  | None => mret spec
  | Some c => Apply c spec
  end.
End viewport.

(** ** The geometry of a request *)

Lemma even_align v : EvenAlignDown v = 2 * (v / 2).
Proof.
  unfold EvenAlignDown. rewrite <-Z.ldiff_land.
  pose proof (Z.ldiff_ones_r v 1 ltac:(done)) as H. change (Z.ones 1) with 1 in H. rewrite H.
  rewrite Z.shiftr_div_pow2, Z.shiftl_mul_pow2 by done. change (2 ^ 1) with 2. lia.
Qed.

(** What a viewport may be. *)
Definition allowed (s : Size) : Prop :=
  200 ≤ s.1 ≤ 2560 ∧ 200 ≤ s.2 ≤ 2560 ∧ Z.even s.1 = true ∧ Z.even s.2 = true.

Lemma clamp_dimension v :
  let d := EvenAlignDown (BeginFrame.clamp v kMinViewportDimension kMaxViewportDimension) in
  200 ≤ d ≤ 2560 ∧ Z.even d = true ∧ (200 ≤ v ≤ 2560 → Z.even v = true → d = v).
Proof.
  cbv zeta. rewrite even_align, Z.even_mul. unfold BeginFrame.clamp, kMinViewportDimension, kMaxViewportDimension.
  destruct (Z.ltb_spec v 200); [split; [vm_compute; split; discriminate|]; by split; [|lia]|].
  destruct (Z.ltb_spec 2560 v); [split; [vm_compute; split; discriminate|]; by split; [|lia]|].
  pose proof (Z.div_mod v 2). pose proof (Z.mod_pos_bound v 2).
  split; [lia|]. split; [done|]. intros _ [k Hk]%Z.even_spec. subst v. pose proof (Z.mod_pos_bound (2 * k) 2 ltac:(done)). rewrite (Z.mul_comm 2 k), Z.div_mul by done. lia.
Qed.

Lemma clamp_allowed spec : allowed (size_dip (Clamp spec)).
Proof.
  unfold allowed, Clamp. cbn [size_dip mkSize fst snd].
  destruct (clamp_dimension (size_dip spec).1) as (H1 & H2 & _), (clamp_dimension (size_dip spec).2) as (K1 & K2 & _).
  by rewrite !Z.max_r by lia.
Qed.

Lemma clamp_keeps spec : allowed (size_dip spec) → size_dip (Clamp spec) = size_dip spec.
Proof.
  intros (H1 & H2 & H3 & H4). unfold Clamp. cbn [size_dip]. unfold mkSize.
  rewrite (proj2 (proj2 (clamp_dimension _)) H1 H3), (proj2 (proj2 (clamp_dimension _)) H2 H4).
  rewrite !Z.max_r by lia. by destruct (size_dip spec).
Qed.

(** The scale of a viewport is 1 unless a NaN was asked for. *)
Lemma compare_one x : SFcompare float_one x = Some Eq → x = float_one.
Proof.
  destruct x as [[]|[]| |[] m e]; try discriminate. unfold SFcompare, float_one.
  destruct (Z.compare_spec (-23) e) as [<-| |]; try discriminate.
  intros [= H]. by apply (Pos.compare_eq 8388608 m) in H as <-.
Qed.
Lemma SFeqb_one x : SFeqb float_one x = true → x = float_one.
Proof.
  unfold SFeqb. destruct (SFcompare float_one x) as [[]|] eqn:H; try discriminate.
  intros _. by apply compare_one.
Qed.
Lemma compare_total n x : x ≠ S754_nan →
  SFltb x (S754_finite false n (-23)) = false → SFltb (S754_finite false n (-23)) x = false →
  SFcompare (S754_finite false n (-23)) x = Some Eq.
Proof.
  intros Hx. unfold SFltb. destruct x as [[]|[]| |[] m e]; try discriminate; try done.
  unfold SFcompare. rewrite (Z.compare_antisym (-23) e).
  change (PosDef.Pos.compare_cont Eq n m) with (Pos.compare n m).
  change (PosDef.Pos.compare_cont Eq m n) with (Pos.compare m n). rewrite (Pos.compare_antisym n m).
  by destruct (Z.compare (-23) e), (Pos.compare n m).
Qed.
Lemma fclamp_one x : x ≠ S754_nan → fclamp x float_one kMaxDeviceScaleFactor = float_one.
Proof.
  intros Hx. unfold fclamp, kMaxDeviceScaleFactor.
  destruct (SFltb x float_one) eqn:H1; [done|].
  destruct (SFltb float_one x) eqn:H2; [done|].
  assert (Hc : SFcompare float_one x = Some Eq); [|by apply compare_one].
  by apply compare_total.
Qed.

(** In pixels a viewport of scale 1 is as large as in DIPs. *)
Section pixels.
Context {U : Unspecified}.

Lemma dimension_pixels n : 0 ≤ n ≤ 2560 → cast_int (fmul (float_of_Z n) float_one) = n.
Proof.
  intros Hn.
  assert (H : List.forallb (λ k, bool_decide (sf_trunc (fmul (float_of_Z (Z.of_nat k)) float_one) = Some (Z.of_nat k)))
    (List.seq 0 2561) = true) by (vm_compute; reflexivity).
  rewrite List.forallb_forall in H. specialize (H (Z.to_nat n)).
  rewrite Z2Nat.id in H by lia. rewrite List.in_seq in H. apply bool_decide_eq_true_1 in H; [|lia].
  unfold cast_int. rewrite H.
  unfold in_int32. destruct (Z.leb_spec (- 2 ^ 31) n), (Z.ltb_spec n (2 ^ 31)); simpl; lia.
Qed.

Lemma pixels_allowed t : allowed (size_dip t) → device_scale_factor t = float_one → in_pixels t = size_dip t.
Proof.
  intros (H1 & H2 & _) Ht. unfold in_pixels. rewrite Ht, !dimension_pixels by lia.
  unfold mkSize. rewrite !Z.max_r by lia. by destruct (size_dip t).
Qed.
End pixels.

(** ** A viewport that is applied *)

Section applied.
Context {D : DisplayLib} {U : Unspecified}.

(** What [Apply] makes of the objects, those it points to. *)
Definition upd {A} (b : bool) (f : A → A) (x : option A) : option A := if b then f <$> x else x.
Definition applied (c : controller) (t : CbViewportSpec) (w : world) : world :=
  let px := in_pixels t in
  mkWorld
    (upd (screen_ c) (exec (UpdatePrimaryDisplay (at_origin px) (device_scale_factor t))) (the_screen w))
    (upd (aura_ c) (λ _, px) (host w))
    (upd (begin_frame_driver_ c) (exec NotifyDisplayReconfigured) (the_driver w))
    (upd (track_source_ c) (exec (Source_SetCaptureResolution px)) (the_source w))
    (match web_contents_ c with
     | Some p => alter (exec (SetSize p (size_dip t))) p (pages w)
     | None => pages w
     end)
    ((λ c, c <| current_ := t |>) <$> viewport w).

Lemma on_exec {A E R} get put wrap o (m : eff A E R) w :
  exec (on get put wrap o m) w = match get w with Some a => put (exec m a) w | None => w end.
Proof. unfold on, exec at 1. by destruct (get w). Qed.
Lemma on_page_exec {R} p (m : eff page event R) w :
  exec (on_page p m) w = w <| pages := alter (exec m) p (pages w) |>.
Proof.
  unfold on_page. rewrite on_exec. destruct (pages w !! p) as [x|] eqn:Hp.
  - unfold set_field. simpl. f_equal. apply map_eq. intros q.
    destruct (decide (q = p)) as [->|Hq].
    + by rewrite lookup_insert, lookup_alter, Hp, !decide_True.
    + by rewrite lookup_insert_ne, lookup_alter_ne.
  - destruct w. simpl in *. unfold set_field. simpl. f_equal. apply map_eq. intros q.
    destruct (decide (q = p)) as [->|Hq]; [by rewrite lookup_alter, Hp, decide_True|by rewrite lookup_alter_ne].
Qed.

Lemma Apply_same c spec w : same_spec (Clamp (resolve spec c)) (current_ c) = true →
  Apply c spec w = (Clamp (resolve spec c), w, []).
Proof. intros H. unfold Apply. cbv zeta. by rewrite H. Qed.

(** The stages. *)
Lemma driver_stage {R} b (m : eff driver BeginFrame.event R) w :
  exec (ewhen b (on_driver m)) w = w <| the_driver := upd b (exec m) (the_driver w) |>.
Proof. destruct b, w as [? ? [d|]]; [|done..]. unfold on_driver. simpl. by rewrite on_exec. Qed.
Lemma screen_stage {R} b (m : eff CbHeadlessScreen event R) w :
  exec (ewhen b (on_screen m)) w = w <| the_screen := upd b (exec m) (the_screen w) |>.
Proof. destruct b, w as [[s|]]; [|done..]. unfold on_screen. simpl. by rewrite on_exec. Qed.
Lemma source_stage {R} b (m : eff source FrameCapture.event R) w :
  exec (ewhen b (on_source m)) w = w <| the_source := upd b (exec m) (the_source w) |>.
Proof. destruct b, w as [? ? ? [s|]]; [|done..]. unfold on_source. simpl. by rewrite on_exec. Qed.
Lemma host_stage b px w :
  exec (ewhen (b && bool_decide (is_Some (host w)))
    (emod (λ w, w <| host := Some px |>);; emit (HostBounds px))) w = w <| host := upd b (λ _, px) (host w) |>.
Proof.
  destruct b; [|by destruct w].
  destruct w as [? [h|]]; [|done]. simpl. by rewrite exec_bind.
Qed.
Lemma page_stage p s w :
  exec (match p with None => mret tt | Some p => on_page p (SetSize p s) end) w =
  w <| pages := match p with Some p => alter (exec (SetSize p s)) p (pages w) | None => pages w end |>.
Proof. destruct p; [apply on_page_exec|by destruct w]. Qed.

Lemma Apply_exec c spec w : same_spec (Clamp (resolve spec c)) (current_ c) = false →
  result (Apply c spec) w = Clamp (resolve spec c) ∧
  exec (Apply c spec) w = applied c (Clamp (resolve spec c)) w.
Proof.
  intros H. unfold Apply. cbv zeta. rewrite H. generalize (Clamp (resolve spec c)). intros t.
  split; [by rewrite !result_bind|].
  rewrite exec_bind, driver_stage, exec_bind, screen_stage, exec_get, exec_bind, host_stage.
  rewrite exec_bind, page_stage, exec_bind, source_stage, exec_bind.
  destruct w, c. reflexivity.
Qed.

(** *** What each object makes of it *)

Lemma screen_updated s r : primary (exec (UpdatePrimaryDisplay r float_one) s) = mkDisplay r float_one ∧
  last_pointer_state_ (exec (UpdatePrimaryDisplay r float_one) s) = last_pointer_state_ s ∧
  root_window_ (exec (UpdatePrimaryDisplay r float_one) s) = root_window_ s.
Proof.
  unfold UpdatePrimaryDisplay. rewrite exec_get, scale_one. cbn [bounds display_scale].
  destruct (bool_decide _ && _) eqn:Hs; [|done].
  apply andb_true_iff in Hs as [Hb%bool_decide_eq_true_1 Hd%SFeqb_one].
  destruct s as [[b d] l x]. simpl in *. by subst.
Qed.

Lemma view_updated p s x : main_view (exec (SetSize p s) x) = (λ v, v <| view_size := s |>) <$> main_view x ∧
  focused_frame (exec (SetSize p s) x) = focused_frame x.
Proof. unfold SetSize. rewrite exec_get. by destruct x as [[v|] f]. Qed.

Lemma driver_notified d : running_ d = true →
  awaiting_reconfigure_ack_ (exec NotifyDisplayReconfigured d) = true.
Proof.
  intros Hr. unfold NotifyDisplayReconfigured. rewrite exec_get, Hr. simpl.
  by destruct (awaiting_reconfigure_ack_ d) eqn:Ha.
Qed.

Lemma align_even_is v : Z.even v = true → align_even v = v.
Proof.
  intros [k ->]%Z.even_spec. change (align_even (2 * k)) with (EvenAlignDown (2 * k)).
  by rewrite even_align, (Z.mul_comm 2 k), Z.div_mul, Z.mul_comm.
Qed.
Lemma capturer_resized r c : allowed r → resolution_ (exec (SetCaptureResolution r) c) = r.
Proof.
  intros (H1 & H2 & H3 & H4). unfold SetCaptureResolution. cbv zeta.
  rewrite !align_even_is by done. destruct r as [a b]. simpl in *. unfold IsEmpty. simpl.
  destruct (Z.eqb_spec a 0), (Z.eqb_spec b 0); try lia. simpl. rewrite exec_get.
  destruct (bool_decide _) eqn:Hb; [by apply bool_decide_eq_true_1 in Hb|].
  rewrite exec_mod. by destruct (started_ c), (on_content_changed_ c) eqn:Hc; unfold RunContentChanged; run_eff; rewrite ?Hc.
Qed.
Lemma source_resized r s c : allowed r → capturer_ s = Some c → ∃ c',
  capturer_ (exec (Source_SetCaptureResolution r) s) = Some c' ∧ resolution_ c' = r.
Proof.
  intros Hr Hc. exists (exec (SetCaptureResolution r) c). split; [|by apply capturer_resized].
  unfold Source_SetCaptureResolution, call, on_capturer. rewrite exec_bind. unfold exec. rewrite Hc.
  by destruct (SetCaptureResolution r c) as [[] ?].
Qed.

(** The objects the controller points to hold the viewport [t]. *)
Record shows (c : controller) (t : CbViewportSpec) (w : world) : Prop := {
  shows_screen s : screen_ c = true → the_screen w = Some s →
    primary s = mkDisplay (at_origin (size_dip t)) float_one;
  shows_host h : aura_ c = true → host w = Some h → h = size_dip t;
  shows_view p x v : web_contents_ c = Some p → pages w !! p = Some x → main_view x = Some v →
    view_size v = size_dip t;
  shows_capturer s cap : track_source_ c = true → the_source w = Some s → capturer_ s = Some cap →
    resolution_ cap = size_dip t;
}.

Lemma source_resized_capturer r s cap : allowed r →
  capturer_ (exec (Source_SetCaptureResolution r) s) = Some cap → resolution_ cap = r.
Proof.
  intros Hr Hc. destruct (capturer_ s) as [c0|] eqn:H0.
  - destruct (source_resized r s c0 Hr H0) as (c1 & H1 & H2). by simplify_eq.
  - revert Hc. unfold Source_SetCaptureResolution, call, on_capturer. rewrite exec_bind.
    unfold exec. rewrite H0. simpl. congruence.
Qed.

Lemma applied_shows c t w : allowed (size_dip t) → device_scale_factor t = float_one → shows c t (applied c t w).
Proof.
  intros Ha Hs. unfold applied. rewrite (pixels_allowed t), Hs by done. split; simpl.
  - intros s -> Hw. destruct (the_screen w) as [s0|]; [|done]. simplify_eq/=. apply screen_updated.
  - intros h -> Hw. destruct (host w); by simplify_eq/=.
  - intros p x v Hp. rewrite Hp. intros Hx Hv.
    rewrite lookup_alter, decide_True in Hx by done. destruct (pages w !! p) as [x0|] eqn:H0; [|done].
    injection Hx as <-. rewrite (proj1 (view_updated _ _ _)) in Hv.
    destruct (main_view x0); [|done]. by injection Hv as <-.
  - intros s cap -> Hw Hc. destruct (the_source w) as [s0|]; [|done]. injection Hw as <-.
    by eapply source_resized_capturer.
Qed.

Lemma target_one spec c : device_scale_factor (resolve spec c) ≠ S754_nan →
  device_scale_factor (Clamp (resolve spec c)) = float_one.
Proof. intros H. by apply fclamp_one. Qed.

(** A viewport that is asked for, made even and bounded, becomes the size of the
    display, of the host, of the page and of the captured frames, and the
    begin-frame driver waits for the display to settle.  The viewport that is
    current afterwards is the one that is reported. *)
Theorem viewport_applied c spec w : device_scale_factor (resolve spec c) ≠ S754_nan →
  same_spec (Clamp (resolve spec c)) (current_ c) = false →
  let t := result (Apply c spec) w in let w' := exec (Apply c spec) w in
  allowed (size_dip t) ∧ device_scale_factor t = float_one ∧
  (allowed (size_dip spec) → size_dip t = size_dip spec) ∧
  shows c t w' ∧
  current_ <$> viewport w' = (λ _, t) <$> viewport w ∧
  (begin_frame_driver_ c = true → ∀ d, the_driver w = Some d → running_ d = true →
    ∃ d', the_driver w' = Some d' ∧ awaiting_reconfigure_ack_ d' = true).
Proof.
  intros Hn Hs. cbv zeta. destruct (Apply_exec c spec w Hs) as [-> ->].
  pose proof (clamp_allowed (resolve spec c)) as Ha. pose proof (target_one spec c Hn) as H1.
  split; [done|]. split; [done|]. split.
  { intros Hok. rewrite clamp_keeps; unfold resolve; by destruct (SFeqb _ _). }
  split; [by apply applied_shows|]. split.
  - simpl. by destruct (viewport w).
  - intros Hb d Hd Hr. simpl. rewrite Hb, Hd. simpl. eexists. split; [done|]. by apply driver_notified.
Qed.

Lemma same_spec_one a b : same_spec a b = true → device_scale_factor a = float_one → b = a.
Proof.
  unfold same_spec. intros [Hs%bool_decide_eq_true_1 Hd]%andb_true_iff Ha. rewrite Ha in Hd.
  apply SFeqb_one in Hd. destruct a, b. simpl in *. by subst.
Qed.
Lemma same_spec_refl t : device_scale_factor t = float_one → same_spec t t = true.
Proof. intros H. unfold same_spec. rewrite H, bool_decide_true by done. reflexivity. Qed.

(** Asking twice for the same viewport does nothing the second time. *)
Theorem viewport_settles c spec w : viewport w = Some c →
  device_scale_factor (resolve spec c) ≠ S754_nan →
  let w' := exec (SetViewport spec) w in
  SetViewport spec w' = (result (SetViewport spec) w, w', []).
Proof.
  intros Hc Hn. cbv zeta. unfold SetViewport.
  rewrite exec_get, result_bind. change (result eget w) with w. change (exec eget w) with w. rewrite Hc.
  pose proof (target_one spec c Hn) as H1.
  destruct (same_spec (Clamp (resolve spec c)) (current_ c)) eqn:Hs.
  - unfold exec, result. rewrite (Apply_same c spec w Hs). simpl. rewrite get_run, Hc. by apply Apply_same.
  - destruct (Apply_exec c spec w Hs) as [-> ->]. rewrite get_run. simpl. rewrite Hc. simpl.
    set (c' := c <| current_ := Clamp (resolve spec c) |>).
    assert (Ht : Clamp (resolve spec c') = Clamp (resolve spec c)).
    { unfold resolve in *. destruct (SFeqb (device_scale_factor spec) _) eqn:Hk; [|done].
      unfold Clamp in *. simpl in *. f_equal. rewrite fclamp_one by (rewrite H1; done). by rewrite H1. }
    rewrite <-Ht at 2. rewrite Apply_same; [done|]. rewrite Ht. by apply same_spec_refl.
Qed.
End applied.

(** ** Witnesses *)

#[local] Instance plain_display : DisplayLib :=
  {| SetScaleAndBounds d r _ := mkDisplay r d; scale_one _ _ := eq_refl |}.
#[local] Existing Instance defaults.

Definition boot_screen : CbHeadlessScreen := mkScreen (mkDisplay (at_origin (1280, 720)) float_one) false true.
Definition boot_capturer : source := CloudBrowserFrameSinkVideoTrackSource
  (Some (CloudBrowserFrameSinkCapturer 0)) (mkAtomics 0 false).
Definition boot_page : page := mkPage (Some (mkView (1280, 720) [true; true] (Some (mkWidget 1 (Some 11%nat))))) None.
Definition boot_driver : driver :=
  mkDriver 33333 true 1 0 true 0 0 None None false None 0 false None 0 0 0 0 false false 0 [] 0.
Definition boot_controller : controller := mkController true true true true (Some 1%nat) (mkSpec (1280, 720) float_one).
Definition boot_world : world :=
  mkWorld (Some boot_screen) (Some (1280, 720)) (Some boot_driver) (Some boot_capturer) {[1%nat := boot_page]}
    (Some boot_controller).
Definition odd_request : CbViewportSpec := mkSpec (1001, 5000) float_zero.

Lemma viewport_applied_witness :
  size_dip (result (Apply boot_controller odd_request) boot_world) = (1000, 2560) ∧
  shows boot_controller (result (Apply boot_controller odd_request) boot_world)
    (exec (Apply boot_controller odd_request) boot_world).
Proof.
  split; [vm_compute; reflexivity|].
  exact (proj1 (proj2 (proj2 (proj2 (viewport_applied boot_controller odd_request boot_world
    ltac:(vm_compute; discriminate) ltac:(vm_compute; reflexivity)))))).
Defined.

Lemma viewport_settles_witness :
  let w := exec (SetViewport odd_request) boot_world in
  events (SetViewport odd_request) boot_world ≠ [] ∧ events (SetViewport odd_request) w = [].
Proof.
  split; [vm_compute; discriminate|]. unfold events.
  by rewrite (viewport_settles boot_controller odd_request boot_world eq_refl ltac:(vm_compute; discriminate)).
Defined.
