(* ===== verification/ActivePage.v ===== *)
(** * The captured page
      (capture/build-integration/cb_active_webcontents_resolver.{h,cc};
       SetActiveCapture, RearmCaptureOnInitialTab and RearmCaptureAfterRvhSwap of
       cloud_browser_browser_main_parts.cc; the capture start of cb_devtools_agent.cc)

    The resolver remembers the page that is captured and observes it; main_parts
    moves the capturer and the viewport along when the page's widget is replaced,
    its renderer dies or the page is closed.  [shell] is the state of the UI
    thread around these, over the objects of [Viewport.world]; a task that is
    posted waits in [tasks], one that is posted with a delay in [delayed]. *)

From Stdlib Require Import ZArith Lia SpecFloat.
From stdpp Require Import base tactics sets numbers gmap list.
From S2P Require Import Prelude Numbers LastPointer ClockRebase BeginFrame FrameCapture Viewport.
Open Scope Z_scope.

Definition kRecaptureRvhSwapAttempts : nat := 5.

Inductive task := Recapture (attempts_left : nat) | CapturedGone | RendererGone.
#[export] Instance task_eq_dec : EqDecision task.
Proof. solve_decision. Defined.

Record shell := mkShell {
  objects : world;
  active_ : option nat;
  active_fsid_ : option nat;
  observed : option nat;                   (* [Observe] *)
  recapture_on_rvh_swap_ : bool;           (* callbacks that are set *)
  renderer_gone_ : bool;
  captured_gone_ : bool;
  initial_web_contents_ : option nat;
  input_delegate_ : bool;
  tearing_down_ : bool;
  tasks : list task;
  delayed : list nat;                      (* [Recapture]s, by the attempts left *)
}.
#[export] Instance eta_shell : Eta shell := λ s,
  mkShell (objects s) (active_ s) (active_fsid_ s) (observed s) (recapture_on_rvh_swap_ s)
    (renderer_gone_ s) (captured_gone_ s) (initial_web_contents_ s) (input_delegate_ s)
    (tearing_down_ s) (tasks s) (delayed s).

(** What happens to the objects, or the call of OnCapturedRendererGone. *)
Inductive event := To (e : Viewport.event) | OnCapturedRendererGone.
Abbreviation M := (eff shell event).

Definition on_objects {A} (m : Viewport.M A) : M A := λ s,
  (result m (objects s), s <| objects := exec m (objects s) |>, To <$> events m (objects s)).
Definition post (t : task) : M unit := emod (λ s, s <| tasks := (tasks s ++ [t])%list |>).

(** ** The views of a page *)

(** [IsVisible] of a window asks each of its ancestors. *)
Definition visible (ws : list bool) : bool := forallb id ws.
Definition IsShowing (v : view) : bool := visible (windows v).

(** The walk from a view's window to the root that shows what is not visible:
    the windows after it and which of them it shows. *)
Fixpoint show_hidden (i : nat) (ws : list bool) : list bool * list nat :=
  match ws with
  | [] => ([], [])
  | b :: ws' =>
      let '(shown, js) := show_hidden (S i) ws' in
      if visible ws then (b :: shown, js) else (true :: shown, i :: js)
  end.
(** The walk that shows every window. *)
Definition show_all (ws : list bool) : list bool * list nat := ((λ _, true) <$> ws, seq 0 (List.length ws)).

(** [Show] makes the view's own window shown. *)
Definition ShowChain (walk : list bool → list bool * list nat) (last : nat → Viewport.event) (p : nat) :
    eff page Viewport.event unit :=
  x ← eget;
  match main_view x with
  | None => mret tt
  | Some v =>
      let '(ws, js) := walk (windows v) in
      eseq ((λ i, emit (ShowWindow p i)) <$> js);;
      emod (λ x, x <| main_view := Some (v <| windows := ws |>) |>);;
      emit (last p)
  end.

(** GetRenderWidgetHostView, GetRenderWidgetHost and GetFrameSinkId of a page. *)
Definition rwhv_of (p : nat) (w : world) : option view := pages w !! p ≫= main_view.
Definition rwh_of (p : nat) (w : world) : option widget := rwhv_of p w ≫= widget_host.
Definition sink_of (p : nat) (w : world) : option nat := rwh_of p w ≫= frame_sink_id.

(** ** The resolver *)

Module Resolver.

(** The page is compared and its live sink is logged. *)
Definition SetActiveCapture (wc fsid : option nat) : M unit :=
  s ← eget;
  if bool_decide (active_ s = wc) && bool_decide (active_fsid_ s = fsid) then mret tt
  else emod (λ s, s <| active_ := wc |> <| active_fsid_ := fsid |> <| observed := wc |>).

Definition GetActiveWebContents (s : shell) : option nat := active_ s.
Definition GetActiveMainFrameRenderWidgetHost (s : shell) : option widget :=
  active_ s ≫= λ p, rwhv_of p (objects s) ≫= widget_host.
Definition GetActiveFocusedRenderWidgetHost (s : shell) : option widget :=
  active_ s ≫= λ p, pages (objects s) !! p ≫= λ x, mjoin (mjoin (focused_frame x)).

Definition WebContentsDestroyed : M unit :=
  emod (λ s, s <| active_ := None |> <| active_fsid_ := None |>);;
  s ← eget;
  ewhen (captured_gone_ s) (post CapturedGone).

Definition RenderViewHostChanged : M unit :=
  s ← eget;
  let had_active_capture := bool_decide (is_Some (active_ s)) && bool_decide (is_Some (active_fsid_ s)) in
  ewhen (bool_decide (is_Some (active_fsid_ s))) (emod (λ s, s <| active_fsid_ := None |>));;
  ewhen (had_active_capture && recapture_on_rvh_swap_ s) (post (Recapture kRecaptureRvhSwapAttempts)).

Definition PrimaryMainFrameRenderProcessGone : M unit :=
  s ← eget;
  let had_active_capture := bool_decide (is_Some (active_ s)) in
  ewhen (bool_decide (is_Some (active_fsid_ s))) (emod (λ s, s <| active_fsid_ := None |>));;
  ewhen (had_active_capture && renderer_gone_ s) (post RendererGone).
End Resolver.

(** ** main_parts *)

Section main_parts.
Context {D : DisplayLib} {U : Unspecified}.

Definition SetActiveCapture (web_contents frame_sink : option nat) : M unit :=
  match web_contents, frame_sink with
  | Some p, Some f =>
      on_objects (emit (Focus p));;
      Resolver.SetActiveCapture (Some p) (Some f);;
      on_objects (SetTargetWebContents (Some p));;
      s ← eget;
      ewhen (bool_decide (is_Some (the_screen (objects s))) && input_delegate_ s)
        (on_objects (on_screen (SetLastPointerSource true)))
  | _, _ =>
      Resolver.SetActiveCapture None None;;
      on_objects (SetTargetWebContents None)
  end.

Definition RearmCaptureOnInitialTab : M unit :=
  s ← eget;
  match the_source (objects s), initial_web_contents_ s with
  | Some _, Some wc =>
      if tearing_down_ s then mret tt
      else
        match sink_of wc (objects s) with
        | None => mret tt
        | Some fsid =>
            ewhen (negb (from_option IsShowing true (rwhv_of wc (objects s))))
              (on_objects (on_page wc (ShowChain show_all WasShown wc)));;
            on_objects (on_source (StartCapture fsid));;
            SetActiveCapture (Some wc) (Some fsid)
        end
  | _, _ => mret tt
  end.

Definition RearmCaptureAfterRvhSwap (attempts_left : nat) : M unit :=
  s ← eget;
  match the_source (objects s), Resolver.GetActiveWebContents s with
  | Some _, Some wc =>
      match sink_of wc (objects s) with
      | None =>
          match attempts_left with
          | S n => emod (λ s, s <| delayed := (delayed s ++ [n])%list |>)
          | O => mret tt
          end
      | Some new_fsid =>
          ewhen (negb (from_option IsShowing true (rwhv_of wc (objects s))))
            (on_objects (on_page wc (ShowChain (show_hidden 0) ShowView wc)));;
          on_objects (on_source (StartCapture new_fsid));;
          Resolver.SetActiveCapture (Some wc) (Some new_fsid)
      end
  | _, _ => mret tt
  end.

(** Cb.startFrameSinkCapture on a page: the sink that is captured, or what is
    missing.  [callback]: the callback to main_parts is set. *)
Inductive start_error := NoView | NoWidget | NoSink.
Definition StartOnPage (callback : bool) (web_contents : nat) : M (start_error + nat) :=
  s ← eget;
  match rwhv_of web_contents (objects s) with
  | None => mret (inl NoView)
  | Some rwhv =>
      match widget_host rwhv with
      | None => mret (inl NoWidget)
      | Some rwh =>
          match frame_sink_id rwh with
          | None => mret (inl NoSink)
          | Some fsid =>
              ewhen (negb (IsShowing rwhv))
                (on_objects (on_page web_contents (ShowChain (show_hidden 0) ShowView web_contents)));;
              on_objects (on_source (StartCapture fsid));;
              on_objects (emit (Focus web_contents));;
              ewhen callback (SetActiveCapture (Some web_contents) (Some fsid));;
              mret (inr fsid)
          end
      end
  end.

(** ** Executions *)

Inductive input :=
| CreatePage (p : nat) (x : page)
| DestroyPage (p : nat)
| PageChanges (p : nat) (x : page)          (* its views come and go *)
| RvhSwapped (p : nat) (x : page)
| RendererDies (p : nat) (x : page)
| CaptureStarted (p : nat)
| ViewportAsked (spec : CbViewportSpec)
| Capturing (i : FrameCapture.input)
| Framing (i : Z * BeginFrame.input)
| TearDown
| TaskRuns
| DelayedRuns (k : nat).

Definition put_page (p : nat) (x : page) : M unit :=
  on_objects (emod (λ w, w <| pages := <[p := x]> (pages w) |>)).
(** The observer of page [p] is told. *)
Definition tell (p : nat) (m : M unit) : M unit :=
  s ← eget; ewhen (bool_decide (observed s = Some p)) m.

Definition run_task (t : task) : M unit :=
  match t with
  | Recapture n => RearmCaptureAfterRvhSwap n
  | CapturedGone => RearmCaptureOnInitialTab
  | RendererGone => emit OnCapturedRendererGone
  end.

Definition handle (i : input) : M unit :=
  match i with
  | CreatePage p x => put_page p x
  | DestroyPage p =>
      tell p Resolver.WebContentsDestroyed;;
      tell p (emod (λ s, s <| observed := None |>));;
      on_objects (emod (λ w, w <| pages := delete p (pages w) |>))
  | PageChanges p x => put_page p x
  | RvhSwapped p x => put_page p x;; tell p Resolver.RenderViewHostChanged
  | RendererDies p x => put_page p x;; tell p Resolver.PrimaryMainFrameRenderProcessGone
  | CaptureStarted p => StartOnPage true p;; mret tt
  | ViewportAsked spec => on_objects (SetViewport spec);; mret tt
  | Capturing i => on_objects (on_source (FrameCapture.handle i))
  | Framing i => on_objects (on_driver (BeginFrame.handle i))
  | TearDown => emod (λ s, s <| tearing_down_ := true |>)
  | TaskRuns =>
      s ← eget;
      match tasks s with
      | [] => mret tt
      | t :: ts => emod (λ s, s <| tasks := ts |>);; run_task t
      end
  | DelayedRuns k =>
      s ← eget;
      match delayed s !! k with
      | None => mret tt
      | Some n => emod (λ s, s <| delayed := delete k (delayed s) |>);; RearmCaptureAfterRvhSwap n
      end
  end.

(** The scale a viewport is asked for is a number, a page that is created is
    new, the initial page is never closed, and the capturer is told its target,
    its resolution and its configuration by main_parts alone. *)
Definition is_nan (x : spec_float) : bool := match x with S754_nan => true | _ => false end.
Definition enabled (i : input) (s : shell) : bool :=
  match i with
  | CreatePage p _ => bool_decide (pages (objects s) !! p = None)
  | DestroyPage p => bool_decide (is_Some (pages (objects s) !! p)) && bool_decide (initial_web_contents_ s ≠ Some p)
  | PageChanges p _ | RvhSwapped p _ | RendererDies p _ | CaptureStarted p =>
      bool_decide (is_Some (pages (objects s) !! p))
  | ViewportAsked spec => negb (is_nan (device_scale_factor spec))
  | Capturing i =>
      match i with ConfigureCalled _ _ _ | Resized _ | Started _ => false | _ => true end
  | _ => true
  end.
End main_parts.

(** ** What the capturer is told *)

Section capturer.

Definition targets (e : FrameCapture.event) : bool := match e with ChangeTarget _ => true | _ => false end.
Definition untargeted (es : list FrameCapture.event) : Prop := Forall (λ e, targets e = false) es.

Definition steady (c : capturer) (es : list FrameCapture.event) (c' : capturer) : Prop :=
  resolution_ c' = resolution_ c ∧ untargeted es.
#[local] Instance steady_rel : TraceRel steady.
Proof.
  split; [by split; [|constructor]|]. intros c1 c2 c3 es1 es2 [H1 H2] [K1 K2].
  split; [congruence|by apply Forall_app].
Qed.
Definition source_steady (s : source) (es : list FrameCapture.event) (s' : source) : Prop :=
  match capturer_ s with
  | Some c => ∃ c', capturer_ s' = Some c' ∧ resolution_ c' = resolution_ c
  | None => capturer_ s' = None
  end ∧ untargeted es.
#[local] Instance source_steady_rel : TraceRel source_steady.
Proof.
  unfold source_steady. split; [intros s; split; [destruct (capturer_ s); [by eexists|done]|constructor]|].
  intros s1 s2 s3 es1 es2 [H1 H2] [K1 K2]. split; [|by apply Forall_app].
  destruct (capturer_ s1) as [c1|]; [|by rewrite H1 in K1]. destruct H1 as (c2 & Hc2 & Hr). rewrite Hc2 in K1.
  destruct K1 as (c3 & Hc3 & Hr'). exists c3. split; [done|congruence].
Qed.

Lemma on_capturer_steady {A} (m : C A) : respects steady m → respects source_steady (on_capturer m).
Proof.
  intros Hm s. unfold source_steady, on_capturer, exec, events. destruct (capturer_ s) as [c|] eqn:Hc.
  - specialize (Hm c). unfold exec, events in Hm. destruct (m c) as [[a c'] es]. destruct Hm as [H1 H2].
    split; [by exists c'|done].
  - by split; [|constructor].
Qed.
Lemma call_steady (m : FrameCapture.C unit) : respects steady m → respects source_steady (call m).
Proof.
  intros Hm. apply respects_bind; [apply _|by apply on_capturer_steady|]. intros _. apply respects_ret, _.
Qed.

(** Walk through a computation that aims at nothing. *)
Ltac steady_tac :=
  repeat first
    [ apply respects_ret, _
    | apply respects_get; intros ?
    | apply respects_when; [apply _|]
    | apply respects_bind; [apply _| |intros ?]
    | apply respects_mod; intros ?; split; [reflexivity|constructor]
    | apply respects_emit; intros ?; split; [reflexivity|by repeat constructor]
    | case_match ].
Ltac unfold_capturer :=
  unfold SetOnContentChangedCallback, SetIdleRefreshPeriod, Stop, OnStopped, OnIdleRefreshDeadline,
    ArmIdleRefreshDeadline, RunContentChanged, RunDone, release, OnFrameCaptured.

Lemma frame_source_steady f now : respects source_steady (OnCapturerFrame f now).
Proof.
  assert (Hmod : ∀ g : source → source, (∀ s, capturer_ (g s) = capturer_ s) →
    respects source_steady (emod g)).
  { intros g Hg. apply respects_mod. intros s. unfold source_steady. rewrite Hg.
    split; [destruct (capturer_ s); [by eexists|done]|constructor]. }
  assert (Hemit : ∀ e, targets e = false → respects source_steady (emit e)).
  { intros e He. apply respects_emit. intros s. unfold source_steady.
    split; [destruct (capturer_ s); [by eexists|done]|by repeat constructor]. }
  unfold OnCapturerFrame, WrapMediaVideoFrameAsWebrtcFrame, wrapped, count.
  repeat first
    [ apply respects_ret, _
    | apply respects_get; intros ?
    | apply respects_when; [apply _|]
    | apply respects_bind; [apply _| |intros ?]
    | apply Hmod; reflexivity
    | apply Hemit; reflexivity
    | case_match ].
Qed.

(** Only a start, a resize or a configuration aims or resizes the capturer. *)
Definition routine (i : FrameCapture.input) : bool :=
  match i with ConfigureCalled _ _ _ | Resized _ | Started _ => false | _ => true end.
Lemma routine_steady i : routine i = true → respects source_steady (FrameCapture.handle i).
Proof.
  destruct i; intros Hi; try discriminate; cbn [FrameCapture.handle];
    unfold Source_SetOnContentChangedCallback, FrameArrives;
    try (apply call_steady; unfold_capturer; cbv zeta; steady_tac).
  apply respects_bind; [apply _|apply on_capturer_steady; unfold_capturer; cbv zeta; steady_tac|].
  intros r. destruct (mjoin r); [|apply respects_ret, _].
  apply respects_bind; [apply _|apply frame_source_steady|]. intros b.
  apply call_steady. unfold_capturer. steady_tac.
Qed.

(** A start aims the capturer at its target, and keeps its size. *)
Lemma Start_aims f c : resolution_ (exec (Start f) c) = resolution_ c ∧
  ∃ es1 es2, events (Start f) c = (es1 ++ ChangeTarget f :: es2)%list ∧ untargeted es2.
Proof.
  unfold Start, ApplyToProducer, ArmIdleRefreshDeadline, RunContentChanged.
  destruct c as [r fm p ip it st cb cc fr fd ff bd ir ck nb le dp].
  run_eff. destruct st, cc; simpl; destruct (0 <? ip); simpl; (split; [done|]);
    (eexists [_; _; _], _; split; [reflexivity|by repeat constructor]).
Qed.

Lemma StartCapture_aims f s c : capturer_ s = Some c →
  (∃ c', capturer_ (exec (StartCapture f) s) = Some c' ∧ resolution_ c' = resolution_ c) ∧
  ∃ es1 es2, events (StartCapture f) s = (es1 ++ ChangeTarget f :: es2)%list ∧ untargeted es2.
Proof.
  intros Hc. destruct (Start_aims f c) as [Hr (es1 & es2 & He & Hu)].
  assert (Hm : Start f c = (tt, exec (Start f) c, events (Start f) c)) by (by unfold exec, events; destruct (Start f c) as [[[] ?] ?]).
  unfold StartCapture. unfold exec at 1, events at 1. rewrite (call_run _ _ _ _ _ Hc Hm). simpl. eauto 10.
Qed.
Lemma resize_untargeted r s : untargeted (events (Source_SetCaptureResolution r) s).
Proof.
  unfold Source_SetCaptureResolution, call, on_capturer. rewrite events_bind, app_nil_r. unfold events.
  destruct (capturer_ s) as [c|]; [|constructor].
  unfold SetCaptureResolution, RunContentChanged. cbv zeta. destruct c as [? ? ? ? ? st ? cc].
  run_eff. destruct (IsEmpty _); [constructor|]. destruct (bool_decide _); [constructor|].
  destruct st; [|constructor]. destruct cc; by repeat constructor.
Qed.
End capturer.

(** ** The layers agree *)

Section invariant.
Context {D : DisplayLib} {U : Unspecified}.

(** The sink the capturer was last aimed at. *)
Definition aim1 (t : option nat) (e : event) : option nat :=
  match e with To (FromSource (ChangeTarget f)) => Some f | _ => t end.
Definition aim (t : option nat) (es : list event) : option nat := fold_left aim1 es t.
Definition captures (w : world) : Prop := ∃ src cap, the_source w = Some src ∧ capturer_ src = Some cap.

(** The display, the host and the capturer are as large as the current
    viewport, which is allowed and of scale 1. *)
Record layers (w : world) : Prop := {
  layers_current c : viewport w = Some c →
    allowed (size_dip (current_ c)) ∧ device_scale_factor (current_ c) = float_one;
  layers_screen c s : viewport w = Some c → screen_ c = true → the_screen w = Some s →
    primary s = mkDisplay (at_origin (size_dip (current_ c))) float_one;
  layers_host c h : viewport w = Some c → aura_ c = true → host w = Some h → h = size_dip (current_ c);
  layers_capturer c s cap : viewport w = Some c → track_source_ c = true → the_source w = Some s →
    capturer_ s = Some cap → resolution_ cap = size_dip (current_ c);
}.

(** What a computation on the objects keeps: the pages stay, the viewport follows
    the page it followed, the capturer is there, the layers agree. *)
Definition calm (w : world) (es : list Viewport.event) (w' : world) : Prop :=
  (∀ p, is_Some (pages w !! p) → is_Some (pages w' !! p)) ∧
  web_contents_ <$> viewport w' = web_contents_ <$> viewport w ∧
  (captures w → captures w') ∧ (layers w → layers w').
#[local] Instance calm_rel : TraceRel calm.
Proof.
  split; [done|]. intros w1 w2 w3 es1 es2 (H1 & H2 & H3 & H4) (K1 & K2 & K3 & K4).
  split_and!; [naive_solver|by rewrite K2|naive_solver|naive_solver].
Qed.

(** ... and aims the capturer at nothing. *)
Definition aimless (es : list Viewport.event) : Prop := ∀ t, aim t (To <$> es) = t.
Definition settled (w : world) (es : list Viewport.event) (w' : world) : Prop :=
  calm w es w' ∧ aimless es.
#[local] Instance settled_rel : TraceRel settled.
Proof.
  split; [split; [apply trace_rel_nil|done]|].
  intros w1 w2 w3 es1 es2 [H1 H2] [K1 K2]. split; [by eapply trace_rel_app|].
  intros t. unfold aim. rewrite fmap_app, fold_left_app. fold (aim t (To <$> es1)). rewrite H2. apply K2.
Qed.

Lemma aimless_only es : Forall (λ e, ∀ f, e ≠ FromSource (ChangeTarget f)) es → aimless es.
Proof.
  intros H t. unfold aim. revert t. induction H as [|e es He _ IH]; intros t; [done|].
  rewrite fmap_cons. cbn [fold_left]. rewrite IH. destruct e as [| | | |[]| | | | |]; try done. by destruct (He target).
Qed.

(** A change to the world that leaves the layers alone. *)
Lemma settled_emit e : (∀ f, e ≠ FromSource (ChangeTarget f)) → respects settled (emit e).
Proof. intros He w. split; [by split_and!|]. apply aimless_only. by repeat constructor. Qed.

Lemma on_events {A R E} get put (wrap : E → Viewport.event) o (m : eff A E R) w :
  events (on get put wrap o m) w = match get w with Some a => wrap <$> events m a | None => [UseAfterFree o] end.
Proof. unfold on, events at 1. by destruct (get w). Qed.

Lemma on_page_settled {R} p (m : eff page Viewport.event R) :
  (∀ x, Forall (λ e, ∀ f, e ≠ FromSource (ChangeTarget f)) (events m x)) → respects settled (on_page p m).
Proof.
  intros Hm w. rewrite on_page_exec. split; [split_and!|].
  - intros q [x Hq]. simpl. rewrite lookup_alter. case_decide as H; [subst q; rewrite Hq; by eexists|by eexists].
  - done.
  - done.
  - intros []. by split.
  - apply aimless_only. unfold on_page. rewrite on_events. destruct (pages w !! p) as [x|].
    + rewrite list_fmap_id. apply Hm.
    + by repeat constructor.
Qed.

Lemma SetTarget_spec p w : viewport (exec (SetTargetWebContents p) w) = (λ c, c <| web_contents_ := p |>) <$> viewport w ∧
  pages (exec (SetTargetWebContents p) w) = pages w ∧
  (captures w → captures (exec (SetTargetWebContents p) w)) ∧ (layers w → layers (exec (SetTargetWebContents p) w)).
Proof.
  split_and!; try done. intros [H1 H2 H3 H4]. split; simpl; destruct (viewport w) as [c0|]; simpl; try done;
    intros c; [intros [= <-]|intros s [= <-]|intros h [= <-]|intros s cap [= <-]]; simpl; eauto.
Qed.

(** The calls on an object other than the capturer. *)
Lemma on_screen_settled {R} (m : eff CbHeadlessScreen Viewport.event R) :
  (∀ s, primary (exec m s) = primary s) → (∀ s, Forall (λ e, ∀ f, e ≠ FromSource (ChangeTarget f)) (events m s)) →
  respects settled (on_screen m).
Proof.
  intros Hm He w. unfold on_screen. rewrite on_exec, on_events. destruct (the_screen w) as [s|] eqn:Hs.
  - split; [split_and!; try done|].
    + intros [H1 H2 H3 H4]. split; simpl; [done| |done|done]. intros c s' Hc Hb [= <-]. rewrite Hm. eauto.
    + apply aimless_only. rewrite list_fmap_id. apply He.
  - split; [by split_and!|]. apply aimless_only. by repeat constructor.
Qed.
Lemma on_driver_settled {R} (m : eff driver BeginFrame.event R) : respects settled (on_driver m).
Proof.
  intros w. unfold on_driver. rewrite on_exec, on_events. destruct (the_driver w) as [d|] eqn:Hd.
  - split; [split_and!; try done; by intros []; split|]. apply aimless_only. by apply Forall_fmap, Forall_true.
  - split; [by split_and!|]. apply aimless_only. by repeat constructor.
Qed.

Lemma on_source_calm {R} (m : eff source FrameCapture.event R) w :
  (∀ s c, capturer_ s = Some c → ∃ c', capturer_ (exec m s) = Some c' ∧ resolution_ c' = resolution_ c) →
  (∀ s, capturer_ s = None → capturer_ (exec m s) = None) →
  calm w (events (on_source m) w) (exec (on_source m) w).
Proof.
  intros Hm Hn. unfold on_source. rewrite on_exec. destruct (the_source w) as [s|] eqn:Hs; [|by split_and!].
  split_and!; try done.
  - intros (src & cap & H & Hc). simplify_eq. destruct (Hm _ _ Hc) as (c' & Hc' & _).
    by exists (exec m s), c'.
  - intros [H1 H2 H3 H4]. split; simpl; [done|done|done|]. intros c s' cap' Hc Hb [= <-] Hcap.
    destruct (capturer_ s) as [cap|] eqn:H0; [|by rewrite Hn in Hcap].
    destruct (Hm _ _ H0) as (c' & Hc' & Hr). simplify_eq. rewrite Hr. eauto.
Qed.

Lemma untargeted_aimless es : untargeted es → aimless (FromSource <$> es).
Proof.
  intros H. apply aimless_only, Forall_fmap. eapply Forall_impl; [exact H|].
  by intros [] He ? [= ?].
Qed.
Lemma routine_settled i : routine i = true → respects settled (on_source (FrameCapture.handle i)).
Proof.
  intros Hi w. split.
  - apply on_source_calm; intros s; destruct (routine_steady i Hi s) as [H _]; intros.
    + by simplify_option_eq.
    + by simplify_option_eq.
  - unfold on_source. rewrite on_events. destruct (the_source w) as [s|].
    + apply untargeted_aimless. apply (routine_steady i Hi s).
    + apply aimless_only. by repeat constructor.
Qed.

Lemma StartCapture_calm f w : calm w (events (on_source (StartCapture f)) w) (exec (on_source (StartCapture f)) w).
Proof.
  apply on_source_calm.
  - intros s c Hc. apply (proj1 (StartCapture_aims f s c Hc)).
  - intros s Hn. unfold StartCapture, call, on_capturer. rewrite exec_bind. unfold exec. by rewrite Hn.
Qed.
Lemma StartCapture_aim f w t : captures w → aim t (To <$> events (on_source (StartCapture f)) w) = Some f.
Proof.
  intros (s & c & Hs & Hc). unfold on_source. rewrite on_events, Hs.
  destruct (StartCapture_aims f s c Hc) as [_ (es1 & es2 & -> & Hu)].
  unfold aim. rewrite !fmap_app, !fmap_cons, fold_left_app. cbn [fold_left aim1].
  apply (untargeted_aimless es2 Hu (Some f)).
Qed.

(** *** A viewport is asked for *)

Lemma Apply_aimless c spec w : aimless (events (Apply c spec) w).
Proof.
  assert (Hw : ∀ {R} (m : Viewport.M R), respects settled m → ∀ w, aimless (events m w)) by (intros; apply H).
  assert (Ha : ∀ es1 es2, aimless es1 → aimless es2 → aimless (es1 ++ es2)).
  { intros es1 es2 H1 H2 t. unfold aim. rewrite fmap_app, fold_left_app. fold (aim t (To <$> es1)). rewrite H1. apply H2. }
  assert (He : ∀ e, (∀ f, e ≠ FromSource (ChangeTarget f)) → aimless [e]).
  { intros e He. apply aimless_only. by repeat constructor. }
  unfold Apply. cbv zeta. destruct (same_spec _ _); [done|].
  rewrite events_bind. apply Ha; [destruct (begin_frame_driver_ c); [apply Hw, on_driver_settled|done]|].
  rewrite events_bind. apply Ha.
  { destruct (screen_ c); [|done]. cbn [ewhen]. unfold on_screen. rewrite on_events.
    destruct (the_screen w) as [s|]; destruct (the_screen _) as [s'|]; try (apply He; discriminate);
      unfold UpdatePrimaryDisplay; rewrite events_get, list_fmap_id;
      (case_match; [done|]); rewrite events_mod; apply He; discriminate. }
  rewrite events_get, events_bind. apply Ha.
  { unfold ewhen at 1. case_match; [|done]. rewrite events_mod. by apply He. }
  rewrite events_bind. apply Ha.
  { case_match; [|done]. apply (Hw unit), on_page_settled. intros x. unfold SetSize. rewrite events_get.
    destruct (main_view x); [|constructor]. rewrite events_mod. by repeat constructor. }
  rewrite events_bind. apply Ha; [|done].
  destruct (track_source_ c); [|done]. cbn [ewhen]. unfold on_source. rewrite on_events.
  case_match; [|by apply He]. apply untargeted_aimless. apply resize_untargeted.
Qed.

Lemma Apply_calm c spec w : viewport w = Some c → device_scale_factor spec ≠ S754_nan →
  calm w (events (Apply c spec) w) (exec (Apply c spec) w).
Proof.
  intros Hc Hn. destruct (same_spec (Clamp (resolve spec c)) (current_ c)) eqn:Hs.
  { unfold exec. rewrite Apply_same by done. by split_and!. }
  rewrite (proj2 (Apply_exec c spec w Hs)). split_and!.
  - intros p Hp. unfold applied. simpl. destruct (web_contents_ c) as [q|]; [|done].
    rewrite lookup_alter. case_decide; [subst q|done]. by apply fmap_is_Some.
  - unfold applied. simpl. by rewrite Hc.
  - intros (s & cap & H1 & H2). unfold applied, captures. simpl. rewrite H1. destruct (track_source_ c); [|by exists s, cap].
    simpl. eexists. assert (Ha := clamp_allowed (resolve spec c)).
    destruct (capturer_ (exec (Source_SetCaptureResolution (in_pixels (Clamp (resolve spec c)))) s)) eqn:H; [by eexists|].
    exfalso. revert H. unfold Source_SetCaptureResolution, call, on_capturer. rewrite exec_bind.
    unfold exec. rewrite H2. by destruct (SetCaptureResolution _ _) as [[] ?].
  - intros [L1 _ _ _]. destruct (L1 c Hc) as [La L0].
    assert (Hr : device_scale_factor (resolve spec c) ≠ S754_nan).
    { unfold resolve. destruct (SFeqb _ _); [|done]. simpl. by rewrite L0. }
    pose proof (clamp_allowed (resolve spec c)) as Ha. pose proof (target_one spec c Hr) as H1.
    destruct (applied_shows c _ w Ha H1) as [S1 S2 _ S4].
    split; intros c'; [|intros s|intros h|intros s cap]; unfold applied at 1; cbn [viewport]; rewrite Hc;
      intros [= <-]; simpl; [done|eauto..].
Qed.

Lemma SetViewport_settled spec w : device_scale_factor spec ≠ S754_nan →
  settled w (events (SetViewport spec) w) (exec (SetViewport spec) w).
Proof.
  intros Hn. unfold SetViewport. rewrite events_get, exec_get. destruct (viewport w) as [c|] eqn:Hc.
  - split; [by apply Apply_calm|apply Apply_aimless].
  - apply (trace_rel_nil (R := settled)).
Qed.

Lemma ShowChain_settled walk last p : (∀ f, last p ≠ FromSource (ChangeTarget f)) →
  respects settled (on_page p (ShowChain walk last p)).
Proof.
  intros Hl. apply on_page_settled. intros x. unfold ShowChain. rewrite events_get.
  destruct (main_view x) as [v|]; [|constructor]. destruct (walk (windows v)) as [ws js].
  rewrite events_bind. apply Forall_app. split; [|rewrite events_mod; by repeat constructor].
  generalize x. induction js as [|j js IH]; intros x'; [constructor|].
  rewrite fmap_cons. cbn [eseq]. rewrite events_bind. apply Forall_app. split; [by repeat constructor|apply IH].
Qed.

Lemma put_page_calm p x w : calm w [] (w <| pages := <[p := x]> (pages w) |>).
Proof.
  split_and!; try done; [|by intros []; split]. intros q Hq. simpl.
  rewrite lookup_insert. case_decide; [by eexists|done].
Qed.

(** ** The invariant *)

(** What the resolver remembers is observed and there, the viewport follows it,
    and the sink it remembers is the one the capturer was last aimed at. *)
Record tracks (t : option nat) (s : shell) : Prop := {
  tracks_observed : observed s = active_ s;
  tracks_live p : active_ s = Some p → is_Some (pages (objects s) !! p);
  tracks_initial p : initial_web_contents_ s = Some p → is_Some (pages (objects s) !! p);
  tracks_viewport p : active_ s = Some p → web_contents_ <$> viewport (objects s) = Some (Some p);
  tracks_sink f : active_fsid_ s = Some f → is_Some (active_ s) ∧ t = Some f;
  tracks_captures : captures (objects s);
  tracks_controller : is_Some (viewport (objects s));
  tracks_layers : layers (objects s);
}.

(** A calm change of the objects keeps the invariant. *)
Lemma tracks_calm t s es w' : calm (objects s) es w' → tracks t s → tracks t (s <| objects := w' |>).
Proof.
  intros (H1 & H2 & H3 & H4) [I1 I2 I3 I4 I5 I6 I7 I8]. split; simpl; [done|eauto|eauto| |done|eauto| |eauto].
  - intros p Hp. rewrite H2. eauto.
  - destruct I7 as [c Hc]. rewrite Hc in H2. destruct (viewport w'); [by eexists|done].
Qed.

Definition tracking (s : shell) (es : list event) (s' : shell) : Prop := ∀ t, tracks t s → tracks (aim t es) s'.
#[local] Instance tracking_rel : TraceRel tracking.
Proof.
  split; [by intros s t|]. intros s1 s2 s3 es1 es2 H1 H2 t Ht. unfold aim. rewrite fold_left_app. by apply H2, H1.
Qed.

Lemma objects_tracking {A} (m : Viewport.M A) s :
  settled (objects s) (events m (objects s)) (exec m (objects s)) →
  tracking s (events (on_objects m) s) (exec (on_objects m) s).
Proof.
  intros [Hc Ha] t Ht. unfold on_objects, exec at 1, events at 1. simpl. rewrite Ha.
  by eapply tracks_calm.
Qed.

(** Posting and forgetting the sink keep it. *)
Definition forgets (f : shell → shell) : Prop := ∀ s,
  objects (f s) = objects s ∧ active_ (f s) = active_ s ∧ observed (f s) = observed s ∧
  initial_web_contents_ (f s) = initial_web_contents_ s ∧
  (active_fsid_ (f s) = active_fsid_ s ∨ active_fsid_ (f s) = None).
Lemma forget_tracking f : forgets f → respects tracking (emod f).
Proof.
  intros Hf s t [I1 I2 I3 I4 I5 I6 I7 I8]. change (exec (emod f) s) with (f s). change (aim t _) with t.
  destruct (Hf s) as (E1 & E2 & E3 & E4 & E5). split; rewrite ?E1, ?E2, ?E3, ?E4; try done.
  intros g Hg. destruct E5 as [E5|E5]; rewrite E5 in Hg; [by apply I5|done].
Qed.

(** *** The capturer is aimed *)

Definition remember (p f : nat) (s : shell) : shell :=
  s <| active_ := Some p |> <| active_fsid_ := Some f |> <| observed := Some p |>.
Definition forget (s : shell) : shell := s <| active_fsid_ := None |>.

Lemma resolver_remembers p f s : observed s = active_ s →
  exec (Resolver.SetActiveCapture (Some p) (Some f)) s = remember p f s ∧
  events (Resolver.SetActiveCapture (Some p) (Some f)) s = [].
Proof.
  intros Ho. unfold Resolver.SetActiveCapture. rewrite exec_get, events_get.
  destruct (bool_decide _ && _) eqn:H; [|done].
  apply andb_true_iff in H as [H1%bool_decide_eq_true_1 H2%bool_decide_eq_true_1].
  split; [|done]. destruct s. simpl in *. unfold remember, set_field. simpl. by subst.
Qed.

Lemma remember_tracks t p f s : tracks t (forget s) → is_Some (pages (objects s) !! p) →
  web_contents_ <$> viewport (objects s) = Some (Some p) → tracks (Some f) (remember p f s).
Proof.
  intros [I1 I2 I3 I4 I5 I6 I7 I8] Hp Hv. split; simpl in *; try done; naive_solver.
Qed.

(** The capturer starts on [f] and the invariant holds but for the sink. *)
Lemma start_forgets t f s : tracks t s →
  let s1 := exec (on_objects (on_source (StartCapture f))) s in
  tracks (Some f) (forget s1) ∧ aim t (events (on_objects (on_source (StartCapture f))) s) = Some f ∧
  active_ s1 = active_ s ∧ observed s1 = observed s ∧
  (∀ p, is_Some (pages (objects s) !! p) → is_Some (pages (objects s1) !! p)) ∧
  web_contents_ <$> viewport (objects s1) = web_contents_ <$> viewport (objects s).
Proof.
  intros Ht. cbv zeta. pose proof (StartCapture_calm f (objects s)) as Hc.
  pose proof (StartCapture_aim f (objects s) t (tracks_captures _ _ Ht)) as Ha.
  unfold on_objects, exec at 1 3 5 7 9, events at 1. simpl. split_and!; try done; [|apply Hc..].
  apply (tracks_calm _ _ _ _ Hc) in Ht. destruct Ht as [I1 I2 I3 I4 I5 I6 I7 I8]. by split.
Qed.

Lemma SetActiveCapture_tracks t p f s : tracks t (forget s) → t = Some f → is_Some (pages (objects s) !! p) →
  tracks (aim t (events (SetActiveCapture (Some p) (Some f)) s)) (exec (SetActiveCapture (Some p) (Some f)) s).
Proof.
  intros Ht -> Hp. unfold SetActiveCapture. rewrite exec_bind, events_bind.
  set (s0 := exec (on_objects (emit (Focus p))) s).
  assert (Hs0 : s0 = s) by (destruct s; reflexivity). rewrite Hs0.
  change (events (on_objects (emit (Focus p))) s) with [To (Focus p)].
  destruct (resolver_remembers p f s (tracks_observed _ _ Ht)) as [He Hv].
  rewrite exec_bind, events_bind, Hv, He, exec_bind, events_bind.
  change (events (on_objects (SetTargetWebContents (Some p))) (remember p f s)) with (@nil event).
  set (s1 := exec (on_objects (SetTargetWebContents (Some p))) (remember p f s)).
  cbn [app]. change (aim (Some f) (To (Focus p) :: ?es)) with (aim (Some f) es).
  assert (H1 : tracks (Some f) s1).
  { destruct Ht as [I1 I2 I3 I4 I5 I6 I7 I8].
    destruct (SetTarget_spec (Some p) (objects s)) as (S1 & S2 & S3 & S4).
    split; unfold s1, on_objects, exec at 1; simpl in *; rewrite ?S1, ?S2; try done.
    all: destruct I7 as [c Hc]; rewrite ?Hc; naive_solver. }
  rewrite exec_get, events_get. destruct (_ && _); [|exact H1].
  apply objects_tracking; [|exact H1]. by apply on_screen_settled; intros; repeat constructor.
Qed.

(** Views are shown before the capturer is aimed. *)
Lemma shown_tracking b walk last p : (∀ f, last p ≠ FromSource (ChangeTarget f)) →
  respects tracking (ewhen b (on_objects (on_page p (ShowChain walk last p)))).
Proof.
  intros Hl. destruct b; [|apply respects_ret, _]. intros s. apply objects_tracking.
  by apply ShowChain_settled.
Qed.

Lemma sink_view p f w : sink_of p w = Some f → is_Some (pages w !! p).
Proof. unfold sink_of, rwh_of, rwhv_of. destruct (pages w !! p); [by eexists|done]. Qed.

(** [tracking] of what is done to a page: the views are shown, the capturer is
    aimed, then [rest] remembers the sink. *)
Lemma aim_page_tracking {A} b walk last p f (rest : M A) s t :
  (∀ g, last p ≠ FromSource (ChangeTarget g)) → is_Some (pages (objects s) !! p) → tracks t s →
  (∀ s', tracks (Some f) (forget s') → is_Some (pages (objects s') !! p) →
    active_ s' = active_ s → web_contents_ <$> viewport (objects s') = web_contents_ <$> viewport (objects s) →
    tracks (aim (Some f) (events rest s')) (exec rest s')) →
  let m := ewhen b (on_objects (on_page p (ShowChain walk last p)));;
           on_objects (on_source (StartCapture f));; rest in
  tracks (aim t (events m s)) (exec m s).
Proof.
  intros Hl Hp Ht Hrest m. unfold m. rewrite events_bind, exec_bind.
  set (show := ewhen b _).
  assert (Hs : tracks (aim t (events show s)) (exec show s)) by (by apply shown_tracking).
  assert (Hk : active_ (exec show s) = active_ s ∧ is_Some (pages (objects (exec show s)) !! p) ∧
    web_contents_ <$> viewport (objects (exec show s)) = web_contents_ <$> viewport (objects s)).
  { unfold show. destruct b; [|done]. cbn [ewhen].
    destruct (ShowChain_settled walk last p Hl (objects s)) as [(H1 & H2 & _) _].
    unfold on_objects, exec at 1 2 4. simpl. eauto. }
  destruct Hk as (K1 & K2 & K3). rewrite events_bind, exec_bind.
  destruct (start_forgets _ f _ Hs) as (F1 & F2 & F3 & _ & F5 & F6).
  unfold aim in *. rewrite !fold_left_app, F2. apply Hrest; [done|by apply F5|congruence|congruence].
Qed.

Lemma forget_tac f : (∀ s, objects (f s) = objects s ∧ active_ (f s) = active_ s ∧ observed (f s) = observed s ∧
  initial_web_contents_ (f s) = initial_web_contents_ s ∧ active_fsid_ (f s) = active_fsid_ s) → respects tracking (emod f).
Proof. intros H. apply forget_tracking. intros s. destruct (H s) as (?&?&?&?&?). by split_and!; [..|left]. Qed.

Lemma rearm_swap_tracking n : respects tracking (RearmCaptureAfterRvhSwap n).
Proof.
  intros s t Ht. unfold RearmCaptureAfterRvhSwap. rewrite events_get, exec_get.
  destruct (the_source (objects s)); [|done]. destruct (Resolver.GetActiveWebContents s) as [p|] eqn:Hp; [|done].
  unfold Resolver.GetActiveWebContents in Hp.
  destruct (sink_of p (objects s)) as [f|] eqn:Hf.
  - apply aim_page_tracking; [done|by eapply sink_view|done|].
    intros s' Hs' Hp' Ha Hv. destruct (resolver_remembers p f s' (tracks_observed _ _ Hs')) as [-> ->].
    eapply remember_tracks; [done|done|]. rewrite Hv. by apply (tracks_viewport _ _ Ht).
  - destruct n as [|n]; [done|].
    by apply (forget_tac (λ s, s <| delayed := (delayed s ++ [n])%list |>)).
Qed.

Lemma rearm_initial_tracking : respects tracking RearmCaptureOnInitialTab.
Proof.
  intros s t Ht. unfold RearmCaptureOnInitialTab. rewrite events_get, exec_get.
  destruct (the_source (objects s)); [|done]. destruct (initial_web_contents_ s) as [p|] eqn:Hp; [|done].
  destruct (tearing_down_ s); [done|]. destruct (sink_of p (objects s)) as [f|] eqn:Hf; [|done].
  apply aim_page_tracking; [done|by eapply sink_view|done|].
  intros s' Hs' Hp' _ _. by apply SetActiveCapture_tracks.
Qed.

Lemma start_page_tracking p : respects tracking (StartOnPage true p;; mret tt).
Proof.
  intros s t Ht. rewrite events_bind, exec_bind, app_nil_r.
  change (exec (mret tt) ?x) with x. unfold StartOnPage. rewrite events_get, exec_get.
  destruct (rwhv_of p (objects s)) as [v|] eqn:Hv; [|done].
  destruct (widget_host v) as [h|] eqn:Hh; [|done]. destruct (frame_sink_id h) as [f|] eqn:Hf; [|done].
  apply aim_page_tracking; [done| |done|].
  - apply (sink_view p f). unfold sink_of, rwh_of. by rewrite Hv; simpl; rewrite Hh.
  - intros s' Hs' Hp' _ _. rewrite events_bind, exec_bind.
    change (exec (on_objects (emit (Focus p))) s') with (s' <| objects := objects s' |>).
    change (events (on_objects (emit (Focus p))) s') with [To (Focus p)].
    assert (Hs0 : s' <| objects := objects s' |> = s') by (by destruct s'). rewrite Hs0.
    rewrite events_bind, exec_bind, app_nil_r. by apply SetActiveCapture_tracks.
Qed.

Lemma tell_tracking p m : respects tracking m → respects tracking (tell p m).
Proof. intros Hm s t Ht. unfold tell. rewrite events_get, exec_get. destruct (bool_decide _); [by apply Hm|done]. Qed.

Lemma put_page_tracking p x : respects tracking (put_page p x).
Proof.
  intros s t Ht. unfold put_page. change (tracks t (s <| objects := (objects s) <| pages := <[p := x]> (pages (objects s)) |> |>)).
  eapply tracks_calm; [|done]. apply put_page_calm.
Qed.
Lemma swap_told : respects tracking Resolver.RenderViewHostChanged.
Proof.
  unfold Resolver.RenderViewHostChanged, post. apply respects_get. intros s.
  apply respects_bind; [apply _| |intros _]; apply respects_when; try apply _.
  - apply forget_tracking. intros s'. by split_and!; [..|right].
  - by apply forget_tac.
Qed.
Lemma crash_told : respects tracking Resolver.PrimaryMainFrameRenderProcessGone.
Proof.
  unfold Resolver.PrimaryMainFrameRenderProcessGone, post. apply respects_get. intros s.
  apply respects_bind; [apply _| |intros _]; apply respects_when; try apply _.
  - apply forget_tracking. intros s'. by split_and!; [..|right].
  - by apply forget_tac.
Qed.

(** A page that is destroyed: its observer forgets it. *)
Lemma destroy_tracks p s t : initial_web_contents_ s ≠ Some p → tracks t s →
  tracks (aim t (events (handle (DestroyPage p)) s)) (exec (handle (DestroyPage p)) s).
Proof.
  intros Hi [I1 I2 I3 I4 I5 I6 I7 I8].
  assert (Hl : layers ((objects s) <| pages := delete p (pages (objects s)) |>)) by (destruct I8; by split).
  assert (Hk : ∀ q, q ≠ p → is_Some (pages (objects s) !! q) → is_Some (delete p (pages (objects s)) !! q))
    by (intros q Hq H; by rewrite lookup_delete_ne).
  cbn [handle]. unfold tell, Resolver.WebContentsDestroyed, post, on_objects.
  destruct s as [w ac fs ob rc rg cg ini inp td ts ds]. simpl in *. subst ob.
  destruct (bool_decide (ac = Some p)) eqn:Ho.
  - apply bool_decide_eq_true_1 in Ho. subst ac. run_eff. rewrite bool_decide_true by done. simpl.
    destruct cg; simpl; rewrite bool_decide_true by done; (split; simpl; try done; naive_solver).
  - pose proof Ho as Hne%bool_decide_eq_false_1. run_eff. rewrite Ho. simpl. rewrite Ho. simpl.
    split; simpl; try done; naive_solver.
Qed.

Lemma step_tracks i s t : enabled i s = true → tracks t s →
  tracks (aim t (events (handle i) s)) (exec (handle i) s).
Proof.
  intros Hen Ht. destruct i as [p x|p|p x|p x|p x|p|spec|i|i| | |k].
  - by apply put_page_tracking.
  - simpl in Hen. apply andb_true_iff in Hen as [_ Hen%bool_decide_eq_true_1]. by apply destroy_tracks.
  - by apply put_page_tracking.
  - enough (H : respects tracking (handle (RvhSwapped p x))) by (by apply H). cbn [handle].
    apply respects_bind; [apply _|apply put_page_tracking|intros _; apply tell_tracking, swap_told].
  - enough (H : respects tracking (handle (RendererDies p x))) by (by apply H). cbn [handle].
    apply respects_bind; [apply _|apply put_page_tracking|intros _; apply tell_tracking, crash_told].
  - by apply start_page_tracking.
  - cbn [handle]. rewrite events_bind, exec_bind, app_nil_r. apply objects_tracking; [|done].
    apply SetViewport_settled. simpl in Hen. by destruct (device_scale_factor spec).
  - cbn [handle]. apply objects_tracking; [|done]. by apply routine_settled.
  - cbn [handle]. apply objects_tracking; [|done]. apply on_driver_settled.
  - by apply forget_tac.
  - cbn [handle]. rewrite events_get, exec_get. destruct (tasks s) as [|tk ts]; [done|].
    assert (H : respects tracking (emod (λ s, s <| tasks := ts |>);; run_task tk)); [|by apply H].
    apply respects_bind; [apply _|by apply forget_tac|intros _]. destruct tk; cbn [run_task].
    + apply rearm_swap_tracking.
    + apply rearm_initial_tracking.
    + by intros s' t' Ht'.
  - cbn [handle]. rewrite events_get, exec_get. destruct (delayed s !! k) as [n|]; [|done].
    assert (H : respects tracking (emod (λ s, s <| delayed := delete k (delayed s) |>);; RearmCaptureAfterRvhSwap n)); [|by apply H].
    apply respects_bind; [apply _|by apply forget_tac|intros _]. apply rearm_swap_tracking.
Qed.

(** *** From boot on *)

Definition kDefaultDisplayWidth : Z := 1280.
Definition kDefaultDisplayHeight : Z := 720.
Definition default_screen : CbHeadlessScreen :=
  mkScreen (mkDisplay (at_origin (kDefaultDisplayWidth, kDefaultDisplayHeight)) float_one) false true.

(** PreEarlyInitialization and PreMainMessageLoopRun have made the screen, the
    host, the viewport controller, the initial tab [p], the driver [d] and the
    capturer, and set the callbacks. *)
Definition boot (p : nat) (x : page) (d : driver) (t0 : Z) (g : atomics) : shell :=
  mkShell
    (mkWorld (Some default_screen) (Some (1280, 720)) (Some d) (Some (FrameCapture.start t0 g)) {[p := x]}
       (Some ((CbViewportController (Some default_screen) true false) <| begin_frame_driver_ := true |>
                <| track_source_ := true |>)))
    None None None true true true (Some p) false false [] [].

Lemma boot_tracks p x d t0 g : tracks None (boot p x d t0 g).
Proof.
  split; simpl; try done.
  - intros q [= <-]. rewrite lookup_singleton, decide_True by done. by eexists.
  - by do 2 eexists.
  - split; simpl; [intros c [= <-]|intros c s [= <-] _ [= <-]|intros c h [= <-] _ [= <-]|
      intros c s cap [= <-] _ [= <-] [= <-]]; done.
Qed.

Lemma reachable_tracks p x d t0 g s tr : reachable enabled handle (boot p x d t0 g) s tr → tracks (aim None tr) s.
Proof.
  apply (reachable_trace_inv enabled handle (boot p x d t0 g) (λ s tr, tracks (aim None tr) s)).
  - apply boot_tracks.
  - intros i s' tr' _ Ht Hen. unfold aim. rewrite fold_left_app. by apply step_tracks.
Qed.

(** C13. At any time the page the resolver hands out exists, and the viewport follows
    it; when the resolver knows its sink, that is the sink the capturer was last
    aimed at, so that input goes to the page that is seen. *)
Theorem captured_page_tracked p x d t0 g s tr : reachable enabled handle (boot p x d t0 g) s tr →
  (∀ q, Resolver.GetActiveWebContents s = Some q →
    is_Some (pages (objects s) !! q) ∧ web_contents_ <$> viewport (objects s) = Some (Some q)) ∧
  (∀ f, active_fsid_ s = Some f → is_Some (Resolver.GetActiveWebContents s) ∧ aim None tr = Some f).
Proof.
  intros [I1 I2 I3 I4 I5 I6 I7 I8]%reachable_tracks. split; [|exact I5].
  intros q Hq. split; [by apply I2|by apply I4].
Qed.

(** C38. At any time the display, the aura host and the captured frames have the size
    of the controller's viewport, which is even and within bounds, at scale 1. *)
Theorem viewport_layers_agree p x d t0 g s tr : reachable enabled handle (boot p x d t0 g) s tr → layers (objects s).
Proof. intros H%reachable_tracks. apply (tracks_layers _ _ H). Qed.

(** ** A renderer that dies *)

(** The sink is forgotten and nothing that is posted aims the capturer. *)
Record stuck (p : nat) (s : shell) : Prop := {
  stuck_active : active_ s = Some p;
  stuck_observed : observed s = Some p;
  stuck_sink : active_fsid_ s = None;
  stuck_tasks : Forall (λ t, t = RendererGone) (tasks s);
  stuck_delayed : delayed s = [];
}.
Definition stays (p : nat) (s : shell) (es : list event) (s' : shell) : Prop :=
  stuck p s → stuck p s' ∧ ∀ t, aim t es = t.
#[local] Instance stays_rel p : TraceRel (stays p).
Proof.
  split; [by intros s|]. intros s1 s2 s3 es1 es2 H1 H2 Hs. destruct (H1 Hs) as [Hs2 A1], (H2 Hs2) as [Hs3 A2].
  split; [done|]. intros t. unfold aim in *. by rewrite fold_left_app, A1, A2.
Qed.

Lemma objects_stays {A} (m : Viewport.M A) p : (∀ w, aimless (events m w)) → respects (stays p) (on_objects m).
Proof.
  intros Hm s [H1 H2 H3 H4]. split; [by split|]. intros t. apply Hm.
Qed.
Lemma mod_stays p f : (∀ s, stuck p s → stuck p (f s)) → respects (stays p) (emod f).
Proof. intros H s Hs. split; [by apply H|done]. Qed.
Lemma get_stays {A} p (f : shell → M A) : (∀ s, stuck p s → respects (stays p) (f s)) → respects (stays p) (eget ≫= f).
Proof. intros H s Hs. rewrite exec_get, events_get. by apply H. Qed.

(** The inputs but a capture start and the closing of the page itself. *)
Definition bystander (p : nat) (i : input) : Prop :=
  match i with
  | CaptureStarted _ => False
  | DestroyPage q => q ≠ p
  | Capturing i => routine i = true
  | _ => True
  end.

Lemma swap_stays p : respects (stays p) Resolver.RenderViewHostChanged.
Proof.
  unfold Resolver.RenderViewHostChanged. apply get_stays. intros s Hs.
  rewrite (stuck_sink _ _ Hs), andb_false_r. apply respects_bind; [apply _|apply respects_ret, _|].
  intros _. apply respects_ret, _.
Qed.
Lemma crash_stays p : respects (stays p) Resolver.PrimaryMainFrameRenderProcessGone.
Proof.
  unfold Resolver.PrimaryMainFrameRenderProcessGone, post. apply get_stays. intros s Hs.
  rewrite (stuck_sink _ _ Hs). apply respects_bind; [apply _|apply respects_ret, _|]. intros _.
  apply respects_when; [apply _|]. apply mod_stays. intros s' []. split; try done.
  simpl. apply Forall_app. split; [done|by repeat constructor].
Qed.
Lemma tell_stays p q m : (q = p → respects (stays p) m) → respects (stays p) (tell q m).
Proof.
  intros Hm. unfold tell. apply get_stays. intros s Hs. rewrite (stuck_observed _ _ Hs).
  destruct (bool_decide _) eqn:H; [|apply respects_ret, _].
  apply bool_decide_eq_true_1 in H as [= ->]. by apply Hm.
Qed.
Lemma settled_aimless {A} (m : Viewport.M A) : respects settled m → ∀ w, aimless (events m w).
Proof. intros H w. apply H. Qed.

Lemma bystander_stays p i : bystander p i → respects (stays p) (handle i).
Proof.
  assert (Hput : ∀ q x, respects (stays p) (put_page q x)) by (intros; by apply objects_stays).
  destruct i as [q x|q|q x|q x|q x|q|spec|i|i| | |k]; cbn [handle bystander]; intros Hi; try done.
  - assert (Hno : ∀ m, respects (stays p) (tell q m)) by (intros m; by apply tell_stays).
    apply respects_bind; [apply _|apply Hno|intros _]. apply respects_bind; [apply _|apply Hno|intros _].
    by apply objects_stays.
  - apply respects_bind; [apply _|apply Hput|intros _]. apply tell_stays. intros _. apply swap_stays.
  - apply respects_bind; [apply _|apply Hput|intros _]. apply tell_stays. intros _. apply crash_stays.
  - apply respects_bind; [apply _| |intros _; apply respects_ret, _]. apply objects_stays. intros w.
    unfold SetViewport. rewrite events_get. destruct (viewport w); [apply Apply_aimless|done].
  - by apply objects_stays, settled_aimless, routine_settled.
  - by apply objects_stays, settled_aimless, on_driver_settled.
  - apply mod_stays. by intros s [].
  - apply get_stays. intros s [H1 H2 H3 H4 H5]. destruct (tasks s) as [|tk ts]; [apply respects_ret, _|].
    apply Forall_cons in H4 as [-> H4]. apply respects_bind; [apply _|apply mod_stays; by intros s' []|intros _].
    cbn [run_task]. by apply respects_emit.
  - apply get_stays. intros s Hs. rewrite (stuck_delayed _ _ Hs). apply respects_ret, _.
Qed.

Lemma run_stays p ins s : Forall (bystander p) ins → stuck p s →
  stuck p (exec (run handle ins) s) ∧ ∀ t, aim t (events (run handle ins) s) = t.
Proof.
  intros H. apply (respects_seq (stays p)). apply Forall_fmap.
  eapply Forall_impl; [exact H|]. apply bystander_stays.
Qed.

Lemma crash_sticks p x s t : tracks t s → active_ s = Some p → Forall (λ t, t = RendererGone) (tasks s) →
  delayed s = [] → stuck p (exec (handle (RendererDies p x)) s).
Proof.
  intros Ht Ha Htk Hd. cbn [handle]. unfold tell, Resolver.PrimaryMainFrameRenderProcessGone, post, put_page, on_objects.
  pose proof (tracks_observed _ _ Ht) as Ho. rewrite Ha in Ho.
  destruct s as [w ac fs ob rc rg cg ini inp td ts ds]. simpl in *. subst. run_eff.
  rewrite bool_decide_true by done. simpl. destruct fs, rg; simpl; (split; simpl; try done).
  all: apply Forall_app; split; [done|by repeat constructor].
Qed.

(** *** A page that is closed *)

Lemma destroyed_state p s : observed s = active_ s → active_ s = Some p →
  let s' := exec (handle (DestroyPage p)) s in
  objects s' = (objects s) <| pages := delete p (pages (objects s)) |> ∧ active_ s' = None ∧
  initial_web_contents_ s' = initial_web_contents_ s ∧
  tasks s' = (tasks s ++ if captured_gone_ s then [CapturedGone] else [])%list.
Proof.
  intros Ho Ha. cbn [handle]. unfold tell, Resolver.WebContentsDestroyed, post, on_objects.
  destruct s as [w ac fs ob rc rg cg ini inp td ts ds]. simpl in *. subst. run_eff.
  rewrite bool_decide_true by done. simpl.
  destruct cg; simpl; rewrite bool_decide_true by done; simpl; by rewrite ?app_nil_r.
Qed.

Lemma capture_set q f s : observed s = active_ s →
  active_ (exec (SetActiveCapture (Some q) (Some f)) s) = Some q ∧
  active_fsid_ (exec (SetActiveCapture (Some q) (Some f)) s) = Some f.
Proof.
  intros Ho. unfold SetActiveCapture. rewrite exec_bind.
  assert (Hs0 : exec (on_objects (emit (Focus q))) s = s) by (by destruct s). rewrite Hs0, exec_bind.
  rewrite (proj1 (resolver_remembers q f s Ho)), exec_bind, exec_get. by destruct (_ && _).
Qed.
Lemma rearm_initial_captures q f t s : tracks t s → initial_web_contents_ s = Some q → sink_of q (objects s) = Some f →
  tearing_down_ s = false →
  active_ (exec RearmCaptureOnInitialTab s) = Some q ∧ active_fsid_ (exec RearmCaptureOnInitialTab s) = Some f.
Proof.
  intros Ht Hq Hf Htd. unfold RearmCaptureOnInitialTab. rewrite exec_get.
  destruct (tracks_captures _ _ Ht) as (src & cap & -> & _). rewrite Hq, Htd, Hf, exec_bind, exec_bind.
  apply capture_set. pose proof (tracks_observed _ _ Ht) as Ho. change (observed (exec (on_objects ?m) ?y)) with (observed y).
  change (active_ (exec (on_objects ?m) ?y)) with (active_ y). by destruct (from_option _ _ _).
Qed.

Lemma destroyed_more p s : tearing_down_ (exec (handle (DestroyPage p)) s) = tearing_down_ s.
Proof.
  cbn [handle]. unfold tell, Resolver.WebContentsDestroyed, post, on_objects.
  destruct s as [w ac fs ob rc rg cg ini inp td ts ds]. run_eff.
  destruct (bool_decide (ob = Some p)) eqn:Ho; simpl; [destruct cg|]; simpl; by rewrite Ho.
Qed.

Lemma run_tracks ins s t : all_enabled enabled handle ins s = true → tracks t s →
  tracks (aim t (events (run handle ins) s)) (exec (run handle ins) s).
Proof.
  revert s t. induction ins as [|i ins IH]; intros s t Hen Ht; [done|].
  cbn [all_enabled] in Hen. apply andb_true_iff in Hen as [Hi Hen].
  destruct (run_first handle i ins s) as [-> ->]. unfold aim. rewrite fold_left_app. apply IH; [done|]. by apply step_tracks.
Qed.

Lemma exec_one i s : exec (run handle [i]) s = exec (handle i) s.
Proof. unfold exec. by rewrite run_one. Qed.

(** Notices of a renderer that is gone run and leave the rest of the queue. *)
Lemma notices_run ts rest s : Forall (λ k, k = RendererGone) ts → tasks s = (ts ++ rest)%list →
  exec (run handle (replicate (length ts) TaskRuns)) s = s <| tasks := rest |>.
Proof.
  intros Hts. revert s. induction Hts as [|k ts -> _ IH]; intros s Hs; [by destruct s; simpl in *; subst|].
  cbn [length replicate]. rewrite (proj1 (run_first _ _ _ _)).
  assert (exec (handle TaskRuns) s = s <| tasks := (ts ++ rest)%list |>) as ->.
  { cbn [handle]. rewrite exec_get, Hs. cbn [app]. by rewrite exec_mod. }
  rewrite IH by done. by destruct s.
Qed.

(** A stuck page that is closed: the posted task has the capture on the initial
    tab. *)
Lemma close_recaptures p q f s t : tracks t s → stuck p s → initial_web_contents_ s = Some q → q ≠ p →
  sink_of q (objects s) = Some f → captured_gone_ s = true → tearing_down_ s = false →
  let ins := DestroyPage p :: replicate (length (tasks s)) TaskRuns ++ [TaskRuns] in
  active_fsid_ (exec (run handle ins) s) = Some f ∧ aim t (events (run handle ins) s) = Some f.
Proof.
  intros Ht Hs Hq Hpq Hf Hcg Htd ins.
  assert (Hen : all_enabled enabled handle ins s = true).
  { unfold ins. cbn [all_enabled enabled]. rewrite !bool_decide_true;
      [|by rewrite Hq; intros [= ->]|apply (tracks_live _ _ Ht), (stuck_active _ _ Hs)]. cbn [andb].
    generalize (exec (handle (DestroyPage p)) s). induction (length (tasks s)) as [|n IH]; intros x; [done|]. apply IH. }
  pose proof (run_tracks ins s t Hen Ht) as Ht'.
  enough (active_fsid_ (exec (run handle ins) s) = Some f) as Hx
    by (split; [exact Hx|by apply (tracks_sink _ _ Ht')]).
  destruct (destroyed_state p s) as (D1 & _ & D3 & D4);
    [by rewrite (stuck_observed _ _ Hs), (stuck_active _ _ Hs)|apply (stuck_active _ _ Hs)|].
  pose proof (destroyed_more p s) as D5.
  assert (H1 : tracks (aim t (events (handle (DestroyPage p)) s)) (exec (handle (DestroyPage p)) s)).
  { apply step_tracks; [|done]. by apply andb_true_iff in Hen as [Hen _]. }
  set (s1 := exec (handle (DestroyPage p)) s) in *. rewrite Hcg in D4.
  unfold ins. rewrite (proj1 (run_first _ _ _ _)). fold s1.
  rewrite (proj1 (run_app _ _ _ _)), (notices_run _ _ _ (stuck_tasks _ _ Hs) D4), exec_one.
  cbn [handle]. rewrite exec_get. cbn [tasks set_field]. simpl. rewrite exec_mod. cbn [run_task].
  destruct (rearm_initial_captures q f (aim t (events (handle (DestroyPage p)) s)) (s1 <| tasks := [] |>)) as [_ R2].
  - by destruct H1; split.
  - simpl. by rewrite D3.
  - simpl. rewrite D1. unfold sink_of, rwh_of, rwhv_of in *. simpl. by rewrite lookup_delete_ne.
  - simpl. by rewrite D5.
  - destruct s1. exact R2.
Qed.

(** C16. When the renderer of the captured page dies while no move of the capture
    is pending, its sink is forgotten at once; the replacement of the page's
    widget that a reload brings about then finds no capture to move.  So the
    capturer stays aimed at the dead sink whatever happens, short of another
    capture that is started and of the closing of the page itself, which brings
    the capture to the initial tab. *)
Theorem crashed_capture_stays p x ins s t : tracks t s → active_ s = Some p →
  Forall (λ k, k = RendererGone) (tasks s) → delayed s = [] → Forall (bystander p) ins →
  let s' := exec (handle (RendererDies p x)) s in
  let s2 := exec (run handle ins) s' in
  aim t (events (run handle ins) s') = t ∧ active_fsid_ s2 = None ∧
  (all_enabled enabled handle (RendererDies p x :: ins) s = true →
   ∀ q f, initial_web_contents_ s2 = Some q → q ≠ p → sink_of q (objects s2) = Some f →
   captured_gone_ s2 = true → tearing_down_ s2 = false →
   let closing := DestroyPage p :: replicate (length (tasks s2)) TaskRuns ++ [TaskRuns] in
   active_fsid_ (exec (run handle closing) s2) = Some f ∧ aim t (events (run handle (ins ++ closing)) s') = Some f).
Proof.
  intros Ht Ha Htk Hd Hins. cbv zeta.
  destruct (run_stays p ins _ Hins (crash_sticks p x s t Ht Ha Htk Hd)) as [Hs Hr].
  split; [apply Hr|]. split; [apply (stuck_sink _ _ Hs)|]. intros Hen q f Hq Hpq Hf Hcg Htd.
  pose proof (run_tracks _ _ _ Hen Ht) as Ht2. rewrite (proj1 (run_first handle (RendererDies p x) ins s)) in Ht2.
  assert (Ht' : tracks t (exec (run handle ins) (exec (handle (RendererDies p x)) s))).
  { destruct Ht2; split; try done. by rewrite (stuck_sink _ _ Hs). }
  destruct (close_recaptures p q f _ t Ht' Hs Hq Hpq Hf Hcg Htd) as [C1 C2]. split; [exact C1|].
  rewrite (proj2 (run_app _ _ _ _)). unfold aim in *. by rewrite fold_left_app, Hr.
Qed.

(** A pointer to a page that is gone is followed. *)
Lemma Apply_page_gone c spec p w : web_contents_ c = Some p → pages w !! p = None →
  same_spec (Clamp (resolve spec c)) (current_ c) = false → UseAfterFree (OPage p) ∈ events (Apply c spec) w.
Proof.
  intros Hp Hw Hs. unfold Apply. cbv zeta. rewrite Hs, Hp.
  do 2 (rewrite events_bind; apply elem_of_app; right).
  rewrite events_get, events_bind. apply elem_of_app; right. rewrite events_bind. apply elem_of_app; left.
  unfold on_page. rewrite on_events.
  rewrite host_stage, screen_stage, driver_stage. simpl. rewrite Hw. apply list_elem_of_singleton. done.
Qed.

Lemma asked_page_gone c spec p s : viewport (objects s) = Some c → web_contents_ c = Some p →
  pages (objects s) !! p = None → same_spec (Clamp (resolve spec c)) (current_ c) = false →
  To (UseAfterFree (OPage p)) ∈ events (handle (ViewportAsked spec)) s.
Proof.
  intros Hc Hp Hn Hs. cbn [handle]. rewrite events_bind, app_nil_r. unfold on_objects, events at 1. simpl.
  apply (list_elem_of_fmap_2 To). unfold SetViewport. rewrite events_get, Hc. by apply Apply_page_gone.
Qed.

(** When the captured page is closed the resolver forgets it, and the viewport
    controller does not: until the posted task has moved the capture to the
    initial tab, or for good when that tab has no frame sink then, a viewport
    that is asked for reaches the page that is gone. *)
Theorem closed_page_dangles p c spec s t : tracks t s → active_ s = Some p → initial_web_contents_ s ≠ Some p →
  tasks s = [] → viewport (objects s) = Some c → same_spec (Clamp (resolve spec c)) (current_ c) = false →
  let closed := exec (handle (DestroyPage p)) s in
  Resolver.GetActiveWebContents closed = None ∧
  To (UseAfterFree (OPage p)) ∈ events (handle (ViewportAsked spec)) closed ∧
  ((∀ q, initial_web_contents_ s = Some q → sink_of q (objects s) = None) →
    To (UseAfterFree (OPage p)) ∈ events (handle (ViewportAsked spec)) (exec (handle TaskRuns) closed)).
Proof.
  intros Ht Ha Hi Hts Hc Hs. cbv zeta.
  destruct (destroyed_state p s) as (D1 & D2 & D3 & D4); [by rewrite (tracks_observed _ _ Ht)|done|].
  pose proof (tracks_viewport _ _ Ht p Ha) as Hv. rewrite Hc in Hv. injection Hv as Hv.
  set (closed := exec (handle (DestroyPage p)) s) in *.
  assert (Hgone : ∀ s', objects s' = objects closed →
    To (UseAfterFree (OPage p)) ∈ events (handle (ViewportAsked spec)) s').
  { intros s' H. apply (asked_page_gone c); rewrite ?H, ?D1; try done. by apply lookup_delete_None; left. }
  split; [done|]. split; [by apply Hgone|]. intros Hno. apply Hgone.
  cbn [handle]. rewrite exec_get, D4, Hts. destruct (captured_gone_ s); [|done]. cbn [app].
  rewrite exec_mod. cbn [run_task]. unfold RearmCaptureOnInitialTab. rewrite exec_get. simpl. rewrite D3.
  destruct (the_source (objects closed)); [|done].
  destruct (initial_web_contents_ s) as [q|] eqn:Hq; [|done].
  destruct (tearing_down_ closed); [done|]. rewrite D1.
  assert (Hsink : sink_of q ((objects s) <| pages := delete p (pages (objects s)) |>) = None).
  { unfold sink_of, rwh_of, rwhv_of. simpl. rewrite lookup_delete_ne by congruence. by apply Hno. }
  by rewrite Hsink.
Qed.

(** *** A widget that is replaced *)

(** The windows of a view that was walked are all shown. *)
Lemma show_hidden_shows i ws : visible (show_hidden i ws).1 = true.
Proof.
  revert i. induction ws as [|b ws IH]; intros i; [done|]. cbn [show_hidden].
  specialize (IH (S i)). destruct (show_hidden (S i) ws) as [shown js]. simpl in IH.
  destruct (visible (b :: ws)) eqn:Hv; simpl; [|done].
  unfold visible in Hv. simpl in Hv. apply andb_true_iff in Hv as [-> _]. done.
Qed.

Lemma exec_emits {S E A} (f : A → E) (l : list A) (s : S) : exec (eseq ((λ a, emit (f a)) <$> l)) s = s.
Proof. induction l as [|a l IH]; [done|]. rewrite fmap_cons. cbn [eseq]. by rewrite exec_bind. Qed.
Lemma ShowChain_view walk last p x v : main_view x = Some v →
  main_view (exec (ShowChain walk last p) x) = Some (v <| windows := (walk (windows v)).1 |>).
Proof.
  intros Hv. unfold ShowChain. rewrite exec_get, Hv. destruct (walk (windows v)) as [ws js]. rewrite exec_bind.
  by rewrite exec_emits.
Qed.

(** The capture is moved to the page's sink and its view is made to show. *)
Lemma rearm_now p v h f n s t : tracks t s → active_ s = Some p → rwhv_of p (objects s) = Some v →
  widget_host v = Some h → frame_sink_id h = Some f →
  let s' := exec (RearmCaptureAfterRvhSwap n) s in
  active_ s' = Some p ∧ active_fsid_ s' = Some f ∧
  aim t (events (RearmCaptureAfterRvhSwap n) s) = Some f ∧
  IsShowing <$> rwhv_of p (objects s') = Some true.
Proof.
  intros Ht Ha Hv Hh Hf. cbv zeta.
  pose proof (rearm_swap_tracking n s t Ht) as Ht'.
  assert (Hsink : sink_of p (objects s) = Some f).
  { unfold sink_of, rwh_of. rewrite Hv. simpl. by rewrite Hh. }
  destruct (tracks_captures _ _ Ht) as (src & cap & Hsrc & _).
  unfold RearmCaptureAfterRvhSwap, Resolver.GetActiveWebContents in *.
  rewrite exec_get, events_get in *. rewrite Hsrc, Ha, Hsink, Hv in *. cbn [from_option] in *.
  set (show := ewhen _ _) in *.
  assert (Hs : IsShowing <$> rwhv_of p (objects (exec show s)) = Some true ∧ observed (exec show s) = observed s ∧
    active_ (exec show s) = active_ s).
  { unfold show. destruct (IsShowing v) eqn:Hsh; cbn [negb ewhen].
    - split; [|done]. change (exec (mret tt) s) with s. rewrite Hv. simpl. by rewrite Hsh.
    - split; [|done]. unfold on_objects, exec at 1. simpl. rewrite on_page_exec. unfold rwhv_of in *. simpl.
      destruct (pages (objects s) !! p) as [x|] eqn:Hx; [|done]. simpl in Hv.
      rewrite lookup_alter, decide_True, Hx by done. simpl. rewrite (ShowChain_view _ _ _ _ v Hv). simpl.
      f_equal. apply show_hidden_shows. }
  rewrite exec_bind, events_bind in *. destruct Hs as (S1 & S2 & S3). rewrite exec_bind, events_bind in *.
  set (start := on_objects (on_source (StartCapture f))) in *.
  set (s2 := exec start (exec show s)) in *.
  assert (Ho : observed s2 = active_ s2) by (change (observed (exec show s) = active_ (exec show s));
    rewrite S2, S3; apply (tracks_observed _ _ Ht)).
  destruct (resolver_remembers p f s2 Ho) as [He Hev]. rewrite He, Hev in *.
  split; [done|]. split; [done|]. split; [by apply (tracks_sink _ _ Ht')|].
  change (objects (remember p f s2)) with (objects s2). rewrite <-S1. unfold s2, start, on_objects, exec at 1. simpl.
  unfold on_source. rewrite on_exec. by destruct (the_source (objects (exec show s))).
Qed.

(** The page is not ready: the task is posted again with one attempt less. *)
Lemma rearm_later p n s t : tracks t s → active_ s = Some p → sink_of p (objects s) = None →
  exec (RearmCaptureAfterRvhSwap (S n)) s = s <| delayed := (delayed s ++ [n])%list |> ∧
  exec (RearmCaptureAfterRvhSwap 0) s = s.
Proof.
  intros Ht Ha Hs. destruct (tracks_captures _ _ Ht) as (src & cap & Hsrc & _).
  unfold RearmCaptureAfterRvhSwap, Resolver.GetActiveWebContents. rewrite !exec_get, Hsrc, Ha, Hs. done.
Qed.

(** The sink of a page, if it has one yet. *)
Definition sink_in (x : page) : option nat := (main_view x ≫= widget_host) ≫= frame_sink_id.
Lemma sink_of_page p w : sink_of p w = pages w !! p ≫= sink_in.
Proof. unfold sink_of, rwh_of, rwhv_of, sink_in. by destruct (pages w !! p). Qed.

(** The state while the widget of the captured page is awaited with [n] attempts left. *)
Record awaiting (p n : nat) (s : shell) : Prop := {
  aw_active : active_ s = Some p;
  aw_observed : observed s = Some p;
  aw_sink : active_fsid_ s = None;
  aw_tasks : tasks s = [];
  aw_delayed : delayed s = [n];
  aw_page : sink_of p (objects s) = None;
}.


(** These inputs keep the invariant whatever the state. *)
Definition renderer_input (i : input) : Prop :=
  match i with RvhSwapped _ _ | PageChanges _ _ | TaskRuns | DelayedRuns _ => True | _ => False end.
Lemma renderer_tracking i : renderer_input i → respects tracking (handle i).
Proof.
  intros Hi s t Ht. destruct i; try done.
  - by apply put_page_tracking.
  - enough (H : respects tracking (handle (RvhSwapped p x))) by (by apply H). cbn [handle].
    apply respects_bind; [apply _|apply put_page_tracking|intros _; apply tell_tracking, swap_told].
  - by apply step_tracks.
  - by apply step_tracks.
Qed.
Lemma renderer_run ins s t : Forall renderer_input ins → tracks t s →
  tracks (aim t (events (run handle ins) s)) (exec (run handle ins) s).
Proof.
  intros H. apply (respects_seq tracking). apply Forall_fmap. eapply Forall_impl; [exact H|]. apply renderer_tracking.
Qed.

Lemma swap_awaits p y s t : tracks t s → active_ s = Some p → is_Some (active_fsid_ s) →
  recapture_on_rvh_swap_ s = true → tasks s = [] → delayed s = [] → sink_in y = None →
  awaiting p 4 (exec (run handle [RvhSwapped p y; TaskRuns]) s).
Proof.
  intros Ht Ha [f0 Hf] Hr Hts Hd Hy.
  assert (H1 : ∃ w, pages w !! p = Some y ∧ exec (handle (RvhSwapped p y)) s =
    s <| objects := w |> <| active_fsid_ := None |> <| tasks := [Recapture 5] |>).
  { exists ((objects s) <| pages := <[p := y]> (pages (objects s)) |>). split.
    { simpl. by rewrite lookup_insert, decide_True. }
    pose proof (tracks_observed _ _ Ht) as Ho. rewrite Ha in Ho.
    cbn [handle]. unfold tell, Resolver.RenderViewHostChanged, post, put_page, on_objects.
    destruct s as [w ac fs ob rc rg cg ini inp td ts ds]. simpl in *. subst. run_eff.
    by rewrite bool_decide_true by done. }
  destruct H1 as (w & Hw & H1). destruct (run_first handle (RvhSwapped p y) [TaskRuns] s) as [-> _].
  rewrite H1, exec_one. set (s1 := s <| objects := w |> <| active_fsid_ := None |> <| tasks := [Recapture 5] |>).
  assert (Ht1 : tracks None s1).
  { pose proof (renderer_tracking (RvhSwapped p y) I s t Ht) as H. rewrite H1 in H. fold s1 in H.
    destruct H as [I1 I2 I3 I4 I5 I6 I7 I8]. by split. }
  cbn [handle]. rewrite exec_get. cbn [tasks s1 set_field]. rewrite exec_mod. cbn [run_task].
  set (s2 := s1 <| tasks := [] |>).
  assert (Ht2 : tracks None s2) by (destruct Ht1; by split).
  destruct (rearm_later p 4 s2 None Ht2) as [-> _]; [done|simpl; by rewrite sink_of_page, Hw|].
  split; simpl; try done; [by rewrite (tracks_observed _ _ Ht)|by rewrite Hd|by rewrite sink_of_page, Hw].
Qed.

Lemma wait_more p n s t : tracks t s → awaiting p (S n) s → awaiting p n (exec (handle (DelayedRuns 0)) s).
Proof.
  intros Ht [H1 H2 H3 H4 H5 H6]. cbn [handle]. rewrite exec_get, H5. cbn [lookup list_lookup]. rewrite exec_mod.
  assert (Ht' : tracks t (s <| delayed := [] |>)) by (destruct Ht; by split).
  rewrite H5. cbn [delete list_delete].
  destruct (rearm_later p n _ t Ht' H1 H6) as [-> _]. by split.
Qed.
Lemma wait_many p n k s t : tracks t s → awaiting p (k + n) s →
  awaiting p n (exec (run handle (replicate k (DelayedRuns 0))) s).
Proof.
  revert s t. induction k as [|k IH]; intros s t Ht Hs; [done|].
  destruct (run_first handle (DelayedRuns 0) (replicate k (DelayedRuns 0)) s) as [H _]. cbn [replicate]. rewrite H.
  eapply IH; [by apply (renderer_tracking (DelayedRuns 0) I s t Ht)|]. by eapply wait_more.
Qed.

(** When the widget of the captured page is replaced, the capturer is aimed at
    the new widget's sink as soon as a try finds it, within the first try and the
    five that follow: the first finding nothing, [k] more neither and the next
    the page ready, its view is made to show and captured. *)
Theorem swap_rearms p y x v h f k s t : tracks t s → active_ s = Some p → is_Some (active_fsid_ s) →
  recapture_on_rvh_swap_ s = true → tasks s = [] → delayed s = [] → sink_in y = None → (k ≤ 4)%nat →
  main_view x = Some v → widget_host v = Some h → frame_sink_id h = Some f →
  let m := run handle ([RvhSwapped p y; TaskRuns] ++ replicate k (DelayedRuns 0) ++ [PageChanges p x; DelayedRuns 0]) in
  active_ (exec m s) = Some p ∧ active_fsid_ (exec m s) = Some f ∧ aim t (events m s) = Some f ∧
  IsShowing <$> rwhv_of p (objects (exec m s)) = Some true.
Proof.
  intros Ht Ha Hf Hr Hts Hd Hy Hk Hx Hv Hh. cbv zeta.
  set (ins := ([RvhSwapped p y; TaskRuns] ++ replicate k (DelayedRuns 0) ++ [PageChanges p x; DelayedRuns 0])%list).
  assert (Hall : tracks (aim t (events (run handle ins) s)) (exec (run handle ins) s)).
  { apply renderer_run; [|done]. unfold ins. repeat (apply Forall_cons; split; [exact I|]).
    apply Forall_app. split; [by apply Forall_replicate|by repeat constructor]. }
  assert (Hfin : active_ (exec (run handle ins) s) = Some p ∧ active_fsid_ (exec (run handle ins) s) = Some f ∧
    IsShowing <$> rwhv_of p (objects (exec (run handle ins) s)) = Some true);
    [|destruct Hfin as (F1 & F2 & F3); split_and!; try done; by apply (tracks_sink _ _ Hall)].
  clear Hall. unfold ins. rewrite (proj1 (run_app handle [RvhSwapped p y; TaskRuns] _ s)).
  pose proof (swap_awaits p y s t Ht Ha Hf Hr Hts Hd Hy) as H1.
  assert (Ht1 := renderer_run [RvhSwapped p y; TaskRuns] s t ltac:(by repeat constructor) Ht).
  set (s1 := exec (run handle [RvhSwapped p y; TaskRuns]) s) in *.
  rewrite (proj1 (run_app handle (replicate k (DelayedRuns 0)) _ s1)).
  assert (H2 := wait_many p (4 - k) k s1 _ Ht1 ltac:(by replace (k + (4 - k))%nat with 4%nat by lia)).
  assert (Ht2 := renderer_run (replicate k (DelayedRuns 0)) s1 _ ltac:(by apply Forall_replicate) Ht1).
  set (s2 := exec (run handle (replicate k (DelayedRuns 0))) s1) in *.
  rewrite (proj1 (run_first handle (PageChanges p x) [DelayedRuns 0] s2)), exec_one.
  assert (Ht3 := renderer_tracking (PageChanges p x) I s2 _ Ht2).
  destruct H2 as [A1 A2 A3 A4 A5 A6].
  cbn [handle]. change (exec (put_page p x) s2) with
    (s2 <| objects := (objects s2) <| pages := <[p := x]> (pages (objects s2)) |> |>).
  rewrite exec_get. cbn [delayed set_field]. rewrite A5. cbn [lookup list_lookup]. rewrite exec_mod.
  match goal with |- context [exec (RearmCaptureAfterRvhSwap _) ?S0] => set (s3 := S0) end.
  assert (Ht4 : tracks None s3).
  { destruct Ht3 as [I1 I2 I3 I4 I5 I6 I7 I8]. split; try done. simpl. congruence. }
  destruct (rearm_now p v h f (4 - k) s3 None Ht4) as (F1 & F2 & _ & F4); try done.
  unfold rwhv_of, s3. simpl. by rewrite lookup_insert, decide_True.
Qed.

(** When none of the tries finds a sink the capture stays where it is, and the
    page's next navigation does not bring it back. *)
Theorem swap_gives_up p y ins s t : tracks t s → active_ s = Some p → is_Some (active_fsid_ s) →
  recapture_on_rvh_swap_ s = true → tasks s = [] → delayed s = [] → sink_in y = None → Forall (bystander p) ins →
  let s' := exec (run handle ([RvhSwapped p y; TaskRuns] ++ replicate 5 (DelayedRuns 0))) s in
  delayed s' = [] ∧ aim t (events (run handle ins) s') = t ∧ active_fsid_ (exec (run handle ins) s') = None.
Proof.
  intros Ht Ha Hf Hr Hts Hd Hy Hins. cbv zeta.
  rewrite (proj1 (run_app handle [RvhSwapped p y; TaskRuns] _ s)).
  pose proof (swap_awaits p y s t Ht Ha Hf Hr Hts Hd Hy) as H1.
  assert (Ht1 := renderer_run [RvhSwapped p y; TaskRuns] s t ltac:(by repeat constructor) Ht).
  set (s1 := exec (run handle [RvhSwapped p y; TaskRuns]) s) in *.
  change (replicate 5 (DelayedRuns 0)) with (replicate 4 (DelayedRuns 0) ++ [DelayedRuns 0])%list.
  rewrite (proj1 (run_app handle (replicate 4 (DelayedRuns 0)) _ s1)).
  assert (H2 := wait_many p 0 4 s1 _ Ht1 H1).
  assert (Ht2 := renderer_run (replicate 4 (DelayedRuns 0)) s1 _ ltac:(by apply Forall_replicate) Ht1).
  set (s2 := exec (run handle (replicate 4 (DelayedRuns 0))) s1) in *. rewrite exec_one.
  destruct H2 as [A1 A2 A3 A4 A5 A6].
  assert (Hlast : exec (handle (DelayedRuns 0)) s2 = s2 <| delayed := [] |>).
  { cbn [handle]. rewrite exec_get, A5. cbn [lookup list_lookup]. rewrite exec_mod, A5. cbn [delete list_delete].
    eapply (rearm_later p 0); [|done|done]. destruct Ht2. split; eauto. }
  rewrite Hlast. assert (Hs : stuck p (s2 <| delayed := [] |>)) by (split; simpl; try done; by rewrite A4).
  destruct (run_stays p ins _ Hins Hs) as [Hs' Hr']. split; [done|]. split; [apply Hr'|apply (stuck_sink _ _ Hs')].
Qed.
End invariant.

(** ** Witnesses *)

#[local] Existing Instance plain_display.
#[local] Existing Instance defaults.

(** The boot tab is captured, a popup is opened and captured, a viewport is asked for. *)
Definition sink_page (f : nat) : page := mkPage (Some (mkView (800, 600) [true; false] (Some (mkWidget f (Some f))))) None.
Definition blank_page : page := mkPage None None.
Definition at_boot : shell := boot 1 boot_page boot_driver 0 ClockRebase.initial.
Definition browsing : list input :=
  [CaptureStarted 1; CreatePage 2 (sink_page 22); CaptureStarted 2; ViewportAsked odd_request].
Definition browsed : shell := exec (run handle browsing) at_boot.
Definition browsed_trace : list event := events (run handle browsing) at_boot.
Lemma browsed_reachable : reachable enabled handle at_boot browsed browsed_trace.
Proof. apply run_reachable. vm_compute. reflexivity. Defined.
Lemma browsed_tracks : tracks (aim None browsed_trace) browsed.
Proof. eapply reachable_tracks. apply browsed_reachable. Defined.

Lemma captured_page_tracked_witness :
  Resolver.GetActiveWebContents browsed = Some 2%nat ∧ aim None browsed_trace = Some 22%nat.
Proof.
  destruct (captured_page_tracked 1 boot_page boot_driver 0 ClockRebase.initial browsed browsed_trace browsed_reachable)
    as [_ H].
  split; [vm_compute; reflexivity|apply H; vm_compute; reflexivity].
Defined.

Lemma viewport_layers_agree_witness :
  host (objects browsed) = Some (1000, 2560) ∧ layers (objects browsed).
Proof.
  split; [vm_compute; reflexivity|].
  exact (viewport_layers_agree 1 boot_page boot_driver 0 ClockRebase.initial browsed browsed_trace browsed_reachable).
Defined.

(** The renderer dies, the page is reloaded and its widget replaced. *)
Definition reload : list input := [TaskRuns; RvhSwapped 2 (sink_page 23); TaskRuns].
Lemma crashed_capture_stays_witness :
  let s := exec (handle (RendererDies 2 blank_page)) browsed in
  events (run handle reload) s = [OnCapturedRendererGone] ∧ active_fsid_ (exec (run handle reload) s) = None ∧
  active_fsid_ (exec (run handle [DestroyPage 2; TaskRuns]) (exec (run handle reload) s)) = Some 11%nat.
Proof.
  split; [vm_compute; reflexivity|].
  assert (H : Forall (λ k, k = RendererGone) (tasks browsed)) by (vm_compute; constructor).
  assert (Hb : Forall (bystander 2) reload) by (by repeat constructor).
  destruct (crashed_capture_stays 2 blank_page reload browsed _ browsed_tracks ltac:(vm_compute; reflexivity) H
    ltac:(vm_compute; reflexivity) Hb) as (_ & H1 & H2).
  split; [exact H1|]. refine (proj1 (H2 _ 1%nat 11%nat _ _ _ _ _)); first [vm_compute; reflexivity|discriminate].
Defined.

Lemma closed_page_dangles_witness :
  To (UseAfterFree (OPage 2)) ∈ events (handle (ViewportAsked (mkSpec (640, 480) float_one)))
    (exec (handle (DestroyPage 2)) browsed).
Proof.
  refine (proj1 (proj2 (closed_page_dangles 2 _ (mkSpec (640, 480) float_one) browsed _ browsed_tracks _ _ _ _ _)));
    [vm_compute; reflexivity|vm_compute; discriminate|vm_compute; reflexivity|vm_compute; reflexivity|vm_compute; reflexivity].
Defined.

Lemma swap_rearms_witness :
  active_fsid_ (exec (run handle ([RvhSwapped 2 blank_page; TaskRuns] ++ replicate 3 (DelayedRuns 0) ++
    [PageChanges 2 (sink_page 23); DelayedRuns 0])) browsed) = Some 23%nat.
Proof.
  refine (proj1 (proj2 (swap_rearms 2 blank_page (sink_page 23) _ _ 23 3 browsed _ browsed_tracks _ _ _ _ _ _ _ _ _ _)));
    [vm_compute; reflexivity|vm_compute; eexists; reflexivity|vm_compute; reflexivity|vm_compute; reflexivity|
     vm_compute; reflexivity|reflexivity|lia|reflexivity|reflexivity|reflexivity].
Defined.

Lemma swap_gives_up_witness :
  active_fsid_ (exec (run handle [RvhSwapped 2 (sink_page 23); TaskRuns])
    (exec (run handle ([RvhSwapped 2 blank_page; TaskRuns] ++ replicate 5 (DelayedRuns 0))) browsed)) = None.
Proof.
  refine (proj2 (proj2 (swap_gives_up 2 blank_page [RvhSwapped 2 (sink_page 23); TaskRuns] browsed _ browsed_tracks _ _ _ _ _ _ _)));
    [vm_compute; reflexivity|vm_compute; eexists; reflexivity|vm_compute; reflexivity|vm_compute; reflexivity|
     vm_compute; reflexivity|reflexivity|by repeat constructor].
Defined.
