(* ===== verification/EnvConfig.v ===== *)
(** * Environment configuration (capture/config/cb_env_config.{h,cc})

    The process's environment is an argument: an unset variable is [None]. *)

From Stdlib Require Import ZArith Lia Ascii String.
From stdpp Require Import base tactics strings list.
From S2P Require Import Prelude.

Abbreviation environment := (string → option string) (only parsing).

(** A null name reads nothing. *)
Definition RawEnv (env : environment) (name : option string) : option string :=
  match name with
  | None => None
  | Some n => match env n with Some (String c s) => Some (String c s) | _ => None end
  end.

Definition GetEnvOr (env : environment) (name fallback : option string) : string :=
  match RawEnv env name with
  | None => default EmptyString fallback
  | Some raw => raw
  end.

Definition GetEnv (env : environment) (name : option string) : option string :=
  match RawEnv env name with None => None | Some raw => Some raw end.

(** The letters are compared without their case, ASCII alone. *)
Definition lower (c : ascii) : ascii :=
  let n := nat_of_ascii c in
  if (65 <=? n)%nat && (n <=? 90)%nat then ascii_of_nat (n - 65 + 97) else c.
Fixpoint same_letters (v lit : string) : bool :=
  match v, lit with
  | EmptyString, EmptyString => true
  | String c v', String d lit' => if negb (Ascii.eqb (lower c) d) then false else same_letters v' lit'
  | _, _ => false
  end.
Definition eq_lit (v lit : string) : bool :=
  if negb (Nat.eqb (String.length v) (String.length lit)) then false else same_letters v lit.

Definition GetEnvBool (env : environment) (name : option string) (fallback : bool) : bool :=
  match RawEnv env name with
  | None => fallback
  | Some v => if eq_lit v "0" || eq_lit v "false" || eq_lit v "no" || eq_lit v "off" then false else true
  end.

(** A variable that is set to nothing is as one that is not set. *)
Definition same_env (env env' : environment) : Prop :=
  ∀ n, RawEnv env (Some n) = RawEnv env' (Some n).
Lemma set_to_nothing env name : same_env (λ n, if String.eqb n name then Some EmptyString else env n)
  (λ n, if String.eqb n name then None else env n).
Proof. intros n. simpl. by destruct (String.eqb n name). Qed.
Lemma readers_agree env env' name fallback b : same_env env env' →
  GetEnvOr env name fallback = GetEnvOr env' name fallback ∧
  GetEnv env name = GetEnv env' name ∧ GetEnvBool env name b = GetEnvBool env' name b.
Proof.
  intros H. unfold GetEnvOr, GetEnv, GetEnvBool.
  replace (RawEnv env name) with (RawEnv env' name) by (destruct name as [n|]; [symmetry; apply H|done]). done.
Qed.

(** The comparison is that of the lowered text. *)
Fixpoint lowered (s : string) : string :=
  match s with EmptyString => EmptyString | String c s' => String (lower c) (lowered s') end.
Lemma eq_lit_spec v lit : eq_lit v lit = true ↔ lowered v = lit.
Proof.
  unfold eq_lit. destruct (Nat.eqb_spec (String.length v) (String.length lit)) as [Hl|Hl]; simpl.
  - revert lit Hl. induction v as [|c v IH]; intros [|d lit] Hl; try done. simpl in *. injection Hl as Hl.
    destruct (Ascii.eqb_spec (lower c) d) as [->|Hd]; simpl.
    + rewrite IH by done. split; [by intros ->|by intros [= ->]].
    + split; [done|]. by intros [= ? _].
  - split; [done|]. intros <-. destruct Hl. by induction v; simpl; f_equal.
Qed.

(** Only the four spellings turn a variable that is set off. *)
Lemma bool_off env name b : GetEnvBool env name b = false ↔
  match GetEnv env name with
  | None => b = false
  | Some v => lowered v ∈ ["0"; "false"; "no"; "off"]%string
  end.
Proof.
  unfold GetEnvBool, GetEnv. destruct (RawEnv env name) as [v|]; [|done].
  rewrite !elem_of_cons, elem_of_nil. rewrite <-!eq_lit_spec.
  destruct (eq_lit v "0"), (eq_lit v "false"), (eq_lit v "no"), (eq_lit v "off"); simpl; naive_solver.
Qed.

Example spelled_off : GetEnvBool (λ _, Some "OFF"%string) (Some "X"%string) true = false.
Proof. reflexivity. Qed.
Example spelled_on : GetEnvBool (λ _, Some "enabled"%string) (Some "X"%string) false = true.
Proof. reflexivity. Qed.
