(* ===== verification/StatsRelay.v ===== *)
(** * Statistics relay and lifecycle beacons
      (capture/build-integration/cb_stats_relay.{h,cc})

    [CbMetricsSidecarClient] posts a body to the metrics sidecar and forgets it;
    [CbStatsRelay] posts the text frames of the statistics channel as they are;
    [CbWebrtcEventEmitter] posts a beacon for each turn in a session's life.  The
    members are called on any thread: [here] says whether a call is made on the
    HTTP sequence.  Times are in microseconds. *)

From Stdlib Require Import ZArith Lia Ascii String.
From stdpp Require Import base tactics strings gmap sets list.
From S2P Require Import Prelude Numbers Values EnvConfig.
Open Scope Z_scope.

Definition kSentinelOff : string := "off".
Definition kDefaultStatsSidecarUrl : string := "http://localhost:9100/stats-update".
Definition kDefaultWebrtcEventUrl : string := "http://localhost:9100/webrtc-event".

Definition ResolveStatsSidecarUrl (env : string → option string) : string :=
  GetEnvOr env (Some "CHROMELESS_METRICS_URL"%string) (Some kDefaultStatsSidecarUrl).
Definition ResolveWebrtcEventUrl (env : string → option string) : string :=
  GetEnvOr env (Some "CHROMELESS_WEBRTC_METRICS_URL"%string) (Some kDefaultWebrtcEventUrl).

Definition IEqualOff (s : string) : bool := String.eqb (lowered s) kSentinelOff.

Definition ShouldLogFailure (consecutive_failures : Z) : bool :=
  if consecutive_failures =? 1 then true
  else if (consecutive_failures <? 100) && (Z.rem consecutive_failures 10 =? 0) then true
  else if Z.rem consecutive_failures 100 =? 0 then true
  else false.

(** ** The client *)

Module Client.

(** [posted] are the bodies on their way to the HTTP sequence. *)
Record client := mkClient {
  disabled_ : bool;
  next_loader_id_ : Z;
  in_flight_ : gmap Z string;
  consecutive_failures_ : Z;
  success_count_ : Z;
  posted : list string;
}.
#[export] Instance eta_client : Eta client := λ c,
  mkClient (disabled_ c) (next_loader_id_ c) (in_flight_ c) (consecutive_failures_ c)
    (success_count_ c) (posted c).

Inductive event :=
| Download (id : Z) (body : string)
| StaleLoader (id : Z)
| Succeeded (id : Z)
| Failed (id code consecutive : Z) (logged : bool).
Abbreviation C := (eff client event).

Definition CbMetricsSidecarClient (url : string) : client :=
  mkClient (String.eqb url EmptyString || IEqualOff url) 0 ∅ 0 0 [].

Definition PostOnHttpSequence (body : string) : C unit :=
  c ← eget;
  let id := next_loader_id_ c in
  emod (λ c, c <| next_loader_id_ := id + 1 |> <| in_flight_ := <[id := body]> (in_flight_ c) |>);;
  emit (Download id body).

Definition PostFireAndForget (here : bool) (body : string) : C unit :=
  c ← eget;
  if disabled_ c then mret tt
  else if negb here then emod (λ c, c <| posted := (posted c ++ [body])%list |>)
  else PostOnHttpSequence body.

Definition RecordSuccess : C unit :=
  emod (λ c, c <| success_count_ := success_count_ c + 1 |>);;
  c ← eget;
  ewhen (0 <? consecutive_failures_ c) (emod (λ c, c <| consecutive_failures_ := 0 |>)).

(** The count of failures in a row, and whether this one is logged. *)
Definition RecordFailure (net_error_or_http_status : Z) : C (Z * bool) :=
  emod (λ c, c <| consecutive_failures_ := consecutive_failures_ c + 1 |>);;
  c ← eget;
  mret (consecutive_failures_ c, ShouldLogFailure (consecutive_failures_ c)).

(** [status] is the response's, when there are headers. *)
Definition OnLoadComplete (loader_id net_error : Z) (status : option Z) : C unit :=
  c ← eget;
  match in_flight_ c !! loader_id with
  | None => emit (StaleLoader loader_id)
  | Some _ =>
      let http_status := default 0 status in
      let ok := (net_error =? 0) && (200 <=? http_status) && (http_status <? 300) in
      (if ok
       then RecordSuccess;; emit (Succeeded loader_id)
       else
         let code := if negb (http_status =? 0) then http_status else net_error in
         r ← RecordFailure code;
         emit (Failed loader_id code r.1 r.2));;
      emod (λ c, c <| in_flight_ := delete loader_id (in_flight_ c) |>)
  end.

(** The next body reaches the HTTP sequence. *)
Definition RunPosted : C unit :=
  c ← eget;
  match posted c with
  | [] => mret tt
  | b :: bs => emod (λ c, c <| posted := bs |>);; PostOnHttpSequence b
  end.

Inductive input := Post (here : bool) (body : string) | PostedRuns | LoadDone (id net_error : Z) (status : option Z).
Definition handle (i : input) : C unit :=
  match i with
  | Post here b => PostFireAndForget here b
  | PostedRuns => RunPosted
  | LoadDone id e st => OnLoadComplete id e st
  end.

(** *** Each request is accounted for *)

Definition requested (e : event) : option (Z * string) :=
  match e with Download id b => Some (id, b) | _ => None end.
Definition completed (e : event) : option Z :=
  match e with Succeeded id | Failed id _ _ _ => Some id | _ => None end.

(** The loaders that were started are those in flight and those that completed,
    none twice; their ids are the numbers in order. *)
Record accounts (tr : list event) (c : client) : Prop := {
  acc_next : next_loader_id_ c = Z.of_nat (length (omap requested tr));
  acc_ids : (omap requested tr).*1 = seqZ 0 (next_loader_id_ c);
  acc_flight id : is_Some (in_flight_ c !! id) ↔ 0 ≤ id < next_loader_id_ c ∧ id ∉ omap completed tr;
  acc_done : NoDup (omap completed tr) ∧ Forall (λ id, 0 ≤ id < next_loader_id_ c) (omap completed tr);
  acc_off : disabled_ c = true → posted c = [] ∧ omap requested tr = [];
  acc_size : next_loader_id_ c = Z.of_nat (size (in_flight_ c)) + Z.of_nat (length (omap completed tr));
}.

Definition accounting (c : client) (es : list event) (c' : client) : Prop :=
  ∀ tr, accounts tr c → accounts (tr ++ es) c'.
#[local] Instance accounting_rel : TraceRel accounting.
Proof.
  split; [intros c tr; by rewrite app_nil_r|]. intros c1 c2 c3 es1 es2 H1 H2 tr Ht. rewrite app_assoc. by apply H2, H1.
Qed.

Lemma request_accounts body c : disabled_ c = false → accounting c [Download (next_loader_id_ c) body]
  (c <| next_loader_id_ := next_loader_id_ c + 1 |> <| in_flight_ := <[next_loader_id_ c := body]> (in_flight_ c) |>).
Proof.
  intros Hd tr [A1 A2 A3 [A4 A5] A6 A7]. split; simpl; rewrite ?omap_app; simpl; rewrite ?app_nil_r.
  - rewrite length_app, A1. simpl. lia.
  - rewrite fmap_app, A2, seqZ_app by lia. done.
  - intros id. rewrite lookup_insert. case_decide as H; [subst id|].
    + split; [|intros _; by eexists]. intros _. split; [lia|].
      intros Hin. rewrite Forall_forall in A5. specialize (A5 _ Hin). lia.
    + rewrite A3. split; intros [K1 K2]; (split; [lia|done]).
  - split; [done|]. eapply Forall_impl; [exact A5|]. simpl. lia.
  - congruence.
  - rewrite map_size_insert_None; [lia|]. apply eq_None_not_Some. intros [H _]%A3. lia.
Qed.

(** A change of the counts and of what is posted. *)
Lemma quiet_accounts c c' : disabled_ c = false → disabled_ c' = false →
  next_loader_id_ c' = next_loader_id_ c → in_flight_ c' = in_flight_ c → accounting c [] c'.
Proof.
  intros Hd Hd' Hn Hf tr [A1 A2 A3 A4 A5 A6]. rewrite app_nil_r. split; rewrite ?Hn, ?Hf; try done. congruence.
Qed.

Lemma complete_accounts id e c c' : completed e = Some id → requested e = None → is_Some (in_flight_ c !! id) →
  disabled_ c' = disabled_ c → posted c' = posted c → next_loader_id_ c' = next_loader_id_ c →
  in_flight_ c' = delete id (in_flight_ c) → accounting c [e] c'.
Proof.
  intros He Hr Hin Hd Hp Hn Hf tr [A1 A2 A3 [A4 A5] A6 A7]. pose proof (proj1 (A3 id) Hin) as [Hid Hnew].
  split; rewrite ?Hd, ?Hp, ?Hn, ?Hf, ?omap_app; simpl; rewrite ?He, ?Hr, ?app_nil_r; try done.
  - intros k. rewrite lookup_delete_is_Some, A3, elem_of_app, list_elem_of_singleton. naive_solver.
  - split; [|apply Forall_app; by rewrite Forall_singleton]. apply NoDup_app. split; [done|]. split; [|apply NoDup_singleton].
    intros k Hk ->%list_elem_of_singleton. done.
  - rewrite length_app. destruct Hin as [b Hb]. rewrite map_size_delete_Some by (by eexists). simpl.
    pose proof (map_size_ne_0_lookup_2 (in_flight_ c) id ltac:(by eexists)). lia.
Qed.

Lemma handle_accounts i c tr : accounts tr c → accounts (tr ++ events (handle i) c) (exec (handle i) c).
Proof.
  intros Ht. destruct i as [here b| |id e st]; cbn [handle].
  - unfold PostFireAndForget. rewrite events_get, exec_get. destruct (disabled_ c) eqn:Hd; [by rewrite app_nil_r|].
    destruct here; simpl; [revert tr Ht; by apply request_accounts|]. revert tr Ht. by apply quiet_accounts.
  - unfold RunPosted. rewrite events_get, exec_get. destruct (posted c) as [|b bs] eqn:Hp; [by rewrite app_nil_r|].
    assert (Hd : disabled_ c = false).
    { destruct (disabled_ c) eqn:H; [|done]. destruct (acc_off _ _ Ht H) as [Hno _]. congruence. }
    rewrite events_mod, exec_mod. set (c1 := c <| posted := bs |>).
    assert (H1 : accounts tr c1) by (rewrite <-(app_nil_r tr); by apply (quiet_accounts c c1)).
    by apply (request_accounts b c1).
  - unfold OnLoadComplete. rewrite events_get, exec_get. destruct (in_flight_ c !! id) as [b|] eqn:Hb.
    2: { destruct Ht as [A1 A2 A3 A4 A5 A6]. split; rewrite ?omap_app; simpl; by rewrite ?app_nil_r. }
    revert tr Ht. destruct c as [d n f cf sc po]. simpl in Hb. unfold RecordSuccess, RecordFailure. run_eff.
    destruct (_ && _ && _); simpl; [destruct (0 <? cf); simpl|];
      match goal with |- ∀ tr, _ → accounts (tr ++ ?es) ?c' =>
        change (accounting (mkClient d n f cf sc po) es c') end;
      (eapply complete_accounts; [reflexivity|reflexivity|by eexists|reflexivity..]).
Qed.

Lemma reachable_accounts url c tr : reachable (λ _ _, true) handle (CbMetricsSidecarClient url) c tr → accounts tr c.
Proof.
  apply (reachable_trace_inv _ handle _ (λ c tr, accounts tr c)).
  - split; simpl; try done; [|by split; constructor]. intros id. rewrite lookup_empty. split; [by intros []|lia].
  - intros i c' tr' _ Ht _. by apply handle_accounts.
Qed.

Definition keeps_switch (c : client) (_ : list event) (c' : client) : Prop := disabled_ c' = disabled_ c.
#[local] Instance keeps_switch_rel : TraceRel keeps_switch.
Proof. split; [done|]. unfold keeps_switch. congruence. Qed.
Lemma handle_keeps i : respects keeps_switch (handle i).
Proof.
  destruct i; cbn [handle]; unfold PostFireAndForget, PostOnHttpSequence, RunPosted, OnLoadComplete,
    RecordSuccess, RecordFailure;
  repeat first [apply respects_ret, _ | apply respects_get; intros ? | apply respects_when; [apply _|]
    | apply respects_bind; [apply _| |intros ?] | apply respects_mod; by intros ?
    | apply respects_emit; by intros ? | case_match ].
Qed.

(** Whatever is posted and however the requests end, the loaders have the numbers
    in order, each ends once at most, those that have not are the ones in flight,
    and the calls for others change nothing.  A client that is off starts none. *)
Theorem requests_accounted url c tr : reachable (λ _ _, true) handle (CbMetricsSidecarClient url) c tr →
  (omap requested tr).*1 = seqZ 0 (next_loader_id_ c) ∧
  NoDup (omap completed tr) ∧
  (∀ id, is_Some (in_flight_ c !! id) ↔ 0 ≤ id < next_loader_id_ c ∧ id ∉ omap completed tr) ∧
  Z.of_nat (length (omap requested tr)) = Z.of_nat (size (in_flight_ c)) + Z.of_nat (length (omap completed tr)) ∧
  (url = EmptyString ∨ lowered url = kSentinelOff → omap requested tr = []).
Proof.
  intros Hr. assert (Hd : disabled_ c = disabled_ (CbMetricsSidecarClient url)).
  { revert Hr. apply (reachable_inv _ _ _ (λ c, disabled_ c = disabled_ (CbMetricsSidecarClient url))); [done|].
    intros i c' Hi _. rewrite <-Hi. apply handle_keeps. }
  pose proof (reachable_accounts _ _ _ Hr) as [A1 A2 A3 [A4 A5] A6 A7].
  split_and!; try done; [lia|]. intros Hoff. apply A6. rewrite Hd. unfold CbMetricsSidecarClient. simpl.
  destruct Hoff as [->|Ho]; [done|]. unfold IEqualOff. rewrite Ho. by rewrite String.eqb_refl, orb_true_r.
Qed.
End Client.

(** ** The relay *)

(** [CbStatsRelay::OnMessage] *)
Definition OnMessage (here binary : bool) (data : string) : Client.C unit :=
  if binary then mret tt
  else
    c ← eget;
    if Client.disabled_ c then mret tt
    else Client.PostFireAndForget here data.

(** What is on its way, then what was asked of the service: the bodies in order. *)
Definition body_of (e : Client.event) : option string :=
  match e with Client.Download _ b => Some b | _ => None end.

(** The text frames are posted as they came, in order; a binary frame is not. *)
Theorem frames_forwarded frames c : Client.disabled_ c = false →
  let m := eseq ((λ f, OnMessage true f.1 f.2) <$> frames) in
  omap body_of (events m c) = (filter (λ f, f.1 = false) frames).*2.
Proof.
  cbv zeta. revert c. induction frames as [|[b d] frames IH]; intros c Hd; [done|].
  rewrite fmap_cons. cbn [eseq fst snd]. rewrite events_bind, omap_app.
  assert (Hk : Client.disabled_ (exec (OnMessage true b d) c) = false)
    by (destruct b, c; simpl in *; subst; reflexivity).
  rewrite IH by done. destruct b; [by rewrite filter_cons_False by done|].
  rewrite filter_cons_True by done. destruct c as [? ? ? ? ? ?]. simpl in Hd. by subst.
Qed.

(** ** The beacons *)

Definition hex_digit (n : Z) : ascii := ascii_of_nat (if n <? 10 then 48 + Z.to_nat n else 87 + Z.to_nat n).
Fixpoint hex (bytes : list Z) : string :=
  match bytes with
  | [] => EmptyString
  | b :: bs => String (hex_digit (Z.shiftr b 4)) (String (hex_digit (Z.land b 15)) (hex bs))
  end.
(** [bytes] are the sixteen random bytes. *)
Definition MintSessionId (bytes : list Z) : string := String "s" (hex bytes).

Definition kDebounce : Z := 3000000.

(** A debounce that was posted: the closure it wraps, when it is due, and what
    the closure was bound to. *)
Record debounce := mkDebounce { closure : nat; due : Z; trigger : string; has_probe : bool }.

Record emitter := mkEmitter {
  session_id_ : string;
  signaling_session_id_ : string;
  session_started_at_ : option Z;
  session_created_ : bool;
  first_dc_opened_seen_ : bool;
  ice_failed_debounce_ : option nat;     (* the closure that is not cancelled *)
  debounce_task_runner_ : bool;
  delayed : list debounce;
  next_closure : nat;
  clock : Z;
  client_ : Client.client;
}.
#[export] Instance eta_emitter : Eta emitter := λ e,
  mkEmitter (session_id_ e) (signaling_session_id_ e) (session_started_at_ e) (session_created_ e)
    (first_dc_opened_seen_ e) (ice_failed_debounce_ e) (debounce_task_runner_ e) (delayed e)
    (next_closure e) (clock e) (client_ e).

Inductive event :=
| Beacon (name : string) (attrs : DictValue)      (* a call of EmitInternal *)
| ToClient (e : Client.event).
Abbreviation M := (eff emitter event).

Definition kSessionCreated : string := "chromeless.webrtc.session_created".
Definition kSessionClosed : string := "chromeless.webrtc.session_closed".
Definition kIceConnected : string := "chromeless.webrtc.ice.connected".
Definition kIceFailed : string := "chromeless.webrtc.ice.failed".
Definition kDcOpened : string := "chromeless.webrtc.dc.opened".

Section emitter.
Context {J : JsonCodec}.

Definition on_client (m : Client.C unit) : M unit := λ e,
  (tt, e <| client_ := exec m (client_ e) |>, ToClient <$> events m (client_ e)).

Definition envelope (name : string) (attrs : DictValue) : Value :=
  VDict (Set_ "attrs" (VDict attrs) (Set_ "event" (VString name) [])).

Definition EmitInternal (here : bool) (name : string) (attrs : DictValue) : M unit :=
  emit (Beacon name attrs);;
  e ← eget;
  if Client.disabled_ (client_ e) then mret tt
  else
    match JSONWriter_Write (envelope name attrs) with
    | None => mret tt
    | Some body => on_client (Client.PostFireAndForget here body)
    end.

Definition CbWebrtcEventEmitter (bytes : list Z) (url : string) : emitter :=
  mkEmitter (MintSessionId bytes) EmptyString None false false None false [] 0 0
    (Client.CbMetricsSidecarClient url).

Definition SetSignalingSessionId (id : string) : M unit := emod (λ e, e <| signaling_session_id_ := id |>).
Definition SetDebounceTaskRunner (runner : bool) : M unit := emod (λ e, e <| debounce_task_runner_ := runner |>).

(** [TimeDelta::InMilliseconds], and the cast to [int]. *)
Definition in_milliseconds (delta : Z) : Z := Z.quot delta 1000.

Definition EmitSessionCreated (here : bool) (reason : string) : M unit :=
  e ← eget;
  if session_created_ e then mret tt
  else
    emod (λ e, e <| session_created_ := true |> <| session_started_at_ := Some (clock e) |>);;
    let attrs := Set_ "session_id" (VString (session_id_ e)) [] in
    let attrs := if negb (String.eqb (signaling_session_id_ e) EmptyString)
                 then Set_ "signaling_session" (VString (signaling_session_id_ e)) attrs else attrs in
    EmitInternal here kSessionCreated (Set_ "reason" (VString reason) attrs).

Definition EmitSessionClosed (here : bool) (reason : string) : M unit :=
  e ← eget;
  if negb (session_created_ e) then mret tt
  else
    let duration := match session_started_at_ e with
                    | Some t => VInt (wrap32 (in_milliseconds (clock e - t)))
                    | None => VNone
                    end in
    emod (λ e, e <| session_started_at_ := None |> <| session_created_ := false |>);;
    EmitInternal here kSessionClosed
      (Set_ "reason" (VString reason) (Set_ "session_id" (VString (session_id_ e)) (Set_ "duration_ms" duration []))).

Definition cancel_debounce : M unit := emod (λ e, e <| ice_failed_debounce_ := None |>).

Definition EmitIceConnected (here : bool) (ice_state : string) : M unit :=
  e ← eget;
  cancel_debounce;;
  EmitInternal here kIceConnected
    (Set_ "ice_state" (VString ice_state) (Set_ "session_id" (VString (session_id_ e)) [])).

(** [current] is what the probe answers when the closure runs. *)
Definition FireIceFailed (here : bool) (trigger_state : string) (probe : bool) (current : string) : M unit :=
  let final_state := if probe then current else "unknown"%string in
  if String.eqb final_state "connected" || String.eqb final_state "completed" then cancel_debounce
  else
    e ← eget;
    cancel_debounce;;
    EmitInternal here kIceFailed
      (Set_ "reason" (VString trigger_state) (Set_ "ice_state" (VString final_state)
        (Set_ "session_id" (VString (session_id_ e)) []))).

Definition EmitIceFailed (here : bool) (trigger_state : string) (probe : bool) (current : string)
    (debounce_now : bool) : M unit :=
  if debounce_now then FireIceFailed here trigger_state probe current
  else
    e ← eget;
    if bool_decide (is_Some (ice_failed_debounce_ e)) then mret tt
    else if debounce_task_runner_ e then
      emod (λ e, e <| ice_failed_debounce_ := Some (next_closure e) |>
                   <| delayed := (delayed e ++ [mkDebounce (next_closure e) (clock e + kDebounce) trigger_state probe])%list |>
                   <| next_closure := S (next_closure e) |>)
    else FireIceFailed here trigger_state probe current.

Definition EmitDcOpened (here : bool) (label : string) : M unit :=
  e ← eget;
  let attrs := Set_ "session_id" (VString (session_id_ e)) (Set_ "label" (VString label) []) in
  let attrs :=
    if negb (first_dc_opened_seen_ e)
    then Set_ "handshake_ms" (VInt match session_started_at_ e with
                                   | Some t => wrap32 (Z.max 0 (in_milliseconds (clock e - t)))
                                   | None => 0
                                   end) attrs
    else attrs in
  emod (λ e, e <| first_dc_opened_seen_ := true |>);;
  EmitInternal here kDcOpened attrs.

Definition MintNewSession (bytes : list Z) : M unit :=
  emod (λ e, e <| session_id_ := MintSessionId bytes |> <| session_started_at_ := None |>
               <| session_created_ := false |> <| first_dc_opened_seen_ := false |>);;
  cancel_debounce.

(** *** Executions *)

Inductive input :=
| SignalingId (id : string)
| Runner (set : bool)
| Created (reason : string)
| Closed (reason : string)
| Connected (ice_state : string)
| FailedState (trigger : string) (probe : bool) (current : string) (now : bool)
| DcOpened (label : string)
| Mint (bytes : list Z)
| DebounceFires (k : nat) (current : string)
| Http (i : Client.input).

(** A cancelable closure runs when it is the one that was not cancelled. *)
Definition react (here : bool) (i : input) : M unit :=
  match i with
  | SignalingId id => SetSignalingSessionId id
  | Runner b => SetDebounceTaskRunner b
  | Created r => EmitSessionCreated here r
  | Closed r => EmitSessionClosed here r
  | Connected st => EmitIceConnected here st
  | FailedState t p c now => EmitIceFailed here t p c now
  | DcOpened l => EmitDcOpened here l
  | Mint bytes => MintNewSession bytes
  | DebounceFires k current =>
      e ← eget;
      match delayed e !! k with
      | None => mret tt
      | Some d =>
          emod (λ e, e <| delayed := delete k (delayed e) |>);;
          ewhen (bool_decide (ice_failed_debounce_ e = Some (closure d)))
            (FireIceFailed here (trigger d) (has_probe d) current)
      end
  | Http i => on_client (Client.handle i)
  end.
Definition handle (i : Z * bool * input) : M unit :=
  emod (λ e, e <| clock := i.1.1 |>);; react i.1.2 i.2.

(** Time does not go back, and a posted task runs when it is due. *)
Definition enabled (i : Z * bool * input) (e : emitter) : bool :=
  (clock e <=? i.1.1) &&
  match i.2 with
  | DebounceFires k _ => match delayed e !! k with Some d => due d <=? i.1.1 | None => false end
  | _ => true
  end.
End emitter.

(** ** What the beacons say *)

Section beacons.
Context {J : JsonCodec}.

Definition on_session (n : string) : bool := String.eqb n kSessionCreated || String.eqb n kSessionClosed.

(** A turn of a session's life: it is reported created, it is reported closed,
    or the emitter forgets it for a new one. *)
Inductive life := Opened (id : option string) | Ended (id : option string) | Forgotten.
Definition life_of (e : event) : option life :=
  match e with
  | Beacon n attrs =>
      if String.eqb n kSessionCreated then Some (Opened (FindString "session_id" attrs))
      else if String.eqb n kSessionClosed then Some (Ended (FindString "session_id" attrs)) else None
  | ToClient _ => None
  end.

(** The turns of an execution. *)
Definition turns (i : Z * bool * input) (e : emitter) : list life :=
  (match i.2 with Mint _ => [Forgotten] | _ => [] end ++ omap life_of (events (handle i) e))%list.
Fixpoint lives (ins : list (Z * bool * input)) (e : emitter) : list life :=
  match ins with
  | [] => []
  | i :: ins' => (turns i e ++ lives ins' (exec (handle i) e))%list
  end.

(** The specification: a session has an id and is open or not, whatever happens
    to ICE, to the channels, to the requests and to the clock. *)
Definition life_step (i : input) (st : string * bool) : list life * (string * bool) :=
  match i, st.2 with
  | Created _, false => ([Opened (Some st.1)], (st.1, true))
  | Closed _, true => ([Ended (Some st.1)], (st.1, false))
  | Mint bytes, _ => ([Forgotten], (MintSessionId bytes, false))
  | _, _ => ([], st)
  end.
Fixpoint session_life (ins : list input) (st : string * bool) : list life :=
  match ins with
  | [] => []
  | i :: ins' => ((life_step i st).1 ++ session_life ins' (life_step i st).2)%list
  end.

(** A session is created when none is open, and closed under the id it was
    created with. *)
Fixpoint alternates (open : option string) (ls : list life) : bool :=
  match ls with
  | [] => true
  | Opened (Some id) :: ls' => bool_decide (open = None) && alternates (Some id) ls'
  | Ended (Some id) :: ls' => bool_decide (open = Some id) && alternates None ls'
  | Forgotten :: ls' => alternates None ls'
  | _ => false
  end.

Definition open_of (st : string * bool) : option string := if st.2 then Some st.1 else None.
Lemma session_life_alternates ins st : alternates (open_of st) (session_life ins st) = true.
Proof.
  revert st. induction ins as [|i ins IH]; intros [id open]; [done|]. cbn [session_life].
  destruct i, open; cbn; rewrite ?bool_decide_true by done; cbn;
    first [apply (IH (_, true))|apply (IH (_, false))].
Qed.

Definition life_state (e : emitter) : string * bool := (session_id_ e, session_created_ e).

(** What leaves the session alone. *)
Definition same_session (e : emitter) (es : list event) (e' : emitter) : Prop :=
  life_state e' = life_state e ∧ omap life_of es = [].
#[local] Instance same_session_rel : TraceRel same_session.
Proof.
  split; [done|]. intros e1 e2 e3 es1 es2 [H1 H2] [K1 K2]. split; [congruence|]. by rewrite omap_app, H2, K2.
Qed.

Lemma to_client_lifeless es : omap life_of (ToClient <$> es) = [].
Proof. by induction es. Qed.
Lemma client_same m : respects same_session (on_client m).
Proof. intros e. split; [done|]. apply to_client_lifeless. Qed.
(** A beacon, then the post. *)
Lemma EmitInternal_run here n attrs e : ∃ es c, EmitInternal here n attrs e = (tt, e <| client_ := c |>, Beacon n attrs :: (ToClient <$> es)).
Proof.
  unfold EmitInternal. destruct e as [si ss st cr fd ic dr dl nc ck cl]. run_eff.
  destruct (Client.disabled_ cl); [by exists [], cl|]. destruct (JSONWriter_Write _) as [body|]; [|by exists [], cl].
  unfold on_client. simpl. by eexists _, _.
Qed.
Lemma EmitInternal_life here n attrs e :
  life_state (exec (EmitInternal here n attrs) e) = life_state e ∧
  omap life_of (events (EmitInternal here n attrs) e) = omap life_of [Beacon n attrs].
Proof.
  destruct (EmitInternal_run here n attrs e) as (es & c & H). unfold exec, events. rewrite H. split; [done|].
  simpl. rewrite to_client_lifeless. by destruct (String.eqb n kSessionCreated), (String.eqb n kSessionClosed).
Qed.
Lemma EmitInternal_same here n attrs : on_session n = false → respects same_session (EmitInternal here n attrs).
Proof.
  intros [H1 H2]%orb_false_iff e. destruct (EmitInternal_life here n attrs e) as [H Hl].
  split; [exact H|]. unfold events in *. rewrite Hl. simpl. by rewrite H1, H2.
Qed.

Ltac same_tac :=
  repeat first
    [ apply respects_ret, _ | apply client_same | apply EmitInternal_same; reflexivity
    | apply respects_get; intros ?
    | apply respects_when; [apply _|]
    | apply respects_bind; [apply _| |intros ?]
    | apply respects_mod; intros ?; by split_and! | case_match ].

Definition steps_life (i : input) (m : M unit) : Prop := ∀ e,
  omap life_of (events m e) = match i with Mint _ => [] | _ => (life_step i (life_state e)).1 end ∧
  life_state (exec m e) = (life_step i (life_state e)).2.

Lemma Created_life here r : steps_life (Created r) (EmitSessionCreated here r).
Proof.
  intros e. unfold EmitSessionCreated, life_step, life_state. rewrite events_get, exec_get.
  destruct (session_created_ e) eqn:Hc; [split; [done|]; change (exec (mret tt) e) with e; by rewrite Hc|].
  cbv zeta. rewrite events_mod, exec_mod.
  match goal with |- context [EmitInternal here kSessionCreated ?a] => set (attrs := a) end.
  assert (Hid : FindString "session_id" attrs = Some (session_id_ e)).
  { unfold attrs, FindString. destruct (String.eqb (signaling_session_id_ e) EmptyString); simpl negb; cbv iota; find_set; done. }
  match goal with |- context [EmitInternal here kSessionCreated attrs] =>
    destruct (EmitInternal_life here kSessionCreated attrs
      (e <| session_created_ := true |> <| session_started_at_ := Some (clock e) |>)) as [H1 H2] end.
  rewrite H2. split; [by simpl; rewrite Hid|exact H1].
Qed.
Lemma Closed_life here r : steps_life (Closed r) (EmitSessionClosed here r).
Proof.
  intros e. unfold EmitSessionClosed, life_step, life_state. rewrite events_get, exec_get.
  destruct (session_created_ e) eqn:Hc; cbn [negb]; [|split; [done|]; change (exec (mret tt) e) with e; by rewrite Hc].
  cbv zeta. rewrite events_mod, exec_mod.
  match goal with |- context [EmitInternal here kSessionClosed ?a] => set (attrs := a) end.
  assert (Hid : FindString "session_id" attrs = Some (session_id_ e)) by (unfold attrs, FindString; find_set; done).
  destruct (EmitInternal_life here kSessionClosed attrs
    (e <| session_started_at_ := None |> <| session_created_ := false |>)) as [H1 H2].
  rewrite H2. split; [by simpl; rewrite Hid|exact H1].
Qed.

Lemma FireIceFailed_same here t p c : respects same_session (FireIceFailed here t p c).
Proof. unfold FireIceFailed, cancel_debounce. cbv zeta. same_tac. Qed.
Lemma react_life here i : steps_life i (react here i).
Proof.
  assert (Hs : ∀ i (m : M unit), (∀ st, life_step i st = ([], st)) → respects same_session m → steps_life i m).
  { intros i0 m Hi H e. destruct (H e) as [H1 ->]. rewrite Hi. split; [by destruct i0|exact H1]. }
  destruct i; cbn [react]; first [apply Created_life|apply Closed_life|by intros e|apply Hs; [by intros []|]].
  - unfold EmitIceConnected, cancel_debounce. same_tac.
  - unfold EmitIceFailed.
    repeat first [apply FireIceFailed_same|case_match|apply respects_get; intros ?]; same_tac.
  - unfold EmitDcOpened. cbv zeta. same_tac.
  - apply respects_get; intros e. case_match; [|apply respects_ret, _].
    apply respects_bind; [apply _|same_tac|intros _]. apply respects_when; [apply _|apply FireIceFailed_same].
  - apply client_same.
Qed.

(** C35. Whatever is called, in any order and at any time, the reports on sessions
    are those of the specification: [EmitSessionCreated] reports the session
    created when it is not open, [EmitSessionClosed] reports it closed when it
    is, [MintNewSession] forgets it for one with a new id, and nothing else
    says anything about it.  So created and closed alternate, under one id,
    unless the session was forgotten while it was open. *)
Theorem session_beacons_paired bytes url ins :
  let ls := lives ins (CbWebrtcEventEmitter bytes url) in
  ls = session_life ins.*2 (MintSessionId bytes, false) ∧ alternates None ls = true.
Proof.
  cbv zeta. assert (H : ∀ e, lives ins e = session_life ins.*2 (life_state e)).
  { induction ins as [|i ins IH]; intros e; [done|]. rewrite fmap_cons. cbn [lives session_life].
    destruct (react_life i.1.2 i.2 (e <| clock := i.1.1 |>)) as [H1 H2].
    assert (He : life_state (exec (handle i) e) = (life_step i.2 (life_state e)).2).
    { unfold handle. rewrite exec_mod. exact H2. }
    rewrite IH, He. f_equal. unfold turns, handle. rewrite events_mod, H1. by destruct i.2. }
  rewrite H. split; [done|]. apply (session_life_alternates _ (_, false)).
Qed.

(** ** A failure that is cancelled *)

Definition not_failed (e : event) : Prop := ∀ attrs, e ≠ Beacon kIceFailed attrs.
Definition no_debounce (e : emitter) : Prop := ice_failed_debounce_ e = None.
Definition reports_failure (i : Z * bool * input) : Prop := match i.2 with FailedState _ _ _ _ => True | _ => False end.

Lemma client_quiet m : respects (keeping no_debounce not_failed) (on_client m).
Proof. intros e He. split; [exact He|]. apply Forall_fmap, Forall_true. by intros x attrs. Qed.
Lemma EmitInternal_quiet here n attrs : n ≠ kIceFailed → respects (keeping no_debounce not_failed) (EmitInternal here n attrs).
Proof.
  intros Hn. unfold EmitInternal. apply respects_bind; [apply _|apply keeping_emit; by intros a [= ?]|intros _].
  apply respects_get. intros e. case_match; [apply respects_ret, _|]. case_match; [apply client_quiet|apply respects_ret, _].
Qed.
Ltac quiet_tac :=
  repeat first
    [ apply respects_ret, _ | apply client_quiet | apply EmitInternal_quiet; discriminate
    | apply respects_get; intros ? | apply respects_when; [apply _|]
    | apply respects_bind; [apply _| |intros ?] | apply keeping_mod; by intros ? | case_match ].

Lemma handle_quiet i : ¬ reports_failure i → respects (keeping no_debounce not_failed) (handle i).
Proof.
  destruct i as [[t here] i]. intros Hi. unfold handle. apply respects_bind; [apply _|apply keeping_mod; by intros ?|intros _].
  destruct i; cbn [react fst snd]; try by (destruct Hi).
  all: try (unfold SetSignalingSessionId, SetDebounceTaskRunner, EmitSessionCreated, EmitSessionClosed, EmitIceConnected,
    EmitDcOpened, MintNewSession, cancel_debounce; cbv zeta; quiet_tac; fail).
  apply keeping_get. intros e He. case_match; [|apply respects_ret, _].
  apply respects_bind; [apply _|apply keeping_mod; by intros ?|intros _].
  rewrite He. apply respects_ret, _.
Qed.

(** When ICE has connected, or a new session was minted, no failure that was
    reported before is posted any more, at whatever time its debounce runs out. *)
Theorem recovery_cancels_failure here t i ins e : (∃ st, i = Connected st) ∨ (∃ bytes, i = Mint bytes) →
  Forall (λ j, ¬ reports_failure j) ins →
  Forall not_failed (events (run handle ((t, here, i) :: ins)) e) ∧
  no_debounce (exec (run handle ((t, here, i) :: ins)) e).
Proof.
  intros Hi Hins.
  assert (Hfirst : ∀ h, Forall not_failed (events (handle (t, h, i)) e) ∧ no_debounce (exec (handle (t, h, i)) e)).
  { intros h. unfold handle. rewrite events_mod, exec_mod. cbn [fst snd].
    destruct Hi as [[st ->]|[bytes ->]]; cbn [react].
    - unfold EmitIceConnected, cancel_debounce. rewrite events_get, exec_get, events_mod, exec_mod.
      assert (H := EmitInternal_quiet h kIceConnected (Set_ "ice_state" (VString st)
        (Set_ "session_id" (VString (session_id_ (e <| clock := t |>))) [])) ltac:(discriminate)
        ((e <| clock := t |>) <| ice_failed_debounce_ := None |>) eq_refl).
      split; apply H.
    - split; [constructor|done]. }
  assert (Hrest : respects (keeping no_debounce not_failed) (run handle ins)).
  { apply respects_seq; [apply _|]. apply Forall_fmap. eapply Forall_impl; [exact Hins|]. intros j. apply handle_quiet. }
  destruct (run_first handle (t, here, i) ins e) as [_ ->], (run_first handle (t, here, i) ins e) as [-> _].
  split; [apply Forall_app; split; [apply Hfirst|]|]; apply Hrest, Hfirst.
Qed.

(** What reaches the sidecar is read back as the beacon. *)
Theorem beacon_roundtrip {L : JsonCodecLaws J} n attrs e : Client.disabled_ (client_ e) = false →
  json_ok (envelope n attrs) → ∃ id body, events (EmitInternal true n attrs) e =
    [Beacon n attrs; ToClient (Client.Download id body)] ∧ JSONReader_Read body = Some (envelope n attrs).
Proof.
  intros Hd Hok. destruct (json_roundtrip _ Hok) as (body & Hw & Hr).
  exists (Client.next_loader_id_ (client_ e)), body. split; [|done].
  unfold EmitInternal. destruct e as [si ss st cr fd ic dr dl nc ck cl]. simpl in Hd. run_eff. rewrite Hd, Hw.
  destruct cl. simpl in Hd. subst. reflexivity.
Qed.
End beacons.

(** ** Session ids *)

Definition hex_value (c : ascii) : Z :=
  let n := Z.of_nat (nat_of_ascii c) in if n <? 58 then n - 48 else n - 87.
Fixpoint unhex (s : string) : list Z :=
  match s with
  | String h (String l s') => (16 * hex_value h + hex_value l) :: unhex s'
  | _ => []
  end.
Lemma unhex_hex bytes : Forall (λ b, 0 ≤ b < 256) bytes → unhex (hex bytes) = bytes.
Proof.
  induction 1 as [|b bs Hb _ IH]; [done|]. cbn [hex unhex]. f_equal; [|exact IH].
  assert (H : List.forallb (λ k, let b := Z.of_nat k in
    bool_decide (16 * hex_value (hex_digit (Z.shiftr b 4)) + hex_value (hex_digit (Z.land b 15)) = b)) (List.seq 0 256) = true)
    by (vm_compute; reflexivity).
  rewrite List.forallb_forall in H. specialize (H (Z.to_nat b)). rewrite List.in_seq in H.
  cbv zeta in H. rewrite Z2Nat.id in H by lia. specialize (H ltac:(lia)). by apply bool_decide_eq_true_1 in H.
Qed.
(** Different random bytes make different ids. *)
Lemma session_ids_distinct b1 b2 : Forall (λ b, 0 ≤ b < 256) b1 → Forall (λ b, 0 ≤ b < 256) b2 →
  MintSessionId b1 = MintSessionId b2 → b1 = b2.
Proof. intros H1 H2 [= H]. by rewrite <-(unhex_hex b1), H, unhex_hex. Qed.

(** ** Witnesses *)

#[local] Existing Instance BitsCodec.bits_codec.
#[local] Existing Instance BitsCodec.bits_codec_laws.

Lemma frames_forwarded_witness :
  let c := Client.CbMetricsSidecarClient kDefaultStatsSidecarUrl in
  omap body_of (events (eseq ((λ f, OnMessage true f.1 f.2) <$> [(false, "a"%string); (true, "b"%string); (false, "c"%string)])) c)
    = ["a"; "c"]%string.
Proof. exact (frames_forwarded [(false, "a"%string); (true, "b"%string); (false, "c"%string)] (Client.CbMetricsSidecarClient kDefaultStatsSidecarUrl) eq_refl). Defined.

Definition posts : list Client.input :=
  [Client.Post true "a"; Client.Post false "b"; Client.PostedRuns; Client.LoadDone 0 0 (Some 204); Client.LoadDone 7 0 None]%string.
Lemma requests_accounted_witness :
  let c := exec (run Client.handle posts) (Client.CbMetricsSidecarClient kDefaultStatsSidecarUrl) in
  let tr := events (run Client.handle posts) (Client.CbMetricsSidecarClient kDefaultStatsSidecarUrl) in
  omap Client.completed tr = [0] ∧ (omap Client.requested tr).*1 = seqZ 0 (Client.next_loader_id_ c).
Proof.
  split; [vm_compute; reflexivity|].
  refine (proj1 (Client.requests_accounted kDefaultStatsSidecarUrl _ _ _)).
  apply run_reachable. vm_compute. reflexivity.
Defined.

(** A session that is created, closed and created again without a new id. *)
Definition reopening : list (Z * bool * input) :=
  [(0, true, Created "first"); (5000, true, Closed "bye"); (6000, true, Created "second")]%string.
Definition fresh_emitter : emitter := CbWebrtcEventEmitter [1; 255] kDefaultWebrtcEventUrl.
Definition reopened_ids : list (string * option string) :=
  omap (λ x, match x with Beacon n a => Some (n, FindString "session_id" a) | _ => None end)
    (events (run handle reopening) fresh_emitter).
Lemma session_reopens : reopened_ids =
  [(kSessionCreated, Some "s01ff"%string); (kSessionClosed, Some "s01ff"%string); (kSessionCreated, Some "s01ff"%string)].
Proof. vm_compute. reflexivity. Qed.

(** A session that is forgotten while it is open is not reported closed. *)
Lemma forgotten_not_closed :
  lives [(0, true, Created "first"); (1, true, Mint [2]); (2, true, Created "second")]%string fresh_emitter =
    [Opened (Some "s01ff"%string); Forgotten; Opened (Some "s02"%string)].
Proof. vm_compute. reflexivity. Qed.

Definition failing : emitter :=
  exec (run handle [(0, true, Runner true); (1, true, FailedState "failed" true "new" false)]%string) fresh_emitter.
Lemma recovery_cancels_failure_witness :
  length (delayed failing) = 1%nat ∧
  Forall not_failed (events (run handle [(2, true, Connected "connected"); (3000001, true, DebounceFires 0 "failed")]%string) failing).
Proof.
  split; [vm_compute; reflexivity|].
  refine (proj1 (recovery_cancels_failure true 2 (Connected "connected") [(3000001, true, DebounceFires 0 "failed"%string)] failing _ _)).
  - left. by eexists.
  - constructor; [intros []|constructor].
Defined.

Lemma beacon_roundtrip_witness :
  ∃ id body, events (EmitInternal true kDcOpened []) fresh_emitter =
    [Beacon kDcOpened []; ToClient (Client.Download id body)] ∧ JSONReader_Read body = Some (envelope kDcOpened []).
Proof. exact (beacon_roundtrip kDcOpened [] fresh_emitter eq_refl I). Defined.
