(* ===== verification/DevtoolsAgent.v ===== *)
(** * The DevTools agent (capture/build-integration/cb_devtools_agent.{h,cc})

    The delegate answers the [Cb.*] commands of a DevTools client and leaves
    every other command to Chromium.  Its callbacks go to main_parts: [shell] is
    [ActivePage]'s, the capture and the viewport; a native session and a shutdown
    are events here, with the answer of main_parts as an argument.  A response
    is the list of the tokens its CBOR encoder is given. *)

From Stdlib Require Import ZArith Lia Ascii String SpecFloat.
From stdpp Require Import base tactics strings sets gmap list.
From S2P Require Import Prelude Numbers Values WireEnvelope WsClient IceConfig FrameCapture Viewport ActivePage.
Open Scope Z_scope.

(** ** Responses *)

Inductive token :=
| MapStart | ArrayStart | Stop
| String8 (s : string) | True_ | False_ | Int32 (z : Z) | Double (d : spec_float).

Definition bool_token (b : bool) : token := if b then True_ else False_.

Definition EncodeStartResponse (frame_sink_id_str : string) : list token :=
  [MapStart; String8 "started"; True_; String8 "frameSinkId"; String8 frame_sink_id_str; Stop].
Definition EncodeStartNativeSessionResponse (session_id : string) : list token :=
  [MapStart; String8 "started"; True_; String8 "sessionId"; String8 session_id; Stop].

Record CbSessionHealth := mkHealth { renderer_crashes : Z; permanent_death_signaled : bool; video_track_ok : bool }.

Definition kInt32Max : Z := 2 ^ 31 - 1.
(** A 64-bit count that an [int32_t] cannot hold is reported as the largest. *)
Definition saturate (frames_received : Z) : Z := if kInt32Max <? frames_received then kInt32Max else frames_received.
Definition EncodeCaptureStatsResponse (frames_received : Z) (health : option CbSessionHealth) : list token :=
  ([MapStart; String8 "framesReceived"; Int32 (saturate frames_received)] ++
   match health with
   | Some h => [String8 "rendererCrashes"; Int32 (renderer_crashes h);
                String8 "permanentDeathSignaled"; bool_token (permanent_death_signaled h);
                String8 "videoTrackOk"; bool_token (video_track_ok h)]
   | None => []
   end ++ [Stop])%list.
(** The scale is encoded as a double, which holds any float. *)
Definition EncodeSetViewportResponse (size : Size) (scale : spec_float) : list token :=
  [MapStart; String8 "width"; Int32 size.1; String8 "height"; Int32 size.2;
   String8 "deviceScaleFactor"; Double scale; Stop].
Definition EncodeShutdownResponse : list token := [MapStart; String8 "shuttingDown"; True_; Stop].

(** The values a client reads back. *)
Inductive item := IBool (b : bool) | IString (s : string) | IInt (z : Z) | IDouble (d : spec_float) | IStrings (l : list string).
Fixpoint strings (ts : list token) : option (list string * list token) :=
  match ts with
  | Stop :: ts' => Some ([], ts')
  | String8 s :: ts' => match strings ts' with Some (l, rest) => Some (s :: l, rest) | None => None end
  | _ => None
  end.
Fixpoint fields (fuel : nat) (ts : list token) : option (list (string * item)) :=
  match fuel with
  | O => None
  | S fuel' =>
      match ts with
      | [Stop] => Some []
      | String8 k :: True_ :: ts' => cons (k, IBool true) <$> fields fuel' ts'
      | String8 k :: False_ :: ts' => cons (k, IBool false) <$> fields fuel' ts'
      | String8 k :: String8 s :: ts' => cons (k, IString s) <$> fields fuel' ts'
      | String8 k :: Int32 z :: ts' => cons (k, IInt z) <$> fields fuel' ts'
      | String8 k :: Double d :: ts' => cons (k, IDouble d) <$> fields fuel' ts'
      | String8 k :: ArrayStart :: ts' =>
          match strings ts' with
          | Some (l, rest) => cons (k, IStrings l) <$> fields fuel' rest
          | None => None
          end
      | _ => None
      end
  end.
Definition decode (ts : list token) : option (list (string * item)) :=
  match ts with MapStart :: ts' => fields (List.length ts) ts' | _ => None end.

(** ** The delegate *)

(** A browser context: one the delegate creates, or one of main_parts. *)
Inductive context := Own (n : nat) | Foreign (n : nat).
#[export] Instance context_eq_dec : EqDecision context.
Proof. solve_decision. Defined.

Record NativeSessionConfig := mkNative { ws : WsClientConfig; ice : IceConfig }.

Record delegate := mkDelegate {
  track_source_getter_ : bool;            (* callbacks that are wired *)
  active_capture_callback_ : bool;
  start_native_session_callback_ : bool;
  set_viewport_callback_ : bool;
  session_health_getter_ : bool;
  shutdown_callback_ : bool;
  video_sender_codecs_getter_ : bool;
  default_browser_context_ : option context;
  contexts_ : list context;
  web_contents_holders_ : list (nat * context);   (* a page and its browser context *)
  next_context : nat;
  next_page : nat;
  ui : shell;
}.
#[export] Instance eta_delegate : Eta delegate := λ s,
  mkDelegate (track_source_getter_ s) (active_capture_callback_ s) (start_native_session_callback_ s)
    (set_viewport_callback_ s) (session_health_getter_ s) (shutdown_callback_ s) (video_sender_codecs_getter_ s)
    (default_browser_context_ s) (contexts_ s) (web_contents_holders_ s) (next_context s) (next_page s) (ui s).

Inductive response := Result (call_id : Z) (payload : list token) | Error (call_id : Z) (message : string).
Inductive event :=
| NotHandled (method : option string)          (* left to Chromium's dispatcher *)
| Respond (r : response)
| StartNativeSession (cfg : NativeSessionConfig)
| PostQuit                                     (* the shutdown callback is posted *)
| ContextDestroyed (c : context)
| DisposeResult (success : bool) (message : string)
| FromUi (e : ActivePage.event).
Abbreviation M := (eff delegate event).

Definition on_ui {A} (m : ActivePage.M A) : M A := λ s,
  (result m (ui s), s <| ui := exec m (ui s) |>, FromUi <$> events m (ui s)).

(** A command: [method] is [None] when the message is no command. *)
Record Dispatchable := mkDispatchable { method : option string; call_id : Z; params : string }.

Definition kStartFrameSinkCaptureMethod : string := "Cb.startFrameSinkCapture".
Definition kStartNativeSessionMethod : string := "Cb.startNativeSession".
Definition kGetCaptureStatsMethod : string := "Cb.getCaptureStats".
Definition kSetViewportMethod : string := "Cb.setViewport".
Definition kShutdownMethod : string := "Cb.shutdown".
Definition kGetVideoSenderCapabilitiesMethod : string := "Cb.getVideoSenderCapabilities".

(** [crdtp]: the parameters of a command as JSON text, and the text of a sink's id. *)
Class Crdtp := { ConvertCBORToJSON : string → option string; sink_text : nat → string }.

(** What main_parts answers. *)
Record answers := mkAnswers {
  native_session : NativeSessionConfig → option string;   (* the message of an error *)
  session_health : CbSessionHealth;
  sender_codecs : list string;
}.

Section agent.
Context {D : DisplayLib} {U : Unspecified} {J : JsonCodec} {P : Crdtp}.

Definition fail {A} (message : string) : M (A + string) := mret (inr message).
Definition ok {A} (a : A) : M (A + string) := mret (inl a).

Definition HandleGetVideoSenderCapabilities (a : answers) : M (list token + string) :=
  s ← eget;
  if negb (video_sender_codecs_getter_ s) then fail "Cb.getVideoSenderCapabilities: no native PCF getter wired"
  else
    match sender_codecs a with
    | [] => fail "Cb.getVideoSenderCapabilities: native PCF unavailable or has no video sender codecs"
    | codecs =>
        ok ([MapStart; String8 "source"; String8 "native-peer-connection-factory"; String8 "codecs"; ArrayStart]
              ++ (String8 <$> codecs) ++ [Stop; Stop])%list
    end.

Definition has_track_source (s : delegate) : bool :=
  track_source_getter_ s && bool_decide (is_Some (the_source (objects (ui s)))).

Definition start_error_text (e : start_error) : string :=
  match e with
  | NoView => "Cb.startFrameSinkCapture: no RenderWidgetHostView"
  | NoWidget => "Cb.startFrameSinkCapture: no RenderWidgetHost"
  | NoSink => "Cb.startFrameSinkCapture: frame sink id not valid"
  end.

(** [target]: the agent host of the channel, and its page. *)
Definition HandleStartFrameSinkCapture (target : option (option nat)) : M (list token + string) :=
  s ← eget;
  if negb (has_track_source s)
  then fail "Cb.startFrameSinkCapture: no CloudBrowserFrameSinkVideoTrackSource resolved at dispatch (check CloudBrowserBrowserMainParts::cb_track_source() — it must be non-null by PreMainMessageLoopRun step 5b; getter wired via CloudBrowserContentBrowserClient::CreateDevToolsManagerDelegate)"
  else
    match target with
    | None => fail "Cb.startFrameSinkCapture: no DevToolsAgentHost on channel"
    | Some None => fail "Cb.startFrameSinkCapture: no active WebContents"
    | Some (Some page) =>
        r ← on_ui (StartOnPage (active_capture_callback_ s) page);
        match r with
        | inl e => fail (start_error_text e)
        | inr frame_sink_id => ok (EncodeStartResponse (sink_text frame_sink_id))
        end
    end.

Definition HandleGetCaptureStats (a : answers) : M (list token + string) :=
  s ← eget;
  match (if track_source_getter_ s then the_source (objects (ui s)) else None) with
  | None => fail "Cb.getCaptureStats: no CloudBrowserFrameSinkVideoTrackSource resolved at dispatch (check CloudBrowserBrowserMainParts::cb_track_source() — it must be non-null by PreMainMessageLoopRun step 5b; getter wired via CloudBrowserContentBrowserClient::CreateDevToolsManagerDelegate)"
  | Some source =>
      ok (EncodeCaptureStatsResponse (frames_received_from_capturer source)
            (if session_health_getter_ s then Some (session_health a) else None))
  end.

(** The parameters as a dictionary; [inl] tells that they could not be converted. *)
Definition read_params (params : string) : unit + option DictValue :=
  match (if (0 <? String.length params)%nat then ConvertCBORToJSON params else Some EmptyString) with
  | None => inl tt
  | Some json => inr (match JSONReader_Read json with Some (VDict d) => Some d | _ => None end)
  end.

Definition HandleSetViewport (params : string) : M (list token + string) :=
  s ← eget;
  if negb (set_viewport_callback_ s)
  then fail "Cb.setViewport: no set-viewport callback wired (check CloudBrowserContentBrowserClient::CreateDevToolsManagerDelegate against CloudBrowserBrowserMainParts::SetViewport)"
  else
    match read_params params with
    | inl _ => fail "Cb.setViewport: params CBOR→JSON conversion failed"
    | inr None => fail "Cb.setViewport: missing, malformed, or non-object params (required: width, height)"
    | inr (Some dict) =>
        match FindInt "width" dict, FindInt "height" dict with
        | Some width, Some height =>
            let scale := match FindDouble "deviceScaleFactor" dict with
                         | Some d => float_of_double d
                         | None => kViewportKeepCurrentScale
                         end in
            applied ← on_ui (on_objects (SetViewport (mkSpec (mkSize width height) scale)));
            ok (EncodeSetViewportResponse (size_dip applied) (device_scale_factor applied))
        | _, _ => fail "Cb.setViewport: both width and height are required (integers, DIP)"
        end
    end.

Definition kKnownParams : list string :=
  ["signalingHost"; "signalingSessionId"; "signalingToken"; "signalingUseTls"; "useTls"; "iceServers";
   "iceTransportPolicy"]%string.
Definition accepted : string := String.concat ", " kKnownParams.
Definition first_unknown (dict : DictValue) : option string :=
  head (filter (λ k, k ∉ kKnownParams) dict.*1).

(** The servers of the parameter: [None] when it is absent, [Some None] when
    none of them can be used. *)
Definition given_servers (dict : DictValue) : option (option (list IceServer)) :=
  match Find "iceServers" dict with
  | None => None
  | Some (VString as_string) => Some (ParseIceServersJson as_string)
  | Some ((VList _ | VDict _) as v) =>
      Some (match JSONWriter_Write v with
            | Some reserialised => ParseIceServersJson reserialised
            | None => None
            end)
  | Some _ => Some None
  end.

Definition requested_policy (dict : DictValue) : IceTransportsType :=
  match FindString "iceTransportPolicy" dict with Some policy => ParseIceTransportPolicy policy | None => kAll end.
(** [signalingUseTls] wins over [useTls]; without them it is TLS. *)
Definition requested_tls (dict : DictValue) : bool :=
  default (default true (FindBool "useTls" dict)) (FindBool "signalingUseTls" dict).
(** The servers are known: the session is brought up. *)
Definition BringUp (a : answers) (ws : WsClientConfig) (servers : list IceServer) (dict : DictValue) :
    M (list token + string) :=
  let cfg := mkNative ws (mkIceConfig servers (requested_policy dict) (SummariseIceServers servers)) in
  emit (StartNativeSession cfg);;
  match native_session a cfg with
  | Some message => fail ("Cb.startNativeSession: " ++ message)
  | None => ok (EncodeStartNativeSessionResponse (session_id ws))
  end.

Definition HandleStartNativeSession (a : answers) (params : string) : M (list token + string) :=
  s ← eget;
  if negb (start_native_session_callback_ s)
  then fail "Cb.startNativeSession: no start-native-session callback wired (check CloudBrowserContentBrowserClient::CreateDevToolsManagerDelegate against CloudBrowserBrowserMainParts::StartNativeSession)"
  else
    match read_params params with
    | inl _ => fail "Cb.startNativeSession: params CBOR→JSON conversion failed"
    | inr None => fail "Cb.startNativeSession: missing, malformed, or non-object params (required: signalingHost, signalingSessionId)"
    | inr (Some dict) =>
        match first_unknown dict with
        | Some key => fail ("Cb.startNativeSession: unknown param '" ++ key ++ "' (accepted: " ++ accepted ++
            "). Rejected rather than ignored — a silently dropped param surfaces later as an unrelated failure.")
        | None =>
            match FindString "signalingHost" dict, FindString "signalingSessionId" dict with
            | None, _ | Some EmptyString, _ => fail "Cb.startNativeSession: missing required param signalingHost"
            | _, None | _, Some EmptyString => fail "Cb.startNativeSession: missing required param signalingSessionId"
            | Some signaling_host, Some signaling_session_id =>
                let ws := mkWsClientConfig signaling_host signaling_session_id
                  (default EmptyString (FindString "signalingToken" dict))
                  (requested_tls dict) in
                match given_servers dict with
                | Some None => fail "Cb.startNativeSession: iceServers was supplied but yielded no usable servers (expected a JSON array of {urls,username,credential}, an object with an `iceServers` array, or a JSON-encoded string of either). Refusing to silently fall back to public STUN."
                | given => BringUp a ws (default BuildDefaultIceServers (mjoin given)) dict
                end
            end
        end
    end.

Definition HandleShutdown : M (list token + string) :=
  s ← eget;
  if negb (shutdown_callback_ s)
  then fail "Cb.shutdown: no shutdown callback wired (check CloudBrowserContentBrowserClient::CreateDevToolsManagerDelegate against CloudBrowserBrowserMainParts::Shutdown)"
  else emit PostQuit;; ok EncodeShutdownResponse.

(** A payload that is empty is an error. *)
Definition respond (call_id : Z) (r : list token + string) : M unit :=
  match r with
  | inl (t :: ts) => emit (Respond (Result call_id (t :: ts)))
  | inl [] => emit (Respond (Error call_id EmptyString))
  | inr message => emit (Respond (Error call_id message))
  end.

Definition HandleCommand (a : answers) (target : option (option nat)) (dispatchable : Dispatchable) : M unit :=
  match method dispatchable with
  | None => emit (NotHandled None)
  | Some m =>
      let named k := String.eqb m k in
      if negb (named kStartFrameSinkCaptureMethod) && negb (named kStartNativeSessionMethod) &&
         negb (named kGetCaptureStatsMethod) && negb (named kSetViewportMethod) && negb (named kShutdownMethod) &&
         negb (named kGetVideoSenderCapabilitiesMethod)
      then emit (NotHandled (Some m))
      else
        r ← (if named kStartFrameSinkCaptureMethod then HandleStartFrameSinkCapture target
             else if named kStartNativeSessionMethod then HandleStartNativeSession a (params dispatchable)
             else if named kSetViewportMethod then HandleSetViewport (params dispatchable)
             else if named kGetCaptureStatsMethod then HandleGetCaptureStats a
             else if named kGetVideoSenderCapabilitiesMethod then HandleGetVideoSenderCapabilities a
             else HandleShutdown);
        respond (call_id dispatchable) r
  end.

(** ** Browser contexts and targets *)

Definition CreateBrowserContext : M context :=
  s ← eget;
  let raw := Own (next_context s) in
  emod (λ s, s <| contexts_ := (contexts_ s ++ [raw])%list |> <| next_context := S (next_context s) |>);;
  mret raw.

Definition GetBrowserContexts (s : delegate) : list context := contexts_ s.
Definition GetDefaultBrowserContext (s : delegate) : option context := default_browser_context_ s.
Definition SetDefaultBrowserContext (c : option context) : M unit :=
  emod (λ s, s <| default_browser_context_ := c |>).

(** Erasing a holder destroys its page. *)
Definition destroy_pages (pages : list nat) : M unit :=
  eseq ((λ p, on_ui (ActivePage.handle (DestroyPage p))) <$> pages).

Definition DisposeBrowserContext (c : context) : M unit :=
  s ← eget;
  if bool_decide (default_browser_context_ s = Some c)
  then emit (DisposeResult false "Default browser context cannot be disposed")
  else if bool_decide (c ∈ contexts_ s) then
    destroy_pages (filter (λ h, h.2 = c) (web_contents_holders_ s)).*1;;
    emod (λ s, s <| web_contents_holders_ := filter (λ h, h.2 ≠ c) (web_contents_holders_ s) |>);;
    emod (λ s, s <| contexts_ := filter (λ k, k ≠ c) (contexts_ s) |>);;
    emit (ContextDestroyed c);;
    emit (DisposeResult true EmptyString)
  else emit (DisposeResult false "Browser context not found").

(** [created] is the page WebContents::Create makes, if it makes one; its number
    and its context are the result. *)
Definition CreateNewTarget (created : option page) : M (option (nat * context)) :=
  s ← eget;
  match (match last (contexts_ s) with Some c => Some c | None => default_browser_context_ s end) with
  | None => mret None
  | Some browser_context =>
      match created with
      | None => mret None
      | Some x =>
          let p := next_page s in
          emod (λ s, s <| next_page := S p |>);;
          on_ui (ActivePage.handle (CreatePage p x));;
          on_ui (on_objects (emit (WasShown p);; emit (Focus p)));;
          emod (λ s, s <| web_contents_holders_ := (web_contents_holders_ s ++ [(p, browser_context)])%list |>);;
          mret (Some (p, browser_context))
      end
  end.
End agent.

(** ** Every command is answered once *)

Section answers.
Context {D : DisplayLib} {U : Unspecified} {J : JsonCodec} {P : Crdtp}.

Definition no_response (e : event) : Prop := match e with Respond _ | NotHandled _ => False | _ => True end.

(** What a handler may answer: a payload that can be read, or a message. *)
Definition answered (r : list token + string) : Prop :=
  match r with
  | inl ts => is_Some (decode ts)
  | inr message => message ≠ EmptyString
  end.

Definition handles (m : M (list token + string)) : Prop :=
  ∀ s, Forall no_response (events m s) ∧ answered (result m s).

Lemma handles_fail message : message ≠ EmptyString → handles (fail message).
Proof. intros H s. by split; [constructor|]. Qed.
Lemma handles_ok ts : is_Some (decode ts) → handles (ok ts).
Proof. intros H s. by split; [constructor|]. Qed.
Lemma handles_get f : (∀ s, handles (f s)) → handles (eget ≫= f).
Proof. intros H s. rewrite events_get, result_bind. apply H. Qed.
Lemma handles_bind {A} (m : M A) f : (∀ s, Forall no_response (events m s)) → (∀ a, handles (f a)) → handles (m ≫= f).
Proof.
  intros Hm H s. rewrite events_bind, result_bind. split; [|apply H]. apply Forall_app. split; [apply Hm|apply H].
Qed.
Lemma on_ui_silent {A} (m : ActivePage.M A) s : Forall no_response (events (on_ui m) s).
Proof. apply Forall_fmap, Forall_true. done. Qed.

Lemma strings_list l rest : strings ((String8 <$> l) ++ Stop :: rest) = Some (l, rest).
Proof. induction l as [|s l IH]; [done|]. rewrite fmap_cons. cbn [app strings]. by rewrite IH. Qed.

(** *** Responses are read back *)

Lemma decode_stats n health : decode (EncodeCaptureStatsResponse n health) =
  Some (("framesReceived", IInt (saturate n)) ::
    match health with
    | Some h => [("rendererCrashes", IInt (renderer_crashes h)); ("permanentDeathSignaled", IBool (permanent_death_signaled h));
                 ("videoTrackOk", IBool (video_track_ok h))]
    | None => []
    end)%string.
Proof. destruct health as [[c [] []]|]; reflexivity. Qed.
Lemma decode_codecs codecs :
  decode ([MapStart; String8 "source"; String8 "native-peer-connection-factory"; String8 "codecs"; ArrayStart]
            ++ (String8 <$> codecs) ++ [Stop; Stop]) =
  Some [("source", IString "native-peer-connection-factory"); ("codecs", IStrings codecs)]%string.
Proof.
  cbn [app decode List.length fields]. rewrite strings_list. by destruct codecs.
Qed.
Lemma decode_viewport size scale : decode (EncodeSetViewportResponse size scale) =
  Some [("width", IInt size.1); ("height", IInt size.2); ("deviceScaleFactor", IDouble scale)]%string.
Proof. reflexivity. Qed.

(** A count is exact as long as an [int32_t] holds it. *)
Lemma saturate_spec n : 0 ≤ n → 0 ≤ saturate n ≤ kInt32Max ∧ (n ≤ kInt32Max → saturate n = n) ∧
  (kInt32Max < n → saturate n = kInt32Max).
Proof. unfold saturate. destruct (Z.ltb_spec kInt32Max n); unfold kInt32Max in *; lia. Qed.

(** *** The handlers *)

Ltac answer_tac :=
  repeat first
    [ apply handles_fail; discriminate
    | apply handles_get; intros ?
    | apply handles_ok; eexists; reflexivity
    | apply handles_bind; [by intros ?; first [apply on_ui_silent|repeat constructor]|intros ?]
    | case_match ].
Lemma codecs_handled a : handles (HandleGetVideoSenderCapabilities a).
Proof.
  unfold HandleGetVideoSenderCapabilities. apply handles_get. intros s. case_match; [by apply handles_fail|].
  destruct (sender_codecs a) as [|c cs]; [by apply handles_fail|]. apply handles_ok. rewrite decode_codecs. by eexists.
Qed.
Lemma start_handled target : handles (HandleStartFrameSinkCapture target).
Proof. unfold HandleStartFrameSinkCapture. answer_tac; by apply handles_fail; destruct s0. Qed.
Lemma stats_handled a : handles (HandleGetCaptureStats a).
Proof.
  unfold HandleGetCaptureStats. apply handles_get. intros s. case_match; [|by apply handles_fail].
  apply handles_ok. rewrite decode_stats. by eexists.
Qed.
Lemma viewport_handled ps : handles (HandleSetViewport ps).
Proof. unfold HandleSetViewport. cbv zeta. answer_tac. Qed.
Lemma native_handled a ps : handles (HandleStartNativeSession a ps).
Proof. unfold HandleStartNativeSession, BringUp. cbv zeta. answer_tac. Qed.
Lemma shutdown_handled : handles HandleShutdown.
Proof. unfold HandleShutdown. answer_tac. Qed.

Definition kMethods : list string :=
  [kStartFrameSinkCaptureMethod; kStartNativeSessionMethod; kGetCaptureStatsMethod; kSetViewportMethod;
   kShutdownMethod; kGetVideoSenderCapabilitiesMethod].
Definition ours (d : Dispatchable) : bool :=
  match method d with Some m => bool_decide (m ∈ kMethods) | None => false end.

Lemma dispatch_ours m :
  negb (String.eqb m kStartFrameSinkCaptureMethod) && negb (String.eqb m kStartNativeSessionMethod) &&
  negb (String.eqb m kGetCaptureStatsMethod) && negb (String.eqb m kSetViewportMethod) &&
  negb (String.eqb m kShutdownMethod) && negb (String.eqb m kGetVideoSenderCapabilitiesMethod) =
  negb (bool_decide (m ∈ kMethods)).
Proof.
  unfold kMethods.
  destruct (String.eqb_spec m kStartFrameSinkCaptureMethod), (String.eqb_spec m kStartNativeSessionMethod),
    (String.eqb_spec m kGetCaptureStatsMethod), (String.eqb_spec m kSetViewportMethod),
    (String.eqb_spec m kShutdownMethod), (String.eqb_spec m kGetVideoSenderCapabilitiesMethod); cbn [negb andb];
    symmetry; first [rewrite bool_decide_true; [done|subst; set_solver] | rewrite bool_decide_false; [done|set_solver]].
Qed.

(** The response to a command: its id, and a payload that can be read or a
    message that says something. *)
Definition response_for (id : Z) (r : response) : Prop :=
  match r with
  | Result k ts => k = id ∧ is_Some (decode ts)
  | Error k message => k = id ∧ message ≠ EmptyString
  end.

Lemma respond_answered id r s : answered r → ∃ x, events (respond id r) s = [Respond x] ∧ response_for id x.
Proof.
  destruct r as [[|t ts]|message]; intros Hr; [by destruct Hr|..]; (eexists; split; [reflexivity|done]).
Qed.

(** C17. A command of the delegate's own is answered exactly once, last, under its own
    call id, by a payload that can be read back or by an error that says what is
    wrong; any other message is handed on untouched and changes nothing. *)
Theorem command_answered_once a target d s :
  if ours d
  then ∃ es r, events (HandleCommand a target d) s = (es ++ [Respond r])%list ∧ Forall no_response es ∧
         response_for (call_id d) r
  else HandleCommand a target d s = (tt, s, [NotHandled (method d)]).
Proof.
  unfold ours, HandleCommand. destruct (method d) as [m|]; [|done]. cbv zeta. rewrite dispatch_ours.
  destruct (bool_decide (m ∈ kMethods)); [|done]. cbn [negb].
  match goal with |- context [events (?x ≫= _) _] => assert (Hh : handles x); [|revert Hh; generalize x] end.
  { repeat (case_match; first [apply start_handled|apply native_handled|apply viewport_handled|apply stats_handled|
      apply codecs_handled|apply shutdown_handled|idtac]). }
  intros h Hh. rewrite events_bind. destruct (Hh s) as [He Hr].
  destruct (respond_answered (call_id d) _ (exec h s) Hr) as (x & -> & Hx). eauto.
Qed.
End answers.

(** ** The configuration of a native session *)

Section native.
Context {D : DisplayLib} {U : Unspecified} {J : JsonCodec} {P : Crdtp}.

(** The configuration a dictionary asks for. *)
Definition config_for (dict : DictValue) (cfg : NativeSessionConfig) : Prop :=
  Forall (λ k, k ∈ kKnownParams) dict.*1 ∧
  FindString "signalingHost" dict = Some (WsClient.host (ws cfg)) ∧ WsClient.host (ws cfg) ≠ EmptyString ∧
  FindString "signalingSessionId" dict = Some (session_id (ws cfg)) ∧ session_id (ws cfg) ≠ EmptyString ∧
  servers (ice cfg) ≠ [] ∧ Forall usable (servers (ice cfg)) ∧
  summary (ice cfg) = SummariseIceServers (servers (ice cfg)) ∧
  match Find "iceServers" dict with
  | None => servers (ice cfg) = BuildDefaultIceServers
  | Some _ => given_servers dict = Some (Some (servers (ice cfg)))
  end.

Lemma first_unknown_none dict : first_unknown dict = None → Forall (λ k, k ∈ kKnownParams) dict.*1.
Proof.
  unfold first_unknown. intros H. apply Forall_forall. intros k Hk.
  destruct (decide (k ∈ kKnownParams)) as [Hin|Hn]; [done|].
  assert (Hf : k ∈ filter (λ k, k ∉ kKnownParams) dict.*1) by (by apply list_elem_of_filter).
  destruct (filter _ _); [by apply not_elem_of_nil in Hf|done].
Qed.

Lemma given_usable dict l : given_servers dict = Some (Some l) → l ≠ [] ∧ Forall usable l.
Proof.
  unfold given_servers. destruct (Find "iceServers" dict) as [[| | | |text|vs|kvs]|]; try discriminate.
  - intros [= H]. by eapply ParseIceServersJson_usable.
  - destruct (JSONWriter_Write _) as [text|]; [|done]. intros [= H]. by eapply ParseIceServersJson_usable.
  - destruct (JSONWriter_Write _) as [text|]; [|done]. intros [= H]. by eapply ParseIceServersJson_usable.
Qed.
Lemma given_absent dict : given_servers dict = None → Find "iceServers" dict = None.
Proof. unfold given_servers. by destruct (Find "iceServers" dict) as [[]|]. Qed.

Lemma native_events a ps s cfg : StartNativeSession cfg ∈ events (HandleStartNativeSession a ps) s →
  ∃ dict, read_params ps = inr (Some dict) ∧ config_for dict cfg ∧
    events (HandleStartNativeSession a ps) s = [StartNativeSession cfg] ∧
    use_tls (ws cfg) = requested_tls dict ∧ transport_policy (ice cfg) = requested_policy dict ∧
    servers (ice cfg) = default BuildDefaultIceServers (mjoin (given_servers dict)).
Proof.
  unfold HandleStartNativeSession. cbv zeta. rewrite events_get. intros Hin.
  destruct (start_native_session_callback_ s); [|by apply not_elem_of_nil in Hin]. cbn [negb] in *.
  destruct (read_params ps) as [?|[dict|]]; [by apply not_elem_of_nil in Hin| |by apply not_elem_of_nil in Hin].
  destruct (first_unknown dict) as [k|] eqn:Hk; [by apply not_elem_of_nil in Hin|].
  destruct (FindString "signalingHost" dict) as [h|] eqn:Hh; [|by apply not_elem_of_nil in Hin].
  destruct (decide (h = EmptyString)) as [->|Hh0]; [by apply not_elem_of_nil in Hin|].
  destruct (FindString "signalingSessionId" dict) as [i|] eqn:Hi; [|by destruct h; apply not_elem_of_nil in Hin].
  destruct (decide (i = EmptyString)) as [->|Hi0]; [by destruct h; apply not_elem_of_nil in Hin|].
  destruct h as [|h0 h]; [done|]. destruct i as [|i0 i]; [done|].
  assert (Hgo : ∀ l, given_servers dict = None ∧ l = BuildDefaultIceServers ∨ given_servers dict = Some (Some l) →
    StartNativeSession cfg ∈ events (BringUp a (mkWsClientConfig (String h0 h) (String i0 i)
      (default EmptyString (FindString "signalingToken" dict)) (requested_tls dict)) l dict) s →
    ∃ dict', (inr (Some dict) : unit + option DictValue) = inr (Some dict') ∧ config_for dict' cfg ∧
      events (BringUp a (mkWsClientConfig (String h0 h) (String i0 i)
        (default EmptyString (FindString "signalingToken" dict)) (requested_tls dict)) l dict) s = [StartNativeSession cfg] ∧
      use_tls (ws cfg) = requested_tls dict' ∧ transport_policy (ice cfg) = requested_policy dict' ∧
      servers (ice cfg) = default BuildDefaultIceServers (mjoin (given_servers dict'))).
  { intros l Hl. unfold BringUp. cbv zeta. rewrite events_bind.
    match goal with |- context [events (emit ?e) s] => change (events (emit e) s) with [e] end.
    match goal with |- context [events (match ?x with Some _ => _ | None => _ end) ?s'] =>
      assert (Hn : events (match x with Some message => fail ("Cb.startNativeSession: " ++ message)
        | None => ok (EncodeStartNativeSessionResponse (String i0 i)) end) s' = @nil event) by (by destruct x);
      cbn [session_id]; rewrite Hn end.
    cbn [app]. intros Hc%list_elem_of_singleton. injection Hc as ->. exists dict. split; [done|].
    destruct Hl as [[Hg ->]|Hg].
    - pose proof (given_absent _ Hg) as Ha. split; [|by rewrite Hg].
      split; [by apply first_unknown_none|]. rewrite Ha. split_and!; try done.
      repeat constructor; discriminate.
    - destruct (given_usable _ _ Hg) as [Hne Hu]. split; [|by rewrite Hg].
      split; [by apply first_unknown_none|]. split_and!; try done.
      simpl. destruct (Find "iceServers" dict) eqn:Hf; [done|]. unfold given_servers in Hg. by rewrite Hf in Hg. }
  destruct (given_servers dict) as [[l|]|] eqn:Hg; cbn [mjoin option_join default] in *.
  - apply Hgo in Hin as (d' & H1 & H2 & H3 & H4); [by exists d'|by right].
  - by apply not_elem_of_nil in Hin.
  - apply Hgo in Hin as (d' & H1 & H2 & H3 & H4); [by exists d'|by left].
Qed.

(** C18. Every parameter of a session that is started was one the command knows; the
    host and the session are named, the servers are usable, and they are the
    default ones only when none were given: servers that were given and cannot be
    used start no session.  A command starts one session at most. *)
Theorem native_session_configured a ps s cfg : StartNativeSession cfg ∈ events (HandleStartNativeSession a ps) s →
  ∃ dict, read_params ps = inr (Some dict) ∧ config_for dict cfg ∧
    use_tls (ws cfg) = requested_tls dict ∧ transport_policy (ice cfg) = requested_policy dict ∧
    events (HandleStartNativeSession a ps) s = [StartNativeSession cfg].
Proof. intros (dict & H1 & H2 & H3 & H4 & H5 & _)%native_events. by exists dict. Qed.

(** The servers and the policy mean to a command what they mean in the
    environment. *)
Theorem ice_config_as_env a ps s cfg dict env text : StartNativeSession cfg ∈ events (HandleStartNativeSession a ps) s →
  read_params ps = inr (Some dict) → env "WEBRTC_ICE_SERVERS"%string = Some text →
  Find "iceServers" dict = Some (VString text) → FindString "iceTransportPolicy" dict = env "WEBRTC_ICE_TRANSPORT_POLICY"%string →
  LoadIceConfigFromEnv env = Some (ice cfg).
Proof.
  intros (dict' & H1 & H2 & _ & _ & H5 & H6)%native_events Hr Ht Hi Hp. rewrite Hr in H1. injection H1 as <-.
  destruct H2 as (_ & _ & _ & _ & _ & _ & _ & Hsum & Hsrv). rewrite Hi in Hsrv.
  unfold LoadIceConfigFromEnv, IceConfig.GetEnv. rewrite Ht, <-Hp. change (default EmptyString (Some text)) with text.
  unfold given_servers in Hsrv. rewrite Hi in Hsrv. injection Hsrv as ->.
  destruct (ice cfg) as [l pol sm]. simpl in *. subst. f_equal. f_equal.
  unfold requested_policy. by destruct (FindString "iceTransportPolicy" dict).
Qed.

(** A list of servers and the text of the same list are the same servers. *)
Theorem ice_forms_agree {L : JsonCodecLaws J} d1 d2 text v : Find "iceServers" d1 = Some (VString text) →
  JSONReader_Read text = Some v → text ≠ EmptyString → Find "iceServers" d2 = Some v →
  (∃ l, v = VList l) ∨ (∃ d, v = VDict d) → json_ok v → JSONWriter_Write v ≠ Some EmptyString →
  given_servers d1 = given_servers d2.
Proof.
  intros H1 Hr Ht H2 Hv Hok Hw. destruct (json_roundtrip v Hok) as (t2 & Hw2 & Hr2).
  assert (Hsame : ParseIceServersJson text = ParseIceServersJson t2).
  { unfold ParseIceServersJson. rewrite Hr, Hr2. destruct (String.eqb_spec text ""), (String.eqb_spec t2 ""); congruence. }
  unfold given_servers. rewrite H1, H2. cbv beta iota. rewrite Hsame. by destruct Hv as [[l ->]|[d ->]]; rewrite Hw2.
Qed.
End native.

(** ** Contexts and their pages *)

Section contexts.
Context {D : DisplayLib} {U : Unspecified} {J : JsonCodec} {P : Crdtp}.

Inductive input :=
| Command (a : answers) (target : option (option nat)) (d : Dispatchable)
| NewContext
| Dispose (c : context)
| DefaultContext (c : option context)
| NewTarget (created : option page)
| Ui (i : ActivePage.input).

Definition handle (i : input) : M unit :=
  match i with
  | Command a target d => HandleCommand a target d
  | NewContext => CreateBrowserContext;; mret tt
  | Dispose c => DisposeBrowserContext c
  | DefaultContext c => SetDefaultBrowserContext c
  | NewTarget x => CreateNewTarget x;; mret tt
  | Ui i => on_ui (ActivePage.handle i)
  end.

(** Chromium passes on the contexts it was given; the pages a holder holds are
    destroyed by the holder. *)
Definition enabled (i : input) (s : delegate) : bool :=
  match i with
  | DefaultContext (Some (Own _)) => false
  | Ui (DestroyPage p) => bool_decide (p ∉ (web_contents_holders_ s).*1)
  | Ui _ => true
  | _ => true
  end.

Definition constructed (s : delegate) : Prop :=
  contexts_ s = [] ∧ web_contents_holders_ s = [] ∧ ∀ n, default_browser_context_ s ≠ Some (Own n).

(** The context of a page that is held is there, or it is main_parts' own; a
    context is there until the [ContextDestroyed] of it. *)
Record owned (tr : list event) (s : delegate) : Prop := {
  owned_held p c : (p, c) ∈ web_contents_holders_ s → c ∈ contexts_ s ∨ ∃ n, c = Foreign n;
  owned_default n : default_browser_context_ s ≠ Some (Own n);
  owned_alive c : c ∈ contexts_ s → ContextDestroyed c ∉ tr;
  owned_own c : c ∈ contexts_ s → ∃ n, c = Own n ∧ (n < next_context s)%nat;
  owned_gone c : ContextDestroyed c ∈ tr → ∃ n, c = Own n ∧ (n < next_context s)%nat;
}.

(** What leaves the contexts alone. *)
Definition held (s : delegate) := (contexts_ s, web_contents_holders_ s, default_browser_context_ s, next_context s).
Definition aside (s : delegate) (es : list event) (s' : delegate) : Prop :=
  held s' = held s ∧ Forall (λ e, ∀ c, e ≠ ContextDestroyed c) es.
#[local] Instance aside_rel : TraceRel aside.
Proof.
  split; [by split|]. intros s1 s2 s3 es1 es2 [H1 H2] [K1 K2]. split; [congruence|by apply Forall_app].
Qed.
Lemma aside_owned tr s es s' : aside s es s' → owned tr s → owned (tr ++ es) s'.
Proof.
  intros [Hh He] [I1 I2 I3 I4 I5]. unfold held in Hh. injection Hh as E1 E2 E3 E4.
  assert (Hn : ∀ c, ContextDestroyed c ∈ (tr ++ es)%list → ContextDestroyed c ∈ tr).
  { intros c [H|H]%elem_of_app; [done|]. rewrite Forall_forall in He. by destruct (He _ H c). }
  split; rewrite ?E1, ?E2, ?E3, ?E4; eauto. intros c Hc Hin%Hn. by eapply I3.
Qed.

Lemma ui_aside {A} (m : ActivePage.M A) : respects aside (on_ui m).
Proof. intros s. split; [done|]. apply Forall_fmap, Forall_true. by intros e c. Qed.
Ltac aside_tac :=
  repeat first
    [ apply respects_ret, _ | apply ui_aside | apply respects_get; intros ?
    | apply respects_when; [apply _|] | apply respects_bind; [apply _| |intros ?]
    | apply respects_emit; intros ?; split; [reflexivity|by repeat constructor]
    | case_match ].
Lemma command_aside a target d : respects aside (HandleCommand a target d).
Proof.
  unfold HandleCommand, HandleStartFrameSinkCapture, HandleStartNativeSession, BringUp, HandleSetViewport,
    HandleGetCaptureStats, HandleGetVideoSenderCapabilities, HandleShutdown, respond, fail, ok. cbv zeta. aside_tac.
Qed.
Lemma destroy_aside ps : respects aside (destroy_pages ps).
Proof. apply respects_seq; [apply _|]. apply Forall_fmap, Forall_true. intros p. apply ui_aside. Qed.

Lemma dispose_owned c tr s : owned tr s → owned (tr ++ events (DisposeBrowserContext c) s) (exec (DisposeBrowserContext c) s).
Proof.
  intros Ho. unfold DisposeBrowserContext. rewrite events_get, exec_get.
  destruct (bool_decide (default_browser_context_ s = Some c)).
  { apply (aside_owned tr s); [|done]. split; [done|]. by repeat constructor. }
  destruct (bool_decide (c ∈ contexts_ s)) eqn:Hc.
  2: { apply (aside_owned tr s); [|done]. split; [done|]. by repeat constructor. }
  apply bool_decide_eq_true_1 in Hc. rewrite events_bind, exec_bind. rewrite app_assoc.
  set (ps := (filter _ _).*1).
  assert (H1 : owned (tr ++ events (destroy_pages ps) s) (exec (destroy_pages ps) s))
    by (by apply (aside_owned tr s), Ho; apply destroy_aside).
  destruct (destroy_aside ps s) as [Hh _].
  set (s1 := exec (destroy_pages ps) s) in *. set (tr1 := (tr ++ _)%list) in *.
  unfold held in Hh. injection Hh as E1 E2 E3 E4.
  rewrite !events_mod, !exec_mod. rewrite events_bind, exec_bind.
  set (s2 := (s1 <| web_contents_holders_ := filter (λ h, h.2 ≠ c) (web_contents_holders_ s1) |>)
                <| contexts_ := filter (λ k, k ≠ c) (contexts_ s1) |>).
  change (owned (tr1 ++ [ContextDestroyed c; DisposeResult true EmptyString]) s2).
  destruct H1 as [I1 I2 I3 I4 I5]. destruct (I4 c) as (n & -> & Hn); [by rewrite E1|].
  split; unfold s2; cbn [contexts_ web_contents_holders_ default_browser_context_ next_context set_field].
  - intros p k [Hk Hp]%list_elem_of_filter. destruct (I1 p k Hp) as [Hin|Hf]; [left|by right].
    by apply list_elem_of_filter.
  - exact I2.
  - intros k [Hk Hin]%list_elem_of_filter. rewrite elem_of_app, !elem_of_cons, elem_of_nil.
    intros [H|[H|[H|[]]]]; [by eapply I3|congruence|done].
  - intros k [_ Hin]%list_elem_of_filter. by apply I4.
  - intros k. rewrite elem_of_app, !elem_of_cons, elem_of_nil.
    intros [H|[H|[H|[]]]]; [by apply I5|injection H as ->; by eexists|done].
Qed.

Lemma new_target_owned x tr s : owned tr s →
  owned (tr ++ events (CreateNewTarget x) s) (exec (CreateNewTarget x) s).
Proof.
  intros Ho. unfold CreateNewTarget. rewrite events_get, exec_get.
  destruct (match last (contexts_ s) with Some c => Some c | None => default_browser_context_ s end) as [c|] eqn:Hc;
    [|by rewrite app_nil_r].
  destruct x as [x|]; [|by rewrite app_nil_r].
  assert (Hk : c ∈ contexts_ s ∨ ∃ n, c = Foreign n).
  { destruct (last (contexts_ s)) as [c0|] eqn:Hl.
    - injection Hc as ->. left. by apply last_Some_elem_of.
    - destruct c as [n|n]; [|by eauto]. by destruct (owned_default _ _ Ho n). }
  rewrite events_mod, exec_mod. set (s0 := s <| next_page := _ |>).
  assert (H0 : owned tr s0) by (destruct Ho; by split).
  rewrite events_bind, exec_bind, app_assoc. set (m1 := on_ui (ActivePage.handle _)).
  assert (H1 := aside_owned tr s0 _ _ (ui_aside (ActivePage.handle (CreatePage (next_page s) x)) s0) H0).
  fold m1 in H1. rewrite events_bind, exec_bind, app_assoc. set (m2 := on_ui _).
  assert (H2 := aside_owned _ _ _ _ (ui_aside (on_objects (emit (WasShown (next_page s));; emit (Focus (next_page s))))
    (exec m1 s0)) H1). fold m2 in H2.
  set (s2 := exec m2 (exec m1 s0)) in *.
  rewrite events_mod, exec_mod, app_nil_r. destruct H2 as [I1 I2 I3 I4 I5].
  split; try done. cbn [contexts_ web_contents_holders_ set_field]. intros p k.
  intros [H|[= -> ->]%list_elem_of_singleton]%elem_of_app; [by apply (I1 p)|].
  destruct Hk as [Hin|Hf]; [by left|by right].
Qed.

Lemma step_owned i tr s : enabled i s = true → owned tr s → owned (tr ++ events (handle i) s) (exec (handle i) s).
Proof.
  intros Hen Ho. destruct i as [a target d| |c|c|x|i]; cbn [handle].
  - apply (aside_owned tr s); [apply command_aside|done].
  - rewrite events_bind, exec_bind, app_nil_r.
    change (owned tr (s <| contexts_ := (contexts_ s ++ [Own (next_context s)])%list |>
                        <| next_context := S (next_context s) |>)).
    destruct Ho as [I1 I2 I3 I4 I5].
    split; cbn [contexts_ web_contents_holders_ default_browser_context_ next_context set_field].
    + intros p k [Hin|Hf]%I1; [left; apply elem_of_app; by left|by right].
    + exact I2.
    + intros k [Hin|Hk%list_elem_of_singleton]%elem_of_app Hd; [by eapply I3|]. subst k.
      destruct (I5 _ Hd) as (n & [= Hn] & Hlt). lia.
    + intros k [Hin|Hk%list_elem_of_singleton]%elem_of_app; [|subst k; eexists; split; [done|lia]].
      destruct (I4 _ Hin) as (n & -> & Hn). eexists. split; [done|lia].
    + intros k Hd. destruct (I5 _ Hd) as (n & -> & Hn). eexists. split; [done|lia].
  - by apply dispose_owned.
  - destruct Ho as [I1 I2 I3 I4 I5]. rewrite app_nil_r. split; try done. simpl. intros n ->. done.
  - rewrite events_bind, exec_bind, app_nil_r. by apply new_target_owned.
  - apply (aside_owned tr s); [apply ui_aside|done].
Qed.

(** C19. Whatever the order of the commands, every page the delegate holds is in a
    browser context that has not been destroyed: a context goes after its pages,
    and the default context does not go. *)
Theorem pages_never_outlive_context s0 s tr : constructed s0 → reachable enabled handle s0 s tr →
  (∀ p c, (p, c) ∈ web_contents_holders_ s → ContextDestroyed c ∉ tr) ∧
  (∀ c, default_browser_context_ s = Some c → ContextDestroyed c ∉ tr).
Proof.
  intros (C1 & C2 & C3) Hr.
  assert (Ho : owned tr s).
  { revert Hr. apply (reachable_trace_inv enabled handle s0 (λ s tr, owned tr s)).
    - split; rewrite ?C1, ?C2; try done; intros *; by rewrite ?elem_of_nil.
    - intros i s' tr' _ Ht Hen. by apply step_owned. }
  destruct Ho as [I1 I2 I3 I4 I5]. split.
  - intros p c Hin. destruct (I1 p c Hin) as [Hc|[n ->]]; [by apply I3|]. intros (k & Hk & _)%I5. done.
  - intros [n|n] Hd; [by destruct (I2 n)|]. intros (k & Hk & _)%I5. done.
Qed.
End contexts.

(** ** What Cb.setViewport reports *)

Section report.
Context {D : DisplayLib} {U : Unspecified} {J : JsonCodec} {P : Crdtp}.

Lemma SetViewport_current spec w c : viewport w = Some c → layers w → device_scale_factor spec ≠ S754_nan →
  layers (exec (SetViewport spec) w) ∧
  (∃ c', viewport (exec (SetViewport spec) w) = Some c' ∧ current_ c' = result (SetViewport spec) w) ∧
  (allowed (size_dip spec) → size_dip (result (SetViewport spec) w) = size_dip spec).
Proof.
  intros Hc Hl Hn. split; [by apply (SetViewport_settled spec w Hn)|].
  assert (Hr : device_scale_factor (resolve spec c) ≠ S754_nan).
  { unfold resolve. destruct (SFeqb _ _); [|done]. simpl. by rewrite (proj2 (layers_current _ Hl c Hc)). }
  assert (Hk : allowed (size_dip spec) → size_dip (Clamp (resolve spec c)) = size_dip spec).
  { intros Ha. rewrite clamp_keeps; unfold resolve; by destruct (SFeqb _ _). }
  unfold SetViewport. rewrite exec_get, result_bind. change (result eget w) with w. change (exec eget w) with w.
  rewrite Hc. destruct (same_spec (Clamp (resolve spec c)) (current_ c)) eqn:Hs.
  - unfold exec, result. rewrite (Apply_same c spec w Hs). split; [|done]. exists c. split; [done|].
    by apply (same_spec_one (Clamp (resolve spec c)) (current_ c)), target_one.
  - destruct (Apply_exec c spec w Hs) as [-> ->]. split; [|done]. simpl. rewrite Hc. by eexists.
Qed.

(** C15. The viewport a client is told is the one the display, the host and the
    captured frames have from then on, whole or trimmed to what is allowed; a
    size that is allowed is reported as it was asked for. *)
Theorem set_viewport_reports a target id params s dict width height c :
  set_viewport_callback_ s = true → viewport (objects (ui s)) = Some c → layers (objects (ui s)) →
  read_params params = inr (Some dict) →
  FindInt "width" dict = Some width → FindInt "height" dict = Some height →
  (∀ x, FindDouble "deviceScaleFactor" dict = Some x → float_of_double x ≠ S754_nan) →
  let m := HandleCommand a target (mkDispatchable (Some kSetViewportMethod) id params) in
  ∃ es ts c', events m s = (es ++ [Respond (Result id ts)])%list ∧
    viewport (objects (ui (exec m s))) = Some c' ∧ layers (objects (ui (exec m s))) ∧
    decode ts = Some [("width", IInt (size_dip (current_ c')).1); ("height", IInt (size_dip (current_ c')).2);
                      ("deviceScaleFactor", IDouble float_one)]%string ∧
    (allowed (width, height) → size_dip (current_ c') = (width, height)).
Proof.
  intros Hcb Hc Hl Hp Hw Hh Hd. cbv zeta.
  set (spec := mkSpec (mkSize width height) (match FindDouble "deviceScaleFactor" dict with
    | Some d => float_of_double d | None => kViewportKeepCurrentScale end)).
  destruct (SetViewport_current spec (objects (ui s)) c Hc Hl) as (Hl' & (c' & Hc' & Ht) & Hk).
  { unfold spec. simpl. destruct (FindDouble _ _); [by apply Hd|done]. }
  pose proof (layers_current _ Hl' c' Hc') as [Ha H1]. rewrite <-Ht in Hk.
  set (m := on_ui (on_objects (SetViewport spec))).
  assert (E : HandleSetViewport params s =
    (inl (EncodeSetViewportResponse (size_dip (current_ c')) float_one), exec m s, events m s)).
  { unfold HandleSetViewport. rewrite get_run, Hcb, Hp, Hw, Hh. cbn [negb]. cbv zeta. fold spec m.
    rewrite <-H1, Ht. unfold mbind, eff_bind. cbn. by rewrite app_nil_r. }
  assert (E' : HandleCommand a target (mkDispatchable (Some kSetViewportMethod) id params) s =
    (HandleSetViewport params ≫= respond id) s) by done.
  exists (events m s), (EncodeSetViewportResponse (size_dip (current_ c')) float_one), c'.
  unfold events at 1, exec. rewrite E'. unfold mbind, eff_bind. rewrite E. cbn.
  split; [done|]. split; [done|]. split; [done|]. split; [done|]. intros Haw.
  assert (Hm : mkSize width height = (width, height)) by (destruct Haw as ((? & ?) & (? & ?) & _); unfold mkSize; simpl in *; f_equal; lia).
  rewrite <-Hm. apply Hk. by unfold spec; cbn [size_dip]; rewrite Hm.
Qed.
End report.

(** ** Witnesses *)

#[local] Existing Instance plain_display.
#[local] Existing Instance defaults.
#[local] Existing Instance BitsCodec.bits_codec.
#[local] Existing Instance BitsCodec.bits_codec_laws.
#[local] Instance plain_crdtp : Crdtp := {| ConvertCBORToJSON s := Some s; sink_text _ := "1:22"%string |}.

Definition booted : delegate :=
  mkDelegate true true true true true true true (Some (Foreign 0)) [] [] 0 5 browsed.
Definition health : CbSessionHealth := mkHealth 1 false true.
Definition well : answers := mkAnswers (λ _, None) health ["H264"]%string.
Definition as_text (v : Value) : string := default EmptyString (JSONWriter_Write v).
Definition turn_servers : Value := VList [VDict [("urls", VString "turn:t.example")]]%string.
Definition session_params (servers : Value) : DictValue :=
  [("iceServers", servers); ("iceTransportPolicy", VString "Relay"); ("signalingHost", VString "broker");
   ("signalingSessionId", VString "s1"); ("useTls", VBool false)]%string.
Definition as_params (d : DictValue) : string := as_text (VDict d).
Definition turn_config : NativeSessionConfig :=
  mkNative (mkWsClientConfig "broker" "s1" "" false)
    (mkIceConfig [mkIceServer ["turn:t.example"%string] "" ""] kRelay (mkSummary 0 1 0)).

Lemma native_session_configured_witness :
  ∃ dict, read_params (as_params (session_params turn_servers)) = inr (Some dict) ∧ config_for dict turn_config.
Proof.
  edestruct (native_session_configured well (as_params (session_params turn_servers)) booted turn_config)
    as (dict & H1 & H2 & _); [vm_compute; left|by exists dict].
Defined.

Lemma ice_config_as_env_witness :
  let env (k : string) := if String.eqb k "WEBRTC_ICE_SERVERS" then Some (as_text turn_servers)
    else if String.eqb k "WEBRTC_ICE_TRANSPORT_POLICY" then Some "Relay"%string else None in
  LoadIceConfigFromEnv env = Some (ice turn_config).
Proof.
  intros env.
  refine (ice_config_as_env well (as_params (session_params (VString (as_text turn_servers)))) booted turn_config
    (session_params (VString (as_text turn_servers))) env (as_text turn_servers) _ _ _ _ _);
    [vm_compute; left|vm_compute; reflexivity..].
Defined.

Lemma ice_forms_agree_witness :
  given_servers (session_params turn_servers) = Some (Some [mkIceServer ["turn:t.example"%string] "" ""]) ∧
  given_servers (session_params (VString (as_text turn_servers))) = given_servers (session_params turn_servers).
Proof.
  split; [vm_compute; reflexivity|].
  refine (ice_forms_agree _ _ (as_text turn_servers) turn_servers _ _ _ _ _ _ _);
    [vm_compute; reflexivity|vm_compute; reflexivity|vm_compute; discriminate|vm_compute; reflexivity|
     left; eexists; reflexivity|exact I|vm_compute; discriminate].
Defined.

(** Two contexts are made, each gets a page, and the first one is disposed. *)
Definition browsing_contexts : list input :=
  [NewContext; NewTarget (Some blank_page); NewContext; NewTarget (Some blank_page); Dispose (Own 0);
   Dispose (Foreign 0); Dispose (Own 0)].
Lemma pages_never_outlive_context_witness :
  web_contents_holders_ (exec (run handle browsing_contexts) booted) = [(6%nat, Own 1)] ∧
  ContextDestroyed (Own 0) ∈ events (run handle browsing_contexts) booted ∧
  ContextDestroyed (Own 1) ∉ events (run handle browsing_contexts) booted.
Proof.
  split; [vm_compute; reflexivity|]. split; [vm_compute; repeat first [left; reflexivity|right]|].
  refine (proj1 (pages_never_outlive_context booted _ _ _ _) 6%nat (Own 1) _).
  - split; [reflexivity|]. split; [reflexivity|]. intros n. discriminate.
  - apply run_reachable. vm_compute. reflexivity.
  - vm_compute. left.
Defined.

(** A window of 1001 by 9999 is trimmed; the client is told. *)
Definition odd_params : DictValue := [("height", VInt 9999); ("width", VInt 1001)]%string.
Lemma set_viewport_reports_witness :
  events (HandleCommand well None (mkDispatchable (Some kSetViewportMethod) 7 (as_params odd_params))) booted ≠ [].
Proof.
  edestruct (set_viewport_reports well None 7 (as_params odd_params) booted odd_params 1001 9999)
    as (es & ts & c' & -> & _);
    [vm_compute; reflexivity|vm_compute; reflexivity|exact (tracks_layers _ _ browsed_tracks)|vm_compute; reflexivity|
     vm_compute; reflexivity|vm_compute; reflexivity|vm_compute; discriminate|].
  by destruct es.
Defined.
