(* ===== verification/Tabs.v ===== *)
(** * The delegate of the pages (capture/build-integration/cb_web_contents_delegate.{h,cc})

    What a page asks of its embedder: windows it opens and closes, navigations,
    full screen, file choosers, downloads, devices, context menus.  The pages are
    [ActivePage]'s; the parked listener of a chooser is [FileUpload]'s.  A request
    to the viewer is numbered and its answer is an input: that it comes exactly
    once is [ControlChannel]'s.  [Prompts] models the dialogs. *)

From Stdlib Require Import ZArith Lia String.
From stdpp Require Import base tactics strings sets gmap list.
From S2P Require Import Prelude Numbers Values FileUpload FrameCapture Viewport ActivePage.
Open Scope Z_scope.

Definition kFileChooserDeadline : Z := 300000.

(** What a page shows of itself: its DevTools target, its URL, its title. *)
Record tab := mkTab { target_id : string; committed_url : string; tab_title : list Z }.
Definition no_tab : tab := mkTab EmptyString EmptyString [].

Record ContextMenuParams := mkMenu {
  media_type : Z; link_url : string; link_text : list Z; src_url : string; selection_text : list Z;
  is_editable : bool; menu_x : Z; menu_y : Z;
}.
Record FileChooserParams := mkChooser { mode : Mode; accept_types : list (list Z); title : list Z }.

Record delegate := mkDelegate {
  aura_context_ : bool;                        (* pointers that are set *)
  control_channel_ : bool;
  file_upload_receiver_ : bool;
  fullscreen_contents_ : option nat;
  adopted_ : list nat;
  files : rcv;                                 (* the receiver of the session *)
  session : nat;                               (* which receiver that is *)
  asked : list (nat * nat);                    (* requests out, and whose receiver they name *)
  next_request : nat;
  info : gmap nat tab;
  ui : shell;
}.
#[export] Instance eta_delegate : Eta delegate := λ s,
  mkDelegate (aura_context_ s) (control_channel_ s) (file_upload_receiver_ s) (fullscreen_contents_ s) (adopted_ s)
    (files s) (session s) (asked s) (next_request s) (info s) (ui s).

Inductive event :=
| SendEvent (kind : string) (payload : DictValue)              (* calls on the control channel *)
| SendRequest (n : nat) (kind : string) (payload : DictValue) (deadline : Z)
| ToReceiver (e : FileUpload.event)
| ListenerCanceled (listener : nat)                            (* by the delegate itself *)
| FromUi (e : ActivePage.event)
| ShowNativeView (p : nat)
| GetOrCreateAgentHost (p : nat)
| LoadURL (p : nat) (url : string)
| NavigationCallback
| DownloadAllowed (allowed : bool)
| MediaAccess (devices : list nat) (granted : bool).
Abbreviation M := (eff delegate event).

Definition on_ui {A} (m : ActivePage.M A) : M A := λ s,
  (result m (ui s), s <| ui := exec m (ui s) |>, FromUi <$> events m (ui s)).
Definition on_files {A} (m : eff rcv FileUpload.event A) : M A := λ s,
  (result m (files s), s <| files := exec m (files s) |>, ToReceiver <$> events m (files s)).

Definition describe (p : nat) (s : delegate) : tab := default no_tab (info s !! p).

Section delegate.
Context {D : DisplayLib} {U : Unspecified} {T : TextLib}.

Definition SetSessionContext (aura_context control_channel : bool) : M unit :=
  emod (λ s, s <| aura_context_ := aura_context |> <| control_channel_ := control_channel |>).
Definition SetFileUploadReceiver (receiver : bool) : M unit :=
  emod (λ s, s <| file_upload_receiver_ := receiver |>).

(** ** Tabs *)

Definition SendTabEvent (kind : string) (wc : option nat) : M unit :=
  s ← eget;
  match wc with
  | Some p =>
      ewhen (control_channel_ s)
        (let t := describe p s in
         emit (SendEvent kind (Set_ "title" (VString (UTF16ToUTF8 (tab_title t)))
           (Set_ "url" (VString (committed_url t)) (Set_ "targetId" (VString (target_id t)) [])))))
  | None => mret tt
  end.

Definition AdoptWebContents (contents : option nat) : M (option nat) :=
  match contents with
  | None => mret None
  | Some raw =>
      emit (ShowNativeView raw);;
      on_ui (on_objects (emit (WasShown raw);; emit (Focus raw)));;
      emit (GetOrCreateAgentHost raw);;
      emod (λ s, s <| adopted_ := (adopted_ s ++ [raw])%list |>);;
      SendTabEvent "tab_opened" (Some raw);;
      mret (Some raw)
  end.

(** The page, and [*was_blocked]. *)
Definition AddNewContents (new_contents : option nat) : M (option nat * bool) :=
  raw ← AdoptWebContents new_contents;
  mret (raw, false).

Fixpoint erase (p : nat) (l : list nat) : list nat :=
  match l with
  | [] => []
  | q :: l' => if Nat.eqb q p then l' else q :: erase p l'
  end.

Definition CloseContents (source : nat) : M unit :=
  SendTabEvent "tab_closed" (Some source);;
  s ← eget;
  if bool_decide (source ∈ adopted_ s) then
    emod (λ s, s <| adopted_ := erase source (adopted_ s) |>);;
    on_ui (ActivePage.handle (DestroyPage source))
  else mret tt.

(** [started]: the load gave a navigation; [callback]: the caller wants it. *)
Definition OpenURLFromTab (source : option nat) (url : string) (started callback : bool) : M (option nat) :=
  match source with
  | None => mret None
  | Some p =>
      emit (LoadURL p url);;
      ewhen (started && callback) (emit NavigationCallback);;
      mret (Some p)
  end.

(** ** Full screen *)

Definition CanEnterFullscreenModeForTab : bool := true.
Definition send_fullscreen (b : bool) : M unit :=
  s ← eget;
  ewhen (control_channel_ s) (emit (SendEvent "fullscreen_changed" (Set_ "fullscreen" (VBool b) []))).
(** [requesting_frame]: the frame's page, if there is a frame. *)
Definition EnterFullscreenModeForTab (requesting_frame : option nat) : M unit :=
  ewhen (bool_decide (is_Some requesting_frame)) (emod (λ s, s <| fullscreen_contents_ := requesting_frame |>));;
  send_fullscreen true.
Definition ExitFullscreenModeForTab (web_contents : nat) : M unit :=
  s ← eget;
  ewhen (bool_decide (fullscreen_contents_ s = Some web_contents)) (emod (λ s, s <| fullscreen_contents_ := None |>));;
  send_fullscreen false.
Definition IsFullscreenForTabOrPending (web_contents : nat) (s : delegate) : bool :=
  bool_decide (fullscreen_contents_ s = Some web_contents).

(** ** Choosers *)

Definition supported (m : Mode) : bool := match m with kOpen | kOpenMultiple => true | _ => false end.
Definition chooser_payload (params : FileChooserParams) : DictValue :=
  Set_ "title" (VString (UTF16ToUTF8 (title params)))
    (Set_ "multiple" (VBool (match mode params with kOpenMultiple => true | _ => false end))
      (Set_ "accept" (VList ((λ t, VString (UTF16ToUTF8 t)) <$> accept_types params)) [])).

Definition RunFileChooser (listener : nat) (params : FileChooserParams) : M unit :=
  s ← eget;
  if negb (file_upload_receiver_ s) then emit (ListenerCanceled listener)
  else if negb (supported (mode params)) then emit (ListenerCanceled listener)
  else
    on_files (BeginChooser listener (mode params));;
    if negb (control_channel_ s) then on_files CancelChooser
    else
      emod (λ s, s <| asked := (asked s ++ [(next_request s, session s)])%list |>
                   <| next_request := S (next_request s) |>);;
      emit (SendRequest (next_request s) "file_chooser" (chooser_payload params) kFileChooserDeadline).

(** The callback of the request, which holds a weak pointer to the receiver. *)
Definition chooser_reply (receiver : nat) (response : DictValue) : M unit :=
  s ← eget;
  ewhen (Nat.eqb receiver (session s) && alive (files s) && negb (default false (FindBool "accept" response)))
    (on_files CancelChooser).

(** ** The rest *)

Definition CanDownload : M unit := emit (DownloadAllowed true).
Definition RequestMediaAccessPermission : M unit := emit (MediaAccess [] false).
Definition CheckMediaAccessPermission : bool := false.

Definition HandleContextMenu (params : ContextMenuParams) : M bool :=
  s ← eget;
  ewhen (control_channel_ s)
    (emit (SendEvent "context_menu"
      (Set_ "y" (VInt (menu_y params)) (Set_ "x" (VInt (menu_x params))
        (Set_ "is_editable" (VBool (is_editable params))
          (Set_ "selection_text" (VString (UTF16ToUTF8 (selection_text params)))
            (Set_ "src_url" (VString (src_url params))
              (Set_ "link_text" (VString (UTF16ToUTF8 (link_text params)))
                (Set_ "link_url" (VString (link_url params))
                  (Set_ "media_type" (VInt (media_type params)) []))))))))));;
  mret true.

(** ** Executions *)

Inductive input :=
| Context (aura_context control_channel : bool)
| ReceiverSet (b : bool)
| NewReceiver                                       (* main_parts makes one for a session *)
| Opens (p : nat) (x : page)                        (* a page opens the window [p] *)
| Closes (p : nat)
| Navigates (p : nat) (t : tab)
| OpensURL (source : option nat) (url : string) (started callback : bool)
| Enters (frame : option nat) | Exits (p : nat)
| Chooses (listener : nat) (params : FileChooserParams)
| Answered (n : nat) (response : DictValue)
| FromViewer (i : FileUpload.input)
| Menu (params : ContextMenuParams)
| Downloads | Devices
| Ui (i : ActivePage.input).

Context {J : JsonCodec} {L : UploadLib}.
Variable uploads_dir_ : string.

Definition handle (i : input) : M unit :=
  match i with
  | Context a c => SetSessionContext a c
  | ReceiverSet b => SetFileUploadReceiver b
  | NewReceiver => emod (λ s, s <| files := CbFileUploadReceiver |> <| session := S (session s) |>)
  | Opens p x => on_ui (ActivePage.handle (CreatePage p x));; AddNewContents (Some p);; mret tt
  | Closes p => CloseContents p
  | Navigates p t => emod (λ s, s <| info := <[p := t]> (info s) |>)
  | OpensURL src url st cb => OpenURLFromTab src url st cb;; mret tt
  | Enters f => EnterFullscreenModeForTab f
  | Exits p => ExitFullscreenModeForTab p
  | Chooses l params => RunFileChooser l params
  | Answered n d =>
      s ← eget;
      match list_find (λ r, r.1 = n) (asked s) with
      | None => mret tt
      | Some (k, r) => emod (λ s, s <| asked := delete k (asked s) |>);; chooser_reply r.2 d
      end
  | FromViewer i => on_files (FileUpload.handle uploads_dir_ i)
  | Menu params => HandleContextMenu params;; mret tt
  | Downloads => CanDownload
  | Devices => RequestMediaAccessPermission
  | Ui i => on_ui (ActivePage.handle i)
  end.

(** A page that opens a window and one that asks to be closed are there; a page
    the delegate holds is destroyed by it alone; only the delegate begins a
    chooser, and a request is answered once. *)
Definition enabled (i : input) (s : delegate) : bool :=
  match i with
  | Opens p x => ActivePage.enabled (CreatePage p x) (ui s)
  | Closes p => bool_decide (is_Some (pages (objects (ui s)) !! p))
  | Answered n _ => bool_decide (n ∈ (asked s).*1)
  | FromViewer i => match i with Chooser _ _ => false | _ => FileUpload.enabled i (files s) end
  | Ui i => ActivePage.enabled i (ui s) &&
      match i with DestroyPage p => bool_decide (p ∉ adopted_ s) | _ => true end
  | _ => true
  end.
End delegate.

(** ** Pages last *)

Section lasting.
Context {D : DisplayLib} {U : Unspecified}.

Definition lasting (s : shell) (_ : list ActivePage.event) (s' : shell) : Prop :=
  initial_web_contents_ s' = initial_web_contents_ s ∧
  ∀ q, is_Some (pages (objects s) !! q) → is_Some (pages (objects s') !! q).
#[local] Instance lasting_rel : TraceRel lasting.
Proof. split; [done|]. intros s1 s2 s3 es1 es2 [H1 H2] [K1 K2]. split; [congruence|naive_solver]. Qed.

Lemma calm_lasting {A} (m : Viewport.M A) s :
  calm (objects s) (events m (objects s)) (exec m (objects s)) → lasting s (events (on_objects m) s) (exec (on_objects m) s).
Proof. intros (H & _). split; [done|exact H]. Qed.
Lemma settled_lasting {A} (m : Viewport.M A) : respects settled m → respects lasting (on_objects m).
Proof. intros H s. apply calm_lasting, H. Qed.
Lemma mod_lasting f : (∀ s, objects (f s) = objects s ∧ initial_web_contents_ (f s) = initial_web_contents_ s) →
  respects lasting (emod f).
Proof. intros H s. change (exec (emod f) s) with (f s). destruct (H s) as [H1 H2]. split; [done|]. by rewrite H1. Qed.

Lemma put_lasting p x : respects lasting (put_page p x).
Proof. intros s. apply calm_lasting, put_page_calm. Qed.
Lemma resolver_lasting p f : respects lasting (Resolver.SetActiveCapture p f).
Proof.
  unfold Resolver.SetActiveCapture. apply respects_get. intros s. case_match; [apply respects_ret, _|].
  by apply mod_lasting.
Qed.
Lemma capture_lasting p f : respects lasting (SetActiveCapture p f).
Proof.
  assert (Ht : ∀ q, respects lasting (on_objects (SetTargetWebContents q))) by (intros q s; by split).
  unfold SetActiveCapture. destruct p as [p|], f as [f|]; repeat (apply respects_bind; [apply _| |intros _]);
    try apply Ht; try apply resolver_lasting; try (by intros s; split).
  apply respects_get. intros s. apply respects_when; [apply _|]. apply settled_lasting.
  by apply on_screen_settled; intros; repeat constructor.
Qed.
Lemma start_lasting f : respects lasting (on_objects (on_source (StartCapture f))).
Proof. intros s. apply calm_lasting, StartCapture_calm. Qed.
Lemma show_lasting b walk last p : (∀ f, last p ≠ FromSource (ChangeTarget f)) →
  respects lasting (ewhen b (on_objects (on_page p (ShowChain walk last p)))).
Proof. intros Hl. apply respects_when; [apply _|]. by apply settled_lasting, ShowChain_settled. Qed.

Ltac last_tac :=
  repeat first
    [ apply respects_ret, _ | apply put_lasting | apply resolver_lasting | apply capture_lasting
    | apply start_lasting | (apply show_lasting; done) | apply respects_get; intros ?
    | apply respects_bind; [apply _| |intros ?] | (apply mod_lasting; intros ?; split; reflexivity)
    | apply respects_when; [apply _|] | (by apply settled_lasting, settled_emit) | case_match ].
Lemma tell_lasting p m : respects lasting m → respects lasting (tell p m).
Proof. intros H. unfold tell. last_tac. exact H. Qed.

Lemma handle_lasting i s : ActivePage.enabled i s = true → (∀ p, i ≠ DestroyPage p) →
  lasting s (events (ActivePage.handle i) s) (exec (ActivePage.handle i) s).
Proof.
  assert (Hr : ∀ m : ActivePage.M unit, respects lasting m → lasting s (events m s) (exec m s)) by (intros m H; apply H).
  assert (Hsw : ∀ n, respects lasting (RearmCaptureAfterRvhSwap n)) by (intros n; unfold RearmCaptureAfterRvhSwap; last_tac).
  assert (Hin : respects lasting RearmCaptureOnInitialTab) by (unfold RearmCaptureOnInitialTab; last_tac).
  destruct i as [p x|p|p x|p x|p x|p|spec|i|i| | |k]; intros Hen Hd; cbn [ActivePage.handle].
  - by apply Hr, put_lasting.
  - by destruct (Hd p).
  - by apply Hr, put_lasting.
  - apply Hr, respects_bind; [apply _|apply put_lasting|intros _]. apply tell_lasting.
    unfold Resolver.RenderViewHostChanged, post. last_tac.
  - apply Hr, respects_bind; [apply _|apply put_lasting|intros _]. apply tell_lasting.
    unfold Resolver.PrimaryMainFrameRenderProcessGone, post. last_tac.
  - apply Hr, respects_bind; [apply _| |intros _; apply respects_ret, _]. unfold StartOnPage. last_tac.
  - rewrite events_bind, exec_bind, app_nil_r. apply calm_lasting, SetViewport_settled.
    simpl in Hen. by destruct (device_scale_factor spec).
  - apply Hr, settled_lasting. by apply routine_settled.
  - apply Hr, settled_lasting, on_driver_settled.
  - by apply Hr, mod_lasting.
  - apply Hr. apply respects_get. intros s'. destruct (tasks s') as [|t ts]; [apply respects_ret, _|].
    apply respects_bind; [apply _|by apply mod_lasting|intros _]. destruct t; cbn [run_task]; [apply Hsw|apply Hin|].
    intros s0. by split.
  - apply Hr, respects_get. intros s'. destruct (delayed s' !! k); [|apply respects_ret, _].
    apply respects_bind; [apply _|by apply mod_lasting|intros _]. apply Hsw.
Qed.
Lemma destroy_lasting p s : initial_web_contents_ (exec (ActivePage.handle (DestroyPage p)) s) = initial_web_contents_ s ∧
  pages (objects (exec (ActivePage.handle (DestroyPage p)) s)) = delete p (pages (objects s)).
Proof.
  cbn [ActivePage.handle]. unfold tell, Resolver.WebContentsDestroyed, post, on_objects.
  destruct s as [w ac fs ob rc rg cg ini inp td ts ds]. run_eff.
  destruct (bool_decide (ob = Some p)) eqn:Ho; simpl; [destruct cg|]; simpl; by rewrite Ho.
Qed.
Lemma pages_kept q i s : ActivePage.enabled i s = true → i ≠ DestroyPage q →
  initial_web_contents_ (exec (ActivePage.handle i) s) = initial_web_contents_ s ∧
  (is_Some (pages (objects s) !! q) → is_Some (pages (objects (exec (ActivePage.handle i) s)) !! q)).
Proof.
  intros Hen Hi.
  assert (Hc : (∃ p, i = DestroyPage p) ∨ ∀ p, i ≠ DestroyPage p) by (destruct i; first [by left; eexists|by right]).
  destruct Hc as [[p ->]|Hn].
  - destruct (destroy_lasting p s) as [H1 ->]. split; [exact H1|]. rewrite lookup_delete_ne; [done|congruence].
  - destruct (handle_lasting i s Hen Hn) as [H1 H2]. auto.
Qed.
End lasting.

(** ** The tabs the delegate holds *)

Section tabs.
Context {D : DisplayLib} {U : Unspecified} {T : TextLib} {J : JsonCodec} {L : UploadLib}.
Variable uploads_dir_ : string.

(** What happened to the pages. *)
Definition of_ui (e : event) : option ActivePage.event := match e with FromUi e => Some e | _ => None end.
Definition ui_trace (tr : list event) : list ActivePage.event := omap of_ui tr.
Lemma ui_trace_app a b : ui_trace (a ++ b) = (ui_trace a ++ ui_trace b)%list.
Proof. apply omap_app. Qed.
Lemma ui_trace_ui es : ui_trace (FromUi <$> es) = es.
Proof. induction es as [|e es IH]; [done|]. unfold ui_trace. rewrite fmap_cons. simpl. by f_equal. Qed.

(** The pages are tracked; each tab that is held is there, once, and is not the
    initial one. *)
Record tabs_ok (tr : list event) (s : delegate) : Prop := {
  ok_tracks : tracks (aim None (ui_trace tr)) (ui s);
  ok_once : NoDup (adopted_ s);
  ok_live p : p ∈ adopted_ s → is_Some (pages (objects (ui s)) !! p) ∧ initial_web_contents_ (ui s) ≠ Some p;
}.

(** What leaves the tabs and the pages alone and aims the capturer at nothing. *)
Definition aside (s : delegate) (es : list event) (s' : delegate) : Prop :=
  ui s' = ui s ∧ adopted_ s' = adopted_ s ∧ ∀ t, aim t (ui_trace es) = t.
#[local] Instance aside_rel : TraceRel aside.
Proof.
  split; [done|]. intros s1 s2 s3 es1 es2 (H1 & H2 & H3) (K1 & K2 & K3).
  split_and!; [congruence|congruence|]. intros t. unfold aim in *. by rewrite ui_trace_app, fold_left_app, H3, K3.
Qed.
Lemma aside_ok tr s es s' : aside s es s' → tabs_ok tr s → tabs_ok (tr ++ es) s'.
Proof.
  intros (H1 & H2 & H3) [I1 I2 I3]. split; rewrite ?H1, ?H2; try done.
  rewrite ui_trace_app. unfold aim in *. by rewrite fold_left_app, H3.
Qed.

Lemma files_aside {A} (m : eff rcv FileUpload.event A) : respects aside (on_files m).
Proof.
  intros s. split_and!; [done..|]. intros t. unfold on_files, events at 1. simpl.
  induction (events m (files s)) as [|e es IH]; [done|]. exact IH.
Qed.
Ltac aside_tac :=
  repeat first
    [ apply respects_ret, _ | apply files_aside | apply respects_get; intros ? | apply respects_when; [apply _|]
    | apply respects_bind; [apply _| |intros ?] | (apply respects_mod; by intros ?)
    | (apply respects_emit; by intros ?) | case_match ].
Lemma event_aside kind p : respects aside (SendTabEvent kind p).
Proof. unfold SendTabEvent. aside_tac. Qed.

(** A step of the pages that destroys none that is held. *)
Lemma ui_ok i tr s : ActivePage.enabled i (ui s) = true → (∀ p, i = DestroyPage p → p ∉ adopted_ s) →
  tabs_ok tr s → tabs_ok (tr ++ events (on_ui (ActivePage.handle i)) s) (exec (on_ui (ActivePage.handle i)) s).
Proof.
  intros Hen Hd [I1 I2 I3]. split; [|exact I2|].
  - rewrite ui_trace_app. unfold on_ui, events at 1, exec at 1. simpl. rewrite ui_trace_ui. unfold aim in *.
    rewrite fold_left_app. by apply step_tracks.
  - intros p Hp. unfold on_ui, exec at 1 3. simpl. destruct (I3 p Hp) as [H1 H2].
    destruct (pages_kept p i (ui s) Hen) as [-> H]; [|auto]. intros ->. by apply (Hd p).
Qed.

(** A window that is adopted is shown, focused, published and told of. *)
Lemma adopted p s :
  ui (exec (AddNewContents (Some p)) s) = ui s ∧ adopted_ (exec (AddNewContents (Some p)) s) = (adopted_ s ++ [p])%list ∧
  (∀ t, aim t (ui_trace (events (AddNewContents (Some p)) s)) = t) ∧
  control_channel_ (exec (AddNewContents (Some p)) s) = control_channel_ s.
Proof.
  unfold AddNewContents, AdoptWebContents, SendTabEvent, on_ui, on_objects. run_eff.
  destruct s as [ac cc fr fc ad fl se ask nr inf [w ? ? ? ? ? ? ? ? ? ? ?]]. simpl. by destruct cc.
Qed.
Lemma opens_ok p x tr s : enabled (Opens p x) s = true → tabs_ok tr s →
  tabs_ok (tr ++ events (handle uploads_dir_ (Opens p x)) s) (exec (handle uploads_dir_ (Opens p x)) s).
Proof.
  intros Hen Hok. pose proof Hen as Hn%bool_decide_eq_true_1. cbn [handle].
  rewrite events_bind, exec_bind, app_assoc.
  assert (H1 := ui_ok (CreatePage p x) tr s Hen ltac:(done) Hok).
  assert (Hu : initial_web_contents_ (ui s) ≠ Some p).
  { intros Hi. destruct (tracks_initial _ _ (ok_tracks _ _ Hok) p Hi) as [? ?]. congruence. }
  assert (Ha : p ∉ adopted_ s) by (intros [[? ?] _]%(ok_live _ _ Hok); congruence).
  set (s1 := exec (on_ui _) s) in *. set (tr1 := (tr ++ _)%list) in *.
  rewrite events_bind, exec_bind, app_nil_r. change (exec (mret tt) ?y) with y.
  destruct (adopted p s1) as (E1 & E2 & E3 & _). destruct H1 as [J1 J2 J3]. split.
  - rewrite ui_trace_app, E1. unfold aim in *. by rewrite fold_left_app, E3.
  - rewrite E2. apply NoDup_app. split_and!; [exact J2| |apply NoDup_singleton].
    intros q Hq Hin%list_elem_of_singleton. by subst.
  - rewrite E1, E2. intros q [Hq|Hq%list_elem_of_singleton]%elem_of_app; [by apply J3|]. subst q.
    unfold s1, on_ui, exec. simpl. rewrite lookup_insert, decide_True by done. split; [by eexists|done].
Qed.

Lemma erase_elem p q l : NoDup l → q ∈ erase p l ↔ q ∈ l ∧ q ≠ p.
Proof.
  induction 1 as [|r l Hr Hl IH]; simpl; [by rewrite elem_of_nil; naive_solver|].
  destruct (Nat.eqb_spec r p) as [->|Hne]; rewrite !elem_of_cons; [|rewrite IH]; naive_solver.
Qed.
Lemma erase_nodup p l : NoDup l → NoDup (erase p l).
Proof.
  induction 1 as [|r l Hr Hl IH]; simpl; [constructor|]. destruct (Nat.eqb_spec r p); [done|].
  constructor; [|done]. by rewrite erase_elem by done; intros [? _].
Qed.
Lemma closes_ok p tr s : enabled (Closes p) s = true → tabs_ok tr s →
  tabs_ok (tr ++ events (CloseContents p) s) (exec (CloseContents p) s).
Proof.
  intros Hen%bool_decide_eq_true_1 Hok. unfold CloseContents. rewrite events_bind, exec_bind, app_assoc.
  assert (H1 := aside_ok tr s _ _ (event_aside "tab_closed" (Some p) s) Hok).
  destruct (event_aside "tab_closed" (Some p) s) as (Hu & _).
  set (s1 := exec (SendTabEvent _ _) s) in *. rewrite <-Hu in Hen. clearbody s1. set (tr1 := (tr ++ _)%list) in *. clearbody tr1.
  rewrite events_get, exec_get. destruct (bool_decide (p ∈ adopted_ s1)) eqn:Hp; [|by rewrite app_nil_r].
  apply bool_decide_eq_true_1 in Hp. rewrite events_mod, exec_mod. destruct H1 as [I1 I2 I3].
  apply ui_ok.
  - simpl. rewrite !bool_decide_true; [done|by apply I3|done].
  - intros q [= <-]. simpl. rewrite erase_elem by done. by intros [_ ?].
  - split; simpl; [done|by apply erase_nodup|]. intros q [Hq _]%erase_elem; [|done]. by apply I3.
Qed.

Lemma step_ok i tr s : enabled i s = true → tabs_ok tr s →
  tabs_ok (tr ++ events (handle uploads_dir_ i) s) (exec (handle uploads_dir_ i) s).
Proof.
  intros Hen Hok.
  assert (Ha : (∀ s, aside s (events (handle uploads_dir_ i) s) (exec (handle uploads_dir_ i) s)) →
    tabs_ok (tr ++ events (handle uploads_dir_ i) s) (exec (handle uploads_dir_ i) s)) by (intros H; by apply (aside_ok tr s)).
  destruct i as [a c|b| |p x|p|p t|src url st cb|f|p|l params|n d|i|params| | |i].
  4: by apply opens_ok.
  4: by apply closes_ok.
  14: { simpl in Hen. apply andb_true_iff in Hen as [Hen Hd]. apply ui_ok; [done| |done]. intros p ->.
        by apply bool_decide_eq_true_1 in Hd. }
  all: apply Ha; cbn [handle];
    unfold SetSessionContext, SetFileUploadReceiver, OpenURLFromTab, EnterFullscreenModeForTab, ExitFullscreenModeForTab,
      send_fullscreen, RunFileChooser, chooser_reply, CanDownload, RequestMediaAccessPermission, HandleContextMenu;
    cbv zeta; match goal with |- ∀ s, aside s (events ?m s) _ => change (respects aside m) end; aside_tac.
Qed.
Lemma reachable_ok s0 s tr : tracks None (ui s0) → adopted_ s0 = [] →
  reachable enabled (handle uploads_dir_) s0 s tr → tabs_ok tr s.
Proof.
  intros Ht Ha. apply (reachable_trace_inv enabled (handle uploads_dir_) s0 (λ s tr, tabs_ok tr s)).
  - split; [done|rewrite Ha; constructor|]. rewrite Ha. by intros p ?%not_elem_of_nil.
  - intros i s' tr' _ Hok Hen. by apply step_ok.
Qed.

(** C37. At any time a tab the delegate holds is a page that is there, held once, and
    never the initial one, which is there as long as the process: a page that
    closes itself cannot leave the session without a surface. *)
Theorem tabs_owned s0 s tr : tracks None (ui s0) → adopted_ s0 = [] →
  reachable enabled (handle uploads_dir_) s0 s tr →
  NoDup (adopted_ s) ∧
  (∀ p, p ∈ adopted_ s → is_Some (pages (objects (ui s)) !! p) ∧ initial_web_contents_ (ui s) ≠ Some p) ∧
  (∀ q, initial_web_contents_ (ui s) = Some q → is_Some (pages (objects (ui s)) !! q)).
Proof.
  intros Ht Ha Hr. destruct (reachable_ok s0 s tr Ht Ha Hr) as [I1 I2 I3]. split_and!; [done|done|].
  apply (tracks_initial _ _ I1).
Qed.

(** *** A window opens *)

(** A window a page opens becomes a tab that is shown, focused and published, the
    viewer is told, and the page that is captured stays the one it was. *)
Theorem popup_adopted p x tr s : tabs_ok tr s → enabled (Opens p x) s = true → control_channel_ s = true →
  let m := handle uploads_dir_ (Opens p x) in
  adopted_ (exec m s) = (adopted_ s ++ [p])%list ∧ pages (objects (ui (exec m s))) !! p = Some x ∧
  Resolver.GetActiveWebContents (ui (exec m s)) = Resolver.GetActiveWebContents (ui s) ∧
  aim None (ui_trace (tr ++ events m s)) = aim None (ui_trace tr) ∧
  events m s = [ShowNativeView p; FromUi (To (WasShown p)); FromUi (To (Focus p)); GetOrCreateAgentHost p;
    SendEvent "tab_opened" [("targetId", VString (target_id (describe p s)));
      ("title", VString (UTF16ToUTF8 (tab_title (describe p s)))); ("url", VString (committed_url (describe p s)))]]%string.
Proof.
  intros Hok Hen Hcc m.
  assert (Hm : events m s = [ShowNativeView p; FromUi (To (WasShown p)); FromUi (To (Focus p)); GetOrCreateAgentHost p;
    SendEvent "tab_opened" [("targetId", VString (target_id (describe p s)));
      ("title", VString (UTF16ToUTF8 (tab_title (describe p s)))); ("url", VString (committed_url (describe p s)))]]%string).
  { unfold m, handle, AddNewContents, AdoptWebContents, SendTabEvent, on_ui, on_objects, describe. cbn [ActivePage.handle].
    unfold put_page, on_objects. run_eff. destruct s. simpl in *. by subst. }
  split_and!; [| | | |exact Hm].
  - unfold m. cbn [handle]. rewrite exec_bind, exec_bind. change (exec (mret tt) ?y) with y. by rewrite (proj1 (proj2 (adopted p _))).
  - unfold m. cbn [handle]. rewrite exec_bind, exec_bind. change (exec (mret tt) ?y) with y. rewrite (proj1 (adopted p _)).
    unfold on_ui, exec. simpl. by rewrite lookup_insert, decide_True.
  - unfold m. cbn [handle]. rewrite exec_bind, exec_bind. change (exec (mret tt) ?y) with y. by rewrite (proj1 (adopted p _)).
  - unfold aim. rewrite ui_trace_app, fold_left_app, Hm. done.
Qed.

(** *** A window closes *)

(** C14. A popup that is captured and closes itself, as the window of a login does:
    it is destroyed, and the next task of the main sequence has the capture on
    the initial tab, and the input with it. *)
Theorem popup_close_recaptures p q f tr s : tabs_ok tr s → p ∈ adopted_ s →
  Resolver.GetActiveWebContents (ui s) = Some p → initial_web_contents_ (ui s) = Some q →
  sink_of q (objects (ui s)) = Some f → captured_gone_ (ui s) = true → tearing_down_ (ui s) = false →
  tasks (ui s) = [] →
  let m := run (handle uploads_dir_) [Closes p; Ui TaskRuns] in
  pages (objects (ui (exec (handle uploads_dir_ (Closes p)) s))) !! p = None ∧ p ∉ adopted_ (exec m s) ∧
  Resolver.GetActiveWebContents (ui (exec m s)) = Some q ∧
  web_contents_ <$> viewport (objects (ui (exec m s))) = Some (Some q) ∧
  aim None (ui_trace (tr ++ events m s)) = Some f.
Proof.
  intros Hok Hp Ha Hq Hf Hcb Htd Hts m.
  assert (Hpq : p ≠ q) by (intros ->; by destruct (ok_live _ _ Hok q Hp)).
  assert (Hen : enabled (Closes p) s = true) by (apply bool_decide_eq_true_2; by apply (ok_live _ _ Hok)).
  assert (H1 := closes_ok p tr s Hen Hok).
  set (s1 := exec (CloseContents p) s) in *. set (tr1 := (tr ++ _)%list) in *.
  assert (E1 : ui s1 = exec (ActivePage.handle (DestroyPage p)) (ui s) ∧ adopted_ s1 = erase p (adopted_ s)).
  { destruct (event_aside "tab_closed" (Some p) s) as (Hu & Hd & _).
    unfold s1, CloseContents. rewrite exec_bind, exec_get, Hd, bool_decide_true, exec_mod by done.
    unfold on_ui, exec at 1 3. simpl. by rewrite Hu, Hd. }
  destruct E1 as [E1 Ea].
  destruct (destroyed_state p (ui s)) as (D1 & D2 & D3 & D4);
    [by rewrite (tracks_observed _ _ (ok_tracks _ _ Hok))|done|].
  rewrite <-E1 in D1, D2, D3, D4. rewrite Hts, Hcb in D4.
  assert (Hf1 : sink_of q (objects (ui s1)) = Some f).
  { rewrite D1. unfold sink_of, rwh_of, rwhv_of in *. simpl. by rewrite lookup_delete_ne. }
  assert (H2 := step_ok (Ui TaskRuns) tr1 s1 ltac:(done) H1).
  assert (Hm : exec m s = exec (handle uploads_dir_ (Ui TaskRuns)) s1 ∧
    (tr ++ events m s)%list = (tr1 ++ events (handle uploads_dir_ (Ui TaskRuns)) s1)%list).
  { assert (E : m s = (CloseContents p;; handle uploads_dir_ (Ui TaskRuns)) s) by apply (run_two (handle uploads_dir_) (Closes p)).
    assert (Ex : exec m s = exec (CloseContents p;; handle uploads_dir_ (Ui TaskRuns)) s) by (unfold exec; by rewrite E).
    assert (Ev : events m s = events (CloseContents p;; handle uploads_dir_ (Ui TaskRuns)) s) by (unfold events; by rewrite E).
    rewrite Ex, Ev, exec_bind, events_bind. unfold tr1. by rewrite <-app_assoc. }
  destruct Hm as [-> ->]. set (s2 := exec (handle uploads_dir_ _) s1) in *. set (tr2 := (tr1 ++ _)%list) in *.
  assert (E2 : ui s2 = exec RearmCaptureOnInitialTab ((ui s1) <| tasks := [] |>)).
  { unfold s2. cbn [handle]. change (ui (exec (on_ui ?k) s1)) with (exec k (ui s1)).
    cbn [ActivePage.handle]. rewrite exec_get, D4. cbn [app]. by rewrite exec_mod. }
  destruct (rearm_initial_captures q f (aim None (ui_trace tr1)) ((ui s1) <| tasks := [] |>)) as [R1 R2].
  - destruct (ok_tracks _ _ H1). by split.
  - simpl. by rewrite D3.
  - done.
  - change (tearing_down_ (ui s1) = false). by rewrite E1, destroyed_more.
  - rewrite <-E2 in R1, R2. pose proof (ok_tracks _ _ H2) as Ht2. split_and!.
    + cbn [handle]. fold s1. rewrite D1. simpl. by rewrite lookup_delete, decide_True.
    + change (p ∉ adopted_ s1). rewrite Ea, erase_elem by apply (ok_once _ _ Hok). by intros [_ ?].
    + done.
    + by apply (tracks_viewport _ _ Ht2).
    + by apply (tracks_sink _ _ Ht2).
Qed.

(** A page that the delegate does not hold, the initial one or one a DevTools
    client made, and that calls [window.close()] stays as it was; the viewer is
    told that it is closed. *)
Theorem unowned_close_misreported p s : p ∉ adopted_ s → control_channel_ s = true →
  let t := describe p s in
  CloseContents p s = (tt, s, [SendEvent "tab_closed" [("targetId", VString (target_id t));
    ("title", VString (UTF16ToUTF8 (tab_title t))); ("url", VString (committed_url t))]%string]).
Proof.
  intros Hp Hc. unfold CloseContents, SendTabEvent. run_eff. rewrite Hc. simpl.
  by rewrite bool_decide_false.
Qed.
End tabs.

(** ** Choosers *)

Section choosers.
Context {D : DisplayLib} {U : Unspecified} {T : TextLib} {J : JsonCodec} {L : UploadLib}.
Variable uploads_dir_ : string.

Definition cancels (l : nat) (e : event) : bool :=
  match e with
  | ListenerCanceled k => Nat.eqb k l
  | ToReceiver (FileSelectionCanceled k) => Nat.eqb k l
  | _ => false
  end.

(** A listener a page hands over is cancelled there and then when nobody can be
    asked, or for what a viewer cannot send; otherwise it is parked, whatever was
    parked is cancelled, and the viewer is asked once. *)
Theorem chooser_outcome listener params s :
  (∀ k, pending_listener_ (files s) = Some k → k ≠ listener) →
  let '(_, s', es) := RunFileChooser listener params s in
  if file_upload_receiver_ s && supported (mode params) && control_channel_ s
  then pending_listener_ (files s') = Some listener ∧ asked s' = (asked s ++ [(next_request s, session s)])%list ∧
    es = ((match pending_listener_ (files s) with Some k => [ToReceiver (FileSelectionCanceled k)] | None => [] end) ++
      [ToReceiver (Parked listener);
       SendRequest (next_request s) "file_chooser" (chooser_payload params) kFileChooserDeadline])%list
  else length (List.filter (cancels listener) es) = 1%nat ∧ asked s' = asked s ∧
    pending_listener_ (files s') ≠ Some listener.
Proof.
  intros Hp. unfold RunFileChooser, on_files, BeginChooser, CancelChooser. run_eff.
  destruct s as [ac cc fr fc ad [us sb pl pm cd al u p d] se ask nr inf u']. simpl in *.
  destruct fr; simpl; [|rewrite Nat.eqb_refl; split_and!; [done|done|intros ->; by apply (Hp listener)]].
  destruct (supported (mode params)); simpl; [|rewrite Nat.eqb_refl; split_and!; [done|done|intros ->; by apply (Hp listener)]].
  destruct cc, pl as [k|]; simpl; rewrite ?Nat.eqb_refl; try done.
  destruct (Nat.eqb_spec k listener) as [->|]; [by destruct (Hp listener)|done].
Qed.

(** An answer says only which receiver it is for.  When a second chooser is
    opened before the first is answered, the first one is cancelled, and a no
    to the first, or its deadline, cancels the second. *)
Theorem stale_answer_cancels_new_chooser l1 l2 p1 p2 response s :
  file_upload_receiver_ s = true → control_channel_ s = true → alive (files s) = true →
  supported (mode p1) = true → supported (mode p2) = true → pending_listener_ (files s) = None →
  asked s = [] → default false (FindBool "accept" response) = false →
  let m := run (handle uploads_dir_) [Chooses l1 p1; Chooses l2 p2; Answered (next_request s) response] in
  events m s =
    [ToReceiver (Parked l1); SendRequest (next_request s) "file_chooser" (chooser_payload p1) kFileChooserDeadline;
     ToReceiver (FileSelectionCanceled l1); ToReceiver (Parked l2);
     SendRequest (S (next_request s)) "file_chooser" (chooser_payload p2) kFileChooserDeadline;
     ToReceiver (FileSelectionCanceled l2)] ∧
  asked (exec m s) = [(S (next_request s), session s)].
Proof.
  intros Hr Hc Ha H1 H2 Hp Hk Hno. unfold run. rewrite !fmap_cons. cbn [eseq fmap list_fmap handle].
  unfold RunFileChooser, chooser_reply, on_files, BeginChooser, CancelChooser. run_eff.
  destruct s as [ac cc fr fc ad [us sb pl pm cd al u p d] se ask nr inf u']. simpl in *. subst.
  rewrite H1. simpl. rewrite H2. simpl. rewrite decide_True by done. simpl.
  rewrite Nat.eqb_refl, Hno. done.
Qed.
End choosers.

(** ** Full screen *)

Section fullscreen.
Context {D : DisplayLib} {U : Unspecified}.

Definition fullscreen_sent (b : bool) : event := SendEvent "fullscreen_changed" [("fullscreen", VBool b)]%string.

(** The viewer is told when a page leaves full screen that nothing is, although
    another page may be. *)
Theorem foreign_exit_misreported p q s : control_channel_ s = true → p ≠ q →
  let s1 := exec (EnterFullscreenModeForTab (Some p)) s in
  let s2 := exec (EnterFullscreenModeForTab (Some q)) s1 in
  let s3 := exec (ExitFullscreenModeForTab p) s2 in
  IsFullscreenForTabOrPending p s1 = true ∧ IsFullscreenForTabOrPending q s2 = true ∧
  events (ExitFullscreenModeForTab p) s2 = [fullscreen_sent false] ∧ IsFullscreenForTabOrPending q s3 = true.
Proof.
  intros Hc Hne. unfold EnterFullscreenModeForTab, ExitFullscreenModeForTab, send_fullscreen, IsFullscreenForTabOrPending.
  destruct s as [ac cc fr fc ad fl se ask nr inf u']. simpl in *. subst. run_eff.
  rewrite (bool_decide_false (Some q = Some p)) by congruence. simpl. by rewrite !bool_decide_true.
Qed.
End fullscreen.

(** ** Witnesses *)

#[local] Existing Instance plain_display.
#[local] Existing Instance defaults.
#[local] Existing Instance BitsCodec.bits_codec.
#[local] Existing Instance plain_lib.
#[local] Instance plain_text : TextLib := {| UTF16ToUTF8 _ := EmptyString; to_utf16 _ := [] |}.

(** A session that starts; a page opens a window and the window is captured. *)
Definition started : delegate := mkDelegate true true true None [] CbFileUploadReceiver 0 [] 0 ∅ at_boot.
Definition login_window : list input :=
  [Opens 2 (sink_page 22); Navigates 2 (mkTab "T2" "https://login.example/" []); Ui (CaptureStarted 2)].
Definition logging_in : delegate := exec (run (handle "Uploads") login_window) started.
Definition login_trace : list event := events (run (handle "Uploads") login_window) started.
Lemma login_reachable : reachable enabled (handle "Uploads") started logging_in login_trace.
Proof. apply run_reachable. vm_compute. reflexivity. Defined.
Lemma login_ok : tabs_ok login_trace logging_in.
Proof.
  exact (reachable_ok "Uploads" started logging_in login_trace
    (boot_tracks 1 boot_page boot_driver 0 ClockRebase.initial) eq_refl login_reachable).
Defined.

Lemma tabs_owned_witness : adopted_ logging_in = [2%nat] ∧ NoDup (adopted_ logging_in).
Proof.
  split; [vm_compute; reflexivity|].
  refine (proj1 (tabs_owned "Uploads" started logging_in login_trace _ eq_refl login_reachable)).
  exact (boot_tracks 1 boot_page boot_driver 0 ClockRebase.initial).
Defined.

Lemma popup_adopted_witness :
  adopted_ (exec (handle "Uploads" (Opens 3 blank_page)) logging_in) = [2%nat; 3%nat].
Proof.
  refine (proj1 (popup_adopted "Uploads" 3 blank_page login_trace logging_in login_ok _ _)); vm_compute; reflexivity.
Defined.

(** The login is done, the window closes, the first page is seen again. *)
Lemma popup_close_recaptures_witness :
  aim None (ui_trace (login_trace ++ events (run (handle "Uploads") [Closes 2; Ui TaskRuns]) logging_in)) = Some 11%nat.
Proof.
  refine (proj2 (proj2 (proj2 (proj2 (popup_close_recaptures "Uploads" 2 1 11 login_trace logging_in login_ok _ _ _ _ _ _ _)))));
    [vm_compute; left|vm_compute; reflexivity..].
Defined.

Lemma unowned_close_misreported_witness : exec (CloseContents 1) logging_in = logging_in.
Proof.
  unfold exec. rewrite (unowned_close_misreported 1 logging_in); [reflexivity| |reflexivity].
  assert (E : adopted_ logging_in = [2%nat]) by (vm_compute; reflexivity). rewrite E.
  by intros ?%list_elem_of_singleton.
Defined.

Definition one_file : FileChooserParams := mkChooser kOpen [] [].
Lemma chooser_outcome_witness : ∃ s' es,
  RunFileChooser 7 one_file started = (tt, s', es) ∧ pending_listener_ (files s') = Some 7%nat.
Proof.
  pose proof (chooser_outcome 7 one_file started ltac:(intros k; discriminate)) as H.
  destruct (RunFileChooser 7 one_file started) as [[[] s'] es]. exists s', es. split; [reflexivity|].
  exact (proj1 H).
Defined.

Lemma stale_answer_cancels_new_chooser_witness :
  asked (exec (run (handle "Uploads") [Chooses 7 one_file; Chooses 8 one_file; Answered 0 []]) started) = [(1%nat, 0%nat)].
Proof.
  refine (proj2 (stale_answer_cancels_new_chooser "Uploads" 7 8 one_file one_file [] started _ _ _ _ _ _ _ _)); reflexivity.
Defined.

Lemma foreign_exit_misreported_witness :
  IsFullscreenForTabOrPending 2 (exec (ExitFullscreenModeForTab 1)
    (exec (EnterFullscreenModeForTab (Some 2%nat)) (exec (EnterFullscreenModeForTab (Some 1%nat)) started))) = true.
Proof.
  refine (proj2 (proj2 (proj2 (foreign_exit_misreported 1 2 started _ _)))); [reflexivity|discriminate].
Defined.
