(* ===== verification/Downloads.v ===== *)
(** * Downloads (capture/build-integration/cb_download_manager_delegate.{h,cc})

    Where a download lands, and what the viewer is told of it.  Names are
    generated on the thread pool, whose tasks [pool] run in any order, and come
    back to the UI sequence, whose tasks are the FIFO [replies]; [disk] is the
    paths that exist.  An item is passed with what it says of itself at the time
    of the call. *)

From Stdlib Require Import ZArith Lia String.
From stdpp Require Import base tactics strings sets gmap list.
From S2P Require Import Prelude Numbers Values.
Open Scope Z_scope.

Definition kInvalidId : Z := 0.

Record DownloadItem := mkItem {
  item : nat;
  GetId : Z;                          (* uint32_t *)
  GetTargetFilePath : string;
  GetForcedFilePath : string;
  GetURL : string;
  GetMimeType : string;
  GetContentDisposition : string;
  GetSuggestedFilename : string;
  GetReceivedBytes : Z;
  GetTotalBytes : Z;
  GetState : Z;
  IsDone : bool;
}.

(** Paths and names, of Chromium's base and net; the empty path is the empty string. *)
Class Paths := {
  Append : string → string → string;
  AddExtension : string → string → string;
  BaseName : string → string;
  DirName : string → string;
  GenerateFileName : string → string → string → string → string;   (* the last resort is "download" *)
  GetUniquePath : gset string → string → string;
}.
Class PathLaws (P : Paths) := {
  append_named d n : Append d n ≠ EmptyString;
  extension_beside p e : p ≠ EmptyString → DirName (AddExtension p e) = DirName p;
  unique_free disk p : p ∉ disk → GetUniquePath disk p = p;
  unique_new disk p : GetUniquePath disk p = EmptyString ∨ GetUniquePath disk p ∉ disk;
}.

(** A name to generate: the callback it is for, and the arguments bound. *)
Record naming := mkNaming { callback : nat; of_item : DownloadItem; into : string }.

Record delegate := mkDelegate {
  download_manager_ : option nat;
  observed_items_ : gset nat;
  download_dir_ : string;
  next_download_id_ : Z;
  alive : bool;                                 (* weak pointers are valid *)
  control_channel_ : bool;                      (* of the page delegate *)
  pool : list naming;
  replies : list (nat * string);
  disk : gset string;
}.
#[export] Instance eta_delegate : Eta delegate := λ s,
  mkDelegate (download_manager_ s) (observed_items_ s) (download_dir_ s) (next_download_id_ s) (alive s)
    (control_channel_ s) (pool s) (replies s) (disk s).
Definition CbDownloadManagerDelegate : delegate :=
  mkDelegate None ∅ EmptyString (kInvalidId + 1) true false [] [] ∅.

Inductive event :=
| ManagerObserved (m : nat) | ManagerUnobserved (m : nat)
| ItemObserved (i : nat) | ItemUnobserved (i : nat)
| SendEvent (payload : DictValue)
| IdGiven (id : Z)
| TargetAsked (cb : nat)                        (* DetermineDownloadTarget is called *)
| TargetGiven (cb : nat) (target_path intermediate_path : string).
Abbreviation M := (eff delegate event).

Section downloads.
Context {P : Paths}.
Variable profile_path : string.                 (* the path of the browser context *)

Definition SetDownloadManager (manager : option nat) : M unit :=
  s ← eget;
  match download_manager_ s with
  | Some m => ewhen (negb (bool_decide (manager = Some m))) (emit (ManagerUnobserved m))
  | None => mret tt
  end;;
  emod (λ s, s <| download_manager_ := manager |>);;
  match manager with Some m => emit (ManagerObserved m) | None => mret tt end.

Definition EmitDownloadEvent (x : DownloadItem) (phase : string) : M unit :=
  s ← eget;
  ewhen (control_channel_ s)
    (emit (SendEvent
      (Set_ "state" (VInt (GetState x))
        (Set_ "total_bytes" (VDouble (double_of_Z (GetTotalBytes x)))
          (Set_ "received_bytes" (VDouble (double_of_Z (GetReceivedBytes x)))
            (Set_ "mime_type" (VString (GetMimeType x))
              (Set_ "url" (VString (GetURL x))
                (Set_ "filename" (VString (BaseName (GetTargetFilePath x)))
                  (Set_ "id" (VInt (wrap32 (GetId x)))
                    (Set_ "phase" (VString phase) [])))))))))).

Definition OnDownloadCreated (x : option DownloadItem) : M unit :=
  match x with
  | None => mret tt
  | Some x =>
      s ← eget;
      ewhen (negb (bool_decide (item x ∈ observed_items_ s)))
        (emod (λ s, s <| observed_items_ := {[item x]} ∪ observed_items_ s |>);; emit (ItemObserved (item x)));;
      EmitDownloadEvent x "started"
  end.

Definition ManagerGoingDown (manager : option nat) : M unit :=
  s ← eget;
  eseq ((λ i, emit (ItemUnobserved i)) <$> elements (observed_items_ s));;
  emod (λ s, s <| observed_items_ := ∅ |>);;
  match manager with Some m => emit (ManagerUnobserved m) | None => mret tt end;;
  ewhen (bool_decide (download_manager_ s = manager)) (emod (λ s, s <| download_manager_ := None |>)).

Definition OnDownloadUpdated (x : option DownloadItem) : M unit :=
  match x with
  | None => mret tt
  | Some x => EmitDownloadEvent x (if IsDone x then "complete" else "progress")
  end.

Definition OnDownloadDestroyed (i : nat) : M unit :=
  s ← eget;
  ewhen (bool_decide (i ∈ observed_items_ s))
    (emod (λ s, s <| observed_items_ := observed_items_ s ∖ {[i]} |>);; emit (ItemUnobserved i)).

Definition Shutdown : M unit := emod (λ s, s <| download_manager_ := None |>).
Definition SetDownloadDirForTesting (dir : string) : M unit := emod (λ s, s <| download_dir_ := dir |>).

(** [next_download_id_++] on [uint32_t]. *)
Definition GetNextId : M unit :=
  s ← eget;
  emod (λ s, s <| next_download_id_ := (next_download_id_ s + 1) mod 2 ^ 32 |>);;
  emit (IdGiven (next_download_id_ s)).

Definition ShouldOpenDownload : bool := false.

Definition DetermineDownloadTarget (cb : nat) (x : DownloadItem) : M bool :=
  emit (TargetAsked cb);;
  s ← eget;
  ewhen (String.eqb (download_dir_ s) "" && bool_decide (is_Some (download_manager_ s)))
    (emod (λ s, s <| download_dir_ := Append profile_path "Downloads" |>));;
  s ← eget;
  if String.eqb (download_dir_ s) "" then emit (TargetGiven cb "" "");; mret true
  else if negb (String.eqb (GetForcedFilePath x) "") then
    emit (TargetGiven cb (GetForcedFilePath x) (GetForcedFilePath x));; mret true
  else
    emod (λ s, s <| pool := (pool s ++ [mkNaming cb x (download_dir_ s)])%list |>);;
    mret true.

(** On the thread pool. *)
Definition chosen_path (n : naming) (d : gset string) : string :=
  let generated_name := GenerateFileName (GetURL (of_item n)) (GetContentDisposition (of_item n))
    (GetSuggestedFilename (of_item n)) (GetMimeType (of_item n)) in
  let suggested_path := GetUniquePath d (Append (into n) generated_name) in
  if String.eqb suggested_path "" then Append (into n) generated_name else suggested_path.
Definition GenerateFilename (n : naming) : M unit :=
  emod (λ s, s <| disk := {[into n]} ∪ disk s |>);;
  s ← eget;
  emod (λ s, s <| replies := (replies s ++ [(callback n, chosen_path n (disk s))])%list |>).

Definition OnDownloadPathGenerated (cb : nat) (suggested_path : string) : M unit :=
  emit (TargetGiven cb suggested_path (AddExtension suggested_path ".crdownload")).

(** ** Executions *)

Inductive input :=
| Manager (m : option nat) | GoingDown (m : option nat) | ShutsDown
| Created (x : option DownloadItem) | Updated (x : option DownloadItem) | ItemDestroyed (i : nat)
| Target (cb : nat) (x : DownloadItem)
| NextId
| PoolRuns (k : nat) | ReplyRuns
| ChannelSet (b : bool)
| DiskChanges (d : gset string)
| Destroyed.

Definition handle (i : input) : M unit :=
  match i with
  | Manager m => SetDownloadManager m
  | GoingDown m => ManagerGoingDown m
  | ShutsDown => Shutdown
  | Created x => OnDownloadCreated x
  | Updated x => OnDownloadUpdated x
  | ItemDestroyed i => OnDownloadDestroyed i
  | Target cb x => DetermineDownloadTarget cb x;; mret tt
  | NextId => GetNextId
  | PoolRuns k =>
      s ← eget;
      match pool s !! k with
      | None => mret tt
      | Some n => emod (λ s, s <| pool := delete k (pool s) |>);; GenerateFilename n
      end
  | ReplyRuns =>
      s ← eget;
      match replies s with
      | [] => mret tt
      | (cb, p) :: rs =>
          emod (λ s, s <| replies := rs |>);;
          ewhen (alive s) (OnDownloadPathGenerated cb p)
      end
  | ChannelSet b => emod (λ s, s <| control_channel_ := b |>)
  | DiskChanges d => emod (λ s, s <| disk := d |>)
  | Destroyed => emod (λ s, s <| alive := false |>)
  end.

(** The delegate is called while it is alive. *)
Definition enabled (i : input) (s : delegate) : bool :=
  match i with
  | PoolRuns _ | ReplyRuns | ChannelSet _ | DiskChanges _ => true
  | _ => alive s
  end.
End downloads.

(** ** Every target is given, once *)

Section targets.
Context {P : Paths} {PL : PathLaws P}.
Variable profile_path : string.

Definition asked1 (e : event) : option nat := match e with TargetAsked cb => Some cb | _ => None end.
Definition given1 (e : event) : option nat := match e with TargetGiven cb _ _ => Some cb | _ => None end.
Definition asked (tr : list event) : list nat := omap asked1 tr.
Definition given (tr : list event) : list nat := omap given1 tr.
Definition pending (s : delegate) : list nat := ((callback <$> pool s) ++ (replies s).*1)%list.

(** A path that is given: empty when there is no directory; otherwise the
    intermediate file is in the directory of the target. *)
Definition well_placed (e : event) : Prop :=
  match e with
  | TargetGiven _ t i => (t = EmptyString ∧ i = EmptyString) ∨ (t ≠ EmptyString ∧ DirName i = DirName t)
  | _ => True
  end.

Definition settling (s : delegate) (es : list event) (s' : delegate) : Prop :=
  (alive s' = true → alive s = true ∧ asked es ++ pending s ≡ₚ given es ++ pending s') ∧
  (Forall (λ r, r.2 ≠ EmptyString) (replies s) → Forall (λ r, r.2 ≠ EmptyString) (replies s') ∧ Forall well_placed es).
#[local] Instance settling_rel : TraceRel settling.
Proof.
  split; [by split; [|split]|]. intros s1 s2 s3 es1 es2 [H1 G1] [H2 G2]. split.
  - intros Ha. destruct (H2 Ha) as [Ha2 K2], (H1 Ha2) as [Ha1 K1]. split; [done|].
    unfold asked, given in *. rewrite !omap_app, <-!app_assoc, <-K2, (app_assoc _ (omap asked1 es2)).
    rewrite (Permutation_app_comm (omap asked1 es1)), <-app_assoc, K1. solve_Permutation.
  - intros Hr. destruct (G1 Hr) as [Hr2 F1], (G2 Hr2) as [Hr3 F2]. split; [done|]. by apply Forall_app.
Qed.

(** What is about neither targets nor names. *)
Definition idle (e : event) : Prop := match e with TargetAsked _ | TargetGiven _ _ _ => False | _ => True end.
Lemma idle_settling e : idle e → respects settling (emit e).
Proof. intros H s. split; [|intros Hr; split; [done|]]; destruct e; try done; by repeat constructor. Qed.
Lemma mod_settling f : (∀ s, alive (f s) = alive s ∧ pool (f s) = pool s ∧ replies (f s) = replies s) →
  respects settling (emod f).
Proof.
  intros H s. change (exec (emod f) s) with (f s). destruct (H s) as (H1 & H2 & H3).
  split; [|by rewrite H3]. unfold pending. by rewrite H1, H2, H3.
Qed.
Ltac idle_tac :=
  repeat first
    [ apply respects_ret, _ | (apply idle_settling; exact I) | apply respects_get; intros ?
    | (apply mod_settling; by intros ?) | apply respects_bind; [apply _| |intros ?] | apply respects_when; [apply _|]
    | case_match ].

Lemma emit_settling x phase : respects settling (EmitDownloadEvent x phase).
Proof. unfold EmitDownloadEvent. idle_tac. Qed.

Lemma target_settling cb x : respects settling (DetermineDownloadTarget profile_path cb x).
Proof.
  intros s. unfold DetermineDownloadTarget.
  rewrite events_bind, exec_bind, events_get, exec_get, events_bind, exec_bind, events_get, exec_get.
  change (exec (emit ?e) s) with s. change (events (emit ?e) s) with [e].
  set (d := ewhen _ _).
  assert (Hd : alive (exec d s) = alive s ∧ pool (exec d s) = pool s ∧ replies (exec d s) = replies s ∧ events d s = [])
    by (unfold d; by destruct (_ && _)).
  destruct Hd as (E1 & E2 & E3 & ->). set (s1 := exec d s) in *.
  destruct (String.eqb (download_dir_ s1) "").
  { change (settling s [TargetAsked cb; TargetGiven cb "" ""] s1). unfold settling, pending. rewrite E1, E2, E3.
    split; [done|]. intros Hr. split; [done|]. constructor; [exact I|]. apply Forall_singleton. by left. }
  destruct (String.eqb_spec (GetForcedFilePath x) "") as [Hf|Hf]; cbn [negb].
  - change (settling s [TargetAsked cb] (s1 <| pool := (pool s1 ++ [mkNaming cb x (download_dir_ s1)])%list |>)).
    unfold settling, pending. simpl. rewrite E1, E2, E3. split; [|intros Hr; split; [done|by repeat constructor]].
    intros Ha. split; [done|]. rewrite fmap_app. simpl. solve_Permutation.
  - change (settling s [TargetAsked cb; TargetGiven cb (GetForcedFilePath x) (GetForcedFilePath x)] s1).
    unfold settling, pending. rewrite E1, E2, E3.
    split; [done|]. intros Hr. split; [done|]. constructor; [exact I|]. apply Forall_singleton. by right.
Qed.

Lemma chosen_nonempty n d : chosen_path n d ≠ EmptyString.
Proof. unfold chosen_path. cbv zeta. match goal with |- context [String.eqb ?a ""] => destruct (String.eqb_spec a "") end; [apply append_named|done]. Qed.

Lemma handle_settling i : respects settling (handle profile_path i).
Proof.
  destruct i as [m|m| |x|x|i|cb x| |k| |b|d|]; cbn [handle].
  - unfold SetDownloadManager. idle_tac.
  - unfold ManagerGoingDown. apply respects_get. intros s. apply respects_bind; [apply _| |intros _; idle_tac].
    apply respects_seq; [apply _|]. apply Forall_fmap, Forall_true. intros i. by apply idle_settling.
  - unfold Shutdown. idle_tac.
  - destruct x as [x|]; [|idle_tac]. unfold OnDownloadCreated. apply respects_get. intros s.
    apply respects_bind; [apply _|idle_tac|intros _; apply emit_settling].
  - destruct x as [x|]; [apply emit_settling|cbn; idle_tac].
  - unfold OnDownloadDestroyed. idle_tac.
  - apply respects_bind; [apply _|apply target_settling|intros ?; idle_tac].
  - unfold GetNextId. idle_tac.
  - intros s. rewrite events_get, exec_get. destruct (pool s !! k) as [n|] eqn:Hk; [|apply (trace_rel_nil (R := settling))].
    unfold GenerateFilename. rewrite !events_mod, !exec_mod, events_get, exec_get. split.
    + intros Ha. split; [done|]. unfold pending. cbn. rewrite fmap_app. cbn.
      rewrite (delete_Permutation _ _ _ Hk) at 1. rewrite fmap_cons. solve_Permutation.
    + intros Hr. split; [|constructor]. cbn. apply Forall_app. split; [done|]. repeat constructor. apply chosen_nonempty.
  - intros s. rewrite events_get, exec_get. destruct (replies s) as [|[cb p] rs] eqn:Hr; [apply (trace_rel_nil (R := settling))|].
    rewrite events_mod, exec_mod. destruct (alive s) eqn:Ha; cbn [ewhen].
    + change (settling s [TargetGiven cb p (AddExtension p ".crdownload")] (s <| replies := rs |>)).
      unfold settling, pending. rewrite Hr, Ha. simpl. split.
      * intros _. split; [done|]. solve_Permutation.
      * intros [Hp Hrs]%Forall_cons. split; [done|]. apply Forall_singleton. right. split; [done|]. by apply extension_beside.
    + change (settling s [] (s <| replies := rs |>)). unfold settling. rewrite Ha, Hr. simpl. rewrite Ha.
      split; [done|]. intros [_ Hrs]%Forall_cons. by split.
  - idle_tac.
  - idle_tac.
  - intros s. by split.
Qed.

Lemma targets_inv s tr : reachable enabled (handle profile_path) CbDownloadManagerDelegate s tr →
  (alive s = true → asked tr ≡ₚ given tr ++ pending s) ∧ Forall (λ r, r.2 ≠ EmptyString) (replies s) ∧
  Forall well_placed tr.
Proof.
  apply (reachable_trace_inv enabled (handle profile_path) CbDownloadManagerDelegate
    (λ s tr, (alive s = true → asked tr ≡ₚ given tr ++ pending s) ∧ Forall (λ r, r.2 ≠ EmptyString) (replies s) ∧
      Forall well_placed tr)).
  { split_and!; [done|constructor|constructor]. }
  intros i s' tr' _ (H1 & H2 & H3) _. destruct (handle_settling i s') as [K1 K2].
  destruct (K2 H2) as [K3 K4]. split_and!; [|done|by apply Forall_app].
  intros Ha. destruct (K1 Ha) as [Ha' Hp]. unfold asked, given in *. rewrite !omap_app, (H1 Ha'), <-!app_assoc.
  by rewrite <-Hp, (Permutation_app_comm (omap asked1 _)).
Qed.

(** As long as the delegate lives, the callbacks it was handed are those it has
    run and those that wait for a name or for the main sequence, each once.
    Every target has a name, beside which its intermediate file lies, but the
    empty one that cancels a download that has no directory. *)
Theorem targets_settled s tr : reachable enabled (handle profile_path) CbDownloadManagerDelegate s tr →
  (alive s = true → asked tr ≡ₚ given tr ++ pending s) ∧ Forall well_placed tr.
Proof. intros (H1 & _ & H3)%targets_inv. by split. Qed.

(** The pool and the main sequence run what they have. *)
Definition drain (s : delegate) : list input :=
  (replicate (length (pool s)) (PoolRuns 0) ++ replicate (length (pool s) + length (replies s)) ReplyRuns)%list.
Lemma drain_pool n s : length (pool s) = n → alive s = true →
  let s' := exec (run (handle profile_path) (replicate n (PoolRuns 0))) s in
  pool s' = [] ∧ length (replies s') = (n + length (replies s))%nat ∧ alive s' = true.
Proof.
  revert s. induction n as [|n IH]; intros s Hn Ha; [by apply nil_length_inv in Hn|]. cbv zeta. cbn [replicate].
  rewrite (proj1 (run_first _ _ _ _)). destruct (pool s) as [|x xs] eqn:Hp; [done|]. injection Hn as Hn.
  set (s1 := exec (handle profile_path (PoolRuns 0)) s).
  assert (E : pool s1 = xs ∧ length (replies s1) = S (length (replies s)) ∧ alive s1 = true).
  { unfold s1. cbn [handle]. rewrite exec_get, Hp. cbn [lookup list_lookup]. rewrite exec_mod. unfold GenerateFilename.
    rewrite exec_mod, exec_get. cbn. rewrite Hp. cbn. split_and!; [done| |done]. rewrite length_app. cbn. lia. }
  destruct E as (E1 & E2 & E3). destruct (IH s1 ltac:(by rewrite E1) E3) as (F1 & F2 & F3). split_and!; [done| |done]. lia.
Qed.
Lemma drain_replies n s : length (replies s) = n → alive s = true →
  let s' := exec (run (handle profile_path) (replicate n ReplyRuns)) s in
  replies s' = [] ∧ pool s' = pool s ∧ alive s' = true.
Proof.
  revert s. induction n as [|n IH]; intros s Hn Ha; [by apply nil_length_inv in Hn|]. cbv zeta. cbn [replicate].
  rewrite (proj1 (run_first _ _ _ _)). destruct (replies s) as [|[cb p] rs] eqn:Hr; [done|]. injection Hn as Hn.
  set (s1 := exec (handle profile_path ReplyRuns) s).
  assert (E : replies s1 = rs ∧ pool s1 = pool s ∧ alive s1 = true).
  { unfold s1. cbn [handle]. rewrite exec_get, Hr, exec_mod, Ha. by split_and!. }
  destruct E as (E1 & E2 & E3). destruct (IH s1 ltac:(by rewrite E1) E3) as (F1 & F2 & F3). split_and!; [done| |done]. congruence.
Qed.

Lemma drain_asks_none n m s :
  asked (events (run (handle profile_path) (replicate n (PoolRuns 0) ++ replicate m ReplyRuns)) s) = [].
Proof.
  assert (Hq : ∀ i s, i = PoolRuns 0 ∨ i = ReplyRuns → asked (events (handle profile_path i) s) = []).
  { intros i s0 [->| ->]; cbn [handle]; rewrite events_get.
    - destruct (pool s0 !! 0%nat); [|done]. by unfold GenerateFilename; rewrite !events_mod, events_get.
    - destruct (replies s0) as [|[cb p] rs]; [done|]. rewrite events_mod. by destruct (alive s0). }
  assert (Hall : Forall (λ i, i = PoolRuns 0 ∨ i = ReplyRuns) (replicate n (PoolRuns 0) ++ replicate m ReplyRuns)).
  { apply Forall_app. split; apply Forall_replicate; auto. }
  revert s. induction Hall as [|i ins Hi _ IH]; intros s; [done|].
  rewrite (proj2 (run_first _ _ _ _)). unfold asked in *. by rewrite omap_app, Hq, IH.
Qed.

(** C36. No download hangs: once the tasks that are posted have run, every callback
    has been run. *)
Theorem targets_given s tr : reachable enabled (handle profile_path) CbDownloadManagerDelegate s tr → alive s = true →
  asked tr ≡ₚ given (tr ++ events (run (handle profile_path) (drain s)) s).
Proof.
  intros Hr Ha. destruct (targets_inv s tr Hr) as (H1 & _ & _).
  destruct (run_app (handle profile_path) (replicate (length (pool s)) (PoolRuns 0))
    (replicate (length (pool s) + length (replies s)) ReplyRuns) s) as [Hx _].
  destruct (drain_pool _ s eq_refl Ha) as (D1 & D2 & D3). set (s1 := exec (run (handle profile_path) (replicate (length (pool s)) (PoolRuns 0))) s) in *.
  destruct (drain_replies _ s1 D2 D3) as (F1 & F2 & F3). fold (drain s) in Hx. rewrite <-Hx in F1, F2, F3.
  assert (Hd : settling s (events (run (handle profile_path) (drain s)) s) (exec (run (handle profile_path) (drain s)) s)).
  { apply (respects_seq settling), Forall_fmap, Forall_true. intros i. apply handle_settling. }
  destruct (proj1 Hd F3) as [_ Hp]. unfold pending in Hp. rewrite F1, F2, D1 in Hp. cbn in Hp. rewrite app_nil_r in Hp.
  rewrite (drain_asks_none _ _ s : asked (events (run (handle profile_path) (drain s)) s) = []) in Hp. cbn [app] in Hp. unfold given in *. by rewrite omap_app, (H1 Ha), Hp.
Qed.
End targets.

(** ** Two downloads of one name *)

Section names.
Context {P : Paths} {PL : PathLaws P}.
Variable profile_path : string.

Definition named (x : DownloadItem) : string :=
  GenerateFileName (GetURL x) (GetContentDisposition x) (GetSuggestedFilename x) (GetMimeType x).

Lemma chosen_new n d : GetUniquePath d (Append (into n) (named (of_item n))) ≠ EmptyString → chosen_path n d ∉ d.
Proof.
  intros H. unfold chosen_path. cbv zeta. fold (named (of_item n)).
  destruct (unique_new d (Append (into n) (named (of_item n)))) as [?|Hn]; [done|].
  by destruct (String.eqb_spec (GetUniquePath d (Append (into n) (named (of_item n)))) "").
Qed.

(** The name of a download is only looked for among the files that are there, and
    while it runs its bytes are in the intermediate file.  So a second download of
    the same name that starts meanwhile is given the same target, and the same
    intermediate file. *)
Theorem running_downloads_share_target a b x y s :
  let p := Append (download_dir_ s) (named x) in let part := AddExtension p ".crdownload" in
  named y = named x → GetForcedFilePath x = EmptyString → GetForcedFilePath y = EmptyString →
  alive s = true → download_dir_ s ≠ EmptyString → pool s = [] → replies s = [] →
  p ∉ disk s → p ≠ download_dir_ s → p ≠ part →
  events (run (handle profile_path) [Target a x; PoolRuns 0; ReplyRuns;
    DiskChanges ({[part]} ∪ ({[download_dir_ s]} ∪ disk s)); Target b y; PoolRuns 0; ReplyRuns]) s =
  [TargetAsked a; TargetGiven a p part; TargetAsked b; TargetGiven b p part].
Proof.
  intros p part Hn Hx Hy Ha Hd Hpl Hr Hp Hpd Hpp.
  assert (Hc : ∀ cb z, named z = named x → ∀ d, p ∉ d → chosen_path (mkNaming cb z (download_dir_ s)) d = p).
  { intros cb z Hz d Hd'. unfold chosen_path. cbn [of_item into]. fold (named z). rewrite Hz. fold p.
    rewrite unique_free by done. destruct (String.eqb_spec p ""); done. }
  assert (Hone : ∀ cb z s0, named z = named x → GetForcedFilePath z = EmptyString → alive s0 = true →
    download_dir_ s0 = download_dir_ s → pool s0 = [] → replies s0 = [] → p ∉ disk s0 →
    run (handle profile_path) [Target cb z; PoolRuns 0; ReplyRuns] s0 =
      (tt, s0 <| disk := {[download_dir_ s]} ∪ disk s0 |>, [TargetAsked cb; TargetGiven cb p part])).
  { intros cb z s0 Hz Hf Ha0 Hd0 Hp0 Hr0 Hk. destruct s0 as [mg ob dir nx al ch pl rp dk]. simpl in *. subst.
    unfold run. rewrite !fmap_cons, fmap_nil. cbn [eseq handle]. unfold DetermineDownloadTarget, GenerateFilename,
      OnDownloadPathGenerated. run_eff.
    destruct (String.eqb_spec (download_dir_ s) "") as [?|_]; [done|]. simpl. rewrite Hf.
    destruct (String.eqb_spec (download_dir_ s) "") as [?|_]; [done|]. simpl.
    rewrite Hc by (try done; set_solver). done. }
  change [Target a x; PoolRuns 0; ReplyRuns; DiskChanges ({[part]} ∪ ({[download_dir_ s]} ∪ disk s)); Target b y; PoolRuns 0; ReplyRuns]
    with ([Target a x; PoolRuns 0; ReplyRuns] ++ ([DiskChanges ({[part]} ∪ ({[download_dir_ s]} ∪ disk s))] ++ [Target b y; PoolRuns 0; ReplyRuns]))%list.
  set (disk' := {[part]} ∪ ({[download_dir_ s]} ∪ disk s)).
  set (s1 := s <| disk := {[download_dir_ s]} ∪ disk s |>). set (s2 := s1 <| disk := disk' |>).
  assert (E1 : run (handle profile_path) [Target a x; PoolRuns 0; ReplyRuns] s = (tt, s1, [TargetAsked a; TargetGiven a p part]))
    by (by apply Hone).
  assert (E2 : run (handle profile_path) [DiskChanges disk'] s1 = (tt, s2, [])) by reflexivity.
  assert (E3 : run (handle profile_path) [Target b y; PoolRuns 0; ReplyRuns] s2 =
    (tt, s2 <| disk := {[download_dir_ s]} ∪ disk s2 |>, [TargetAsked b; TargetGiven b p part])).
  { apply Hone; try done. unfold s2, disk'. cbn. set_solver. }
  unfold events. by rewrite (run_chain _ _ _ _ _ _ _ _ E1 (run_chain _ _ _ _ _ _ _ _ E2 E3)).
Qed.
End names.

(** ** Identifiers and observations *)

Section ids.
Context {P : Paths}.
Variable profile_path : string.

Definition id1 (e : event) : option Z := match e with IdGiven id => Some id | _ => None end.
Definition ids (tr : list event) : list Z := omap id1 tr.

(** The items the delegate is an observer of; [None]: one is added twice, or one
    that is not there is removed. *)
Fixpoint observing (o : gset nat) (tr : list event) : option (gset nat) :=
  match tr with
  | [] => Some o
  | ItemObserved i :: tr' => if bool_decide (i ∈ o) then None else observing ({[i]} ∪ o) tr'
  | ItemUnobserved i :: tr' => if bool_decide (i ∈ o) then observing (o ∖ {[i]}) tr' else None
  | _ :: tr' => observing o tr'
  end.
Lemma observing_app o a b : observing o (a ++ b) = observing o a ≫= λ o', observing o' b.
Proof. revert o. induction a as [|e a IH]; intros o; [done|]. destruct e; simpl; try apply IH; case_bool_decide; [done|apply IH|apply IH|done]. Qed.

Definition watching (s : delegate) (es : list event) (s' : delegate) : Prop :=
  observing (observed_items_ s) es = Some (observed_items_ s') ∧
  ids es = [] ∧ next_download_id_ s' = next_download_id_ s.
#[local] Instance watching_rel : TraceRel watching.
Proof.
  split; [done|]. intros s1 s2 s3 es1 es2 (H1 & H2 & H3) (K1 & K2 & K3). split_and!; [|unfold ids in *|congruence].
  - by rewrite observing_app, H1.
  - by rewrite omap_app, H2, K2.
Qed.
Definition plain (e : event) : Prop := match e with ItemObserved _ | ItemUnobserved _ | IdGiven _ => False | _ => True end.
Lemma emit_watching e : plain e → respects watching (emit e).
Proof. intros H s. by destruct e. Qed.
Lemma mod_watching f : (∀ s, observed_items_ (f s) = observed_items_ s ∧ next_download_id_ (f s) = next_download_id_ s) →
  respects watching (emod f).
Proof. intros H s. destruct (H s) as [H1 H2]. split_and!; [|done|done]. cbn. by rewrite H1. Qed.
Ltac watch_tac :=
  repeat first
    [ apply respects_ret, _ | (apply emit_watching; exact I) | apply respects_get; intros ?
    | (apply mod_watching; by intros ?) | apply respects_bind; [apply _| |intros ?] | apply respects_when; [apply _|]
    | case_match ].

Lemma unobserve_all l o : NoDup l → o = list_to_set l → observing o (ItemUnobserved <$> l) = Some ∅.
Proof.
  intros Hl. revert o. induction Hl as [|i l Hi _ IH]; intros o ->; [done|]. rewrite fmap_cons. cbn [observing].
  rewrite bool_decide_true by set_solver. apply IH. set_solver.
Qed.
Lemma going_down_watching m : respects watching (ManagerGoingDown m).
Proof.
  intros s. unfold ManagerGoingDown. rewrite events_get, exec_get.
  set (l := elements (observed_items_ s)).
  assert (E : eseq ((λ i, emit (ItemUnobserved i)) <$> l) s = (tt, s, ItemUnobserved <$> l)).
  { generalize l. intros l'. induction l' as [|i l' IH]; [done|]. rewrite !fmap_cons. cbn [eseq]. unfold mbind, eff_bind.
    cbn. by rewrite IH. }
  assert (Ex : exec (eseq ((λ i, emit (ItemUnobserved i)) <$> l)) s = s) by (unfold exec; by rewrite E).
  assert (Ev : events (eseq ((λ i, emit (ItemUnobserved i)) <$> l)) s = ItemUnobserved <$> l) by (unfold events; by rewrite E).
  rewrite events_bind, exec_bind, Ex, Ev.
  rewrite events_mod, exec_mod.
  match goal with |- watching s (_ ++ events ?k ?s0) (exec ?k ?s0) => assert (H : respects watching k) by watch_tac;
    destruct (H s0) as (H1 & H2 & H3) end.
  split_and!.
  - rewrite observing_app, (unobserve_all l (observed_items_ s)); [exact H1|apply NoDup_elements|].
    unfold l. by rewrite list_to_set_elements_L.
  - unfold ids in *. rewrite omap_app, H2, app_nil_r. clear. induction l; [done|]. done.
  - by rewrite H3.
Qed.

Lemma handle_watching i : i ≠ NextId → respects watching (handle profile_path i).
Proof.
  assert (He : ∀ x phase, respects watching (EmitDownloadEvent x phase)) by (intros; unfold EmitDownloadEvent; watch_tac).
  destruct i as [m|m| |x|x|i|cb x| |k| |b|d|]; intros Hi; cbn [handle]; try done.
  - unfold SetDownloadManager. watch_tac.
  - apply going_down_watching.
  - destruct x as [x|]; [|watch_tac]. unfold OnDownloadCreated. intros s. rewrite events_get, exec_get.
    set (k := ewhen _ _). assert (Hk : watching s (events k s) (exec k s)).
    { unfold k. destruct (bool_decide (item x ∈ observed_items_ s)) eqn:Hb; [done|]. split_and!; [|done|done].
      change (observing (observed_items_ s) [ItemObserved (item x)] = Some ({[item x]} ∪ observed_items_ s)).
      cbn [observing]. by rewrite Hb. }
    rewrite events_bind, exec_bind. eapply trace_rel_app; [exact Hk|apply He].
  - destruct x as [x|]; [apply He|cbn; watch_tac].
  - unfold OnDownloadDestroyed. intros s. rewrite events_get, exec_get.
    destruct (bool_decide (i ∈ observed_items_ s)) eqn:Hb; cbn [ewhen]; [|by split_and!].
    split_and!; [|done|done].
    change (observing (observed_items_ s) [ItemUnobserved i] = Some (observed_items_ s ∖ {[i]})). cbn [observing]. by rewrite Hb.
  - unfold DetermineDownloadTarget. watch_tac.
  - unfold GenerateFilename. watch_tac.
  - unfold OnDownloadPathGenerated. watch_tac.
Qed.

Lemma observed_inv s tr : reachable enabled (handle profile_path) CbDownloadManagerDelegate s tr →
  observing ∅ tr = Some (observed_items_ s) ∧
  ids tr = (λ k, (k + 1) mod 2 ^ 32) <$> seqZ 0 (Z.of_nat (length (ids tr))).
Proof.
  intros Hr.
  enough (H : observing ∅ tr = Some (observed_items_ s) ∧
    ids tr = (λ k, (k + 1) mod 2 ^ 32) <$> seqZ 0 (Z.of_nat (length (ids tr))) ∧
    next_download_id_ s = (Z.of_nat (length (ids tr)) + 1) mod 2 ^ 32) by (split; apply H).
  revert Hr. apply (reachable_trace_inv enabled (handle profile_path) CbDownloadManagerDelegate
    (λ s tr, observing ∅ tr = Some (observed_items_ s) ∧
      ids tr = (λ k, (k + 1) mod 2 ^ 32) <$> seqZ 0 (Z.of_nat (length (ids tr))) ∧
      next_download_id_ s = (Z.of_nat (length (ids tr)) + 1) mod 2 ^ 32)); [done|].
  intros i s' tr' _ (H1 & H2 & H3) _.
  assert (Hc : i = NextId ∨ i ≠ NextId) by (destruct i; auto). destruct Hc as [->|Hi].
  - change (events (handle profile_path NextId) s') with [IdGiven (next_download_id_ s')].
    change (next_download_id_ (exec (handle profile_path NextId) s')) with ((next_download_id_ s' + 1) mod 2 ^ 32).
    unfold ids in *. rewrite omap_app, length_app, H3. cbn [omap list_omap id1 length]. split_and!.
    + by rewrite observing_app, H1.
    + rewrite Nat2Z.inj_add, seqZ_app by lia. rewrite fmap_app, <-H2. f_equal.
    + rewrite Zplus_mod_idemp_l. f_equal. lia.
  - destruct (handle_watching i Hi s') as (K1 & K2 & K3). unfold ids in *. rewrite !omap_app, K2, app_nil_r.
    split_and!; [by rewrite observing_app, H1|done|congruence].
Qed.

(** Whatever is created, destroyed and shut down, in any order, the delegate is
    added to an item when it is not an observer of it, removed when it is, and
    observes exactly the items it keeps. *)
Theorem items_observed_once s tr : reachable enabled (handle profile_path) CbDownloadManagerDelegate s tr →
  observing ∅ tr = Some (observed_items_ s).
Proof. by intros [H _]%observed_inv. Qed.

(** The identifiers given are valid and distinct for the first 2^32 - 1
    downloads; the one after them is the invalid one. *)
Theorem ids_valid_until_wrap s tr : reachable enabled (handle profile_path) CbDownloadManagerDelegate s tr →
  let n := Z.of_nat (length (ids tr)) in
  (n < 2 ^ 32 → NoDup (ids tr) ∧ kInvalidId ∉ ids tr) ∧ (2 ^ 32 <= n → kInvalidId ∈ ids tr).
Proof.
  intros [_ H]%observed_inv n. fold n in H. rewrite H. split.
  - intros Hn.
    assert (E : (λ k, (k + 1) mod 2 ^ 32) <$> seqZ 0 n = Z.succ <$> seqZ 0 n).
    { apply list_fmap_ext. intros k x Hx%list_elem_of_lookup_2%elem_of_seqZ. rewrite Z.mod_small; lia. }
    rewrite E. split; [apply NoDup_fmap_2; [intros x y; lia|apply NoDup_seqZ]|].
    unfold kInvalidId. intros (k & Hk & Hin%elem_of_seqZ)%list_elem_of_fmap. lia.
  - intros Hn. apply list_elem_of_fmap. exists (2 ^ 32 - 1). split; [done|]. apply elem_of_seqZ. lia.
Qed.
End ids.

(** ** Witnesses *)

(** Paths as text; a name is looked for once, then with a number. *)
#[local] Instance plain_paths : Paths := {|
  Append d n := (d ++ "/" ++ n)%string;
  AddExtension p e := (p ++ e)%string;
  BaseName p := p;
  DirName p := EmptyString;
  GenerateFileName _ _ suggested _ := if String.eqb suggested "" then "download"%string else suggested;
  GetUniquePath disk p := if bool_decide (p ∈ disk) then
      (if bool_decide ((p ++ " (1)")%string ∈ disk) then EmptyString else (p ++ " (1)")%string) else p;
|}.
#[local] Instance plain_path_laws : PathLaws plain_paths.
Proof.
  split.
  - intros d n. simpl. by destruct d.
  - done.
  - intros disk p Hp. simpl. by rewrite bool_decide_false.
  - intros disk p. simpl. case_bool_decide as H1; [|by right]. case_bool_decide as H2; [by left|by right].
Defined.

Definition report (i : nat) : DownloadItem := mkItem i (Z.of_nat i) "" "" "https://x/report.pdf" "application/pdf" "" "report.pdf" 0 (-1) 0 false.
Definition two_downloads : list input :=
  [Manager (Some 1%nat); ChannelSet true; NextId; Created (Some (report 1)); Target 1 (report 1); PoolRuns 0; ReplyRuns;
   NextId; Created (Some (report 2)); Created (Some (report 1)); Target 2 (report 2); ItemDestroyed 1].
Definition downloading : delegate := exec (run (handle "/home") two_downloads) CbDownloadManagerDelegate.
Definition download_trace : list event := events (run (handle "/home") two_downloads) CbDownloadManagerDelegate.
Lemma downloading_reachable : reachable enabled (handle "/home") CbDownloadManagerDelegate downloading download_trace.
Proof. apply run_reachable. vm_compute. reflexivity. Defined.

Lemma targets_settled_witness : asked download_trace ≡ₚ given download_trace ++ pending downloading ∧ pending downloading = [2%nat].
Proof.
  split; [|vm_compute; reflexivity].
  apply (proj1 (targets_settled "/home" downloading download_trace downloading_reachable)). vm_compute. reflexivity.
Defined.
Lemma targets_given_witness :
  asked download_trace ≡ₚ given (download_trace ++ events (run (handle "/home") (drain downloading)) downloading).
Proof.
  apply (targets_given "/home" downloading download_trace downloading_reachable). vm_compute. reflexivity.
Defined.
Lemma items_observed_once_witness :
  observing ∅ download_trace = Some (observed_items_ downloading) ∧ elements (observed_items_ downloading) = [2%nat].
Proof.
  split; [exact (items_observed_once "/home" downloading download_trace downloading_reachable)|vm_compute; reflexivity].
Defined.
Lemma ids_valid_until_wrap_witness : NoDup (ids download_trace) ∧ ids download_trace = [1; 2].
Proof.
  split; [|vm_compute; reflexivity].
  apply (proj1 (ids_valid_until_wrap "/home" downloading download_trace downloading_reachable)). vm_compute. reflexivity.
Defined.
Lemma running_downloads_share_target_witness :
  let s := CbDownloadManagerDelegate <| download_dir_ := "/d"%string |> in
  let part := AddExtension (Append "/d" (named (report 1))) ".crdownload" in
  events (run (handle "/home") [Target 1 (report 1); PoolRuns 0; ReplyRuns;
    DiskChanges ({[part]} ∪ ({["/d"%string]} ∪ ∅)); Target 2 (report 2); PoolRuns 0; ReplyRuns]) s =
  [TargetAsked 1; TargetGiven 1 "/d/report.pdf" "/d/report.pdf.crdownload";
   TargetAsked 2; TargetGiven 2 "/d/report.pdf" "/d/report.pdf.crdownload"].
Proof.
  exact (running_downloads_share_target "/home" 1 2 (report 1) (report 2)
    (CbDownloadManagerDelegate <| download_dir_ := "/d"%string |>) eq_refl eq_refl eq_refl eq_refl
    ltac:(discriminate) eq_refl eq_refl ltac:(apply not_elem_of_empty) ltac:(discriminate) ltac:(discriminate)).
Defined.
