(* ===== verification/AuraClients.v ===== *)
(** * The clients of the aura root (capture/build-integration/cb_cursor_client,
      cb_focus_client, cb_window_parenting_client, cb_aura_platform_data)

    [Cursor]: what the page asks of the cursor, on its way to [CursorEmitter].
    [Focus]: the focused window and who is told.  [Layout]: the sizes of the
    children of the root.  An observer that calls back into the focus client is
    an input that follows. *)

From Stdlib Require Import ZArith Lia.
From stdpp Require Import base tactics gmap sets list.
From S2P Require Import Prelude Numbers FrameCapture Viewport.
Open Scope Z_scope.

Module Cursor.

Record client := mkClient {
  current_cursor_ : Z;                   (* its type *)
  visible_ : bool;
  mouse_events_enabled_ : bool;
  cursor_lock_count_ : Z;                (* int *)
  cursor_size_ : Z;
  large_cursor_size_in_dip_ : Z;
  cursor_color_ : Z;
  display_ : option nat;
  change_callback_ : bool;
  root_window_ : bool;
  observers_ : list nat;
}.
#[export] Instance eta_client : Eta client := λ s,
  mkClient (current_cursor_ s) (visible_ s) (mouse_events_enabled_ s) (cursor_lock_count_ s) (cursor_size_ s)
    (large_cursor_size_in_dip_ s) (cursor_color_ s) (display_ s) (change_callback_ s) (root_window_ s) (observers_ s).
(** The defaults are constants of Chromium. *)
Definition CbCursorClient (pointer normal large default_color : Z) : client :=
  mkClient pointer true true 0 normal large default_color None false true [].

Inductive event :=
| Changed (ty : Z) (visible : bool)                            (* the change callback *)
| OnCursorVisibilityChanged (observer : nat) (visible : bool).
Abbreviation M := (eff client event).

Definition SetCursorChangeCallback (callback : bool) : M unit := emod (λ s, s <| change_callback_ := callback |>).
Definition report : M unit :=
  s ← eget; ewhen (change_callback_ s) (emit (Changed (current_cursor_ s) (visible_ s))).
Definition HandleCursorSet (cursor : Z) : M unit := emod (λ s, s <| current_cursor_ := cursor |>);; report.
Definition SetCursor (cursor : Z) : M unit := HandleCursorSet cursor.
Definition SetCursorForced (cursor : Z) : M unit := HandleCursorSet cursor.
Definition GetCursor (s : client) : Z := current_cursor_ s.

Definition tell_observers (visible : bool) : M unit :=
  s ← eget; eseq ((λ o, emit (OnCursorVisibilityChanged o visible)) <$> observers_ s).
Definition ShowCursor : M unit :=
  s ← eget;
  let changed := negb (visible_ s) in
  emod (λ s, s <| visible_ := true |>);;
  ewhen changed (tell_observers true;; report).
Definition HideCursor : M unit :=
  s ← eget;
  let changed := visible_ s in
  emod (λ s, s <| visible_ := false |>);;
  ewhen changed (tell_observers false;; report).
Definition IsCursorVisible (s : client) : bool := visible_ s.

Definition SetCursorSize (z : Z) : M unit := emod (λ s, s <| cursor_size_ := z |>).
Definition GetCursorSize (s : client) : Z := cursor_size_ s.
Definition SetLargeCursorSizeInDip (z : Z) : M unit := emod (λ s, s <| large_cursor_size_in_dip_ := z |>).
Definition GetLargeCursorSizeInDip (s : client) : Z := large_cursor_size_in_dip_ s.
Definition SetCursorColor (z : Z) : M unit := emod (λ s, s <| cursor_color_ := z |>).
Definition GetCursorColor (s : client) : Z := cursor_color_ s.
Definition EnableMouseEvents : M unit := emod (λ s, s <| mouse_events_enabled_ := true |>).
Definition DisableMouseEvents : M unit := emod (λ s, s <| mouse_events_enabled_ := false |>).
Definition IsMouseEventsEnabled (s : client) : bool := mouse_events_enabled_ s.
Definition SetDisplay (d : nat) : M unit := emod (λ s, s <| display_ := Some d |>).
Definition GetDisplay (s : client) : option nat := display_ s.

Definition LockCursor : M unit := emod (λ s, s <| cursor_lock_count_ := cursor_lock_count_ s + 1 |>).
Definition UnlockCursor : M unit :=
  emod (λ s, s <| cursor_lock_count_ := cursor_lock_count_ s - 1 |>);;
  s ← eget; ewhen (cursor_lock_count_ s <? 0) (emod (λ s, s <| cursor_lock_count_ := 0 |>)).
Definition IsCursorLocked (s : client) : bool := 0 <? cursor_lock_count_ s.

Definition AddObserver (o : nat) : M unit := emod (λ s, s <| observers_ := (observers_ s ++ [o])%list |>).
Definition RemoveObserver (o : nat) : M unit := emod (λ s, s <| observers_ := filter (λ x, x ≠ o) (observers_ s) |>).
Definition ShouldHideCursorOnKeyEvent : bool := true.
Definition ShouldHideCursorOnTouchEvent : bool := true.
Definition GetSystemCursorSize : Size := (25, 25).
Definition OnWindowDestroying : M unit := emod (λ s, s <| root_window_ := false |>).

Inductive input :=
| Sets (forced : bool) (cursor : Z) | Shows | Hides | Locks | Unlocks
| Sizes (z : Z) | LargeSizes (z : Z) | Colors (z : Z) | MouseEvents (b : bool) | Displays (d : nat)
| Adds (o : nat) | Removes (o : nat) | RootDestroyed.
Definition handle (i : input) : M unit :=
  match i with
  | Sets true c => SetCursorForced c | Sets false c => SetCursor c
  | Shows => ShowCursor | Hides => HideCursor | Locks => LockCursor | Unlocks => UnlockCursor
  | Sizes z => SetCursorSize z | LargeSizes z => SetLargeCursorSizeInDip z | Colors z => SetCursorColor z
  | MouseEvents true => EnableMouseEvents | MouseEvents false => DisableMouseEvents | Displays d => SetDisplay d
  | Adds o => AddObserver o | Removes o => RemoveObserver o | RootDestroyed => OnWindowDestroying
  end.
(** The count of locks is an [int]. *)
Definition enabled (i : input) (s : client) : bool :=
  match i with Locks => cursor_lock_count_ s <? 2 ^ 31 - 1 | _ => true end.

(** ** The cursor that is reported *)

Definition told1 (c : Z * bool) (e : event) : Z * bool := match e with Changed ty v => (ty, v) | _ => c end.
(** What the callback was last told. *)
Definition told (c : Z * bool) (tr : list event) : Z * bool := fold_left told1 tr c.
Definition shown (s : client) : Z * bool := (current_cursor_ s, visible_ s).

Lemma observers_told l v (s : client) c :
  let m : M unit := eseq ((λ o, emit (OnCursorVisibilityChanged o v)) <$> l) in
  exec m s = s ∧ told c (events m s) = c.
Proof.
  cbv zeta. induction l as [|o l IH]; [done|]. rewrite fmap_cons. cbn [eseq]. rewrite exec_bind, events_bind. exact IH.
Qed.
Lemma visibility_told v s c : change_callback_ s = true →
  exec (tell_observers v;; report) s = s ∧ told c (events (tell_observers v;; report) s) = shown s.
Proof.
  intros Hc. unfold tell_observers. rewrite exec_bind, events_bind, exec_get, events_get.
  destruct (observers_told (observers_ s) v s c) as [-> Ht].
  unfold report. rewrite exec_get, events_get, Hc. split; [done|]. unfold told in *. by rewrite fold_left_app, Ht.
Qed.

(** What each operation keeps: the callback, a count of locks that is not
    negative, and that the cursor is the one that was told. *)
Definition current (c : Z * bool) (s : client) : Prop :=
  change_callback_ s = true ∧ 0 <= cursor_lock_count_ s < 2 ^ 31 ∧ c = shown s.
Lemma step_current i s c : enabled i s = true → current c s →
  current (told c (events (handle i) s)) (exec (handle i) s).
Proof.
  intros Hen (Hc & Hl & ->). unfold current. destruct i as [[] z| | | | |z|z|z|[]|d|o|o|]; cbn [handle]; try done.
  - unfold SetCursorForced, HandleCursorSet, report. rewrite exec_mod, events_mod, exec_get, events_get. cbn. by rewrite Hc.
  - unfold SetCursor, HandleCursorSet, report. rewrite exec_mod, events_mod, exec_get, events_get. cbn. by rewrite Hc.
  - unfold ShowCursor. cbv zeta. rewrite exec_get, events_get, exec_mod, events_mod.
    destruct (visible_ s) eqn:Hs; cbn [negb ewhen]; [by destruct s; simpl in *; subst|].
    match goal with |- context [exec (tell_observers true;; report) ?s1] =>
      by destruct (visibility_told true s1 (shown s) Hc) as [-> ->] end.
  - unfold HideCursor. cbv zeta. rewrite exec_get, events_get, exec_mod, events_mod.
    destruct (visible_ s) eqn:Hs; cbn [negb ewhen]; [|by destruct s; simpl in *; subst].
    match goal with |- context [exec (tell_observers false;; report) ?s1] =>
      by destruct (visibility_told false s1 (shown s) Hc) as [-> ->] end.
  - simpl in Hen. apply Z.ltb_lt in Hen. split_and!; [done|cbn; lia|cbn; lia|done].
  - unfold UnlockCursor. rewrite exec_mod, events_mod, exec_get, events_get. cbn.
    destruct (Z.ltb_spec (cursor_lock_count_ s - 1) 0); cbn; split_and!; try done; lia.
Qed.

(** From the time a consumer is set it has been told the cursor that is current:
    whatever a page asks of the cursor, the last report is the shape and the
    visibility there are; and the cursor is never unlocked more than it was
    locked. *)
Theorem consumer_sees_cursor s0 s tr : change_callback_ s0 = true → cursor_lock_count_ s0 = 0 →
  reachable enabled handle s0 s tr →
  told (shown s0) tr = (current_cursor_ s, visible_ s) ∧ 0 <= cursor_lock_count_ s < 2 ^ 31.
Proof.
  intros Hc Hl Hr. enough (H : current (told (shown s0) tr) s) by (split; apply H).
  revert Hr. apply (reachable_trace_inv enabled handle s0 (λ s tr, current (told (shown s0) tr) s)).
  - split_and!; [done|lia|lia|done].
  - intros i s' tr' _ Ht Hen. unfold told. rewrite fold_left_app. by apply step_current.
Qed.
End Cursor.

Module Focus.

Record client := mkClient {
  focused_window_ : option nat;
  observed : option nat;                 (* the window the observation is of *)
  focus_observers_ : list nat;
  window_observer : gmap nat nat;        (* GetFocusChangeObserver, a property of a window *)
}.
#[export] Instance eta_client : Eta client := λ s,
  mkClient (focused_window_ s) (observed s) (focus_observers_ s) (window_observer s).
Definition CbFocusClient : client := mkClient None None [] ∅.

Inductive event := OnWindowFocused (observer : nat) (gained lost : option nat).
Abbreviation M := (eff client event).

Definition AddObserver (o : nat) : M unit := emod (λ s, s <| focus_observers_ := (focus_observers_ s ++ [o])%list |>).
Definition RemoveObserver (o : nat) : M unit :=
  emod (λ s, s <| focus_observers_ := filter (λ x, x ≠ o) (focus_observers_ s) |>).

Definition tell_window (w gained lost : option nat) : M unit :=
  s ← eget;
  match w ≫= λ w, window_observer s !! w with
  | Some o => emit (OnWindowFocused o gained lost)
  | None => mret tt
  end.
(** [can_focus]: [CanFocus] of the window. *)
Definition FocusWindow (can_focus : bool) (window : option nat) : M unit :=
  if bool_decide (is_Some window) && negb can_focus then mret tt
  else
    s ← eget;
    ewhen (bool_decide (is_Some (focused_window_ s))) (emod (λ s, s <| observed := None |>));;
    let old_focused_window := focused_window_ s in
    emod (λ s, s <| focused_window_ := window |>);;
    ewhen (bool_decide (is_Some window)) (emod (λ s, s <| observed := window |>));;
    eseq ((λ o, emit (OnWindowFocused o window old_focused_window)) <$> focus_observers_ s);;
    tell_window old_focused_window window old_focused_window;;
    tell_window window window old_focused_window.

(** [contains]: the window contains the focused one. *)
Definition ResetFocusWithinActiveWindow (contains can_focus : bool) (window : nat) : M unit :=
  ewhen (negb contains) (FocusWindow can_focus (Some window)).
Definition GetFocusedWindow (s : client) : option nat := focused_window_ s.
Definition OnWindowDestroying : M unit := FocusWindow true None.

Inductive input :=
| Adds (o : nat) | Removes (o : nat) | ObserverOf (w : nat) (o : option nat)
| Focuses (can_focus : bool) (w : option nat)
| Resets (contains can_focus : bool) (w : nat)
| WindowDestroyed (w : nat).
(** A window that is destroyed tells who observes it. *)
Definition handle (i : input) : M unit :=
  match i with
  | Adds o => AddObserver o | Removes o => RemoveObserver o
  | ObserverOf w o => emod (λ s, s <| window_observer := partial_alter (λ _, o) w (window_observer s) |>)
  | Focuses c w => FocusWindow c w
  | Resets c f w => ResetFocusWithinActiveWindow c f w
  | WindowDestroyed w => s ← eget; ewhen (bool_decide (observed s = Some w)) OnWindowDestroying
  end.

Lemma ret_run {A} (f : unit → M A) s : (mret tt ≫= f) s = f tt s.
Proof. unfold mbind, eff_bind, mret, eff_ret. by destruct (f tt s) as [[? ?] ?]. Qed.
Lemma tell_window_run w g l (s : client) : tell_window w g l s =
  (tt, s, (λ o, OnWindowFocused o g l) <$> option_list (w ≫= λ x, window_observer s !! x)).
Proof. unfold tell_window. rewrite get_run. by destruct (w ≫= _). Qed.
Lemma tell_all_run g l os (s : client) : (eseq ((λ o, emit (OnWindowFocused o g l)) <$> os) : M unit) s =
  (tt, s, (λ o, OnWindowFocused o g l) <$> os).
Proof. induction os as [|o os IH]; [done|]. rewrite !fmap_cons. cbn [eseq]. unfold mbind, eff_bind. cbn. by rewrite IH. Qed.

(** The state after and what is told of a change of focus. *)
Lemma focus_run can_focus w s : bool_decide (is_Some w) && negb can_focus = false →
  observed s = focused_window_ s →
  exec (FocusWindow can_focus w) s = s <| focused_window_ := w |> <| observed := w |> ∧
  events (FocusWindow can_focus w) s =
    ((λ o, OnWindowFocused o w (focused_window_ s)) <$> focus_observers_ s) ++
    ((λ o, OnWindowFocused o w (focused_window_ s)) <$>
      option_list (focused_window_ s ≫= λ x, window_observer s !! x)) ++
    ((λ o, OnWindowFocused o w (focused_window_ s)) <$> option_list (w ≫= λ x, window_observer s !! x)).
Proof.
  intros Hf Ho. unfold FocusWindow. rewrite Hf. destruct s as [fw ob fo wo]. simpl in Ho. subst ob.
  assert (E : ∀ s0, (eseq ((λ o, emit (OnWindowFocused o w fw)) <$> fo);; tell_window fw w fw;; tell_window w w fw) s0 =
    (tt, s0, ((λ o, OnWindowFocused o w fw) <$> fo) ++ ((λ o, OnWindowFocused o w fw) <$> option_list (fw ≫= λ x, window_observer s0 !! x)) ++
      ((λ o, OnWindowFocused o w fw) <$> option_list (w ≫= λ x, window_observer s0 !! x)))).
  { intros s0. unfold mbind, eff_bind. by rewrite tell_all_run, !tell_window_run. }
  rewrite exec_get, events_get. cbv zeta. cbn [focused_window_].
  assert (Hs : ∀ x : nat, bool_decide (is_Some (Some x)) = true) by (intros x; apply bool_decide_true; by eexists).
  assert (Hn : bool_decide (is_Some (@None nat)) = false) by (apply bool_decide_false; by intros [? ?]).
  unfold exec, events.
  destruct fw as [f|], w as [w|]; unfold ewhen; rewrite ?Hs, ?Hn; cbv iota;
    rewrite ?mod_run, ?ret_run, ?mod_run, ?ret_run, E; done.
Qed.

(** A window that is focused is observed, and one that is destroyed has no focus
    any more: the client never hands out a window that is gone. *)
Theorem focus_follows_windows s tr : reachable (λ _ _, true) handle CbFocusClient s tr →
  observed s = GetFocusedWindow s ∧ ∀ w, GetFocusedWindow (exec (handle (WindowDestroyed w)) s) ≠ Some w.
Proof.
  intros Hr. assert (Ho : observed s = focused_window_ s).
  { revert Hr. apply (reachable_inv (λ _ _, true) handle CbFocusClient (λ s, observed s = focused_window_ s)); [done|].
    assert (Hf : ∀ c w s', observed s' = focused_window_ s' → observed (exec (FocusWindow c w) s') = focused_window_ (exec (FocusWindow c w) s')).
    { intros c w s' H. destruct (bool_decide (is_Some w) && negb c) eqn:Hn; [by unfold FocusWindow; rewrite Hn|].
      by destruct (focus_run c w s' Hn H) as [-> _]. }
    intros i s' H _. destruct i as [o|o|w o|c w|c f w|w]; cbn [handle]; try done.
    - by apply Hf.
    - unfold ResetFocusWithinActiveWindow. destruct c; [done|by apply Hf].
    - rewrite exec_get. case_bool_decide; [by apply Hf|done]. }
  split; [exact Ho|]. intros w. unfold GetFocusedWindow. cbn [handle]. rewrite exec_get. case_bool_decide as Hw; cbn [ewhen].
  - unfold OnWindowDestroying. by destruct (focus_run true None s eq_refl Ho) as [-> _].
  - change (focused_window_ s ≠ Some w). by rewrite <-Ho.
Qed.
End Focus.

Module Parenting.
(** [CbWindowParentingClient]: the root it is registered with is everyone's parent. *)
Definition GetDefaultParent (root_window : nat) : nat := root_window.
End Parenting.

Module Layout.

(** [FillLayout]: the size of the root and of its children. *)
Record layout := mkLayout { root_bounds : Rect; has_bounds_ : bool; children : gmap nat Rect }.
#[export] Instance eta_layout : Eta layout := λ s, mkLayout (root_bounds s) (has_bounds_ s) (children s).
Definition FillLayout (root : Rect) : layout := mkLayout root (negb (IsEmpty (rect_size root))) ∅.

Definition OnWindowResized (s : layout) : layout :=
  if has_bounds_ s then s
  else s <| has_bounds_ := true |> <| children := (λ _, at_origin (rect_size (root_bounds s))) <$> children s |>.
Definition OnWindowAddedToLayout (child : nat) (s : layout) : layout :=
  s <| children := <[child := root_bounds s]> (children s) |>.
Definition SetChildBounds (child : nat) (requested_bounds : Rect) (s : layout) : layout :=
  s <| children := <[child := requested_bounds]> (children s) |>.
(** The host is resized: the root takes the size and the layout is told. *)
Definition resize (b : Rect) (s : layout) : layout := OnWindowResized (s <| root_bounds := b |>).

(** The first size a root without one gets is the size of its children; after
    that, or when it had one from the start, its children keep theirs: a resize
    of the host has to resize the page as well. *)
Theorem children_filled_once root b1 b2 c r :
  let s := OnWindowAddedToLayout c (FillLayout root) in
  (IsEmpty (rect_size root) = true →
    children (resize b1 s) !! c = Some (at_origin (rect_size b1)) ∧ children (resize b2 (resize b1 s)) = children (resize b1 s)) ∧
  (IsEmpty (rect_size root) = false → children (resize b1 (SetChildBounds c r s)) !! c = Some r).
Proof.
  cbv zeta. unfold resize, OnWindowResized, OnWindowAddedToLayout, SetChildBounds, FillLayout. cbn.
  split; intros ->; cbn; [split; [|done]; rewrite lookup_fmap|]; by rewrite lookup_insert, decide_True.
Qed.
End Layout.

(** ** Witnesses *)

Definition moving : list Cursor.input := [Cursor.Sets false 3; Cursor.Hides; Cursor.Unlocks; Cursor.Shows; Cursor.Sets true 5; Cursor.Hides].
Definition watched : Cursor.client := exec (Cursor.SetCursorChangeCallback true) (Cursor.CbCursorClient 0 0 64 0).
Lemma consumer_sees_cursor_witness :
  Cursor.told (Cursor.shown watched) (events (run Cursor.handle moving) watched) = (5, false).
Proof.
  refine (proj1 (Cursor.consumer_sees_cursor watched (exec (run Cursor.handle moving) watched) _ eq_refl eq_refl _)).
  apply run_reachable. vm_compute. reflexivity.
Defined.
Definition focusing : list Focus.input := [Focus.Adds 1; Focus.Focuses true (Some 7%nat); Focus.Focuses false (Some 8%nat)].
Lemma focus_follows_windows_witness :
  Focus.GetFocusedWindow (exec (run Focus.handle focusing) Focus.CbFocusClient) = Some 7%nat ∧
  Focus.GetFocusedWindow (exec (Focus.handle (Focus.WindowDestroyed 7)) (exec (run Focus.handle focusing) Focus.CbFocusClient)) ≠ Some 7%nat.
Proof.
  split; [vm_compute; reflexivity|].
  refine (proj2 (Focus.focus_follows_windows (exec (run Focus.handle focusing) Focus.CbFocusClient) _ _) 7%nat).
  apply run_reachable. vm_compute. reflexivity.
Defined.
