(* ===== verification/ProcessSetup.v ===== *)
(** * Set-up of the process (capture/build-integration/cloud_browser_pcf,
      cloud_browser_browser_context, cb_x264_alignment_shim; capture/audio/
      cb_audio_device_module, cb_audio_options)

    The decisions that are taken while chromium's and libwebrtc's objects are
    made: the directory of a profile, the order of the codecs, the audio device,
    the alignment x264 gets. *)

From Stdlib Require Import ZArith Lia String.
From stdpp Require Import base tactics strings pretty numbers gmap sets sorting list.
From S2P Require Import Prelude.
Open Scope Z_scope.

Module Profiles.

(** [FilePath::AppendASCII] and [FilePath::empty] on paths as text. *)
Class PathLib := { AppendASCII : string → string → string }.
(** Children of a directory are told apart by name, and are not the directory. *)
Class PathLibLaws (L : PathLib) := {
  append_inj d : Inj eq eq (AppendASCII d);
  append_beneath d n : AppendASCII d n ≠ d;
}.

Section profiles.
Context {L : PathLib}.

(** What the process was started with: [--user-data-dir], and the directory for
    temporary files. *)
Record process := mkProcess { user_data_dir : option string; temp_dir : string; g_next_profile_id : Z }.
#[export] Instance eta_process : Eta process := λ s, mkProcess (user_data_dir s) (temp_dir s) (g_next_profile_id s).

(** [StringPrintf] of a [%llu]. *)
Definition numbered (stem : string) (id : Z) : string := (stem ++ pretty (Z.to_N id))%string.

Definition NextProfilePath (s : process) : string * process :=
  let profile_id := g_next_profile_id s in
  let s' := s <| g_next_profile_id := (profile_id + 1) mod 2 ^ 64 |> in
  let temporary := AppendASCII (temp_dir s) (numbered "cloud_browser_profile_" profile_id) in
  match user_data_dir s with
  | Some root =>
      if String.eqb root "" then (temporary, s')
      else if profile_id =? 0 then (root, s')
      else (AppendASCII root (numbered "context_" profile_id), s')
  | None => (temporary, s')
  end.

(** The paths of the next [n] contexts. *)
Fixpoint paths (n : nat) (s : process) : list string :=
  match n with
  | O => []
  | S n' => let '(p, s') := NextProfilePath s in p :: paths n' s'
  end.

Context {LL : PathLibLaws L}.

Lemma numbered_inj stem i j : 0 <= i → 0 <= j → numbered stem i = numbered stem j → i = j.
Proof.
  unfold numbered. intros Hi Hj H. apply (inj (String.append stem)) in H. apply (inj pretty) in H. lia.
Qed.

Definition path_of (s : process) (i : Z) : string :=
  match user_data_dir s with
  | Some root => if String.eqb root "" then AppendASCII (temp_dir s) (numbered "cloud_browser_profile_" i)
      else if i =? 0 then root else AppendASCII root (numbered "context_" i)
  | None => AppendASCII (temp_dir s) (numbered "cloud_browser_profile_" i)
  end.
Lemma path_of_inj s i j : 0 <= i → 0 <= j → path_of s i = path_of s j → i = j.
Proof.
  intros Hi Hj. unfold path_of.
  assert (Ht : ∀ d stem, AppendASCII d (numbered stem i) = AppendASCII d (numbered stem j) → i = j).
  { intros d stem H. apply (append_inj d) in H. by eapply numbered_inj. }
  destruct (user_data_dir s) as [root|]; [|apply Ht]. destruct (String.eqb root ""); [apply Ht|].
  destruct (Z.eqb_spec i 0) as [->|], (Z.eqb_spec j 0) as [->|]; intros H; [done| | |by eapply Ht].
  - by destruct (append_beneath root (numbered "context_" j)).
  - by destruct (append_beneath root (numbered "context_" i)).
Qed.
Lemma paths_are n s : 0 <= g_next_profile_id s → g_next_profile_id s + Z.of_nat n < 2 ^ 64 →
  paths n s = path_of s <$> seqZ (g_next_profile_id s) (Z.of_nat n).
Proof.
  revert s. induction n as [|n IH]; intros s H0 Hn; [done|]. cbn [paths].
  assert (E : NextProfilePath s = (path_of s (g_next_profile_id s), s <| g_next_profile_id := g_next_profile_id s + 1 |>)).
  { unfold NextProfilePath, path_of. rewrite Z.mod_small by lia. destruct (user_data_dir s) as [r|]; [|done].
    by destruct (String.eqb r ""), (g_next_profile_id s =? 0). }
  rewrite E, IH by (cbn; lia). rewrite (seqZ_cons (g_next_profile_id s)) by lia. cbn [fmap list_fmap]. f_equal.
  cbn [g_next_profile_id set_field]. replace (Z.pred (Z.of_nat (S n))) with (Z.of_nat n) by lia.
  apply list_fmap_ext. intros k x _. reflexivity.
Qed.

(** No two browser contexts of a process share a directory, and the first one
    gets the directory the process was started with. *)
Theorem profiles_apart n s : g_next_profile_id s = 0 → Z.of_nat n < 2 ^ 64 →
  NoDup (paths n s) ∧ (∀ root, user_data_dir s = Some root → root ≠ EmptyString → (0 < n)%nat → head (paths n s) = Some root).
Proof.
  intros H0 Hn. rewrite paths_are, H0 by lia. split.
  - apply (NoDup_fmap_2_strong (path_of s)); [|apply NoDup_seqZ].
    intros i j Hi%elem_of_seqZ Hj%elem_of_seqZ. apply path_of_inj; lia.
  - intros root Hr Hne Hp. rewrite seqZ_cons by lia. cbn. unfold path_of. rewrite Hr.
    by destruct (String.eqb_spec root "").
Qed.
End profiles.
End Profiles.

Module PeerConnectionFactory.

Record codec := mkCodec { name : string; payload : Z }.

Definition FormatPcfVideoCodecLogLine (codecs : list codec) : string :=
  ("CloudBrowser: PCF video sender codecs = [" ++ String.concat "," (name <$> codecs) ++ "]")%string.

Definition BuildFirstLightVideoCodecPreferences (codecs : list codec) : list codec :=
  (List.filter (λ c, String.eqb (name c) "H264") codecs ++ List.filter (λ c, negb (String.eqb (name c) "H264")) codecs)%list.

Definition is_h264 (c : codec) : bool := String.eqb (name c) "H264".
Lemma kept_in (f : codec → bool) c l : c ∈ List.filter f l → f c = true.
Proof. intros H%list_elem_of_In%filter_In. apply H. Qed.
Lemma named_kept n codecs :
  List.filter (λ c, String.eqb (name c) n) (BuildFirstLightVideoCodecPreferences codecs) =
  List.filter (λ c, String.eqb (name c) n) codecs.
Proof.
  unfold BuildFirstLightVideoCodecPreferences. rewrite List.filter_app.
  induction codecs as [|c l IH]; [done|]. simpl.
  destruct (String.eqb_spec (name c) "H264") as [Hh|Hh]; simpl; destruct (String.eqb_spec (name c) n) as [Hn|Hn]; simpl;
    rewrite ?IH; try done.
  rewrite <-IH.
  assert (E : List.filter (λ c, String.eqb (name c) n) (List.filter (λ c, String.eqb (name c) "H264") l) = []).
  { clear -Hh Hn. induction l as [|d l IH]; [done|]. simpl. destruct (String.eqb_spec (name d) "H264") as [Hd|]; [|done].
    simpl. destruct (String.eqb_spec (name d) n); [congruence|done]. }
  by rewrite E.
Qed.

(** The preferences are the codecs there are, H.264 before all others, and
    otherwise in their order. *)
Theorem h264_first codecs : let out := BuildFirstLightVideoCodecPreferences codecs in
  out ≡ₚ codecs ∧
  (∀ l c d r, out = (l ++ c :: r)%list → d ∈ r → is_h264 d = true → is_h264 c = true) ∧
  (∀ n, List.filter (λ c, String.eqb (name c) n) out = List.filter (λ c, String.eqb (name c) n) codecs).
Proof.
  cbv zeta. split_and!; [| |intros n; apply named_kept].
  - unfold BuildFirstLightVideoCodecPreferences. induction codecs as [|c l IH]; [done|]. simpl.
    destruct (String.eqb (name c) "H264"); simpl; [by constructor|]. rewrite <-Permutation_middle. by constructor.
  - unfold BuildFirstLightVideoCodecPreferences. intros l c d r Ho Hd Hh.
    assert (Hno : ∀ x, x ∈ List.filter (λ c, negb (is_h264 c)) codecs → is_h264 x = false)
      by (intros x Hx%kept_in; by apply negb_true_iff).
    symmetry in Ho. apply app_eq_inv in Ho as [(k & -> & Hk)|(k & HA & Hk)].
    + assert (Hin : d ∈ List.filter (λ c, negb (is_h264 c)) codecs) by (change (d ∈ List.filter (λ c, negb (String.eqb (name c) "H264")) codecs); rewrite Hk; set_solver).
      by rewrite (Hno d Hin) in Hh.
    + destruct k as [|x k]; simpl in Hk.
      * assert (Hin : d ∈ List.filter (λ c, negb (is_h264 c)) codecs) by (change (d ∈ List.filter (λ c, negb (String.eqb (name c) "H264")) codecs); rewrite <-Hk; set_solver).
        by rewrite (Hno d Hin) in Hh.
      * injection Hk as <- _. apply (kept_in (λ c, String.eqb (name c) "H264") c codecs). rewrite HA. set_solver.
Qed.

(** *** The audio device *)

Inductive event := CreateDevice (layer : bool) | Init.      (* [true]: the platform's; [false]: the dummy *)
(** What libwebrtc gives: a device of the platform, whether it starts, a dummy. *)
Record audio := mkAudio { platform_device : option nat; init_ok : bool; dummy_device : option nat }.

Definition CreateCloudBrowserNativeAudioDeviceModule (a : audio) (task_queue_factory : bool) : option nat * list event :=
  if negb task_queue_factory then (None, [])
  else
    match platform_device a with
    | None => (None, [CreateDevice true])
    | Some adm => if init_ok a then (Some adm, [CreateDevice true; Init]) else (None, [CreateDevice true; Init])
    end.
Definition CreateCloudBrowserDefaultAudioDeviceModule (a : audio) : option nat * list event :=
  let '(adm, es) := CreateCloudBrowserNativeAudioDeviceModule a true in
  match adm with
  | Some adm => (Some adm, es)
  | None => (dummy_device a, es ++ [CreateDevice false])%list
  end.
(** The device of the factory's dependencies: the caller's, or the default. *)
Definition dependencies_adm (a : audio) (adm : option nat) : option nat :=
  match adm with Some adm => Some adm | None => (CreateCloudBrowserDefaultAudioDeviceModule a).1 end.

Record AudioOptions := mkOptions {
  echo_cancellation : option bool; auto_gain_control : option bool; noise_suppression : option bool;
  highpass_filter : option bool;
}.
Definition BuildMediaAudioOptions : AudioOptions := mkOptions (Some false) (Some false) (Some false) (Some false).

(** A device of the platform is used only when it has started; without one the
    worker has the dummy. *)
Theorem audio_device_started a adm : dependencies_adm a None = Some adm →
  (platform_device a = Some adm ∧ init_ok a = true) ∨ dummy_device a = Some adm.
Proof.
  unfold dependencies_adm, CreateCloudBrowserDefaultAudioDeviceModule, CreateCloudBrowserNativeAudioDeviceModule.
  cbn [negb]. destruct (platform_device a) as [d|]; [|by right]. destruct (init_ok a); simpl; [by left|by right].
Qed.
End PeerConnectionFactory.

Module AlignmentShim.

Definition kX264NativeAlign : Z := 64.

Record shim := mkShim { installed : bool; g_logged_first_clamp : bool }.
#[export] Instance eta_shim : Eta shim := λ s, mkShim (installed s) (g_logged_first_clamp s).

Inductive event := InsertAllocatorDispatch | RawLog | NextAllocAligned (alignment size : Z).
Abbreviation M := (eff shim event).

Section shim.
Variable kMaxSupportedAlignment : Z.     (* of PartitionAlloc *)

Definition InstallX264AlignmentShim : M unit :=
  s ← eget;
  ewhen (negb (installed s)) (emod (λ s, s <| installed := true |>);; emit InsertAllocatorDispatch).

Definition ClampedAllocAligned (alignment size : Z) : M unit :=
  if kMaxSupportedAlignment <? alignment then
    s ← eget;
    emod (λ s, s <| g_logged_first_clamp := true |>);;
    ewhen (negb (g_logged_first_clamp s)) (emit RawLog);;
    emit (NextAllocAligned kX264NativeAlign size)
  else emit (NextAllocAligned alignment size).

(** An allocation goes through the shim once it is in the chain. *)
Inductive input := Install | Alloc (alignment size : Z).
Definition handle (i : input) : M unit :=
  match i with Install => InstallX264AlignmentShim | Alloc a z => ClampedAllocAligned a z end.
Definition enabled (i : input) (s : shim) : bool := match i with Install => true | Alloc _ _ => installed s end.

Definition inserts (tr : list event) : nat := length (List.filter (λ e, match e with InsertAllocatorDispatch => true | _ => false end) tr).
Definition logs (tr : list event) : nat := length (List.filter (λ e, match e with RawLog => true | _ => false end) tr).
Definition supported (e : event) : Prop :=
  match e with NextAllocAligned a _ => a <= kMaxSupportedAlignment | _ => True end.

(** However many encoders install it, the shim is in the chain once; it logs
    once; and what it passes on is never more than the allocator supports. *)
Theorem allocations_supported s tr : kX264NativeAlign <= kMaxSupportedAlignment →
  reachable enabled handle (mkShim false false) s tr →
  inserts tr = (if installed s then 1 else 0)%nat ∧ logs tr = (if g_logged_first_clamp s then 1 else 0)%nat ∧
  Forall supported tr.
Proof.
  intros Hk. apply (reachable_trace_inv enabled handle (mkShim false false)
    (λ s tr, inserts tr = (if installed s then 1 else 0)%nat ∧ logs tr = (if g_logged_first_clamp s then 1 else 0)%nat ∧
      Forall supported tr)); [by split_and!|].
  intros i [ins lg] tr' _ (H1 & H2 & H3) _. simpl in *. unfold inserts, logs in *. rewrite !List.filter_app, !length_app, H1, H2.
  destruct i as [|a z]; cbn [handle].
  - unfold InstallX264AlignmentShim. run_eff. destruct ins; simpl; (split_and!; [lia|lia|]); apply Forall_app; by repeat constructor.
  - unfold ClampedAllocAligned. destruct (Z.ltb_spec kMaxSupportedAlignment a); run_eff.
    + destruct lg; simpl; (split_and!; [lia|lia|]); apply Forall_app; by repeat constructor.
    + split_and!; [lia|lia|]. apply Forall_app. by repeat constructor.
Qed.
End shim.
End AlignmentShim.

(** ** Witnesses *)

#[local] Instance text_paths : Profiles.PathLib := {| Profiles.AppendASCII d n := (d ++ "/" ++ n)%string |}.
#[local] Instance text_paths_laws : Profiles.PathLibLaws text_paths.
Proof.
  split.
  - intros d x y H. cbn in H. apply (inj (String.append d)) in H. by injection H.
  - intros d n H. assert (E : String.length (Profiles.AppendASCII d n) = String.length d) by (f_equal; exact H).
    cbn in E. rewrite str_length_app in E. simpl in E. lia.
Defined.
Definition fresh_process : Profiles.process := Profiles.mkProcess (Some "/home/cbuser/.config/chromium"%string) "/tmp" 0.
Lemma profiles_apart_witness : NoDup (Profiles.paths 3 fresh_process) ∧
  Profiles.paths 3 fresh_process = ["/home/cbuser/.config/chromium"; "/home/cbuser/.config/chromium/context_1";
    "/home/cbuser/.config/chromium/context_2"]%string.
Proof.
  split; [|vm_compute; reflexivity].
  refine (proj1 (Profiles.profiles_apart 3 fresh_process eq_refl _)). vm_compute. reflexivity.
Defined.
Lemma audio_device_started_witness :
  let a := PeerConnectionFactory.mkAudio (Some 1%nat) false (Some 2%nat) in
  PeerConnectionFactory.dependencies_adm a None = Some 2%nat ∧ PeerConnectionFactory.dummy_device a = Some 2%nat.
Proof.
  split; [reflexivity|].
  destruct (PeerConnectionFactory.audio_device_started (PeerConnectionFactory.mkAudio (Some 1%nat) false (Some 2%nat)) 2 eq_refl)
    as [[? [=]]|H]; exact H.
Defined.
Definition allocating : list AlignmentShim.input :=
  [AlignmentShim.Install; AlignmentShim.Install; AlignmentShim.Alloc 4194304 64; AlignmentShim.Alloc 64 64; AlignmentShim.Alloc 4194304 1].
Lemma allocations_supported_witness :
  let tr := events (run (AlignmentShim.handle 2097152) allocating) (AlignmentShim.mkShim false false) in
  AlignmentShim.inserts tr = 1%nat ∧ AlignmentShim.logs tr = 1%nat.
Proof.
  refine ((λ H, conj (proj1 H) (proj1 (proj2 H))) (AlignmentShim.allocations_supported 2097152
    (exec (run (AlignmentShim.handle 2097152) allocating) (AlignmentShim.mkShim false false)) _ _ _)).
  - unfold AlignmentShim.kX264NativeAlign. lia.
  - apply run_reachable. vm_compute. reflexivity.
Defined.
